(* ===== verification/_CoqProject ===== *)
-Q . S2P
Prelude.v
GoLib.v
Kernel.v
Api.v
Mesh.v
Config.v
Firewall.v
IPTables.v
IPTablesManager.v
FirewallManager.v
Networker.v
NetworkerSafety.v
MeshnetServer.v
MeshnetPeers.v
MeshnetSafety.v
MeshnetProps.v
Exitnode.v
ExitnodeTables.v
ExitnodeSafety.v
ExitnodeChains.v
ExitnodeServer.v
ExitnodeDecision.v
ExitnodeProps.v
Auth.v
Json.v
ConfigFile.v
Servers.v
ServersProps.v
Daemon.v
Settings.v
DaemonSafety.v
DaemonProps.v
Routes.v
RoutesKernel.v
RoutesProps.v
RoutesTable.v
Transfers.v
Fileshare.v
FileshareProps.v
GoText.v
Machine.v
Dns.v
DnsProps.v
AllowlistRouting.v
Tunnel.v
Telio.v
TelioProps.v
NordLynx.v
OpenVpn.v
OpenVpnProps.v
Geo.v
Cache.v
CacheProps.v
Validate.v
Client.v
MeshClient.v
ClientProps.v
Info.v
InfoProps.v
State.v
StateProps.v
Norduser.v
NorduserProps.v
Nc.v
NcProps.v
Remote.v
