(* ===== verification/Prelude.v ===== *)
(** * nordvpn-linux: a verification development of the daemon

    The program is the NordVPN daemon for Linux.  A command line client and other
    user processes send gRPC requests to the daemon; the daemon keeps the
    configuration, talks to the account and meshnet API, and drives a networker,
    which owns the VPN tunnel, the meshnet, the firewall, the routing and the DNS of
    the machine.  What makes it correct is mostly what it does to the firewall:
    traffic must not leave the machine outside the tunnel while the kill switch is
    set, peers must have exactly the access they were given, and rules that were
    added must be removed again.

    ** Parts, files and sources

    - Prelude (this file): record update, Go errors, the state and error monad in
      which methods are written, reasoning about it ([wp], [preserves], [ensures])
      and the tactics the other files share.
    - GoLib: what the code uses of Go's standard library (strings, slices,
      [net/netip], sorting, number formatting).
    - Kernel: [kernel/], [ipv6/ipv6.go], [daemon/routes/rp_filter.go]; kernel
      parameters read and written through [sysctl], and their users.
    - Api: [core/errors.go]; the error values of the API client and how a response
      becomes one.
    - Mesh: [core/mesh/peer.go]; machines, peers and their protobuf form.
    - Config: [config/config.go], [config/token.go], [config/field.go],
      [config/allowlistlist.go], [auth.Logout].
    - Firewall: [daemon/firewall/firewall.go], [rule.go], [errors.go]; the rule
      memory and the firewall service, which forwards rules to an agent that can
      be swapped for a no-op.
    - IPTables: [daemon/firewall/iptables/iptables.go]; the agent that turns rules
      into [iptables] lines.
    - IPTablesManager: [daemon/firewall/iptables_manager/iptables_manager.go];
      rules at a priority inside a chain.
    - FirewallManager: [daemon/firewall/firewall_manager.go]; traffic block,
      allowlist and peer rules on top of the iptables manager.
    - Networker: [networker/networker.go], [vpn.go], [listener.go],
      [allowlist_lan.go]; the state [Combined] and every operation.
    - NetworkerSafety: the properties of the networker.
    - MeshnetServer, MeshnetPeers: [meshnet/server.go], [meshnet/register.go];
      every handler of the meshnet service.
    - MeshnetSafety, MeshnetProps: the properties of the meshnet service.
    - Exitnode: [meshnet/exitnode]; forwarding and masquerading for the peers, as
      the text of [iptables] commands.  ExitnodeTables gives these commands their
      meaning on chains of rules; ExitnodeSafety, ExitnodeChains, ExitnodeServer and
      ExitnodeDecision follow every method through the chains up to the verdict for
      a packet; ExitnodeProps has the properties.
    - Auth: [auth/auth.go]; account checks and the renewal of tokens, on the
      configuration behind [ConfigManager].
    - Json, ConfigFile: the JSON form of the configuration, [config/manager.go] and
      [internal/crypto.go]; the encrypted file with its key in a second file.
    - Servers, ServersProps: [daemon/servers.go], [core/models.go]; choosing a VPN
      server.
    - Daemon: [daemon/rpc.go], [rpc_connect.go], [rpc_disconnect.go],
      [rpc_login.go], [rpc_logout.go], [rpc_token.go], the kill switch of
      [daemon/jobs.go], [network/], [daemon/dns/nameservers.go].
    - Settings: every [daemon/rpc_set_*.go] and [daemon/rpc_settings.go], and
      [serve], which handles any request.
    - DaemonSafety, DaemonProps: the properties of the daemon service on top of the
      networker.
    - Routes: [daemon/routes]; the router and the policy router with their netlink
      agents, the search for a gateway and the groups of the interfaces.
      RoutesKernel is a kernel in memory; RoutesProps has the properties of the
      policy rules, RoutesTable those of routes, gateways and groups.
    - Transfers: [fileshare/transfer.go], [events.go], [libdrop/], [storage/]; the
      transfers, their translation from libdrop and the storages.  Fileshare:
      [fileshare/event_manager.go], [notification_manager.go], [server.go],
      [peers.go]; the events, the notifications and the requests of file sharing.
      FileshareProps has the properties.
    - GoText: white space and lines of a text.  Machine: [internal/filesystem.go];
      files in memory whose calls may fail, and commands of other programs.
    - Dns: [daemon/dns]; the four ways to set name servers and the lines of the hosts
      file.  DnsProps has the properties.
    - AllowlistRouting: [daemon/firewall/allowlist]; rules that mark the traffic of
      allowlisted ports, and their removal.
    - Tunnel: [tunnel/tunnel.go], [daemon/vpn/state.go], [network.go],
      [daemon/vpn/nordlynx/nordlynx.go]; the interface, its addresses and its MTU.
      Telio: [daemon/vpn/nordlynx/libtelio/libtelio.go], [sharedctx/]; the VPN and the
      meshnet over libtelio, with the goroutines that watch a connection.  TelioProps
      has the properties.  NordLynx: [kernel_space.go]; the VPN in the kernel, and the
      properties of its start.  OpenVpn: [daemon/vpn/openvpn]; the configuration, the
      process with its management client and the handlers of its events.  OpenVpnProps
      has the properties.
    - Geo: [daemon/penalty.go], [distance.go], [random.go]; the penalty of a server, in
      the arithmetic of 53-bit floats, and sorting.  Cache: [daemon/data_manager.go],
      [data_models.go] and the jobs [daemon/job_*.go]; the data the daemon keeps of the
      API, with its files.  CacheProps has the properties.
    - Validate: [daemon/response/validate.go]; which responses are accepted.  Client:
      [core/core.go], [cdn.go], [authentication.go], [request/]; the calls of the API and
      the CDN, the login and the transports.  MeshClient: [core/mesh.go],
      [core/mesh/json.go], [meshnet/registry/]; the calls of the meshnet.  ClientProps
      has the properties.
    - Info: [daemon/rpc_account.go] and the other requests of [daemon/rpc_*.go] that ask
      for something, [connecton_data.go], and connecting by itself of [jobs.go].  InfoProps
      has the properties.
    - State: [daemon/state/state.go], [daemon/rpc_state.go]; the streams of the changes of
      the state.  StateProps has the properties.
    - Norduser: [norduser/], [norduser/service/fork.go]; the processes of the users.
      NorduserProps has the properties.
    - Nc: [nc/nc.go], [nc/creds_fetcher.go]; the client of the notification centre.
      NcProps has the properties.  Remote: [config/remote/firebase.go]; the remote
      configuration, with its properties.

    Definitions carry the names of the functions they model; helpers that name a
    part of a Go function (a loop, a closure, a rule literal) have names in lower
    case with underscores.  Records have a field prefix per type ([nw_], [fw_],
    [sv_], ...).

    ** Interfaces

    Components are connected as in the code.  The firewall service works on an
    [Agent] (laws: [LawfulAgent]); the iptables agent on [Iptables]; the iptables
    manager on a [CommandRunner] (laws: [LawfulRunner], what [iptables] documents of
    listing, inserting and deleting); the firewall manager on a [RuleTable] (laws:
    [LawfulRuleTable], discharged by the iptables manager); the networker on
    [Collaborators] (VPN, meshnet library, DNS, routes, IPv6, exit node, device
    listing); the meshnet service on [MeshNetworker], which the networker
    implements, and on [MeshApi] (account, registry, invitations, configuration
    file, name servers; laws for the registry: [Registry]); the exit node on a
    command runner; the account checks on [ConfigManager] and [CredentialsAPI]; the
    configuration file on [Codecs] and [Host]; the daemon service on
    [DaemonNetworker], which the networker implements, and on [DaemonEnv] (all of
    the above, with the cached server data).  The
    routers work on [Netlink] (laws: [NetlinkLaws], [GroupLaws]); file sharing on
    [FileshareEnv] (libdrop, mesh service, desktop notifier, file system) with a
    [Storage]; the DNS on [System] (laws: [AttrTools], [NoResolver]) beside the files
    of [Machine]; the allowlist routing on [MangleRunner] (laws: [MangleLaws]); the VPNs on
    [System], [NetDevices] and [TempFiles] (laws: [LinkLaws]), on [TelioLib] and on [OpenvpnLib] (laws:
    [StopLaws]); the cache on [CacheEnv], the encoding [Gob] (laws: [GobLaws]) and [Math]
    (laws: [MathLaws]); the client on [Http], [Signing] (laws: [SigningLaws]) and the
    JSON of each message ([JsonIn], [JsonOut]); the requests that ask on [InfoEnv] (laws:
    [InfoLaws]); the processes of the users on [NorduserHost] and [MonitorEnv] (laws:
    [NorduserLaws]); the notification client on [NcEnv] (laws: [NcLaws]); the remote
    configuration on [RemoteEnv] and [Semver] (laws: [RemoteLaws], [SemverLaws]).  Calls of an interface
    may fail at any point with any error unless a law says otherwise.  Every
    interface with laws has a concrete instance on which the witnesses compute
    ([ListAgent], [Tables], [Chains], [Sim], [ApiSim], [Memory], [Desk],
    [MemNetlink], [Box], [Mangle], ...).

    ** What the theorems show

    - The firewall service keeps the agent in step with its memory for every
      sequence of calls, and its memory is a map by name ([Firewall]).
    - Port ranges are exact, adding and deleting a rule through [iptables] is a
      round trip ([IPTables]); inserting at a priority and deleting restores every
      chain ([IPTablesManager]); after any sequence of operations the chains hold
      exactly the remembered rules beside the foreign ones ([FirewallManager]).
    - The kill switch: once set, no sequence of other networker calls removes its
      rules from memory or from the agent, whichever calls fail; reconnecting never
      opens a gap ([NetworkerSafety]); no sequence of meshnet requests lifts it
      ([MeshnetProps]).
    - The meshnet service: requests of a logged out account change nothing, an
      account told to log in has lost its token, requests change only the settings
      that are theirs, a permission request flips one flag of one peer or nothing,
      a successful connect went to a peer that allows it, and the networker is out
      of reach while the meshnet is off, apart from the handlers named there.
    - The exit node: after a refresh the chains decide for every packet as the
      permissions of the peers, the kill switch and the allowlist say, and disabling
      it restores the tables ([ExitnodeProps]).
    - The daemon service: a kill switch that was set by a request stays in the
      firewall through every sequence of other requests, and the saved settings
      stay consistent with each other ([DaemonProps]); a chosen server meets the
      request ([ServersProps]); checking an account logs nobody out whom the API
      did not reject ([Auth]).
    - The configuration file implements a cell: what is loaded is what was saved,
      through the key file, both encryptions and the JSON form ([ConfigFile]).
    - Kernel parameters are given back ([Kernel]), and so are the policy rules, the
      routes and the groups of the interfaces, whichever calls failed before, where
      the theorems say; the gateway found is the one the rules and routes prefer
      ([RoutesProps], [RoutesTable]).
    - File sharing: no progress channel is used after it was closed, the totals of
      live transfers are exact, nothing is downloaded without permission, accepting
      checks what it says, and a finished transfer is forgotten ([FileshareProps]).
    - The DNS: editing [resolv.conf] and undoing it is a round trip, the hosts file
      keeps the part of the user, the arguments for systemd-resolved have the type they
      declare ([DnsProps]); the allowlist routing removes its rules and only these
      ([AllowlistRouting]).
    - The VPN: the tunnel exists while the VPN or the meshnet uses it, what the monitors
      announce alternates, and which address the tunnel has ([TelioProps]); how a start
      in the kernel ends ([NordLynx]); how a start of OpenVPN ends, which failures end
      it, and that it announces only changes ([OpenVpnProps]).
    - The cache: its servers are those of the API with their keys and penalties, in the
      order of the penalties when these are numbers; what was cached is there after a
      restart; a list for the user is exact ([CacheProps]).
    - The client hands on only what the API signed for this time, a request for a token
      proves the login it belongs to, and a request fails only when the transport of last
      resort fails it ([ClientProps]).
    - The requests that ask change no setting, and the map of the servers is exact
      ([InfoProps]).  The streams of changes never use a closed channel and tell the
      changes in order ([StateProps]).  A process of the user runs exactly for the members
      of the group who are logged in ([NorduserProps]).  The notification client holds at
      most one connection and none after a stop ([NcProps]); the remote configuration
      gives the field for the version of the program ([Remote]).
    - Flaws found while proving are theorems too: each states a concrete or general
      situation in which the code does not do what it means to (a failed unset
      defeats the kill switch, a retried kill switch leaves traffic open, a lost
      error in [refreshVPN], a failed enable that cannot be retried, ...).

    ** Modelling choices and bounds

    Methods are total functions of type [M S A]: state in, result and state out;
    handlers of the service answer early through [H].  A mutex makes each exported
    method atomic, so interleavings are sequences of method calls ([NwOp], [FwOp],
    [FmOp], [MeshOp], [Request], [ManagerOp], [TelioOp], [OvpnOp]) and theorems quantify over all
    sequences.  Loops of the code range over slices and are structural recursion.
    Fuel is used for printing a number in hexadecimal, where 32 digits are enough
    for the 128 bits of an address, and for the loop over a port range, whose
    counter wraps around at 64 bits: [loop_fuel] is the number of ports of the
    range, and a theorem says exactly when that is enough and when no fuel is.  The
    searches for a free priority and a free table have fuel for every value the loop
    can try, which is part of their theorems; the loop that sends a list of transfers
    in chunks has fuel for one turn per transfer, and the removal of the marking rules,
    which lists a chain again after each deletion, fuel for every own rule and one more,
    which their theorems show to be enough.  A Go
    panic is a value where the code can reach one ([outcome], [Stream], [Reply]).
    A method that locks a mutex its own call holds never returns; where the code does
    that, waiting for ever is a result ([deadlock]).  Goroutines that go on after the
    call that made them are a list in the state whose steps are operations of their own
    ([MonitorStep]), also taken while a call waits; a context is done when one of its
    parents was canceled.  A call that waits without its mutex has the list of what
    arrives meanwhile as an argument and ends with its timeout when the list does
    ([MgmtInput], [Stage1Input]).  The jobs of the cache are operations ([CacheOp]), and
    so are the steps of the goroutine of a stream ([StateOp]); what a watcher of files sees
    is a list ([WatchEvent]).  A binary search has the number of the elements as fuel, which
    its theorem shows to be enough.  Connecting by itself has fuel for the tries before the daemon
    is stopped.
    Integers that are only compared, printed or parsed are [Z]; the
    conversions that can overflow ([strconv.Atoi]) check their range.  A [float64] is the
    specification of binary64 in the Standard Library, each operation rounded by itself,
    as Go does where the processor has no fused multiplication; the functions of [math]
    are parameters.  Go maps that
    are ranged over are visited in an order chosen by the environment.

    Not modelled: logging, analytics and most published events, timers, goroutines
    started for background work, the text of JSON, the WireGuard device in user space (which no build uses), the command line client and
    the tray, generated protobuf code.

    Left for a continuation, in this order: the parsing of arguments and the messages of
    the command line client, the listing of its peers and transfers, the tray. *)

From stdpp Require Import base option list strings pretty gmap sorting.
From Stdlib Require Import ZArith Ascii.

Open Scope Z_scope.

(** ** Record update

    Go mutates struct fields one at a time ([netw.isVpnSet = true]).  A record
    type registers its eta expansion once; [r <| f := v |>] then replaces one
    field.  The instance is computed by abstracting the projection in the
    expansion, so [cbn] and [vm_compute] see a plain constructor application;
    it carries the proof that it sets the field it names. *)

Class EtaExpand (R : Type) := eta_expand : R -> R.

Class FieldSetter {R T : Type} (f : R -> T) := {
  set_field : T -> R -> R;
  get_set_field v r : f (set_field v r) = v
}.
Arguments set_field {R T} f {_} v r /.

Ltac solve_field_setter f :=
  match type of f with
  | ?R -> ?T =>
      let e := constr:(@eta_expand R _) in
      let e := eval hnf in e in
      match e with context [f] => idtac end;
      let g := eval pattern f in e in
      match g with
      | ?h _ =>
          exact {| set_field := (fun (v : T) (r : R) => h (fun _ : R => v) r);
                   get_set_field := (fun v r => eq_refl) |}
      end
  end.

#[global] Hint Extern 1 (FieldSetter ?f) => solve_field_setter f : typeclass_instances.

Declare Scope go_scope.
Delimit Scope go_scope with go.

Notation "r <| f := v |>" := (set_field f v r)
  (at level 1, left associativity, f constr, v at level 200,
   format "r  <| f  :=  v |>") : go_scope.

Open Scope go_scope.

(** ** Go errors

    [Sentinel] is a package-level error variable, which [errors.Is] compares by
    identity; [Errorf] an error made on the spot, identical to no sentinel;
    [Wrapf pre e post] is [fmt.Errorf("pre%wpost", e)]; [Joined] is
    [errors.Join]; [ErrorWithCode] is [internal.ErrorWithCode]. *)

#[warnings="-register-all"] Inductive error : Type :=
| Sentinel (name : string)
| Errorf (msg : string)
| Wrapf (pre : string) (e : error) (post : string)
| Joined (es : list error)
| ErrorWithCode (code : Z).

(** [errors.Is(e, target)] for a sentinel target. *)
Fixpoint errors_Is (e : error) (target : string) : bool :=
  match e with
  | Sentinel n => bool_decide (n = target)
  | Errorf _ => false
  | Wrapf _ e' _ => errors_Is e' target
  | Joined es => existsb (fun e' => errors_Is e' target) es
  | ErrorWithCode _ => false
  end.

(** [errors.As(e, &errorWithCode)]: the code of the first such error. *)
Fixpoint errors_As_code (e : error) : option Z :=
  match e with
  | ErrorWithCode c => Some c
  | Wrapf _ e' _ => errors_As_code e'
  | Joined es =>
      foldr (fun e' acc => match errors_As_code e' with Some c => Some c | None => acc end) None es
  | Sentinel _ | Errorf _ => None
  end.

(** [err.Error()]. *)
Fixpoint error_text (e : error) : string :=
  match e with
  | Sentinel n => n
  | Errorf m => m
  | Wrapf pre e' post => pre +:+ error_text e' +:+ post
  | Joined es => String.concat (String "010"%char EmptyString) (map error_text es)
  | ErrorWithCode c => "Error with code " +:+ pretty c
  end.

(** [errors.Join] drops nil errors and is nil when every argument is. *)
Definition errors_Join (es : list (option error)) : option error :=
  match omap id es with
  | [] => None
  | es' => Some (Joined es')
  end.

(** ** Results and the state-and-error monad

    A Go method with receiver state [S] and results [(A, error)] is a function
    [S -> result A * S]: the mutations made before an error return persist. *)

Inductive result (A : Type) : Type :=
| Ok (a : A)
| Err (e : error).
Arguments Ok {A} a.
Arguments Err {A} e.

Definition is_ok {A} (r : result A) : bool :=
  match r with Ok _ => true | Err _ => false end.

Definition M (S A : Type) : Type := S -> result A * S.

Section Monad.
Context {S : Type}.

Definition ret {A} (a : A) : M S A := fun s => (Ok a, s).

Definition throw {A} (e : error) : M S A := fun s => (Err e, s).

Definition bind {A B} (m : M S A) (k : A -> M S B) : M S B := fun s =>
  match m s with
  | (Ok a, s') => k a s'
  | (Err e, s') => (Err e, s')
  end.

Definition gets {A} (f : S -> A) : M S A := fun s => (Ok (f s), s).

Definition modify (f : S -> S) : M S unit := fun s => (Ok tt, f s).

(** [err := m(); ...]: the error becomes a value. *)
Definition attempt {A} (m : M S A) : M S (result A) := fun s =>
  let '(r, s') := m s in (Ok r, s').

(** A result that needs no state. *)
Definition of_result {A} (r : result A) : M S A := match r with Ok a => ret a | Err e => throw e end.

(** [if err := m(); err != nil { log.Println(err) }]. *)
Definition ignore {A} (m : M S A) : M S unit := fun s => (Ok tt, (m s).2).

(** [if err := m(); err != nil { return fmt.Errorf("pre%wpost", err) }]. *)
Definition wrapped {A} (pre : string) (m : M S A) (post : string) : M S A := fun s =>
  match m s with
  | (Ok a, s') => (Ok a, s')
  | (Err e, s') => (Err (Wrapf pre e post), s')
  end.

(** [defer func() { if err != nil { cleanup() } }()] around [m]. *)
Definition on_error {A} (m : M S A) (cleanup : M S unit) : M S A := fun s =>
  match m s with
  | (Ok a, s') => (Ok a, s')
  | (Err e, s') => (Err e, (cleanup s').2)
  end.

Definition when (b : bool) (m : M S unit) : M S unit :=
  if b then m else ret tt.

(** [for _, x := range l { ... }] with an early error return. *)
Fixpoint forM_ {A} (l : list A) (f : A -> M S unit) : M S unit :=
  match l with
  | [] => ret tt
  | x :: l' => bind (f x) (fun _ => forM_ l' f)
  end.
End Monad.

(** Run a component's method on the field of a larger state. *)
Definition zoom {S T A} (get : S -> T) (put : T -> S -> S) (m : M T A) : M S A :=
  fun s => let '(r, t) := m (get s) in (r, put t s).

Notation "'let!' x := m 'in' k" := (bind m (fun x => k))
  (at level 10, x name, m at level 100, k at level 200) : go_scope.
Notation "m ;; k" := (bind m (fun _ => k))
  (at level 100, k at level 200, right associativity) : go_scope.
Notation "'set!' f := v" := (modify (fun s => set_field f v s))
  (at level 99, f constr, v at level 98) : go_scope.

(** ** Reasoning about methods

    [wp m Q s]: running [m] from [s] ends in a result and state that satisfy
    [Q].  Methods are total functions, so this is total correctness. *)

Definition wp {S A} (m : M S A) (Q : result A -> S -> Prop) (s : S) : Prop :=
  Q (m s).1 (m s).2.

(** [I] is an invariant of [m], on success and on error. *)
Definition preserves {S A} (I : S -> Prop) (m : M S A) : Prop :=
  forall s, I s -> I (m s).2.

Section WpLemmas.
Context {S : Type}.
Implicit Types I : S -> Prop.

Lemma wp_bind {A B} (m : M S A) (k : A -> M S B) Q s :
  wp m (fun r s' => match r with
                    | Ok a => wp (k a) Q s'
                    | Err e => Q (Err e) s'
                    end) s ->
  wp (bind m k) Q s.
Proof. unfold wp, bind. by destruct (m s) as [[a|e] s']. Qed.

Lemma wp_mono {A} (m : M S A) (Q Q' : result A -> S -> Prop) s :
  (forall r s', Q r s' -> Q' r s') -> wp m Q s -> wp m Q' s.
Proof. unfold wp. auto. Qed.

Lemma wp_forM_ {A} (l : list A) (f : A -> M S unit) (Inv : list A -> S -> Prop)
    (Q : result unit -> S -> Prop) s :
  Inv l s ->
  (forall s', Inv [] s' -> Q (Ok tt) s') ->
  (forall x l' s', Inv (x :: l') s' ->
     wp (f x) (fun r s'' => match r with
                            | Ok _ => Inv l' s''
                            | Err e => Q (Err e) s''
                            end) s') ->
  wp (forM_ l f) Q s.
Proof.
  intros Hinv Hdone Hstep. revert s Hinv.
  induction l as [|x l IH]; intros s Hinv; [by apply Hdone|].
  cbn [forM_]. apply wp_bind. eapply wp_mono, Hstep, Hinv.
  intros [[]|e] s'; auto.
Qed.

Lemma preserves_ret {A} I (a : A) : preserves I (ret a).
Proof. by intros s. Qed.

Lemma preserves_throw {A} I e : preserves I (throw (A := A) e).
Proof. by intros s. Qed.

Lemma preserves_gets {A} I (f : S -> A) : preserves I (gets f).
Proof. by intros s. Qed.

Lemma preserves_modify I f : (forall s, I s -> I (f s)) -> preserves I (modify f).
Proof. intros H s. apply H. Qed.

Lemma preserves_bind {A B} I (m : M S A) (k : A -> M S B) :
  preserves I m -> (forall a, preserves I (k a)) -> preserves I (bind m k).
Proof.
  intros Hm Hk s Hs. specialize (Hm s Hs). unfold bind.
  destruct (m s) as [[a|e] s']; [by apply Hk|done].
Qed.

Lemma preserves_attempt {A} I (m : M S A) : preserves I m -> preserves I (attempt m).
Proof. intros Hm s Hs. specialize (Hm s Hs). unfold attempt. by destruct (m s). Qed.

Lemma preserves_ignore {A} I (m : M S A) : preserves I m -> preserves I (ignore m).
Proof. intros Hm s Hs. by apply Hm. Qed.

Lemma preserves_wrapped {A} I pre (m : M S A) post :
  preserves I m -> preserves I (wrapped pre m post).
Proof.
  intros Hm s Hs. specialize (Hm s Hs). unfold wrapped.
  by destruct (m s) as [[a|e] s'].
Qed.

Lemma preserves_on_error {A} I (m : M S A) c :
  preserves I m -> preserves I c -> preserves I (on_error m c).
Proof.
  intros Hm Hc s Hs. specialize (Hm s Hs). unfold on_error.
  destruct (m s) as [[a|e] s']; [done|by apply Hc].
Qed.

Lemma preserves_when I b m : preserves I m -> preserves I (when b m).
Proof. intros Hm. destruct b; [done|apply preserves_ret]. Qed.

Lemma preserves_forM_ {A} I (l : list A) f :
  (forall x, preserves I (f x)) -> preserves I (forM_ l f).
Proof.
  intros Hf. induction l; cbn; [apply preserves_ret|by apply preserves_bind].
Qed.

(** A read whose value the invariant determines. *)
Lemma preserves_read {A B} I (f : S -> A) (k : A -> M S B) v :
  (forall s, I s -> f s = v) -> preserves I (k v) -> preserves I (bind (gets f) k).
Proof. intros Hf Hk s Hs. unfold bind, gets. rewrite (Hf s Hs). by apply Hk. Qed.

(** The same, with the element known to be in the list. *)
Lemma preserves_forM_in {A} I (l : list A) f :
  (forall x, x ∈ l -> preserves I (f x)) -> preserves I (forM_ l f).
Proof.
  induction l as [|x l IH]; intros Hf; cbn; [apply preserves_ret|].
  apply preserves_bind; [apply Hf, elem_of_cons; by left|]. intros _.
  apply IH. intros y Hy. apply Hf, elem_of_cons. by right.
Qed.

(** A method of a field the invariant does not mention. *)
Lemma preserves_zoom_frame {T A} I (get : S -> T) put (m : M T A) :
  (forall t s, I s -> I (put t s)) -> preserves I (zoom get put m).
Proof. intros H s Hs. unfold zoom. destruct (m (get s)). by apply H. Qed.

(** A method of a field, where the invariant is about that field and the
    rest of the state is a frame [F]. *)
Lemma preserves_zoom {T A} I (J : S -> T -> Prop) (get : S -> T) put (m : M T A) :
  (forall s, I s -> J s (get s)) ->
  (forall s t, I s -> J s t -> I (put t s)) ->
  (forall s, preserves (J s) m) ->
  preserves I (zoom get put m).
Proof.
  intros H1 H2 Hm s Hs. unfold zoom. specialize (Hm s (get s) (H1 s Hs)).
  destruct (m (get s)) as [r t]. by apply H2.
Qed.
End WpLemmas.

(** What holds whenever a method succeeds. *)
Definition ensures {S A} (Q : A -> S -> Prop) (m : M S A) : Prop :=
  forall s a s', m s = (Ok a, s') -> Q a s'.

Section Ensures.
Context {S : Type}.

Lemma ensures_bind {A B} (Q : B -> S -> Prop) (m : M S A) (k : A -> M S B) :
  (forall a, ensures Q (k a)) -> ensures Q (bind m k).
Proof.
  intros Hk s b s'. unfold bind. destruct (m s) as [[a|e] s1]; [apply Hk|done].
Qed.

Lemma ensures_on_error {A} (Q : A -> S -> Prop) (m : M S A) c :
  ensures Q m -> ensures Q (on_error m c).
Proof.
  intros Hm s a s'. unfold on_error. destruct (m s) as [[b|e] s1] eqn:E; [|done].
  intros [= <- <-]. by eapply Hm.
Qed.

Lemma ensures_throw {A} (Q : A -> S -> Prop) e : ensures Q (throw e).
Proof. by intros s a s'. Qed.

(** A step that establishes an invariant of the rest. *)
Lemma ensures_then {A B} (I : S -> Prop) (m : M S A) (k : A -> M S B) :
  ensures (fun _ => I) m -> (forall a, preserves I (k a)) -> ensures (fun _ => I) (bind m k).
Proof.
  intros Hm Hk s b s'. unfold bind. destruct (m s) as [[a|e] s1] eqn:E; [|done].
  intros Hka. pose proof (Hk a s1 (Hm _ _ _ E)) as Hi. by rewrite Hka in Hi.
Qed.

(** A step whose result has a property the rest needs. *)
Lemma preserves_bind_with {A B} (I : S -> Prop) (Q : A -> Prop) (m : M S A) (k : A -> M S B) :
  preserves I m -> ensures (fun a _ => Q a) m -> (forall a, Q a -> preserves I (k a)) ->
  preserves I (bind m k).
Proof.
  intros Hm HQ Hk s Hs. specialize (Hm s Hs). unfold bind.
  destruct (m s) as [[a|e] s'] eqn:E; [|done]. apply Hk; [by eapply HQ|done].
Qed.

Lemma ensures_ret {A} (Q : A -> S -> Prop) a : (forall s, Q a s) -> ensures Q (ret a).
Proof. intros HQ s b s' [= <- <-]. apply HQ. Qed.

Lemma ensures_modify (I : S -> Prop) f : (forall s, I (f s)) -> ensures (fun _ : unit => I) (modify f).
Proof. intros Hf s [] s' [= <-]. apply Hf. Qed.
End Ensures.

Create HintDb pres discriminated.
#[export] Hint Constants Opaque : pres.
#[export] Hint Resolve preserves_ret preserves_throw preserves_gets
  preserves_bind preserves_attempt preserves_ignore preserves_wrapped
  preserves_on_error preserves_when preserves_forM_ : pres.

(** Decompose a [preserves] goal along the syntax of the method, case on the
    tests it makes, and leave only the leaves the databases do not close. *)
Ltac pres_step :=
  match goal with
  | |- preserves _ (bind _ _) => apply preserves_bind
  | |- preserves _ (ret _) => apply preserves_ret
  | |- preserves _ (throw _) => apply preserves_throw
  | |- preserves _ (gets _) => apply preserves_gets
  | |- preserves _ (attempt _) => apply preserves_attempt
  | |- preserves _ (ignore _) => apply preserves_ignore
  | |- preserves _ (wrapped _ _ _) => apply preserves_wrapped
  | |- preserves _ (on_error _ _) => apply preserves_on_error
  | |- preserves _ (when _ _) => apply preserves_when
  | |- preserves _ (forM_ _ _) => apply preserves_forM_
  | |- preserves _ (match ?x with _ => _ end) => destruct x eqn:?
  | |- forall _, _ => intros ?
  end.

Ltac pres_auto := repeat (solve [eauto with pres nocore] || pres_step).

(** ** Running methods

    Equations that evaluate a method step by step.  [go_run] rewrites with them
    and with hypotheses [m s = (r, s')] about the methods called. *)

Section Run.
Context {S : Type}.

Lemma bind_Ok {A B} (m : M S A) (k : A -> M S B) s a s' :
  m s = (Ok a, s') -> bind m k s = k a s'.
Proof. unfold bind. by intros ->. Qed.

Lemma bind_Err {A B} (m : M S A) (k : A -> M S B) s e s' :
  m s = (Err e, s') -> bind m k s = (Err e, s').
Proof. unfold bind. by intros ->. Qed.

Lemma bind_ret {A B} (a : A) (k : A -> M S B) s : bind (ret a) k s = k a s.
Proof. done. Qed.

Lemma bind_throw {A B} e (k : A -> M S B) s : bind (throw e) k s = (Err e, s).
Proof. done. Qed.

Lemma bind_gets {A B} (f : S -> A) (k : A -> M S B) s : bind (gets f) k s = k (f s) s.
Proof. done. Qed.

Lemma bind_modify {B} f (k : unit -> M S B) s : bind (modify f) k s = k tt (f s).
Proof. done. Qed.

Lemma bind_attempt {A B} (m : M S A) (k : result A -> M S B) s r s' :
  m s = (r, s') -> bind (attempt m) k s = k r s'.
Proof. unfold bind, attempt. by intros ->. Qed.

Lemma bind_ignore {A B} (m : M S A) (k : unit -> M S B) s :
  bind (ignore m) k s = k tt (m s).2.
Proof. done. Qed.

Lemma wrapped_Ok {A} pre (m : M S A) post s a s' :
  m s = (Ok a, s') -> wrapped pre m post s = (Ok a, s').
Proof. unfold wrapped. by intros ->. Qed.

Lemma wrapped_Err {A} pre (m : M S A) post s e s' :
  m s = (Err e, s') -> wrapped pre m post s = (Err (Wrapf pre e post), s').
Proof. unfold wrapped. by intros ->. Qed.

Lemma bind_assoc {A B C} (m : M S A) (k : A -> M S B) (h : B -> M S C) s :
  bind (bind m k) h s = bind m (fun a => bind (k a) h) s.
Proof. unfold bind. by destruct (m s) as [[a|e] s']. Qed.
End Run.

Ltac go_step :=
  first
    [ rewrite bind_ret | rewrite bind_throw | rewrite bind_gets | rewrite bind_modify
    | rewrite bind_ignore
    | erewrite bind_attempt by eassumption
    | erewrite bind_Ok by (first [eassumption | apply wrapped_Ok; eassumption])
    | erewrite bind_Err by (first [eassumption | apply wrapped_Err; eassumption])
    | erewrite wrapped_Ok by eassumption
    | erewrite wrapped_Err by eassumption ].

Ltac go_run := repeat (go_step; cbv beta iota).

(** ** Views

    A view is the part of the state the methods of a component decide on.  [wpv m Q v]:
    from every state with view [v], running [m] ends in a result and a view that satisfy
    [Q]; the rest of the state is arbitrary. *)

Section Views.
Context {S V : Type} (view : S -> V).

Definition wpv {A} (m : M S A) (Q : result A -> V -> Prop) (v : V) : Prop :=
  forall s, view s = v -> Q (m s).1 (view (m s).2).

(** Methods that leave the view alone. *)
Definition keeps {A} (m : M S A) : Prop := forall v, preserves (fun s => view s = v) m.

Lemma wpv_bind {A B} (m : M S A) (k : A -> M S B) (Q : result B -> V -> Prop) v :
  wpv m (fun r v' => match r with Ok a => wpv (k a) Q v' | Err e => Q (Err e) v' end) v -> wpv (bind m k) Q v.
Proof.
  intros Hm s Hs. specialize (Hm s Hs). unfold bind. destruct (m s) as [[a|e] s']; [by apply Hm|exact Hm].
Qed.

Lemma wpv_keeps {A} (m : M S A) (Q : result A -> V -> Prop) v : keeps m -> (forall r, Q r v) -> wpv m Q v.
Proof. intros Hm HQ s Hs. rewrite (Hm v s Hs). apply HQ. Qed.

Lemma wpv_mono {A} (m : M S A) (Q Q' : result A -> V -> Prop) v :
  (forall r v', Q r v' -> Q' r v') -> wpv m Q v -> wpv m Q' v.
Proof. intros HQ Hm s Hs. by apply HQ, Hm. Qed.

Lemma wpv_ret {A} (a : A) (Q : result A -> V -> Prop) v : Q (Ok a) v -> wpv (ret a) Q v.
Proof. by intros HQ s <-. Qed.
Lemma wpv_throw {A} e (Q : result A -> V -> Prop) v : Q (Err e) v -> wpv (throw e) Q v.
Proof. by intros HQ s <-. Qed.

Lemma wpv_wrapped {A} pre (m : M S A) post (Q : result A -> V -> Prop) v :
  wpv m (fun r v' => Q (match r with Ok a => Ok a | Err e => Err (Wrapf pre e post) end) v') v -> wpv (wrapped pre m post) Q v.
Proof. intros Hm s Hs. specialize (Hm s Hs). unfold wrapped. by destruct (m s) as [[a|e] s']. Qed.

Lemma wpv_attempt {A} (m : M S A) (Q : result (result A) -> V -> Prop) v :
  wpv m (fun r v' => Q (Ok r) v') v -> wpv (attempt m) Q v.
Proof. intros Hm s Hs. specialize (Hm s Hs). unfold attempt. by destruct (m s). Qed.

Lemma wpv_ignore {A} (m : M S A) (Q : result unit -> V -> Prop) v : wpv m (fun _ v' => Q (Ok tt) v') v -> wpv (ignore m) Q v.
Proof. intros Hm s Hs. apply (Hm s Hs). Qed.

Lemma wpv_on_error {A} (m : M S A) c (Q : result A -> V -> Prop) v :
  wpv m (fun r v' => match r with Ok a => Q (Ok a) v' | Err e => wpv c (fun _ v'' => Q (Err e) v'') v' end) v ->
  wpv (on_error m c) Q v.
Proof.
  intros Hm s Hs. specialize (Hm s Hs). unfold on_error. destruct (m s) as [[a|e] s']; [exact Hm|]. by apply Hm.
Qed.

Lemma wpv_get {A} (f : S -> A) (Q : result A -> V -> Prop) v : (forall a, Q (Ok a) v) -> wpv (gets f) Q v.
Proof. intros HQ s <-. apply HQ. Qed.

(** A read of a part of the view. *)
Lemma wpv_read {A} (f : S -> A) (g : V -> A) (Q : result A -> V -> Prop) v :
  (forall s, f s = g (view s)) -> Q (Ok (g v)) v -> wpv (gets f) Q v.
Proof. intros Hf HQ s <-. unfold gets. cbn. by rewrite Hf. Qed.

(** An update of a part of the view, and of none. *)
Lemma wpv_update f (g : V -> V) (Q : result unit -> V -> Prop) v :
  (forall s, view (f s) = g (view s)) -> Q (Ok tt) (g v) -> wpv (modify f) Q v.
Proof. intros Hf HQ s <-. cbn. by rewrite Hf. Qed.
Lemma wpv_modify f (Q : result unit -> V -> Prop) v : (forall s, view (f s) = view s) -> Q (Ok tt) v -> wpv (modify f) Q v.
Proof. intros Hf HQ s <-. cbn. by rewrite Hf. Qed.
End Views.

(** ** Sequences of operations *)

Section Ops.
Context {S Op : Type} (exec : Op -> M S unit).

(** The state after a sequence of calls, whatever each returned. *)
Fixpoint run_ops (ops : list Op) (s : S) : S :=
  match ops with
  | [] => s
  | o :: ops' => run_ops ops' (exec o s).2
  end.

Lemma run_ops_inv (I : S -> Prop) ops s :
  (forall o, preserves I (exec o)) -> I s -> I (run_ops ops s).
Proof.
  intros HI. revert s. induction ops as [|o ops IH]; intros s Hs; [done|].
  by apply IH, HI.
Qed.

Lemma run_ops_app ops ops' s : run_ops (ops ++ ops') s = run_ops ops' (run_ops ops s).
Proof. revert s. induction ops as [|o ops IH]; intros s; [done|]. apply IH. Qed.
End Ops.

(** ** Announcements *)

(** Nothing repeats what was said just before; [cur] is what was said before the list. *)
Fixpoint alternates {A} (cur : A) (l : list A) : Prop :=
  match l with
  | [] => True
  | k :: l' => k <> cur /\ alternates k l'
  end.

Lemma last_default {A} (y : A) l d d' : List.last (y :: l) d = List.last (y :: l) d'.
Proof. revert y. induction l as [|z l IH]; intros y; [done|]. apply (IH z). Qed.

Lemma alternates_snoc {A} (cur : A) l k : alternates cur l -> k <> List.last l cur -> alternates cur (l ++ [k]).
Proof.
  revert cur. induction l as [|x l IH]; intros cur Ha Hk; [by split|]. destruct Ha as [Hx Ha]. cbn [app alternates]. split; [done|].
  apply IH; [done|]. destruct l as [|y l]; [done|]. by rewrite (last_default y l x cur).
Qed.
