(* ===== verification/GoLib.v ===== *)
(** * GoLib: the parts of Go's standard library the daemon computes with

    Strings ([strings], [strconv], [fmt] verbs), slices, [sort.Ints] and the
    [net/netip] addresses and prefixes, with the textual forms the firewall and
    routing code pass to [iptables] and [ip rule]. *)

From stdpp Require Import base option list strings pretty gmap sorting.
From Stdlib Require Import ZArith Ascii Lia.
From S2P Require Import Prelude.

Open Scope Z_scope.
Open Scope go_scope.

(** ** Slices

    A nil slice is [None]; [Some []] is an empty slice that is not nil.  [elems]
    is what [range], [len] and [append] see. *)

Definition slice (A : Type) : Type := option (list A).

Definition elems {A} (s : slice A) : list A := default [] s.

Definition is_nil {A} (s : slice A) : bool :=
  match s with None => true | Some _ => false end.

(** [append(s, x)]: appending to a nil slice allocates. *)
Definition sappend {A} (s : slice A) (x : A) : slice A := Some (elems s ++ [x]).

(** [slices.IndexFunc]; [None] is Go's -1. *)
Fixpoint index_func {A} (p : A -> bool) (l : list A) : option nat :=
  match l with
  | [] => None
  | x :: l' => if p x then Some 0%nat else S <$> index_func p l'
  end.

(** [slices.Index] on strings. *)
Definition index_str (l : list string) (x : string) : option nat :=
  index_func (fun y => bool_decide (y = x)) l.

Definition sort_Ints (l : list Z) : list Z := merge_sort Z.le l.

(** ** Strings *)

Fixpoint has_prefix (p s : string) : bool :=
  match p, s with
  | EmptyString, _ => true
  | String a p', String b s' => Ascii.eqb a b && has_prefix p' s'
  | _, EmptyString => false
  end.

(** [strings.Contains]. *)
Fixpoint str_contains (s sub : string) : bool :=
  has_prefix sub s ||
  match s with
  | EmptyString => false
  | String _ s' => str_contains s' sub
  end.

Fixpoint drop_str (n : nat) (s : string) : string :=
  match n, s with
  | O, _ => s
  | S n', String _ s' => drop_str n' s'
  | S _, EmptyString => EmptyString
  end.

(** [strings.TrimSuffix]. *)
Definition trim_suffix (s suf : string) : string :=
  let n := (String.length s - String.length suf)%nat in
  if bool_decide (drop_str n s = suf) && (String.length suf <=? String.length s)%nat
  then String.substring 0 n s else s.

(** [strings.Split(s, sep)] for a one-byte separator: always at least one part. *)
Fixpoint split_char (sep : ascii) (s : string) : list string :=
  match s with
  | EmptyString => [EmptyString]
  | String c s' =>
      if Ascii.eqb c sep then EmptyString :: split_char sep s'
      else match split_char sep s' with
           | [] => [String c EmptyString]
           | w :: ws => String c w :: ws
           end
  end.

Definition strings_Join (l : list string) (sep : string) : string := String.concat sep l.

Definition newline : ascii := "010"%char.

Definition lower_ascii (c : ascii) : ascii :=
  let n := nat_of_ascii c in
  if (65 <=? n)%nat && (n <=? 90)%nat then ascii_of_nat (n + 32) else c.

(** [strings.ToLower] and [strings.EqualFold] on ASCII text. *)
Fixpoint str_lower (s : string) : string :=
  match s with
  | EmptyString => EmptyString
  | String c s' => String (lower_ascii c) (str_lower s')
  end.

Definition equal_fold (a b : string) : bool := bool_decide (str_lower a = str_lower b).

(** [strings.ReplaceAll] for a non-empty [old]; [skip] counts the characters of an
    occurrence still to be passed over. *)
Fixpoint replace_from (old new : string) (skip : nat) (s : string) : string :=
  match s with
  | EmptyString => EmptyString
  | String c s' =>
      match skip with
      | S n => replace_from old new n s'
      | O => if has_prefix old s then new +:+ replace_from old new (String.length old - 1) s'
             else String c (replace_from old new 0 s')
      end
  end.

Definition strings_ReplaceAll (s old new : string) : string := replace_from old new 0 s.

(** [%d] and [strconv.Itoa]. *)
Definition itoa (z : Z) : string := pretty z.

Definition digit_val (c : ascii) : option Z :=
  let n := Z.of_nat (nat_of_ascii c) in
  if (48 <=? n) && (n <=? 57) then Some (n - 48) else None.

Definition hex_val (c : ascii) : option Z :=
  let n := Z.of_nat (nat_of_ascii c) in
  if (48 <=? n) && (n <=? 57) then Some (n - 48)
  else if (97 <=? n) && (n <=? 102) then Some (n - 87)
  else if (65 <=? n) && (n <=? 70) then Some (n - 55)
  else None.

(** The value of a non-empty string of digits in base [b]. *)
Fixpoint digits_acc (val : ascii -> option Z) (b acc : Z) (s : string) : option Z :=
  match s with
  | EmptyString => Some acc
  | String c s' =>
      match val c with
      | Some d => digits_acc val b (acc * b + d) s'
      | None => None
      end
  end.

Definition parse_digits (val : ascii -> option Z) (b : Z) (s : string) : option Z :=
  match s with EmptyString => None | _ => digits_acc val b 0 s end.

Definition max_int64 : Z := 2 ^ 63 - 1.

(** [strconv.Atoi]: an optional sign and decimal digits, within [int]. *)
Definition atoi (s : string) : option Z :=
  let range z := if (- 2 ^ 63 <=? z) && (z <=? max_int64) then Some z else None in
  match s with
  | String "-" s' => z ← parse_digits digit_val 10 s'; range (- z)
  | String "+" s' => z ← parse_digits digit_val 10 s'; range z
  | _ => z ← parse_digits digit_val 10 s; range z
  end.

Definition hex_digit (z : Z) : ascii :=
  if z <? 10 then ascii_of_nat (Z.to_nat (48 + z)) else ascii_of_nat (Z.to_nat (87 + z)).

Fixpoint hex_digits (fuel : nat) (z : Z) (acc : string) : string :=
  match fuel with
  | O => acc
  | S fuel' =>
      let acc' := String (hex_digit (z mod 16)) acc in
      if z / 16 =? 0 then acc' else hex_digits fuel' (z / 16) acc'
  end.

(** [%x] of an unsigned value of at most 128 bits (32 hex digits). *)
Definition hex (z : Z) : string := hex_digits 32 z "".

(** [%#x]. *)
Definition hex_alt (z : Z) : string := "0x" +:+ hex z.

(** ** [net/netip]

    Zones of IPv6 addresses are not represented: no code modelled here makes
    or keeps one. *)

Inductive Addr : Type :=
| AddrInvalid
| AddrV4 (a : Z)
| AddrV6 (a : Z).

#[export] Instance Addr_eq_dec : EqDecision Addr.
Proof. solve_decision. Defined.

Definition addr_IsValid (a : Addr) : bool :=
  match a with AddrInvalid => false | _ => true end.
Definition addr_Is4 (a : Addr) : bool := match a with AddrV4 _ => true | _ => false end.
Definition addr_Is6 (a : Addr) : bool := match a with AddrV6 _ => true | _ => false end.
Definition addr_BitLen (a : Addr) : Z :=
  match a with AddrInvalid => 0 | AddrV4 _ => 32 | AddrV6 _ => 128 end.

Definition addr_IsUnspecified (a : Addr) : bool :=
  match a with AddrV4 0 | AddrV6 0 => true | _ => false end.

(** [a] lies in the [bits]-bit network [net] of [len]-bit addresses. *)
Definition in_net (len : Z) (net bits a : Z) : bool :=
  Z.shiftr a (len - bits) =? Z.shiftr net (len - bits).

(** The IPv4 address of four octets. *)
Definition v4 (a b c d : Z) : Z :=
  Z.shiftl a 24 + Z.shiftl b 16 + Z.shiftl c 8 + d.

Definition addr_IsPrivate (a : Addr) : bool :=
  match a with
  | AddrV4 x => in_net 32 (v4 10 0 0 0) 8 x || in_net 32 (v4 172 16 0 0) 12 x
                || in_net 32 (v4 192 168 0 0) 16 x
  | AddrV6 x => Z.shiftr x 121 =? Z.shiftr 0xfc 1
  | AddrInvalid => false
  end.

Definition addr_IsLinkLocalUnicast (a : Addr) : bool :=
  match a with
  | AddrV4 x => in_net 32 (v4 169 254 0 0) 16 x
  | AddrV6 x => Z.shiftr x 118 =? Z.shiftr 0xfe80 6
  | AddrInvalid => false
  end.

(** A prefix with [pfx_bits = -1] is invalid; [zero_prefix] is [netip.Prefix{}]. *)
Record Prefix : Type := mkPrefix { pfx_addr : Addr; pfx_bits : Z }.

#[export] Instance Prefix_eq_dec : EqDecision Prefix.
Proof. solve_decision. Defined.

Definition zero_prefix : Prefix := mkPrefix AddrInvalid (-1).

Definition prefix_from (a : Addr) (bits : Z) : Prefix :=
  if addr_IsValid a && (0 <=? bits) && (bits <=? addr_BitLen a)
  then mkPrefix a bits else mkPrefix a (-1).

Definition prefix_IsValid (p : Prefix) : bool := 0 <=? pfx_bits p.

Definition prefix_Contains (p : Prefix) (a : Addr) : bool :=
  prefix_IsValid p &&
  match pfx_addr p, a with
  | AddrV4 n, AddrV4 x => in_net 32 n (pfx_bits p) x
  | AddrV6 n, AddrV6 x => in_net 128 n (pfx_bits p) x
  | _, _ => false
  end.

(** *** Printing *)

Definition octet (a : Z) (i : Z) : Z := Z.land (Z.shiftr a (8 * (3 - i))) 255.

Definition v4_String (a : Z) : string :=
  strings_Join (map (fun i => itoa (octet a i)) [0; 1; 2; 3]) ".".

Definition group16 (a : Z) (i : Z) : Z := Z.land (Z.shiftr a (16 * (7 - i))) 65535.

(** The longest run of zero groups, of length at least two, leftmost on ties:
    its start and end. *)
Fixpoint zero_run (l : list Z) : nat :=
  match l with
  | 0 :: l' => S (zero_run l')
  | _ => O
  end.

Fixpoint best_run (i : nat) (l : list Z) : option (nat * nat) :=
  match l with
  | [] => None
  | _ :: l' =>
      let n := zero_run l in
      match best_run (S i) l' with
      | Some (j, m) => if (n <? m)%nat then Some (j, m)
                       else if (2 <=? n)%nat then Some (i, n) else Some (j, m)
      | None => if (2 <=? n)%nat then Some (i, n) else None
      end
  end.

Definition v6_String (a : Z) : string :=
  if Z.shiftr a 32 =? 0xffff then "::ffff:" +:+ v4_String (Z.land a 0xffffffff)
  else
    let gs := map (group16 a) [0; 1; 2; 3; 4; 5; 6; 7] in
    let show l := strings_Join (map hex l) ":" in
    match best_run 0 gs with
    | Some (i, n) => show (take i gs) +:+ "::" +:+ show (drop (i + n) gs)
    | None => show gs
    end.

Definition addr_String (a : Addr) : string :=
  match a with
  | AddrInvalid => "invalid IP"
  | AddrV4 x => v4_String x
  | AddrV6 x => v6_String x
  end.

Definition prefix_String (p : Prefix) : string :=
  if prefix_IsValid p then addr_String (pfx_addr p) +:+ "/" +:+ itoa (pfx_bits p)
  else "invalid Prefix".

(** *** Parsing *)

(** One IPv4 field: decimal digits, no leading zero, at most 255. *)
Definition parse_octet (s : string) : option Z :=
  match s with
  | String "0" (String _ _) => None
  | _ => z ← parse_digits digit_val 10 s; if z <=? 255 then Some z else None
  end.

Definition parse_v4 (s : string) : option Z :=
  match split_char "." s with
  | [a; b; c; d] =>
      a ← parse_octet a; b ← parse_octet b; c ← parse_octet c; d ← parse_octet d;
      Some (v4 a b c d)
  | _ => None
  end.

(** One IPv6 field: one to four hex digits. *)
Definition parse_group (s : string) : option Z :=
  if (String.length s <=? 4)%nat then parse_digits hex_val 16 s else None.

(** Colon-separated fields; the last may be a dotted IPv4 address, which counts
    as two.  The empty string has no fields. *)
Fixpoint parse_fields (last_v4 : bool) (ws : list string) : option (list Z) :=
  match ws with
  | [] => Some []
  | [w] =>
      if last_v4 && str_contains w "."
      then x ← parse_v4 w; Some [Z.shiftr x 16; Z.land x 65535]
      else g ← parse_group w; Some [g]
  | w :: ws' => g ← parse_group w; gs ← parse_fields last_v4 ws'; Some (g :: gs)
  end.

Definition fields_of (last_v4 : bool) (s : string) : option (list Z) :=
  match s with
  | EmptyString => Some []
  | _ => parse_fields last_v4 (split_char ":" s)
  end.

(** The text before and after the first ["::"]. *)
Fixpoint cut_ellipsis (s : string) : option (string * string) :=
  match s with
  | String ":" (String ":" s') => Some (EmptyString, s')
  | String c s' => '(l, r) ← cut_ellipsis s'; Some (String c l, r)
  | EmptyString => None
  end.

Definition groups_value (gs : list Z) : Z :=
  fold_left (fun acc g => acc * 65536 + g) gs 0.

Definition parse_v6 (s : string) : option Z :=
  match cut_ellipsis s with
  | None =>
      gs ← fields_of true s;
      if bool_decide (length gs = 8%nat) then Some (groups_value gs) else None
  | Some (l, r) =>
      gl ← fields_of false l; gr ← fields_of true r;
      if (length gl + length gr <=? 7)%nat
      then Some (groups_value (gl ++ replicate (8 - length gl - length gr) 0 ++ gr))
      else None
  end.

(** The first of the bytes [.], [:] and [%] decides the family. *)
Fixpoint addr_kind (s : string) : option ascii :=
  match s with
  | EmptyString => None
  | String "." _ => Some "."%char
  | String ":" _ => Some ":"%char
  | String "%" _ => None
  | String _ s' => addr_kind s'
  end.

Definition ParseAddr (s : string) : option Addr :=
  match addr_kind s with
  | Some "."%char => AddrV4 <$> parse_v4 s
  | Some _ => if str_contains s "%" then None else AddrV6 <$> parse_v6 s
  | None => None
  end.

(** Split at the last and at the first ['/']. *)
Fixpoint cut_first (c : ascii) (s : string) : option (string * string) :=
  match s with
  | EmptyString => None
  | String d s' =>
      if Ascii.eqb c d then Some (EmptyString, s')
      else '(l, r) ← cut_first c s'; Some (String d l, r)
  end.

Fixpoint cut_last (c : ascii) (s : string) : option (string * string) :=
  match s with
  | EmptyString => None
  | String d s' =>
      match cut_last c s' with
      | Some (l, r) => Some (String d l, r)
      | None => if Ascii.eqb c d then Some (EmptyString, s') else None
      end
  end.

(** A mask length as [netip.ParsePrefix] reads it: no sign, no leading zero. *)
Definition parse_bits (s : string) : option Z :=
  match s with
  | String c (String _ _) =>
      match digit_val c with
      | Some d => if d =? 0 then None else atoi s
      | None => None
      end
  | _ => atoi s
  end.

Definition ParsePrefix (s : string) : option Prefix :=
  '(ip, bits) ← cut_last "/" s;
  a ← ParseAddr ip;
  n ← parse_bits bits;
  if (n <? 0) || (addr_BitLen a <? n) then None else Some (prefix_from a n).

(** [net.ParseCIDR]: the mask length may have leading zeros; the result is the
    network, the address with its host bits cleared. *)
Definition mask_addr (a : Addr) (bits : Z) : Addr :=
  match a with
  | AddrInvalid => AddrInvalid
  | AddrV4 x => AddrV4 (Z.shiftl (Z.shiftr x (32 - bits)) (32 - bits))
  | AddrV6 x => AddrV6 (Z.shiftl (Z.shiftr x (128 - bits)) (128 - bits))
  end.

Definition ParseCIDR (s : string) : option Prefix :=
  '(ip, mask) ← cut_first "/" s;
  a ← ParseAddr ip;
  n ← parse_digits digit_val 10 mask;
  if addr_BitLen a <? n then None else Some (mkPrefix (mask_addr a n) n).

(** ** Lemmas *)

Section IndexFunc.
Context {A : Type} (p : A -> bool).

Lemma index_func_Some l i :
  index_func p l = Some i -> exists x, l !! i = Some x /\ p x = true.
Proof.
  revert i. induction l as [|y l IH]; intros i; cbn; [done|].
  destruct (p y) eqn:E.
  - intros [= <-]. eauto.
  - intros (j & Hj & ->)%fmap_Some. apply (IH _ Hj).
Qed.

Lemma index_func_None l : index_func p l = None <-> forall x, x ∈ l -> p x = false.
Proof.
  induction l as [|y l IH]; cbn; [split; [by intros _ x ?%not_elem_of_nil|done]|].
  destruct (p y) eqn:E; [split; [done|]|].
  - intros Hall. rewrite Hall in E; [done|apply elem_of_cons; by left].
  - rewrite fmap_None, IH. split.
    + intros Hall x [->|Hx]%elem_of_cons; auto.
    + intros Hall x Hx. apply Hall. apply elem_of_cons. by right.
Qed.

Lemma index_func_is_Some l x : x ∈ l -> p x = true -> is_Some (index_func p l).
Proof.
  intros Hx Hp. destruct (index_func p l) eqn:E; [eauto|].
  rewrite index_func_None in E. by rewrite (E x Hx) in Hp.
Qed.
End IndexFunc.

(** The list without the first occurrence of [r]. *)
Fixpoint remove_first {A} `{EqDecision A} (r : A) (l : list A) : list A :=
  match l with
  | [] => []
  | x :: l' => if decide (r = x) then l' else x :: remove_first r l'
  end.

Section RemoveFirst.
Context {A : Type} `{EqDecision A}.

Lemma remove_first_middle (r : A) l k : r ∉ l -> remove_first r (l ++ r :: k) = l ++ k.
Proof.
  induction l as [|x l IH]; intros Hr; cbn; [by rewrite decide_True|].
  rewrite decide_False by set_solver. f_equal. apply IH. set_solver.
Qed.

Lemma remove_first_reverse (l : list A) i r :
  NoDup l -> l !! i = Some r -> remove_first r (reverse l) = reverse (delete i l).
Proof.
  intros Hnd (l1 & l2 & -> & ->)%list_elem_of_split_length.
  rewrite delete_middle, !reverse_app, reverse_cons, <- (assoc_L (++)). cbn.
  apply remove_first_middle. rewrite elem_of_reverse.
  apply NoDup_app in Hnd as (_ & _ & [Hr _]%NoDup_cons). done.
Qed.

(** Removing a member of the front of a list leaves the back alone. *)
Lemma remove_first_front (r : A) l k :
  r ∈ l -> exists l', remove_first r (l ++ k) = l' ++ k /\ l ≡ₚ r :: l'.
Proof.
  intros (l1 & l2 & -> & Hr)%list_elem_of_split_l.
  exists (l1 ++ l2). rewrite <- !(assoc_L (++)). cbn.
  rewrite remove_first_middle by done. split; [done|by rewrite Permutation_middle].
Qed.
End RemoveFirst.

(** [sort.Ints] sorts and permutes. *)
Lemma sort_Ints_Permutation l : sort_Ints l ≡ₚ l.
Proof. apply merge_sort_Permutation. Qed.

Lemma sort_Ints_Sorted l : StronglySorted Z.le (sort_Ints l).
Proof. apply (StronglySorted_merge_sort Z.le). Qed.

(** ** Facts about strings *)

(** [s] does not contain [sep]. *)
Fixpoint no_char (sep : ascii) (s : string) : Prop :=
  match s with
  | EmptyString => True
  | String c s' => c <> sep /\ no_char sep s'
  end.

Lemma no_char_app c s t : no_char c s -> no_char c t -> no_char c (s +:+ t).
Proof.
  induction s as [|d s IH]; intros Hs Ht; [done|]. destruct Hs as [Hd Hs].
  split; [done|]. by apply IH.
Qed.

Lemma split_char_line sep (x s : string) :
  no_char sep x ->
  split_char sep (x +:+ String sep s) = x :: split_char sep s.
Proof.
  induction x as [|c x IH].
  - intros _. change (split_char sep (String sep s) = EmptyString :: split_char sep s).
    cbn [split_char]. by rewrite (proj2 (Ascii.eqb_eq sep sep) eq_refl).
  - intros [Hc Hx].
    change (String c x +:+ String sep s) with (String c (x +:+ String sep s)).
    cbn [split_char]. rewrite IH by done. by destruct (Ascii.eqb_spec c sep).
Qed.

Lemma has_prefix_app (p x s : string) : has_prefix (p +:+ x) s = true -> has_prefix p s = true.
Proof.
  revert s. induction p as [|a p IH]; intros s; [by destruct s|].
  destruct s as [|b s]; [done|].
  change (Ascii.eqb a b && has_prefix (p +:+ x) s = true -> has_prefix (String a p) (String b s) = true).
  cbn [has_prefix]. intros [-> Hp]%andb_true_iff. by apply IH.
Qed.

Lemma str_contains_app (s p x : string) :
  str_contains s (p +:+ x) = true -> str_contains s p = true.
Proof.
  induction s as [|c s IH]; cbn [str_contains]; rewrite !orb_true_iff;
    intros [Hp%has_prefix_app|Hs]; auto.
Qed.

Lemma has_prefix_sep sep p s t :
  no_char sep p -> p <> EmptyString -> has_prefix p (s +:+ String sep t) = has_prefix p s.
Proof.
  revert p. induction s as [|c s IH]; intros p Hp Hne.
  - destruct p as [|a p]; [done|]. destruct Hp as [Ha _].
    change (Ascii.eqb a sep && has_prefix p t = false).
    by destruct (Ascii.eqb_spec a sep).
  - destruct p as [|a p]; [done|]. destruct Hp as [_ Hp].
    change (String c s +:+ String sep t) with (String c (s +:+ String sep t)).
    cbn [has_prefix]. destruct p as [|b p]; [by destruct s|].
    by rewrite IH.
Qed.

Lemma str_contains_sep sep p s t :
  no_char sep p -> p <> EmptyString ->
  str_contains (s +:+ String sep t) p = str_contains s p || str_contains t p.
Proof.
  intros Hp Hne. induction s as [|c s IH].
  - destruct p as [|a p]; [done|]. destruct Hp as [Ha _].
    change ((Ascii.eqb a sep && has_prefix p t) || str_contains t (String a p)
            = str_contains t (String a p)).
    by destruct (Ascii.eqb_spec a sep).
  - pose proof (has_prefix_sep sep p (String c s) t Hp Hne) as Hh.
    change (String c s +:+ String sep t) with (String c (s +:+ String sep t)) in *.
    cbn [str_contains]. rewrite Hh, IH. by rewrite orb_assoc.
Qed.

Lemma cut_first_app c s t : no_char c s -> cut_first c (s +:+ String c t) = Some (s, t).
Proof.
  induction s as [|d s IH]; intros Hs.
  - change (cut_first c (String c t) = Some (EmptyString, t)). cbn.
    by rewrite (proj2 (Ascii.eqb_eq c c) eq_refl).
  - destruct Hs as [Hd Hs].
    change (String d s +:+ String c t) with (String d (s +:+ String c t)). cbn [cut_first].
    destruct (Ascii.eqb_spec c d); [congruence|]. by rewrite IH.
Qed.

Definition no_newline : string -> Prop := no_char newline.

Definition newline_str : string := String newline EmptyString.

(** The lines of a listing, each ended by a newline. *)
Fixpoint unlines (l : list string) : string :=
  match l with
  | [] => EmptyString
  | x :: l' => x +:+ newline_str +:+ unlines l'
  end.

Lemma split_unlines l :
  Forall no_newline l -> split_char newline (unlines l) = l ++ [EmptyString].
Proof.
  induction 1 as [|x l Hx _ IH]; [done|].
  change (unlines (x :: l)) with (x +:+ String newline (unlines l)).
  rewrite split_char_line by exact Hx. by rewrite IH.
Qed.

Lemma string_length_app s t : String.length (s +:+ t) = (String.length s + String.length t)%nat.
Proof. induction s as [|c s IH]; [done|]. change (S (String.length (s +:+ t)) = S (String.length s + String.length t))%nat. by rewrite IH. Qed.

(** Where a text ends whose end has a fixed length. *)
Lemma app_inj_length (x y h k : string) : String.length h = String.length k -> x +:+ h = y +:+ k -> x = y /\ h = k.
Proof.
  intros Hl. revert y. induction x as [|a x IH]; intros [|b y] He; [by split| | |].
  - apply (f_equal String.length) in He. rewrite !string_length_app in He. cbn in *. lia.
  - apply (f_equal String.length) in He. rewrite !string_length_app in He. cbn in *. lia.
  - change (String a (x +:+ h) = String b (y +:+ k)) in He. injection He as -> He. by destruct (IH y He) as [-> ->].
Qed.

(** ** Characters of a text *)

Fixpoint all_chars (P : ascii -> bool) (s : string) : bool :=
  match s with
  | EmptyString => true
  | String c s' => P c && all_chars P s'
  end.

Lemma all_chars_app P s t : all_chars P (s +:+ t) = all_chars P s && all_chars P t.
Proof.
  induction s as [|c s IH]; [done|].
  change (String c s +:+ t) with (String c (s +:+ t)). cbn. by rewrite IH, andb_assoc.
Qed.

Lemma all_chars_no_char P c s : P c = false -> all_chars P s = true -> no_char c s.
Proof.
  intros Hc. induction s as [|d s IH]; cbn; [done|]. intros [Hd Hs]%andb_true_iff.
  split; [congruence|auto].
Qed.

Lemma no_char_contains c p s : no_char c s -> str_contains s (String c p) = false.
Proof.
  induction s as [|d s IH]; [done|]. intros [Hd Hs]. cbn [str_contains has_prefix].
  rewrite IH by done. rewrite orb_false_r. destruct (Ascii.eqb_spec c d); [congruence|done].
Qed.

Definition digit_char (c : ascii) : bool := match digit_val c with Some _ => true | None => false end.

(** ** Decimal text *)

Lemma pretty_char_digit x : (x < 10)%N -> digit_val (pretty_N_char x) = Some (Z.of_N x).
Proof.
  intros Hx. assert (x = 0 \/ x = 1 \/ x = 2 \/ x = 3 \/ x = 4 \/ x = 5 \/ x = 6 \/ x = 7 \/ x = 8 \/ x = 9)%N
    as Hc by lia. by repeat destruct Hc as [->|Hc]; try subst x.
Qed.

Lemma pretty_go_digits x s : all_chars digit_char s = true -> all_chars digit_char (pretty_N_go x s) = true.
Proof.
  revert s. induction (N.lt_wf_0 x) as [x _ IH]; intros s Hs.
  destruct (decide (x = 0%N)) as [->|Hx]; [by rewrite pretty_N_go_0|].
  rewrite pretty_N_go_step by lia. apply IH; [apply N.div_lt; lia|]. cbn [all_chars].
  unfold digit_char at 1. rewrite pretty_char_digit by (apply N.mod_lt; lia). done.
Qed.

Lemma itoa_digits z : 0 <= z -> all_chars digit_char (itoa z) = true.
Proof.
  intros Hz. unfold itoa. destruct z as [|p|p]; [done| |lia].
  change (all_chars digit_char (pretty_N_go (N.pos p) "") = true). by apply pretty_go_digits.
Qed.

Lemma digits_pretty x s :
  digits_acc digit_val 10 0 (pretty_N_go x s) = digits_acc digit_val 10 (Z.of_N x) s.
Proof.
  revert s. induction (N.lt_wf_0 x) as [x _ IH]; intros s.
  destruct (decide (x = 0%N)) as [->|Hx]; [by rewrite pretty_N_go_0|].
  rewrite pretty_N_go_step by lia. rewrite IH by (apply N.div_lt; lia). cbn [digits_acc].
  rewrite pretty_char_digit by (apply N.mod_lt; lia). f_equal.
  rewrite N2Z.inj_div, N2Z.inj_mod. pose proof (Z.div_mod (Z.of_N x) 10). lia.
Qed.

Lemma parse_itoa z : 0 <= z -> parse_digits digit_val 10 (itoa z) = Some z.
Proof.
  intros Hz. destruct z as [|p|p]; [done| |lia].
  assert (digits_acc digit_val 10 0 (itoa (Zpos p)) = Some (Zpos p)) as Hd
    by (change (itoa (Zpos p)) with (pretty_N_go (N.pos p) ""); by rewrite digits_pretty).
  unfold parse_digits. destruct (itoa (Zpos p)) eqn:E; [done|exact Hd].
Qed.

(** [strconv.Atoi] reads back what [strconv.Itoa] prints. *)
Lemma atoi_itoa z : - 2 ^ 63 <= z <= max_int64 -> atoi (itoa z) = Some z.
Proof.
  intros Hz.
  assert (forall s v, all_chars digit_char s = true -> parse_digits digit_val 10 s = Some v ->
    - 2 ^ 63 <= v <= max_int64 -> atoi s = Some v) as Hpos.
  { intros s v Hs Hp Hv. unfold atoi.
    assert (forall w, (if (- 2 ^ 63 <=? w) && (w <=? max_int64) then Some w else None) =
      (if bool_decide (- 2 ^ 63 <= w <= max_int64) then Some w else None)) as Hr.
    { intros w. destruct (Z.leb_spec (- 2 ^ 63) w), (Z.leb_spec w max_int64); case_bool_decide; done || lia. }
    destruct s as [|c s]; [done|]. cbn [all_chars] in Hs. apply andb_true_iff in Hs as [Hc _].
    destruct c as [[] [] [] [] [] [] [] []]; try discriminate Hc;
      rewrite Hp; cbn [mbind option_bind]; rewrite Hr; by rewrite bool_decide_eq_true_2. }
  destruct z as [|p|p]; [done| |].
  - apply Hpos; [by apply itoa_digits|by apply parse_itoa|done].
  - change (itoa (Zneg p)) with (String "-" (itoa (Zpos p))).
    unfold atoi. rewrite parse_itoa by done. cbn [mbind option_bind]. change (- Zpos p) with (Zneg p).
    by rewrite (proj2 (Z.leb_le (- 2 ^ 63) (Zneg p))), (proj2 (Z.leb_le (Zneg p) max_int64)) by lia.
Qed.
