(* ===== verification/Kernel.v ===== *)
(** * Kernel: kernel parameters

    Models [kernel/kernel.go] (reading and writing parameters with [sysctl] and
    parsing its output), [kernel/sysctl_setter.go] (a parameter that is set and
    set back), and its users [ipv6/ipv6.go] and [daemon/routes/rp_filter.go].
    Running [sysctl] and looking at [/proc/sys] are the parameters [sysctl_cmd] and
    [proc_exists]; [ProcSys] is what [sysctl(8)] documents of them. *)

From stdpp Require Import base option list strings gmap.
From Stdlib Require Import ZArith Ascii Lia.
From S2P Require Import Prelude GoLib.
Set Warnings "-clear-no-such-hyp".

Open Scope Z_scope.
Open Scope go_scope.

(** The interface [kernel.SysctlSetter]. *)
Class SysctlSetter (T : Type) : Type := {
  sysctl_Set : M T unit;
  sysctl_Unset : M T unit
}.

Class SysctlCommand (P : Type) : Type := {
  sysctl_cmd : list string -> P -> (string * option error) * P;
  proc_exists : string -> P -> bool
}.

(** ** Text *)

(** [strings.Split] for a separator of at least one character; [skip] counts the
    characters of a separator still to be passed over. *)
Fixpoint split_sep (sep : string) (skip : nat) (s : string) : list string :=
  match s with
  | EmptyString => [EmptyString]
  | String c s' =>
      match skip with
      | S n => split_sep sep n s'
      | O =>
          if has_prefix sep s then EmptyString :: split_sep sep (String.length sep - 1) s'
          else match split_sep sep 0 s' with
               | w :: ws => String c w :: ws
               | [] => [String c EmptyString]
               end
      end
  end.

Fixpoint trim_left (c : ascii) (s : string) : string :=
  match s with
  | EmptyString => EmptyString
  | String d s' => if Ascii.eqb c d then trim_left c s' else s
  end.

Fixpoint trim_right (c : ascii) (s : string) : string :=
  match s with
  | EmptyString => EmptyString
  | String d s' =>
      match trim_right c s' with
      | EmptyString => if Ascii.eqb c d then EmptyString else String d EmptyString
      | t => String d t
      end
  end.

(** [strings.Trim(s, " ")]. *)
Definition trim_spaces (s : string) : string := trim_right " " (trim_left " " s).

(** ** [kernel.go] *)

Section Parameters.
Context {P : Type} `{SysctlCommand P}.

Fixpoint parameters_loop (rules : gmap string Z) (lines : list string) : result (gmap string Z) :=
  match lines with
  | [] => Ok rules
  | line :: lines' =>
      if bool_decide (line = "") then parameters_loop rules lines'
      else
        match split_sep " = " 0 line with
        | [key; strVal] =>
            match atoi (trim_spaces strVal) with
            | Some val => parameters_loop (<[key := val]> rules) lines'
            | None => Err (Wrapf ("parsing value of " +:+ key +:+ ": ") (Errorf "strconv.Atoi")
                             (". expected integer, got: " +:+ strVal))
            end
        | _ => Err (Errorf ("invalid output line: " +:+ line))
        end
  end.

(** [parametersFrom]. *)
Definition parametersFrom (output : string) : result (gmap string Z) :=
  parameters_loop ∅ (split_char newline output).

Definition kernel_Parameter (prm : string) : M P (gmap string Z) := fun p =>
  let '((out, err), p') := sysctl_cmd [prm] p in
  match err with
  | Some e => (Err (Wrapf "listing sysctl rules error: " e (": " +:+ out)), p')
  | None => (parametersFrom out, p')
  end.

Definition SetParameter (key : string) (val : Z) : M P unit := fun p =>
  let '((out, err), p') := sysctl_cmd ["-w"; key +:+ "=" +:+ itoa val] p in
  match err with
  | Some e => (Err (Wrapf ("setting " +:+ key +:+ " to " +:+ itoa val +:+ ": ") e (": " +:+ out)), p')
  | None => (Ok tt, p')
  end.
End Parameters.

(** ** [sysctl_setter.go] *)

Record SysctlSetterImpl (P : Type) : Type := mkSysctlSetterImpl {
  ss_paramName : string;
  ss_desiredValue : Z;
  ss_unwantedValue : Z;
  ss_changed : bool;
  ss_proc : P
}.
Arguments mkSysctlSetterImpl {P} _ _ _ _ _.
Arguments ss_paramName {P} _.
Arguments ss_desiredValue {P} _.
Arguments ss_unwantedValue {P} _.
Arguments ss_changed {P} _.
Arguments ss_proc {P} _.
#[export] Instance SysctlSetterImpl_eta {P} : EtaExpand (SysctlSetterImpl P) := fun s =>
  mkSysctlSetterImpl (ss_paramName s) (ss_desiredValue s) (ss_unwantedValue s) (ss_changed s) (ss_proc s).

Definition NewSysctlSetter {P} (paramName : string) (desiredValue unwantedValue : Z) (p : P) :
    SysctlSetterImpl P :=
  mkSysctlSetterImpl paramName desiredValue unwantedValue false p.

Section Setter.
Context {P : Type} `{SysctlCommand P}.
#[local] Abbreviation SS := (M (SysctlSetterImpl P)).

Definition on_proc {A} (m : M P A) : SS A := zoom ss_proc (fun p s => s <| ss_proc := p |>) m.

Definition Setter_Set : SS unit :=
  let! name := gets ss_paramName in
  let! desired := gets ss_desiredValue in
  let! changed := gets ss_changed in
  when (negb changed)
    (let! values := wrapped ("retrieving the value of '" +:+ name +:+ "': ") (on_proc (kernel_Parameter name)) "" in
     when (negb (default 0 (values !! name) =? desired)) (set! ss_changed := true)) ;;
  wrapped ("setting the value of '" +:+ name +:+ "' to " +:+ itoa desired +:+ ": ")
    (on_proc (SetParameter name desired)) "".

Definition Setter_Unset : SS unit :=
  let! name := gets ss_paramName in
  let! unwanted := gets ss_unwantedValue in
  let! changed := gets ss_changed in
  when changed
    (wrapped ("setting the value of '" +:+ name +:+ "' to '" +:+ itoa unwanted +:+ "': ")
       (on_proc (SetParameter name unwanted)) "" ;;
     set! ss_changed := false).

Definition Setter_Exists : SS bool :=
  let! name := gets ss_paramName in
  let! p := gets ss_proc in
  if negb (proc_exists ("/proc/sys/" +:+ strings_ReplaceAll name "." "/") p) then ret false
  else
    let! r := attempt (on_proc (kernel_Parameter name)) in
    match r with
    | Err e => ret (negb (str_contains (error_text e) "cannot stat"))
    | Ok _ => ret true
    end.

#[export] Instance SysctlSetterImpl_setter : SysctlSetter (SysctlSetterImpl P) := {|
  sysctl_Set := Setter_Set;
  sysctl_Unset := Setter_Unset
|}.

(** ** [ipv6.go] *)

Definition netIPv6KernelParameterName : string := "net.ipv6.conf.all.disable_ipv6".

Definition NewIpv6 (p : P) : SysctlSetterImpl P := NewSysctlSetter netIPv6KernelParameterName 1 0 p.

Definition Block : SS unit :=
  let! ok := Setter_Exists in
  if ok : bool then Setter_Set else ret tt.

Definition Unblock : SS unit :=
  let! ok := Setter_Exists in
  if ok : bool then Setter_Unset else ret tt.

(** ** [rp_filter.go] *)

Definition NewSysctlRPFilterManager (p : P) : SysctlSetterImpl P :=
  NewSysctlSetter "net.ipv4.conf.all.rp_filter" 2 1 p.

Definition RPFilter_Set : SS unit := wrapped "setting rp_filter: " Setter_Set "".
Definition RPFilter_Unset : SS unit := wrapped "unsetting rp_filter: " Setter_Unset "".
End Setter.

(** ** What [sysctl] does

    [view] are the parameters of the running kernel.  Reading prints
    [name = value]; writing changes the one parameter. *)

Class ProcSys (P : Type) `{SysctlCommand P} (view : P -> gmap string Z) : Prop := {
  sys_read name v p : view p !! name = Some v ->
    (sysctl_cmd [name] p).1 = (unlines [name +:+ " = " +:+ itoa v], None) /\
    view (sysctl_cmd [name] p).2 = view p;
  sys_write name v w p : view p !! name = Some w -> no_char "=" name -> - 2 ^ 63 <= v <= max_int64 ->
    (sysctl_cmd ["-w"; name +:+ "=" +:+ itoa v] p).1.2 = None /\
    view (sysctl_cmd ["-w"; name +:+ "=" +:+ itoa v] p).2 = <[name := v]> (view p);
  sys_exists name p : is_Some (view p !! name) ->
    proc_exists ("/proc/sys/" +:+ strings_ReplaceAll name "." "/") p = true
}.

(** ** Reading back what [sysctl] prints *)

Definition parameter_line (kv : string * Z) : string := kv.1 +:+ " = " +:+ itoa kv.2.

Lemma split_sep_none sep s : str_contains s sep = false -> split_sep sep 0 s = [s].
Proof.
  induction s as [|c s IH]; cbn [str_contains split_sep]; [done|].
  intros [Hp Hs]%orb_false_iff. by rewrite Hp, IH.
Qed.

Lemma split_sep_line x s : no_char " " x ->
  split_sep " = " 0 (x +:+ " = " +:+ s) = x :: split_sep " = " 0 s.
Proof.
  induction x as [|c x IH]; intros Hx; [done|]. destruct Hx as [Hc Hx].
  change (String c x +:+ ?t) with (String c (x +:+ t)).
  cbn [split_sep has_prefix]. destruct (Ascii.eqb_spec " " c); [congruence|]. cbn [andb].
  by rewrite IH.
Qed.

Lemma trim_left_id c s : no_char c s -> trim_left c s = s.
Proof. destruct s as [|d s]; [done|]. intros [Hd _]. cbn. by destruct (Ascii.eqb_spec c d); [congruence|]. Qed.

Lemma trim_right_id c s : no_char c s -> trim_right c s = s.
Proof.
  induction s as [|d s IH]; [done|]. intros [Hd Hs]. cbn. rewrite IH by done.
  destruct s; [|done]. by destruct (Ascii.eqb_spec c d); [congruence|].
Qed.

Lemma itoa_no_char c z : digit_char c = false -> c <> "-"%char -> no_char c (itoa z).
Proof.
  intros Hd Hm. destruct z as [|p|p].
  - apply (all_chars_no_char digit_char); [done|by apply itoa_digits].
  - apply (all_chars_no_char digit_char); [done|by apply itoa_digits].
  - change (itoa (Zneg p)) with (String "-" (itoa (Zpos p))). split; [congruence|].
    apply (all_chars_no_char digit_char); [done|by apply itoa_digits].
Qed.

(** Names and values as the kernel has them. *)
Definition parameter_ok (kv : string * Z) : Prop :=
  no_char " " kv.1 /\ no_char newline kv.1 /\ - 2 ^ 63 <= kv.2 <= max_int64.

Lemma parameters_line kv rules lines : parameter_ok kv ->
  parameters_loop rules (parameter_line kv :: lines) = parameters_loop (<[kv.1 := kv.2]> rules) lines.
Proof.
  intros (Hs & Hn & Hv). cbn [parameters_loop]. rewrite bool_decide_eq_false_2.
  2: { unfold parameter_line. by destruct kv.1. }
  unfold parameter_line. rewrite split_sep_line by done.
  assert (no_char " " (itoa kv.2)) as Hsp by by apply itoa_no_char.
  rewrite split_sep_none by by apply no_char_contains.
  unfold trim_spaces. rewrite trim_left_id, trim_right_id, atoi_itoa by done. done.
Qed.

Lemma parameters_lines l rules : Forall parameter_ok l ->
  parameters_loop rules (map parameter_line l ++ [""]) = Ok (foldl (fun m kv => <[kv.1 := kv.2]> m) rules l).
Proof.
  intros Hl. revert rules. induction Hl as [|kv l Hkv _ IH]; intros rules; [done|].
  cbn [map app foldl]. by rewrite parameters_line, IH.
Qed.

Lemma parametersFrom_lines l : Forall parameter_ok l ->
  parametersFrom (unlines (map parameter_line l)) = Ok (foldl (fun m kv => <[kv.1 := kv.2]> m) ∅ l).
Proof.
  intros Hl. unfold parametersFrom. rewrite split_unlines, parameters_lines; [done|done|].
  apply Forall_fmap. eapply Forall_impl; [exact Hl|]. intros [k v] (_ & Hk & _). cbn.
  unfold parameter_line, no_newline. cbn [fst snd]. repeat apply no_char_app; [done|by repeat split|by apply itoa_no_char].
Qed.

Lemma foldl_insert_map (l : list (string * Z)) : NoDup l.*1 ->
  foldl (fun m kv => <[kv.1 := kv.2]> m) ∅ l = (list_to_map l : gmap string Z).
Proof.
  induction l as [|[k v] l IH] using rev_ind; intros Hnd; [done|].
  rewrite fmap_app, NoDup_app in Hnd. destruct Hnd as (Hnd & Hk & _).
  rewrite foldl_app, IH, list_to_map_app by done. cbn [foldl fst snd list_to_map foldr].
  rewrite insert_empty. apply insert_union_singleton_r, not_elem_of_list_to_map. intros Hin. apply (Hk k Hin). by left.
Qed.

(** ** Setting and unsetting a parameter *)

Section Values.
Context {P : Type} `{SysctlCommand P} {view : P -> gmap string Z} `{HP : !ProcSys P view}.
Implicit Types s : SysctlSetterImpl P.

Definition name_ok (name : string) : Prop := no_char " " name /\ no_char newline name /\ no_char "=" name.

Definition params s : gmap string Z := view (ss_proc s).

(** A parameter the kernel has. *)
Definition setter_ok s : Prop :=
  name_ok (ss_paramName s) /\
  exists v, params s !! ss_paramName s = Some v /\ - 2 ^ 63 <= v <= max_int64.

Lemma read_parameter name v p : name_ok name -> view p !! name = Some v -> - 2 ^ 63 <= v <= max_int64 ->
  exists p', kernel_Parameter name p = (Ok {[ name := v ]}, p') /\ view p' = view p.
Proof.
  intros (Hs & Hn & _) Hv Hr. destruct (sys_read name v p Hv) as [Ho Hp]. unfold kernel_Parameter.
  destruct (sysctl_cmd [name] p) as [[out err] p']. cbn in Ho, Hp. injection Ho as -> ->. exists p'.
  split; [|done]. f_equal. etrans; [apply (parametersFrom_lines [(name, v)]), Forall_singleton; by split|].
  cbn. by rewrite insert_empty.
Qed.

Lemma write_parameter name v w p : name_ok name -> view p !! name = Some w -> - 2 ^ 63 <= v <= max_int64 ->
  exists p', SetParameter name v p = (Ok tt, p') /\ view p' = <[name := v]> (view p).
Proof.
  intros (_ & _ & He) Hw Hv. destruct (sys_write name v w p Hw He Hv) as [Ho Hp]. unfold SetParameter.
  destruct (sysctl_cmd _ p) as [[out err] p']. cbn in Ho, Hp. subst err. by exists p'.
Qed.

Lemma Setter_Set_spec s v : setter_ok s -> params s !! ss_paramName s = Some v ->
  - 2 ^ 63 <= ss_desiredValue s <= max_int64 ->
  exists p', Setter_Set s = (Ok tt, s <| ss_proc := p' |>
      <| ss_changed := ss_changed s || negb (v =? ss_desiredValue s) |>) /\
    view p' = <[ss_paramName s := ss_desiredValue s]> (params s).
Proof.
  intros (Hn & w & Hw & Hr) Hv Hd. rewrite Hv in Hw. injection Hw as <-.
  unfold Setter_Set, bind, gets, wrapped, on_proc, zoom. destruct (ss_changed s) eqn:Hc; cbn [negb when].
  - destruct (write_parameter (ss_paramName s) (ss_desiredValue s) v (ss_proc s) Hn Hv Hd) as (p' & E & Hp).
    exists p'. unfold ret. rewrite E. split; [|done]. destruct s. cbn in *. by subst.
  - destruct (read_parameter (ss_paramName s) v (ss_proc s) Hn Hv Hr) as (p1 & E1 & Hp1). rewrite E1.
    rewrite lookup_singleton_eq. cbn [default from_option].
    assert (view p1 !! ss_paramName s = Some v) as Hv1 by by rewrite Hp1.
    destruct (write_parameter (ss_paramName s) (ss_desiredValue s) v p1 Hn Hv1 Hd) as (p' & E & Hp).
    exists p'. rewrite Hp1 in Hp. unfold id. destruct (v =? ss_desiredValue s); cbn [negb when];
      unfold ret, modify; cbn; rewrite E; (split; [|done]); destruct s; cbn in *; by subst.
Qed.

Lemma Setter_Unset_spec s v : setter_ok s -> params s !! ss_paramName s = Some v ->
  - 2 ^ 63 <= ss_unwantedValue s <= max_int64 ->
  exists p', Setter_Unset s = (Ok tt, s <| ss_proc := p' |> <| ss_changed := false |>) /\
    view p' = if ss_changed s then <[ss_paramName s := ss_unwantedValue s]> (params s) else params s.
Proof.
  intros (Hn & _) Hv Hu. unfold Setter_Unset, bind, gets, wrapped, on_proc, zoom.
  destruct (ss_changed s) eqn:Hc; cbn [when].
  - destruct (write_parameter (ss_paramName s) (ss_unwantedValue s) v (ss_proc s) Hn Hv Hu) as (p' & E & Hp).
    exists p'. rewrite E. done.
  - exists (ss_proc s). split; [|done]. destruct s. cbn in *. by subst.
Qed.

(** Every sequence of calls: [true] is Set, [false] Unset. *)
Definition toggles (calls : list bool) : M (SysctlSetterImpl P) unit :=
  forM_ calls (fun b => if b : bool then Setter_Set else Setter_Unset).

(** The setter started with [orig]: unchanged values are untouched, and once it
    has changed the parameter its old value was the unwanted one. *)
Definition tracks (name : string) (desired unwanted : Z) (orig : gmap string Z) s : Prop :=
  ss_paramName s = name /\ ss_desiredValue s = desired /\ ss_unwantedValue s = unwanted /\
  (if ss_changed s then orig !! name = Some unwanted /\ params s = <[name := desired]> orig
   else params s = orig).

Lemma toggle_tracks name desired unwanted orig (b : bool) s :
  name_ok name -> orig !! name = Some desired \/ orig !! name = Some unwanted ->
  - 2 ^ 63 <= desired <= max_int64 -> - 2 ^ 63 <= unwanted <= max_int64 -> desired <> unwanted ->
  tracks name desired unwanted orig s ->
  exists s', (if b then Setter_Set else Setter_Unset) s = (Ok tt, s') /\ tracks name desired unwanted orig s' /\
    (b = false -> ss_changed s' = false) /\ (b = true -> params s' !! name = Some desired).
Proof.
  intros Hn Ho Hd Hu Hne (<- & <- & <- & Hs).
  assert (exists v, params s !! ss_paramName s = Some v /\ - 2 ^ 63 <= v <= max_int64) as (v & Hv & Hr).
  { destruct (ss_changed s).
    - destruct Hs as [_ ->]. rewrite lookup_insert_eq. eauto.
    - rewrite Hs. destruct Ho as [Ho|Ho]; rewrite Ho; eauto. }
  assert (setter_ok s) as Hok by (split; eauto). destruct b.
  - destruct (Setter_Set_spec s v Hok Hv Hd) as (p' & E & Hp). eexists. split; [exact E|].
    split; [|split; [done|intros _; cbn; unfold params; cbn; rewrite Hp; apply lookup_insert_eq]].
    split; [done|]. split; [done|]. split; [done|]. unfold params. cbn. rewrite Hp.
    destruct (ss_changed s) eqn:Hc; cbn.
    + destruct Hs as [Hu' ->]. by rewrite insert_insert_eq.
    + rewrite Hs. rewrite Hs in Hv. destruct (Z.eqb_spec v (ss_desiredValue s)) as [->|Hvd]; cbn.
      * by rewrite insert_id.
      * split; [|done]. destruct Ho as [Ho|Ho]; congruence.
  - destruct (Setter_Unset_spec s v Hok Hv Hu) as (p' & E & Hp). eexists. split; [exact E|].
    split; [|done]. split; [done|]. split; [done|]. split; [done|]. cbn. unfold params. cbn. rewrite Hp.
    destruct (ss_changed s); [|done]. destruct Hs as [Hu' ->].
    by rewrite insert_insert_eq, insert_id.
Qed.

Lemma toggles_track name desired unwanted orig calls s :
  name_ok name -> orig !! name = Some desired \/ orig !! name = Some unwanted ->
  - 2 ^ 63 <= desired <= max_int64 -> - 2 ^ 63 <= unwanted <= max_int64 -> desired <> unwanted ->
  tracks name desired unwanted orig s ->
  exists s', toggles calls s = (Ok tt, s') /\ tracks name desired unwanted orig s'.
Proof.
  intros Hn Ho Hd Hu Hne. revert s. induction calls as [|b calls IH]; intros s Hs; [by exists s|].
  destruct (toggle_tracks name desired unwanted orig b s Hn Ho Hd Hu Hne Hs) as (s1 & E & Hs1 & _).
  destruct (IH s1 Hs1) as (s' & E' & Hs'). exists s'. split; [|done].
  unfold toggles. cbn [forM_]. unfold bind. by rewrite E.
Qed.

(** A kernel parameter that had the desired or the unwanted value before is
    given back as it was by unsetting it, after any sequence of sets and unsets;
    no other parameter is touched. *)
Theorem sysctl_unset_restores name desired unwanted p calls :
  name_ok name -> view p !! name = Some desired \/ view p !! name = Some unwanted ->
  - 2 ^ 63 <= desired <= max_int64 -> - 2 ^ 63 <= unwanted <= max_int64 -> desired <> unwanted ->
  exists s', (toggles calls ;; Setter_Unset) (NewSysctlSetter name desired unwanted p) = (Ok tt, s') /\
    params s' = view p.
Proof.
  intros Hn Ho Hd Hu Hne.
  destruct (toggles_track name desired unwanted (view p) calls (NewSysctlSetter name desired unwanted p))
    as (s1 & E1 & Hs1); [done..|].
  destruct (toggle_tracks name desired unwanted (view p) false s1 Hn Ho Hd Hu Hne Hs1)
    as (s2 & E2 & (_ & _ & _ & Ht) & Hc & _).
  exists s2. split; [unfold bind; by rewrite E1|]. by rewrite Hc in Ht.
Qed.

(** IPv6 is blocked and unblocked through the same setter. *)
Lemma Setter_Exists_spec s : setter_ok s ->
  exists p', Setter_Exists s = (Ok true, s <| ss_proc := p' |>) /\ view p' = params s.
Proof.
  intros (Hn & v & Hv & Hr). unfold Setter_Exists, bind, gets, attempt, on_proc, zoom.
  rewrite (sys_exists (ss_paramName s) (ss_proc s)) by eauto. cbn [negb].
  destruct (read_parameter (ss_paramName s) v (ss_proc s) Hn Hv Hr) as (p' & E & Hp). rewrite E. by exists p'.
Qed.
End Values.

(** ** A concrete kernel *)

Module KernelModel.

(** [sysctl name] and [sysctl -w name=value] on a map of parameters. *)
Definition run_sysctl (args : list string) (m : gmap string Z) : (string * option error) * gmap string Z :=
  match args with
  | [name] =>
      match m !! name with
      | Some v => ((unlines [name +:+ " = " +:+ itoa v], None), m)
      | None => (("sysctl: cannot stat " +:+ name, Some (Errorf "exit status 255")), m)
      end
  | [_; kv] =>
      match cut_first "=" kv with
      | Some (name, v) =>
          match m !! name, atoi v with
          | Some _, Some z => ((kv, None), <[name := z]> m)
          | _, _ => (("sysctl: cannot stat " +:+ name, Some (Errorf "exit status 255")), m)
          end
      | None => (("sysctl: bad argument", Some (Errorf "exit status 255")), m)
      end
  | _ => (("sysctl: bad argument", Some (Errorf "exit status 255")), m)
  end.

#[export] Instance map_sysctl : SysctlCommand (gmap string Z) := {|
  sysctl_cmd := run_sysctl;
  proc_exists := fun _ _ => true
|}.

#[export] Instance map_procsys : ProcSys (gmap string Z) (fun m => m).
Proof.
  split.
  - intros name v p Hv. cbn. by rewrite Hv.
  - intros name v w p Hw He Hv. unfold sysctl_cmd, map_sysctl, run_sysctl.
    change (name +:+ "=" +:+ itoa v) with (name +:+ String "=" (itoa v)).
    rewrite (cut_first_app "=" name (itoa v) He), Hw, atoi_itoa by done. done.
  - done.
Qed.

Definition rp_filter : string := "net.ipv4.conf.all.rp_filter".
Definition ip_forward : string := "net.ipv4.ip_forward".

Lemma sysctl_unset_restores_witness :
  exists s', (toggles [true; true; false; true] ;; Setter_Unset)
      (NewSysctlSetter ip_forward 1 0 {[ ip_forward := 0; rp_filter := 2 ]}) = (Ok tt, s') /\
    ss_proc s' = {[ ip_forward := 0; rp_filter := 2 ]}.
Proof.
  apply (sysctl_unset_restores (view := fun m => m) ip_forward 1 0 {[ ip_forward := 0; rp_filter := 2 ]}
           [true; true; false; true]);
    [by repeat split|right; vm_compute; reflexivity|unfold max_int64; lia|unfold max_int64; lia|done].
Defined.

(** Unsetting the reverse path filter gives 1 back, whatever was there: a
    machine that had it off (0) is left with it on, where the interface promises
    the value which was set before. *)
Theorem rp_filter_zero_not_restored :
  exists s', (RPFilter_Set ;; RPFilter_Unset) (NewSysctlRPFilterManager {[ rp_filter := 0 ]}) = (Ok tt, s') /\
    ss_proc s' = {[ rp_filter := 1 ]}.
Proof.
  set (s0 := NewSysctlRPFilterManager {[ rp_filter := 0 ]}).
  assert (forall v c, - 2 ^ 63 <= v <= max_int64 ->
    setter_ok (view := fun m => m) (mkSysctlSetterImpl rp_filter 2 1 c {[ rp_filter := v ]})) as Hok.
  { intros v c Hv. split; [by repeat split|]. exists v. split; [apply lookup_singleton_eq|done]. }
  assert (forall v, ({[ rp_filter := v ]} : gmap string Z) !! rp_filter = Some v) as Hl
    by (intros v; apply lookup_singleton_eq).
  destruct (Setter_Set_spec (view := fun m => m) s0 0 (Hok 0 false ltac:(unfold max_int64; lia)) (Hl 0))
    as (p1 & E1 & Hp1); [cbn; unfold max_int64; lia|].
  assert (p1 = {[ rp_filter := 2 ]}) as -> by exact (eq_trans Hp1 (insert_singleton_eq _ _ _)).
  destruct (Setter_Unset_spec (view := fun m => m) (mkSysctlSetterImpl rp_filter 2 1 true {[ rp_filter := 2 ]}) 2
    (Hok 2 true ltac:(unfold max_int64; lia)) (Hl 2)) as (p2 & E2 & Hp2); [cbn; unfold max_int64; lia|].
  eexists. split.
  - unfold RPFilter_Set, RPFilter_Unset, bind, wrapped. rewrite E1.
    change (s0 <| ss_proc := _ |> <| ss_changed := _ |>) with (mkSysctlSetterImpl rp_filter 2 1 true ({[ rp_filter := 2 ]} : gmap string Z)).
    rewrite E2. reflexivity.
  - exact (eq_trans Hp2 (insert_singleton_eq _ _ _)).
Qed.
End KernelModel.

(** The output of [sysctl] for any parameters is read back as exactly those
    parameters. *)
Theorem sysctl_output_roundtrip l : NoDup l.*1 -> Forall parameter_ok l ->
  parametersFrom (unlines (map parameter_line l)) = Ok (list_to_map l).
Proof. intros Hnd Hl. by rewrite parametersFrom_lines, foldl_insert_map. Qed.

Lemma sysctl_output_roundtrip_witness :
  parametersFrom (unlines (map parameter_line [("net.ipv4.ip_forward", 1); ("kernel.sched_rt_runtime_us", -1)])) =
  Ok (list_to_map [("net.ipv4.ip_forward", 1); ("kernel.sched_rt_runtime_us", -1)]).
Proof.
  apply sysctl_output_roundtrip.
  - apply (bool_decide_unpack _). vm_compute. exact I.
  - repeat (apply Forall_cons; split; [repeat split; vm_compute; congruence|]). by apply Forall_nil.
Defined.
