(* ===== verification/Api.v ===== *)
(** * Api: errors of the backend API

    Models [core/errors.go]: the error values and how an HTTP response becomes
    one.  Reading the body and decoding its JSON are outside the repository; a
    response carries what they yield. *)

From stdpp Require Import base option list strings pretty.
From Stdlib Require Import ZArith Lia.
From S2P Require Import Prelude GoLib.

Open Scope Z_scope.
Open Scope go_scope.

(** [http.StatusText] of the codes with an error value of their own. *)
Definition ErrBadRequest : string := "Bad Request".
Definition ErrUnauthorized : string := "Unauthorized".
Definition ErrForbidden : string := "Forbidden".
Definition ErrNotFound : string := "Not Found".
Definition ErrConflict : string := "Conflict".
Definition ErrTooManyRequests : string := "Too Many Requests".
Definition ErrServerInternal : string := "Internal Server Error".
Definition ErrMaximumDeviceCount : string := "maximum device count reached".
Definition ErrRateLimitReach : string := "reach max allowed nickname changes for a week".
Definition ErrNicknameTooLong : string := "nickname is too long".
Definition ErrDuplicateNickname : string := "nickname already exist".
Definition ErrContainsForbiddenWord : string := "nickname contains forbidden word".
Definition ErrInvalidPrefixOrSuffix : string := "nickname contains invalid prefix or suffix".
Definition ErrNicknameWithDoubleHyphens : string := "nickname contains double hyphens".
Definition ErrContainsInvalidChars : string := "nickname contains invalid characters".

Record apiError : Type := mkApiError { ae_Message : string; ae_Code : Z }.

(** A response: its status, the result of reading and decoding its body, and
    the text of its status and request. *)
Record HttpResponse : Type := mkHttpResponse {
  resp_StatusCode : Z;
  resp_StatusText : string;
  resp_Request : string;
  resp_body : result (result apiError)
}.

Definition extractErrorForMeshnet (info : apiError) : option error :=
  let code := ae_Code info in
  if code =? 101126 then Some (Sentinel ErrRateLimitReach)
  else if code =? 101127 then Some (Sentinel ErrNicknameTooLong)
  else if code =? 101128 then Some (Sentinel ErrDuplicateNickname)
  else if code =? 101129 then Some (Sentinel ErrContainsForbiddenWord)
  else if code =? 101130 then Some (Sentinel ErrInvalidPrefixOrSuffix)
  else if code =? 101131 then Some (Sentinel ErrNicknameWithDoubleHyphens)
  else if code =? 101132 then Some (Sentinel ErrContainsInvalidChars)
  else None.

Definition with_message (sentinel message : string) : error := Wrapf "" (Sentinel sentinel) (": " +:+ message).

(** The error for a decoded body. *)
Definition status_error (status : Z) (text : string) (info : apiError) : error :=
  let message := ae_Message info in
  if bool_decide (message = "") then Errorf text
  else if status =? 400 then
    if str_contains message "count reached" then Sentinel ErrMaximumDeviceCount
    else match extractErrorForMeshnet info with
         | Some e => e
         | None => with_message ErrBadRequest message
         end
  else if status =? 401 then with_message ErrUnauthorized message
  else if status =? 403 then with_message ErrForbidden message
  else if status =? 404 then with_message ErrNotFound message
  else if status =? 409 then with_message ErrConflict message
  else Errorf (text +:+ ": " +:+ message).

Definition ExtractError (resp : HttpResponse) : option error :=
  let status := resp_StatusCode resp in
  if status <? 400 then None
  else if status =? 500 then Some (Sentinel ErrServerInternal)
  else if status =? 429 then Some (Sentinel ErrTooManyRequests)
  else match resp_body resp with
       | Err e => Some e
       | Ok (Err e) => Some (Wrapf (resp_Request resp +:+ ": " +:+ pretty status +:+ " ") e "")
       | Ok (Ok info) => Some (status_error status (resp_StatusText resp) info)
       end.

(** The error value that belongs to a status code, if any. *)
Definition status_sentinel (status : Z) : option string :=
  if status =? 400 then Some ErrBadRequest
  else if status =? 401 then Some ErrUnauthorized
  else if status =? 403 then Some ErrForbidden
  else if status =? 404 then Some ErrNotFound
  else if status =? 409 then Some ErrConflict
  else None.

(** A response with one of the status codes that have an error value (401,
    403, 404, 409) is recognised by [errors.Is] exactly when its body carries a
    message: without one the error is made from the status text alone, which is
    equal to no error value, so that callers that log the account out on
    [ErrUnauthorized] do not. *)
Theorem status_recognised_only_with_message (resp : HttpResponse) (info : apiError) (s : string) :
  resp_body resp = Ok (Ok info) -> status_sentinel (resp_StatusCode resp) = Some s ->
  resp_StatusCode resp <> 400 ->
  exists e, ExtractError resp = Some e /\ (errors_Is e s = true <-> ae_Message info <> "").
Proof.
  intros Hb Hs H400. unfold ExtractError. rewrite Hb.
  assert (Hr : 400 < resp_StatusCode resp < 410).
  { unfold status_sentinel in Hs.
    repeat match goal with H : context [?x =? ?y] |- _ => destruct (Z.eqb_spec x y) end; lia || done. }
  destruct (Z.ltb_spec (resp_StatusCode resp) 400); [lia|].
  destruct (Z.eqb_spec (resp_StatusCode resp) 500); [lia|].
  destruct (Z.eqb_spec (resp_StatusCode resp) 429); [lia|].
  eexists; split; [done|]. unfold status_error.
  case_bool_decide; [split; [done|by intros []]|].
  unfold status_sentinel in Hs. repeat case_match; simplify_eq; try lia; cbn; by rewrite bool_decide_true.
Qed.

Lemma status_recognised_only_with_message_witness :
  exists e, ExtractError (mkHttpResponse 401 "Unauthorized" "GET /v1/users/services" (Ok (Ok (mkApiError "" 0))))
              = Some e /\ (errors_Is e ErrUnauthorized = true <-> "" <> "").
Proof.
  apply (status_recognised_only_with_message
           (mkHttpResponse 401 "Unauthorized" "GET /v1/users/services" (Ok (Ok (mkApiError "" 0))))
           (mkApiError "" 0) ErrUnauthorized); [reflexivity..|discriminate].
Defined.
