(* ===== verification/Mesh.v ===== *)
(** * Mesh: machines and peers of the meshnet

    Models the data of [core/mesh/peer.go]: this machine, its peers with the
    permissions given and received, and their protobuf form ([pb.Peer] of the
    meshnet service).  Identifiers are UUIDs in their textual form; endpoints are
    the textual form of [netip.AddrPort]. *)

From stdpp Require Import base option list strings gmap.
From Stdlib Require Import ZArith.
From S2P Require Import Prelude GoLib.

Open Scope go_scope.

Record OperatingSystem : Type := mkOS { os_Name : string; os_Distro : string }.
#[export] Instance OperatingSystem_eq_dec : EqDecision OperatingSystem.
Proof. solve_decision. Defined.

Record Machine : Type := mkMachine {
  m_ID : string;
  m_HardwareID : string;
  m_Hostname : string;
  m_OS : OperatingSystem;
  m_PublicKey : string;
  m_Endpoints : list string;
  m_Address : Addr;
  m_SupportsRouting : bool;
  m_Nickname : string
}.
#[export] Instance Machine_eta : EtaExpand Machine := fun m =>
  mkMachine (m_ID m) (m_HardwareID m) (m_Hostname m) (m_OS m) (m_PublicKey m) (m_Endpoints m)
    (m_Address m) (m_SupportsRouting m) (m_Nickname m).
#[export] Instance Machine_eq_dec : EqDecision Machine.
Proof. solve_decision. Defined.

Definition zero_machine : Machine := mkMachine "" "" "" (mkOS "" "") "" [] AddrInvalid false "".

Record MachinePeer : Type := mkMachinePeer {
  p_ID : string;
  p_Hostname : string;
  p_OS : OperatingSystem;
  p_PublicKey : string;
  p_Endpoints : list string;
  p_Address : Addr;
  p_Email : string;
  p_IsLocal : bool;
  p_DoesPeerAllowRouting : bool;
  p_DoesPeerAllowInbound : bool;
  p_DoesPeerAllowLocalNetwork : bool;
  p_DoesPeerAllowFileshare : bool;
  p_DoesPeerSupportRouting : bool;
  p_DoIAllowInbound : bool;
  p_DoIAllowRouting : bool;
  p_DoIAllowLocalNetwork : bool;
  p_DoIAllowFileshare : bool;
  p_AlwaysAcceptFiles : bool;
  p_Nickname : string
}.
#[export] Instance MachinePeer_eta : EtaExpand MachinePeer := fun p =>
  mkMachinePeer (p_ID p) (p_Hostname p) (p_OS p) (p_PublicKey p) (p_Endpoints p) (p_Address p)
    (p_Email p) (p_IsLocal p) (p_DoesPeerAllowRouting p) (p_DoesPeerAllowInbound p)
    (p_DoesPeerAllowLocalNetwork p) (p_DoesPeerAllowFileshare p) (p_DoesPeerSupportRouting p)
    (p_DoIAllowInbound p) (p_DoIAllowRouting p) (p_DoIAllowLocalNetwork p)
    (p_DoIAllowFileshare p) (p_AlwaysAcceptFiles p) (p_Nickname p).
#[export] Instance MachinePeer_eq_dec : EqDecision MachinePeer.
Proof. solve_decision. Defined.

(** [MachinePeer{}]. *)
Definition zero_peer : MachinePeer :=
  mkMachinePeer "" "" (mkOS "" "") "" [] AddrInvalid "" false false false false false false
    false false false false false "".

(** [Hosts] and [Raw] are passed through untouched and left out. *)
Record MachineMap : Type := mkMachineMap {
  mm_Machine : Machine;
  mm_Peers : list MachinePeer
}.
#[export] Instance MachineMap_eta : EtaExpand MachineMap := fun m =>
  mkMachineMap (mm_Machine m) (mm_Peers m).

Definition zero_machine_map : MachineMap := mkMachineMap zero_machine [].

(** [meshnet.UniqueAddress]. *)
Record UniqueAddress : Type := mkUniqueAddress {
  ua_UID : string;
  ua_Address : Addr
}.

Definition Machine_IsEqual (s b : Machine) : bool :=
  bool_decide (m_ID s = m_ID b) && bool_decide (m_HardwareID s = m_HardwareID b) &&
  bool_decide (m_Hostname s = m_Hostname b) && bool_decide (m_Address s = m_Address b) &&
  Bool.eqb (m_SupportsRouting s) (m_SupportsRouting b) &&
  bool_decide (m_Nickname s = m_Nickname b).

(** [pb.Peer]; [pb_Status] is true for [PeerStatus_CONNECTED]. *)
Record PbPeer : Type := mkPbPeer {
  pb_Identifier : string;
  pb_Pubkey : string;
  pb_Ip : string;
  pb_Endpoints : list string;
  pb_Os : string;
  pb_Distro : string;
  pb_Hostname : string;
  pb_Email : string;
  pb_IsInboundAllowed : bool;
  pb_IsRoutable : bool;
  pb_IsLocalNetworkAllowed : bool;
  pb_IsFileshareAllowed : bool;
  pb_DoIAllowInbound : bool;
  pb_DoIAllowRouting : bool;
  pb_DoIAllowLocalNetwork : bool;
  pb_DoIAllowFileshare : bool;
  pb_AlwaysAcceptFiles : bool;
  pb_Nickname : string;
  pb_Status : bool
}.
#[export] Instance PbPeer_eta : EtaExpand PbPeer := fun p =>
  mkPbPeer (pb_Identifier p) (pb_Pubkey p) (pb_Ip p) (pb_Endpoints p) (pb_Os p) (pb_Distro p)
    (pb_Hostname p) (pb_Email p) (pb_IsInboundAllowed p) (pb_IsRoutable p)
    (pb_IsLocalNetworkAllowed p) (pb_IsFileshareAllowed p) (pb_DoIAllowInbound p)
    (pb_DoIAllowRouting p) (pb_DoIAllowLocalNetwork p) (pb_DoIAllowFileshare p)
    (pb_AlwaysAcceptFiles p) (pb_Nickname p) (pb_Status p).

Definition ip_text (a : Addr) : string := if addr_IsValid a then addr_String a else "".

Definition Machine_ToProtobuf (s : Machine) : PbPeer :=
  mkPbPeer (m_ID s) (m_PublicKey s) (ip_text (m_Address s)) (m_Endpoints s) (os_Name (m_OS s))
    (os_Distro (m_OS s)) (m_Hostname s) "" false false false false false false false false false
    (m_Nickname s) false.

Definition MachinePeer_ToProtobuf (p : MachinePeer) : PbPeer :=
  mkPbPeer (p_ID p) (p_PublicKey p) (ip_text (p_Address p)) (p_Endpoints p) (os_Name (p_OS p))
    (os_Distro (p_OS p)) (p_Hostname p) (p_Email p) (p_DoesPeerAllowInbound p)
    (p_DoesPeerAllowRouting p) (p_DoesPeerAllowLocalNetwork p) (p_DoesPeerAllowFileshare p)
    (p_DoIAllowInbound p) (p_DoIAllowRouting p) (p_DoIAllowLocalNetwork p)
    (p_DoIAllowFileshare p) (p_AlwaysAcceptFiles p) (p_Nickname p) false.
