(* ===== verification/Config.v ===== *)
(** * Config: the configuration of the daemon

    Models [config/config.go], [config/token.go], [config/field.go] and
    [config/allowlistlist.go]; the allowlist keeps ports and subnets as Go maps to
    [bool].  A Go [range] over a map visits the keys in an arbitrary order that
    may differ from one loop to the next; the functions that turn a map into a
    slice return the keys in the order of [map_to_list], and callers whose
    behaviour depends on the order take it from their environment instead (see
    Networker).  Writing to a nil map panics; the configuration always allocates
    them, so a nil map is the empty map here. *)

From stdpp Require Import base option list strings gmap fin_maps.
From Stdlib Require Import ZArith.
From S2P Require Import Prelude GoLib Mesh.

Open Scope Z_scope.
Open Scope go_scope.

Abbreviation PortSet := (gmap Z bool).
Abbreviation Subnets := (gmap string bool).

Record Ports : Type := mkPorts { ports_TCP : PortSet; ports_UDP : PortSet }.
#[export] Instance Ports_eta : EtaExpand Ports := fun p => mkPorts (ports_TCP p) (ports_UDP p).

#[export] Instance Ports_eq_dec : EqDecision Ports.
Proof. solve_decision. Defined.

Record Allowlist : Type := mkAllowlist { al_Ports : Ports; al_Subnets : Subnets }.
#[export] Instance Allowlist_eta : EtaExpand Allowlist := fun a =>
  mkAllowlist (al_Ports a) (al_Subnets a).

#[export] Instance Allowlist_eq_dec : EqDecision Allowlist.
Proof. solve_decision. Defined.

(** [Allowlist{}]. *)
Definition empty_allowlist : Allowlist := mkAllowlist (mkPorts ∅ ∅) ∅.

(** [m[k]]: the zero value when the key is absent. *)
Definition map_get `{Countable K} (m : gmap K bool) (k : K) : bool := default false (m !! k).

Definition set_all `{Countable K} (ks : list K) (m : gmap K bool) : gmap K bool :=
  foldl (fun m k => <[k := true]> m) m ks.

Definition delete_all_keys `{Countable K} (ks : list K) (m : gmap K bool) : gmap K bool :=
  foldl (fun m k => delete k m) m ks.

Definition NewAllowlist (udpPorts tcpPorts : list Z) (subnets : list string) : Allowlist :=
  mkAllowlist (mkPorts (set_all tcpPorts ∅) (set_all udpPorts ∅)) (set_all subnets ∅).

Definition update_keys `{Countable K} (ks : list K) (remove : bool) (m : gmap K bool) : gmap K bool :=
  if remove then delete_all_keys ks m else set_all ks m.

Definition UpdateUDPPorts (ports : list Z) (remove : bool) (a : Allowlist) : Allowlist :=
  a <| al_Ports := (al_Ports a) <| ports_UDP := update_keys ports remove (ports_UDP (al_Ports a)) |> |>.

Definition UpdateTCPPorts (ports : list Z) (remove : bool) (a : Allowlist) : Allowlist :=
  a <| al_Ports := (al_Ports a) <| ports_TCP := update_keys ports remove (ports_TCP (al_Ports a)) |> |>.

Definition UpdateSubnets (subnet : string) (remove : bool) (a : Allowlist) : Allowlist :=
  a <| al_Subnets := if remove then delete subnet (al_Subnets a)
                     else <[subnet := true]> (al_Subnets a) |>.

Definition GetUDPPorts (a : Allowlist) : list Z := (map_to_list (ports_UDP (al_Ports a))).*1.
Definition GetTCPPorts (a : Allowlist) : list Z := (map_to_list (ports_TCP (al_Ports a))).*1.
Definition GetSubnets (a : Allowlist) : list string := (map_to_list (al_Subnets a)).*1.

(** ** The configuration

    UUIDs and times are text; [uint32] and [int64] values are [Z]. *)

Inductive Technology : Type := UNKNOWN_TECHNOLOGY | OPENVPN | NORDLYNX.
#[export] Instance Technology_eq_dec : EqDecision Technology.
Proof. solve_decision. Defined.

(** [TrueField]: a boolean that is true when unset. *)
Definition TrueField : Type := option bool.
Definition TrueField_Get (t : TrueField) : bool := default true t.
Definition TrueField_Set (value : bool) : TrueField := Some value.

(** [DNS]: nil when unset. *)
Definition DNS : Type := slice string.
Definition DNS_Or (d : DNS) (defaultValue : list string) : DNS :=
  match elems d with [] => Some defaultValue | _ => d end.

Record NCData : Type := mkNCData {
  nc_UserID : string;
  nc_Username : string;
  nc_Password : string;
  nc_Endpoint : string
}.

Record TokenData : Type := mkTokenData {
  td_Token : string;
  td_TokenExpiry : string;
  td_RenewToken : string;
  td_IsOAuth : bool;
  td_TrustedPassToken : string;
  td_TrustedPassOwnerID : string;
  td_ServiceExpiry : string;
  td_NordLynxPrivateKey : string;
  td_OpenVPNUsername : string;
  td_OpenVPNPassword : string;
  td_NCData : NCData
}.

#[export] Instance NCData_eta : EtaExpand NCData := fun d =>
  mkNCData (nc_UserID d) (nc_Username d) (nc_Password d) (nc_Endpoint d).
#[export] Instance TokenData_eta : EtaExpand TokenData := fun d =>
  mkTokenData (td_Token d) (td_TokenExpiry d) (td_RenewToken d) (td_IsOAuth d) (td_TrustedPassToken d)
    (td_TrustedPassOwnerID d) (td_ServiceExpiry d) (td_NordLynxPrivateKey d) (td_OpenVPNUsername d)
    (td_OpenVPNPassword d) (td_NCData d).
Definition zero_token : TokenData := mkTokenData "" "" "" false "" "" "" "" "" "" (mkNCData "" "" "" "").

(** [UsersData]: sets of user ids. *)
Record UsersData : Type := mkUsersData {
  ud_Notify : gmap Z bool;
  ud_NotifyOff : gmap Z bool;
  ud_TrayOff : gmap Z bool
}.

#[export] Instance UsersData_eta : EtaExpand UsersData := fun u =>
  mkUsersData (ud_Notify u) (ud_NotifyOff u) (ud_TrayOff u).

Record AutoConnectData : Type := mkAutoConnectData {
  ac_ID : Z;
  ac_ServerTag : string;
  ac_Country : string;
  ac_City : string;
  ac_Group : Z;
  ac_Protocol : Z;
  ac_ThreatProtectionLite : bool;
  ac_Obfuscate : bool;
  ac_DNS : DNS;
  ac_Allowlist : Allowlist;
  ac_PostquantumVpn : bool
}.
#[export] Instance AutoConnectData_eta : EtaExpand AutoConnectData := fun a =>
  mkAutoConnectData (ac_ID a) (ac_ServerTag a) (ac_Country a) (ac_City a) (ac_Group a)
    (ac_Protocol a) (ac_ThreatProtectionLite a) (ac_Obfuscate a) (ac_DNS a) (ac_Allowlist a)
    (ac_PostquantumVpn a).

(** The struct [meshnet] is its two fields [EnabledByUID] and [EnabledByGID]. *)
Record Config : Type := mkConfig {
  cfg_Technology : Technology;
  cfg_Firewall : bool;
  cfg_FirewallMark : Z;
  cfg_Routing : TrueField;
  cfg_Analytics : TrueField;
  cfg_Mesh : bool;
  cfg_MeshPrivateKey : string;
  cfg_MeshDevice : option Machine;
  cfg_KillSwitch : bool;
  cfg_AutoConnect : bool;
  cfg_IPv6 : bool;
  cfg_EnabledByUID : Z;
  cfg_EnabledByGID : Z;
  cfg_AutoConnectData : AutoConnectData;
  cfg_UsersData : option UsersData;
  cfg_TokensData : gmap Z TokenData;
  cfg_MachineID : string;
  cfg_LanDiscovery : bool;
  cfg_RemoteConfig : string;
  cfg_RCLastUpdate : string;
  cfg_VirtualLocation : TrueField
}.
#[export] Instance Config_eta : EtaExpand Config := fun c =>
  mkConfig (cfg_Technology c) (cfg_Firewall c) (cfg_FirewallMark c) (cfg_Routing c)
    (cfg_Analytics c) (cfg_Mesh c) (cfg_MeshPrivateKey c) (cfg_MeshDevice c) (cfg_KillSwitch c)
    (cfg_AutoConnect c) (cfg_IPv6 c) (cfg_EnabledByUID c) (cfg_EnabledByGID c)
    (cfg_AutoConnectData c) (cfg_UsersData c) (cfg_TokensData c) (cfg_MachineID c)
    (cfg_LanDiscovery c) (cfg_RemoteConfig c) (cfg_RCLastUpdate c) (cfg_VirtualLocation c).

(** [newConfig]; [Protocol_UDP] is 1. *)
Definition newConfig (machineID : string) : Config :=
  mkConfig NORDLYNX true 57841 None None false "" None false false false 0 0
    (mkAutoConnectData 0 "" "" "" 0 1 false false None empty_allowlist false)
    (Some (mkUsersData ∅ ∅ ∅)) ∅ machineID false "" "0001-01-01T00:00:00Z" None.

(** [cfg.TokensData[uid]]: the zero value when absent. *)
Definition token_of (c : Config) (uid : Z) : TokenData := default zero_token (cfg_TokensData c !! uid).

(** [cfg.TokensData[cfg.AutoConnectData.ID].Token]. *)
Definition current_token (c : Config) : string :=
  default "" (td_Token <$> cfg_TokensData c !! ac_ID (cfg_AutoConnectData c)).

(** [auth.Logout]: the account loses its token. *)
Definition Logout (user : Z) (c : Config) : Config :=
  c <| cfg_TokensData := delete user (cfg_TokensData c) |>.
