(* ===== verification/Firewall.v ===== *)
(** * Firewall: named rules and the switchable firewall service

    Models [daemon/firewall]: [rule.go] (rules, their equality and the ordered
    rule memory), [errors.go] and [firewall.go] (the service the networker
    calls, which keeps every rule in memory and forwards it to the current
    agent).  The no-op agent is [notables.Facade].  The [events.Publisher] the
    service holds only logs what it does and is left out; the mutex makes each
    method atomic. *)

From stdpp Require Import base option list strings gmap sorting.
Set Warnings "-clear-no-such-hyp".
From Stdlib Require Import ZArith Lia.
From S2P Require Import Prelude GoLib.

Open Scope Z_scope.
Open Scope go_scope.

(** ** Rules *)

Inductive PortsDirection : Type := SourceAndDestination | Destination | Source.
Inductive ConnectionState : Type := Established | Related | New.
Inductive Direction : Type := Inbound | Outbound | TwoWay | Forward.

#[export] Instance PortsDirection_eq_dec : EqDecision PortsDirection.
Proof. solve_decision. Defined.
#[export] Instance ConnectionState_eq_dec : EqDecision ConnectionState.
Proof. solve_decision. Defined.
#[export] Instance Direction_eq_dec : EqDecision Direction.
Proof. solve_decision. Defined.

(** [net.Interface]; the hardware address in its textual form. *)
Record Interface : Type := mkInterface {
  if_index : Z;
  if_mtu : Z;
  if_name : string;
  if_hardware : string;
  if_flags : Z
}.

#[export] Instance Interface_eq_dec : EqDecision Interface.
Proof. solve_decision. Defined.

(** [net.Interface{}]. *)
Definition zero_interface : Interface := mkInterface 0 0 "" "" 0.

Definition InterfacesAreEqual (a b : Interface) : bool :=
  bool_decide (if_index a = if_index b) && bool_decide (if_mtu a = if_mtu b) &&
  bool_decide (if_name a = if_name b) && bool_decide (if_hardware a = if_hardware b) &&
  bool_decide (if_flags a = if_flags b).

Record ConnectionStates : Type := mkConnectionStates {
  cs_SrcAddr : Addr;
  cs_States : slice ConnectionState
}.

Definition no_states : ConnectionStates := mkConnectionStates AddrInvalid None.

Definition ConnectionStates_Equal (c d : ConnectionStates) : bool :=
  bool_decide (cs_SrcAddr c = cs_SrcAddr d) &&
  bool_decide (elems (cs_States c) = elems (cs_States d)).

Record Rule : Type := mkRule {
  r_Name : string;
  r_Interfaces : slice Interface;
  r_RemoteNetworks : slice Prefix;
  r_LocalNetworks : slice Prefix;
  r_Ports : slice Z;
  r_PortsDirection : PortsDirection;
  r_Protocols : slice string;
  r_Direction : Direction;
  r_ConnectionStates : ConnectionStates;
  r_Marks : slice Z;
  r_Allow : bool;
  r_Ipv6Only : bool;
  r_Icmpv6Types : list Z;
  r_HopLimit : Z;
  r_SourcePorts : list Z;
  r_DestinationPorts : list Z;
  r_Comment : string
}.

#[export] Instance Rule_eta : EtaExpand Rule := fun r =>
  mkRule (r_Name r) (r_Interfaces r) (r_RemoteNetworks r) (r_LocalNetworks r)
    (r_Ports r) (r_PortsDirection r) (r_Protocols r) (r_Direction r)
    (r_ConnectionStates r) (r_Marks r) (r_Allow r) (r_Ipv6Only r)
    (r_Icmpv6Types r) (r_HopLimit r) (r_SourcePorts r) (r_DestinationPorts r)
    (r_Comment r).

#[export] Instance ConnectionStates_eq_dec : EqDecision ConnectionStates.
Proof. solve_decision. Defined.
#[export] Instance Rule_eq_dec : EqDecision Rule.
Proof. solve_decision. Defined.

(** [Rule{}], the base of every rule literal: Go zeroes the fields a literal
    leaves out. *)
Definition zero_rule : Rule :=
  mkRule "" None None None None SourceAndDestination None Inbound no_states
    None false false [] 0 [] [] "".

(** [slices.EqualFunc]. *)
Fixpoint equal_func {A} (eq : A -> A -> bool) (l k : list A) : bool :=
  match l, k with
  | [], [] => true
  | x :: l', y :: k' => eq x y && equal_func eq l' k'
  | _, _ => false
  end.

(** [slices.Equal] on slices: a nil and an empty slice are equal. *)
Definition slices_Equal {A} `{EqDecision A} (a b : slice A) : bool :=
  bool_decide (elems a = elems b).

Definition Rule_Equal (r other : Rule) : bool :=
  bool_decide (r_Name r = r_Name other) &&
  equal_func InterfacesAreEqual (elems (r_Interfaces r)) (elems (r_Interfaces other)) &&
  slices_Equal (r_RemoteNetworks r) (r_RemoteNetworks other) &&
  slices_Equal (r_LocalNetworks r) (r_LocalNetworks other) &&
  slices_Equal (r_Ports r) (r_Ports other) &&
  bool_decide (r_PortsDirection r = r_PortsDirection other) &&
  slices_Equal (r_Protocols r) (r_Protocols other) &&
  bool_decide (r_Direction r = r_Direction other) &&
  ConnectionStates_Equal (r_ConnectionStates r) (r_ConnectionStates other) &&
  slices_Equal (r_Marks r) (r_Marks other) &&
  Bool.eqb (r_Allow r) (r_Allow other) &&
  Bool.eqb (r_Ipv6Only r) (r_Ipv6Only other) &&
  bool_decide (r_Icmpv6Types r = r_Icmpv6Types other) &&
  bool_decide (r_HopLimit r = r_HopLimit other) &&
  bool_decide (r_SourcePorts r = r_SourcePorts other) &&
  bool_decide (r_DestinationPorts r = r_DestinationPorts other) &&
  bool_decide (r_Comment r = r_Comment other).

(** ** Errors *)

Definition ErrRuleNotFound : string := "rule with specified name does not exist".
Definition ErrRuleAlreadyExists : string := "rule with specified name already exists".
Definition ErrRuleWithoutName : string := "rule must have a name".
Definition ErrFirewallAlreadyEnabled : string := "firewall is already enabled".
Definition ErrFirewallAlreadyDisabled : string := "firewall is already disabled".

(** [firewall.NewError]: a wrapper that adds no text and unwraps. *)
Definition NewError (e : error) : error := Wrapf "" e "".

(** ** The ordered rule memory

    [OrderedRules] is its slice of rules, oldest first. *)

Module OrderedRules.

Definition byName (name : string) (r : Rule) : bool := bool_decide (r_Name r = name).

Definition Add (rule : Rule) : M (list Rule) unit := fun rules =>
if bool_decide (r_Name rule = "") then (Err (NewError (Sentinel ErrRuleWithoutName)), rules)
else match index_func (byName (r_Name rule)) rules with
     | Some index =>
         match rules !! index with
         | Some existingRule =>
             if Rule_Equal existingRule rule
             then (Err (NewError (Sentinel ErrRuleAlreadyExists)), rules)
             else (Ok tt, delete index rules ++ [rule])
         | None => (Ok tt, delete index rules ++ [rule])
         end
     | None => (Ok tt, rules ++ [rule])
     end.

Definition Get (name : string) : M (list Rule) Rule := fun rules =>
match index_func (byName name) rules with
| Some index => (Ok (default zero_rule (rules !! index)), rules)
| None => (Err (NewError (Sentinel ErrRuleNotFound)), rules)
end.

Definition Delete (name : string) : M (list Rule) unit := fun rules =>
match index_func (byName name) rules with
| None => (Err (NewError (Sentinel ErrRuleNotFound)), rules)
| Some index =>
    if (length rules <=? 1)%nat then (Ok tt, [])
    else (Ok tt, delete index rules)
end.

End OrderedRules.

(** ** The service *)

(** What the service calls: [firewall.Agent]. *)
Class Agent (A : Type) : Type := {
  agent_Add : Rule -> M A unit;
  agent_Delete : Rule -> M A unit
}.

(** Which agent the [current] field points to. *)
Inductive AgentRef : Type := NoopAgent | WorkingAgent.

#[export] Instance AgentRef_eq_dec : EqDecision AgentRef.
Proof. solve_decision. Defined.

Record Firewall (A : Type) : Type := mkFirewall {
  fw_rules : list Rule;
  fw_current : AgentRef;
  fw_working : A;
  fw_enabled : bool
}.
Arguments mkFirewall {A} _ _ _ _.
Arguments fw_rules {A} _.
Arguments fw_current {A} _.
Arguments fw_working {A} _.
Arguments fw_enabled {A} _.

#[export] Instance Firewall_eta {A} : EtaExpand (Firewall A) := fun f =>
  mkFirewall (fw_rules f) (fw_current f) (fw_working f) (fw_enabled f).

Section Service.
Context {A : Type} `{Agent A}.

Definition NewFirewall (working : A) (enabled : bool) : Firewall A :=
  mkFirewall [] (if enabled then WorkingAgent else NoopAgent) working enabled.

(** A call through an [Agent] variable; the no-op agent does nothing. *)
Definition on_agent (ref : AgentRef) (op : M A unit) : M (Firewall A) unit :=
  match ref with
  | NoopAgent => ret tt
  | WorkingAgent => zoom fw_working (fun a f => f <| fw_working := a |>) op
  end.

Definition on_rules {B} (op : M (list Rule) B) : M (Firewall A) B :=
  zoom fw_rules (fun l f => f <| fw_rules := l |>) op.

(** One turn of the loop of [Add]. *)
Definition add_rule (rule : Rule) : M (Firewall A) unit :=
  if bool_decide (r_Name rule = "") then throw (NewError (Sentinel ErrRuleWithoutName))
  else
    let! existing := attempt (on_rules (OrderedRules.Get (r_Name rule))) in
    (match existing with
     | Ok existingRule =>
         if Rule_Equal existingRule rule
         then throw (NewError (Sentinel ErrRuleAlreadyExists)) else ret tt
     | Err _ => ret tt
     end) ;;
    let! cur := gets fw_current in
    wrapped ("adding " +:+ r_Name rule +:+ ": ") (on_agent cur (agent_Add rule)) "" ;;
    wrapped ("adding " +:+ r_Name rule +:+ " to memory: ")
      (on_rules (OrderedRules.Add rule)) "" ;;
    match existing with
    | Ok existingRule =>
        wrapped ("removing replaced rule " +:+ r_Name rule +:+ " to memory: ")
          (on_agent cur (agent_Delete existingRule)) ""
    | Err _ => ret tt
    end.

Definition Add (rules : list Rule) : M (Firewall A) unit := forM_ rules add_rule.

Definition delete_rule (name : string) : M (Firewall A) unit :=
  let! rule := wrapped ("getting " +:+ name +:+ ": ") (on_rules (OrderedRules.Get name)) "" in
  let! cur := gets fw_current in
  wrapped ("deleting " +:+ name +:+ ": ") (on_agent cur (agent_Delete rule)) "" ;;
  let! r := attempt (on_rules (OrderedRules.Delete (r_Name rule))) in
  match r with
  | Ok _ => ret tt
  | Err e => throw (Errorf ("deleting " +:+ name +:+ " from memory: " +:+ error_text e))
  end.

Definition Delete (names : list string) : M (Firewall A) unit := forM_ names delete_rule.

Definition swap (current next : AgentRef) : M (Firewall A) unit :=
  let! rules := gets fw_rules in
  forM_ rules (fun rule =>
    wrapped ("deleting rule " +:+ r_Name rule +:+ ": ")
      (on_agent current (agent_Delete rule)) "" ;;
    wrapped ("adding rule " +:+ r_Name rule +:+ ": ")
      (on_agent next (agent_Add rule)) "").

Definition Enable : M (Firewall A) unit :=
  let! enabled := gets fw_enabled in
  if enabled : bool then throw (NewError (Sentinel ErrFirewallAlreadyEnabled))
  else
    set! fw_enabled := true ;;
    set! fw_current := WorkingAgent ;;
    swap NoopAgent WorkingAgent.

Definition Disable : M (Firewall A) unit :=
  let! enabled := gets fw_enabled in
  if negb enabled then throw (NewError (Sentinel ErrFirewallAlreadyDisabled))
  else
    set! fw_enabled := false ;;
    set! fw_current := NoopAgent ;;
    swap WorkingAgent NoopAgent.
End Service.

(** ** Correctness of the service

    The agent's promise to the service, against which the service is proved:
    [R a l] says the agent state [a] has exactly the rules [l] installed, most
    recent (first matched) first. *)

Class LawfulAgent (A : Type) `{Agent A} (R : A -> list Rule -> Prop) : Prop := {
  lawful_Add a l r :
    R a l -> exists a', agent_Add r a = (Ok tt, a') /\ R a' (r :: l);
  lawful_Delete a l r :
    R a l -> r ∈ l -> exists a', agent_Delete r a = (Ok tt, a') /\ R a' (remove_first r l)
}.

Lemma equal_func_refl {A} (eq : A -> A -> bool) l :
  (forall x, eq x x = true) -> equal_func eq l l = true.
Proof. intros Heq. induction l; cbn; [done|]. by rewrite Heq. Qed.

Lemma Rule_Equal_refl r : Rule_Equal r r = true.
Proof.
  unfold Rule_Equal, slices_Equal, ConnectionStates_Equal.
  rewrite equal_func_refl.
  - by rewrite !bool_decide_true, !eqb_reflx.
  - intros x. unfold InterfacesAreEqual. by rewrite !bool_decide_true.
Qed.

Section Invariants.
Context {A : Type} `{Agent A}.
Implicit Types f : Firewall A.

(** Every rule has a name, no two rules share one, and [current] follows
    [enabled]. *)
Definition wf f : Prop :=
  NoDup (r_Name <$> fw_rules f) /\ ("" ∉ r_Name <$> fw_rules f) /\
  fw_current f = (if fw_enabled f then WorkingAgent else NoopAgent).

Definition mem_wf (l : list Rule) : Prop :=
  NoDup (r_Name <$> l) /\ "" ∉ (r_Name <$> l).

Lemma mem_wf_delete l i : mem_wf l -> mem_wf (delete i l).
Proof.
  intros [Hnd Hne]. unfold mem_wf. rewrite list_fmap_delete. split.
  - eapply sublist_NoDup; [exact Hnd|apply sublist_delete].
  - intros Hin%list_elem_of_delete_inv. done.
Qed.

Lemma byName_true name r : OrderedRules.byName name r = true <-> r_Name r = name.
Proof. unfold OrderedRules.byName. apply bool_decide_eq_true. Qed.

Lemma byName_absent l name :
  index_func (OrderedRules.byName name) l = None <-> name ∉ (r_Name <$> l).
Proof.
  rewrite index_func_None, list_elem_of_fmap. split.
  - intros Hall (r & -> & Hr). specialize (Hall r Hr).
    by rewrite (proj2 (byName_true _ r)) in Hall.
  - intros Hn r Hr. destruct (OrderedRules.byName name r) eqn:E; [|done].
    apply byName_true in E. destruct Hn. eauto.
Qed.

(** Removing the rule of a name frees the name. *)
Lemma delete_frees l i r :
  NoDup (r_Name <$> l) -> l !! i = Some r -> r_Name r ∉ (r_Name <$> delete i l).
Proof.
  intros Hnd Hi. rewrite list_fmap_delete.
  assert ((r_Name <$> l) !! i = Some (r_Name r)) as Hn by by rewrite list_lookup_fmap, Hi.
  rewrite (delete_Permutation _ _ _ Hn) in Hnd. by apply NoDup_cons in Hnd as [? _].
Qed.

Lemma mem_wf_snoc l r :
  mem_wf l -> r_Name r ≠ "" -> r_Name r ∉ (r_Name <$> l) -> mem_wf (l ++ [r]).
Proof.
  intros [Hnd Hne] Hr Hnew. unfold mem_wf. rewrite fmap_app. cbn.
  rewrite NoDup_app. repeat split; [done|set_solver|apply NoDup_singleton|set_solver].
Qed.

Lemma OrderedRules_Add_wf rule : preserves mem_wf (OrderedRules.Add rule).
Proof.
  intros l Hl. unfold OrderedRules.Add. case_bool_decide as Hn; [done|].
  destruct (index_func _ l) as [i|] eqn:Ei.
  - destruct (index_func_Some _ _ _ Ei) as (x & Hx & Hname%byName_true).
    rewrite Hx. destruct (Rule_Equal x rule); [done|]. cbn.
    apply mem_wf_snoc; [by apply mem_wf_delete|done|].
    rewrite <- Hname. apply delete_frees; [apply Hl|done].
  - apply byName_absent in Ei. by apply mem_wf_snoc.
Qed.

Lemma mem_wf_nil : mem_wf [].
Proof. split; [apply NoDup_nil_2|set_solver]. Qed.

Lemma OrderedRules_Delete_wf name : preserves mem_wf (OrderedRules.Delete name).
Proof.
  intros l Hl. unfold OrderedRules.Delete.
  destruct (index_func _ l) as [i|]; [|done].
  destruct (length l <=? 1)%nat; cbn; [apply mem_wf_nil|by apply mem_wf_delete].
Qed.

Lemma OrderedRules_Get_wf name : preserves mem_wf (OrderedRules.Get name).
Proof. intros l Hl. unfold OrderedRules.Get. by destruct (index_func _ l). Qed.

Lemma on_rules_wf {B} (op : M (list Rule) B) :
  preserves mem_wf op -> preserves wf (on_rules (A := A) op).
Proof.
  intros Hop. apply (preserves_zoom _ (fun _ => mem_wf)).
  - intros f (? & ? & _). by split.
  - intros f l (_ & _ & ?) [? ?]. done.
  - done.
Qed.

Lemma on_agent_wf ref op : preserves wf (on_agent ref op).
Proof.
  destruct ref; [apply preserves_ret|]. by apply preserves_zoom_frame.
Qed.
End Invariants.

#[export] Hint Resolve OrderedRules_Add_wf OrderedRules_Delete_wf OrderedRules_Get_wf
  on_rules_wf on_agent_wf : pres.

(** The calls the networker makes on the service. *)
Inductive FwOp : Type :=
| OpAdd (rules : list Rule)
| OpDelete (names : list string)
| OpEnable
| OpDisable.

Definition exec_op {A} `{Agent A} (o : FwOp) : M (Firewall A) unit :=
  match o with
  | OpAdd rules => Add rules
  | OpDelete names => Delete names
  | OpEnable => Enable
  | OpDisable => Disable
  end.

Section Wf.
Context {A : Type} `{Agent A}.

Lemma add_rule_wf rule : preserves (wf (A := A)) (add_rule rule).
Proof. unfold add_rule. pres_auto. Qed.

Lemma Add_wf rules : preserves (wf (A := A)) (Add rules).
Proof. apply preserves_forM_, add_rule_wf. Qed.

Lemma delete_rule_wf name : preserves (wf (A := A)) (delete_rule name).
Proof. unfold delete_rule. pres_auto. Qed.

Lemma Delete_wf names : preserves (wf (A := A)) (Delete names).
Proof. apply preserves_forM_, delete_rule_wf. Qed.

Lemma swap_wf cur next : preserves (wf (A := A)) (swap cur next).
Proof. unfold swap. pres_auto. Qed.

Lemma Enable_eq (f : Firewall A) :
  Enable f = if fw_enabled f then (Err (NewError (Sentinel ErrFirewallAlreadyEnabled)), f)
             else swap NoopAgent WorkingAgent
                    (f <| fw_enabled := true |> <| fw_current := WorkingAgent |>).
Proof. unfold Enable, bind at 1, gets. by destruct (fw_enabled f). Qed.

Lemma Disable_eq (f : Firewall A) :
  Disable f = if fw_enabled f
              then swap WorkingAgent NoopAgent
                     (f <| fw_enabled := false |> <| fw_current := NoopAgent |>)
              else (Err (NewError (Sentinel ErrFirewallAlreadyDisabled)), f).
Proof. unfold Disable, bind at 1, gets. by destruct (fw_enabled f). Qed.

Lemma Enable_wf : preserves (wf (A := A)) Enable.
Proof.
  intros f Hf. rewrite Enable_eq. destruct (fw_enabled f); [exact Hf|].
  apply swap_wf. destruct Hf as (? & ? & _). by repeat split.
Qed.

Lemma Disable_wf : preserves (wf (A := A)) Disable.
Proof.
  intros f Hf. rewrite Disable_eq. destruct (fw_enabled f); [|exact Hf].
  apply swap_wf. destruct Hf as (? & ? & _). by repeat split.
Qed.

Lemma NewFirewall_wf (a : A) enabled : wf (NewFirewall a enabled).
Proof. split; [apply NoDup_nil_2|]. split; [set_solver|done]. Qed.

Lemma exec_op_wf o : preserves (wf (A := A)) (exec_op o).
Proof.
  destruct o; [apply Add_wf|apply Delete_wf|apply Enable_wf|apply Disable_wf].
Qed.
End Wf.

Section Sync.
Context {A : Type} `{HA : Agent A} (R : A -> list Rule -> Prop) `{!LawfulAgent A R}.
Implicit Types f : Firewall A.

(** What is installed: the rules in memory, the last added first, while the
    firewall is enabled, and nothing while it is not. *)
Definition synced f : Prop :=
  wf f /\ R (fw_working f) (if fw_enabled f then reverse (fw_rules f) else []).

Lemma on_agent_Add f r l :
  R (fw_working f) l ->
  exists a, on_agent WorkingAgent (agent_Add r) f = (Ok tt, f <| fw_working := a |>) /\
            R a (r :: l).
Proof.
  intros HR. destruct (lawful_Add (R := R) _ _ r HR) as (a & Ha & HR').
  exists a. split; [|done].    unfold on_agent, zoom. by rewrite Ha.
Qed.

Lemma on_agent_Delete f r l :
  R (fw_working f) l -> r ∈ l ->
  exists a, on_agent WorkingAgent (agent_Delete r) f = (Ok tt, f <| fw_working := a |>) /\
            R a (remove_first r l).
Proof.
  intros HR Hin. destruct (lawful_Delete (R := R) _ _ _ HR Hin) as (a & Ha & HR').
  exists a. split; [|done]. unfold on_agent, zoom. by rewrite Ha.
Qed.

Lemma wf_NoDup f : wf f -> NoDup (fw_rules f).
Proof. intros [Hnd _]. by eapply NoDup_fmap_1. Qed.

(** Looking a name up in memory. *)
Lemma Get_cases f name :
  (exists i r, fw_rules f !! i = Some r /\ r_Name r = name /\
     index_func (OrderedRules.byName name) (fw_rules f) = Some i /\
     on_rules (OrderedRules.Get name) f = (Ok r, f)) \/
  ((name ∉ r_Name <$> fw_rules f) /\
     index_func (OrderedRules.byName name) (fw_rules f) = None /\
     on_rules (OrderedRules.Get name) f = (Err (NewError (Sentinel ErrRuleNotFound)), f)).
Proof.
  unfold on_rules, zoom, OrderedRules.Get.
  destruct (index_func _ _) as [i|] eqn:E.
  - destruct (index_func_Some _ _ _ E) as (r & Hr & Hn%byName_true).
    left. exists i, r. rewrite Hr. by destruct f.
  - right. repeat split; [by apply byName_absent|by destruct f].
Qed.

(** What [OrderedRules.Add] does once the name is not empty. *)
Lemma on_rules_Add f rule i r :
  r_Name rule <> "" -> fw_rules f !! i = Some r -> Rule_Equal r rule = false ->
  index_func (OrderedRules.byName (r_Name rule)) (fw_rules f) = Some i ->
  on_rules (OrderedRules.Add rule) f =
    (Ok tt, f <| fw_rules := delete i (fw_rules f) ++ [rule] |>).
Proof.
  intros Hn Hi Heq Hidx. unfold on_rules, zoom, OrderedRules.Add.
  by rewrite bool_decide_false, Hidx, Hi, Heq by done.
Qed.

Lemma on_rules_Add_new f rule :
  r_Name rule <> "" ->
  index_func (OrderedRules.byName (r_Name rule)) (fw_rules f) = None ->
  on_rules (OrderedRules.Add rule) f = (Ok tt, f <| fw_rules := fw_rules f ++ [rule] |>).
Proof.
  intros Hn Hidx. unfold on_rules, zoom, OrderedRules.Add.
  by rewrite bool_decide_false, Hidx by done.
Qed.

(** The installed rules after a replacement. *)
Lemma replace_installed f i r rule a :
  wf f -> fw_rules f !! i = Some r -> r <> rule ->
  R a (remove_first r (rule :: reverse (fw_rules f))) ->
  R a (reverse (delete i (fw_rules f) ++ [rule])).
Proof.
  intros Hwf Hi Hdiff. rewrite reverse_snoc. cbn. rewrite decide_False by done.
  by rewrite (remove_first_reverse _ i) by eauto using wf_NoDup.
Qed.

Lemma append_installed (l : list Rule) rule a :
  R a (rule :: reverse l) -> R a (reverse (l ++ [rule])).
Proof. by rewrite reverse_snoc. Qed.

Definition installed f : list Rule :=
  if fw_enabled f then reverse (fw_rules f) else [].

(** Adding one rule: memory and installed rules change together. *)
Lemma add_rule_run f rule :
  synced f ->
  exists r f', add_rule rule f = (r, f') /\ R (fw_working f') (installed f') /\
               (is_ok r = false -> f' = f /\
                  (r_Name rule = "" \/ r_Name rule ∈ (r_Name <$> fw_rules f))).
Proof.
  intros [Hwf HR]. pose proof Hwf as (_ & _ & Hcur). unfold add_rule, installed in *.
  case_bool_decide as Hn; [by eexists _, _; repeat split; [|left]|].
  destruct (Get_cases f (r_Name rule))
    as [(i & r & Hi & Hr & Hidx & Hget)|(Hnew & Hidx & Hget)].
  - destruct (Rule_Equal r rule) eqn:Heq.
    { exists (Err (NewError (Sentinel ErrRuleAlreadyExists))), f. go_run. rewrite Heq.
      repeat split; [done..|]. right. rewrite <- Hr. by eapply list_elem_of_fmap_2, list_elem_of_lookup_2. }
    assert (r <> rule) as Hdiff by (intros ->; by rewrite Rule_Equal_refl in Heq).
    destruct (fw_enabled f) eqn:Hen.
    + destruct (on_agent_Add f rule _ HR) as (a & Ha & HRa).
      pose proof (on_rules_Add (f <| fw_working := a |>) rule i r Hn Hi Heq Hidx) as Hadd.
      edestruct (on_agent_Delete (f <| fw_working := a |>
          <| fw_rules := delete i (fw_rules f) ++ [rule] |>) r) as (a' & Ha' & HRa');
        [exact HRa|apply elem_of_cons; right; apply elem_of_reverse;
                   by eapply list_elem_of_lookup_2|].
      eexists _, _. split; [go_run; rewrite Heq; go_run; rewrite Hcur; go_run; reflexivity|].
      cbn. rewrite Hen. split; [|done]. by eapply replace_installed.
    + pose proof (on_rules_Add f rule i r Hn Hi Heq Hidx) as Hadd.
      eexists _, _. split; [go_run; rewrite Heq; go_run; rewrite Hcur; cbn [on_agent];
        erewrite bind_Ok by (by apply wrapped_Ok); go_run; by apply wrapped_Ok|].
      cbn. by rewrite Hen.
  - destruct (fw_enabled f) eqn:Hen.
    + destruct (on_agent_Add f rule _ HR) as (a & Ha & HRa).
      pose proof (on_rules_Add_new (f <| fw_working := a |>) rule Hn Hidx) as Hadd.
      eexists _, _. split; [go_run; rewrite Hcur; go_run; reflexivity|].
      cbn. rewrite Hen. split; [|done]. by apply append_installed.
    + pose proof (on_rules_Add_new f rule Hn Hidx) as Hadd.
      eexists _, _. split; [go_run; rewrite Hcur; cbn [on_agent];
        erewrite bind_Ok by (by apply wrapped_Ok); go_run; reflexivity|].
      cbn. by rewrite Hen.
Qed.

Lemma add_rule_synced rule : preserves synced (add_rule rule).
Proof.
  intros f Hf. destruct (add_rule_run f rule Hf) as (r & f' & Heq & HR & _).
  pose proof (add_rule_wf rule f (proj1 Hf)) as Hwf. rewrite Heq in *. by split.
Qed.

(** Deleting one rule by name succeeds exactly when the name is in memory. *)
Lemma on_rules_Delete f i r :
  fw_rules f !! i = Some r ->
  index_func (OrderedRules.byName (r_Name r)) (fw_rules f) = Some i ->
  on_rules (OrderedRules.Delete (r_Name r)) f =
    (Ok tt, f <| fw_rules := delete i (fw_rules f) |>).
Proof.
  intros Hi Hidx. unfold on_rules, zoom, OrderedRules.Delete. rewrite Hidx.
  destruct (length (fw_rules f) <=? 1)%nat eqn:Hlen; [|done].
  apply Nat.leb_le in Hlen.
  destruct (fw_rules f) as [|x [|y l]]; [done| |cbn in Hlen; lia].
  by destruct i.
Qed.

Lemma delete_rule_run f name :
  synced f ->
  exists r f', delete_rule name f = (r, f') /\ R (fw_working f') (installed f') /\
               (is_ok r = false -> f' = f).
Proof.
  intros [Hwf HR]. pose proof Hwf as (_ & _ & Hcur). unfold delete_rule, installed in *.
  destruct (Get_cases f name) as [(i & r & Hi & <- & Hidx & Hget)|(Hnew & Hidx & Hget)];
    [|eexists _, _; split; [go_run; reflexivity|done]].
  destruct (fw_enabled f) eqn:Hen.
  - edestruct (on_agent_Delete f r) as (a & Ha & HRa);
      [exact HR|apply elem_of_reverse; by eapply list_elem_of_lookup_2|].
    pose proof (on_rules_Delete (f <| fw_working := a |>) i r Hi Hidx) as Hdel.
    eexists _, _. split; [go_run; rewrite Hcur; go_run; reflexivity|].
    split; [|done].
    change (R a (if fw_enabled f then reverse (delete i (fw_rules f)) else [])).
    by rewrite Hen, <- (remove_first_reverse _ i r) by eauto using wf_NoDup.
  - pose proof (on_rules_Delete f i r Hi Hidx) as Hdel.
    eexists _, _. split; [go_run; rewrite Hcur; cbn [on_agent];
        erewrite bind_Ok by (by apply wrapped_Ok); go_run; reflexivity|].
    cbn. by rewrite Hen.
Qed.

Lemma delete_rule_synced name : preserves synced (delete_rule name).
Proof.
  intros f Hf. destruct (delete_rule_run f name Hf) as (r & f' & Heq & HR & _).
  pose proof (delete_rule_wf name f (proj1 Hf)) as Hwf. rewrite Heq in *. by split.
Qed.

(** Enabling installs every rule in memory order, so that the last one added
    is matched first; disabling removes every one. *)
Lemma swap_enable_run l a f :
  fw_working f = a -> R a l ->
  forall rules, exists a',
    forM_ rules (fun rule =>
      wrapped ("deleting rule " +:+ r_Name rule +:+ ": ")
        (on_agent NoopAgent (agent_Delete rule)) "" ;;
      wrapped ("adding rule " +:+ r_Name rule +:+ ": ")
        (on_agent WorkingAgent (agent_Add rule)) "") f = (Ok tt, f <| fw_working := a' |>) /\
    R a' (reverse rules ++ l).
Proof.
  intros Ha HR rules. revert f a l Ha HR.
  induction rules as [|r rules IH]; intros f a l Ha HR.
  - exists a. split; [subst a; by destruct f|done].
  - cbn [forM_]. rewrite <- Ha in HR. destruct (on_agent_Add f r l HR) as (a1 & Ha1 & HR1).
    destruct (IH (f <| fw_working := a1 |>) a1 (r :: l)) as (a2 & Ha2 & HR2); [done..|].
    exists a2. rewrite reverse_cons, <- (assoc_L (++)). split; [|exact HR2].
    rewrite bind_assoc. cbn [on_agent].
    erewrite bind_Ok by (by apply wrapped_Ok). go_run. exact Ha2.
Qed.

Lemma swap_disable_run rules f :
  NoDup rules -> R (fw_working f) (reverse rules) ->
  exists a', forM_ rules (fun rule =>
      wrapped ("deleting rule " +:+ r_Name rule +:+ ": ")
        (on_agent WorkingAgent (agent_Delete rule)) "" ;;
      wrapped ("adding rule " +:+ r_Name rule +:+ ": ")
        (on_agent NoopAgent (agent_Add rule)) "") f = (Ok tt, f <| fw_working := a' |>) /\
    R a' [].
Proof.
  revert f. induction rules as [|r rules IH]; intros f Hnd HR.
  - exists (fw_working f). by destruct f.
  - cbn [forM_]. apply NoDup_cons in Hnd as [Hr Hnd].
    destruct (on_agent_Delete f r _ HR) as (a1 & Ha1 & HR1);
      [apply elem_of_reverse, elem_of_cons; by left|].
    rewrite reverse_cons, remove_first_middle, app_nil_r in HR1
      by by rewrite elem_of_reverse.
    destruct (IH (f <| fw_working := a1 |>)) as (a2 & Ha2 & HR2); [done..|].
    exists a2. split; [|done]. rewrite bind_assoc. go_run. cbn [on_agent].
    erewrite bind_Ok by (by apply wrapped_Ok). exact Ha2.
Qed.

Lemma Enable_synced : preserves synced Enable.
Proof.
  intros f [Hwf HR]. pose proof (Enable_wf f Hwf) as Hwf'. rewrite Enable_eq in *.
  destruct (fw_enabled f) eqn:Hen; [split; [done|cbn; by rewrite Hen]|].
  edestruct (swap_enable_run [] (fw_working f)
    (f <| fw_enabled := true |> <| fw_current := WorkingAgent |>)) as (a & Ha & HRa);
    [done|exact HR|].
  unfold swap in *. rewrite bind_gets in *. cbn [fw_rules set_field] in *.
  rewrite Ha in *. split; [exact Hwf'|]. cbn. by rewrite app_nil_r in HRa.
Qed.

Lemma Disable_synced : preserves synced Disable.
Proof.
  intros f [Hwf HR]. pose proof (Disable_wf f Hwf) as Hwf'. rewrite Disable_eq in *.
  destruct (fw_enabled f) eqn:Hen; [|split; [done|cbn; by rewrite Hen]].
  destruct (swap_disable_run (fw_rules f)
    (f <| fw_enabled := false |> <| fw_current := NoopAgent |>)) as (a & Ha & HRa);
    [by apply wf_NoDup|exact HR|].
  unfold swap in *. rewrite bind_gets in *. cbn [fw_rules set_field] in *.
  rewrite Ha in *. split; [exact Hwf'|exact HRa].
Qed.

Lemma exec_op_synced o : preserves synced (exec_op o).
Proof.
  destruct o.
  - apply preserves_forM_, add_rule_synced.
  - apply preserves_forM_, delete_rule_synced.
  - apply Enable_synced.
  - apply Disable_synced.
Qed.
End Sync.

(** ** A concrete agent

    The firewall agent reduced to what the service can observe: a list of
    installed rules, most recent first, and a schedule of faults that makes the
    n-th call fail.  It instantiates the agent's promise when no fault is
    scheduled, and is what the networker's witnesses run on. *)

Record ListAgent : Type := mkListAgent {
  la_installed : list Rule;
  la_faults : list (option error)
}.

#[export] Instance ListAgent_eta : EtaExpand ListAgent := fun a =>
  mkListAgent (la_installed a) (la_faults a).

Definition faulty (op : list Rule -> list Rule) : M ListAgent unit := fun a =>
  match la_faults a with
  | Some e :: q => (Err e, a <| la_faults := q |>)
  | None :: q => (Ok tt, mkListAgent (op (la_installed a)) q)
  | [] => (Ok tt, a <| la_installed := op (la_installed a) |>)
  end.

#[export] Instance ListAgent_agent : Agent ListAgent := {|
  agent_Add r := faulty (cons r);
  agent_Delete r := faulty (remove_first r)
|}.

(** Exactly [l] is installed, and no fault is left in the schedule. *)
Definition list_agent_R (a : ListAgent) (l : list Rule) : Prop :=
  a = mkListAgent l [].

#[export] Instance ListAgent_lawful : LawfulAgent ListAgent list_agent_R.
Proof.
  split.
  - intros a l r ->. by eexists.
  - intros a l r -> _. by eexists.
Qed.

(** ** Properties *)

(** C3: for every sequence of [Add], [Delete], [Enable] and [Disable] calls on a new
    firewall whose agent keeps its promise (its calls succeed, and add and delete what
    they are given) and holds no rules at first, the rules installed are exactly the
    rules in memory, the last added first (the order in which [iptables] matches
    them), while the firewall is enabled, and none while it is disabled; names in
    memory stay unique and non-empty. *)
Theorem firewall_memory_is_installed {A} `{Agent A} (R : A -> list Rule -> Prop)
    `{!LawfulAgent A R} (a : A) (enabled : bool) (ops : list FwOp) :
  R a [] -> synced R (run_ops exec_op ops (NewFirewall a enabled)).
Proof.
  intros HR. apply run_ops_inv; [apply (exec_op_synced R)|].
  split; [apply NewFirewall_wf|]. by destruct enabled.
Qed.

Definition sample_rule (name : string) (allow : bool) : Rule :=
  zero_rule <| r_Name := name |> <| r_Allow := allow |>.

Definition sample_ops : list FwOp :=
  [OpAdd [sample_rule "a" true; sample_rule "b" true]; OpDisable;
   OpAdd [sample_rule "a" false]; OpEnable; OpDelete ["b"; "c"]].

Lemma firewall_memory_is_installed_witness :
  list_agent_R (mkListAgent [] []) [] /\
  la_installed (fw_working (run_ops exec_op sample_ops (NewFirewall (mkListAgent [] []) true)))
    = [sample_rule "a" false].
Proof.
  split; [reflexivity|].
  destruct (firewall_memory_is_installed list_agent_R (mkListAgent [] []) true sample_ops
              eq_refl) as [_ ->].
  vm_compute. reflexivity.
Defined.

(** Whatever the agent does, failures included, the rule memory stays a map
    by name: every rule has a non-empty name, no two rules share one, and the
    working agent is in use exactly while the firewall counts as enabled. *)
Theorem firewall_names_unique {A} `{Agent A} (a : A) (enabled : bool) (ops : list FwOp) :
  wf (run_ops exec_op ops (NewFirewall a enabled)).
Proof. apply run_ops_inv; [apply exec_op_wf|apply NewFirewall_wf]. Qed.

(** Swapping agents does not touch the flag. *)
Lemma on_agent_enabled {A} `{Agent A} (b : bool) ref op :
  preserves (fun f : Firewall A => fw_enabled f = b) (on_agent ref op).
Proof. destruct ref; [apply preserves_ret|by apply preserves_zoom_frame]. Qed.

Lemma swap_enabled {A} `{Agent A} (b : bool) cur next :
  preserves (fun f : Firewall A => fw_enabled f = b) (swap cur next).
Proof. unfold swap. repeat first [apply on_agent_enabled | pres_step]. Qed.

(** When enabling the firewall fails while its rules are being installed, it
    counts as enabled all the same, and enabling it again is refused without
    installing the rules that are missing. *)
Theorem failed_enable_cannot_be_retried {A} `{Agent A} (f f' : Firewall A) (e : error) :
  fw_enabled f = false -> Enable f = (Err e, f') ->
  fw_enabled f' = true /\
  Enable f' = (Err (NewError (Sentinel ErrFirewallAlreadyEnabled)), f').
Proof.
  intros Hoff Hrun.
  assert (fw_enabled f' = true) as Hon.
  { rewrite Enable_eq, Hoff in Hrun. apply (f_equal snd) in Hrun. cbn [snd] in Hrun.
    rewrite <- Hrun. by apply swap_enabled. }
  split; [done|]. by rewrite Enable_eq, Hon.
Qed.

Definition faulty_firewall : Firewall ListAgent :=
  (Add [sample_rule "a" true; sample_rule "b" true]
     (NewFirewall (mkListAgent [] [None; Some (Errorf "iptables")]) false)).2.

Lemma failed_enable_cannot_be_retried_witness :
  exists e f', Enable faulty_firewall = (Err e, f') /\ fw_enabled f' = true /\
    la_installed (fw_working f') = [sample_rule "a" true] /\
    Enable f' = (Err (NewError (Sentinel ErrFirewallAlreadyEnabled)), f').
Proof.
  eexists _, _. split; [vm_compute; reflexivity|]. split; [vm_compute; reflexivity|].
  split; [vm_compute; reflexivity|].
  apply (failed_enable_cannot_be_retried faulty_firewall _
           (Wrapf "adding rule b: " (Errorf "iptables") "")); vm_compute; reflexivity.
Defined.
