(* ===== verification/IPTables.v ===== *)
(** * IPTables: the iptables firewall agent

    Models [daemon/firewall/iptables/iptables.go]: the translation of a
    firewall rule into [iptables]/[ip6tables] argument strings, the grouping of
    ports into ranges, and the agent's [Add] and [Delete], which run one
    command per line.  [exec.Command] is the parameter [ipt_run] of the class
    [Iptables], whose laws state what the [iptables] tool documents of [-I] and
    [-D]. *)

From stdpp Require Import base option list strings gmap sorting.
From Stdlib Require Import ZArith Lia.
From S2P Require Import Prelude GoLib Firewall.
Set Warnings "-clear-no-such-hyp".

Open Scope Z_scope.
Open Scope go_scope.

Definition ipv4Table : string := "iptables".
Definition ipv6Table : string := "ip6tables".

Definition SecondsToWaitForIptablesLock : string := "5".

Inductive ruleTarget : Type := accept | drop | connmark.
#[export] Instance ruleTarget_eq_dec : EqDecision ruleTarget.
Proof. solve_decision. Defined.

Definition ruleTarget_string (t : ruleTarget) : string :=
  match t with
  | accept => "ACCEPT"
  | drop => "DROP"
  | connmark => "CONNMARK --save-mark --nfmask 0xffffffff --ctmask 0xffffffff"
  end.

Inductive ruleChain : Type := chainInput | chainOutput | chainForward.
#[export] Instance ruleChain_eq_dec : EqDecision ruleChain.
Proof. solve_decision. Defined.

(** ** Port ranges *)

Record PortRange : Type := mkPortRange { pr_Min : Z; pr_Max : Z }.

(** The loop of [PortsToPortRanges]: [r] is the range being built, [prev] the
    port before [ports]. *)
Fixpoint port_ranges_loop (r : PortRange) (prev : Z) (ports : list Z) : list PortRange :=
  match ports with
  | [] => [r]
  | port :: ports' =>
      if port =? prev + 1
      then port_ranges_loop (mkPortRange (pr_Min r) port) port ports'
      else r :: port_ranges_loop (mkPortRange port port) port ports'
  end.

Definition PortsToPortRanges (ports : list Z) : list PortRange :=
  match sort_Ints ports with
  | [] => []
  | pPort :: rest => port_ranges_loop (mkPortRange pPort pPort) pPort rest
  end.

(** ** Translation of a rule *)

Definition portsDirectionToPortsFlag (d : PortsDirection) : list string :=
  match d with
  | SourceAndDestination => ["--sport"; "--dport"]
  | Destination => ["--dport"]
  | Source => ["--sport"]
  end.

Definition defaultIcmpv6 (types : list Z) : list Z :=
  match types with [] => [0] | _ => types end.

Definition toChainSlice (d : Direction) : list ruleChain :=
  match d with
  | Inbound => [chainInput]
  | Outbound => [chainOutput]
  | TwoWay => [chainInput; chainOutput]
  | Forward => [chainForward]
  end.

Definition toTargetSlice (allowPackets : bool) (chain : ruleChain) (marks : list Z)
    : list ruleTarget :=
  let targets := [if allowPackets then accept else drop] in
  match chain with
  | chainOutput =>
      match marks with
      | m :: _ => if m =? 0 then targets else targets ++ [connmark]
      | [] => targets
      end
  | _ => targets
  end.

(** A nil field becomes a slice of one zero value. *)
Definition nonempty {A} (zero : A) (s : slice A) : slice A :=
  match s with None => sappend None zero | Some l => Some l end.

Definition generateNonEmptyRule (rule : Rule) : Rule :=
  rule <| r_RemoteNetworks := nonempty zero_prefix (r_RemoteNetworks rule) |>
       <| r_LocalNetworks := nonempty zero_prefix (r_LocalNetworks rule) |>
       <| r_Protocols := nonempty "" (r_Protocols rule) |>
       <| r_Interfaces := nonempty zero_interface (r_Interfaces rule) |>
       <| r_Ports := nonempty 0 (r_Ports rule) |>
       <| r_Marks := nonempty 0 (r_Marks rule) |>.

Definition connectionStateToString (s : ConnectionState) : string :=
  match s with Related => "RELATED" | Established => "ESTABLISHED" | New => "NEW" end.

(** The chain and the flags of its remote address, local address and interface. *)
Definition chain_flags (c : ruleChain) : string * string * string * string :=
  match c with
  | chainInput => ("INPUT", "-s", "-d", "-i")
  | chainOutput => ("OUTPUT", "-d", "-s", "-o")
  | chainForward => ("FORWARD", "-d", "-s", "-o")
  end.

Definition generateIPTablesRule (direction : ruleChain) (target : ruleTarget)
    (iface : Interface) (remoteNetwork localNetwork : Prefix) (protocol : string)
    (portRange : PortRange) (module stateFlag : string) (states : ConnectionStates)
    (chainPrefix portFlag : string) (icmpv6Type hopLimit : Z) (sports dports : list Z)
    (comment : string) (mark : Z) : string :=
  let '(chain, remoteAddrFlag, localAddrFlag, ifaceFlag) := chain_flags direction in
  let rule := chainPrefix +:+ chain in
  let rule := if bool_decide (if_name iface = "") then rule
              else rule +:+ " " +:+ ifaceFlag +:+ " " +:+ if_name iface in
  let rule := if bool_decide (remoteNetwork = zero_prefix) then rule
              else rule +:+ " " +:+ remoteAddrFlag +:+ " " +:+ prefix_String remoteNetwork in
  let rule := if bool_decide (localNetwork = zero_prefix) then rule
              else rule +:+ " " +:+ localAddrFlag +:+ " " +:+ prefix_String localNetwork in
  let rule := if bool_decide (protocol = "") then rule else rule +:+ " -p " +:+ protocol in
  let rule := if mark =? 0 then rule
              else if bool_decide (target = connmark)
              then rule +:+ " -m mark --mark " +:+ hex_alt mark
              else rule +:+ " -m connmark --mark " +:+ hex_alt mark in
  let rule :=
    if negb (pr_Min portRange =? 0) && negb (bool_decide (portFlag = ""))
    then rule +:+ " " +:+ portFlag +:+ " " +:+ itoa (pr_Min portRange) +:+ ":"
              +:+ itoa (pr_Max portRange)
    else
      let rule := match sports with
                  | [] => rule
                  | _ => rule +:+ " --sport " +:+ strings_Join (map itoa sports) ","
                  end in
      match dports with
      | [] => rule
      | _ => rule +:+ " --dport " +:+ strings_Join (map itoa dports) ","
      end in
  let rule := if bool_decide (module = "") then rule else rule +:+ " -m " +:+ module in
  let rule :=
    if negb (bool_decide (stateFlag = "")) && negb (is_nil (cs_States states)) then
      let rule := rule +:+ " " +:+ stateFlag +:+ " "
                  +:+ strings_Join (map connectionStateToString (elems (cs_States states))) "," in
      if addr_IsValid (cs_SrcAddr states) && negb (addr_IsUnspecified (cs_SrcAddr states))
      then rule +:+ " --ctorigsrc " +:+ addr_String (cs_SrcAddr states) else rule
    else rule in
  let rule := if 0 <? icmpv6Type then rule +:+ " --icmpv6-type " +:+ itoa icmpv6Type else rule in
  let rule := if 0 <? hopLimit then rule +:+ " -m hl --hl-eq " +:+ itoa hopLimit else rule in
  let comment := if bool_decide (comment = "") then "nordvpn" else comment in
  rule +:+ " -m comment --comment " +:+ comment +:+ " -j " +:+ ruleTarget_string target.

(** Which tables a line goes to. *)
Inductive family : Type := OnlyV4 | OnlyV6 | BothFamilies.
#[export] Instance family_eq_dec : EqDecision family.
Proof. solve_decision. Defined.

Definition line_family (ipv6Only : bool) (remote local : Prefix) : family :=
  if ipv6Only || addr_Is6 (pfx_addr remote) || addr_Is6 (pfx_addr local) then OnlyV6
  else if addr_Is4 (pfx_addr remote) || addr_Is4 (pfx_addr local) then OnlyV4
  else BothFamilies.

(** The lines of a rule in the order the nested loops emit them, each with the
    tables it is appended to. *)
Definition rule_lines (rule : Rule) (module stateFlag chainPrefix : string)
    : list (family * string) :=
  let rule := generateNonEmptyRule rule in
  iface ← elems (r_Interfaces rule);
  remoteNetwork ← elems (r_RemoteNetworks rule);
  localNetwork ← elems (r_LocalNetworks rule);
  pRange ← PortsToPortRanges (elems (r_Ports rule));
  protocol ← elems (r_Protocols rule);
  chain ← toChainSlice (r_Direction rule);
  icmpv6Type ← defaultIcmpv6 (r_Icmpv6Types rule);
  target ← toTargetSlice (r_Allow rule) chain (elems (r_Marks rule));
  mark ← elems (r_Marks rule);
  let fam := line_family (r_Ipv6Only rule) remoteNetwork localNetwork in
  if negb (pr_Min pRange =? 0) then
    portFlag ← portsDirectionToPortsFlag (r_PortsDirection rule);
    [(fam, generateIPTablesRule chain target iface remoteNetwork localNetwork protocol pRange
       module stateFlag (r_ConnectionStates rule) chainPrefix portFlag icmpv6Type
       (r_HopLimit rule) [] [] (r_Comment rule) mark)]
  else
    [(fam, generateIPTablesRule chain target iface remoteNetwork localNetwork protocol pRange
       module stateFlag (r_ConnectionStates rule) chainPrefix "" icmpv6Type
       (r_HopLimit rule) (r_SourcePorts rule) (r_DestinationPorts rule) (r_Comment rule) mark)].

Definition v4_lines (l : list (family * string)) : list string :=
  omap (fun '(f, s) => match f with OnlyV6 => None | _ => Some s end) l.
Definition v6_lines (l : list (family * string)) : list string :=
  omap (fun '(f, s) => match f with OnlyV4 => None | _ => Some s end) l.

(** The map from table to lines; it has exactly the two keys. *)
Definition ruleToIPTables (rule : Rule) (module stateFlag chainPrefix : string)
    (table : string) : option (list string) :=
  let l := rule_lines rule module stateFlag chainPrefix in
  if bool_decide (table = ipv4Table) then Some (v4_lines l)
  else if bool_decide (table = ipv6Table) then Some (v6_lines l)
  else None.

(** ** The agent *)

Record IPTables : Type := mkIPTables {
  ipt_stateModule : string;
  ipt_stateFlag : string;
  ipt_chainPrefix : string;
  ipt_supportedIPTables : list string
}.

Definition getStateModule (ipt : IPTables) (rule : Rule) : string * string :=
  if is_nil (cs_States (r_ConnectionStates rule)) then ("", "")
  else (ipt_stateModule ipt, ipt_stateFlag ipt).

Definition missing_rule_message : string := "does a matching rule exist in that chain".

(** The [iptables] and [ip6tables] commands: output and error of one run with
    the given argument string (the code splits it at spaces). *)
Class IptablesRun (K : Type) : Type := {
  ipt_run : string -> string -> K -> (string * option error) * K
}.

Section AgentDef.
Context {K : Type} `{IptablesRun K} (ipt : IPTables).

(** The lines of one table; [true] in the result means the whole call
    returned early without an error. *)
Fixpoint apply_lines (add : bool) (table : string) (lines : list string) : M K bool :=
  match lines with
  | [] => ret false
  | line :: lines' => fun k =>
      let flag := if add then "-I" else "-D" in
      let errStr := if add then "adding" else "deleting" in
      let args := flag +:+ " " +:+ line +:+ " -w " +:+ SecondsToWaitForIptablesLock in
      match ipt_run table args k with
      | ((out, None), k') => apply_lines add table lines' k'
      | ((out, Some err), k') =>
          if negb add && str_contains out missing_rule_message then (Ok true, k')
          else (Err (Wrapf (errStr +:+ " " +:+ table +:+ " rule '" +:+ line +:+ "': ") err
                       (": " +:+ out)), k')
      end
  end.

Fixpoint apply_tables (add : bool) (rule : Rule) (module stateFlag : string)
    (tables : list string) : M K unit :=
  match tables with
  | [] => ret tt
  | table :: tables' =>
      match ruleToIPTables rule module stateFlag (ipt_chainPrefix ipt) table with
      | None => apply_tables add rule module stateFlag tables'
      | Some lines =>
          let! stop := apply_lines add table lines in
          if stop : bool then ret tt else apply_tables add rule module stateFlag tables'
      end
  end.

Definition applyRule (rule : Rule) (add : bool) : M K unit :=
  let '(module, stateFlag) := getStateModule ipt rule in
  apply_tables add rule module stateFlag (ipt_supportedIPTables ipt).

Definition IPTables_Add (rule : Rule) : M K unit := applyRule rule true.
Definition IPTables_Delete (rule : Rule) : M K unit := applyRule rule false.
End AgentDef.

(** ** Port ranges: correctness *)

Definition in_range (p : Z) (r : PortRange) : Prop := pr_Min r <= p <= pr_Max r.

(** Two consecutive ranges leave a gap: neither could be extended. *)
Definition gap (r s : PortRange) : Prop := pr_Max r + 1 < pr_Min s.

Lemma port_ranges_loop_cover r prev ports p :
  pr_Min r <= pr_Max r -> prev = pr_Max r ->
  (exists s, s ∈ port_ranges_loop r prev ports /\ in_range p s) <->
  in_range p r \/ p ∈ ports.
Proof.
  unfold in_range. revert r prev.
  induction ports as [|q ports IH]; intros r prev Hr ->; cbn.
  - setoid_rewrite list_elem_of_singleton. set_solver.
  - rewrite elem_of_cons. destruct (Z.eqb_spec q (pr_Max r + 1)) as [->|Hq].
    + rewrite IH by (cbn; lia). cbn. intuition lia.
    + setoid_rewrite elem_of_cons.
      pose proof (IH (mkPortRange q q) q ltac:(cbn; lia) eq_refl) as IH'. cbn in IH'.
      split.
      * intros (s & [->|Hs] & Hp); [by left|].
        destruct (proj1 IH' (ex_intro _ s (conj Hs Hp))) as [|]; [|by right; right].
        right; left; lia.
      * intros [Hp|Hp]; [by exists r; split; [left|]|].
        destruct (proj2 IH') as (s & Hs & Hp'); [|by exists s; split; [right|]].
        destruct Hp as [->|]; [left; lia|by right].
Qed.

Lemma port_ranges_loop_gaps r prev ports :
  pr_Min r <= pr_Max r -> prev = pr_Max r ->
  StronglySorted Z.lt (prev :: ports) ->
  StronglySorted gap (port_ranges_loop r prev ports) /\
  Forall (fun s => pr_Min r <= pr_Min s <= pr_Max s) (port_ranges_loop r prev ports).
Proof.
  revert r prev. induction ports as [|q ports IH]; intros r prev Hr -> Hs; cbn.
  - repeat constructor; lia.
  - apply StronglySorted_inv in Hs as [Hs Hlt].
    pose proof (Forall_inv Hlt) as Hq. cbn in Hq.
    destruct (Z.eqb_spec q (pr_Max r + 1)) as [->|Hne].
    + apply (IH (mkPortRange (pr_Min r) (pr_Max r + 1))); cbn; [lia|done|done].
    + destruct (IH (mkPortRange q q) q) as [IH1 IH2]; [cbn; lia|done|done|]. cbn in IH2.
      split; constructor; try done.
      * eapply Forall_impl; [exact IH2|]. unfold gap. intros s. cbn. lia.
      * eapply Forall_impl; [exact IH2|]. intros s. cbn. lia.
Qed.

Lemma StronglySorted_le_lt l :
  NoDup l -> StronglySorted Z.le l -> StronglySorted Z.lt l.
Proof.
  induction 2 as [|x l Hs IH Hle]; constructor.
  - apply IH. by apply NoDup_cons in H as [_ ?].
  - apply NoDup_cons in H as [Hx _]. rewrite Forall_forall in *.
    intros y Hy. specialize (Hle y Hy). assert (x <> y) by (by intros ->). lia.
Qed.

Lemma PortsToPortRanges_cover ports p :
  p ∈ ports <-> exists r, r ∈ PortsToPortRanges ports /\ in_range p r.
Proof.
  unfold PortsToPortRanges. rewrite <- (sort_Ints_Permutation ports).
  destruct (sort_Ints ports) as [|q l].
  - split; [by intros ?%not_elem_of_nil|by intros (r & ?%not_elem_of_nil & _)].
  - rewrite port_ranges_loop_cover by (cbn; lia). rewrite elem_of_cons.
    unfold in_range. cbn. intuition lia.
Qed.

Lemma PortsToPortRanges_gaps ports :
  NoDup ports ->
  StronglySorted gap (PortsToPortRanges ports) /\
  Forall (fun r => pr_Min r <= pr_Max r) (PortsToPortRanges ports).
Proof.
  intros Hnd. unfold PortsToPortRanges. rewrite <- (sort_Ints_Permutation ports) in Hnd.
  pose proof (StronglySorted_le_lt _ Hnd (sort_Ints_Sorted ports)) as Hs.
  destruct (sort_Ints ports) as [|q l]; [by repeat constructor|].
  destruct (port_ranges_loop_gaps (mkPortRange q q) q l) as [H1 H2]; [cbn; lia|done|done|].
  split; [done|]. eapply Forall_impl; [exact H2|]. cbn. lia.
Qed.

(** ** The agent: deleting undoes adding *)

(** What [iptables] documents: [-I] puts a line at the head of its table, [-D]
    takes the first equal line out and fails, naming the reason, when there is
    none. *)
Class Iptables (K : Type) `{IptablesRun K} : Type := {
  ipt_view : K -> string -> list string;
  ipt_insert k table line :
    exists out k', ipt_run table ("-I" +:+ " " +:+ line +:+ " -w " +:+ SecondsToWaitForIptablesLock) k
                   = ((out, None), k') /\
      forall t, ipt_view k' t = if decide (t = table) then line :: ipt_view k t else ipt_view k t;
  ipt_delete k table line :
    line ∈ ipt_view k table ->
    exists out k', ipt_run table ("-D" +:+ " " +:+ line +:+ " -w " +:+ SecondsToWaitForIptablesLock) k
                   = ((out, None), k') /\
      forall t, ipt_view k' t = if decide (t = table) then remove_first line (ipt_view k t)
                                else ipt_view k t;
  ipt_delete_missing k table line :
    line ∉ ipt_view k table ->
    exists out e, ipt_run table ("-D" +:+ " " +:+ line +:+ " -w " +:+ SecondsToWaitForIptablesLock) k
                  = ((out, Some e), k) /\ str_contains out missing_rule_message = true
}.

Section AgentProofs.
Context {K : Type} `{Iptables K} (ipt : IPTables) (rule : Rule) (module stateFlag : string).

Definition lines_of (table : string) : list string :=
  default [] (ruleToIPTables rule module stateFlag (ipt_chainPrefix ipt) table).

(** Everything the loop over [tables] adds to table [t]. *)
Definition all_lines (tables : list string) (t : string) : list string :=
  table ← tables; if decide (t = table) then lines_of t else [].

Lemma apply_lines_add table lines k :
  exists k', apply_lines true table lines k = (Ok false, k') /\
    forall t, ipt_view k' t = (if decide (t = table) then reverse lines else []) ++ ipt_view k t.
Proof.
  revert k. induction lines as [|line lines IH]; intros k.
  - exists k. split; [done|]. intros t. by destruct (decide (t = table)).
  - destruct (ipt_insert k table line) as (out & k1 & Hrun & Hview).
    destruct (IH k1) as (k2 & Hrun2 & Hview2). exists k2. split.
    + cbn [apply_lines]. cbv zeta. rewrite Hrun. exact Hrun2.
    + intros t. rewrite Hview2, Hview. destruct (decide (t = table)); [|done].
      by rewrite reverse_cons, <- (assoc_L (++)).
Qed.

Lemma apply_tables_add tables k :
  exists k', apply_tables ipt true rule module stateFlag tables k = (Ok tt, k') /\
    forall t, exists new, ipt_view k' t = new ++ ipt_view k t /\ new ≡ₚ all_lines tables t.
Proof.
  revert k. induction tables as [|table tables IH]; intros k.
  - exists k. split; [done|]. intros t. by exists [].
  - cbn [apply_tables]. unfold all_lines, lines_of in *. cbn.
    destruct (ruleToIPTables _ _ _ _ table) as [lines|] eqn:Hlines.
    + destruct (apply_lines_add table lines k) as (k1 & Hrun & Hview).
      destruct (IH k1) as (k2 & Hrun2 & Hview2). exists k2. split; [by go_run|].
      intros t. destruct (Hview2 t) as (new & -> & Hnew). rewrite Hview.
      eexists. rewrite (assoc_L (++)). split; [done|]. rewrite Hnew.
      destruct (decide (t = table)) as [->|]; [|by rewrite app_nil_r].
      rewrite Hlines. cbn. by rewrite reverse_Permutation, (comm (++)).
    + destruct (IH k) as (k2 & Hrun2 & Hview2). exists k2. split; [done|].
      intros t. destruct (Hview2 t) as (new & Hv & Hnew). exists new. split; [done|].
      rewrite Hnew. destruct (decide (t = table)) as [->|]; [by rewrite Hlines|done].
Qed.

Lemma apply_lines_delete table lines k new old rest :
  ipt_view k table = new ++ old -> new ≡ₚ lines ++ rest ->
  exists k' new', apply_lines false table lines k = (Ok false, k') /\
    ipt_view k' table = new' ++ old /\ new' ≡ₚ rest /\
    forall t, t <> table -> ipt_view k' t = ipt_view k t.
Proof.
  revert k new. induction lines as [|line lines IH]; intros k new Hk Hnew.
  - by exists k, new.
  - assert (line ∈ new) as Hin by (rewrite Hnew; apply elem_of_cons; by left).
    destruct (ipt_delete k table line) as (out & k1 & Hrun & Hview).
    { rewrite Hk. apply elem_of_app. by left. }
    destruct (remove_first_front line new old Hin) as (new1 & Hrm & Hperm).
    destruct (IH k1 new1) as (k2 & new2 & Hrun2 & Hk2 & Hnew2 & Hother).
    { by rewrite Hview, decide_True, Hk, Hrm by done. }
    { rewrite Hperm in Hnew. by apply Permutation_cons_inv in Hnew. }
    exists k2, new2. split; [cbn [apply_lines]; cbv zeta; rewrite Hrun; exact Hrun2|].
    repeat split; [done..|]. intros t Ht. by rewrite Hother, Hview, decide_False.
Qed.

Lemma apply_tables_delete tables k (old : string -> list string) :
  (forall t, exists new, ipt_view k t = new ++ old t /\ new ≡ₚ all_lines tables t) ->
  exists k', apply_tables ipt false rule module stateFlag tables k = (Ok tt, k') /\
    forall t, ipt_view k' t = old t.
Proof.
  revert k. induction tables as [|table tables IH]; intros k Hk.
  - exists k. split; [done|]. intros t. destruct (Hk t) as (new & -> & Hnew).
    cbn in Hnew. by rewrite (proj1 (Permutation_nil_r _) Hnew).
  - cbn [apply_tables]. unfold all_lines, lines_of in *. cbn in Hk.
    destruct (ruleToIPTables _ _ _ _ table) as [lines|] eqn:Hlines.
    + destruct (Hk table) as (new & Hv & Hnew). rewrite decide_True, Hlines in Hnew by done.
      destruct (apply_lines_delete table lines k new (old table) _ Hv Hnew)
        as (k1 & new1 & Hrun & Hv1 & Hnew1 & Hother).
      destruct (IH k1) as (k2 & Hrun2 & Hview2); [|exists k2; by go_run].
      intros t. destruct (decide (t = table)) as [->|Ht]; [exists new1; by rewrite Hlines|].
      destruct (Hk t) as (new' & Hv' & Hnew'). rewrite decide_False in Hnew' by done.
      exists new'. by rewrite Hother.
    + destruct (IH k) as (k2 & Hrun2 & Hview2); [|by exists k2].
      intros t. destruct (Hk t) as (new & Hv & Hnew). exists new. split; [done|].
      rewrite Hnew. destruct (decide (t = table)) as [->|]; [by rewrite Hlines|done].
Qed.
End AgentProofs.

(** ** A concrete [iptables]

    Tables as lists of lines; enough of the tool to run the agent on. *)

Definition Tables : Type := string -> list string.

Definition strip (pre suf s : string) : string :=
  trim_suffix (drop_str (String.length pre) s) suf.

Definition tables_run (table args : string) (k : Tables) : (string * option error) * Tables :=
  let suf := " -w " +:+ SecondsToWaitForIptablesLock in
  let update f : Tables := fun t => if decide (t = table) then f (k t) else k t in
  if has_prefix "-I " args then (("", None), update (cons (strip "-I " suf args)))
  else
    let line := strip "-D " suf args in
    if decide (line ∈ k table) then (("", None), update (remove_first line))
    else (("iptables: Bad rule (does a matching rule exist in that chain?).",
           Some (Errorf "exit status 1")), k).

#[export] Instance Tables_run : IptablesRun Tables := {| ipt_run := tables_run |}.

Lemma drop_str_app s t : drop_str (String.length s) (s +:+ t) = t.
Proof. induction s as [|c s IH]; [by destruct t|exact IH]. Qed.

Lemma substring_app s t : String.substring 0 (String.length s) (s +:+ t) = s.
Proof.
  induction s as [|c s IH]; [by destruct t|].
  change (String c (String.substring 0 (String.length s) (s +:+ t)) = String c s).
  by rewrite IH.
Qed.

Lemma trim_suffix_app s t : trim_suffix (s +:+ t) t = s.
Proof.
  unfold trim_suffix. rewrite string_length_app.
  replace (String.length s + String.length t - String.length t)%nat
    with (String.length s) by lia.
  rewrite drop_str_app, bool_decide_true by done.
  rewrite (proj2 (Nat.leb_le _ _)) by lia. apply substring_app.
Qed.

Lemma strip_insert line :
  strip "-I " (" -w " +:+ SecondsToWaitForIptablesLock)
    ("-I" +:+ " " +:+ line +:+ " -w " +:+ SecondsToWaitForIptablesLock) = line.
Proof. exact (trim_suffix_app line _). Qed.

Lemma strip_delete line :
  strip "-D " (" -w " +:+ SecondsToWaitForIptablesLock)
    ("-D" +:+ " " +:+ line +:+ " -w " +:+ SecondsToWaitForIptablesLock) = line.
Proof. exact (trim_suffix_app line _). Qed.

Lemma tables_run_insert table line k :
  tables_run table ("-I" +:+ " " +:+ line +:+ " -w " +:+ SecondsToWaitForIptablesLock) k =
  (("", None), fun t => if decide (t = table) then line :: k t else k t).
Proof. unfold tables_run. by rewrite strip_insert. Qed.

Lemma tables_run_delete table line k :
  tables_run table ("-D" +:+ " " +:+ line +:+ " -w " +:+ SecondsToWaitForIptablesLock) k =
  if decide (line ∈ k table)
  then (("", None), fun t => if decide (t = table) then remove_first line (k t) else k t)
  else (("iptables: Bad rule (does a matching rule exist in that chain?).",
         Some (Errorf "exit status 1")), k).
Proof. unfold tables_run. by rewrite strip_delete. Qed.

#[export] Instance Tables_lawful : Iptables Tables.
Proof.
  refine (Build_Iptables Tables _ (fun k => k) _ _ _); cbn [ipt_run Tables_run];
    intros k table line.
  - rewrite tables_run_insert. by eexists _, _.
  - intros Hin. rewrite tables_run_delete, decide_True by done. by eexists _, _.
  - intros Hin. rewrite tables_run_delete, decide_False by done. by eexists _, _.
Defined.

(** The agent with its two supported tables, as the daemon builds it. *)
Definition daemon_ipt : IPTables :=
  mkIPTables "conntrack" "--ctstate" "" [ipv4Table; ipv6Table].

(** ** Properties *)

(** The port ranges of an allowlist cover exactly its ports, and, when no
    port is repeated, they are in order with a gap between consecutive ranges,
    so the grouping is as coarse as it can be. *)
Theorem port_ranges_exact (ports : list Z) :
  NoDup ports ->
  (forall p, p ∈ ports <-> exists r, r ∈ PortsToPortRanges ports /\ in_range p r) /\
  StronglySorted gap (PortsToPortRanges ports).
Proof.
  intros Hnd. split; [apply PortsToPortRanges_cover|by apply PortsToPortRanges_gaps].
Qed.

Lemma port_ranges_exact_witness :
  NoDup [443; 22; 24; 23; 80] /\
  StronglySorted gap (PortsToPortRanges [443; 22; 24; 23; 80]) /\
  PortsToPortRanges [443; 22; 24; 23; 80] =
    [mkPortRange 22 24; mkPortRange 80 80; mkPortRange 443 443].
Proof.
  assert (NoDup [443; 22; 24; 23; 80]) as Hnd.
  { apply (bool_decide_eq_true_1 (NoDup [443; 22; 24; 23; 80])). vm_compute. reflexivity. }
  split; [exact Hnd|]. split; [exact (proj2 (port_ranges_exact _ Hnd))|]. vm_compute. reflexivity.
Defined.

(** Deleting a rule undoes adding it: whatever the tables held, running
    [Add] and then [Delete] of the same rule succeeds and leaves every table
    with the lines it had, in the same order. *)
Theorem iptables_delete_undoes_add {K} `{Iptables K} (ipt : IPTables) (rule : Rule) (k : K) :
  exists k1 k2, IPTables_Add ipt rule k = (Ok tt, k1) /\
    IPTables_Delete ipt rule k1 = (Ok tt, k2) /\
    forall t, ipt_view k2 t = ipt_view k t.
Proof.
  unfold IPTables_Add, IPTables_Delete, applyRule.
  destruct (getStateModule ipt rule) as [module stateFlag].
  destruct (apply_tables_add ipt rule module stateFlag (ipt_supportedIPTables ipt) k)
    as (k1 & H1 & Hview).
  destruct (apply_tables_delete ipt rule module stateFlag (ipt_supportedIPTables ipt) k1
              (ipt_view k) Hview) as (k2 & H2 & Hview2).
  by exists k1, k2.
Qed.

Lemma iptables_delete_undoes_add_witness :
  exists k1 k2 : Tables,
    IPTables_Add daemon_ipt (zero_rule <| r_Name := "drop" |>) (fun _ => ["INPUT -j ACCEPT"])
      = (Ok tt, k1) /\
    k1 ipv6Table = ["INPUT -m comment --comment nordvpn -j DROP"; "INPUT -j ACCEPT"] /\
    IPTables_Delete daemon_ipt (zero_rule <| r_Name := "drop" |>) k1 = (Ok tt, k2) /\
    k2 ipv6Table = ["INPUT -j ACCEPT"].
Proof.
  destruct (iptables_delete_undoes_add daemon_ipt (zero_rule <| r_Name := "drop" |>)
              ((fun _ => ["INPUT -j ACCEPT"]) : Tables)) as (k1 & k2 & H1 & H2 & Hv).
  exists k1, k2. split; [exact H1|]. split; [|split; [exact H2|exact (Hv ipv6Table)]].
  apply (f_equal (fun p => p.2 ipv6Table)) in H1. refine (eq_trans (eq_sym H1) _).
  vm_compute. reflexivity.
Defined.

(** [Delete] returns without an error at the first line that is
    missing and leaves the lines after it installed: with the first line of a
    two-port rule gone, the rest of the rule stays active. *)
Theorem iptables_delete_stops_at_missing_line :
  let rule := zero_rule <| r_Name := "r" |> <| r_Direction := TwoWay |> in
  let k : Tables := fun t => if decide (t = ipv4Table)
    then ["OUTPUT -m comment --comment nordvpn -j DROP"] else [] in
  IPTables_Delete daemon_ipt rule k = (Ok tt, k) /\
  "OUTPUT -m comment --comment nordvpn -j DROP" ∈ v4_lines (rule_lines rule "" "" "").
Proof.
  split; [reflexivity|]. vm_compute. right. left.
Qed.
