(* ===== verification/IPTablesManager.v ===== *)
(** * IPTablesManager: priorities of nordvpn rules within an iptables chain

    Models [daemon/firewall/iptables_manager/iptables_manager.go]: a rule
    carries a priority, written into the chain as the comment
    [nordvpn-<priority>]; inserting a rule lists the chain, reads the comments
    back and computes the line number that keeps higher priorities first.  The
    command runner is the parameter [RunCommand]. *)

From stdpp Require Import base option list strings pretty gmap sorting.
From Stdlib Require Import ZArith Ascii Lia.
From S2P Require Import Prelude GoLib.
Set Warnings "-clear-no-such-hyp".

Open Scope Z_scope.
Open Scope go_scope.

Definition iptablesCommand : string := "iptables".
Definition ip6tablesCommand : string := "ip6tables".

Inductive IpVersion : Type := IPv4 | IPv6 | Both.
#[export] Instance IpVersion_eq_dec : EqDecision IpVersion.
Proof. solve_decision. Defined.

Inductive iptablesChain : Type := Input | Output.
#[export] Instance iptablesChain_eq_dec : EqDecision iptablesChain.
Proof. solve_decision. Defined.

Definition iptablesChain_String (c : iptablesChain) : string :=
  match c with Input => "INPUT" | Output => "OUTPUT" end.

(** [RulePriority] is its integer. *)
Definition toCommentArgs (r : Z) : string := "-m comment --comment nordvpn-" +:+ itoa r.
Definition toComment (r : Z) : string := "nordvpn-" +:+ itoa r.

Record FwRule : Type := NewFwRule {
  fr_chain : iptablesChain;
  fr_version : IpVersion;
  fr_params : string;
  fr_priority : Z
}.
#[export] Instance FwRule_eq_dec : EqDecision FwRule.
Proof. solve_decision. Defined.

Definition ToInsertAppendCommand (f : FwRule) (index : Z) : string :=
  "-I " +:+ iptablesChain_String (fr_chain f) +:+ " " +:+ itoa index +:+ " " +:+ fr_params f
    +:+ " " +:+ toCommentArgs (fr_priority f).

Definition ToDeleteCommand (f : FwRule) : string :=
  "-D " +:+ iptablesChain_String (fr_chain f) +:+ " " +:+ fr_params f
    +:+ " " +:+ toCommentArgs (fr_priority f).

(** ** Reading priorities back *)

Fixpoint take_digits (s : string) : string :=
  match s with
  | String c s' => match digit_val c with
                   | Some _ => String c (take_digits s')
                   | None => EmptyString
                   end
  | EmptyString => EmptyString
  end.

(** The first capture of [nordvpn-(\d+)] in the line. *)
Fixpoint find_nordvpn (s : string) : option string :=
  let here :=
    if has_prefix "nordvpn-" s
    then match take_digits (drop_str 8 s) with EmptyString => None | d => Some d end
    else None in
  match here with
  | Some d => Some d
  | None => match s with EmptyString => None | String _ s' => find_nordvpn s' end
  end.

(** The number of the last line with a nordvpn comment, counted from 1; 0 when
    there is none. *)
Fixpoint last_nordvpn (lineno : nat) (lines : list string) : nat :=
  match lines with
  | [] => O
  | line :: lines' =>
      match last_nordvpn (S lineno) lines' with
      | O => match find_nordvpn line with Some _ => S lineno | None => O end
      | n => n
      end
  end.

(** The loop "get next lowest index". *)
Fixpoint next_lowest (priority : Z) (lineIndex : nat) (lines : list string)
    : result (option nat) :=
  match lines with
  | [] => Ok None
  | line :: lines' =>
      if str_contains line (toComment priority) then Ok (Some (S lineIndex))
      else match find_nordvpn line with
           | None => next_lowest priority (S lineIndex) lines'
           | Some d =>
               match atoi d with
               | None => Err (Wrapf "converting priority to int: "
                                (Errorf ("strconv.Atoi: parsing " +:+ d)) "")
               | Some rulePriority =>
                   if rulePriority <? priority then Ok (Some (S lineIndex))
                   else next_lowest priority (S lineIndex) lines'
               end
           end
  end.

(** The line computed from the rule lines of a listing. *)
Definition rule_line (priority : Z) (outputLines : list string) : result nat :=
  match outputLines with
  | [] => Ok 1%nat
  | _ =>
      let lastNordvpnRuleLine := last_nordvpn 0 outputLines in
      if bool_decide (lastNordvpnRuleLine = 0%nat) then Ok 1%nat
      else match next_lowest priority 0 (take lastNordvpnRuleLine outputLines) with
           | Err e => Err e
           | Ok (Some n) => Ok n
           | Ok None => Ok (S lastNordvpnRuleLine)
           end
  end.

(** ** The manager *)

(** [CommandRunner]: output of a command, or its error. *)
Class CommandRunner (K : Type) : Type := {
  RunCommand : string -> string -> M K string
}.

Record IPTablesManager : Type := mkIPTablesManager {
  im_ip6tablesSupported : bool;
  im_enabled : bool
}.

Section Manager.
Context {K : Type} `{CommandRunner K} (i : IPTablesManager).

Definition getRuleLine (command : string) (chain : iptablesChain) (priority : Z) : M K nat :=
  let args := "-L " +:+ iptablesChain_String chain +:+ " --numeric" in
  let! output := wrapped "listing iptables rules: " (RunCommand command args) "" in
  match split_char newline output with
  | _ :: _ :: outputLines =>
      match rule_line priority outputLines with
      | Ok n => ret n
      | Err e => throw e
      end
  | _ => throw (Errorf ("invalid output from " +:+ command +:+ " " +:+ args
                        +:+ " command, expected at least two lines"))
  end.

(** The command of one table: the delete command, or the insert command at
    the computed line. *)
Definition run_in (command : string) (insert : bool) (rule : FwRule) : M K unit :=
  let! cmd :=
    (if insert
     then let! index := wrapped "calculating rule index: "
            (getRuleLine command (fr_chain rule) (fr_priority rule)) "" in
          ret (ToInsertAppendCommand rule (Z.of_nat index))
     else ret (ToDeleteCommand rule)) in
  let! _ := RunCommand command cmd in ret tt.

Definition executeCommand (insert : bool) (rule : FwRule) : M K unit :=
  if negb (im_enabled i) then ret tt
  else
    when (bool_decide (fr_version rule = IPv4) || bool_decide (fr_version rule = Both))
      (run_in iptablesCommand insert rule) ;;
    if bool_decide (fr_version rule = IPv4) || negb (im_ip6tablesSupported i) then ret tt
    else run_in ip6tablesCommand insert rule.

Definition InsertRule (rule : FwRule) : M K unit := executeCommand true rule.
Definition DeleteRule (rule : FwRule) : M K unit := executeCommand false rule.
End Manager.

(** ** Correctness of the line number *)

(** The priority written in a line. *)
Definition priority_of (line : string) : option Z := d ← find_nordvpn line; atoi d.

(** The chain after [iptables -I <chain> <n>]. *)
Definition insert_line (n : nat) (line : string) (lines : list string) : list string :=
  take (pred n) lines ++ line :: drop (pred n) lines.

(** Higher priorities first. *)
Definition by_priority (lines : list string) : Prop :=
  StronglySorted Z.ge (omap priority_of lines).

(** A line is readable at [p] when its comment has a number within [int] and the
    text of the comment of [p] occurs in it only as its own comment. *)
Definition readable (p : Z) (line : string) : Prop :=
  (forall d, find_nordvpn line = Some d -> is_Some (atoi d)) /\
  (str_contains line (toComment p) = true -> priority_of line = Some p).

Lemma StronglySorted_app_iff {A} (R : relation A) l k :
  StronglySorted R (l ++ k) <->
  StronglySorted R l /\ StronglySorted R k /\ (forall x y, x ∈ l -> y ∈ k -> R x y).
Proof.
  induction l as [|a l IH]; cbn.
  - split; [|by intros (_ & ? & _)]. intros Hk. repeat split; [constructor|done|].
    by intros x y ?%not_elem_of_nil.
  - split.
    + intros [Hs Hf]%StronglySorted_inv. apply IH in Hs as (Hl & Hk & Hx).
      apply Forall_app in Hf as [Hf1 Hf2]. rewrite Forall_forall in Hf2.
      repeat split; [by constructor|done|].
      intros x y [->|?]%elem_of_cons Hy; auto.
    + intros ([Hl Hf]%StronglySorted_inv & Hk & Hx). constructor.
      * apply IH. repeat split; [done..|]. intros x y Hxl. apply Hx. apply elem_of_cons. by right.
      * apply Forall_app. split; [done|]. apply Forall_forall. intros y Hy.
        apply Hx; [apply elem_of_cons; by left|done].
Qed.

Definition no_comment (p : Z) (line : string) : Prop := str_contains line (toComment p) = false.

Lemma next_lowest_spec p lineIndex lines :
  Forall (readable p) lines ->
  match next_lowest p lineIndex lines with
  | Err _ => False
  | Ok None => Forall (fun q => q >= p) (omap priority_of lines) /\ Forall (no_comment p) lines
  | Ok (Some n) =>
      exists i line, n = (S lineIndex + i)%nat /\ lines !! i = Some line /\
        Forall (fun q => q >= p) (omap priority_of (take i lines)) /\
        Forall (no_comment p) (take i lines) /\
        exists q, priority_of line = Some q /\ q <= p
  end.
Proof.
  intros Hread. revert lineIndex.
  induction Hread as [|line lines [Hatoi Htext] _ IH]; intros lineIndex; cbn; [by split|].
  destruct (str_contains line (toComment p)) eqn:Hc.
  { exists 0%nat, line. repeat split; [lia|constructor..|]. exists p. split; [auto|lia]. }
  unfold priority_of in *. specialize (IH (S lineIndex)).
  destruct (find_nordvpn line) as [d|] eqn:Hd; cbn.
  - destruct (Hatoi d eq_refl) as [q Hq]. rewrite Hq. cbn.
    destruct (Z.ltb_spec q p).
    { exists 0%nat, line. repeat split; [lia|constructor..|]. exists q. rewrite Hd. split; [done|lia]. }
    destruct (next_lowest p (S lineIndex) lines) as [[n|]|];
      [|destruct IH; split; constructor; [lia|done..]|done].
    destruct IH as (i & l & -> & Hi & Hall & Hno & Hl). exists (S i), l.
    repeat split; [lia|done| |by constructor|done]. cbn. rewrite Hd. cbn. rewrite Hq. cbn.
    constructor; [lia|done].
  - destruct (next_lowest p (S lineIndex) lines) as [[n|]|];
      [|destruct IH; split; [done|by constructor]|done].
    destruct IH as (i & l & -> & Hi & Hall & Hno & Hl). exists (S i), l.
    repeat split; [lia|done| |by constructor|done]. cbn. by rewrite Hd.
Qed.

(** Below the last nordvpn line there is no priority. *)
Lemma last_nordvpn_spec lineno lines :
  (last_nordvpn lineno lines = 0%nat /\ omap priority_of lines = []) \/
  (exists n, last_nordvpn lineno lines = (S lineno + n)%nat /\ (n < length lines)%nat /\
     omap priority_of (drop (S n) lines) = []).
Proof.
  revert lineno. induction lines as [|line lines IH]; intros lineno; cbn; [by left|].
  destruct (IH (S lineno)) as [[-> Hnone]|(n & -> & Hlen & Hnone)].
  - unfold priority_of at 1. destruct (find_nordvpn line) as [d|]; cbn.
    + right. exists 0%nat. repeat split; [lia|lia|done].
    + left. done.
  - right. exists (S n). repeat split; [cbn; lia|lia|done].
Qed.

Lemma omap_app {A B} (f : A -> option B) l k : omap f (l ++ k) = omap f l ++ omap f k.
Proof. induction l as [|x l IH]; cbn; [done|]. destruct (f x); cbn; by rewrite IH. Qed.

(** Inserting between lines of priority at least and at most [p]. *)
Lemma insert_sorted p n line lines :
  priority_of line = Some p -> by_priority lines ->
  Forall (fun q => q >= p) (omap priority_of (take (pred n) lines)) ->
  Forall (fun q => p >= q) (omap priority_of (drop (pred n) lines)) ->
  by_priority (insert_line n line lines).
Proof.
  intros Hp Hs Hbefore Hafter. unfold by_priority, insert_line in *.
  rewrite <- (take_drop (pred n) lines) in Hs at 1.
  rewrite omap_app in Hs |- *. apply StronglySorted_app_iff in Hs as (Hs1 & Hs2 & Hx).
  cbn. rewrite Hp. cbn. apply StronglySorted_app_iff. repeat split; [done|by constructor|].
  intros x y Hxl [->|Hy]%elem_of_cons; [|auto].
  rewrite Forall_forall in Hbefore. auto.
Qed.

(** From a line of priority at most [p] on, every priority is at most [p]. *)
Lemma sorted_below p i l q lines :
  by_priority lines -> lines !! i = Some l -> priority_of l = Some q -> q <= p ->
  Forall (fun x => p >= x) (omap priority_of (drop i lines)).
Proof.
  intros Hs Hi Hq Hqp.
  assert (drop i lines = l :: drop (S i) lines) as Hd by by erewrite drop_S.
  rewrite <- (take_drop i lines), Hd in Hs. unfold by_priority in Hs.
  rewrite omap_app in Hs. apply StronglySorted_app_iff in Hs as (_ & Hs & _).
  rewrite Hd. cbn in Hs |- *. rewrite Hq in *. cbn in Hs |- *.
  apply StronglySorted_inv in Hs as [_ Hs]. constructor; [lia|].
  eapply Forall_impl; [exact Hs|]. cbn. lia.
Qed.

(** For a chain whose nordvpn rules are ordered by priority, the line number
    computed for a new rule exists, lies between 1 and the line after the last
    nordvpn rule, and inserting there keeps the order. *)
Lemma rule_line_spec (p : Z) (line : string) (lines : list string) :
  Forall (readable p) lines -> by_priority lines -> priority_of line = Some p ->
  exists n, rule_line p lines = Ok n /\
    (1 <= n <= S (last_nordvpn 0 lines))%nat /\ by_priority (insert_line n line lines) /\
    Forall (no_comment p) (take (pred n) lines).
Proof.
  intros Hread Hs Hp. unfold rule_line.
  destruct lines as [|l0 lines0] eqn:Hl.
  { exists 1%nat. repeat split; [lia|cbn; lia| |constructor].
    apply (insert_sorted p); constructor || done. }
  rewrite <- Hl in *. clear Hl l0 lines0.
  destruct (last_nordvpn_spec 0 lines) as [[-> Hnone]|(n & -> & Hlen & Hnone)].
  { exists 1%nat. split; [done|]. split; [lia|]. split; [|constructor].
    apply (insert_sorted p); [done..| |];
      cbn [pred take drop]; rewrite ?drop_0, ?Hnone; constructor. }
  rewrite bool_decide_false by lia.
  pose proof (next_lowest_spec p 0 (take (1 + n) lines)) as Hnext.
  specialize (Hnext (Forall_take _ _ _ Hread)).
  destruct (next_lowest p 0 _) as [[m|]|]; [| |done].
  - destruct Hnext as (i & l & -> & Hi & Hall & Hno & q & Hq & Hqp).
    apply lookup_take_Some in Hi as [Hi Hin]. rewrite take_take, Nat.min_l in Hall, Hno by lia.
    exists (S i). repeat split; [lia|lia| |done]. apply (insert_sorted p); [done..|exact Hall|].
    cbn [pred]. by eapply sorted_below.
  - destruct Hnext as [Hall Hno]. exists (S (S n)). repeat split; [lia|lia| |done].
    apply (insert_sorted p); [done..|exact Hall|]. cbn [pred]. rewrite Hnone. constructor.
Qed.

(** ** What [iptables] does

    The commands the manager runs, as [iptables(8)] documents them: a chain is
    a list of entries; [-L] prints two header lines and then one line per entry,
    each ended by a newline; [-I chain n] inserts before the n-th entry; [-D]
    removes the first entry equal to the rule.  [entry] is the entry a rule's
    arguments make, [show] the line an entry is listed as; for a rule that is
    [valid] the line carries the rule's comment and no other nordvpn comment. *)

Class LawfulRunner (K E : Type) `{CommandRunner K, EqDecision E}
    (entries : K -> string -> iptablesChain -> list E) (entry : FwRule -> E)
    (show : E -> string) (valid : FwRule -> Prop) : Prop := {
  valid_priority f : valid f -> 0 <= fr_priority f <= 9;
  valid_show f : valid f -> priority_of (show (entry f)) = Some (fr_priority f);
  valid_comment f : valid f -> str_contains (show (entry f)) (toComment (fr_priority f)) = true;
  valid_readable f p : valid f -> 0 <= p <= 9 -> readable p (show (entry f));
  show_no_newline e : no_newline (show e);
  run_list k cmd ch : exists hdr1 hdr2, no_newline hdr1 /\ no_newline hdr2 /\
    RunCommand cmd ("-L " +:+ iptablesChain_String ch +:+ " --numeric") k =
      (Ok (unlines (hdr1 :: hdr2 :: map show (entries k cmd ch))), k);
  run_insert k cmd f n :
    valid f -> (1 <= n <= S (length (entries k cmd (fr_chain f))))%nat ->
    exists out k', RunCommand cmd (ToInsertAppendCommand f (Z.of_nat n)) k = (Ok out, k') /\
      forall cmd' ch', entries k' cmd' ch' =
        if bool_decide (cmd' = cmd /\ ch' = fr_chain f)
        then take (pred n) (entries k cmd ch') ++ entry f :: drop (pred n) (entries k cmd ch')
        else entries k cmd' ch';
  run_delete k cmd f :
    valid f -> entry f ∈ entries k cmd (fr_chain f) ->
    exists out k', RunCommand cmd (ToDeleteCommand f) k = (Ok out, k') /\
      forall cmd' ch', entries k' cmd' ch' =
        if bool_decide (cmd' = cmd /\ ch' = fr_chain f)
        then remove_first (entry f) (entries k cmd ch')
        else entries k cmd' ch'
}.

(** ** The rules of a table

    What the manager promises its client: a rule that is inserted is in its
    chains until it is deleted. *)

Class RuleTable (T : Type) : Type := {
  table_Insert : FwRule -> M T unit;
  table_Delete : FwRule -> M T unit
}.

Class LawfulRuleTable (T : Type) `{RuleTable T} (valid : FwRule -> Prop)
    (R : T -> list FwRule -> Prop) : Prop := {
  table_perm t l l' : l ≡ₚ l' -> R t l -> R t l';
  lawful_Insert t l f : valid f -> R t l ->
    exists t', table_Insert f t = (Ok tt, t') /\ R t' (f :: l);
  lawful_table_Delete t l f : R t (f :: l) ->
    exists t', table_Delete f t = (Ok tt, t') /\ R t' l
}.

(** The manager with its command runner. *)
Record ManagedTables (K : Type) : Type := mkManagedTables {
  mt_manager : IPTablesManager;
  mt_runner : K
}.
Arguments mkManagedTables {K} _ _.
Arguments mt_manager {K} _.
Arguments mt_runner {K} _.

Definition on_runner {K A} (m : IPTablesManager -> M K A) : M (ManagedTables K) A := fun t =>
  let '(r, k) := m (mt_manager t) (mt_runner t) in (r, mkManagedTables (mt_manager t) k).

#[export] Instance managed_tables {K} `{CommandRunner K} : RuleTable (ManagedTables K) := {|
  table_Insert f := on_runner (fun i => InsertRule i f);
  table_Delete f := on_runner (fun i => DeleteRule i f)
|}.

(** The commands run for a rule, in order. *)
Definition commands (i : IPTablesManager) (f : FwRule) : list string :=
  if negb (im_enabled i) then []
  else (if bool_decide (fr_version f = IPv6) then [] else [iptablesCommand]) ++
       (if bool_decide (fr_version f = IPv4) || negb (im_ip6tablesSupported i)
        then [] else [ip6tablesCommand]).

Definition targets (i : IPTablesManager) (cmd : string) (ch : iptablesChain) (f : FwRule) : Prop :=
  cmd ∈ commands i f /\ fr_chain f = ch.

#[export] Instance targets_dec i cmd ch f : Decision (targets i cmd ch f).
Proof. unfold targets. apply _. Defined.

(** Evaluate the closed decisions of the goal. *)
Ltac eval_decides :=
  repeat match goal with
  | |- context [bool_decide ?P] =>
      let v := eval vm_compute in (bool_decide P) in
      match v with true => idtac | false => idtac end;
      change (bool_decide P) with v
  end.

Section Refinement.
Context {K E : Type} `{CommandRunner K, EqDecision E}
  {entries : K -> string -> iptablesChain -> list E} {entry : FwRule -> E}
  {show : E -> string} {valid : FwRule -> Prop}
  `{HK : !LawfulRunner K E entries entry show valid}.
Implicit Types (k : K) (f : FwRule) (i : IPTablesManager).

Definition foreign (e : E) : Prop := str_contains (show e) "nordvpn-" = false.

#[local] Instance foreign_dec e : Decision (foreign e).
Proof. unfold foreign. apply _. Defined.

(** The chain is the rules [fs], with higher priorities first, and its foreign
    entries, those with no nordvpn comment. *)
Definition chain_holds (es : list E) (fs : list FwRule) : Prop :=
  by_priority (map show es) /\ Forall valid fs /\ es ≡ₚ (entry <$> fs) ++ filter foreign es.

Definition tables_hold (t : ManagedTables K) (l : list FwRule) : Prop :=
  Forall valid l /\
  forall cmd ch, chain_holds (entries (mt_runner t) cmd ch)
                   (filter (targets (mt_manager t) cmd ch) l).

(** The foreign entries of every chain, in their order. *)
Definition foreign_entries k (cmd : string) (ch : iptablesChain) : list E :=
  filter foreign (entries k cmd ch).

(** The chains hold the rules [l] beside the foreign entries [others]. *)
Definition tables_hold_beside (others : string -> iptablesChain -> list E)
    (t : ManagedTables K) (l : list FwRule) : Prop :=
  tables_hold t l /\ forall cmd ch, foreign_entries (mt_runner t) cmd ch = others cmd ch.

(** *** Foreign entries *)

Lemma entry_not_foreign f : valid f -> ~ foreign (entry f).
Proof.
  intros Hv He. pose proof (valid_comment (LawfulRunner := HK) f Hv) as Hc.
  apply (str_contains_app _ "nordvpn-") in Hc. unfold foreign in He. congruence.
Qed.

Lemma filter_entries fs : Forall valid fs -> filter foreign (entry <$> fs) = [].
Proof.
  induction 1 as [|f fs Hf _ IH]; [done|]. cbn.
  by rewrite decide_False by by apply entry_not_foreign.
Qed.

Lemma filter_foreign (es : list E) : Forall foreign es -> filter foreign es = es.
Proof. induction 1 as [|e es He _ IH]; [done|]. by rewrite filter_cons, decide_True, IH. Qed.

Lemma chain_holds_others es fs :
  chain_holds es fs <->
  by_priority (map show es) /\ Forall valid fs /\
  exists others, es ≡ₚ (entry <$> fs) ++ others /\ Forall foreign others.
Proof.
  split.
  - intros (Hs & Hv & Hes). split; [done|]. split; [done|]. exists (filter foreign es).
    split; [done|]. apply Forall_forall. intros e [? _]%list_elem_of_filter. done.
  - intros (Hs & Hv & others & Hes & Hf). split; [done|]. split; [done|].
    enough (filter foreign es ≡ₚ others) as -> by done.
    by rewrite Hes, filter_app, filter_entries, filter_foreign by done.
Qed.

Lemma filter_remove_first f (l : list E) :
  valid f -> filter foreign (remove_first (entry f) l) = filter foreign l.
Proof.
  intros Hv. induction l as [|e l IH]; [done|]. cbn [remove_first].
  destruct (decide (entry f = e)) as [<-|Hne]; rewrite !filter_cons.
  - by rewrite decide_False by by apply entry_not_foreign.
  - by rewrite IH.
Qed.

(** *** Lines *)

Lemma find_nordvpn_foreign s : str_contains s "nordvpn-" = false -> find_nordvpn s = None.
Proof.
  induction s as [|c s IH]; [done|]. cbn [str_contains find_nordvpn].
  intros [-> Hs]%orb_false_iff. auto.
Qed.

Lemma foreign_readable e p : foreign e -> readable p (show e) /\ priority_of (show e) = None.
Proof.
  intros He. unfold readable, priority_of. rewrite (find_nordvpn_foreign _ He).
  repeat split; [done|]. intros Hc. apply (str_contains_app _ "nordvpn-") in Hc.
  by rewrite He in Hc.
Qed.

Lemma omap_None_foreign es : Forall foreign es -> omap priority_of (map show es) = [].
Proof.
  induction 1 as [|e es He _ IH]; [done|]. cbn.
  by rewrite (proj2 (foreign_readable e 0 He)), IH.
Qed.

Lemma last_nordvpn_snoc lineno l : last_nordvpn lineno (l ++ [EmptyString]) = last_nordvpn lineno l.
Proof. revert lineno. induction l as [|x l IH]; intros lineno; cbn; [done|by rewrite IH]. Qed.

Lemma last_nordvpn_length l : (last_nordvpn 0 l <= length l)%nat.
Proof. destruct (last_nordvpn_spec 0 l) as [[-> _]|(n & -> & ? & _)]; lia. Qed.

Lemma chain_readable es fs p :
  0 <= p <= 9 -> chain_holds es fs -> Forall (readable p) (map show es).
Proof.
  intros Hp (_ & Hv & others & Hes & Hf)%chain_holds_others. apply Forall_forall. intros x Hx.
  apply list_elem_of_fmap in Hx as (e & -> & He). rewrite Hes, elem_of_app in He.
  destruct He as [(f & -> & Hin)%list_elem_of_fmap|He].
  - rewrite Forall_forall in Hv. apply (valid_readable (entries := entries)); auto.
  - rewrite Forall_forall in Hf. by apply foreign_readable, Hf.
Qed.

(** *** Inserting into one chain *)

Lemma chain_insert es fs f n :
  valid f -> chain_holds es fs ->
  by_priority (map show (take n es ++ entry f :: drop n es)) ->
  chain_holds (take n es ++ entry f :: drop n es) (f :: fs).
Proof.
  intros Hv (_ & Hvs & others & Hes & Hf)%chain_holds_others Hs.
  apply chain_holds_others. split; [done|]. split; [by constructor|]. exists others. split; [|done]. rewrite <- Permutation_middle, take_drop, Hes. done.
Qed.

Lemma getRuleLine_run k cmd f fs :
  valid f -> chain_holds (entries k cmd (fr_chain f)) fs ->
  exists n, getRuleLine cmd (fr_chain f) (fr_priority f) k = (Ok n, k) /\
    (1 <= n <= S (length (entries k cmd (fr_chain f))))%nat /\
    by_priority (map show (take (pred n) (entries k cmd (fr_chain f)) ++
                   entry f :: drop (pred n) (entries k cmd (fr_chain f)))) /\
    entry f ∉ take (pred n) (entries k cmd (fr_chain f)).
Proof.
  intros Hv Hch. set (es := entries k cmd (fr_chain f)) in *.
  destruct (rule_line_spec (fr_priority f) (show (entry f)) (map show es ++ [EmptyString]))
    as (n & Hn & Hle & Hs & Hno).
  - apply Forall_app. split; [|by repeat constructor].
    eapply chain_readable; [|done]. by apply (valid_priority (entries := entries) (entry := entry)).
  - unfold by_priority. rewrite omap_app. cbn. rewrite app_nil_r. apply Hch.
  - by apply (valid_show (entries := entries)).
  - exists n. rewrite last_nordvpn_snoc in Hle.
    pose proof (last_nordvpn_length (map show es)) as Hlen. rewrite length_map in Hlen.
    split; [|split; [lia|split]].
    + destruct (run_list (entry := entry) (valid := valid) (show := show) k cmd (fr_chain f))
        as (h1 & h2 & Hh1 & Hh2 & Hrun).
      unfold getRuleLine. go_run.
      rewrite split_unlines; [|repeat constructor; [done..|]].
      * cbn [app]. fold es. by rewrite Hn.
      * apply Forall_forall. intros x (e & -> & _)%list_elem_of_fmap.
        apply (show_no_newline (LawfulRunner := HK)).
    + unfold by_priority, insert_line in *.
      rewrite take_app_le, drop_app_le in Hs by (rewrite length_map; lia).
      change (show (entry f) :: drop (pred n) (map show es) ++ [EmptyString])
        with ((show (entry f) :: drop (pred n) (map show es)) ++ [EmptyString]) in Hs.
      rewrite (assoc_L (++)), omap_app in Hs. cbn [omap list_omap] in Hs.
      rewrite app_nil_r in Hs. rewrite map_app. cbn [map].
      by rewrite <- firstn_map, <- skipn_map.
    + rewrite take_app_le in Hno by (rewrite length_map; lia).
      intros Hin. rewrite firstn_map, Forall_fmap, Forall_forall in Hno.
      specialize (Hno _ Hin). cbn in Hno. unfold no_comment in Hno.
      by rewrite (valid_comment (LawfulRunner := HK)) in Hno.
Qed.

(** [k'] is [k] with the chain [ch] of [cmd] replaced. *)
Definition chain_changed k k' (cmd : string) (ch : iptablesChain) (es : list E) : Prop :=
  forall cmd' ch', entries k' cmd' ch' =
    if bool_decide (cmd' = cmd /\ ch' = ch) then es else entries k cmd' ch'.

Lemma run_in_insert k cmd f fs :
  valid f -> chain_holds (entries k cmd (fr_chain f)) fs ->
  exists k' es, run_in cmd true f k = (Ok tt, k') /\
    chain_changed k k' cmd (fr_chain f) es /\ chain_holds es (f :: fs) /\
    remove_first (entry f) es = entries k cmd (fr_chain f).
Proof.
  intros Hv Hch. destruct (getRuleLine_run k cmd f fs Hv Hch) as (n & Hn & Hle & Hs & Hno).
  destruct (run_insert (LawfulRunner := HK) k cmd f n Hv Hle) as (out & k' & Hrun & Hent).
  exists k'. eexists. split; [unfold run_in; rewrite bind_assoc; go_run; reflexivity|].
  split; [|split; [by apply chain_insert|by rewrite remove_first_middle, take_drop]].
  intros cmd' ch'. rewrite Hent. case_bool_decide as Heq; [|done]. by destruct Heq as [-> ->].
Qed.

Lemma remove_first_split (e : E) l :
  e ∈ l -> exists l1 l2, l = l1 ++ e :: l2 /\ remove_first e l = l1 ++ l2.
Proof.
  intros (l1 & l2 & -> & Hr)%list_elem_of_split_l. exists l1, l2.
  by rewrite remove_first_middle.
Qed.

Lemma chain_remove es fs f :
  chain_holds es (f :: fs) -> entry f ∈ es /\ chain_holds (remove_first (entry f) es) fs.
Proof.
  intros (Hs & [Hv Hvs]%Forall_cons & others & Hes & Hf)%chain_holds_others.
  assert (entry f ∈ es) as Hin by (rewrite Hes; set_solver).
  destruct (remove_first_split _ _ Hin) as (l1 & l2 & -> & ->).
  split; [done|]. apply chain_holds_others. split; [|split; [done|]].
  - unfold by_priority in *. rewrite map_app, omap_app in Hs |- *. cbn in Hs.
    rewrite (valid_show (LawfulRunner := HK)) in Hs by done. cbn in Hs.
    apply StronglySorted_app_iff in Hs as (H1 & H2 & Hx). apply StronglySorted_app_iff.
    apply StronglySorted_inv in H2 as [H2 _]. repeat split; [done..|].
    intros x y Hxl Hy. apply Hx; [done|]. apply elem_of_cons. by right.
  - exists others. split; [|done]. apply (inj (cons (entry f))).
    by rewrite Permutation_middle, Hes.
Qed.

Lemma run_in_delete k cmd f fs :
  chain_holds (entries k cmd (fr_chain f)) (f :: fs) ->
  exists k', run_in cmd false f k = (Ok tt, k') /\
    chain_changed k k' cmd (fr_chain f)
      (remove_first (entry f) (entries k cmd (fr_chain f))) /\
    chain_holds (remove_first (entry f) (entries k cmd (fr_chain f))) fs.
Proof.
  intros Hch. destruct (chain_remove _ _ _ Hch) as [Hin Hch'].
  assert (valid f) as Hv by (destruct Hch as (_ & [? _]%Forall_cons & _); done).
  destruct (run_delete (LawfulRunner := HK) k cmd f Hv Hin) as (out & k' & Hrun & Hent).
  exists k'. split; [unfold run_in; rewrite bind_ret; go_run; reflexivity|].
  split; [|done].
  intros cmd' ch'. rewrite Hent. case_bool_decide as Heq; [|done]. by destruct Heq as [-> ->].
Qed.

(** *** Inserting into the chains of a rule *)

Lemma executeCommand_eq i insert f k :
  executeCommand i insert f k = forM_ (commands i f) (fun cmd => run_in cmd insert f) k.
Proof.
  unfold executeCommand, commands. destruct i as [[] []], (fr_version f); eval_decides;
    unfold when, forM_, bind, ret; cbn; try done;
    repeat match goal with
      |- context [run_in ?c insert f ?k] => destruct (run_in c insert f k) as [[[]|?] ?]
    end; done.
Qed.

Lemma NoDup_commands i f : NoDup (commands i f).
Proof.
  unfold commands. destruct i as [[] []], (fr_version f); eval_decides; cbn;
    apply (bool_decide_unpack _); by vm_compute.
Qed.

(** The rules of each chain with [f] added to the chains of [cmds]. *)
Definition with_rule (cmds : list string) f (fs : string -> iptablesChain -> list FwRule)
    (cmd : string) (ch : iptablesChain) : list FwRule :=
  if bool_decide (cmd ∈ cmds /\ fr_chain f = ch) then f :: fs cmd ch else fs cmd ch.

Definition all_hold k (fs : string -> iptablesChain -> list FwRule) : Prop :=
  forall cmd ch, chain_holds (entries k cmd ch) (fs cmd ch).

(** The chain with [f] taken out, if [f] is in it because of [cmds]. *)
Definition without_rule (cmds : list string) f k (cmd : string) (ch : iptablesChain) : list E :=
  if bool_decide (cmd ∈ cmds /\ fr_chain f = ch) then remove_first (entry f) (entries k cmd ch)
  else entries k cmd ch.

Ltac chain_cases :=
  repeat case_bool_decide; destruct_and?; subst; first [done|exfalso; set_solver].

Lemma insert_all cmds f k fs :
  valid f -> NoDup cmds -> all_hold k fs ->
  exists k', forM_ cmds (fun cmd => run_in cmd true f) k = (Ok tt, k') /\
    all_hold k' (with_rule cmds f fs) /\
    forall cmd ch, without_rule cmds f k' cmd ch = entries k cmd ch.
Proof.
  intros Hv. revert k fs. induction cmds as [|c cmds IH]; intros k fs Hnd Hall.
  { exists k. split; [done|]. split; intros cmd ch; unfold with_rule, without_rule;
    rewrite bool_decide_false by set_solver; [apply Hall|done]. }
  apply NoDup_cons in Hnd as [Hc Hnd].
  destruct (run_in_insert k c f _ Hv (Hall c (fr_chain f)))
    as (k1 & es & Hrun & Hch & Hes & Hback).
  destruct (IH k1 (with_rule [c] f fs) Hnd) as (k2 & Hrun2 & Hall2 & Hback2).
  - intros cmd ch. unfold with_rule. rewrite Hch. case_bool_decide as Heq.
    + destruct Heq as [-> ->]. rewrite bool_decide_true by set_solver. done.
    + rewrite bool_decide_false by set_solver. apply Hall.
  - exists k2. split; [cbn [forM_]; go_run; exact Hrun2|].
    split; intros cmd ch.
    + specialize (Hall2 cmd ch). unfold with_rule in *. chain_cases.
    + specialize (Hback2 cmd ch). rewrite Hch in Hback2. unfold without_rule in *.
      chain_cases.
Qed.

Lemma delete_all cmds f k fs :
  NoDup cmds -> all_hold k (with_rule cmds f fs) ->
  exists k', forM_ cmds (fun cmd => run_in cmd false f) k = (Ok tt, k') /\ all_hold k' fs /\
    forall cmd ch, entries k' cmd ch = without_rule cmds f k cmd ch.
Proof.
  revert k. induction cmds as [|c cmds IH]; intros k Hnd Hall.
  { exists k. split; [done|]. split; intros cmd ch; [specialize (Hall cmd ch)|];
    unfold with_rule, without_rule in *; by rewrite bool_decide_false in * by set_solver. }
  apply NoDup_cons in Hnd as [Hc Hnd].
  pose proof (Hall c (fr_chain f)) as Hcf. unfold with_rule in Hcf.
  rewrite bool_decide_true in Hcf by set_solver.
  destruct (run_in_delete k c f _ Hcf) as (k1 & Hrun & Hch & Hes).
  destruct (IH k1 Hnd) as (k2 & Hrun2 & Hall2 & Hent2).
  - intros cmd ch. specialize (Hall cmd ch). unfold with_rule in *. rewrite Hch. chain_cases.
  - exists k2. split; [cbn [forM_]; go_run; exact Hrun2|]. split; [done|].
    intros cmd ch. rewrite Hent2. unfold without_rule. rewrite !Hch. chain_cases.
Qed.

Lemma filter_targets i f l cmd ch :
  filter (targets i cmd ch) (f :: l) =
  with_rule (commands i f) f (fun cmd ch => filter (targets i cmd ch) l) cmd ch.
Proof.
  unfold with_rule. rewrite filter_cons. unfold targets at 1.
  by case_bool_decide; [rewrite decide_True|rewrite decide_False].
Qed.

Lemma chain_holds_perm es fs fs' : fs ≡ₚ fs' -> chain_holds es fs -> chain_holds es fs'.
Proof.
  intros Hp (Hs & Hv & Hes). split; [done|]. split; [by rewrite <- Hp|]. by rewrite <- Hp.
Qed.

Lemma foreign_without_rule cmds f k cmd ch :
  valid f -> filter foreign (without_rule cmds f k cmd ch) = foreign_entries k cmd ch.
Proof. intros Hv. unfold without_rule. case_bool_decide; [by apply filter_remove_first|done]. Qed.

#[export] Instance managed_tables_lawful others :
  LawfulRuleTable (ManagedTables K) valid (tables_hold_beside others).
Proof.
  split.
  - intros t l l' Hp [[Hv Hch] Ho]. split; [|done]. split; [by rewrite <- Hp|]. intros cmd ch.
    eapply chain_holds_perm, Hch. by rewrite Hp.
  - intros [i k] l f Hv [[Hvs Hch] Ho].
    destruct (insert_all (commands i f) f k _ Hv (NoDup_commands i f) Hch)
      as (k' & Hrun & Hall & Hback).
    exists (mkManagedTables i k'). split; [|split; [split|]]; cbn [mt_runner mt_manager] in *.
    + cbn. unfold on_runner, InsertRule. cbn. by rewrite executeCommand_eq, Hrun.
    + by constructor.
    + intros cmd ch. cbn [mt_runner mt_manager]. rewrite filter_targets. apply Hall.
    + intros cmd ch. rewrite <- Ho, <- (foreign_without_rule (commands i f) f k') by done.
      by rewrite Hback.
  - intros [i k] l f [[[Hv Hvs]%Forall_cons Hch] Ho].
    destruct (delete_all (commands i f) f k (fun cmd ch => filter (targets i cmd ch) l)
                (NoDup_commands i f)) as (k' & Hrun & Hall & Hent).
    { intros cmd ch. rewrite <- filter_targets. apply Hch. }
    exists (mkManagedTables i k'). split; [|split; [done|]]; cbn [mt_runner mt_manager] in *.
    + cbn. unfold on_runner, DeleteRule. cbn. by rewrite executeCommand_eq, Hrun.
    + intros cmd ch. rewrite <- Ho. unfold foreign_entries.
      by rewrite Hent, (foreign_without_rule (commands i f)).
Qed.
End Refinement.

(** ** A concrete [iptables]

    Chains of rule texts, with the commands parsed as the manager writes them.
    It keeps the promise of [LawfulRunner] for rules whose arguments have no
    newline and do not themselves contain the text [nordvpn-]. *)

Definition Chains : Type := string -> iptablesChain -> list string.

Definition empty_chains : Chains := fun _ _ => [].

Definition chain_arg (s : string) : option (iptablesChain * string) :=
  if has_prefix "INPUT " s then Some (Input, drop_str 6 s)
  else if has_prefix "OUTPUT " s then Some (Output, drop_str 7 s)
  else None.

Definition set_chain (k : Chains) (cmd : string) (ch : iptablesChain) (es : list string) : Chains :=
  fun cmd' ch' => if bool_decide (cmd' = cmd /\ ch' = ch) then es else k cmd' ch'.

(** Listings print no control character. *)
Fixpoint printed (s : string) : string :=
  match s with
  | EmptyString => EmptyString
  | String c s' => if Ascii.eqb c newline then printed s' else String c (printed s')
  end.

Definition bad_args : error := Errorf "exit status 2".

Definition chains_run (cmd args : string) : M Chains string := fun k =>
  match chain_arg (drop_str 3 args) with
  | None => (Err bad_args, k)
  | Some (ch, rest) =>
      if has_prefix "-L " args then
        (Ok (unlines ("Chain" :: "target     prot opt source               destination" ::
                      map printed (k cmd ch))), k)
      else if has_prefix "-I " args then
        match cut_first " " rest with
        | Some (num, text) =>
            match list_find (fun n => itoa (Z.of_nat n) = num) (seq 1 (S (length (k cmd ch)))) with
            | Some (_, n) => (Ok EmptyString, set_chain k cmd ch (insert_line n text (k cmd ch)))
            | None => (Err bad_args, k)
            end
        | None => (Err bad_args, k)
        end
      else if has_prefix "-D " args then
        (if bool_decide (rest ∈ k cmd ch)
         then (Ok EmptyString, set_chain k cmd ch (remove_first rest (k cmd ch)))
         else (Err (Errorf "exit status 1"), k))
      else (Err bad_args, k)
  end.

#[export] Instance Chains_runner : CommandRunner Chains := {| RunCommand := chains_run |}.

(** The text of a rule in a chain. *)
Definition rule_text (f : FwRule) : string := fr_params f +:+ " " +:+ toCommentArgs (fr_priority f).

Definition plain_rule (f : FwRule) : Prop :=
  no_newline (fr_params f) /\ str_contains (fr_params f) "nordvpn-" = false /\
  0 <= fr_priority f <= 9.

Lemma printed_id s : no_newline s -> printed s = s.
Proof.
  induction s as [|c s IH]; [done|]. intros [Hc Hs]. cbn.
  destruct (Ascii.eqb_spec c newline); [done|]. by rewrite IH.
Qed.

Lemma printed_no_newline s : no_newline (printed s).
Proof.
  induction s as [|c s IH]; [done|]. cbn. destruct (Ascii.eqb_spec c newline); [done|by split].
Qed.

(** A pattern without [sep] does not straddle it. *)
Lemma find_nordvpn_sep s t :
  str_contains s "nordvpn-" = false -> find_nordvpn (s +:+ String " " t) = find_nordvpn t.
Proof.
  assert (no_char " " "nordvpn-") as Hp by by repeat split.
  induction s as [|c s IH]; intros Hs; [done|].
  pose proof (has_prefix_sep " " "nordvpn-" (String c s) t Hp) as Hh.
  change (String c s +:+ String " " t) with (String c (s +:+ String " " t)) in *.
  cbn [str_contains] in Hs. apply orb_false_iff in Hs as [Hs1 Hs2].
  cbn [find_nordvpn]. rewrite Hh, Hs1 by done. auto.
Qed.

(** The comments of the priorities 0 to 9. *)
Lemma priority_cases (Q : Z -> Prop) p :
  0 <= p <= 9 -> Q 0 -> Q 1 -> Q 2 -> Q 3 -> Q 4 -> Q 5 -> Q 6 -> Q 7 -> Q 8 -> Q 9 -> Q p.
Proof.
  intros Hp **. assert (p = 0 \/ p = 1 \/ p = 2 \/ p = 3 \/ p = 4 \/ p = 5 \/ p = 6 \/ p = 7
    \/ p = 8 \/ p = 9) as Hc by lia. repeat destruct Hc as [->|Hc]; by subst.
Qed.

Ltac priority_case p := pattern p; apply priority_cases; [assumption|..].

Lemma comment_found p : 0 <= p <= 9 -> find_nordvpn (toCommentArgs p) = Some (itoa p).
Proof. intros Hp. priority_case p; reflexivity. Qed.

Lemma comment_atoi p : 0 <= p <= 9 -> atoi (itoa p) = Some p.
Proof. intros Hp. priority_case p; reflexivity. Qed.

Lemma comment_contains p q :
  0 <= p <= 9 -> 0 <= q <= 9 -> str_contains (toCommentArgs p) (toComment q) = true -> p = q.
Proof.
  intros Hp Hq. revert Hp. priority_case q; intros Hp; priority_case p; vm_compute; congruence.
Qed.

Lemma comment_no_newline p : 0 <= p <= 9 -> no_newline (toCommentArgs p).
Proof. intros Hp. priority_case p; by repeat split. Qed.

Lemma toComment_no_space q : 0 <= q <= 9 -> no_char " " (toComment q).
Proof. intros Hq. priority_case q; by repeat split. Qed.

Lemma toComment_split q : toComment q = "nordvpn-" +:+ itoa q.
Proof. done. Qed.

Lemma rule_text_no_newline f : plain_rule f -> no_newline (rule_text f).
Proof.
  intros (Hn & _ & Hp). apply no_char_app; [done|]. split; [done|]. by apply comment_no_newline.
Qed.

Lemma rule_text_priority f : plain_rule f -> priority_of (rule_text f) = Some (fr_priority f).
Proof.
  intros (_ & Hn & Hp). unfold priority_of, rule_text.
  change (" " +:+ toCommentArgs (fr_priority f)) with (String " " (toCommentArgs (fr_priority f))).
  rewrite find_nordvpn_sep, comment_found by done. cbn. by apply comment_atoi.
Qed.

Lemma rule_text_readable f p : plain_rule f -> 0 <= p <= 9 -> readable p (rule_text f).
Proof.
  intros Hf Hp. split.
  - intros d Hd. pose proof (rule_text_priority f Hf) as Hpr. unfold priority_of in Hpr.
    rewrite Hd in Hpr. by eexists.
  - rewrite (rule_text_priority f Hf). destruct Hf as (_ & Hn & Hpf). unfold rule_text.
    change (" " +:+ toCommentArgs (fr_priority f))
      with (String " " (toCommentArgs (fr_priority f))).
    rewrite str_contains_sep by (by apply toComment_no_space || done).
    intros [Hc|Hc]%orb_true_iff.
    + rewrite toComment_split in Hc. apply str_contains_app in Hc. congruence.
    + by rewrite (comment_contains _ _ Hpf Hp Hc).
Qed.

Lemma rule_text_comment f :
  plain_rule f -> str_contains (rule_text f) (toComment (fr_priority f)) = true.
Proof.
  intros (_ & _ & Hp). unfold rule_text.
  change (" " +:+ toCommentArgs (fr_priority f)) with (String " " (toCommentArgs (fr_priority f))).
  rewrite str_contains_sep by (by apply toComment_no_space || done).
  apply orb_true_iff. right. generalize dependent (fr_priority f). clear f.
  intros p Hp. priority_case p; reflexivity.
Qed.

(** Numbers are written without spaces. *)
Lemma pretty_N_go_no_space x s : no_char " " s -> no_char " " (pretty_N_go x s).
Proof.
  revert s. induction (N.lt_wf_0 x) as [x _ IH]; intros s Hs.
  destruct (decide (0 < x)%N); [|by replace x with 0%N by lia].
  rewrite pretty_N_go_step by done. apply IH; [by apply N.div_lt|].
  split; [|done]. unfold pretty_N_char. by repeat case_match.
Qed.

Lemma itoa_no_space n : no_char " " (itoa (Z.of_nat n)).
Proof.
  unfold itoa. destruct n as [|n]; [done|].
  change (no_char " " (pretty (N.pos (Pos.of_succ_nat n)))).
  unfold pretty, pretty_N. rewrite decide_False by done. by apply pretty_N_go_no_space.
Qed.

Lemma find_number n len :
  (1 <= n <= len)%nat ->
  exists i, list_find (fun m => itoa (Z.of_nat m) = itoa (Z.of_nat n)) (seq 1 len) = Some (i, n).
Proof.
  intros Hn. exists (pred n). apply list_find_Some. split; [|split; [done|]].
  - apply lookup_seq. lia.
  - intros j y Hj Hlt Heq. apply (inj (pretty (A := Z))) in Heq. apply lookup_seq in Hj. lia.
Qed.

Lemma chains_run_insert cmd ch rest k :
  chains_run cmd ("-I " +:+ (iptablesChain_String ch +:+ String " " rest)) k =
  match cut_first " " rest with
  | Some (num, text) =>
      match list_find (fun n => itoa (Z.of_nat n) = num) (seq 1 (S (length (k cmd ch)))) with
      | Some (_, n) => (Ok EmptyString, set_chain k cmd ch (insert_line n text (k cmd ch)))
      | None => (Err bad_args, k)
      end
  | None => (Err bad_args, k)
  end.
Proof. destruct ch; [done|]. by destruct rest. Qed.

Lemma chains_run_delete cmd ch rest k :
  chains_run cmd ("-D " +:+ (iptablesChain_String ch +:+ String " " rest)) k =
  if bool_decide (rest ∈ k cmd ch)
  then (Ok EmptyString, set_chain k cmd ch (remove_first rest (k cmd ch)))
  else (Err (Errorf "exit status 1"), k).
Proof. destruct ch; [done|]. by destruct rest. Qed.

#[export] Instance Chains_lawful :
  LawfulRunner Chains string (fun k => k) rule_text printed plain_rule.
Proof.
  split.
  - by intros f (_ & _ & Hp).
  - intros f Hf. rewrite printed_id by by apply rule_text_no_newline. by apply rule_text_priority.
  - intros f Hf. rewrite printed_id by by apply rule_text_no_newline. by apply rule_text_comment.
  - intros f p Hf Hp. rewrite printed_id by by apply rule_text_no_newline.
    by apply rule_text_readable.
  - apply printed_no_newline.
  - intros k cmd ch. eexists _, _. split; [|split; [|by destruct ch]]; by repeat split.
  - intros k cmd f n Hf Hn. destruct (find_number n _ Hn) as (i & Hi).
    exists EmptyString. eexists. split; [|intros cmd' ch'].
    + change (RunCommand cmd (ToInsertAppendCommand f (Z.of_nat n)) k)
        with (chains_run cmd ("-I " +:+ (iptablesChain_String (fr_chain f) +:+
          String " " (itoa (Z.of_nat n) +:+ String " " (rule_text f)))) k).
      rewrite chains_run_insert, cut_first_app, Hi by apply itoa_no_space. done.
    + unfold set_chain, insert_line. case_bool_decide as Heq; [by destruct Heq as [-> ->]|done].
  - intros k cmd f Hf Hin. exists EmptyString. eexists. split; [|intros cmd' ch'].
    + change (RunCommand cmd (ToDeleteCommand f) k)
        with (chains_run cmd ("-D " +:+ (iptablesChain_String (fr_chain f) +:+
          String " " (rule_text f))) k).
      rewrite chains_run_delete, bool_decide_true by done. done.
    + unfold set_chain. case_bool_decide as Heq; [by destruct Heq as [-> ->]|done].
Qed.

(** ** Properties *)

(** C10: inserting a rule and deleting it again restores every chain exactly,
    line by line, with the other rules (nordvpn and foreign) where they were,
    for any [iptables] that behaves as documented and any state whose nordvpn
    rules are ordered by priority; both calls succeed. *)
Theorem insert_delete_roundtrip {K E} `{CommandRunner K, EqDecision E}
    (entries : K -> string -> iptablesChain -> list E) (entry : FwRule -> E)
    (show : E -> string) (valid : FwRule -> Prop)
    `{!LawfulRunner K E entries entry show valid}
    (i : IPTablesManager) (k : K) (f : FwRule) (l : list FwRule) :
  valid f ->
  tables_hold (entries := entries) (entry := entry) (show := show) (valid := valid)
    (mkManagedTables i k) l ->
  exists k' k'', InsertRule i f k = (Ok tt, k') /\ DeleteRule i f k' = (Ok tt, k'') /\
    forall cmd ch, entries k'' cmd ch = entries k cmd ch.
Proof.
  intros Hv [_ Hch].
  destruct (insert_all (HK := _) (commands i f) f k _ Hv (NoDup_commands i f) Hch)
    as (k' & Hrun & Hall & Hback).
  destruct (delete_all _ f k' _ (NoDup_commands i f) Hall) as (k'' & Hrun' & _ & Hent).
  exists k', k''. unfold InsertRule, DeleteRule. rewrite !executeCommand_eq, Hrun, Hrun'.
  repeat split; [done..|]. intros cmd ch. by rewrite Hent.
Qed.

Definition sample_chains : Chains := fun cmd ch =>
  if bool_decide (cmd = iptablesCommand /\ ch = Input)
  then ["-s 1.1.1.1 -j DROP"; "-i eth0 -j DROP -m comment --comment nordvpn-0";
        "-p tcp -j ACCEPT"]
  else [].

Definition sample_insert : FwRule := NewFwRule Input Both "-i eth0 -j ACCEPT" 3.

Lemma insert_delete_roundtrip_witness :
  (InsertRule (mkIPTablesManager true true) sample_insert sample_chains).2 iptablesCommand Input =
    ["-s 1.1.1.1 -j DROP"; "-i eth0 -j ACCEPT -m comment --comment nordvpn-3";
     "-i eth0 -j DROP -m comment --comment nordvpn-0"; "-p tcp -j ACCEPT"] /\
  exists k' k'',
    InsertRule (mkIPTablesManager true true) sample_insert sample_chains = (Ok tt, k') /\
    DeleteRule (mkIPTablesManager true true) sample_insert k' = (Ok tt, k'') /\
    forall cmd ch, k'' cmd ch = sample_chains cmd ch.
Proof.
  split; [vm_compute; reflexivity|].
  apply (insert_delete_roundtrip (fun k => k) rule_text printed plain_rule
           (mkIPTablesManager true true) sample_chains sample_insert
           [NewFwRule Input IPv4 "-i eth0 -j DROP" 0]).
  - split; [by repeat split|]. split; [reflexivity|cbn; lia].
  - split.
    + constructor; [|constructor]. split; [by repeat split|]. split; [reflexivity|cbn; lia].
    + intros cmd ch. rewrite filter_cons. unfold targets, sample_chains.
      cbn [fr_chain mt_manager mt_runner].
      assert (forall p, commands (mkIPTablesManager true true) (NewFwRule Input IPv4 p 0)
                = [iptablesCommand]) as Hc by done.
      case_bool_decide as Heq.
      * rewrite decide_True by (rewrite Hc; set_solver). split; [|split].
        -- change (StronglySorted Z.ge [0]). repeat constructor.
        -- constructor; [|constructor]. split; [by repeat split|]. split; [reflexivity|cbn; lia].
        -- vm_compute. apply perm_swap.
      * rewrite decide_False by (rewrite Hc; set_solver). split; [constructor|]. by split; [constructor|].
Defined.
