(* ===== verification/FirewallManager.v ===== *)
(** * FirewallManager: rules of the kill switch, the allowlist and the peers

    Models [daemon/firewall/firewall_manager.go]: the manager writes prioritised
    rules through the iptables manager and remembers them, so that it can delete
    them again.  It is proved against the interface [LawfulRuleTable] the
    iptables manager promises (file IPTablesManager).  What the device listing
    returns is an argument of the operations that call it.

    [sort.Ints] in [portsToPortRanges] also sorts the caller's slice; the callers
    own the slices they pass, so only the sorted values are modelled. *)

From stdpp Require Import base option list strings gmap fin_maps.
From Stdlib Require Import ZArith Lia.
From S2P Require Import Prelude GoLib Mesh Firewall IPTables IPTablesManager.
Set Warnings "-clear-no-such-hyp".

Open Scope Z_scope.
Open Scope go_scope.

Definition ErrRuleAlreadyActive : string := "rule is already active".
Definition ErrRuleNotActive : string := "rule does not exist".

(** [iptablesmanager.RulePriority] constants. *)
Definition TrafficBlock : Z := 0.
Definition ApiAllowlistMark : Z := 1.
Definition ApiAllowlistOutputConnmark : Z := 2.
Definition UserAllowlist : Z := 3.
Definition MeshnetFileshare : Z := 4.
Definition MeshnetIncoming : Z := 5.
Definition MeshnetBlockIncomingLAN : Z := 6.

Record meshIncomingRule : Type := mkMeshIncomingRule {
  allowIncomingRule : FwRule;
  blockLocalRules : list FwRule
}.

Record FirewallManager (T : Type) : Type := mkFirewallManager {
  fm_iptablesManager : T;
  fm_allowlistRules : list FwRule;
  fm_trafficBlockRules : slice FwRule;
  fm_apiAllowlistRules : list FwRule;
  fm_allowIncomingRules : gmap string meshIncomingRule;
  fm_fileshareRules : gmap string FwRule;
  fm_connmark : Z
}.
Arguments mkFirewallManager {T} _ _ _ _ _ _ _.
Arguments fm_iptablesManager {T} _.
Arguments fm_allowlistRules {T} _.
Arguments fm_trafficBlockRules {T} _.
Arguments fm_apiAllowlistRules {T} _.
Arguments fm_allowIncomingRules {T} _.
Arguments fm_fileshareRules {T} _.
Arguments fm_connmark {T} _.

#[export] Instance FirewallManager_eta {T} : EtaExpand (FirewallManager T) := fun f =>
  mkFirewallManager (fm_iptablesManager f) (fm_allowlistRules f) (fm_trafficBlockRules f)
    (fm_apiAllowlistRules f) (fm_allowIncomingRules f) (fm_fileshareRules f) (fm_connmark f).

Definition NewFirewallManager {T} (iptables : T) (connmark : Z) : FirewallManager T :=
  mkFirewallManager iptables [] None [] ∅ ∅ connmark.

(** ** The rules *)

Definition lans : list string :=
  ["169.254.0.0/16"; "192.168.0.0/16"; "172.16.0.0/12"; "10.0.0.0/8"].

Definition block_lan_rule (peer : UniqueAddress) (lan : string) : FwRule :=
  NewFwRule Input IPv4
    ("-s " +:+ addr_String (ua_Address peer) +:+ "/32 -d " +:+ lan +:+ " -j DROP")
    MeshnetBlockIncomingLAN.

Definition allow_incoming_rule (peer : UniqueAddress) : FwRule :=
  NewFwRule Input IPv4 ("-s " +:+ addr_String (ua_Address peer) +:+ "/32 -j ACCEPT")
    MeshnetIncoming.

Definition fileshare_rule (peer : UniqueAddress) : FwRule :=
  NewFwRule Input IPv4
    ("-s " +:+ addr_String (ua_Address peer) +:+ "/32 -p tcp -m tcp --dport 49111 -j ACCEPT")
    MeshnetFileshare.

Definition block_input_rule (iface : Interface) : FwRule :=
  NewFwRule Input Both ("-i " +:+ if_name iface +:+ " -j DROP") TrafficBlock.

Definition block_output_rule (iface : Interface) : FwRule :=
  NewFwRule Output Both ("-o " +:+ if_name iface +:+ " -j DROP") TrafficBlock.

Definition port_rule (chain : iptablesChain) (ifaceFlag iface protocol portFlag : string)
    (portRange : PortRange) : FwRule :=
  NewFwRule chain Both
    (ifaceFlag +:+ " " +:+ iface +:+ " -p " +:+ protocol +:+ " -m " +:+ protocol +:+ " "
       +:+ portFlag +:+ " " +:+ itoa (pr_Min portRange) +:+ ":" +:+ itoa (pr_Max portRange)
       +:+ " -j ACCEPT")
    UserAllowlist.

Definition subnet_version (subnet : Prefix) : IpVersion :=
  if addr_Is6 (pfx_addr subnet) then IPv6 else IPv4.

Definition subnet_input_rule (subnet : Prefix) (iface : Interface) : FwRule :=
  NewFwRule Input (subnet_version subnet)
    ("-s " +:+ prefix_String subnet +:+ " -i " +:+ if_name iface +:+ " -j ACCEPT") UserAllowlist.

Definition subnet_output_rule (subnet : Prefix) (iface : Interface) : FwRule :=
  NewFwRule Output (subnet_version subnet)
    ("-d " +:+ prefix_String subnet +:+ " -o " +:+ if_name iface +:+ " -j ACCEPT") UserAllowlist.

Definition api_input_rule (connmark : Z) (iface : Interface) : FwRule :=
  NewFwRule Input Both
    ("-i " +:+ if_name iface +:+ " -m connmark --mark " +:+ itoa connmark +:+ " -j ACCEPT")
    ApiAllowlistMark.

Definition api_output_connmark_rule (connmark : Z) (iface : Interface) : FwRule :=
  NewFwRule Output Both
    ("-o " +:+ if_name iface +:+ " -m connmark --mark " +:+ itoa connmark +:+ " -j ACCEPT")
    ApiAllowlistOutputConnmark.

Definition api_output_rule (connmark : Z) (iface : Interface) : FwRule :=
  NewFwRule Output Both
    ("-o " +:+ if_name iface +:+ " -m mark --mark " +:+ itoa connmark
       +:+ " -j CONNMARK --save-mark --nfmask 0xffffffff --ctmask 0xffffffff")
    ApiAllowlistMark.

(** The same loop as in the iptables package. *)
Definition portsToPortRanges (ports : list Z) : list PortRange := PortsToPortRanges ports.

(** ** The operations *)

Section Manager.
Context {T : Type} `{RuleTable T}.
#[local] Abbreviation FM := (M (FirewallManager T)).

Definition on_table {A} (m : M T A) : FM A :=
  zoom fm_iptablesManager (fun t f => f <| fm_iptablesManager := t |>) m.

Definition insertRule (rule : FwRule) : FM unit := on_table (table_Insert rule).
Definition deleteRule (rule : FwRule) : FM unit := on_table (table_Delete rule).

Definition AllowIncoming (peer : UniqueAddress) (allowLocal : bool) : FM unit :=
  let! m := gets fm_allowIncomingRules in
  match m !! ua_UID peer with
  | Some _ => throw (Sentinel ErrRuleAlreadyActive)
  | None =>
      let blockLANRules := if allowLocal then [] else map (block_lan_rule peer) lans in
      forM_ blockLANRules (fun rule =>
        wrapped "blocking mesh peer from LAN access: " (insertRule rule) "") ;;
      let rule := allow_incoming_rule peer in
      wrapped "allowing incoming traffic for peer: " (insertRule rule) "" ;;
      modify (fun f => f <| fm_allowIncomingRules :=
        <[ua_UID peer := mkMeshIncomingRule rule blockLANRules]> (fm_allowIncomingRules f) |>)
  end.

Definition DenyIncoming (peerUID : string) : FM unit :=
  let! m := gets fm_allowIncomingRules in
  match m !! peerUID with
  | None => throw (Sentinel ErrRuleNotFound)
  | Some rule =>
      wrapped "removing allow incoming rule: " (deleteRule (allowIncomingRule rule)) "" ;;
      forM_ (blockLocalRules rule) (fun blockLANRule =>
        wrapped "removing block LAN rule: " (deleteRule blockLANRule) "") ;;
      modify (fun f => f <| fm_allowIncomingRules := delete peerUID (fm_allowIncomingRules f) |>)
  end.

Definition AllowFileshare (peer : UniqueAddress) : FM unit :=
  let! m := gets fm_fileshareRules in
  match m !! ua_UID peer with
  | Some _ => throw (Sentinel ErrRuleAlreadyActive)
  | None =>
      let rule := fileshare_rule peer in
      wrapped "adding allow fileshare rule: " (insertRule rule) "" ;;
      modify (fun f => f <| fm_fileshareRules := <[ua_UID peer := rule]> (fm_fileshareRules f) |>)
  end.

Definition DenyFileshare (peerUID : string) : FM unit :=
  let! m := gets fm_fileshareRules in
  match m !! peerUID with
  | None => throw (Sentinel ErrRuleNotActive)
  | Some rule =>
      wrapped "deleting fileshare rule: " (deleteRule rule) "" ;;
      modify (fun f => f <| fm_fileshareRules := delete peerUID (fm_fileshareRules f) |>)
  end.

Definition append_block (rule : FwRule) : FM unit :=
  modify (fun f => f <| fm_trafficBlockRules := sappend (fm_trafficBlockRules f) rule |>).

Definition BlockTraffic (devices : result (list Interface)) : FM unit :=
  let! block := gets fm_trafficBlockRules in
  if negb (is_nil block) then throw (Sentinel ErrRuleAlreadyActive)
  else match devices with
       | Err e => throw (Wrapf "listing interfaces: " e "")
       | Ok interfaces =>
           forM_ interfaces (fun iface =>
             wrapped "blocking input traffic: " (insertRule (block_input_rule iface)) "" ;;
             append_block (block_input_rule iface) ;;
             wrapped "blocking output traffic: " (insertRule (block_output_rule iface)) "" ;;
             append_block (block_output_rule iface))
       end.

Definition removeBlockTrafficRules : FM unit :=
  let! block := gets fm_trafficBlockRules in
  forM_ (elems block) (fun rule =>
    wrapped "unblocking input traffic: " (deleteRule rule) "").

Definition UnblockTraffic : FM unit :=
  let! block := gets fm_trafficBlockRules in
  if is_nil block then throw (Sentinel ErrRuleAlreadyActive)
  else
    wrapped "removing traffic block rules: " removeBlockTrafficRules "" ;;
    set! fm_trafficBlockRules := None.

Definition append_allowlist (rule : FwRule) : FM unit :=
  modify (fun f => f <| fm_allowlistRules := fm_allowlistRules f ++ [rule] |>).

Definition allowlistPort (rule : FwRule) : FM unit :=
  wrapped "allowlisting port: " (insertRule rule) "" ;;
  append_allowlist rule.

Definition allowlistPorts (iface protocol : string) (portRange : PortRange) : FM unit :=
  wrapped "allowlisting input dport: "
    (allowlistPort (port_rule Input "-i" iface protocol "--dport" portRange)) "" ;;
  wrapped "allowlisting input sport: "
    (allowlistPort (port_rule Input "-i" iface protocol "--sport" portRange)) "" ;;
  wrapped "allowlisting output dport: "
    (allowlistPort (port_rule Output "-o" iface protocol "--dport" portRange)) "" ;;
  wrapped "allowlisting output sport: "
    (allowlistPort (port_rule Output "-o" iface protocol "--sport" portRange)) "".

Definition allowlistSubnet (subnet : Prefix) (iface : Interface) : FM unit :=
  wrapped "adding input accept rule for subnet: "
    (insertRule (subnet_input_rule subnet iface)) "" ;;
  append_allowlist (subnet_input_rule subnet iface) ;;
  wrapped "adding output accept rule for subnet: "
    (insertRule (subnet_output_rule subnet iface)) "" ;;
  append_allowlist (subnet_output_rule subnet iface).

Definition SetAllowlist (devices : result (list Interface)) (udpPorts tcpPorts : list Z)
    (subnets : list Prefix) : FM unit :=
  match devices with
  | Err e => throw (Wrapf "listing interfaces: " e "")
  | Ok ifaces =>
      forM_ subnets (fun subnet => forM_ ifaces (allowlistSubnet subnet)) ;;
      forM_ (portsToPortRanges udpPorts) (fun portRange =>
        forM_ ifaces (fun iface =>
          wrapped "allowlisting udp ports: "
            (allowlistPorts (if_name iface) "udp" portRange) "")) ;;
      forM_ (portsToPortRanges tcpPorts) (fun portRange =>
        forM_ ifaces (fun iface =>
          wrapped "allowlisting tcp ports: "
            (allowlistPorts (if_name iface) "tcp" portRange) ""))
  end.

Definition UnsetAllowlist : FM unit :=
  let! rules := gets fm_allowlistRules in
  forM_ rules (fun rule => wrapped "removing allowlist rule: " (deleteRule rule) "") ;;
  set! fm_allowlistRules := [].

Definition append_api (rule : FwRule) : FM unit :=
  modify (fun f => f <| fm_apiAllowlistRules := fm_apiAllowlistRules f ++ [rule] |>).

Definition APIAllowlist (devices : result (list Interface)) : FM unit :=
  match devices with
  | Err e => throw (Wrapf "listing interfaces: " e "")
  | Ok ifaces =>
      let! connmark := gets fm_connmark in
      forM_ ifaces (fun iface =>
        wrapped "adding api allowlist INPUT rule: " (insertRule (api_input_rule connmark iface)) "" ;;
        append_api (api_input_rule connmark iface) ;;
        wrapped "adding api allowlist OUTPUT rule: "
          (insertRule (api_output_connmark_rule connmark iface)) "" ;;
        append_api (api_output_connmark_rule connmark iface) ;;
        wrapped "adding api allowlist OUTPUT rule: " (insertRule (api_output_rule connmark iface)) "" ;;
        append_api (api_output_rule connmark iface))
  end.

Definition APIDenylist : FM unit :=
  let! rules := gets fm_apiAllowlistRules in
  forM_ rules (fun rule => wrapped "removing api allowlist rule: " (deleteRule rule) "") ;;
  set! fm_apiAllowlistRules := [].
End Manager.

(** ** Operations as data *)

Inductive FmOp : Type :=
| FmAllowIncoming (peer : UniqueAddress) (allowLocal : bool)
| FmDenyIncoming (peerUID : string)
| FmAllowFileshare (peer : UniqueAddress)
| FmDenyFileshare (peerUID : string)
| FmBlockTraffic (devices : result (list Interface))
| FmUnblockTraffic
| FmSetAllowlist (devices : result (list Interface)) (udpPorts tcpPorts : list Z)
    (subnets : list Prefix)
| FmUnsetAllowlist
| FmAPIAllowlist (devices : result (list Interface))
| FmAPIDenylist.

Definition exec_fm {T} `{RuleTable T} (o : FmOp) : M (FirewallManager T) unit :=
  match o with
  | FmAllowIncoming peer allowLocal => AllowIncoming peer allowLocal
  | FmDenyIncoming uid => DenyIncoming uid
  | FmAllowFileshare peer => AllowFileshare peer
  | FmDenyFileshare uid => DenyFileshare uid
  | FmBlockTraffic devices => BlockTraffic devices
  | FmUnblockTraffic => UnblockTraffic
  | FmSetAllowlist devices udp tcp subnets => SetAllowlist devices udp tcp subnets
  | FmUnsetAllowlist => UnsetAllowlist
  | FmAPIAllowlist devices => APIAllowlist devices
  | FmAPIDenylist => APIDenylist
  end.

Definition devices_of (devices : result (list Interface)) : list Interface :=
  match devices with Ok l => l | Err _ => [] end.

Definition port_rules (iface : Interface) (protocol : string) (r : PortRange) : list FwRule :=
  [port_rule Input "-i" (if_name iface) protocol "--dport" r;
   port_rule Input "-i" (if_name iface) protocol "--sport" r;
   port_rule Output "-o" (if_name iface) protocol "--dport" r;
   port_rule Output "-o" (if_name iface) protocol "--sport" r].

(** The rules an operation may insert. *)
Definition op_rules (connmark : Z) (o : FmOp) : list FwRule :=
  match o with
  | FmAllowIncoming peer allowLocal =>
      allow_incoming_rule peer :: (if allowLocal then [] else map (block_lan_rule peer) lans)
  | FmAllowFileshare peer => [fileshare_rule peer]
  | FmBlockTraffic devices =>
      iface ← devices_of devices; [block_input_rule iface; block_output_rule iface]
  | FmSetAllowlist devices udp tcp subnets =>
      (subnet ← subnets; iface ← devices_of devices;
       [subnet_input_rule subnet iface; subnet_output_rule subnet iface]) ++
      (r ← portsToPortRanges udp; iface ← devices_of devices; port_rules iface "udp" r) ++
      (r ← portsToPortRanges tcp; iface ← devices_of devices; port_rules iface "tcp" r)
  | FmAPIAllowlist devices =>
      iface ← devices_of devices;
      [api_input_rule connmark iface; api_output_connmark_rule connmark iface;
       api_output_rule connmark iface]
  | _ => []
  end.

(** ** What is remembered is what is installed *)

Definition incoming_rules (m : gmap string meshIncomingRule) : list FwRule :=
  kv ← map_to_list m; allowIncomingRule kv.2 :: blockLocalRules kv.2.

Definition tracked {T} (f : FirewallManager T) : list FwRule :=
  fm_allowlistRules f ++ elems (fm_trafficBlockRules f) ++ fm_apiAllowlistRules f ++
  incoming_rules (fm_allowIncomingRules f) ++ (map_to_list (fm_fileshareRules f)).*2.

Section Tracking.
Context {T : Type} `{RuleTable T} (valid : FwRule -> Prop) (R : T -> list FwRule -> Prop)
  `{HT : !LawfulRuleTable T valid R}.
Implicit Types f : FirewallManager T.

Definition tracking (connmark : Z) f : Prop :=
  R (fm_iptablesManager f) (tracked f) /\ fm_connmark f = connmark.

Lemma insertRule_run f r l :
  valid r -> R (fm_iptablesManager f) l ->
  exists t, insertRule r f = (Ok tt, f <| fm_iptablesManager := t |>) /\ R t (r :: l).
Proof.
  intros Hv HR. destruct (lawful_Insert (LawfulRuleTable := HT) _ _ r Hv HR) as (t & Ht & HR').
  exists t. split; [|done]. unfold insertRule, on_table, zoom. by rewrite Ht.
Qed.

Lemma deleteRule_run f r l :
  R (fm_iptablesManager f) (r :: l) ->
  exists t, deleteRule r f = (Ok tt, f <| fm_iptablesManager := t |>) /\ R t l.
Proof.
  intros HR. destruct (lawful_table_Delete (LawfulRuleTable := HT) _ _ r HR) as (t & Ht & HR').
  exists t. split; [|done]. unfold deleteRule, on_table, zoom. by rewrite Ht.
Qed.

Lemma insert_each p f rs l :
  Forall valid rs -> R (fm_iptablesManager f) l ->
  exists t, forM_ rs (fun r => wrapped p (insertRule r) "") f =
              (Ok tt, f <| fm_iptablesManager := t |>) /\ R t (rs ++ l).
Proof.
  intros Hv. revert f l. induction Hv as [|r rs Hr _ IH]; intros f l HR.
  { exists (fm_iptablesManager f). by destruct f. }
  destruct (insertRule_run f r l Hr HR) as (t & Ht & HRt).
  destruct (IH (f <| fm_iptablesManager := t |>) (r :: l)) as (t' & Ht' & HR'); [exact HRt|].
  exists t'. split; [cbn [forM_]; go_run; exact Ht'|].
  eapply (table_perm (LawfulRuleTable := HT)), HR'. symmetry. apply Permutation_middle.
Qed.

Lemma delete_each p f rs l :
  R (fm_iptablesManager f) (rs ++ l) ->
  exists t, forM_ rs (fun r => wrapped p (deleteRule r) "") f =
              (Ok tt, f <| fm_iptablesManager := t |>) /\ R t l.
Proof.
  revert f. induction rs as [|r rs IH]; intros f HR.
  { exists (fm_iptablesManager f). by destruct f. }
  destruct (deleteRule_run f r _ HR) as (t & Ht & HRt).
  destruct (IH (f <| fm_iptablesManager := t |>)) as (t' & Ht' & HR'); [exact HRt|].
  exists t'. split; [cbn [forM_]; go_run; exact Ht'|done].
Qed.

(** Inserting a rule and remembering it. *)
Lemma insert_and_track c p r (upd : FirewallManager T -> FirewallManager T) :
  valid r ->
  (forall f, tracked (upd f) ≡ₚ r :: tracked f) ->
  (forall f, fm_iptablesManager (upd f) = fm_iptablesManager f) ->
  (forall f, fm_connmark (upd f) = fm_connmark f) ->
  preserves (tracking c) (wrapped p (insertRule r) "" ;; modify upd).
Proof.
  intros Hv Htr Htab Hcm f [HR Hc]. destruct (insertRule_run f r _ Hv HR) as (t & Ht & HRt).
  go_run. unfold modify. cbn [snd]. split; [|by rewrite Hcm].
  rewrite Htab. eapply (table_perm (LawfulRuleTable := HT)), HRt. by rewrite Htr.
Qed.

Lemma insert_and_track_then c p r upd (rest : M (FirewallManager T) unit) :
  preserves (tracking c) (wrapped p (insertRule r) "" ;; modify upd) ->
  preserves (tracking c) rest ->
  preserves (tracking c) (wrapped p (insertRule r) "" ;; modify upd ;; rest).
Proof.
  intros H1 H2 f Hf. rewrite <- bind_assoc. by apply (preserves_bind _ _ (fun _ => rest)).
Qed.

Lemma track_allowlist c p r :
  valid r -> preserves (tracking c) (wrapped p (insertRule r) "" ;; append_allowlist r).
Proof.
  intros Hv. apply insert_and_track; [done| |done|done]. intros f. unfold tracked. cbn.
  rewrite <- (assoc_L (++)). cbn [app]. by rewrite <- Permutation_middle.
Qed.

Lemma track_block c p r :
  valid r -> preserves (tracking c) (wrapped p (insertRule r) "" ;; append_block r).
Proof.
  intros Hv. apply insert_and_track; [done| |done|done]. intros f. unfold tracked. cbn.
  rewrite <- (assoc_L (++)). cbn [app]. by rewrite <- !Permutation_middle.
Qed.

Lemma track_api c p r :
  valid r -> preserves (tracking c) (wrapped p (insertRule r) "" ;; append_api r).
Proof.
  intros Hv. apply insert_and_track; [done| |done|done]. intros f. unfold tracked. cbn.
  rewrite <- (assoc_L (++)). cbn [app]. by rewrite <- !Permutation_middle.
Qed.

Lemma allowlistPort_tracking c r : valid r -> preserves (tracking c) (allowlistPort r).
Proof. apply track_allowlist. Qed.

Lemma Forall_bind_in {A} (Q : FwRule -> Prop) (g : A -> list FwRule) l x :
  Forall Q (l ≫= g) -> x ∈ l -> Forall Q (g x).
Proof.
  rewrite !Forall_forall. intros HQ Hx y Hy. apply HQ. apply list_elem_of_bind. eauto.
Qed.

Lemma allowlistPorts_tracking c iface protocol r :
  Forall valid (port_rules iface protocol r) ->
  preserves (tracking c) (allowlistPorts (if_name iface) protocol r).
Proof.
  intros Hv. unfold port_rules in Hv. rewrite !Forall_cons in Hv.
  destruct Hv as (? & ? & ? & ? & _). unfold allowlistPorts.
  repeat pres_step; by apply allowlistPort_tracking.
Qed.

Lemma SetAllowlist_tracking c devices udp tcp subnets :
  Forall valid (op_rules c (FmSetAllowlist devices udp tcp subnets)) ->
  preserves (tracking c) (SetAllowlist devices udp tcp subnets).
Proof.
  intros Hv. unfold SetAllowlist. destruct devices as [ifaces|e]; [|apply preserves_throw].
  cbn [op_rules devices_of] in Hv. rewrite !Forall_app in Hv. destruct Hv as (Hs & Hu & Ht).
  apply preserves_bind; [|intros _; apply preserves_bind; [|intros _]];
    apply preserves_forM_in; intros x Hx; apply preserves_forM_in; intros iface Hi.
  - pose proof (Forall_bind_in _ _ _ _ (Forall_bind_in _ _ _ _ Hs Hx) Hi) as Hv.
    rewrite !Forall_cons in Hv. destruct Hv as (? & ? & _).
    apply insert_and_track_then; by apply track_allowlist.
  - apply preserves_wrapped, allowlistPorts_tracking.
    exact (Forall_bind_in _ _ _ _ (Forall_bind_in _ _ _ _ Hu Hx) Hi).
  - apply preserves_wrapped, allowlistPorts_tracking.
    exact (Forall_bind_in _ _ _ _ (Forall_bind_in _ _ _ _ Ht Hx) Hi).
Qed.

Lemma BlockTraffic_tracking c devices :
  Forall valid (op_rules c (FmBlockTraffic devices)) ->
  preserves (tracking c) (BlockTraffic devices).
Proof.
  intros Hv. unfold BlockTraffic. apply preserves_bind; [apply preserves_gets|]. intros block.
  destruct (is_nil block); [|apply preserves_throw]. cbn [negb].
  destruct devices as [ifaces|e]; [|apply preserves_throw].
  apply preserves_forM_in. intros iface Hi.
  pose proof (Forall_bind_in _ _ _ _ Hv Hi) as Hv'. rewrite !Forall_cons in Hv'.
  destruct Hv' as (? & ? & _). apply insert_and_track_then; by apply track_block.
Qed.

Lemma APIAllowlist_tracking c devices :
  Forall valid (op_rules c (FmAPIAllowlist devices)) ->
  preserves (tracking c) (APIAllowlist devices).
Proof.
  intros Hv f Hf. unfold APIAllowlist. destruct devices as [ifaces|e]; [|by apply preserves_throw].
  rewrite bind_gets. pose proof Hf as [_ ->]. revert f Hf.
  apply preserves_forM_in. intros iface Hi.
  pose proof (Forall_bind_in _ _ _ _ Hv Hi) as Hv'. rewrite !Forall_cons in Hv'.
  destruct Hv' as (? & ? & ? & _).
  apply insert_and_track_then; [by apply track_api|].
  apply insert_and_track_then; by apply track_api.
Qed.

(** Deleting a group of remembered rules and forgetting it. *)
Lemma delete_and_forget c p f rs (upd : FirewallManager T -> FirewallManager T) :
  tracking c f ->
  tracked f ≡ₚ rs ++ tracked (upd f) ->
  (forall t, upd (f <| fm_iptablesManager := t |>) = (upd f) <| fm_iptablesManager := t |>) ->
  fm_connmark (upd f) = fm_connmark f ->
  exists t, forM_ rs (fun r => wrapped p (deleteRule r) "") f =
              (Ok tt, f <| fm_iptablesManager := t |>) /\
            tracking c (upd (f <| fm_iptablesManager := t |>)).
Proof.
  intros [HR Hc] Htr Hupd Hcm.
  destruct (delete_each p f rs (tracked (upd f))) as (t & Ht & HRt).
  { eapply (table_perm (LawfulRuleTable := HT)), HR. done. }
  exists t. split; [exact Ht|]. rewrite (Hupd t). split; [exact HRt|exact (eq_trans Hcm Hc)].
Qed.

Lemma UnsetAllowlist_tracking c : preserves (tracking c) UnsetAllowlist.
Proof.
  intros f Hf. unfold UnsetAllowlist. rewrite bind_gets.
  destruct (delete_and_forget c "removing allowlist rule: " f (fm_allowlistRules f)
    (fun f => f <| fm_allowlistRules := [] |>) Hf) as (t & Ht & HR); [done..|].
  go_run. exact HR.
Qed.

Lemma APIDenylist_tracking c : preserves (tracking c) APIDenylist.
Proof.
  intros f Hf. unfold APIDenylist. rewrite bind_gets.
  destruct (delete_and_forget c "removing api allowlist rule: " f (fm_apiAllowlistRules f)
    (fun f => f <| fm_apiAllowlistRules := [] |>) Hf) as (t & Ht & HR); [|done..|].
  { unfold tracked. cbn. solve_Permutation. }
  go_run. exact HR.
Qed.

Lemma UnblockTraffic_tracking c : preserves (tracking c) UnblockTraffic.
Proof.
  intros f Hf. unfold UnblockTraffic. rewrite bind_gets.
  destruct (is_nil (fm_trafficBlockRules f)); [exact Hf|].
  destruct (delete_and_forget c "unblocking input traffic: " f (elems (fm_trafficBlockRules f))
    (fun f => f <| fm_trafficBlockRules := None |>) Hf) as (t & Ht & HR); [|done..|].
  { unfold tracked. cbn. solve_Permutation. }
  assert (removeBlockTrafficRules f = (Ok tt, f <| fm_iptablesManager := t |>)) as Hrm.
  { unfold removeBlockTrafficRules. by rewrite bind_gets. }
  go_run. exact HR.
Qed.

Lemma incoming_rules_insert m uid r :
  m !! uid = None ->
  incoming_rules (<[uid := r]> m) ≡ₚ
    (allowIncomingRule r :: blockLocalRules r) ++ incoming_rules m.
Proof. intros Hm. unfold incoming_rules. by rewrite map_to_list_insert. Qed.

Lemma incoming_rules_delete m uid r :
  m !! uid = Some r ->
  incoming_rules m ≡ₚ
    (allowIncomingRule r :: blockLocalRules r) ++ incoming_rules (delete uid m).
Proof. intros Hm. unfold incoming_rules. by rewrite <- (map_to_list_delete m uid r Hm). Qed.

Lemma AllowIncoming_tracking c peer allowLocal :
  Forall valid (op_rules c (FmAllowIncoming peer allowLocal)) ->
  preserves (tracking c) (AllowIncoming peer allowLocal).
Proof.
  intros [Hv Hvs]%Forall_cons f [HR Hc]. unfold AllowIncoming. rewrite bind_gets.
  destruct (fm_allowIncomingRules f !! ua_UID peer) eqn:Hm; [done|].
  set (blocks := if allowLocal then [] else _) in *.
  destruct (insert_each "blocking mesh peer from LAN access: " f blocks _ Hvs HR)
    as (t & Ht & HRt).
  edestruct (insertRule_run (f <| fm_iptablesManager := t |>)) as (t' & Ht' & HRt');
    [exact Hv|exact HRt|].
  go_run. split; [|exact Hc].
  eapply (table_perm (LawfulRuleTable := HT)), HRt'. unfold tracked. cbn.
  rewrite incoming_rules_insert by exact Hm. cbn. solve_Permutation.
Qed.

Lemma DenyIncoming_tracking c uid : preserves (tracking c) (DenyIncoming uid).
Proof.
  intros f Hf. unfold DenyIncoming. rewrite bind_gets.
  destruct (fm_allowIncomingRules f !! uid) as [r|] eqn:Hm; [|exact Hf].
  pose proof Hf as [HR Hc]. pose proof (incoming_rules_delete _ _ _ Hm) as Hp.
  set (rest := tracked (f <| fm_allowIncomingRules := delete uid (fm_allowIncomingRules f) |>)).
  destruct (deleteRule_run f (allowIncomingRule r) (blockLocalRules r ++ rest))
    as (t & Ht & HRt).
  { eapply (table_perm (LawfulRuleTable := HT)), HR. unfold rest, tracked. cbn.
    rewrite Hp. solve_Permutation. }
  edestruct (delete_each "removing block LAN rule: " (f <| fm_iptablesManager := t |>))
    as (t' & Ht' & HRt'); [exact HRt|].
  go_run. split; [exact HRt'|exact Hc].
Qed.

Lemma AllowFileshare_tracking c peer :
  Forall valid (op_rules c (FmAllowFileshare peer)) ->
  preserves (tracking c) (AllowFileshare peer).
Proof.
  intros [Hv _]%Forall_cons f [HR Hc]. unfold AllowFileshare. rewrite bind_gets.
  destruct (fm_fileshareRules f !! ua_UID peer) eqn:Hm; [done|].
  destruct (insertRule_run f _ _ Hv HR) as (t & Ht & HRt). go_run.
  split; [|exact Hc].
  eapply (table_perm (LawfulRuleTable := HT)), HRt. unfold tracked. cbn.
  rewrite map_to_list_insert by exact Hm. cbn. solve_Permutation.
Qed.

Lemma DenyFileshare_tracking c uid : preserves (tracking c) (DenyFileshare uid).
Proof.
  intros f Hf. unfold DenyFileshare. rewrite bind_gets.
  destruct (fm_fileshareRules f !! uid) as [r|] eqn:Hm; [|exact Hf].
  pose proof Hf as [HR Hc].
  destruct (deleteRule_run f r
    (tracked (f <| fm_fileshareRules := delete uid (fm_fileshareRules f) |>))) as (t & Ht & HRt).
  { eapply (table_perm (LawfulRuleTable := HT)), HR. unfold tracked. cbn.
    rewrite <- (map_to_list_delete (fm_fileshareRules f) uid r Hm) at 1. cbn. solve_Permutation. }
  go_run. split; [exact HRt|exact Hc].
Qed.

Lemma exec_fm_tracking c o :
  Forall valid (op_rules c o) -> preserves (tracking c) (exec_fm o).
Proof.
  destruct o; intros Hv; cbn [exec_fm];
    eauto using AllowIncoming_tracking, DenyIncoming_tracking, AllowFileshare_tracking,
      DenyFileshare_tracking, BlockTraffic_tracking, UnblockTraffic_tracking,
      SetAllowlist_tracking, UnsetAllowlist_tracking, APIAllowlist_tracking,
      APIDenylist_tracking.
Qed.

Lemma run_ops_tracking c ops f :
  Forall (fun o => Forall valid (op_rules c o)) ops ->
  tracking c f -> tracking c (run_ops exec_fm ops f).
Proof.
  intros Hv. revert f. induction Hv as [|o ops Ho _ IH]; intros f Hf; [done|].
  cbn. by apply IH, exec_fm_tracking.
Qed.
End Tracking.

(** ** Properties *)

(** C8: for any sequence of operations of the firewall manager (block, allowlist,
    API allowlist, peers and file sharing, in any order, with any interface
    listing), run on an [iptables] that behaves as documented and whose chains
    held no nordvpn rule, every chain of [iptables] and [ip6tables] holds exactly
    the rules the manager remembers for it, ordered by priority, and the foreign
    rules of every chain are the rules it held at the start, in their order. *)
Theorem firewall_manager_tracks_chains {K E} `{CommandRunner K, EqDecision E}
    (entries : K -> string -> iptablesChain -> list E) (entry : FwRule -> E)
    (show : E -> string) (valid : FwRule -> Prop)
    `{!LawfulRunner K E entries entry show valid}
    (i : IPTablesManager) (k : K) (connmark : Z) (ops : list FmOp) :
  Forall (fun o => Forall valid (op_rules connmark o)) ops ->
  (forall cmd ch, Forall (foreign (show := show)) (entries k cmd ch)) ->
  let f := run_ops exec_fm ops (NewFirewallManager (mkManagedTables i k) connmark) in
  tables_hold (entries := entries) (entry := entry) (show := show) (valid := valid)
    (fm_iptablesManager f) (tracked f) /\
  forall cmd ch, foreign_entries (entries := entries) (show := show)
                   (mt_runner (fm_iptablesManager f)) cmd ch = entries k cmd ch.
Proof.
  intros Hv Hf f.
  assert (forall cmd ch, foreign_entries (entries := entries) (show := show) k cmd ch
            = entries k cmd ch) as Hall.
  { intros cmd ch. apply filter_foreign, Hf. }
  eapply (run_ops_tracking valid (tables_hold_beside (entries k)) connmark ops); [exact Hv|].
  split; [|done]. split; [|exact Hall]. split; [constructor|]. intros cmd ch. cbn. split.
  - unfold by_priority. rewrite (omap_None_foreign (show := show)); [constructor|apply Hf].
  - split; [constructor|].
    change (entries k cmd ch ≡ₚ foreign_entries (entries := entries) (show := show) k cmd ch).
    by rewrite Hall.
Qed.

Definition sample_chains0 : Chains := fun cmd ch =>
  if bool_decide (cmd = iptablesCommand /\ ch = Input) then ["-s 1.1.1.1 -j DROP"] else [].

Definition sample_iface : Interface := mkInterface 2 1500 "eth0" "" 0.

Definition sample_fm_ops : list FmOp :=
  [FmBlockTraffic (Ok [sample_iface]);
   FmAllowIncoming (mkUniqueAddress "peer" (AddrV4 (v4 100 64 0 2))) true;
   FmSetAllowlist (Ok [sample_iface]) [] [443; 442] [];
   FmUnsetAllowlist; FmUnblockTraffic; FmDenyFileshare "peer"].

Ltac solve_plain := split; [by repeat split|split; [reflexivity|cbn; lia]].

Lemma firewall_manager_tracks_chains_witness :
  let f := run_ops exec_fm sample_fm_ops
    (NewFirewallManager (mkManagedTables (mkIPTablesManager true true) sample_chains0) 57841) in
  (tables_hold (entries := fun k : Chains => k) (entry := rule_text) (show := printed)
     (valid := plain_rule) (fm_iptablesManager f) (tracked f) /\
   forall cmd ch, foreign_entries (entries := fun k : Chains => k) (show := printed)
                    (mt_runner (fm_iptablesManager f)) cmd ch = sample_chains0 cmd ch) /\
  tracked f = [allow_incoming_rule (mkUniqueAddress "peer" (AddrV4 (v4 100 64 0 2)))].
Proof.
  split; [|vm_compute; reflexivity].
  apply (firewall_manager_tracks_chains (fun k => k) rule_text printed plain_rule
           (mkIPTablesManager true true) sample_chains0 57841 sample_fm_ops).
  - repeat match goal with |- Forall _ (_ :: _) => constructor | |- Forall _ [] => constructor end;
      cbn; repeat (apply Forall_cons; split); try apply Forall_nil; try done; solve_plain.
  - intros cmd ch. unfold sample_chains0. case_bool_decide; repeat constructor.
Defined.
