(* ===== verification/Networker.v ===== *)
(** * Networker: the network state of the daemon

    Models [networker/networker.go], [networker/vpn.go], [networker/listener.go]
    and [networker/allowlist_lan.go]: the object that connects, reconnects and
    disconnects the VPN, sets and unsets the meshnet, and keeps the kill switch
    and the allowlist in the firewall.

    The firewall service is the one of file Firewall, over any agent.  The other
    collaborators (VPN, mesh, DNS, routers, exit node, device listing, clock)
    are the class [Collaborators]: operations on an opaque environment [W] that
    may succeed or fail in any way.  A Go [range] over a map is also answered by
    the environment, which chooses the order of every loop.

    The mutex makes every exported method atomic; publishing and logging are
    left out.  Where the code reads the interface of a nil tunnel it panics; the
    model reads the zero interface there. *)

From stdpp Require Import base option list strings gmap.
From Stdlib Require Import ZArith Lia.
From S2P Require Import Prelude GoLib Config Mesh Firewall.
Set Warnings "-clear-no-such-hyp".

Open Scope Z_scope.
Open Scope go_scope.

(** ** Data *)

Definition errNilVPN : string := "vpn is nil".
Definition errInactiveVPN : string := "not connected to vpn".
Definition ErrMeshNotActive : string := "mesh is not active".
Definition ErrTunnelClosed : string := "tunnel was closed".

(** [netip.MustParsePrefix("100.64.0.0/10")] and the private ranges. *)
Definition defaultMeshSubnet : Prefix := mkPrefix (AddrV4 (v4 100 64 0 0)) 10.
Definition privateSubnets : list Prefix :=
  [mkPrefix (AddrV4 (v4 10 0 0 0)) 8; mkPrefix (AddrV4 (v4 172 16 0 0)) 12;
   mkPrefix (AddrV4 (v4 192 168 0 0)) 16; mkPrefix (AddrV4 (v4 169 254 0 0)) 16].

Definition allowIncomingRule : string := "-allow-rule-".
Definition blockLanRule : string := "-block-lan-rule-".

Record ServerData : Type := mkServerData {
  sd_IP : Addr;
  sd_Hostname : string;
  sd_Name : string;
  sd_Country : string;
  sd_City : string;
  sd_Protocol : Z;
  sd_NordLynxPublicKey : string;
  sd_Obfuscated : bool;
  sd_OpenVPNVersion : string;
  sd_VirtualLocation : bool;
  sd_PostQuantum : bool
}.

Definition zero_server : ServerData :=
  mkServerData AddrInvalid "" "" "" "" 0 "" false "" false false.

Record Credentials : Type := mkCredentials {
  cr_OpenVPNUsername : string;
  cr_OpenVPNPassword : string;
  cr_NordLynxPrivateKey : string
}.

(** [tunnel.T]: its interface and addresses. *)
Record Tunnel : Type := mkTunnel { tun_Interface : Interface; tun_IPs : list Addr }.

Record Route : Type := mkRoute {
  rt_Gateway : Addr;
  rt_Subnet : Prefix;
  rt_Device : Interface;
  rt_TableID : Z
}.

(** [dns.Host]. *)
Record Host : Type := mkHost { h_IP : Addr; h_FQDN : string; h_DomainNames : list string }.

Record ConnectionStatus : Type := mkConnectionStatus {
  st_Technology : Technology;
  st_Protocol : Z;
  st_IP : Addr;
  st_Name : string;
  st_Hostname : string;
  st_Country : string;
  st_City : string;
  st_Download : Z;
  st_Upload : Z;
  st_Uptime : option Z;
  st_VirtualLocation : bool
}.

(** VPN objects are references, so that [SetVPN] can exchange them. *)
Abbreviation VpnRef := nat.

Inductive RouterRef : Type := AllowlistRouter | DefaultRouter | PeerRouter.

(** ** Collaborators *)

Class Collaborators (W : Type) : Type := {
  vpn_Start : VpnRef -> Credentials -> ServerData -> M W unit;
  vpn_Stop : VpnRef -> M W unit;
  vpn_NetworkChanged : VpnRef -> M W unit;
  vpn_TransferRates : VpnRef -> M W (Z * Z);
  vpn_Tun : VpnRef -> W -> option Tunnel;
  vpn_IsActive : VpnRef -> W -> bool;
  mesh_Enable : Addr -> string -> M W unit;
  mesh_Disable : M W unit;
  mesh_Refresh : MachineMap -> M W unit;
  mesh_NetworkChanged : M W unit;
  mesh_StatusMap : M W (gmap string string);
  mesh_IsActive : W -> bool;
  mesh_Tun : W -> option Tunnel;
  mesh_as_vpn : W -> option VpnRef;
  dns_Set : string -> list string -> M W unit;
  dns_Unset : string -> M W unit;
  hosts_Set : list Host -> M W unit;
  hosts_Unset : M W unit;
  ipv6_Block : M W unit;
  ipv6_Unblock : M W unit;
  (** [EnablePorts] sorts the slice it is given: its contents afterwards. *)
  allowlist_EnablePorts : list Z -> string -> string -> M W (list Z);
  allowlist_Disable : M W unit;
  router_Add : RouterRef -> Route -> M W unit;
  router_Flush : RouterRef -> M W unit;
  router_Enable : RouterRef -> Z -> M W unit;
  router_Disable : RouterRef -> M W unit;
  policy_SetupRoutingRules : bool -> bool -> bool -> list string -> M W unit;
  policy_CleanupRouting : M W unit;
  policy_TableID : W -> Z;
  policy_Enable : M W unit;
  policy_Disable : M W unit;
  exit_Enable : M W unit;
  exit_Disable : M W unit;
  exit_ResetPeers : list MachinePeer -> bool -> bool -> M W unit;
  exit_ResetFirewall : bool -> bool -> M W unit;
  exit_SetAllowlist : Allowlist -> bool -> M W unit;
  list_devices : M W (list Interface);
  InterfacesWithDefaultRoute : gset string -> W -> gset string;
  time_Now : W -> Z;
  range_subnets : Subnets -> M W (list string);
  range_ports : PortSet -> M W (list Z)
}.

(** ** State *)

Record Combined (W A : Type) : Type := mkCombined {
  nw_world : W;
  nw_fw : Firewall A;
  nw_vpnet : option VpnRef;
  nw_isNetworkSet : bool;
  nw_isKillSwitchSet : bool;
  nw_isV6TrafficAllowed : bool;
  nw_isVpnSet : bool;
  nw_isMeshnetSet : bool;
  nw_rules : list string;
  nw_nextVPN : option VpnRef;
  nw_cfg : MachineMap;
  nw_allowlist : Allowlist;
  nw_lastServer : ServerData;
  nw_lastCreds : Credentials;
  nw_startTime : option Z;
  nw_lastNameservers : list string;
  nw_lastPrivateKey : string;
  nw_ipv6Enabled : bool;
  nw_fwmark : Z;
  nw_lanDiscovery : bool;
  nw_enableLocalTraffic : bool;
  nw_interfaces : gset string
}.
Arguments mkCombined {W A} _ _ _ _ _ _ _ _ _ _ _ _ _ _ _ _ _ _ _ _ _ _.
Arguments nw_world {W A} _.
Arguments nw_fw {W A} _.
Arguments nw_vpnet {W A} _.
Arguments nw_isNetworkSet {W A} _.
Arguments nw_isKillSwitchSet {W A} _.
Arguments nw_isV6TrafficAllowed {W A} _.
Arguments nw_isVpnSet {W A} _.
Arguments nw_isMeshnetSet {W A} _.
Arguments nw_rules {W A} _.
Arguments nw_nextVPN {W A} _.
Arguments nw_cfg {W A} _.
Arguments nw_allowlist {W A} _.
Arguments nw_lastServer {W A} _.
Arguments nw_lastCreds {W A} _.
Arguments nw_startTime {W A} _.
Arguments nw_lastNameservers {W A} _.
Arguments nw_lastPrivateKey {W A} _.
Arguments nw_ipv6Enabled {W A} _.
Arguments nw_fwmark {W A} _.
Arguments nw_lanDiscovery {W A} _.
Arguments nw_enableLocalTraffic {W A} _.
Arguments nw_interfaces {W A} _.

#[export] Instance Combined_eta {W A} : EtaExpand (Combined W A) := fun n =>
  mkCombined (nw_world n) (nw_fw n) (nw_vpnet n) (nw_isNetworkSet n) (nw_isKillSwitchSet n)
    (nw_isV6TrafficAllowed n) (nw_isVpnSet n) (nw_isMeshnetSet n) (nw_rules n) (nw_nextVPN n)
    (nw_cfg n) (nw_allowlist n) (nw_lastServer n) (nw_lastCreds n) (nw_startTime n)
    (nw_lastNameservers n) (nw_lastPrivateKey n) (nw_ipv6Enabled n) (nw_fwmark n)
    (nw_lanDiscovery n) (nw_enableLocalTraffic n) (nw_interfaces n).

Definition NewCombined {W A} (world : W) (fw : Firewall A) (vpnet : option VpnRef) (fwmark : Z)
    (lanDiscovery : bool) : Combined W A :=
  mkCombined world fw vpnet false false false false false [] None zero_machine_map empty_allowlist
    zero_server (mkCredentials "" "" "") None [] "" false fwmark lanDiscovery true ∅.

(** ** Pure helpers *)

Definition localNetworks : list string :=
  ["10.0.0.0/8"; "172.16.0.0/12"; "192.168.0.0/16"; "169.254.0.0/16"].

(** The new map holds [true] for every key of the old one. *)
Definition addLANPermissions (a : Allowlist) : Allowlist :=
  mkAllowlist (al_Ports a) (set_all localNetworks ((fun _ => true) <$> al_Subnets a)).

(** Names of a machine or peer in the hosts file. *)
Definition host_of (address : Addr) (nickname hostname : string) : Host :=
  if bool_decide (nickname = "")
  then mkHost address hostname [trim_suffix hostname ".nord"]
  else mkHost address nickname [nickname +:+ ".nord"; hostname; trim_suffix hostname ".nord"].

Definition getHostsFromConfig (peers : list MachinePeer) : list Host :=
  map (fun p => host_of (p_Address p) (p_Nickname p) (p_Hostname p))
    (filter (fun p => addr_IsValid (p_Address p) = true) peers).

(** [(&dns.NameServers{}).Get(false, false)]. *)
Definition default_nameservers : list string := ["103.86.96.100"; "103.86.99.100"].

(** *** Firewall rules *)

Definition drop_fw_rule (ifaces : list Interface) : Rule :=
  zero_rule <| r_Name := "drop-fw" |> <| r_Direction := Forward |> <| r_Interfaces := Some ifaces |>.

Definition drop_rule (ifaces : list Interface) : Rule :=
  zero_rule <| r_Name := "drop" |> <| r_Direction := TwoWay |> <| r_Interfaces := Some ifaces |>.

Definition api_allowlist_rule (ifaces : list Interface) (fwmark : Z) : Rule :=
  zero_rule <| r_Name := "api_allowlist" |> <| r_Interfaces := Some ifaces |>
    <| r_Direction := TwoWay |> <| r_Marks := Some [fwmark] |> <| r_Allow := true |>.

Definition allowlist_subnets_rule (ifaces : list Interface) (subnets : list Prefix) : Rule :=
  zero_rule <| r_Name := "allowlist_subnets" |> <| r_Interfaces := Some ifaces |>
    <| r_RemoteNetworks := Some subnets |> <| r_Direction := TwoWay |> <| r_Allow := true |>.

Definition allowlist_subnets_forward_rule (ifaces : list Interface) (subnets : list Prefix) : Rule :=
  zero_rule <| r_Name := "allowlist_subnets_forward" |> <| r_Interfaces := Some ifaces |>
    <| r_RemoteNetworks := Some subnets |> <| r_Direction := Forward |> <| r_Allow := true |>.

Definition allowlist_ports_rule (ifaces : list Interface) (proto : string) (ports : list Z) : Rule :=
  zero_rule <| r_Name := "allowlist_ports_" +:+ proto |> <| r_Interfaces := Some ifaces |>
    <| r_Protocols := Some [proto] |> <| r_Direction := TwoWay |> <| r_Ports := Some ports |>
    <| r_Allow := true |>.

Definition link_local : Prefix :=
  mkPrefix (AddrV6 (Z.shiftl 65152 112)) 10.

Definition icmp6_rule (name : string) (ifaces : list Interface) (types : list Z) : Rule :=
  zero_rule <| r_Name := name |> <| r_Interfaces := Some ifaces |>
    <| r_Protocols := Some ["ipv6-icmp"] |> <| r_Direction := TwoWay |> <| r_Allow := true |>
    <| r_Ipv6Only := true |> <| r_Icmpv6Types := types |>.

Definition dhcp6_rule (name : string) (ifaces : list Interface) (port : Z) (d : Direction) : Rule :=
  zero_rule <| r_Name := name |> <| r_Interfaces := Some ifaces |>
    <| r_LocalNetworks := Some [link_local] |> <| r_Protocols := Some ["udp"] |>
    <| r_DestinationPorts := [port] |> <| r_Direction := d |> <| r_Allow := true |>
    <| r_Ipv6Only := true |>.

Definition ipv6_rules (ifaces : list Interface) : list Rule :=
  [icmp6_rule "vpn_allowlist_icmp6_errors" ifaces [1; 2; 3; 4; 128; 129];
   (icmp6_rule "vpn_allowlist_icmp6_address" ifaces [133; 134; 135; 136; 141; 142; 148; 149])
     <| r_HopLimit := 255 |>;
   (icmp6_rule "vpn_allowlist_icmp6_multicast" ifaces [130; 131; 132; 143; 151; 152; 153])
     <| r_LocalNetworks := Some [link_local] |>;
   dhcp6_rule "vpn_allowlist_dhcp6_in" ifaces 546 Inbound;
   dhcp6_rule "vpn_allowlist_dhcp6_out" ifaces 547 Outbound].

Definition ipv6_rule_names : list string :=
  ["vpn_allowlist_icmp6_errors"; "vpn_allowlist_icmp6_address"; "vpn_allowlist_icmp6_multicast";
   "vpn_allowlist_dhcp6_in"; "vpn_allowlist_dhcp6_out"].

(** [netip.PrefixFrom(address, address.BitLen())]. *)
Definition host_prefix (address : Addr) : Prefix := prefix_from address (addr_BitLen address).

Definition allow_rule_name (publicKey : string) (address : Addr) : string :=
  publicKey +:+ allowIncomingRule +:+ addr_String address.
Definition lan_rule_name (publicKey : string) (address : Addr) : string :=
  publicKey +:+ blockLanRule +:+ addr_String address.
Definition fileshare_rule_name (publicKey : string) (address : Addr) : string :=
  publicKey +:+ "-allow-fileshare-rule-" +:+ addr_String address.

Definition allow_rule (publicKey : string) (address : Addr) : Rule :=
  zero_rule <| r_Name := allow_rule_name publicKey address |> <| r_Direction := Inbound |>
    <| r_RemoteNetworks := Some [host_prefix address] |> <| r_Allow := true |>.

Definition block_lan_rule (publicKey : string) (address : Addr) : Rule :=
  zero_rule <| r_Name := lan_rule_name publicKey address |> <| r_Direction := Inbound |>
    <| r_LocalNetworks := Some privateSubnets |>
    <| r_RemoteNetworks := Some [host_prefix address] |>.

Definition fileshare_rule (publicKey : string) (address : Addr) : Rule :=
  zero_rule <| r_Name := fileshare_rule_name publicKey address |> <| r_Direction := Inbound |>
    <| r_Protocols := Some ["tcp"] |> <| r_Ports := Some [49111] |>
    <| r_PortsDirection := Destination |>
    <| r_RemoteNetworks := Some [host_prefix address] |> <| r_Allow := true |>.

Definition deny_dns_name : string := "deny-private-dns".

Definition deny_dns_rule : Rule :=
  zero_rule <| r_Name := deny_dns_name |> <| r_Direction := Outbound |>
    <| r_Protocols := Some ["udp"; "tcp"] |> <| r_Ports := Some [53] |>
    <| r_PortsDirection := Destination |> <| r_RemoteNetworks := Some privateSubnets |>.

Definition mesh_block_name : string := "default-mesh-block".
Definition mesh_established_name : string := "default-mesh-allow-established".

Definition mesh_block_rule : Rule :=
  zero_rule <| r_Name := mesh_block_name |> <| r_Direction := Inbound |>
    <| r_RemoteNetworks := Some [defaultMeshSubnet] |>.

Definition mesh_established_rule (ip : Addr) : Rule :=
  zero_rule <| r_Name := mesh_established_name |> <| r_Direction := Inbound |>
    <| r_RemoteNetworks := Some [defaultMeshSubnet] |>
    <| r_ConnectionStates := mkConnectionStates ip (Some [Related; Established]) |>
    <| r_Allow := true |>.

(** ** Operations *)

Section Networker.
Context {W A : Type} `{Collaborators W} `{Agent A}.
#[local] Abbreviation NW := (M (Combined W A)).

Definition on_world {B} (m : M W B) : NW B :=
  zoom nw_world (fun w n => n <| nw_world := w |>) m.
Definition on_fw {B} (m : M (Firewall A) B) : NW B :=
  zoom nw_fw (fun f n => n <| nw_fw := f |>) m.
Definition observe {B} (f : W -> B) : NW B := gets (fun n => f (nw_world n)).

Definition fw_Add (rules : list Rule) : NW unit := on_fw (Firewall.Add rules).
Definition fw_Delete (names : list string) : NW unit := on_fw (Firewall.Delete names).

Definition devices : NW (list Interface) := on_world list_devices.

(** [netw.vpnet] where the code has checked it, or panics. *)
Definition vpn_ref : NW VpnRef := gets (fun n => default 0%nat (nw_vpnet n)).

Definition vpn_interface : NW Interface :=
  let! v := vpn_ref in
  observe (fun w => match vpn_Tun v w with Some t => tun_Interface t | None => zero_interface end).

Definition mesh_interface : NW Interface :=
  observe (fun w => match mesh_Tun w with Some t => tun_Interface t | None => zero_interface end).

Definition isConnectedToVPN : NW bool :=
  let! vpnet := gets nw_vpnet in
  match vpnet with
  | None => ret false
  | Some v => observe (fun w => match vpn_Tun v w with
                                | None => false
                                | Some _ => vpn_IsActive v w
                                end)
  end.

Definition switchToNextVpn : NW unit :=
  let! next := gets nw_nextVPN in
  match next with
  | Some v => set! nw_vpnet := Some v ;; set! nw_nextVPN := None
  | None => ret tt
  end.

(** [SetupRoutingRules(v6, enableLocal, netw.lanDiscovery, subnets.ToSlice())]. *)
Definition setupRoutingRules (v6 enableLocal : bool) (subnets : Subnets) : NW unit :=
  let! lan := gets nw_lanDiscovery in
  let! l := on_world (range_subnets subnets) in
  on_world (policy_SetupRoutingRules v6 enableLocal lan l).

(** *** Firewall of the kill switch and the allowlist *)

Definition blockTraffic : NW unit :=
  let! ifaces := devices in
  fw_Add [drop_fw_rule ifaces] ;;
  fw_Add [drop_rule ifaces].

Definition unblockTraffic : NW unit :=
  fw_Delete ["drop-fw"] ;;
  fw_Delete ["drop"].

Definition allowIPv6Traffic : NW unit :=
  let! ifaces := devices in
  fw_Add (ipv6_rules ifaces) ;;
  set! nw_isV6TrafficAllowed := true.

Definition stopAllowedIPv6Traffic : NW unit :=
  fw_Delete ipv6_rule_names ;;
  set! nw_isV6TrafficAllowed := false.

Definition append_rule_name (name : string) : NW unit :=
  modify (fun n => n <| nw_rules := nw_rules n ++ [name] |>).

Definition denyDNS : NW unit :=
  let! rules := gets nw_rules in
  match index_str rules deny_dns_name with
  | Some _ => ret tt
  | None =>
      wrapped "adding deny-private-dns rule to firewall: " (fw_Add [deny_dns_rule]) "" ;;
      append_rule_name deny_dns_name
  end.

Definition undenyDNS : NW unit :=
  let! rules := gets nw_rules in
  match index_str rules deny_dns_name with
  | None => ret tt
  | Some ruleIndex =>
      fw_Delete [deny_dns_name] ;;
      modify (fun n => n <| nw_rules := delete ruleIndex (nw_rules n) |>)
  end.

(** [netip.ParsePrefix] of every subnet, stopping at the first that fails. *)
Fixpoint parse_subnets (l : list string) : NW (list Prefix) :=
  match l with
  | [] => ret []
  | cidr :: l' =>
      match ParsePrefix cidr with
      | None => throw (Joined [Errorf "parsing subnet CIDR"; Errorf "netip.ParsePrefix"])
      | Some subnet => let! rest := parse_subnets l' in ret (subnet :: rest)
      end
  end.

(** The rules of one protocol; the ports are routed before the rules are added. *)
Definition allowlist_ports (ifaces : list Interface) (name : string) (set : PortSet)
    : NW (list Rule) :=
  let! keys := on_world (range_ports set) in
  let ports := filter (fun port => port <= 65535) keys in
  match ports with
  | [] => ret []
  | _ =>
      let! fwmark := gets nw_fwmark in
      let! r := attempt (on_world (allowlist_EnablePorts ports name (hex_alt fwmark))) in
      match r with
      | Err e => throw (Joined [Errorf "enabling allowlist routing"; e])
      | Ok ports' => ret [allowlist_ports_rule ifaces name ports']
      end
  end.

Definition setAllowlist (allowlist : Allowlist) : NW unit :=
  let! ifaces := devices in
  let! lan := gets nw_lanDiscovery in
  let allowlist := if lan : bool then addLANPermissions allowlist else allowlist in
  let! cidrs := on_world (range_subnets (al_Subnets allowlist)) in
  let! subnets := parse_subnets cidrs in
  let subnet_rules :=
    match subnets with
    | [] => []
    | _ => [allowlist_subnets_rule ifaces subnets; allowlist_subnets_forward_rule ifaces subnets]
    end in
  let! tcp_rules := allowlist_ports ifaces "tcp" (ports_TCP (al_Ports allowlist)) in
  let! udp_rules := allowlist_ports ifaces "udp" (ports_UDP (al_Ports allowlist)) in
  fw_Add (subnet_rules ++ tcp_rules ++ udp_rules) ;;
  when (negb (map_get (ports_TCP (al_Ports allowlist)) 53) &&
        negb (map_get (ports_UDP (al_Ports allowlist)) 53)) denyDNS ;;
  set! nw_allowlist := allowlist ;;
  let! local := gets nw_enableLocalTraffic in
  wrapped "setting routing rules: " (setupRoutingRules false local (al_Subnets allowlist)) "".

(** [Delete] of one rule, where not finding it is no error. *)
Definition delete_if_present (name : string) : NW unit :=
  let! r := attempt (fw_Delete [name]) in
  match r with
  | Err e => if errors_Is e ErrRuleNotFound then ret tt
             else throw (Wrapf "disabling allowlist firewall rules: " e "")
  | Ok _ => ret tt
  end.

Definition unsetAllowlist : NW unit :=
  ignore (on_world (router_Flush AllowlistRouter)) ;;
  forM_ ["allowlist_subnets"; "allowlist_subnets_forward"; "allowlist_ports_tcp";
         "allowlist_ports_udp"] delete_if_present ;;
  wrapped "disabling allowlist routing: " (on_world allowlist_Disable) "" ;;
  let! allowlist := gets nw_allowlist in
  when (negb (map_get (ports_TCP (al_Ports allowlist)) 53) &&
        negb (map_get (ports_UDP (al_Ports allowlist)) 53))
    (wrapped "unsetting deny dns: " undenyDNS "").

Definition resetAllowlist : NW unit :=
  wrapped "unsetting allowlist: " unsetAllowlist "" ;;
  let! allowlist := gets nw_allowlist in
  wrapped "re-setting allowlist: " (setAllowlist allowlist) "".

Definition lanAvailable (n : Combined W A) : bool := nw_lanDiscovery n || negb (nw_isNetworkSet n).

Definition setNetwork (allowlist : Allowlist) : NW unit :=
  let! r := attempt blockTraffic in
  (match r with
   | Err e => if errors_Is e ErrRuleAlreadyExists then ret tt else throw e
   | Ok _ => ret tt
   end) ;;
  let! ifaces := devices in
  let! fwmark := gets nw_fwmark in
  fw_Add [api_allowlist_rule ifaces fwmark] ;;
  setAllowlist allowlist ;;
  let! lan := gets nw_lanDiscovery in
  ignore (on_world (exit_ResetFirewall lan true)) ;;
  set! nw_isNetworkSet := true.

Definition unsetNetwork : NW unit :=
  fw_Delete ["api_allowlist"] ;;
  let! r := attempt unblockTraffic in
  (match r with
   | Err e => if errors_Is e ErrRuleNotFound then ret tt else throw e
   | Ok _ => ret tt
   end) ;;
  unsetAllowlist ;;
  ignore (on_world (exit_ResetFirewall true false)) ;;
  set! nw_isNetworkSet := false.

Definition UnsetFirewall : NW unit :=
  let! ks := gets nw_isKillSwitchSet in
  if ks : bool then ret tt else unsetNetwork.

Definition setKillSwitch (allowlist : Allowlist) : NW unit :=
  let! net := gets nw_isNetworkSet in
  when (negb net) (setNetwork allowlist) ;;
  set! nw_isKillSwitchSet := true.

Definition unsetKillSwitch : NW unit :=
  let! vpn := gets nw_isVpnSet in
  when (negb vpn) unsetNetwork ;;
  set! nw_isKillSwitchSet := false.

Definition SetAllowlist (allowlist : Allowlist) : NW unit :=
  let! net := gets nw_isNetworkSet in
  when net (unsetAllowlist ;; setAllowlist allowlist) ;;
  let! lan := gets lanAvailable in
  on_world (exit_SetAllowlist allowlist lan).

Definition EnableFirewall : NW unit := wrapped "enabling firewall: " (on_fw Firewall.Enable) "".
Definition DisableFirewall : NW unit := wrapped "disabling firewall: " (on_fw Firewall.Disable) "".

Definition EnableRouting : NW unit :=
  ignore (on_world policy_Enable) ;;
  let! tableID := observe policy_TableID in
  ignore (on_world (router_Enable AllowlistRouter tableID)) ;;
  ignore (on_world (router_Enable DefaultRouter tableID)) ;;
  ignore (on_world (router_Enable PeerRouter tableID)).

Definition DisableRouting : NW unit :=
  ignore (on_world (router_Disable AllowlistRouter)) ;;
  ignore (on_world (router_Disable DefaultRouter)) ;;
  ignore (on_world (router_Disable PeerRouter)) ;;
  ignore (on_world policy_Disable).

(** *** DNS and IPv6 *)

Definition setDNS (nameservers : list string) : NW unit :=
  let! iface := vpn_interface in
  wrapped "networker setting dns: " (on_world (dns_Set (if_name iface) nameservers)) "".

Definition unsetDNS : NW unit :=
  let! iface := vpn_interface in
  wrapped "networker unsetting dns: " (on_world (dns_Unset (if_name iface))) "".

Definition SetDNS (nameservers : list string) : NW unit :=
  let! connected := isConnectedToVPN in
  if negb connected then ret tt
  else set! nw_lastNameservers := nameservers ;; setDNS nameservers.

Definition UnsetDNS : NW unit :=
  let! connected := isConnectedToVPN in
  if negb connected then ret tt else unsetDNS.

Definition PermitIPv6 : NW unit :=
  set! nw_ipv6Enabled := true ;; on_world ipv6_Unblock.

Definition denyIPv6 : NW unit :=
  set! nw_ipv6Enabled := false ;;
  let! net := gets nw_isNetworkSet in
  if negb net then ret tt else on_world ipv6_Block.

Definition disableIPv6IfNeeded : NW unit :=
  let! enabled := gets nw_ipv6Enabled in
  when (negb enabled) denyIPv6.

(** *** Meshnet *)

Definition defaultMeshBlock (ip : Addr) : NW unit :=
  fw_Add [mesh_block_rule; mesh_established_rule ip] ;;
  append_rule_name mesh_block_name ;;
  append_rule_name mesh_established_name.

Definition defaultMeshUnBlock : NW unit :=
  let! rules := gets nw_rules in
  fw_Delete rules ;;
  set! nw_rules := [].

Definition allowIncoming (publicKey : string) (address : Addr) (lanAllowed : bool) : NW unit :=
  let! names := gets nw_rules in
  let ruleName := allow_rule_name publicKey address in
  match index_str names ruleName with
  | Some _ => throw (Errorf ("allow rule already exist for " +:+ ruleName))
  | None =>
      when (negb lanAllowed) (append_rule_name (lan_rule_name publicKey address)) ;;
      wrapped "adding allow-incoming rule to firewall: "
        (fw_Add (allow_rule publicKey address ::
                 (if lanAllowed then [] else [block_lan_rule publicKey address]))) "" ;;
      append_rule_name ruleName
  end.

Definition allowFileshare (publicKey : string) (address : Addr) : NW unit :=
  let! names := gets nw_rules in
  let ruleName := fileshare_rule_name publicKey address in
  match index_str names ruleName with
  | Some _ => throw (Errorf ("allow rule already exist for " +:+ ruleName))
  | None =>
      wrapped "adding allow-fileshare rule to firewall: "
        (fw_Add [fileshare_rule publicKey address]) "" ;;
      append_rule_name ruleName
  end.

Definition removeRule (ruleName : string) : NW unit :=
  let! names := gets nw_rules in
  match index_str names ruleName with
  | None => throw (Errorf ("allow rule does not exist for " +:+ ruleName))
  | Some ruleIndex =>
      fw_Delete [ruleName] ;;
      modify (fun n => n <| nw_rules := delete ruleIndex (nw_rules n) |>)
  end.

Definition blockIncoming (ua : UniqueAddress) : NW unit :=
  let! names := gets nw_rules in
  let lanRuleName := lan_rule_name (ua_UID ua) (ua_Address ua) in
  when (negb (bool_decide (index_str names lanRuleName = None))) (removeRule lanRuleName) ;;
  removeRule (allow_rule_name (ua_UID ua) (ua_Address ua)).

Definition BlockFileshare (ua : UniqueAddress) : NW unit :=
  removeRule (fileshare_rule_name (ua_UID ua) (ua_Address ua)).

(** One peer in the loop of [refresh]. *)
Definition refresh_peer (peer : MachinePeer) : NW unit :=
  if negb (addr_IsValid (p_Address peer)) then ret tt
  else
    let lanAllowed := p_DoIAllowRouting peer && p_DoIAllowLocalNetwork peer in
    when (p_DoIAllowInbound peer)
      (wrapped "allowing inbound traffic for peer: "
         (allowIncoming (p_PublicKey peer) (p_Address peer) lanAllowed) "") ;;
    when (p_DoIAllowFileshare peer)
      (wrapped "allowing fileshare for peer: "
         (allowFileshare (p_PublicKey peer) (p_Address peer)) "").

Definition refresh (cfg : MachineMap) : NW unit :=
  ignore defaultMeshUnBlock ;;
  ignore (on_world hosts_Unset) ;;
  ignore (on_world exit_Disable) ;;
  wrapped "enabling exit node: " (on_world exit_Enable) "" ;;
  wrapped "refreshing mesh: " (on_world (mesh_Refresh cfg)) "" ;;
  set! nw_cfg := cfg ;;
  let self := mm_Machine cfg in
  wrapped "adding default block rule: " (defaultMeshBlock (m_Address self)) "" ;;
  wrapped "allowing to reach self via meshnet: "
    (allowIncoming (m_PublicKey self) (m_Address self) true) "" ;;
  forM_ (mm_Peers cfg) refresh_peer ;;
  let! lan := gets lanAvailable in
  let! ks := gets nw_isKillSwitchSet in
  on_world (exit_ResetPeers (mm_Peers cfg) lan ks) ;;
  on_world (hosts_Set (host_of (m_Address self) (m_Nickname self) (m_Hostname self)
                         :: getHostsFromConfig (mm_Peers cfg))).

Definition refreshIncoming (peer : MachinePeer) : NW unit :=
  if negb (p_DoIAllowInbound peer) then ret tt
  else
    let! names := gets nw_rules in
    let address := mkUniqueAddress (p_PublicKey peer) (p_Address peer) in
    when (negb (bool_decide
            (index_str names (allow_rule_name (p_PublicKey peer) (p_Address peer)) = None)))
      (wrapped "blocking incoming traffic: " (blockIncoming address) "") ;;
    wrapped "allowing incoming traffic: "
      (allowIncoming (ua_UID address) (ua_Address address)
         (p_DoIAllowRouting peer && p_DoIAllowLocalNetwork peer)) "".

Definition ResetRouting (peer : MachinePeer) (peers : list MachinePeer) : NW unit :=
  let! lan := gets lanAvailable in
  let! ks := gets nw_isKillSwitchSet in
  on_world (exit_ResetPeers peers lan ks) ;;
  refreshIncoming peer.

Definition AllowIncoming (ua : UniqueAddress) (lanAllowed : bool) : NW unit :=
  allowIncoming (ua_UID ua) (ua_Address ua) lanAllowed.
Definition AllowFileshare (ua : UniqueAddress) : NW unit :=
  allowFileshare (ua_UID ua) (ua_Address ua).

Definition addDefaultRoute : NW unit :=
  let! iface := vpn_interface in
  let! table := observe policy_TableID in
  wrapped "adding the default route: "
    (on_world (router_Add DefaultRouter
       (mkRoute AddrInvalid (mkPrefix (AddrV4 (v4 0 0 0 0)) 0) iface table))) "".

(** The deferred cleanup of [setMesh]. *)
Definition setMesh_cleanup (routingRulesSet : bool) : NW unit :=
  when routingRulesSet (ignore (on_world policy_CleanupRouting)) ;;
  ignore defaultMeshUnBlock ;;
  ignore (on_world hosts_Unset) ;;
  ignore (on_world exit_Disable) ;;
  ignore (on_world (router_Flush PeerRouter)) ;;
  ignore (on_world mesh_Disable).

Definition setMesh (cfg : MachineMap) (self : Addr) (privateKey : string) : NW unit :=
  let! already := gets nw_isMeshnetSet in
  if already : bool then throw (Errorf "meshnet already set")
  else
    on_error
      (let! vpn := gets nw_isVpnSet in
       when vpn (ignore (on_world (router_Flush DefaultRouter))) ;;
       let! r := attempt (on_world (mesh_Enable self privateKey)) in
       (match r with
        | Ok _ => ret tt
        | Err e =>
            let! active := observe mesh_IsActive in
            if vpn && negb active
            then set! nw_isVpnSet := false ;; throw (Sentinel ErrTunnelClosed)
            else throw (Wrapf "enabling meshnet: " e "")
        end) ;;
       when vpn addDefaultRoute ;;
       let! local := gets nw_enableLocalTraffic in
       let! allowlist := gets nw_allowlist in
       wrapped "setting routing rules: " (setupRoutingRules false local (al_Subnets allowlist)) "")
      (setMesh_cleanup false) ;;
    on_error
      (let! iface := mesh_interface in
       let! table := observe policy_TableID in
       wrapped "creating default mesh route: "
         (on_world (router_Add PeerRouter (mkRoute AddrInvalid defaultMeshSubnet iface table))) "" ;;
       refresh cfg)
      (setMesh_cleanup true) ;;
    set! nw_isMeshnetSet := true ;;
    set! nw_lastPrivateKey := privateKey.

Definition unSetMesh : NW unit :=
  let! set_ := gets nw_isMeshnetSet in
  if negb set_ then throw (Sentinel ErrMeshNotActive)
  else
    wrapped "unsetting hosts: " (on_world hosts_Unset) "" ;;
    wrapped "unblocking the peer subnet: " defaultMeshUnBlock "" ;;
    wrapped "disabling exit node: " (on_world exit_Disable) "" ;;
    let! vpn := gets nw_isVpnSet in
    when (negb vpn) (wrapped "cleaning up routing: " (on_world policy_CleanupRouting) "") ;;
    ignore (on_world (router_Flush PeerRouter)) ;;
    when vpn (ignore (on_world (router_Flush DefaultRouter))) ;;
    wrapped "disabling the meshnet: " (on_world mesh_Disable) "" ;;
    when vpn addDefaultRoute ;;
    set! nw_isMeshnetSet := false.

Definition UnSetMesh : NW unit :=
  set! nw_enableLocalTraffic := true ;; unSetMesh.

Definition StatusMap : NW (gmap string string) := on_world mesh_StatusMap.

Definition SetLanDiscovery (enabled : bool) : NW unit :=
  set! nw_lanDiscovery := enabled ;;
  let! lan := gets lanAvailable in
  let! mesh := gets nw_isMeshnetSet in
  let! vpn := gets nw_isVpnSet in
  let! server := gets nw_lastServer in
  let! local := gets nw_enableLocalTraffic in
  let! allowlist := gets nw_allowlist in
  when (mesh || vpn)
    (ignore (setupRoutingRules (addr_Is6 (sd_IP server)) local (al_Subnets allowlist))) ;;
  let! ks := gets nw_isKillSwitchSet in
  ignore (on_world (exit_ResetFirewall lan ks)).
End Networker.

Section Vpn.
Context {W A : Type} `{Collaborators W} `{Agent A}.
#[local] Abbreviation NW := (M (Combined W A)).

(** *** Connecting *)

Definition failureRecover : NW unit :=
  let! mesh := gets nw_isMeshnetSet in
  when (negb mesh) (ignore (on_world policy_CleanupRouting)) ;;
  ignore (on_world (router_Flush DefaultRouter)) ;;
  let! v := vpn_ref in
  ignore (on_world (vpn_Stop v)) ;;
  let! net := gets nw_isNetworkSet in
  let! ks := gets nw_isKillSwitchSet in
  when (net && negb ks) (ignore unsetNetwork) ;;
  let! v6 := gets nw_isV6TrafficAllowed in
  when v6 (ignore stopAllowedIPv6Traffic) ;;
  set! nw_isVpnSet := false.

Definition configureDNS (serverData : ServerData) (nameservers : list string) : NW unit :=
  let! mesh := gets nw_isMeshnetSet in
  if mesh && prefix_Contains defaultMeshSubnet (sd_IP serverData)
  then setDNS default_nameservers
  else setDNS nameservers.

Definition configureFirewall (allowlist : Allowlist) : NW unit :=
  let! r := attempt (setNetwork allowlist) in
  (match r with
   | Err e =>
       if errors_Is e ErrRuleAlreadyExists then ret tt
       else let! net := gets nw_isNetworkSet in
            if negb net then throw e else ret tt
   | Ok _ => ret tt
   end) ;;
  resetAllowlist.

Definition configureNetwork (allowlist : Allowlist) (serverData : ServerData)
    (nameservers : list string) : NW unit :=
  configureFirewall allowlist ;;
  addDefaultRoute ;;
  configureDNS serverData nameservers ;;
  let! mesh := gets nw_isMeshnetSet in
  let! cfg := gets nw_cfg in
  when mesh (wrapped "refreshing meshnet: " (refresh cfg) "") ;;
  disableIPv6IfNeeded.

(** The server to use: the last one when none is given. *)
Definition pick_server (serverData : ServerData) : NW ServerData :=
  let! last := gets nw_lastServer in
  ret (if bool_decide (sd_IP serverData = AddrInvalid) then last else serverData).

(** [vpnet.Start], with a [Stop] when it fails. *)
Definition start_vpn (creds : Credentials) (serverData : ServerData) : NW unit :=
  let! v := vpn_ref in
  let! r := attempt (on_world (vpn_Start v creds serverData)) in
  match r with
  | Ok _ => ret tt
  | Err e => ignore (on_world (vpn_Stop v)) ;; throw e
  end.

Definition set_start_time : NW unit :=
  let! now := observe time_Now in
  set! nw_startTime := Some now.

Definition start (creds : Credentials) (serverData : ServerData) (allowlist : Allowlist)
    (nameservers : list string) : NW unit :=
  let! already := gets nw_isVpnSet in
  let! vpnet := gets nw_vpnet in
  if already : bool then throw (Errorf "already started")
  else match vpnet with
  | None => throw (Sentinel errNilVPN)
  | Some v =>
    on_error
      (let! serverData := pick_server serverData in
       start_vpn creds serverData ;;
       let! local := gets nw_enableLocalTraffic in
       setupRoutingRules (addr_Is6 (sd_IP serverData)) local (al_Subnets allowlist) ;;
       configureNetwork allowlist serverData nameservers ;;
       set! nw_isVpnSet := true ;;
       set! nw_lastServer := serverData ;;
       set! nw_lastCreds := creds ;;
       set! nw_lastNameservers := nameservers ;;
       set_start_time ;;
       let! iface := vpn_interface in
       let! ifaces := observe (InterfacesWithDefaultRoute {[ if_name iface ]}) in
       set! nw_interfaces := ifaces)
      failureRecover
  end.

Definition restart (creds : Credentials) (serverData : ServerData) (nameservers : list string)
    : NW unit :=
  let! vpnet := gets nw_vpnet in
  match vpnet with
  | None => throw (Sentinel errNilVPN)
  | Some v =>
    on_error
      (ignore (on_world (router_Flush DefaultRouter)) ;;
       on_world (vpn_Stop v) ;;
       switchToNextVpn ;;
       let! serverData := pick_server serverData in
       start_vpn creds serverData ;;
       addDefaultRoute ;;
       configureDNS serverData nameservers ;;
       ignore disableIPv6IfNeeded ;;
       set! nw_lastServer := serverData ;;
       set! nw_lastCreds := creds ;;
       set_start_time)
      failureRecover
  end.

Definition Start (creds : Credentials) (serverData : ServerData) (allowlist : Allowlist)
    (nameservers : list string) (enableLocalTraffic : bool) : NW unit :=
  set! nw_enableLocalTraffic := enableLocalTraffic ;;
  let! connected := isConnectedToVPN in
  if connected : bool then restart creds serverData nameservers
  else start creds serverData allowlist nameservers.

(** *** Disconnecting *)

Definition stop : NW unit :=
  let! vpnet := gets nw_vpnet in
  match vpnet with
  | None => throw (Sentinel errNilVPN)
  | Some v =>
      ignore (on_world ipv6_Unblock) ;;
      unsetDNS ;;
      let! mesh := gets nw_isMeshnetSet in
      let! allowlist := gets nw_allowlist in
      (if negb mesh then ignore (on_world policy_CleanupRouting)
       else wrapped "netw stop, adjusting routing rules: "
              (setupRoutingRules false true (al_Subnets allowlist)) "") ;;
      ignore (on_world (router_Flush DefaultRouter)) ;;
      on_world (vpn_Stop v) ;;
      let! ks := gets nw_isKillSwitchSet in
      when (negb ks) (wrapped "unsetting network: " unsetNetwork "") ;;
      switchToNextVpn ;;
      set! nw_isVpnSet := false
  end.

Definition Stop : NW unit :=
  let! vpn := gets nw_isVpnSet in
  if negb vpn then ret tt
  else
    let! r := attempt stop in
    (match r with
     | Err e => if errors_Is e errNilVPN then ret tt else throw e
     | Ok _ => ret tt
     end) ;;
    set! nw_interfaces := ∅.

Definition SetVPN (v : VpnRef) : NW unit :=
  let! cur := vpn_ref in
  let! active := observe (vpn_IsActive cur) in
  if negb active then set! nw_vpnet := Some v else set! nw_nextVPN := Some v.

(** *** Status *)

Definition Combined_ConnectionStatus : NW ConnectionStatus :=
  let! connected := isConnectedToVPN in
  if negb connected then throw (Sentinel errInactiveVPN)
  else
    let! v := vpn_ref in
    let! stats := wrapped "acquiring tun interface transfer rates: "
                    (on_world (vpn_TransferRates v)) "" in
    let! iface := vpn_interface in
    let tech := if bool_decide (if_name iface = "nordlynx") then NORDLYNX else OPENVPN in
    let! started := gets nw_startTime in
    let! now := observe time_Now in
    let! server := gets nw_lastServer in
    ret (mkConnectionStatus tech (sd_Protocol server) (sd_IP server) (sd_Name server)
           (sd_Hostname server) (sd_Country server) (sd_City server) stats.1 stats.2
           ((fun t => now - t) <$> started) (sd_VirtualLocation server)).

Definition LastServerName (n : Combined W A) : string := sd_Hostname (nw_lastServer n).

(** *** Network changes *)

Definition fixForLinuxMint20 : NW unit :=
  let! nameservers := gets nw_lastNameservers in
  setDNS nameservers ;; setDNS nameservers.

Definition handleNetworkChanged : NW unit :=
  let! mesh := gets nw_isMeshnetSet in
  when mesh (on_world mesh_NetworkChanged) ;;
  let! vpn := gets nw_isVpnSet in
  if negb vpn then ret tt
  else
    let! same := gets (fun n => bool_decide (mesh_as_vpn (nw_world n) = nw_vpnet n) &&
                                negb (bool_decide (mesh_as_vpn (nw_world n) = None))) in
    let! v := vpn_ref in
    when (negb (mesh && same)) (on_world (vpn_NetworkChanged v)) ;;
    fixForLinuxMint20 ;;
    resetAllowlist.

Definition first_ip (t : option Tunnel) (ip : Addr) : Addr :=
  match t with
  | Some t => match tun_IPs t with ip' :: _ => ip' | [] => ip end
  | None => ip
  end.

Definition error_of {B} (r : result B) : option error :=
  match r with Ok _ => None | Err e => Some e end.

Definition wrap_error (pre : string) (e : option error) : option error :=
  (fun e => Wrapf pre e "") <$> e.

(** The meshnet is set again with the configuration it had. *)
Definition remesh (ip : Addr) : NW (option error) :=
  let! r := attempt unSetMesh in
  match r with
  | Err e => ret (Some (Wrapf "unsetting mesh: " e ""))
  | Ok _ =>
      let! cfg := gets nw_cfg in
      let! key := gets nw_lastPrivateKey in
      let! r := attempt (setMesh cfg ip key) in
      ret (wrap_error "setting mesh: " (error_of r))
  end.

Definition start_again : NW (option error) :=
  let! creds := gets nw_lastCreds in
  let! server := gets nw_lastServer in
  let! allowlist := gets nw_allowlist in
  let! nameservers := gets nw_lastNameservers in
  let! r := attempt (start creds server allowlist nameservers) in
  ret (wrap_error "starting networker: " (error_of r)).

(** The VPN and the meshnet torn down and set up again: [vpnErr] and
    [meshErr].  The address of the tunnel is read before it is stopped. *)
Definition recreate (isVPNStarted isMeshStarted : bool) : NW (option error * option error) :=
  let! v := vpn_ref in
  let! vip := observe (fun w => if isVPNStarted then first_ip (vpn_Tun v w) AddrInvalid
                                else AddrInvalid) in
  let! stopped :=
    (if isVPNStarted
     then let! r := attempt stop in ret (wrap_error "stopping networker: " (error_of r))
     else ret None) in
  match stopped with
  | Some e => ret (Some e, None)
  | None =>
      let! ip := observe (fun w => first_ip (mesh_Tun w) vip) in
      let! meshErr := (if isMeshStarted then remesh ip else ret None) in
      let! vpnErr := (if isVPNStarted then start_again else ret None) in
      ret (vpnErr, meshErr)
  end.

(** The deferred [err = errors.Join(vpnErr, meshErr)]. *)
Definition join_errors (vpnErr meshErr : option error) : NW unit :=
  match errors_Join [vpnErr; meshErr] with
  | None => ret tt
  | Some e => throw e
  end.

(** The deferred function that lifts the temporary kill switch. *)
Definition lift_kill_switch (vpnErr : option error) : NW (option error) :=
  match vpnErr with
  | Some e => set! nw_isKillSwitchSet := false ;; ret (Some e)
  | None => let! r := attempt unsetKillSwitch in ret (error_of r)
  end.

(** From [netw.interfaces = newInterfaces] on.  When setting the kill switch
    fails, the deferred [errors.Join] of two nil errors replaces the error. *)
Definition reinit (isVPNStarted isMeshStarted : bool) : NW unit :=
  let! ks := gets nw_isKillSwitchSet in
  if isVPNStarted && negb ks then
    let! allowlist := gets nw_allowlist in
    let! r := attempt (setKillSwitch allowlist) in
    match r with
    | Err _ => join_errors None None
    | Ok _ =>
        let! errs := recreate isVPNStarted isMeshStarted in
        let! vpnErr := lift_kill_switch errs.1 in
        join_errors vpnErr errs.2
    end
  else
    let! errs := recreate isVPNStarted isMeshStarted in
    join_errors errs.1 errs.2.

Definition refreshVPN : NW unit :=
  let! isVPNStarted := gets nw_isVpnSet in
  let! isMeshStarted := gets nw_isMeshnetSet in
  if negb isVPNStarted && negb isMeshStarted then ret tt
  else
    let! vpnet := gets nw_vpnet in
    let! tunnelName := observe (fun w =>
      match vpnet with
      | Some v => match vpn_Tun v w with Some t => if_name (tun_Interface t) | None => "" end
      | None => ""
      end) in
    let! newInterfaces := observe (InterfacesWithDefaultRoute {[ tunnelName ]}) in
    let! interfaces := gets nw_interfaces in
    let! handled :=
      (if bool_decide (newInterfaces ⊆ interfaces)
       then let! r := attempt handleNetworkChanged in ret (is_ok r)
       else ret false) in
    if handled : bool then ret tt
    else
      set! nw_interfaces := newInterfaces ;;
      reinit isVPNStarted isMeshStarted.

Definition Reconnect (stateIsUp : bool) : NW unit :=
  let! vpn := gets nw_isVpnSet in
  when vpn (ignore disableIPv6IfNeeded) ;;
  when stateIsUp (ignore refreshVPN).
End Vpn.

(** ** Operations as data *)

(** The exported methods of the networker. *)
Inductive NwOp : Type :=
| NwStart (creds : Credentials) (server : ServerData) (allowlist : Allowlist)
    (nameservers : list string) (enableLocalTraffic : bool)
| NwStop
| NwSetDNS (nameservers : list string)
| NwUnsetDNS
| NwPermitIPv6
| NwDenyIPv6
| NwEnableFirewall
| NwDisableFirewall
| NwEnableRouting
| NwDisableRouting
| NwSetAllowlist (allowlist : Allowlist)
| NwUnsetFirewall
| NwSetKillSwitch (allowlist : Allowlist)
| NwUnsetKillSwitch
| NwSetVPN (v : VpnRef)
| NwRefresh (cfg : MachineMap)
| NwSetMesh (cfg : MachineMap) (self : Addr) (privateKey : string)
| NwUnSetMesh
| NwAllowIncoming (ua : UniqueAddress) (lanAllowed : bool)
| NwBlockIncoming (ua : UniqueAddress)
| NwAllowFileshare (ua : UniqueAddress)
| NwBlockFileshare (ua : UniqueAddress)
| NwResetRouting (peer : MachinePeer) (peers : list MachinePeer)
| NwSetLanDiscovery (enabled : bool)
| NwReconnect (stateIsUp : bool).

Definition exec_nw {W A} `{Collaborators W} `{Agent A} (o : NwOp) : M (Combined W A) unit :=
  match o with
  | NwStart creds server allowlist ns local => Start creds server allowlist ns local
  | NwStop => Stop
  | NwSetDNS ns => SetDNS ns
  | NwUnsetDNS => UnsetDNS
  | NwPermitIPv6 => PermitIPv6
  | NwDenyIPv6 => denyIPv6
  | NwEnableFirewall => EnableFirewall
  | NwDisableFirewall => DisableFirewall
  | NwEnableRouting => EnableRouting
  | NwDisableRouting => DisableRouting
  | NwSetAllowlist allowlist => SetAllowlist allowlist
  | NwUnsetFirewall => UnsetFirewall
  | NwSetKillSwitch allowlist => setKillSwitch allowlist
  | NwUnsetKillSwitch => unsetKillSwitch
  | NwSetVPN v => SetVPN v
  | NwRefresh cfg => refresh cfg
  | NwSetMesh cfg self key => setMesh cfg self key
  | NwUnSetMesh => UnSetMesh
  | NwAllowIncoming ua lan => AllowIncoming ua lan
  | NwBlockIncoming ua => blockIncoming ua
  | NwAllowFileshare ua => AllowFileshare ua
  | NwBlockFileshare ua => BlockFileshare ua
  | NwResetRouting peer peers => ResetRouting peer peers
  | NwSetLanDiscovery enabled => SetLanDiscovery enabled
  | NwReconnect up => Reconnect up
  end.

(** ** A concrete environment

    A log of the calls made, with the names of calls that fail once; the VPN is
    active between a successful start and a stop.  It instantiates
    [Collaborators] for evaluating the networker on concrete inputs. *)

Record Sim : Type := mkSim {
  sim_log : list string;
  sim_failing : list string;
  sim_active : bool;
  sim_mesh : bool;
  sim_devices : list Interface
}.
#[export] Instance Sim_eta : EtaExpand Sim := fun s =>
  mkSim (sim_log s) (sim_failing s) (sim_active s) (sim_mesh s) (sim_devices s).

Definition eth0 : Interface := mkInterface 2 1500 "eth0" "" 0.
Definition nordlynx : Interface := mkInterface 3 1420 "nordlynx" "" 0.

Definition new_sim : Sim := mkSim [] [] false false [eth0].

(** A call named [name] that returns [v] and updates the state with [f]. *)
Definition sim_call {B} (name : string) (v : B) (f : Sim -> Sim) : M Sim B := fun s =>
  if bool_decide (name ∈ sim_failing s)
  then (Err (Errorf name), s <| sim_failing := remove_first name (sim_failing s) |>)
  else (Ok v, f (s <| sim_log := sim_log s ++ [name] |>)).

Definition sim_do (name : string) : M Sim unit := sim_call name tt (fun s => s).

#[export] Instance Sim_collaborators : Collaborators Sim := {|
  vpn_Start _ _ _ := sim_call "vpn.Start" tt (fun s => s <| sim_active := true |>);
  vpn_Stop _ := sim_call "vpn.Stop" tt (fun s => s <| sim_active := false |>);
  vpn_NetworkChanged _ := sim_do "vpn.NetworkChanged";
  vpn_TransferRates _ := sim_call "vpn.TransferRates" (0, 0)%Z (fun s => s);
  vpn_Tun _ s := if sim_active s then Some (mkTunnel nordlynx [AddrV4 (v4 10 5 0 2)]) else None;
  vpn_IsActive _ s := sim_active s;
  mesh_Enable _ _ := sim_call "mesh.Enable" tt (fun s => s <| sim_mesh := true |>);
  mesh_Disable := sim_call "mesh.Disable" tt (fun s => s <| sim_mesh := false |>);
  mesh_Refresh _ := sim_do "mesh.Refresh";
  mesh_NetworkChanged := sim_do "mesh.NetworkChanged";
  mesh_StatusMap := sim_call "mesh.StatusMap" ∅ (fun s => s);
  mesh_IsActive s := sim_mesh s;
  mesh_Tun s := if sim_mesh s then Some (mkTunnel nordlynx [AddrV4 (v4 100 64 0 1)]) else None;
  mesh_as_vpn _ := None;
  dns_Set _ _ := sim_do "dns.Set";
  dns_Unset _ := sim_do "dns.Unset";
  hosts_Set _ := sim_do "hosts.Set";
  hosts_Unset := sim_do "hosts.Unset";
  ipv6_Block := sim_do "ipv6.Block";
  ipv6_Unblock := sim_do "ipv6.Unblock";
  allowlist_EnablePorts ports _ _ := sim_call "allowlist.EnablePorts" (sort_Ints ports) (fun s => s);
  allowlist_Disable := sim_do "allowlist.Disable";
  router_Add _ _ := sim_do "router.Add";
  router_Flush _ := sim_do "router.Flush";
  router_Enable _ _ := sim_do "router.Enable";
  router_Disable _ := sim_do "router.Disable";
  policy_SetupRoutingRules _ _ _ _ := sim_do "policy.SetupRoutingRules";
  policy_CleanupRouting := sim_do "policy.CleanupRouting";
  policy_TableID _ := 205;
  policy_Enable := sim_do "policy.Enable";
  policy_Disable := sim_do "policy.Disable";
  exit_Enable := sim_do "exit.Enable";
  exit_Disable := sim_do "exit.Disable";
  exit_ResetPeers _ _ _ := sim_do "exit.ResetPeers";
  exit_ResetFirewall _ _ := sim_do "exit.ResetFirewall";
  exit_SetAllowlist _ _ := sim_do "exit.SetAllowlist";
  list_devices := fun s => (Ok (sim_devices s), s);
  InterfacesWithDefaultRoute skip s :=
    list_to_set (filter (fun x => x ∉ skip) (map if_name (sim_devices s)));
  time_Now _ := 0;
  range_subnets m := fun s => (Ok (map_to_list m).*1, s);
  range_ports m := fun s => (Ok (map_to_list m).*1, s)
|}.

(** A networker with an enabled firewall and nothing set. *)
Definition new_networker (faults : list (option error)) : Combined Sim ListAgent :=
  NewCombined new_sim (NewFirewall (mkListAgent [] faults) true) (Some 1%nat) 57841 false.
