(* ===== verification/NetworkerSafety.v ===== *)
(** * NetworkerSafety: the kill switch

    Proves, for the networker of file Networker over any collaborators and any
    firewall agent (both may fail at any call), that the rules of the kill switch
    stay in the firewall until the kill switch is unset. *)

From stdpp Require Import base option list strings gmap.
From Stdlib Require Import ZArith Lia.
From S2P Require Import Prelude GoLib Config Mesh Firewall Networker.
Set Warnings "-clear-no-such-hyp".

Open Scope go_scope.

(** ** Names *)

(** Neither of the rules of the kill switch is named [s]. *)
Definition safe_name (s : string) : Prop := s <> "drop" /\ s <> "drop-fw".

Lemma long_name_safe s : (8 <= String.length s)%nat -> safe_name s.
Proof. intros Hs. split; intros ->; cbn in Hs; lia. Qed.

Lemma peer_name_safe (k mid a : string) : (8 <= String.length mid)%nat -> safe_name (k +:+ mid +:+ a).
Proof. intros Hm. apply long_name_safe. rewrite !string_length_app. lia. Qed.

Lemma allow_name_safe k a : safe_name (allow_rule_name k a).
Proof. apply peer_name_safe. vm_compute. lia. Qed.

Lemma lan_name_safe k a : safe_name (lan_rule_name k a).
Proof. apply peer_name_safe. vm_compute. lia. Qed.

Lemma fileshare_name_safe k a : safe_name (fileshare_rule_name k a).
Proof. apply peer_name_safe. vm_compute. lia. Qed.

(** ** The rules of the kill switch in the firewall's memory *)

(** A rule with the name of a kill switch rule is that rule. *)
Definition good_rule (r : Rule) : Prop :=
  (r_Name r = "drop" -> exists ifaces, r = drop_rule ifaces) /\
  (r_Name r = "drop-fw" -> exists ifaces, r = drop_fw_rule ifaces).

Lemma safe_good r : safe_name (r_Name r) -> good_rule r.
Proof. intros [H1 H2]. by split. Qed.

Lemma drop_good ifaces : good_rule (drop_rule ifaces).
Proof. split; [by exists ifaces|done]. Qed.

Lemma drop_fw_good ifaces : good_rule (drop_fw_rule ifaces).
Proof. split; [done|by exists ifaces]. Qed.

Section Memory.
Context {A : Type} `{Agent A}.
Implicit Types f : Firewall A.

Definition names f : list string := r_Name <$> fw_rules f.

Definition blocked f : Prop :=
  Forall good_rule (fw_rules f) /\ "drop" ∈ names f /\ "drop-fw" ∈ names f.

(** Traffic through the interfaces listed is dropped by a rule in memory. *)
Lemma blocked_rules f :
  blocked f -> exists i j, drop_rule i ∈ fw_rules f /\ drop_fw_rule j ∈ fw_rules f.
Proof.
  intros (Hg & (r & Hr & Hin)%list_elem_of_fmap & (r' & Hr' & Hin')%list_elem_of_fmap).
  rewrite Forall_forall in Hg.
  destruct (proj1 (Hg r Hin) (eq_sym Hr)) as [i ->].
  destruct (proj2 (Hg r' Hin') (eq_sym Hr')) as [j ->]. eauto.
Qed.

Lemma in_delete_or (l : list string) i x y :
  x ∈ l -> l !! i = Some y -> x = y \/ x ∈ delete i l.
Proof.
  intros Hx Hi. rewrite (delete_Permutation _ _ _ Hi) in Hx.
  by apply elem_of_cons in Hx.
Qed.

Definition mem_blocked (l : list Rule) : Prop :=
  Forall good_rule l /\ "drop" ∈ (r_Name <$> l) /\ "drop-fw" ∈ (r_Name <$> l).

Lemma mem_Add_keeps x rule : preserves (fun l => x ∈ (r_Name <$> l)) (OrderedRules.Add rule).
Proof.
  intros l Hl. unfold OrderedRules.Add. case_bool_decide; [done|].
  destruct (index_func _ l) as [i|] eqn:Ei; [|cbn; rewrite fmap_app; set_solver].
  destruct (index_func_Some _ _ _ Ei) as (y & Hy & Hname%byName_true). rewrite Hy.
  destruct (Rule_Equal y rule); [done|]. cbn [snd]. rewrite fmap_app, list_fmap_delete.
  destruct (in_delete_or (r_Name <$> l) i x (r_Name y) Hl) as [->|Hin];
    [by rewrite list_lookup_fmap, Hy|rewrite Hname; set_solver|set_solver].
Qed.

Lemma mem_Add_good rule : good_rule rule -> preserves (Forall good_rule) (OrderedRules.Add rule).
Proof.
  intros Hr l Hl. unfold OrderedRules.Add. case_bool_decide; [done|].
  destruct (index_func _ l) as [i|]; [destruct (l !! i) as [y|]; [destruct (Rule_Equal y rule)|]|];
    cbn; try done; apply Forall_app; auto using Forall_delete.
Qed.

Lemma mem_Add_blocked rule : good_rule rule -> preserves mem_blocked (OrderedRules.Add rule).
Proof.
  intros Hr l (Hg & Hd & Hf).
  split; [by apply mem_Add_good|split; by apply mem_Add_keeps].
Qed.

Lemma mem_Delete_blocked name : safe_name name -> preserves mem_blocked (OrderedRules.Delete name).
Proof.
  intros [Hn1 Hn2] l (Hg & Hd & Hf). unfold OrderedRules.Delete.
  destruct (index_func _ l) as [i|] eqn:Ei; [|done].
  destruct (index_func_Some _ _ _ Ei) as (x & Hx & Hname%byName_true).
  assert (forall y, y <> name -> y ∈ (r_Name <$> l) -> y ∈ (r_Name <$> delete i l)) as Hkeep.
  { intros y Hne Hy. rewrite list_fmap_delete.
    destruct (in_delete_or _ i y (r_Name x) Hy) as [->|Hin]; [by rewrite list_lookup_fmap, Hx|congruence|done]. }
  destruct (length l <=? 1)%nat eqn:Hlen.
  - apply Nat.leb_le in Hlen. destruct l as [|r [|r' l]]; [by apply elem_of_nil in Hd| |cbn in Hlen; lia].
    apply list_elem_of_singleton in Hd, Hf. congruence.
  - split; [by apply Forall_delete|]. split; apply Hkeep; congruence || done.
Qed.

Lemma on_rules_blocked {B} (op : M (list Rule) B) :
  preserves mem_blocked op -> preserves blocked (on_rules (A := A) op).
Proof.
  intros Hop. apply (preserves_zoom _ (fun _ => mem_blocked)); [done|done|]. by intros s.
Qed.

Lemma on_agent_blocked ref op : preserves blocked (on_agent (A := A) ref op).
Proof. destruct ref; [apply preserves_ret|]. by apply preserves_zoom_frame. Qed.

Lemma Get_blocked name : preserves mem_blocked (OrderedRules.Get name).
Proof. intros l Hl. unfold OrderedRules.Get. by destruct (index_func _ l). Qed.

(** The memory after [Add], whatever the agent answers. *)
Lemma Add_memory (P : list Rule -> Prop) rules :
  (forall r, r ∈ rules -> preserves P (OrderedRules.Add r)) ->
  preserves (fun f => P (fw_rules f)) (Firewall.Add (A := A) rules).
Proof.
  intros HP. apply preserves_forM_in. intros rule Hin. unfold add_rule.
  repeat first
    [ match goal with
      | |- preserves _ (on_agent ?ref _) =>
          destruct ref; [apply preserves_ret|by apply preserves_zoom_frame]
      | |- preserves _ (on_rules _) => apply (preserves_zoom _ (fun _ => P)); [done|done|intros _]
      end
    | pres_step ]; [|by apply HP].
  intros l Hl. unfold OrderedRules.Get. by destruct (index_func _ l).
Qed.

Lemma Add_blocked rules : Forall good_rule rules -> preserves blocked (Firewall.Add rules).
Proof.
  intros Hg. apply (Add_memory mem_blocked). rewrite Forall_forall in Hg.
  auto using mem_Add_blocked.
Qed.

(** Deleting a rule removes the name it was found by. *)
Lemma Get_name f name r f' :
  on_rules (A := A) (OrderedRules.Get name) f = (Ok r, f') -> r_Name r = name.
Proof.
  unfold on_rules, zoom, OrderedRules.Get. destruct (index_func _ _) as [i|] eqn:Ei; [|done].
  destruct (index_func_Some _ _ _ Ei) as (x & Hx & Hn%byName_true). rewrite Hx. by intros [= <- _].
Qed.

Lemma delete_rule_blocked name : safe_name name -> preserves blocked (delete_rule name).
Proof.
  intros Hn f Hf. unfold delete_rule.
  pose proof (on_rules_blocked _ (Get_blocked name) f Hf) as Hget.
  unfold bind at 1, wrapped at 1.
  destruct (on_rules (OrderedRules.Get name) f) as [[r|e] f'] eqn:E; [|done].
  apply Get_name in E as Hrn. cbn [snd] in Hget. revert Hget. generalize f'. clear f' E f Hf.
  cbv beta. change (preserves blocked (let! cur := gets fw_current in
    wrapped ("deleting " +:+ name +:+ ": ") (on_agent cur (agent_Delete r)) "" ;;
    let! r := attempt (on_rules (OrderedRules.Delete (r_Name r))) in
    match r with
    | Ok _ => ret tt
    | Err e => throw (Errorf ("deleting " +:+ name +:+ " from memory: " +:+ error_text e))
    end)).
  rewrite Hrn. repeat first [apply on_agent_blocked | apply on_rules_blocked | pres_step].
  by apply mem_Delete_blocked.
Qed.

Lemma Delete_blocked l : Forall safe_name l -> preserves blocked (Firewall.Delete l).
Proof.
  intros Hl. apply preserves_forM_in. intros name Hin. rewrite Forall_forall in Hl.
  by apply delete_rule_blocked, Hl.
Qed.

Lemma swap_blocked a b : preserves blocked (swap (A := A) a b).
Proof. unfold swap. repeat first [apply on_agent_blocked | pres_step]. Qed.

Lemma Enable_blocked : preserves blocked (Enable (A := A)).
Proof.
  unfold Enable. repeat first [apply swap_blocked | pres_step]; by apply preserves_modify.
Qed.

Lemma Disable_blocked : preserves blocked (Disable (A := A)).
Proof.
  unfold Disable. repeat first [apply swap_blocked | pres_step]; by apply preserves_modify.
Qed.
End Memory.

(** ** The invariant of the networker *)

Lemma preserves_and {S B} (I J : S -> Prop) (m : M S B) :
  preserves I m -> preserves J m -> preserves (fun s => I s /\ J s) m.
Proof. intros HI HJ s [Hi Hj]. split; [by apply HI|by apply HJ]. Qed.

(** An invariant of the firewall service. *)
Class FwStable {A} `{Agent A} (J : Firewall A -> Prop) : Prop := {
  stable_Add rules : preserves J (Firewall.Add rules);
  stable_Delete l : preserves J (Firewall.Delete l);
  stable_Enable : preserves J Enable
}.

(** One that disabling the firewall keeps as well. *)
Class FwDisableStable {A} `{Agent A} (J : Firewall A -> Prop) : Prop :=
  stable_Disable : preserves J Disable.

#[export] Instance True_stable {A} `{Agent A} : FwStable (A := A) (fun _ => True).
Proof. by split. Qed.

#[export] Instance True_disable {A} `{Agent A} : FwDisableStable (A := A) (fun _ => True).
Proof. done. Qed.

#[export] Instance synced_stable {A} `{Agent A} (R : A -> list Rule -> Prop) `{!LawfulAgent A R} :
  FwStable (synced R).
Proof.
  split.
  - intros rules. apply (exec_op_synced R (OpAdd rules)).
  - intros l. apply (exec_op_synced R (OpDelete l)).
  - apply (exec_op_synced R OpEnable).
Qed.

#[export] Instance synced_disable {A} `{Agent A} (R : A -> list Rule -> Prop) `{!LawfulAgent A R} :
  FwDisableStable (synced R).
Proof. apply (exec_op_synced R OpDisable). Qed.

(** A firewall that is enabled stays so until it is disabled. *)
Lemma enabled_zoom {A B T} `{Agent A} (get : Firewall A -> T) put (m : M T B) :
  (forall t f, fw_enabled (put t f) = fw_enabled f) ->
  preserves (fun f : Firewall A => fw_enabled f = true) (zoom get put m).
Proof. intros Hput. apply preserves_zoom_frame. intros t f Hf. by rewrite Hput. Qed.

Section Enabled.
Context {A : Type} `{Agent A}.
#[local] Abbreviation on := (fun f : Firewall A => fw_enabled f = true).

Lemma enabled_rules {B} (m : M (list Rule) B) : preserves on (on_rules m).
Proof. by apply enabled_zoom. Qed.

Lemma enabled_agent ref (m : M A unit) : preserves on (on_agent ref m).
Proof. destruct ref; [apply preserves_ret|by apply enabled_zoom]. Qed.

Lemma enabled_Add rules : preserves on (Firewall.Add rules).
Proof.
  unfold Firewall.Add, add_rule. repeat first [apply enabled_rules | apply enabled_agent | pres_step].
Qed.

Lemma enabled_Delete l : preserves on (Firewall.Delete l).
Proof.
  unfold Firewall.Delete, delete_rule. repeat first [apply enabled_rules | apply enabled_agent | pres_step].
Qed.

#[export] Instance enabled_stable (R : A -> list Rule -> Prop) `{!LawfulAgent A R} :
  FwStable (fun f => synced R f /\ fw_enabled f = true).
Proof.
  split; intros; (apply preserves_and; [apply synced_stable; done|]).
  - apply enabled_Add.
  - apply enabled_Delete.
  - intros f Hf. unfold Enable. rewrite bind_gets, Hf. done.
Qed.
End Enabled.

Section Invariant.
Context {W A : Type} `{Collaborators W} `{Agent A}.
Context {J : Firewall A -> Prop} `{HJ : !FwStable J}.
Implicit Types n : Combined W A.

(** A flag that is known, or not. *)
Definition is_flag (o : option bool) (b : bool) : Prop :=
  match o with Some v => b = v | None => True end.

(** The block is in memory, no rule name the meshnet will delete is one of its
    names, and the flags have the values given. *)
Definition held (J : Firewall A -> Prop) (ks net vpn : option bool) n : Prop :=
  (blocked (nw_fw n) /\ J (nw_fw n)) /\ Forall safe_name (nw_rules n) /\
  is_flag ks (nw_isKillSwitchSet n) /\ is_flag net (nw_isNetworkSet n) /\
  is_flag vpn (nw_isVpnSet n).

Lemma held_world {B} ks net vpn (m : M W B) : preserves (held J ks net vpn) (on_world m).
Proof. by apply preserves_zoom_frame. Qed.

Lemma held_observe {B} ks net vpn (f : W -> B) : preserves (held J ks net vpn) (observe f).
Proof. apply preserves_gets. Qed.

Lemma held_fw {B} ks net vpn (m : M (Firewall A) B) :
  preserves blocked m -> preserves J m -> preserves (held J ks net vpn) (on_fw m).
Proof.
  intros Hm Hj. apply (preserves_zoom _ (fun _ f => blocked f /\ J f)); [by intros n (? & _)| |].
  - intros n f (_ & Hr & Hflags) Hf. by split.
  - intros _. by apply preserves_and.
Qed.

Lemma held_Add ks net vpn rules :
  Forall good_rule rules -> preserves (held J ks net vpn) (fw_Add rules).
Proof. intros Hg. apply held_fw; [by apply Add_blocked|apply stable_Add]. Qed.

Lemma held_Delete ks net vpn l :
  Forall safe_name l -> preserves (held J ks net vpn) (fw_Delete l).
Proof. intros Hl. apply held_fw; [by apply Delete_blocked|apply stable_Delete]. Qed.

Lemma held_append ks net vpn name :
  safe_name name -> preserves (held J ks net vpn) (append_rule_name name).
Proof.
  intros Hn. apply preserves_modify. intros n (Hb & Hr & Hf). split; [done|].
  split; [|done]. apply Forall_app. by split; [|constructor].
Qed.

Lemma held_remove ks net vpn i :
  preserves (held J ks net vpn) (modify (fun n => n <| nw_rules := delete i (nw_rules n) |>)).
Proof.
  apply preserves_modify. intros n (Hb & Hr & Hf). split; [done|]. split; [|done].
  by apply Forall_delete.
Qed.

(** Updates of the fields the invariant does not mention. *)
Lemma held_set ks net vpn (f : Combined W A -> Combined W A) :
  (forall n, nw_fw (f n) = nw_fw n /\ nw_rules (f n) = nw_rules n /\
     nw_isKillSwitchSet (f n) = nw_isKillSwitchSet n /\
     nw_isNetworkSet (f n) = nw_isNetworkSet n /\ nw_isVpnSet (f n) = nw_isVpnSet n) ->
  preserves (held J ks net vpn) (modify f).
Proof.
  intros Hf. apply preserves_modify. intros n Hn.
  destruct (Hf n) as (E1 & E2 & E3 & E4 & E5). unfold held. by rewrite E1, E2, E3, E4, E5.
Qed.

Lemma held_flag_ks net vpn b : preserves (held J None net vpn) (set! nw_isKillSwitchSet := b).
Proof. apply preserves_modify. by intros n (? & ? & _ & ? & ?). Qed.

Lemma held_flag_ks_true net vpn :
  preserves (held J (Some true) net vpn) (set! nw_isKillSwitchSet := true).
Proof. apply preserves_modify. by intros n (? & ? & _ & ? & ?). Qed.

Lemma held_flag_net ks vpn b : preserves (held J ks None vpn) (set! nw_isNetworkSet := b).
Proof. apply preserves_modify. by intros n (? & ? & ? & _ & ?). Qed.

Lemma held_flag_net_true ks vpn : preserves (held J ks (Some true) vpn) (set! nw_isNetworkSet := true).
Proof. apply preserves_modify. by intros n (? & ? & ? & _ & ?). Qed.

Lemma held_flag_vpn ks net b : preserves (held J ks net None) (set! nw_isVpnSet := b).
Proof. apply preserves_modify. by intros n (? & ? & ? & ? & _). Qed.

Lemma held_clear ks net vpn : preserves (held J ks net vpn) (set! nw_rules := []).
Proof. apply preserves_modify. by intros n (? & _ & ?). Qed.

(** The meshnet deletes exactly the rules it named. *)
Lemma held_UnBlock ks net vpn : preserves (held J ks net vpn) defaultMeshUnBlock.
Proof.
  intros n Hn. unfold defaultMeshUnBlock. rewrite bind_gets. revert n Hn.
  assert (forall l, Forall safe_name l -> preserves (held J ks net vpn)
            (fw_Delete l ;; set! nw_rules := [])) as Hdel.
  { intros l Hl. apply preserves_bind; [by apply held_Delete|]. intros _. apply held_clear. }
  intros n Hn. apply (Hdel (nw_rules n)); [apply Hn|done].
Qed.

Lemma held_removeRule ks net vpn name :
  safe_name name -> preserves (held J ks net vpn) (removeRule name).
Proof.
  intros Hn. unfold removeRule. repeat first [apply held_remove | apply held_Delete | pres_step].
  by constructor.
Qed.

Lemma held_vpn_ref ks net vpn : preserves (held J ks net vpn) vpn_ref.
Proof. apply preserves_gets. Qed.
End Invariant.

Create HintDb held discriminated.
#[export] Hint Constants Opaque : held.
#[export] Hint Resolve held_world held_observe held_Add held_Delete held_append held_remove
  held_flag_ks held_flag_ks_true held_flag_net held_flag_net_true held_flag_vpn held_clear
  held_UnBlock held_removeRule held_vpn_ref : held.
#[export] Hint Resolve preserves_ret preserves_throw preserves_gets : held.

(** Rules and names of constant text. *)
Ltac solve_names :=
  repeat match goal with
  | |- Forall _ (_ :: _) => apply Forall_cons; split
  | |- Forall _ [] => apply Forall_nil; exact I
  | |- Forall _ (_ ++ _) => apply Forall_app; split
  | |- good_rule (drop_rule _) => apply drop_good
  | |- good_rule (drop_fw_rule _) => apply drop_fw_good
  | |- good_rule _ => apply safe_good
  | |- Forall _ (if ?b then _ else _) => destruct b
  | |- safe_name (r_Name (allow_rule ?k ?a)) => change (safe_name (allow_rule_name k a))
  | |- safe_name (r_Name (block_lan_rule ?k ?a)) => change (safe_name (lan_rule_name k a))
  | |- safe_name (r_Name (fileshare_rule ?k ?a)) => change (safe_name (fileshare_rule_name k a))
  | |- safe_name _ =>
      first [ assumption
            | apply allow_name_safe | apply lan_name_safe | apply fileshare_name_safe
            | solve [split; let E := fresh in intros E; vm_compute in E; discriminate E] ]
  end.

(** Decompose a method along its syntax, close calls with the database, plain
    field updates with [held_set] and rule lists with [solve_names]. *)
Ltac held_step :=
  first
    [ solve [eauto 3 with held nocore]
    | match goal with |- preserves _ (modify _) => apply held_set; intros; repeat split end
    | match goal with
      | |- preserves _ (fw_Add _) => apply held_Add; solve [solve_names]
      | |- preserves _ (fw_Delete _) => apply held_Delete; solve [solve_names]
      | |- preserves _ (append_rule_name _) => apply held_append; solve [solve_names]
      | |- preserves _ (removeRule _) => apply held_removeRule; solve [solve_names]
      end
    | pres_step ].

Ltac held_auto := repeat held_step.

Section Operations.
Context {W A : Type} `{Collaborators W} `{Agent A}.
Context {J : Firewall A -> Prop} `{HJ : !FwStable J}.
Context (ks net vpn : option bool).
#[local] Abbreviation keeps := (preserves (held (W := W) (A := A) J ks net vpn)).

Lemma held_devices : keeps devices.
Proof. apply held_world. Qed.

Lemma held_vpn_interface : keeps vpn_interface.
Proof. unfold vpn_interface. held_auto. Qed.

Lemma held_isConnected : keeps isConnectedToVPN.
Proof. unfold isConnectedToVPN. held_auto. Qed.

Lemma held_setupRoutingRules v6 local subnets : keeps (setupRoutingRules v6 local subnets).
Proof. unfold setupRoutingRules. held_auto. Qed.

Lemma held_parse l : keeps (parse_subnets l).
Proof. induction l; cbn; held_auto. Qed.

Lemma held_blockTraffic : keeps blockTraffic.
Proof. unfold blockTraffic, devices. held_auto. Qed.

Lemma held_allowlist_ports ifaces name set : keeps (allowlist_ports ifaces name set).
Proof. unfold allowlist_ports. held_auto. Qed.

Lemma allowlist_ports_good ifaces name set :
  ensures (fun rules _ => Forall good_rule rules)
    (allowlist_ports (W := W) (A := A) ifaces name set).
Proof.
  unfold allowlist_ports. apply ensures_bind. intros keys. cbv zeta.
  destruct (filter _ keys); [apply ensures_ret; constructor|].
  do 2 (apply ensures_bind; intros ?). destruct a0; [|apply ensures_throw].
  apply ensures_ret. intros _. constructor; [|constructor]. apply safe_good, long_name_safe.
  change (8 <= String.length ("allowlist_ports_" +:+ name))%nat. rewrite string_length_app. cbn. lia.
Qed.

Lemma held_denyDNS : keeps denyDNS.
Proof. unfold denyDNS. held_auto. Qed.

Lemma held_undenyDNS : keeps undenyDNS.
Proof. unfold undenyDNS. held_auto. Qed.

Lemma held_setAllowlist allowlist : keeps (setAllowlist allowlist).
Proof.
  unfold setAllowlist. apply preserves_bind; [apply held_devices|]. intros ifaces.
  apply preserves_bind; [apply preserves_gets|]. intros lan. cbv zeta.
  apply preserves_bind; [apply held_world|]. intros cidrs.
  apply preserves_bind; [apply held_parse|]. intros subnets.
  apply (preserves_bind_with _ (Forall good_rule));
    [apply held_allowlist_ports|apply allowlist_ports_good|]. intros tcp Htcp.
  apply (preserves_bind_with _ (Forall good_rule));
    [apply held_allowlist_ports|apply allowlist_ports_good|]. intros udp Hudp.
  apply preserves_bind.
  { apply held_Add. apply Forall_app. split; [|by apply Forall_app].
    destruct subnets; solve_names. }
  intros _. repeat first [apply held_denyDNS | apply held_setupRoutingRules | held_step].
Qed.

Lemma held_delete_if_present name : safe_name name -> keeps (delete_if_present name).
Proof. intros Hn. unfold delete_if_present. held_auto. Qed.

Lemma held_unsetAllowlist : keeps unsetAllowlist.
Proof.
  unfold unsetAllowlist.
  apply preserves_bind; [held_auto|]. intros _.
  apply preserves_bind; [|intros _; repeat first [apply held_undenyDNS | held_step]].
  apply preserves_forM_in. intros name Hin. apply held_delete_if_present.
  revert name Hin. apply Forall_forall. solve_names.
Qed.

Lemma held_resetAllowlist : keeps resetAllowlist.
Proof.
  unfold resetAllowlist.
  repeat first [apply held_unsetAllowlist | apply held_setAllowlist | held_step].
Qed.

Lemma held_setDNS ns : keeps (setDNS ns).
Proof. unfold setDNS. repeat first [apply held_vpn_interface | held_step]. Qed.

Lemma held_unsetDNS : keeps unsetDNS.
Proof. unfold unsetDNS. repeat first [apply held_vpn_interface | held_step]. Qed.

Lemma held_denyIPv6 : keeps denyIPv6.
Proof. unfold denyIPv6. held_auto. Qed.

Lemma held_disableIPv6IfNeeded : keeps disableIPv6IfNeeded.
Proof. unfold disableIPv6IfNeeded. repeat first [apply held_denyIPv6 | held_step]. Qed.

Lemma held_defaultMeshBlock ip : keeps (defaultMeshBlock ip).
Proof. unfold defaultMeshBlock. held_auto. Qed.

Lemma held_allowIncoming key address lan : keeps (allowIncoming key address lan).
Proof. unfold allowIncoming. cbv zeta. held_auto. Qed.

Lemma held_allowFileshare key address : keeps (allowFileshare key address).
Proof. unfold allowFileshare. cbv zeta. held_auto. Qed.

Lemma held_blockIncoming ua : keeps (blockIncoming ua).
Proof. unfold blockIncoming. cbv zeta. held_auto. Qed.

Lemma held_refresh_peer peer : keeps (refresh_peer peer).
Proof.
  unfold refresh_peer. cbv zeta.
  repeat first [apply held_allowIncoming | apply held_allowFileshare | held_step].
Qed.

Lemma held_refresh cfg : keeps (refresh cfg).
Proof.
  unfold refresh. cbv zeta.
  repeat first [apply held_defaultMeshBlock | apply held_allowIncoming
               | apply held_refresh_peer | held_step].
Qed.

Lemma held_refreshIncoming peer : keeps (refreshIncoming peer).
Proof.
  unfold refreshIncoming. cbv zeta.
  repeat first [apply held_blockIncoming | apply held_allowIncoming | held_step].
Qed.

Lemma held_addDefaultRoute : keeps addDefaultRoute.
Proof. unfold addDefaultRoute. repeat first [apply held_vpn_interface | held_step]. Qed.

Lemma held_configureDNS server ns : keeps (configureDNS server ns).
Proof. unfold configureDNS. repeat first [apply held_setDNS | held_step]. Qed.

Lemma held_switchToNextVpn : keeps switchToNextVpn.
Proof. unfold switchToNextVpn. held_auto. Qed.

Lemma held_stopAllowedIPv6Traffic : keeps stopAllowedIPv6Traffic.
Proof. unfold stopAllowedIPv6Traffic, ipv6_rule_names. held_auto. Qed.

Lemma held_start_vpn creds server : keeps (start_vpn creds server).
Proof. unfold start_vpn. held_auto. Qed.

Lemma held_handleNetworkChanged : keeps handleNetworkChanged.
Proof.
  unfold handleNetworkChanged, fixForLinuxMint20.
  repeat first [apply held_setDNS | apply held_resetAllowlist | held_step].
Qed.

Lemma held_setMesh_cleanup b : keeps (setMesh_cleanup b).
Proof. unfold setMesh_cleanup. held_auto. Qed.

Lemma held_unSetMesh : keeps unSetMesh.
Proof. unfold unSetMesh. repeat first [apply held_addDefaultRoute | held_step]. Qed.
End Operations.

#[export] Hint Resolve held_devices held_vpn_interface held_isConnected held_setupRoutingRules
  held_blockTraffic held_denyDNS held_undenyDNS held_setAllowlist held_unsetAllowlist
  held_resetAllowlist held_setDNS held_unsetDNS held_denyIPv6 held_disableIPv6IfNeeded
  held_allowIncoming held_allowFileshare held_blockIncoming held_refresh held_refreshIncoming
  held_addDefaultRoute held_configureDNS held_switchToNextVpn held_stopAllowedIPv6Traffic
  held_start_vpn held_handleNetworkChanged held_setMesh_cleanup held_unSetMesh : held.

(** ** While the kill switch is set

    [armed]: the flag is set and the block is in memory. *)

Section Armed.
Context {W A : Type} `{Collaborators W} `{Agent A}.
Context {J : Firewall A -> Prop} `{HJ : !FwStable J}.
#[local] Abbreviation armed := (held (W := W) (A := A) J (Some true) None None).

(** Code that first asks whether the kill switch is set takes the branch that
    keeps the block. *)
Lemma armed_read {B} (k : bool -> M (Combined W A) B) :
  preserves armed (k true) -> preserves armed (let! ks := gets nw_isKillSwitchSet in k ks).
Proof. apply preserves_read. by intros n (_ & _ & Hks & _). Qed.

Ltac armed_step :=
  first
    [ match goal with
      | |- preserves _ (bind (gets nw_isKillSwitchSet) _) =>
          apply armed_read; cbv beta; cbn [negb]; rewrite ?andb_false_r; cbn [when]
      end
    | held_step ].
Ltac armed_auto := repeat armed_step.

Lemma armed_setNetwork allowlist : preserves armed (setNetwork allowlist).
Proof. unfold setNetwork. armed_auto. Qed.
#[local] Hint Resolve armed_setNetwork : held.

Lemma armed_setKillSwitch allowlist : preserves armed (setKillSwitch allowlist).
Proof. unfold setKillSwitch. armed_auto. Qed.

Lemma armed_failureRecover : preserves armed failureRecover.
Proof. unfold failureRecover. armed_auto. Qed.
#[local] Hint Resolve armed_failureRecover : held.

Lemma armed_configureNetwork allowlist server ns :
  preserves armed (configureNetwork allowlist server ns).
Proof. unfold configureNetwork, configureFirewall. armed_auto. Qed.
#[local] Hint Resolve armed_configureNetwork : held.

Lemma armed_start creds server allowlist ns : preserves armed (start creds server allowlist ns).
Proof. unfold start, pick_server, set_start_time. armed_auto. Qed.
#[local] Hint Resolve armed_start : held.

Lemma armed_restart creds server ns : preserves armed (restart creds server ns).
Proof. unfold restart, pick_server, set_start_time. armed_auto. Qed.
#[local] Hint Resolve armed_restart : held.

Lemma armed_stop : preserves armed stop.
Proof. unfold stop. armed_auto. Qed.
#[local] Hint Resolve armed_stop : held.

Lemma armed_setMesh cfg self key : preserves armed (setMesh cfg self key).
Proof. unfold setMesh, mesh_interface. armed_auto. Qed.
#[local] Hint Resolve armed_setMesh : held.

Lemma armed_recreate vpn mesh : preserves armed (recreate vpn mesh).
Proof. unfold recreate, remesh, start_again. armed_auto. Qed.
#[local] Hint Resolve armed_recreate : held.

Lemma armed_refreshVPN : preserves armed refreshVPN.
Proof. unfold refreshVPN, reinit, join_errors. armed_auto. Qed.
#[local] Hint Resolve armed_refreshVPN : held.

Lemma armed_Enable : preserves armed EnableFirewall.
Proof. apply preserves_wrapped, held_fw; [apply Enable_blocked|apply stable_Enable]. Qed.

Lemma armed_Disable : preserves J Disable -> preserves armed DisableFirewall.
Proof. intros HD. apply preserves_wrapped, held_fw; [apply Disable_blocked|done]. Qed.

Lemma armed_exec_but o :
  o <> NwUnsetKillSwitch -> (o = NwDisableFirewall -> preserves J Disable) -> preserves armed (exec_nw o).
Proof.
  intros Ho HD. destruct o; cbn [exec_nw]; try done;
    try solve [apply armed_Enable | by apply armed_Disable, HD | apply armed_setKillSwitch];
    unfold Start, Stop, SetDNS, UnsetDNS, PermitIPv6, EnableRouting, DisableRouting,
      SetAllowlist, UnsetFirewall, SetVPN, UnSetMesh, AllowIncoming, AllowFileshare,
      BlockFileshare, ResetRouting, SetLanDiscovery, Reconnect; armed_auto.
Qed.

Lemma armed_exec `{!FwDisableStable J} o : o <> NwUnsetKillSwitch -> preserves armed (exec_nw o).
Proof. intros Ho. apply armed_exec_but; [done|]. intros _. apply stable_Disable. Qed.
End Armed.

(** ** Reconnecting

    [refreshVPN] sets the kill switch for the time the tunnel is recreated and
    lifts it afterwards. *)

Section Reconnecting.
Context {W A : Type} `{Collaborators W} `{Agent A}.
Context {J : Firewall A -> Prop} `{HJ : !FwStable J}.
Implicit Types n : Combined W A.

Lemma start_sets_vpn creds server allowlist ns :
  ensures (fun _ n => nw_isVpnSet n = true) (start (W := W) (A := A) creds server allowlist ns).
Proof.
  unfold start. apply ensures_bind. intros already. apply ensures_bind. intros vpnet.
  destruct already; [apply ensures_throw|]. destruct vpnet; [|apply ensures_throw].
  apply ensures_on_error. do 5 (apply ensures_bind; intros ?).
  apply ensures_then; [by apply ensures_modify|]. intros _. unfold set_start_time.
  repeat match goal with
  | |- preserves _ (modify _) => by apply preserves_modify
  | |- preserves _ (observe _) => apply preserves_gets
  | |- preserves _ vpn_interface => unfold vpn_interface, vpn_ref
  | _ => pres_step
  end.
Qed.

Lemma start_again_sets_vpn :
  ensures (fun e n => e = None -> nw_isVpnSet n = true) (start_again (W := W) (A := A)).
Proof.
  unfold start_again. do 4 (apply ensures_bind; intros ?). intros n e n'.
  unfold bind, attempt. destruct (start _ _ _ _ n) as [[u|e'] n1] eqn:E; cbn; [|by intros [= <- <-]].
  intros [= <- <-] _. by apply start_sets_vpn in E.
Qed.

Lemma recreate_sets_vpn mesh :
  ensures (fun errs n => errs.1 = None -> nw_isVpnSet n = true)
    (recreate (W := W) (A := A) true mesh).
Proof.
  unfold recreate. do 2 (apply ensures_bind; intros ?). apply ensures_bind. intros [e|].
  { intros n p n' [= <- <-]. done. }
  do 2 (apply ensures_bind; intros ?). intros n p n'. unfold bind.
  destruct (start_again n) as [[e|e] n1] eqn:E; [|done]. intros [= <- <-]. cbn.
  by apply start_again_sets_vpn in E.
Qed.

Lemma held_weaken ks net vpn n : held J ks net vpn n -> held J None None None n.
Proof. by intros (? & ? & _). Qed.

Lemma held_armed ks net vpn n : held J (Some ks) net vpn n -> held J (Some ks) None None n.
Proof. by intros (? & ? & ? & _). Qed.

(** Lifting the temporary kill switch never runs [unsetNetwork]. *)
Lemma lift_blocked n vpnErr :
  held J None None None n -> (vpnErr = None -> nw_isVpnSet n = true) ->
  held J None None None (lift_kill_switch vpnErr n).2 /\
  exists e, (lift_kill_switch vpnErr n).1 = Ok e.
Proof.
  intros Hn Hvpn. destruct vpnErr as [e|].
  - split; [|by eexists]. by destruct Hn as (? & ? & _).
  - assert (lift_kill_switch None n = (Ok None, n <| nw_isKillSwitchSet := false |>)) as ->.
    { assert (unsetKillSwitch n = (Ok tt, n <| nw_isKillSwitchSet := false |>)) as Hu.
      { unfold unsetKillSwitch. by rewrite bind_gets, Hvpn. }
      unfold lift_kill_switch. by rewrite (bind_attempt _ _ _ _ _ Hu). }
    split; [|by eexists]. by destruct Hn as (? & ? & _).
Qed.

Lemma join_held ks net vpn e e' : preserves (held (W := W) (A := A) J ks net vpn) (join_errors e e').
Proof. unfold join_errors. held_auto. Qed.

(** The first step of a reconnect: the network is set, so setting the kill
    switch only sets the flag. *)
Lemma temporary_kill_switch n allowlist :
  nw_isNetworkSet n = true ->
  setKillSwitch allowlist n = (Ok tt, n <| nw_isKillSwitchSet := true |>).
Proof. intros Hnet. unfold setKillSwitch. by rewrite bind_gets, Hnet. Qed.

Lemma recreate_and_lift n mesh :
  held J (Some true) None None n ->
  held J None None None
    ((let! errs := recreate true mesh in
      let! vpnErr := lift_kill_switch errs.1 in
      join_errors vpnErr errs.2) n).2.
Proof.
  intros Hn1. pose proof (armed_recreate true mesh n Hn1) as Hn2.
  unfold bind at 1. destruct (recreate true mesh n) as [[errs|e] n2] eqn:E; cbn [snd] in *.
  - apply recreate_sets_vpn in E.
    destruct (lift_blocked n2 errs.1 (held_weaken _ _ _ _ Hn2) E) as [Hn3 [e He]].
    unfold bind. destruct (lift_kill_switch errs.1 n2) as [r n3]. cbn in He, Hn3. subst r.
    by apply join_held.
  - exact (held_weaken _ _ _ _ Hn2).
Qed.

Lemma reinit_blocked n mesh :
  held J None (Some true) (Some true) n -> held J None None None (reinit true mesh n).2.
Proof.
  intros Hn. unfold reinit. rewrite bind_gets. cbn [andb].
  destruct (nw_isKillSwitchSet n) eqn:Hks; cbn [negb].
  - assert (preserves (held (W := W) (A := A) J (Some true) None None)
      (let! errs := recreate true mesh in join_errors errs.1 errs.2)) as Hp.
    { apply preserves_bind; [apply armed_recreate|]. intros errs. apply join_held. }
    eapply held_weaken, Hp. by destruct Hn as (? & ? & _).
  - rewrite bind_gets. pose proof Hn as (_ & _ & _ & Hnet & _).
    erewrite bind_attempt by by apply temporary_kill_switch. cbv iota.
    apply recreate_and_lift. by destruct Hn as (? & ? & _).
Qed.

Lemma refreshVPN_blocked n :
  held J None (Some true) (Some true) n -> held J None None None (refreshVPN n).2.
Proof.
  intros Hn. pose proof Hn as (_ & _ & _ & _ & Hvpn). unfold refreshVPN.
  rewrite !bind_gets, Hvpn. cbn [negb andb]. unfold observe. rewrite !bind_gets.
  case_bool_decide.
  - pose proof (held_handleNetworkChanged None (Some true) (Some true) n Hn) as Hn1.
    rewrite bind_assoc. destruct (handleNetworkChanged n) as [r n1] eqn:E. go_run.
    cbn [snd] in Hn1. destruct r as [u|e]; cbn [is_ok].
    + exact (held_weaken _ _ _ _ Hn1).
    + rewrite bind_modify. apply reinit_blocked. by destruct Hn1 as (? & ? & ? & ? & ?).
  - rewrite bind_ret, bind_modify. apply reinit_blocked. by destruct Hn as (? & ? & ? & ? & ?).
Qed.

Lemma Reconnect_blocked n up :
  held J None (Some true) (Some true) n -> held J None None None (Reconnect up n).2.
Proof.
  intros Hn. pose proof Hn as (_ & _ & _ & _ & Hvpn). unfold Reconnect.
  rewrite bind_gets, Hvpn. cbn [when]. rewrite bind_ignore.
  pose proof (held_disableIPv6IfNeeded None (Some true) (Some true) n Hn) as Hn1.
  destruct up; cbn [when]; [|exact (held_weaken _ _ _ _ Hn1)].
  unfold ignore. cbn [snd]. by apply refreshVPN_blocked.
Qed.
End Reconnecting.

(** ** Setting the kill switch *)

Section Arming.
Context {W A : Type} `{Collaborators W} `{Agent A}.

Lemma armed_run {J : Firewall A -> Prop} `{!FwStable J} `{!FwDisableStable J} ops (n : Combined W A) :
  NwUnsetKillSwitch ∉ ops -> held J (Some true) None None n ->
  held J (Some true) None None (run_ops exec_nw ops n).
Proof.
  revert n. induction ops as [|o ops IH]; intros n Hops Hn; [done|]. cbn [run_ops].
  apply not_elem_of_cons in Hops as [Ho Hops]. apply IH; [done|]. by apply armed_exec.
Qed.

Context (R : A -> list Rule -> Prop) `{!LawfulAgent A R}.

(** The firewall is in step with its agent, and of the two rules of the kill
    switch only the one for forwarded traffic is never there alone. *)
Definition ready (f : Firewall A) : Prop :=
  synced R f /\ Forall good_rule (fw_rules f) /\ ("drop-fw" ∈ names f -> "drop" ∈ names f).

Lemma mem_Add_name rule :
  ensures (fun _ l => r_Name rule ∈ (r_Name <$> l)) (OrderedRules.Add rule).
Proof.
  intros l [] l'. unfold OrderedRules.Add. case_bool_decide; [done|].
  destruct (index_func _ l) as [i|]; [destruct (l !! i) as [x|]; [destruct (Rule_Equal x rule)|]|];
    intros [= <-]; rewrite ?fmap_app; set_solver.
Qed.

Lemma agent_keeps_name x ref op : preserves (fun f => x ∈ names f) (on_agent (A := A) ref op).
Proof. destruct ref; [apply preserves_ret|]. by apply preserves_zoom_frame. Qed.

Lemma add_rule_name rule : ensures (fun _ f => r_Name rule ∈ names f) (add_rule (A := A) rule).
Proof.
  unfold add_rule. case_bool_decide; [apply ensures_throw|].
  do 4 (apply ensures_bind; intros ?). apply ensures_then.
  - intros f [] f'. unfold wrapped, on_rules, zoom.
    destruct (OrderedRules.Add rule (fw_rules f)) as [[[]|e] l] eqn:E; [|done].
    intros [= <-]. by apply mem_Add_name in E.
  - intros _. destruct a; [apply preserves_wrapped, agent_keeps_name|apply preserves_ret].
Qed.

(** Adding one rule to a firewall in step: it is there afterwards, or it was
    there and nothing changed. *)
Lemma Add_one rule f :
  synced R f -> r_Name rule <> "" ->
  synced R (Firewall.Add [rule] f).2 /\ r_Name rule ∈ names (Firewall.Add [rule] f).2 /\
  (is_ok (Firewall.Add [rule] f).1 = false -> (Firewall.Add [rule] f).2 = f).
Proof.
  intros Hf Hn. split; [by apply (stable_Add (J := synced R))|].
  destruct (add_rule_run R f rule Hf) as (r & f' & Hrun & _ & Herr).
  assert (Firewall.Add [rule] f = (r, f')) as ->.
  { unfold Firewall.Add. cbn [forM_]. unfold bind. rewrite Hrun. by destruct r as [[]|e]. }
  destruct r as [[]|e]; cbn [is_ok fst snd].
  - apply add_rule_name in Hrun. done.
  - destruct (Herr eq_refl) as [-> [?|?]]; done.
Qed.

Implicit Types n : Combined W A.

(** Blocking traffic leaves both rules in memory, unless the devices cannot be
    listed. *)
Lemma blockTraffic_blocks n r n' :
  ready (nw_fw n) -> blockTraffic n = (r, n') ->
  nw_rules n' = nw_rules n /\
  ((synced R (nw_fw n') /\ blocked (nw_fw n')) \/
   exists e w', r = Err e /\ list_devices (nw_world n) = (Err e, w')).
Proof.
  intros (Hs & Hg & Hdrop). unfold blockTraffic, devices, on_world, zoom, bind at 1.
  destruct (list_devices (nw_world n)) as [[ifaces|e] w] eqn:Ed;
    [|intros [= <- <-]; split; [done|]; right; by eexists _, _].
  unfold fw_Add, on_fw, zoom, bind. cbn [nw_fw set_field].
  pose proof (Add_one (drop_fw_rule ifaces) (nw_fw n) Hs ltac:(done)) as (Hs1 & Hn1 & He1).
  pose proof (Add_memory (Forall good_rule) [drop_fw_rule ifaces]) as Hg1.
  specialize (Hg1 ltac:(by intros ? ->%list_elem_of_singleton; apply mem_Add_good, drop_fw_good)
                (nw_fw n) Hg).
  destruct (Firewall.Add [drop_fw_rule ifaces] (nw_fw n)) as [[[]|e] f1]; cbn [fst snd] in *.
  - pose proof (Add_one (drop_rule ifaces) f1 Hs1 ltac:(done)) as (Hs2 & Hn2 & _).
    pose proof (Add_memory (Forall good_rule) [drop_rule ifaces]) as Hg2.
    specialize (Hg2 ltac:(by intros ? ->%list_elem_of_singleton; apply mem_Add_good, drop_good)
                  f1 Hg1).
    pose proof (Add_memory _ [drop_rule ifaces] (fun r _ => mem_Add_keeps "drop-fw" r) f1 Hn1) as Hk.
    cbn [nw_fw].
    destruct (Firewall.Add [drop_rule ifaces] f1) as [r2 f2]. intros [= <- <-].
    split; [done|]. by left.
  - rewrite (He1 eq_refl) in *. intros [= <- <-]. split; [done|]. left.
    split; [done|]. split; [done|]. auto.
Qed.

(** Blocking traffic does not disable the firewall. *)
Lemma blockTraffic_enabled : preserves (fun n => fw_enabled (nw_fw n) = true) blockTraffic.
Proof.
  assert (Hadd : forall rules, preserves (fun n => fw_enabled (nw_fw n) = true) (fw_Add (W := W) (A := A) rules)).
  { intros rules n Hn. unfold fw_Add, on_fw, zoom. pose proof (enabled_Add rules (nw_fw n) Hn) as Hf.
    by destruct (Firewall.Add rules (nw_fw n)). }
  unfold blockTraffic, devices. repeat first [apply Hadd | (apply preserves_zoom_frame; by intros) | pres_step].
Qed.

(** [J] holds once traffic is blocked and is kept from then on. *)
Lemma setNetwork_blocks (J : Firewall A -> Prop) `{HJ : !FwStable J} n n' allowlist :
  (forall w e w', list_devices w = (Err e, w') -> errors_Is e ErrRuleAlreadyExists = false) ->
  ready (nw_fw n) -> Forall safe_name (nw_rules n) ->
  (synced R (nw_fw (blockTraffic n).2) -> J (nw_fw (blockTraffic n).2)) ->
  setNetwork allowlist n = (Ok tt, n') -> held J None None None n'.
Proof.
  intros Hdev Hready Hrules Hstart Hrun. unfold setNetwork in Hrun.
  destruct (blockTraffic n) as [r n1] eqn:Eb. cbn [snd] in Hstart.
  destruct (blockTraffic_blocks n r n1 Hready Eb) as [Hr1 Hcases].
  rewrite (bind_attempt _ _ _ _ _ Eb) in Hrun.
  destruct Hcases as [[Hs Hb]|(e & w' & -> & He)].
  - assert (held J None None None n1) as Hn1 by (rewrite <- Hr1 in Hrules; specialize (Hstart Hs); done).
    apply (f_equal snd) in Hrun. cbn [snd] in Hrun. rewrite <- Hrun. clear Hrun.
    assert (preserves (held (W := W) J None None None)
      ((match r with
        | Err e => if errors_Is e ErrRuleAlreadyExists then ret tt else throw e
        | Ok _ => ret tt
        end) ;;
       let! ifaces := devices in
       let! fwmark := gets nw_fwmark in
       fw_Add [api_allowlist_rule ifaces fwmark] ;;
       setAllowlist allowlist ;;
       let! lan := gets nw_lanDiscovery in
       ignore (on_world (exit_ResetFirewall lan true)) ;;
       set! nw_isNetworkSet := true)) as Hp by held_auto.
    by apply Hp.
  - rewrite (Hdev _ _ _ He), bind_throw in Hrun. done.
Qed.

(** A successful [SetKillSwitch] arms the kill switch. *)
Lemma setKillSwitch_arms (J : Firewall A -> Prop) `{HJ : !FwStable J} n n' allowlist :
  (forall w e w', list_devices w = (Err e, w') -> errors_Is e ErrRuleAlreadyExists = false) ->
  ready (nw_fw n) -> nw_isNetworkSet n = false -> Forall safe_name (nw_rules n) ->
  (synced R (nw_fw (blockTraffic n).2) -> J (nw_fw (blockTraffic n).2)) ->
  setKillSwitch allowlist n = (Ok tt, n') ->
  held J (Some true) None None n'.
Proof.
  intros Hdev Hready Hnet Hrules Hstart. unfold setKillSwitch. rewrite bind_gets, Hnet. cbn [negb when].
  unfold bind. destruct (setNetwork allowlist n) as [[[]|e] n1] eqn:E; [|done].
  intros [= <-]. apply (setNetwork_blocks J) in E; [|done..].
  by destruct E as (? & ? & _).
Qed.
End Arming.

(** ** Properties *)

Definition sample_server : ServerData :=
  mkServerData (AddrV4 (v4 1 2 3 4)) "lt1.nordvpn.com" "Lithuania #1" "Lithuania" "Vilnius" 1
    "" false "" false false.

Definition sample_creds : Credentials := mkCredentials "u" "p" "k".

(** C1: once the kill switch is set and its rules are in the firewall, no
    sequence of calls other than [UnsetKillSwitch] (connecting, disconnecting,
    reconnecting, changing the allowlist, setting and unsetting the meshnet,
    enabling and disabling the firewall, ...) takes them out or clears the flag,
    whatever the collaborators and the firewall agent do and whichever of the
    calls fail. *)
Theorem kill_switch_never_lifted {W A} `{Collaborators W} `{Agent A}
    (n : Combined W A) (ops : list NwOp) :
  nw_isKillSwitchSet n = true -> blocked (nw_fw n) -> Forall safe_name (nw_rules n) ->
  NwUnsetKillSwitch ∉ ops ->
  let n' := run_ops exec_nw ops n in
  nw_isKillSwitchSet n' = true /\
  exists i j, drop_rule i ∈ fw_rules (nw_fw n') /\ drop_fw_rule j ∈ fw_rules (nw_fw n').
Proof.
  intros Hks Hb Hr Hops.
  destruct (armed_run (J := fun _ => True) ops n) as ([Hb' _] & _ & Hks' & _); [done..|].
  split; [done|]. by apply blocked_rules.
Qed.

Definition sample_nw_ops : list NwOp :=
  [NwStart sample_creds sample_server empty_allowlist ["1.1.1.1"] true;
   NwSetMesh zero_machine_map (AddrV4 (v4 100 64 0 1)) "key"; NwStop; NwReconnect true;
   NwUnSetMesh; NwUnsetFirewall].

Definition armed_networker : Combined Sim ListAgent :=
  (setKillSwitch empty_allowlist (new_networker [])).2.

Lemma kill_switch_never_lifted_witness :
  nw_isKillSwitchSet (run_ops exec_nw sample_nw_ops armed_networker) = true /\
  (exists i j,
     drop_rule i ∈ fw_rules (nw_fw (run_ops exec_nw sample_nw_ops armed_networker)) /\
     drop_fw_rule j ∈ fw_rules (nw_fw (run_ops exec_nw sample_nw_ops armed_networker))) /\
  map r_Name (la_installed (fw_working (nw_fw (run_ops exec_nw sample_nw_ops armed_networker))))
    = ["api_allowlist"; "drop"; "drop-fw"].
Proof.
  rewrite (and_assoc _ (ex _)). split; [|vm_compute; reflexivity].
  apply (kill_switch_never_lifted armed_networker sample_nw_ops).
  - vm_compute. reflexivity.
  - split; [|split].
    + change (fw_rules (nw_fw armed_networker)) with
        [drop_fw_rule [eth0]; drop_rule [eth0]; api_allowlist_rule [eth0] 57841; deny_dns_rule].
      solve_names.
    + apply (bool_decide_unpack _). vm_compute. exact I.
    + apply (bool_decide_unpack _). vm_compute. exact I.
  - change (nw_rules armed_networker) with [deny_dns_name]. solve_names.
  - intros Hin. unfold sample_nw_ops in Hin. repeat (apply elem_of_cons in Hin as [?|Hin]; [done|]).
    by apply elem_of_nil in Hin.
Defined.

(** C7: let the firewall agent keep its promise (its calls succeed) and the firewall
    be in step with it, let the failure to list the devices never be that a rule
    exists already, and when the kill switch is set let the VPN not be connected and
    no rule of the networker have a name of the kill switch. A [SetKillSwitch] that
    succeeds then installs the rules that drop all traffic and all forwarded traffic,
    and they are installed, whenever the firewall is enabled, after every sequence of
    calls other than [UnsetKillSwitch], whichever calls to the collaborators fail. *)
Theorem kill_switch_stays_installed {W A} `{Collaborators W} `{Agent A}
    (R : A -> list Rule -> Prop) `{!LawfulAgent A R} (n n' : Combined W A)
    (allowlist : Allowlist) (ops : list NwOp) :
  (forall w e w', list_devices w = (Err e, w') -> errors_Is e ErrRuleAlreadyExists = false) ->
  ready R (nw_fw n) -> nw_isNetworkSet n = false -> Forall safe_name (nw_rules n) ->
  setKillSwitch allowlist n = (Ok tt, n') -> NwUnsetKillSwitch ∉ ops ->
  let f := nw_fw (run_ops exec_nw ops n') in
  fw_enabled f = true ->
  exists l i j, R (fw_working f) l /\ drop_rule i ∈ l /\ drop_fw_rule j ∈ l.
Proof.
  intros Hdev Hready Hnet Hrules Hset Hops f Hen.
  apply (setKillSwitch_arms R (synced R)) in Hset; [|done..].
  destruct (armed_run (J := synced R) ops n' Hops Hset) as ([Hb [_ HR]] & _).
  destruct (blocked_rules _ Hb) as (i & j & Hi & Hj). fold f in HR. rewrite Hen in HR.
  exists (reverse (fw_rules f)), i, j. by rewrite !elem_of_reverse.
Qed.

Lemma new_networker_ready : ready list_agent_R (nw_fw (new_networker [])).
Proof. split; [split; [apply NewFirewall_wf|done]|]. split; [constructor|]. by intros ?%elem_of_nil. Qed.

Lemma kill_switch_stays_installed_witness :
  exists l i j,
    list_agent_R (fw_working (nw_fw (run_ops exec_nw sample_nw_ops armed_networker))) l /\
    drop_rule i ∈ l /\ drop_fw_rule j ∈ l.
Proof.
  apply (kill_switch_stays_installed list_agent_R (new_networker []) armed_networker
           empty_allowlist sample_nw_ops).
  - by intros w e w' [=].
  - apply new_networker_ready.
  - reflexivity.
  - constructor.
  - unfold armed_networker. assert ((setKillSwitch empty_allowlist (new_networker [])).1 = Ok tt)
      as E by (vm_compute; reflexivity).
    destruct (setKillSwitch empty_allowlist (new_networker [])). cbn in E |- *. by rewrite E.
  - intros Hin. unfold sample_nw_ops in Hin. repeat (apply elem_of_cons in Hin as [?|Hin]; [done|]).
    by apply elem_of_nil in Hin.
  - vm_compute. reflexivity.
Defined.

(** Handling a network change while connected (recreating the tunnel and the
    meshnet behind a temporary kill switch) never leaves the firewall without the
    rules that block traffic, whichever steps fail. *)
Theorem reconnect_keeps_block {W A} `{Collaborators W} `{Agent A} (n : Combined W A) (up : bool) :
  blocked (nw_fw n) -> Forall safe_name (nw_rules n) ->
  nw_isNetworkSet n = true -> nw_isVpnSet n = true ->
  blocked (nw_fw (Reconnect up n).2).
Proof.
  intros Hb Hr Hnet Hvpn.
  destruct (Reconnect_blocked (J := fun _ => True) n up) as ([Hb' _] & _); done.
Qed.

(** A connected networker in which starting the VPN again will fail. *)
Definition connected_networker : Combined Sim ListAgent :=
  let n := (Start sample_creds sample_server empty_allowlist ["1.1.1.1"] true
              (new_networker [])).2 in
  n <| nw_interfaces := ∅ |> <| nw_world := (nw_world n) <| sim_failing := ["vpn.Start"] |> |>.

Lemma reconnect_keeps_block_witness :
  blocked (nw_fw (Reconnect true connected_networker).2) /\
  nw_isVpnSet (Reconnect true connected_networker).2 = false /\
  map r_Name (la_installed (fw_working (nw_fw (Reconnect true connected_networker).2)))
    = ["deny-private-dns"; "api_allowlist"; "drop"; "drop-fw"].
Proof.
  split; [|split; vm_compute; reflexivity].
  apply (reconnect_keeps_block connected_networker true).
  - split; [|split].
    + change (fw_rules (nw_fw connected_networker)) with
        [drop_fw_rule [eth0]; drop_rule [eth0]; api_allowlist_rule [eth0] 57841; deny_dns_rule].
      solve_names.
    + apply (bool_decide_unpack _). vm_compute. exact I.
    + apply (bool_decide_unpack _). vm_compute. exact I.
  - change (nw_rules connected_networker) with [deny_dns_name]. solve_names.
  - vm_compute. reflexivity.
  - vm_compute. reflexivity.
Defined.

(** ** Where the kill switch does not hold

    What is not covered by the theorems above: failures of [UnsetKillSwitch] and
    of the first [SetKillSwitch], and the rule against DNS leaks. *)

Definition installed_names (n : Combined Sim ListAgent) : list string :=
  map r_Name (la_installed (fw_working (nw_fw n))).

Definition with_failing (names : list string) (n : Combined Sim ListAgent) : Combined Sim ListAgent :=
  n <| nw_world := (nw_world n) <| sim_failing := names |> |>.

(** When clearing the allowlist routing fails while the kill switch is being
    unset, the call fails and the kill switch still counts as set, but the rules
    that drop traffic are gone; setting it again succeeds without bringing them
    back, and unsetting it again always fails. *)
Theorem failed_unset_defeats_kill_switch :
  let n1 := unsetKillSwitch (with_failing ["allowlist.Disable"] armed_networker) in
  let n2 := setKillSwitch empty_allowlist n1.2 in
  is_ok n1.1 = false /\ nw_isKillSwitchSet n1.2 = true /\
  installed_names n1.2 = ["deny-private-dns"] /\
  n2.1 = Ok tt /\ installed_names n2.2 = ["deny-private-dns"] /\
  is_ok (unsetKillSwitch n2.2).1 = false.
Proof. vm_compute. by repeat split. Qed.

(** When adding the rule for the traffic of this machine fails after the
    rule for forwarded traffic was added, [SetKillSwitch] fails; trying again
    succeeds, because the rule for forwarded traffic already exists, and leaves
    the traffic of this machine open with the kill switch set. *)
Theorem retried_kill_switch_leaves_traffic_open :
  let n1 := setKillSwitch empty_allowlist (new_networker [None; Some (Errorf "iptables")]) in
  let n2 := setKillSwitch empty_allowlist n1.2 in
  is_ok n1.1 = false /\ n2.1 = Ok tt /\ nw_isKillSwitchSet n2.2 = true /\
  installed_names n2.2 = ["deny-private-dns"; "api_allowlist"; "drop-fw"].
Proof. vm_compute. by repeat split. Qed.

(** Setting the meshnet while the kill switch is set deletes the rule that
    denies DNS to private networks: it is among the rules the meshnet names, and
    nothing adds it again. *)
Theorem setting_mesh_drops_dns_rule :
  let n := setMesh zero_machine_map (AddrV4 (v4 100 64 0 1)) "key" armed_networker in
  n.1 = Ok tt /\ map_get (ports_TCP (al_Ports (nw_allowlist n.2))) 53 = false /\
  deny_dns_name ∈ installed_names armed_networker /\
  installed_names n.2 =
    ["-allow-rule-invalid IP"; "default-mesh-allow-established"; "default-mesh-block";
     "api_allowlist"; "drop"; "drop-fw"].
Proof.
  cbv zeta. repeat split; try (vm_compute; reflexivity).
  apply (bool_decide_unpack _). vm_compute. exact I.
Qed.

(** When the kill switch that protects a reconnect cannot be set, the
    reconnect does not go on, and the error is lost: the deferred
    [errors.Join(vpnErr, meshErr)] of two nil errors replaces it, and
    [refreshVPN] reports success. *)
Theorem reconnect_hides_kill_switch_error {W A} `{Collaborators W} `{Agent A}
    (n n' : Combined W A) (mesh : bool) (e : error) :
  nw_isKillSwitchSet n = false ->
  setKillSwitch (nw_allowlist n) n = (Err e, n') ->
  reinit true mesh n = (Ok tt, n').
Proof.
  intros Hks Hset. unfold reinit. rewrite bind_gets, Hks. cbn [negb andb].
  by rewrite bind_gets, (bind_attempt _ _ _ _ _ Hset).
Qed.

(** Connected with the firewall unset; the routing rules of the allowlist will
    fail. *)
Definition exposed_networker : Combined Sim ListAgent :=
  with_failing ["policy.SetupRoutingRules"] (UnsetFirewall connected_networker).2.

Lemma reconnect_hides_kill_switch_error_witness :
  exists e n', setKillSwitch (nw_allowlist exposed_networker) exposed_networker = (Err e, n') /\
    reinit true false exposed_networker = (Ok tt, n') /\
    (refreshVPN (exposed_networker <| nw_interfaces := ∅ |>)).1 = Ok tt.
Proof.
  destruct (setKillSwitch (nw_allowlist exposed_networker) exposed_networker) as [[u|e] n'] eqn:E.
  - exfalso. apply (f_equal fst) in E. vm_compute in E. discriminate E.
  - exists e, n'. split; [reflexivity|]. split.
    + apply (reconnect_hides_kill_switch_error exposed_networker n' false e);
        [vm_compute; reflexivity|exact E].
    + vm_compute. reflexivity.
Defined.
