(* ===== verification/MeshnetServer.v ===== *)
(** * MeshnetServer: the meshnet service of the daemon

    Models [meshnet/server.go] and [meshnet/register.go]: every handler of the
    meshnet gRPC service, with the guards, API calls, configuration updates and
    networker calls in the order the code makes them, and the response it
    answers.

    The server works on the networker through [MeshNetworker], which the
    networker of file Networker implements, and on its environment (account,
    registry and invitation API, configuration file, name servers, file sharing
    service) through [MeshApi].  A failed [SaveWith] leaves the configuration as
    it was.  Published events and logged errors are left out.  [cfg.MeshDevice]
    is a pointer; where the code would dereference nil the model reads the zero
    machine. *)

From stdpp Require Import base option list strings gmap.
From Stdlib Require Import ZArith Lia.
From S2P Require Import Prelude GoLib Api Mesh Config Firewall Networker.
Set Warnings "-clear-no-such-hyp".

Open Scope Z_scope.
Open Scope go_scope.

(** ** Responses *)

Inductive ServiceErrorCode : Type := NOT_LOGGED_IN | API_FAILURE | CONFIG_FAILURE.

Inductive MeshnetErrorCode : Type :=
| NOT_REGISTERED | LIB_FAILURE | ALREADY_ENABLED | ALREADY_DISABLED | NOT_ENABLED
| TECH_FAILURE | TUNNEL_CLOSED | CONFLICT_WITH_PQ.

Inductive InviteResponseErrorCode : Type :=
| ALREADY_EXISTS | INVALID_EMAIL | SAME_ACCOUNT_EMAIL | LIMIT_REACHED | PEER_COUNT.

Inductive RespondToInviteErrorCode : Type := NO_SUCH_INVITATION | DEVICE_COUNT.

Inductive ChangeNicknameErrorCode : Type :=
| SAME_NICKNAME | NICKNAME_ALREADY_EMPTY | DOMAIN_NAME_EXISTS | RATE_LIMIT_REACH
| NICKNAME_TOO_LONG | DUPLICATE_NICKNAME | CONTAINS_FORBIDDEN_WORD
| SUFFIX_OR_PREFIX_ARE_INVALID | NICKNAME_HAS_DOUBLE_HYPHENS | INVALID_CHARS.

(** The permission handlers' own codes: the permission is already as asked. *)
Inductive PermissionErrorCode : Type :=
| INCOMING_ALREADY_ALLOWED | INCOMING_ALREADY_DENIED | ROUTING_ALREADY_ALLOWED
| ROUTING_ALREADY_DENIED | LOCAL_NETWORK_ALREADY_ALLOWED | LOCAL_NETWORK_ALREADY_DENIED
| SEND_ALREADY_ALLOWED | SEND_ALREADY_DENIED | AUTOMATIC_FILESHARE_ALREADY_ENABLED
| AUTOMATIC_FILESHARE_ALREADY_DISABLED.

Inductive ConnectErrorCode : Type :=
| PEER_DOES_NOT_ALLOW_ROUTING | ALREADY_CONNECTED | CONNECT_FAILED | PEER_NO_IP
| ALREADY_CONNECTING | CANCELED.

Record Invite_ : Type := mkInvite { iv_Email : string; iv_Os : string }.

Record PeerList : Type := mkPeerList {
  pl_Self : option PbPeer;
  pl_Local : list PbPeer;
  pl_External : list PbPeer
}.
#[export] Instance PbPeer_eq_dec : EqDecision PbPeer.
Proof. solve_decision. Defined.
#[export] Instance PeerList_eq_dec : EqDecision PeerList.
Proof. solve_decision. Defined.

(** The responses of all handlers. *)
Inductive Response : Type :=
| ServiceError (c : ServiceErrorCode)
| MeshnetError (c : MeshnetErrorCode)
| InviteError (c : InviteResponseErrorCode)
| RespondToInviteError (c : RespondToInviteErrorCode)
| PeerNotFound
| NicknameError (c : ChangeNicknameErrorCode)
| PermissionError (c : PermissionErrorCode)
| ConnectError (c : ConnectErrorCode)
| EmptyResponse
| EnabledStatus (value : bool) (uid : Z)
| InvitesList (received sent : list Invite_)
| PeersResponse (peers : PeerList)
| PrivateKeyResponse (key : string).

(** ** Errors *)

Definition context_Canceled : string := "context canceled".
Definition MsgMeshnetInviteSendSameAccountEmail : string :=
  "Bad Request: Email should belong to a different user".

(** ** Environment *)

Record PeerUpdateRequest : Type := mkPeerUpdateRequest {
  pu_DoIAllowInbound : bool;
  pu_DoIAllowRouting : bool;
  pu_DoIAllowLocalNetwork : bool;
  pu_DoIAllowFileshare : bool;
  pu_AlwaysAcceptFiles : bool;
  pu_Nickname : string
}.

Definition NewPeerUpdateRequest (peer : MachinePeer) : PeerUpdateRequest :=
  mkPeerUpdateRequest (p_DoIAllowInbound peer) (p_DoIAllowRouting peer)
    (p_DoIAllowLocalNetwork peer) (p_DoIAllowFileshare peer) (p_AlwaysAcceptFiles peer)
    (p_Nickname peer).

Record MachineUpdateRequest : Type := mkMachineUpdateRequest {
  mu_Nickname : string;
  mu_SupportsRouting : bool;
  mu_Endpoints : list string
}.

Record Invitation : Type := mkInvitation {
  in_ID : string;
  in_Email : string;
  in_OS : string;
  in_AllowInbound : bool;
  in_AllowRouting : bool;
  in_AllowLocalNetwork : bool
}.

(** The permissions offered with an invitation. *)
Record InviteRequest : Type := mkInviteRequest {
  ir_Email : string;
  ir_AllowIncomingTraffic : bool;
  ir_AllowTrafficRouting : bool;
  ir_AllowLocalNetwork : bool;
  ir_AllowFileshare : bool
}.

Record Ucred : Type := mkUcred { uc_Pid : Z; uc_Uid : Z; uc_Gid : Z }.

Class MeshApi (E : Type) : Type := {
  ac_IsLoggedIn : E -> bool * E;
  cm_Load : M E unit;
  cm_SaveWith : M E unit;
  gen_Private : E -> string * E;
  gen_Public : string -> string;
  distro_ReleaseName : M E string;
  reg_Register : string -> Machine -> M E Machine;
  reg_Update : string -> string -> MachineUpdateRequest -> M E unit;
  reg_Configure : string -> string -> string -> PeerUpdateRequest -> M E unit;
  reg_Unregister : string -> string -> M E unit;
  reg_Unpair : string -> string -> string -> M E unit;
  reg_List : string -> string -> M E (list MachinePeer);
  reg_Local : string -> M E (list Machine);
  reg_Map : string -> string -> M E MachineMap;
  reg_NotifyNewTransfer : string -> string -> string -> string -> Z -> string -> M E unit;
  inv_Invite : string -> string -> InviteRequest -> M E unit;
  inv_Received : string -> string -> M E (list Invitation);
  inv_Sent : string -> string -> M E (list Invitation);
  inv_Accept : string -> string -> string -> InviteRequest -> M E unit;
  inv_Reject : string -> string -> string -> M E unit;
  inv_Revoke : string -> string -> string -> M E unit;
  dns_LookupIP : string -> M E nat;
  ns_Get : bool -> bool -> E -> list string;
  norduser_StartFileshare : Z -> M E unit;
  norduser_StopFileshare : Z -> M E unit
}.

(** [meshnet.Networker]. *)
Class MeshNetworker (Nt : Type) : Type := {
  netw_SetMesh : MachineMap -> Addr -> string -> M Nt unit;
  netw_Refresh : MachineMap -> M Nt unit;
  netw_UnSetMesh : M Nt unit;
  netw_AllowIncoming : UniqueAddress -> bool -> M Nt unit;
  netw_BlockIncoming : UniqueAddress -> M Nt unit;
  netw_AllowFileshare : UniqueAddress -> M Nt unit;
  netw_BlockFileshare : UniqueAddress -> M Nt unit;
  netw_ResetRouting : MachinePeer -> list MachinePeer -> M Nt unit;
  netw_StatusMap : M Nt (gmap string string);
  netw_LastServerName : Nt -> string;
  netw_Start : Credentials -> ServerData -> Allowlist -> list string -> bool -> M Nt unit;
  netw_Stop : M Nt unit
}.

#[export] Instance Combined_mesh_networker {W A} `{Collaborators W} `{Agent A} :
    MeshNetworker (Combined W A) := {|
  netw_SetMesh := setMesh;
  netw_Refresh := refresh;
  netw_UnSetMesh := UnSetMesh;
  netw_AllowIncoming := AllowIncoming;
  netw_BlockIncoming := blockIncoming;
  netw_AllowFileshare := AllowFileshare;
  netw_BlockFileshare := BlockFileshare;
  netw_ResetRouting := ResetRouting;
  netw_StatusMap := StatusMap;
  netw_LastServerName := LastServerName;
  netw_Start := Start;
  netw_Stop := Stop
|}.

(** ** State *)

(** The configuration file, the networker, the environment and the two fields
    the handlers write; [sv_connecting] is held while a connect is running. *)
Record Server (Nt E : Type) : Type := mkServer {
  sv_cfg : Config;
  sv_netw : Nt;
  sv_env : E;
  sv_lastPeers : PeerList;
  sv_lastConnectedPeer : string;
  sv_connecting : bool
}.
Arguments mkServer {Nt E} _ _ _ _ _ _.
Arguments sv_cfg {Nt E} _.
Arguments sv_netw {Nt E} _.
Arguments sv_env {Nt E} _.
Arguments sv_lastPeers {Nt E} _.
Arguments sv_lastConnectedPeer {Nt E} _.
Arguments sv_connecting {Nt E} _.

#[export] Instance Server_eta {Nt E} : EtaExpand (Server Nt E) := fun s =>
  mkServer (sv_cfg s) (sv_netw s) (sv_env s) (sv_lastPeers s) (sv_lastConnectedPeer s)
    (sv_connecting s).

(** [NewServer]; the empty list of peers prints as the empty string. *)
Definition NewServer {Nt E} (cfg : Config) (netw : Nt) (env : E) : Server Nt E :=
  mkServer cfg netw env (mkPeerList None [] []) "" false.

(** ** Handlers

    A handler answers early with [reply]; [call] runs a method and hands its
    error over as a value. *)

Definition H (S A : Type) : Type := S -> (Response + A) * S.

Section Handler.
Context {S : Type}.

Definition hret {A} (a : A) : H S A := fun s => (inr a, s).
Definition reply {A} (r : Response) : H S A := fun s => (inl r, s).
Definition hbind {A B} (m : H S A) (k : A -> H S B) : H S B := fun s =>
  match m s with
  | (inr a, s') => k a s'
  | (inl r, s') => (inl r, s')
  end.
Definition call {A} (m : M S A) : H S (result A) := fun s =>
  let '(r, s') := m s in (inr r, s').
Definition hgets {A} (f : S -> A) : H S A := fun s => (inr (f s), s).
Definition hmodify (f : S -> S) : H S unit := fun s => (inr tt, f s).

(** The response of a handler whose body ends in a response. *)
Definition handle (m : H S Response) (s : S) : Response * S :=
  match m s with
  | (inr r, s') => (r, s')
  | (inl r, s') => (r, s')
  end.
End Handler.

Notation "'let?' x := m 'in' k" := (hbind m (fun x => k))
  (at level 10, x name, m at level 100, k at level 200) : go_scope.
Notation "m ;;? k" := (hbind m (fun _ => k))
  (at level 100, k at level 200, right associativity) : go_scope.

Section Server.
Context {Nt E : Type} `{MeshNetworker Nt} `{MeshApi E}.
#[local] Abbreviation SV := (Server Nt E).

Definition on_env {A} (m : M E A) : M SV A :=
  zoom sv_env (fun e s => s <| sv_env := e |>) m.
Definition on_netw {A} (m : M Nt A) : M SV A :=
  zoom sv_netw (fun n s => s <| sv_netw := n |>) m.
Definition env_pure {A} (f : E -> A * E) : M SV A := fun s =>
  let '(a, e) := f (sv_env s) in (Ok a, s <| sv_env := e |>).

(** [cm.Load] and [cm.SaveWith]. *)
Definition Load : M SV Config := on_env cm_Load ;; gets sv_cfg.
Definition SaveWith (f : Config -> Config) : M SV unit :=
  on_env cm_SaveWith ;; modify (fun s => s <| sv_cfg := f (sv_cfg s) |>).

Definition device (cfg : Config) : Machine := default zero_machine (cfg_MeshDevice cfg).
Definition device_id (cfg : Config) : string := m_ID (device cfg).
Definition user_id (cfg : Config) : Z := ac_ID (cfg_AutoConnectData cfg).

(** *** Registration *)

Definition nil_uuid : string := "00000000-0000-0000-0000-000000000000".

Definition isRegistrationInfoCorrect (cfg : Config) : bool :=
  match cfg_MeshDevice cfg with
  | None => false
  | Some d => negb (bool_decide (cfg_MeshPrivateKey cfg = "")) &&
              negb (bool_decide (m_ID d = nil_uuid)) && addr_IsValid (m_Address d)
  end.

Definition meshConfig (peer : option Machine) (key : string) (c : Config) : Config :=
  c <| cfg_MeshDevice := peer |> <| cfg_MeshPrivateKey := key |>.

Definition registration (cfg : Config) (distroName privateKey : string) : Machine :=
  zero_machine <| m_HardwareID := cfg_MachineID cfg |>
    <| m_PublicKey := gen_Public privateKey |>
    <| m_OS := mkOS "linux" distroName |> <| m_SupportsRouting := true |>.

(** The configuration with the device registered, not yet saved. *)
Definition register (cfg : Config) : M SV Config :=
  let! privateKey := (if bool_decide (cfg_MeshPrivateKey cfg = "") then env_pure gen_Private
                      else ret (cfg_MeshPrivateKey cfg)) in
  let token := current_token cfg in
  let! distroName := on_env distro_ReleaseName in
  let! r := attempt (on_env (reg_Register token (registration cfg distroName privateKey))) in
  match r with
  | Ok peer => ret (meshConfig (Some peer) privateKey cfg)
  | Err e =>
      if errors_Is e ErrConflict then
        let! privateKey := env_pure gen_Private in
        let! peer := on_env (reg_Register token (registration cfg distroName privateKey)) in
        ret (meshConfig (Some peer) privateKey cfg)
      else throw e
  end.

Definition save_registration (cfg : Config) : M SV unit :=
  SaveWith (meshConfig (cfg_MeshDevice cfg) (cfg_MeshPrivateKey cfg)).

Definition IsRegistrationInfoCorrect : M SV bool :=
  let! r := attempt
    (let! cfg := Load in
     if isRegistrationInfoCorrect cfg then ret true
     else
       let! cfg := register cfg in
       save_registration cfg ;;
       ret (isRegistrationInfoCorrect cfg)) in
  ret (match r with Ok b => b | Err _ => false end).

Definition Register : M SV unit :=
  let! cfg := Load in
  let! cfg := register cfg in
  save_registration cfg ;;
  if isRegistrationInfoCorrect cfg then ret tt else throw (Errorf "meshnet registration failure").

(** *** Guards *)

Definition require_login : H SV unit :=
  let? r := call (env_pure ac_IsLoggedIn) in
  match r with
  | Ok true => hret tt
  | _ => reply (ServiceError NOT_LOGGED_IN)
  end.

Definition require_registration (otherwise : Response) : H SV unit :=
  let? r := call IsRegistrationInfoCorrect in
  match r with
  | Ok true => hret tt
  | _ => reply otherwise
  end.

Definition load_config : H SV Config :=
  let? r := call Load in
  match r with
  | Ok cfg => hret cfg
  | Err _ => reply (ServiceError CONFIG_FAILURE)
  end.

Definition require_mesh (cfg : Config) : H SV unit :=
  if cfg_Mesh cfg then hret tt else reply (MeshnetError NOT_ENABLED).

(** An API call: an unauthorized account is logged out; other errors are
    answered by [otherwise]. *)
Definition api_call {A} (cfg : Config) (m : M E A) (otherwise : error -> H SV A) : H SV A :=
  let? r := call (on_env m) in
  match r with
  | Ok a => hret a
  | Err e =>
      if errors_Is e ErrUnauthorized then
        let? r := call (SaveWith (Logout (user_id cfg))) in
        match r with
        | Err _ => reply (ServiceError CONFIG_FAILURE)
        | Ok _ => reply (ServiceError NOT_LOGGED_IN)
        end
      else otherwise e
  end.

Definition api_failure {A} (_ : error) : H SV A := reply (ServiceError API_FAILURE).

Definition isMeshOn : H SV bool :=
  let? r := call Load in
  hret (match r with Ok cfg => cfg_Mesh cfg | Err _ => false end).

(** Mesh could get disabled (when self is removed). *)
Definition failure_or_disabled {A} (_ : error) : H SV A :=
  let? on := isMeshOn in
  if on : bool then reply (ServiceError API_FAILURE) else reply (MeshnetError NOT_ENABLED).

(** Any other call, whose error is answered by [otherwise]. *)
Definition or_reply {A} (m : M SV A) (otherwise : Response) : H SV A :=
  let? r := call m in
  match r with
  | Ok a => hret a
  | Err _ => reply otherwise
  end.

Definition try_call {A} (m : M SV A) : H SV unit := let? _ := call m in hret tt.

(** *** Enabling and disabling *)

Definition enabled_config (ucred : Ucred) (machine : Machine) (c : Config) : Config :=
  let c := c <| cfg_Mesh := true |> <| cfg_EnabledByUID := uc_Uid ucred |>
             <| cfg_EnabledByGID := uc_Gid ucred |> in
  if Machine_IsEqual (device c) machine then c else c <| cfg_MeshDevice := Some machine |>.

Definition EnableMeshnet (ucred : Ucred) : H SV Response :=
  require_login ;;?
  or_reply Register (MeshnetError NOT_REGISTERED) ;;?
  let? cfg := load_config in
  if cfg_Mesh cfg then reply (MeshnetError ALREADY_ENABLED)
  else if ac_PostquantumVpn (cfg_AutoConnectData cfg) then reply (MeshnetError CONFLICT_WITH_PQ)
  else
    let? resp := api_call cfg (reg_Map (current_token cfg) (device_id cfg)) api_failure in
    let? r := call (on_netw (netw_SetMesh resp (m_Address (device cfg)) (cfg_MeshPrivateKey cfg))) in
    match r with
    | Err e => if errors_Is e ErrTunnelClosed then reply (MeshnetError TUNNEL_CLOSED)
               else reply (MeshnetError LIB_FAILURE)
    | Ok _ =>
        or_reply (SaveWith (enabled_config ucred (mm_Machine resp))) (ServiceError CONFIG_FAILURE) ;;?
        (if bool_decide (uc_Pid ucred = 0) then hret tt
         else try_call (on_env (norduser_StartFileshare (uc_Uid ucred)))) ;;?
        hret EmptyResponse
    end.

Definition IsEnabled : H SV Response :=
  require_login ;;?
  let? cfg := load_config in
  let? r := call IsRegistrationInfoCorrect in
  hret (EnabledStatus (match r with Ok b => b && cfg_Mesh cfg | Err _ => false end)
          (cfg_EnabledByUID cfg)).

(** [StartMeshnet] returns a Go error. *)
Definition StartMeshnet : M SV unit :=
  let! logged := env_pure ac_IsLoggedIn in
  if negb logged then throw (Errorf "not logged in")
  else
    let! r := attempt Load in
    match r with
    | Err _ => throw (Errorf "problem loading config")
    | Ok cfg =>
        if negb (cfg_Mesh cfg) then throw (Errorf "meshnet not enabled")
        else
          let! reg := attempt Register in
          match reg with
          | Err _ => throw (Errorf "not registered")
          | Ok _ =>
              let! m := attempt (on_env (reg_Map (current_token cfg) (device_id cfg))) in
              match m with
              | Err e =>
                  when (errors_Is e ErrUnauthorized) (SaveWith (Logout (user_id cfg))) ;;
                  throw (Wrapf "retrieving meshnet map: " e "")
              | Ok resp =>
                  wrapped "setting the meshnet up: "
                    (on_netw (netw_SetMesh resp (m_Address (device cfg)) (cfg_MeshPrivateKey cfg))) "" ;;
                  ignore (on_env (norduser_StartFileshare (cfg_EnabledByUID cfg)))
              end
          end
    end.

Definition DisableMeshnet : H SV Response :=
  let? cfg := load_config in
  if negb (cfg_Mesh cfg) then reply (MeshnetError ALREADY_DISABLED)
  else
    try_call (on_env (norduser_StopFileshare (cfg_EnabledByUID cfg))) ;;?
    let? same := hgets (fun s =>
      bool_decide (netw_LastServerName (sv_netw s) = sv_lastConnectedPeer s)) in
    (if same : bool then try_call (on_netw netw_Stop) else hret tt) ;;?
    try_call (on_netw netw_UnSetMesh) ;;?
    or_reply (SaveWith (fun c => c <| cfg_Mesh := false |>)) (ServiceError CONFIG_FAILURE) ;;?
    hret EmptyResponse.

Definition RefreshMeshnet : H SV Response :=
  require_login ;;?
  let? cfg := load_config in
  require_mesh cfg ;;?
  require_registration (MeshnetError NOT_REGISTERED) ;;?
  let? resp := api_call cfg (reg_Map (current_token cfg) (device_id cfg)) api_failure in
  or_reply (on_netw (netw_Refresh resp)) (ServiceError API_FAILURE) ;;?
  hret EmptyResponse.

(** *** Invitations *)

(** The guards of the invitation handlers. *)
Definition invitation_config : H SV Config :=
  require_login ;;?
  require_registration (MeshnetError NOT_REGISTERED) ;;?
  let? cfg := load_config in
  require_mesh cfg ;;?
  hret cfg.

Definition invite_error (cfg : Config) (e : error) : H SV unit :=
  if errors_Is e ErrTooManyRequests then reply (InviteError LIMIT_REACHED)
  else if errors_Is e ErrMaximumDeviceCount then reply (InviteError PEER_COUNT)
  else if errors_Is e ErrConflict then reply (InviteError ALREADY_EXISTS)
  else if str_contains (error_text e) "must be a valid email address"
  then reply (InviteError INVALID_EMAIL)
  else if str_contains (error_text e) MsgMeshnetInviteSendSameAccountEmail
  then reply (InviteError SAME_ACCOUNT_EMAIL)
  else if errors_Is e ErrUnauthorized then
    let? r := call (SaveWith (Logout (user_id cfg))) in
    match r with
    | Err _ => reply (ServiceError CONFIG_FAILURE)
    | Ok _ => reply (ServiceError NOT_LOGGED_IN)
    end
  else reply (ServiceError API_FAILURE).

Definition Invite (req : InviteRequest) : H SV Response :=
  let? cfg := invitation_config in
  let? r := call (on_env (inv_Invite (current_token cfg) (device_id cfg) req)) in
  (match r with
   | Ok _ => hret tt
   | Err e => invite_error cfg e
   end) ;;?
  hret EmptyResponse.

(** The invitation with the given email. *)
Definition find_invitation (email : string) (l : list Invitation) : H SV Invitation :=
  match index_func (fun i => bool_decide (in_Email i = email)) l with
  | None => reply (RespondToInviteError NO_SUCH_INVITATION)
  | Some index => hret (default (mkInvitation "" "" "" false false false) (l !! index))
  end.

Definition AcceptInvite (req : InviteRequest) : H SV Response :=
  let? cfg := invitation_config in
  let token := current_token cfg in
  let? received := api_call cfg (inv_Received token (device_id cfg)) api_failure in
  let? inv := find_invitation (ir_Email req) received in
  let? r := call (on_env (inv_Accept token (device_id cfg) (in_ID inv) req)) in
  (match r with
   | Ok _ => hret tt
   | Err e => if errors_Is e ErrMaximumDeviceCount then reply (RespondToInviteError DEVICE_COUNT)
              else reply (ServiceError API_FAILURE)
   end) ;;?
  let? resp := or_reply (on_env (reg_Map token (device_id cfg))) (ServiceError API_FAILURE) in
  or_reply (on_netw (netw_Refresh resp)) (MeshnetError LIB_FAILURE) ;;?
  hret EmptyResponse.

Definition DenyInvite (email : string) : H SV Response :=
  let? cfg := invitation_config in
  let token := current_token cfg in
  let? received := api_call cfg (inv_Received token (device_id cfg)) api_failure in
  let? inv := find_invitation email received in
  or_reply (on_env (inv_Reject token (device_id cfg) (in_ID inv))) (ServiceError API_FAILURE) ;;?
  hret EmptyResponse.

Definition RevokeInvite (email : string) : H SV Response :=
  let? cfg := invitation_config in
  let token := current_token cfg in
  let? sent := api_call cfg (inv_Sent token (device_id cfg)) api_failure in
  let? inv := find_invitation email sent in
  or_reply (on_env (inv_Revoke token (device_id cfg) (in_ID inv))) (ServiceError API_FAILURE) ;;?
  hret EmptyResponse.

Definition GetInvites : H SV Response :=
  let? cfg := invitation_config in
  let token := current_token cfg in
  let? received := api_call cfg (inv_Received token (device_id cfg)) api_failure in
  let? sent := or_reply (on_env (inv_Sent token (device_id cfg))) (ServiceError API_FAILURE) in
  hret (InvitesList (map (fun i => mkInvite (in_Email i) (in_OS i)) received)
                    (map (fun i => mkInvite (in_Email i) "") sent)).
End Server.
