(* ===== verification/MeshnetPeers.v ===== *)
(** * MeshnetPeers: the handlers of the meshnet service that deal with peers

    The part of [meshnet/server.go] that lists, removes and renames peers,
    changes the permissions given to them and routes the machine's traffic
    through one of them.  Every handler is whole: its guards, the update sent to
    the API, the call to the networker and the response. *)

From stdpp Require Import base option list strings gmap.
From Stdlib Require Import ZArith Lia.
From S2P Require Import Prelude GoLib Api Mesh Config Firewall Networker MeshnetServer.

Open Scope Z_scope.
Open Scope go_scope.

(** ** Finding a peer *)

Definition has_id (id : string) (p : MachinePeer) : bool := bool_decide (p_ID p = id).

Definition getPeerWithIdentifier (id : string) (peers : list MachinePeer) : option MachinePeer :=
  if bool_decide (id = "") then None
  else
    let id := str_lower id in
    match index_func (fun p => bool_decide (p_ID p = id) || equal_fold (p_Hostname p) id ||
                               bool_decide (p_PublicKey p = id) || equal_fold (p_Nickname p) id) peers with
    | None => None
    | Some index => peers !! index
    end.

(** ** Name maps

    The peers by public key and by every name they can be called. *)

Definition peer_names (peer : PbPeer) : list string :=
  [str_lower (pb_Ip peer); str_lower (pb_Hostname peer);
   str_lower (trim_suffix (pb_Hostname peer) ".nord")] ++
  (if bool_decide (pb_Nickname peer = "") then []
   else [str_lower (pb_Nickname peer); str_lower (pb_Nickname peer) +:+ ".nord"]).

Definition add_peer_names (m : gmap string PbPeer) (peer : PbPeer) : gmap string PbPeer :=
  foldl (fun m name => <[name := peer]> m) m (peer_names peer).

Definition MakePeerMaps (peers : PeerList) : gmap string PbPeer * gmap string PbPeer :=
  foldl (fun '(byKey, byName) peer =>
           (<[pb_Pubkey peer := peer]> byKey, add_peer_names byName peer))
        (∅, ∅) (pl_External peers ++ pl_Local peers).

(** ** Errors of a nickname change *)

Definition apiToNicknameError (e : error) : Response :=
  if errors_Is e ErrRateLimitReach then NicknameError RATE_LIMIT_REACH
  else if errors_Is e ErrNicknameTooLong then NicknameError NICKNAME_TOO_LONG
  else if errors_Is e ErrDuplicateNickname then NicknameError DUPLICATE_NICKNAME
  else if errors_Is e ErrContainsForbiddenWord then NicknameError CONTAINS_FORBIDDEN_WORD
  else if errors_Is e ErrInvalidPrefixOrSuffix then NicknameError SUFFIX_OR_PREFIX_ARE_INVALID
  else if errors_Is e ErrNicknameWithDoubleHyphens then NicknameError NICKNAME_HAS_DOUBLE_HYPHENS
  else if errors_Is e ErrContainsInvalidChars then NicknameError INVALID_CHARS
  else ServiceError API_FAILURE.

Section Peers.
Context {Nt E : Type} `{MeshNetworker Nt} `{MeshApi E}.
#[local] Abbreviation SV := (Server Nt E).

(** ** Listing and removing *)

Definition add_peer (status : gmap string string) (peers : PeerList) (peer : MachinePeer) : PeerList :=
  let proto := (MachinePeer_ToProtobuf peer)
    <| pb_Status := bool_decide (default "" (status !! p_PublicKey peer) = "connected") |> in
  if p_IsLocal peer
  then mkPeerList (pl_Self peers) (pl_Local peers ++ [proto]) (pl_External peers)
  else mkPeerList (pl_Self peers) (pl_Local peers) (pl_External peers ++ [proto]).

Definition GetPeers : H SV Response :=
  require_login ;;?
  let? cfg := load_config in
  require_mesh cfg ;;?
  let token := current_token cfg in
  let? registered := call IsRegistrationInfoCorrect in
  let? peers :=
    match registered with
    | Ok true =>
        let? resp := api_call cfg (reg_List token (device_id cfg)) failure_or_disabled in
        let? status := call (on_netw netw_StatusMap) in
        let status := match status with Ok m => m | Err _ => ∅ end in
        hret (foldl (add_peer status)
                (mkPeerList (Some (Machine_ToProtobuf (device cfg))) [] []) resp)
    | _ =>
        let? resp := api_call cfg (reg_Local token) failure_or_disabled in
        hret (mkPeerList None (map Machine_ToProtobuf resp) [])
    end in
  hmodify (fun s => if bool_decide (sv_lastPeers s = peers) then s
                    else s <| sv_lastPeers := peers |>) ;;?
  hret (PeersResponse peers).

Definition find_index {A} (p : A -> bool) (l : list A) : H SV (nat * A) :=
  match index_func p l with
  | None => reply PeerNotFound
  | Some index =>
      match l !! index with
      | Some a => hret (index, a)
      | None => reply PeerNotFound
      end
  end.

Definition RemovePeer (id : string) : H SV Response :=
  require_login ;;?
  let? registered := call IsRegistrationInfoCorrect in
  match registered with
  | Ok true =>
      let? cfg := load_config in
      let token := current_token cfg in
      let? resp := api_call cfg (reg_List token (device_id cfg)) failure_or_disabled in
      let? found := find_index (has_id id) resp in
      let peer := found.2 in
      or_reply (on_env (if p_IsLocal peer then reg_Unregister token (p_ID peer)
                        else reg_Unpair token (device_id cfg) (p_ID peer)))
        (ServiceError API_FAILURE) ;;?
      hret EmptyResponse
  | _ =>
      let? cfg := load_config in
      let token := current_token cfg in
      let? resp := api_call cfg (reg_Local token) failure_or_disabled in
      let? found := find_index (fun m => bool_decide (m_ID m = id)) resp in
      or_reply (on_env (reg_Unregister token (m_ID found.2))) (ServiceError API_FAILURE) ;;?
      hret EmptyResponse
  end.

(** ** Nicknames *)

(** The new nickname must differ, and must not be a name that resolves
    unless it only differs in case. *)
Definition check_nickname (old nickname : string) (too_long : bool) : H SV unit :=
  if bool_decide (nickname = "") then
    if bool_decide (old = "") then reply (NicknameError NICKNAME_ALREADY_EMPTY) else hret tt
  else if too_long then reply (NicknameError NICKNAME_TOO_LONG)
  else if bool_decide (old = nickname) then reply (NicknameError SAME_NICKNAME)
  else if equal_fold old nickname then hret tt
  else
    let? ips := call (on_env (dns_LookupIP nickname)) in
    match ips with
    | Ok (S _) => reply (NicknameError DOMAIN_NAME_EXISTS)
    | _ => hret tt
    end.

(** Fetches the map and hands it to the networker. *)
Definition refresh_map (token id : string) : H SV Response :=
  let? resp := or_reply (on_env (reg_Map token id)) (ServiceError API_FAILURE) in
  or_reply (on_netw (netw_Refresh resp)) (ServiceError CONFIG_FAILURE) ;;?
  hret EmptyResponse.

Definition ChangePeerNickname (id nickname : string) : H SV Response :=
  require_login ;;?
  let? cfg := load_config in
  require_mesh cfg ;;?
  let token := current_token cfg in
  require_registration (ServiceError CONFIG_FAILURE) ;;?
  let? resp := api_call cfg (reg_List token (device_id cfg)) api_failure in
  match getPeerWithIdentifier id resp with
  | None => reply PeerNotFound
  | Some peer =>
      check_nickname (p_Nickname peer) nickname false ;;?
      let? r := call (on_env (reg_Configure token (device_id cfg) (p_ID peer)
                                (NewPeerUpdateRequest (peer <| p_Nickname := nickname |>)))) in
      match r with
      | Err e => reply (apiToNicknameError e)
      | Ok _ => refresh_map token (device_id cfg)
      end
  end.

Definition set_nickname (nickname : string) (c : Config) : Config :=
  c <| cfg_MeshDevice := Some ((device c) <| m_Nickname := nickname |>) |>.

Definition ChangeMachineNickname (nickname : string) : H SV Response :=
  require_login ;;?
  let? cfg := load_config in
  require_mesh cfg ;;?
  let token := current_token cfg in
  require_registration (ServiceError CONFIG_FAILURE) ;;?
  check_nickname (m_Nickname (device cfg)) nickname (25 <? Z.of_nat (String.length nickname)) ;;?
  api_call cfg (reg_Update token (device_id cfg)
                  (mkMachineUpdateRequest nickname true (m_Endpoints (device cfg))))
    (fun e => reply (apiToNicknameError e)) ;;?
  or_reply (SaveWith (set_nickname nickname)) (ServiceError CONFIG_FAILURE) ;;?
  refresh_map token (device_id cfg).

(** ** Permissions *)

(** A handler that works on one listed peer: login, registration,
    configuration, list of peers, the peer itself.  [failed] answers a failed
    listing. *)
Definition with_peer (id : string) (failed : error -> H SV (list MachinePeer))
    (k : Config -> list MachinePeer -> nat -> MachinePeer -> H SV Response) : H SV Response :=
  require_login ;;?
  require_registration (MeshnetError NOT_REGISTERED) ;;?
  let? cfg := load_config in
  let? peers := api_call cfg (reg_List (current_token cfg) (device_id cfg)) failed in
  let? found := find_index (has_id id) peers in
  k cfg peers found.1 found.2.

Definition updatePeerPermissions (token deviceID : string) (peer : MachinePeer) : M SV unit :=
  on_env (reg_Configure token deviceID (p_ID peer) (NewPeerUpdateRequest peer)).

(** The changed peer is sent to the API, then the networker is told. *)
Definition change_permission (cfg : Config) (already : bool) (code : PermissionErrorCode)
    (peer : MachinePeer) (netw : H SV unit) : H SV Response :=
  if already then reply (PermissionError code)
  else
    or_reply (updatePeerPermissions (current_token cfg) (device_id cfg) peer)
      (ServiceError API_FAILURE) ;;?
    netw ;;?
    hret EmptyResponse.

Definition unique_address (peer : MachinePeer) : UniqueAddress :=
  mkUniqueAddress (p_PublicKey peer) (p_Address peer).

(** A networker call about a peer that has an address. *)
Definition if_online (peer : MachinePeer) (m : UniqueAddress -> M Nt unit) : H SV unit :=
  if addr_IsValid (p_Address peer)
  then or_reply (on_netw (m (unique_address peer))) (MeshnetError LIB_FAILURE)
  else hret tt.

(** [peers[index]] was changed in place. *)
Definition reset_routing (peers : list MachinePeer) (index : nat) (peer : MachinePeer) : H SV unit :=
  or_reply (on_netw (netw_ResetRouting peer (<[index := peer]> peers))) (MeshnetError LIB_FAILURE).

Definition AllowIncoming (id : string) : H SV Response :=
  with_peer id failure_or_disabled (fun cfg _ _ peer =>
    let peer' := peer <| p_DoIAllowInbound := true |> in
    change_permission cfg (p_DoIAllowInbound peer) INCOMING_ALREADY_ALLOWED peer'
      (if_online peer' (fun a =>
         netw_AllowIncoming a (p_DoIAllowRouting peer && p_DoIAllowLocalNetwork peer)))).

Definition DenyIncoming (id : string) : H SV Response :=
  with_peer id api_failure (fun cfg _ _ peer =>
    let peer' := peer <| p_DoIAllowInbound := false |> in
    change_permission cfg (negb (p_DoIAllowInbound peer)) INCOMING_ALREADY_DENIED peer'
      (if_online peer' netw_BlockIncoming)).

Definition AllowRouting (id : string) : H SV Response :=
  with_peer id failure_or_disabled (fun cfg peers index peer =>
    let peer' := peer <| p_DoIAllowRouting := true |> in
    change_permission cfg (p_DoIAllowRouting peer) ROUTING_ALREADY_ALLOWED peer'
      (reset_routing peers index peer')).

Definition DenyRouting (id : string) : H SV Response :=
  with_peer id failure_or_disabled (fun cfg peers index peer =>
    let peer' := peer <| p_DoIAllowRouting := false |> in
    change_permission cfg (negb (p_DoIAllowRouting peer)) ROUTING_ALREADY_DENIED peer'
      (reset_routing peers index peer')).

Definition AllowLocalNetwork (id : string) : H SV Response :=
  with_peer id failure_or_disabled (fun cfg peers index peer =>
    let peer' := peer <| p_DoIAllowLocalNetwork := true |> in
    change_permission cfg (p_DoIAllowLocalNetwork peer) LOCAL_NETWORK_ALREADY_ALLOWED peer'
      (reset_routing peers index peer')).

Definition DenyLocalNetwork (id : string) : H SV Response :=
  with_peer id failure_or_disabled (fun cfg peers index peer =>
    let peer' := peer <| p_DoIAllowLocalNetwork := false |> in
    change_permission cfg (negb (p_DoIAllowLocalNetwork peer)) LOCAL_NETWORK_ALREADY_DENIED peer'
      (reset_routing peers index peer')).

Definition AllowFileshare (id : string) : H SV Response :=
  with_peer id failure_or_disabled (fun cfg _ _ peer =>
    let peer' := peer <| p_DoIAllowFileshare := true |> in
    change_permission cfg (p_DoIAllowFileshare peer) SEND_ALREADY_ALLOWED peer'
      (if_online peer' netw_AllowFileshare)).

Definition DenyFileshare (id : string) : H SV Response :=
  with_peer id failure_or_disabled (fun cfg _ _ peer =>
    let peer' := peer <| p_DoIAllowFileshare := false |> in
    change_permission cfg (negb (p_DoIAllowFileshare peer)) SEND_ALREADY_DENIED peer'
      (if_online peer' netw_BlockFileshare)).

Definition EnableAutomaticFileshare (id : string) : H SV Response :=
  with_peer id failure_or_disabled (fun cfg _ _ peer =>
    change_permission cfg (p_AlwaysAcceptFiles peer) AUTOMATIC_FILESHARE_ALREADY_ENABLED
      (peer <| p_AlwaysAcceptFiles := true |>) (hret tt)).

Definition DisableAutomaticFileshare (id : string) : H SV Response :=
  with_peer id failure_or_disabled (fun cfg _ _ peer =>
    change_permission cfg (negb (p_AlwaysAcceptFiles peer)) AUTOMATIC_FILESHARE_ALREADY_DISABLED
      (peer <| p_AlwaysAcceptFiles := false |>) (hret tt)).

Definition NotifyNewTransfer (id fileName : string) (fileCount : Z) (transferID : string) :
    H SV Response :=
  with_peer id failure_or_disabled (fun cfg _ _ peer =>
    or_reply (on_env (reg_NotifyNewTransfer (current_token cfg) (device_id cfg) (p_ID peer)
                        fileName fileCount transferID)) (ServiceError API_FAILURE) ;;?
    hret EmptyResponse).

(** ** Connecting to a peer *)

(** [config.Protocol_UDP]. *)
Definition Protocol_UDP : Z := 1.

Definition peer_server (peer : MachinePeer) : ServerData :=
  mkServerData (p_Address peer) (p_Hostname peer) (p_Nickname peer) "" "" Protocol_UDP
    (p_PublicKey peer) false "" false false.

Definition connect_error (e : error) : ConnectErrorCode :=
  if str_contains (error_text e) "already started" then ALREADY_CONNECTED
  else if errors_Is e context_Canceled then CANCELED
  else CONNECT_FAILED.

Definition connect (id : string) : H SV Response :=
  require_login ;;?
  require_registration (MeshnetError NOT_REGISTERED) ;;?
  let? cfg := load_config in
  require_mesh cfg ;;?
  if negb (bool_decide (cfg_Technology cfg = NORDLYNX)) then reply (MeshnetError TECH_FAILURE)
  else
    let? resp := api_call cfg (reg_List (current_token cfg) (device_id cfg)) failure_or_disabled in
    let? found := find_index (has_id id) resp in
    let peer := found.2 in
    if negb (p_DoesPeerAllowRouting peer) then reply (ConnectError PEER_DOES_NOT_ALLOW_ROUTING)
    else if negb (addr_IsValid (p_Address peer)) then reply (ConnectError PEER_NO_IP)
    else
      let data := cfg_AutoConnectData cfg in
      let? nameservers :=
        match ac_DNS data with
        | Some dns => hret dns
        | None => hgets (fun s => ns_Get (ac_ThreatProtectionLite data) false (sv_env s))
        end in
      let? r := call (on_netw (netw_Start (mkCredentials "" "" (cfg_MeshPrivateKey cfg))
                                 (peer_server peer) (ac_Allowlist data) nameservers
                                 (negb (p_DoesPeerAllowLocalNetwork peer)))) in
      match r with
      | Err e => reply (ConnectError (connect_error e))
      | Ok _ =>
          hmodify (fun s => s <| sv_lastConnectedPeer := p_Hostname peer |>) ;;?
          hret EmptyResponse
      end.

(** [TryExecuteWith]: one connect at a time. *)
Definition Connect (id : string) : H SV Response := fun s =>
  if sv_connecting s then (inl (ConnectError ALREADY_CONNECTING), s)
  else
    let '(r, s') := connect id (s <| sv_connecting := true |>) in
    (r, s' <| sv_connecting := false |>).

Definition GetPrivateKey : H SV Response :=
  require_login ;;?
  let? cfg := load_config in
  hret (PrivateKeyResponse (cfg_MeshPrivateKey cfg)).

Definition listPeers : M SV (list MachinePeer) :=
  let! cfg := wrapped "reading configuration when listing peers: " Load "" in
  wrapped "listing peers: " (on_env (reg_List (current_token cfg) (device_id cfg))) "".
End Peers.
