(* ===== verification/MeshnetSafety.v ===== *)
(** * MeshnetSafety: what the meshnet service guarantees

    Theorems about the handlers of files MeshnetServer and MeshnetPeers.  A
    contract ([Contract]) is an invariant of the server's state with what has to
    hold when a handler answers early; the handlers are proved once against any
    contract, and the properties are instances. *)

From stdpp Require Import base option list strings gmap.
From Stdlib Require Import ZArith Lia.
From S2P Require Import Prelude GoLib Api Mesh Config Firewall Networker NetworkerSafety.
From S2P Require Import MeshnetServer MeshnetPeers.

Set Warnings "-clear-no-such-hyp".

Open Scope Z_scope.
Open Scope go_scope.

(** ** Requests as data *)

Inductive MeshOp : Type :=
| MeshEnable (ucred : Ucred)
| MeshIsEnabled
| MeshDisable
| MeshRefresh
| MeshInvite (req : InviteRequest)
| MeshAccept (req : InviteRequest)
| MeshDeny (email : string)
| MeshRevoke (email : string)
| MeshGetInvites
| MeshGetPeers
| MeshRemovePeer (id : string)
| MeshPeerNickname (id nickname : string)
| MeshMachineNickname (nickname : string)
| MeshAllowIncoming (id : string)
| MeshDenyIncoming (id : string)
| MeshAllowRouting (id : string)
| MeshDenyRouting (id : string)
| MeshAllowLocalNetwork (id : string)
| MeshDenyLocalNetwork (id : string)
| MeshAllowFileshare (id : string)
| MeshDenyFileshare (id : string)
| MeshEnableAutomatic (id : string)
| MeshDisableAutomatic (id : string)
| MeshNotify (id fileName : string) (fileCount : Z) (transferID : string)
| MeshConnect (id : string)
| MeshPrivateKey.

Section Exec.
Context {Nt E : Type} `{MeshNetworker Nt} `{MeshApi E}.

Definition serve (o : MeshOp) : H (Server Nt E) Response :=
  match o with
  | MeshEnable ucred => EnableMeshnet ucred
  | MeshIsEnabled => IsEnabled
  | MeshDisable => DisableMeshnet
  | MeshRefresh => RefreshMeshnet
  | MeshInvite req => Invite req
  | MeshAccept req => AcceptInvite req
  | MeshDeny email => DenyInvite email
  | MeshRevoke email => RevokeInvite email
  | MeshGetInvites => GetInvites
  | MeshGetPeers => GetPeers
  | MeshRemovePeer id => RemovePeer id
  | MeshPeerNickname id nickname => ChangePeerNickname id nickname
  | MeshMachineNickname nickname => ChangeMachineNickname nickname
  | MeshAllowIncoming id => AllowIncoming id
  | MeshDenyIncoming id => DenyIncoming id
  | MeshAllowRouting id => AllowRouting id
  | MeshDenyRouting id => DenyRouting id
  | MeshAllowLocalNetwork id => AllowLocalNetwork id
  | MeshDenyLocalNetwork id => DenyLocalNetwork id
  | MeshAllowFileshare id => AllowFileshare id
  | MeshDenyFileshare id => DenyFileshare id
  | MeshEnableAutomatic id => EnableAutomaticFileshare id
  | MeshDisableAutomatic id => DisableAutomaticFileshare id
  | MeshNotify id fileName fileCount transferID => NotifyNewTransfer id fileName fileCount transferID
  | MeshConnect id => Connect id
  | MeshPrivateKey => GetPrivateKey
  end.

End Exec.

(** The requests that turn the meshnet on and off. *)
Definition toggles (o : MeshOp) : bool :=
  match o with MeshEnable _ | MeshDisable => true | _ => false end.

(** ** Contracts *)

(** The updates of the configuration the handlers save; only the requests that
    toggle the meshnet save the last two. *)
Inductive saved : bool -> (Config -> Config) -> Prop :=
| saved_logout b user : saved b (Logout user)
| saved_registration b peer key : saved b (meshConfig peer key)
| saved_nickname b nickname : saved b (set_nickname nickname)
| saved_enabled ucred machine : saved true (enabled_config ucred machine)
| saved_disabled : saved true (fun c => c <| cfg_Mesh := false |>).

(** The responses of a request that stopped early, other than [NOT_LOGGED_IN]. *)
Definition early (r : Response) : bool :=
  match r with ServiceError NOT_LOGGED_IN | EmptyResponse => false | _ => true end.

(** [I] is an invariant, [K] what it says about a configuration that was loaded,
    [R] what has to hold when a response is sent.  The response that the account
    is not logged in is sent after the account's token is removed. *)
Class Contract {Nt E} (b : bool) (I : Server Nt E -> Prop) (K : Config -> Prop)
    (R : Response -> Server Nt E -> Prop) : Prop := {
  ct_env e s : I s -> I (s <| sv_env := e |>);
  ct_cfg f s : saved b f -> I s -> I (s <| sv_cfg := f (sv_cfg s) |>);
  ct_peers l s : I s -> I (s <| sv_lastPeers := l |>);
  ct_last h s : I s -> I (s <| sv_lastConnectedPeer := h |>);
  ct_connecting c s : I s -> I (s <| sv_connecting := c |>);
  ct_sent r c s : R r s -> R r (s <| sv_connecting := c |>);
  ct_loaded s : I s -> K (sv_cfg s);
  ct_reply r s : early r = true -> I s -> R r s;
  ct_logout cfg s : K cfg -> I s ->
    R (ServiceError NOT_LOGGED_IN) (s <| sv_cfg := Logout (user_id cfg) (sv_cfg s) |>)
}.

(** The request may also end in the empty response. *)
Class Completes {Nt E} (I : Server Nt E -> Prop) (R : Response -> Server Nt E -> Prop) : Prop :=
  ct_done s : I s -> R EmptyResponse s.

#[export] Instance invariant_completes {Nt E} (I : Server Nt E -> Prop) : Completes I (fun _ => I).
Proof. by intros s. Qed.

(** The calls the handlers make on the networker keep [I]. *)
Class NetwContract {Nt E} `{MeshNetworker Nt} (I : Server Nt E -> Prop) : Prop := {
  nc_SetMesh cfg self key : preserves I (on_netw (netw_SetMesh cfg self key));
  nc_Refresh cfg : preserves I (on_netw (netw_Refresh cfg));
  nc_UnSetMesh : preserves I (on_netw netw_UnSetMesh);
  nc_AllowIncoming ua lan : preserves I (on_netw (netw_AllowIncoming ua lan));
  nc_BlockIncoming ua : preserves I (on_netw (netw_BlockIncoming ua));
  nc_AllowFileshare ua : preserves I (on_netw (netw_AllowFileshare ua));
  nc_BlockFileshare ua : preserves I (on_netw (netw_BlockFileshare ua));
  nc_ResetRouting p ps : preserves I (on_netw (netw_ResetRouting p ps));
  nc_StatusMap : preserves I (on_netw netw_StatusMap);
  nc_Start c sv al ns l : preserves I (on_netw (netw_Start c sv al ns l));
  nc_Stop : preserves I (on_netw netw_Stop)
}.

(** ** The logic of handlers *)

Section Logic.
Context {S : Type} (I : S -> Prop) (R : Response -> S -> Prop).

(** From a state with [I], a step answers with [R] or goes on with a value
    that has [Q], keeping [I]. *)
Definition hspec {A} (Q : A -> Prop) (m : H S A) : Prop :=
  forall s, I s -> match m s with
                   | (inr a, s') => Q a /\ I s'
                   | (inl r, s') => R r s'
                   end.

(** A handler answers with [R]. *)
Definition answers (m : H S Response) : Prop :=
  forall s, I s -> R (handle m s).1 (handle m s).2.

Lemma hspec_bind {A B} (Q : A -> Prop) (P : B -> Prop) (m : H S A) (k : A -> H S B) :
  hspec Q m -> (forall a, Q a -> hspec P (k a)) -> hspec P (hbind m k).
Proof.
  intros Hm Hk s Hs. specialize (Hm s Hs). unfold hbind.
  destruct (m s) as [[r|a] s']; [done|]. destruct Hm. by apply Hk.
Qed.

Lemma hspec_ret {A} (Q : A -> Prop) a : Q a -> hspec Q (hret a).
Proof. by intros HQ s Hs. Qed.

Lemma hspec_reply {A} (Q : A -> Prop) r : (forall s, I s -> R r s) -> hspec Q (reply r).
Proof. intros Hr s Hs. by apply Hr. Qed.

Lemma hspec_call {A} (m : M S A) : preserves I m -> hspec (fun _ => True) (call m).
Proof. intros Hm s Hs. specialize (Hm s Hs). unfold call. by destruct (m s). Qed.

Lemma hspec_gets {A} (f : S -> A) : hspec (fun _ => True) (hgets f).
Proof. by intros s Hs. Qed.

Lemma hspec_modify f : (forall s, I s -> I (f s)) -> hspec (fun _ => True) (hmodify f).
Proof. intros Hf s Hs. split; [done|by apply Hf]. Qed.

Lemma answers_bind {A} (Q : A -> Prop) (m : H S A) (k : A -> H S Response) :
  hspec Q m -> (forall a, Q a -> answers (k a)) -> answers (hbind m k).
Proof.
  intros Hm Hk s Hs. specialize (Hm s Hs). unfold handle, hbind.
  destruct (m s) as [[r|a] s']; [done|]. destruct Hm as [Ha Hs'].
  specialize (Hk a Ha s' Hs'). unfold handle in Hk. by destruct (k a s') as [[]].
Qed.

(** The same from states that also have [P]. *)
Definition hspec_from {A} (P : S -> Prop) (Q : A -> Prop) (m : H S A) : Prop :=
  forall s, I s -> P s -> match m s with
                          | (inr a, s') => Q a /\ I s'
                          | (inl r, s') => R r s'
                          end.

Definition answers_from (P : S -> Prop) (m : H S Response) : Prop :=
  forall s, I s -> P s -> R (handle m s).1 (handle m s).2.

Lemma hspec_from_bind {A B} P (Q : A -> Prop) (Q' : B -> Prop) (m : H S A) (k : A -> H S B) :
  hspec_from P Q m -> (forall a, Q a -> hspec Q' (k a)) -> hspec_from P Q' (hbind m k).
Proof.
  intros Hm Hk s Hs HP. specialize (Hm s Hs HP). unfold hbind.
  destruct (m s) as [[r|a] s']; [done|]. destruct Hm as [Ha Hs']. by apply (Hk a Ha s').
Qed.

Lemma answers_from_bind {A} P (Q : A -> Prop) (m : H S A) (k : A -> H S Response) :
  hspec_from P Q m -> (forall a, Q a -> answers (k a)) -> answers_from P (hbind m k).
Proof.
  intros Hm Hk s Hs HP. specialize (Hm s Hs HP). unfold handle, hbind.
  destruct (m s) as [[r|a] s']; [done|]. destruct Hm as [Ha Hs'].
  specialize (Hk a Ha s' Hs'). unfold handle in Hk. by destruct (k a s') as [[]].
Qed.

Lemma answers_from_weaken P m : answers m -> answers_from P m.
Proof. intros Hm s Hs _. by apply Hm. Qed.

Lemma answers_ret r : (forall s, I s -> R r s) -> answers (hret r).
Proof. intros Hr s Hs. by apply Hr. Qed.

Lemma answers_reply r : (forall s, I s -> R r s) -> answers (reply r).
Proof. intros Hr s Hs. by apply Hr. Qed.
End Logic.

(** ** Handlers against a contract *)

Create HintDb mesh.
Create HintDb serving discriminated.
#[export] Hint Constants Opaque : serving.

#[export] Hint Extern 1 (early _ = true) => reflexivity : mesh.

Ltac mesh_step :=
  first
    [ solve [eauto with mesh]
    | match goal with
      | |- forall _, _ => intros ?
      | |- early _ = true => reflexivity
      | |- ?Q ?a => is_evar Q; let T := type of a in unify Q (fun _ : T => True); exact Logic.I
      | |- context [let _ := _ in _] => cbv zeta
      | |- hspec _ _ _ (hbind _ _) => eapply hspec_bind
      | |- hspec _ _ _ (hret _) => apply hspec_ret
      | |- hspec _ _ _ (reply _) => apply hspec_reply
      | |- hspec _ _ _ (hgets _) => apply hspec_gets
      | |- hspec _ _ _ (call _) => apply hspec_call
      | |- answers _ _ (hbind _ _) => eapply answers_bind
      | |- answers _ _ (hret _) => apply answers_ret
      | |- answers _ _ (reply _) => apply answers_reply
      | |- preserves _ (bind _ _) => apply preserves_bind
      | |- preserves _ (attempt _) => apply preserves_attempt
      | |- preserves _ (ret _) => apply preserves_ret
      | |- preserves _ (throw _) => apply preserves_throw
      | |- preserves _ (gets _) => apply preserves_gets
      | |- context [match ?x with _ => _ end] => is_var x; destruct x
      | |- context [if ?x then _ else _] => destruct x
      | |- context [match ?x with _ => _ end] => destruct x
      end ].
Ltac mesh_auto := repeat mesh_step.

Section Handlers.
Context {Nt E : Type} `{MeshNetworker Nt} `{MeshApi E}.
Context {b : bool} {I : Server Nt E -> Prop} {K : Config -> Prop}
  {R : Response -> Server Nt E -> Prop} `{HC : !Contract b I K R}.

Lemma keeps_env {A} (m : M E A) : preserves I (on_env m).
Proof. apply preserves_zoom_frame. intros e s. apply ct_env. Qed.

Lemma keeps_env_pure {A} (f : E -> A * E) : preserves I (env_pure f).
Proof. intros s Hs. unfold env_pure. destruct (f (sv_env s)). by apply ct_env. Qed.
#[local] Hint Resolve keeps_env keeps_env_pure : mesh.

Lemma keeps_Load : preserves I Load.
Proof. unfold Load. mesh_auto. Qed.

Lemma keeps_SaveWith f : saved b f -> preserves I (SaveWith f).
Proof.
  intros Hf. apply preserves_bind; [apply keeps_env|]. intros _. apply preserves_modify.
  intros s. by apply ct_cfg.
Qed.
#[local] Hint Resolve keeps_Load keeps_SaveWith : mesh.
#[local] Hint Constructors saved : mesh.

Lemma keeps_register cfg : preserves I (register cfg).
Proof. unfold register. mesh_auto. Qed.
#[local] Hint Resolve keeps_register : mesh.

Lemma keeps_save_registration cfg : preserves I (save_registration cfg).
Proof. unfold save_registration. mesh_auto. Qed.
#[local] Hint Resolve keeps_save_registration : mesh.

Lemma keeps_IsRegistrationInfoCorrect : preserves I IsRegistrationInfoCorrect.
Proof. unfold IsRegistrationInfoCorrect. mesh_auto. Qed.

Lemma keeps_Register : preserves I Register.
Proof. unfold Register. mesh_auto. Qed.
#[local] Hint Resolve keeps_IsRegistrationInfoCorrect keeps_Register : mesh.

Lemma sends r s : early r = true -> I s -> R r s.
Proof. apply ct_reply. Qed.
#[local] Hint Resolve sends : mesh.

Lemma spec_registration r : early r = true ->
  hspec I R (fun _ => True) (require_registration r).
Proof. intros Hr. unfold require_registration. mesh_auto. Qed.

Lemma spec_load_config : hspec I R K load_config.
Proof.
  intros s Hs. unfold load_config, Load, hbind, call, on_env, zoom, gets, bind.
  destruct (cm_Load (sv_env s)) as [[[]|e] e']; cbn.
  - split; [|by apply ct_env]. by apply (ct_loaded (I := I) (K := K) s).
  - apply ct_reply; [done|]. by apply ct_env.
Qed.

Lemma spec_require_mesh cfg : hspec I R (fun _ => True) (require_mesh cfg).
Proof. unfold require_mesh. mesh_auto. Qed.

Lemma spec_or_reply {A} (m : M (Server Nt E) A) r :
  early r = true -> preserves I m -> hspec I R (fun _ => True) (or_reply m r).
Proof. intros Hr Hm. unfold or_reply. mesh_auto. Qed.

Lemma spec_try_call {A} (m : M (Server Nt E) A) :
  preserves I m -> hspec I R (fun _ => True) (try_call m).
Proof. intros Hm. unfold try_call. mesh_auto. Qed.
#[local] Hint Resolve spec_registration spec_load_config spec_require_mesh spec_or_reply
  spec_try_call : mesh.

(** The account is logged out and the response says so. *)
Lemma spec_logout {A} (Q : A -> Prop) cfg : K cfg ->
  hspec I R Q
    (let? r := call (SaveWith (Logout (user_id cfg))) in
     match r with
     | Err _ => reply (ServiceError CONFIG_FAILURE)
     | Ok _ => reply (ServiceError NOT_LOGGED_IN)
     end).
Proof.
  intros HK s Hs. unfold SaveWith, on_env, zoom, bind, call, hbind, modify, reply.
  destruct (cm_SaveWith (sv_env s)) as [[[]|e] e']; cbn.
  - refine (ct_logout (I := I) (K := K) (R := R) cfg (s <| sv_env := e' |>) HK _). by apply ct_env.
  - apply ct_reply; [done|]. by apply ct_env.
Qed.
#[local] Hint Resolve spec_logout : mesh.

Lemma spec_api_failure {A} (Q : A -> Prop) e : hspec I R Q (api_failure e).
Proof. unfold api_failure. mesh_auto. Qed.

Lemma spec_failure_or_disabled {A} (Q : A -> Prop) e : hspec I R Q (failure_or_disabled e).
Proof. unfold failure_or_disabled, isMeshOn. mesh_auto. Qed.
#[local] Hint Resolve spec_api_failure spec_failure_or_disabled : mesh.

Lemma spec_api_call {A} cfg (m : M E A) failed :
  K cfg -> (forall e, hspec I R (fun _ => True) (failed e)) ->
  hspec I R (fun _ => True) (api_call cfg m failed).
Proof. intros HK Hf. unfold api_call. mesh_auto. Qed.
#[local] Hint Resolve spec_api_call : mesh.

Lemma spec_find_index {A} (p : A -> bool) l : hspec I R (fun _ => True) (find_index p l).
Proof. unfold find_index. mesh_auto. Qed.

Lemma spec_find_invitation email l : hspec I R (fun _ => True) (find_invitation email l).
Proof. unfold find_invitation. mesh_auto. Qed.

Lemma spec_check_nickname old new b' : hspec I R (fun _ => True) (check_nickname old new b').
Proof. unfold check_nickname. mesh_auto. Qed.
#[local] Hint Resolve spec_find_index spec_find_invitation spec_check_nickname : mesh.

Lemma sends_nickname_error e s : I s -> R (apiToNicknameError e) s.
Proof. unfold apiToNicknameError. mesh_auto. Qed.
#[local] Hint Resolve sends_nickname_error : mesh.

Lemma spec_nickname_error {A} (Q : A -> Prop) e : hspec I R Q (reply (apiToNicknameError e)).
Proof. mesh_auto. Qed.
#[local] Hint Resolve spec_nickname_error : mesh.

(** *** Calls that only use the environment *)

Definition logged_in (s : Server Nt E) : Prop := (ac_IsLoggedIn (sv_env s)).1 = true.

Lemma spec_login : hspec_from I R logged_in (fun _ => True) require_login.
Proof.
  intros s Hs. unfold logged_in, require_login, hbind, call, env_pure.
  destruct (ac_IsLoggedIn (sv_env s)) as [l e']. cbn. intros ->.
  split; [done|]. by apply ct_env.
Qed.

Lemma spec_invitation_config : hspec_from I R logged_in K invitation_config.
Proof. eapply hspec_from_bind; [apply spec_login|]. mesh_auto. Qed.

Context `{HD : !Completes I R}.

Lemma completes s : I s -> R EmptyResponse s.
Proof. apply ct_done. Qed.
#[local] Hint Resolve completes : mesh.

Ltac gated := first
  [ eapply answers_from_bind; [apply spec_login|]
  | eapply answers_from_bind; [apply spec_invitation_config|] ]; mesh_auto.

(** Handlers that never call the networker. *)
Lemma serves_IsEnabled : answers_from I R logged_in IsEnabled.
Proof. gated. Qed.

Lemma serves_RemovePeer id : answers_from I R logged_in (RemovePeer id).
Proof. gated. Qed.

Lemma serves_PrivateKey : answers_from I R logged_in GetPrivateKey.
Proof. gated. Qed.

Lemma serves_Invite req : answers_from I R logged_in (Invite req).
Proof. unfold Invite, invite_error. gated. Qed.

Lemma serves_DenyInvite email : answers_from I R logged_in (DenyInvite email).
Proof. gated. Qed.

Lemma serves_RevokeInvite email : answers_from I R logged_in (RevokeInvite email).
Proof. gated. Qed.

Lemma serves_GetInvites : answers_from I R logged_in GetInvites.
Proof. gated. Qed.

Lemma serves_with_peer id failed k :
  (forall e, hspec I R (fun _ => True) (failed e)) ->
  (forall cfg peers i p, K cfg -> answers I R (k cfg peers i p)) ->
  answers_from I R logged_in (with_peer id failed k).
Proof. intros Hf Hk. unfold with_peer. gated. Qed.

Lemma answers_change cfg already code peer (netw : H (Server Nt E) unit) :
  hspec I R (fun _ => True) netw -> answers I R (change_permission cfg already code peer netw).
Proof. intros Hn. unfold change_permission, updatePeerPermissions. mesh_auto. Qed.

Lemma spec_hret_tt : hspec I R (fun _ => True) (hret tt).
Proof. mesh_auto. Qed.
#[local] Hint Resolve answers_change spec_hret_tt : mesh.

Lemma serves_EnableAutomatic id : answers_from I R logged_in (EnableAutomaticFileshare id).
Proof. apply serves_with_peer; mesh_auto. Qed.

Lemma serves_DisableAutomatic id : answers_from I R logged_in (DisableAutomaticFileshare id).
Proof. apply serves_with_peer; mesh_auto. Qed.

Lemma serves_Notify id f c t : answers_from I R logged_in (NotifyNewTransfer id f c t).
Proof. apply serves_with_peer; mesh_auto. Qed.

(** *** Calls that use the networker *)

Context `{HN : !NetwContract I}.
#[local] Hint Resolve nc_SetMesh nc_Refresh nc_UnSetMesh nc_AllowIncoming nc_BlockIncoming
  nc_AllowFileshare nc_BlockFileshare nc_ResetRouting nc_StatusMap nc_Start nc_Stop : mesh.

Lemma serves_Refresh : answers_from I R logged_in RefreshMeshnet.
Proof. gated. Qed.

Lemma serves_AcceptInvite req : answers_from I R logged_in (AcceptInvite req).
Proof. gated. Qed.

Lemma spec_lastPeers peers :
  hspec I R (fun _ => True)
    (hmodify (fun s => if bool_decide (sv_lastPeers s = peers) then s
                       else s <| sv_lastPeers := peers |>)).
Proof. apply hspec_modify. intros s Hs. case_bool_decide; [done|]. by apply ct_peers. Qed.

Lemma spec_lastConnected h :
  hspec I R (fun _ => True) (hmodify (fun s => s <| sv_lastConnectedPeer := h |>)).
Proof. apply hspec_modify. intros s Hs. by apply ct_last. Qed.
#[local] Hint Resolve spec_lastPeers spec_lastConnected : mesh.

Lemma serves_GetPeers : answers_from I R logged_in GetPeers.
Proof. gated. Qed.

Lemma answers_refresh_map token id : answers I R (refresh_map token id).
Proof. unfold refresh_map. mesh_auto. Qed.
#[local] Hint Resolve answers_refresh_map : mesh.

Lemma serves_PeerNickname id nickname : answers_from I R logged_in (ChangePeerNickname id nickname).
Proof. gated. Qed.

Lemma serves_MachineNickname nickname : answers_from I R logged_in (ChangeMachineNickname nickname).
Proof. gated. Qed.

Lemma spec_if_online peer m :
  (forall ua, preserves I (on_netw (m ua))) -> hspec I R (fun _ => True) (if_online peer m).
Proof. intros Hm. unfold if_online. mesh_auto. Qed.

Lemma spec_reset_routing peers i peer : hspec I R (fun _ => True) (reset_routing peers i peer).
Proof. unfold reset_routing. mesh_auto. Qed.
#[local] Hint Resolve spec_if_online spec_reset_routing : mesh.

Lemma serves_connect id : answers_from I R logged_in (connect id).
Proof. unfold connect, connect_error. gated. Qed.

Lemma answers_Disable : saved b (fun c => c <| cfg_Mesh := false |>) -> answers I R DisableMeshnet.
Proof. intros Hb. unfold DisableMeshnet. mesh_auto. Qed.

Lemma serves_Enable ucred : (forall m, saved b (enabled_config ucred m)) ->
  answers_from I R logged_in (EnableMeshnet ucred).
Proof. intros Hb. gated. Qed.

Lemma serves_Connect id : answers_from I R logged_in (Connect id).
Proof.
  intros s Hs Hl. unfold handle, Connect. destruct (sv_connecting s); [by apply ct_reply|].
  pose proof (serves_connect id (s <| sv_connecting := true |>) (ct_connecting _ _ Hs) Hl) as Hr.
  unfold handle in Hr. destruct (connect id _) as [[r|r] s']; by apply ct_sent.
Qed.

#[local] Hint Resolve serves_IsEnabled serves_RemovePeer serves_PrivateKey serves_Invite
  serves_DenyInvite serves_RevokeInvite serves_GetInvites serves_EnableAutomatic
  serves_DisableAutomatic serves_Notify serves_Refresh serves_AcceptInvite serves_GetPeers
  serves_PeerNickname serves_MachineNickname serves_Connect : serving.

(** Every request keeps every contract. *)
Lemma serves o : (toggles o = true -> b = true) -> answers_from I R logged_in (serve o).
Proof.
  intros Hb. destruct o; cbn [serve]; auto with serving;
    try (apply serves_with_peer; solve [mesh_auto]).
  - apply serves_Enable. rewrite (Hb eq_refl). constructor.
  - apply answers_from_weaken, answers_Disable. rewrite (Hb eq_refl). constructor.
Qed.
End Handlers.

(** ** Logged out *)

Section LoggedOut.
Context {Nt E : Type} `{MeshNetworker Nt} `{MeshApi E}.
Implicit Types s : Server Nt E.

(** The requests that ask for a login before anything else; a connect that
    finds another one running is refused without asking. *)
Definition needs_login (o : MeshOp) s : bool :=
  match o with
  | MeshDisable => false
  | MeshConnect _ => negb (sv_connecting s)
  | _ => true
  end.

Lemma hbind_replied {S A B} (m : H S A) (k : A -> H S B) (s s' : S) r :
  m s = (inl r, s') -> hbind m k s = (inl r, s').
Proof. unfold hbind. by intros ->. Qed.

Lemma handle_replied {S} (m : H S Response) (s s' : S) r :
  m s = (inl r, s') -> handle m s = (r, s').
Proof. unfold handle. by intros ->. Qed.

Lemma logged_out_reply s : (ac_IsLoggedIn (sv_env s)).1 = false ->
  require_login s =
    (inl (ServiceError NOT_LOGGED_IN), s <| sv_env := (ac_IsLoggedIn (sv_env s)).2 |>).
Proof.
  unfold require_login, hbind, call, env_pure.
  destruct (ac_IsLoggedIn (sv_env s)) as [l e]. cbn. by intros ->.
Qed.

Lemma serve_logged_out o s : (ac_IsLoggedIn (sv_env s)).1 = false -> needs_login o s = true ->
  handle (serve o) s =
    (ServiceError NOT_LOGGED_IN, s <| sv_env := (ac_IsLoggedIn (sv_env s)).2 |>).
Proof.
  intros Hl Ho. apply handle_replied. apply logged_out_reply in Hl as Hr.
  destruct o; try done; cbn [serve];
    try solve [by apply hbind_replied | by apply hbind_replied, hbind_replied].
  cbn in Ho. unfold Connect. destruct (sv_connecting s) eqn:Hc; [done|].
  unfold connect. erewrite hbind_replied; [|by apply logged_out_reply].
  destruct s; cbn in *. by subst.
Qed.
End LoggedOut.

(** ** Invariants

    A contract that asks of every response what the invariant says. *)

Section Invariants.
Context {Nt E : Type} `{MeshNetworker Nt} `{MeshApi E}.
Context {b : bool} {I : Server Nt E -> Prop}
  `{HC : !Contract b I (fun _ => True) (fun _ => I)} `{HN : !NetwContract I}.

Lemma serve_keeps o s : (toggles o = true -> b = true) -> I s -> I (handle (serve o) s).2.
Proof.
  intros Hb Hs. destruct ((ac_IsLoggedIn (sv_env s)).1) eqn:Hl.
  { by apply (serves (I := I) (K := fun _ => True) (R := fun _ => I)). }
  destruct (needs_login o s) eqn:Ho.
  { rewrite serve_logged_out; [|done..]. by apply (ct_env (K := fun _ => True) (R := fun _ => I)). }
  destruct o; try done.
  - apply (answers_Disable (R := fun _ => I) (K := fun _ => True)); [|done].
    rewrite Hb by done. constructor.
  - cbn in Ho. apply negb_false_iff in Ho. cbn [serve]. unfold handle, Connect. by rewrite Ho.
Qed.
End Invariants.

(** *** The configuration *)

(** [c] with the fields that belong to the meshnet and the accounts taken from
    [c0]. *)
Definition with_mesh_fields (c0 c : Config) : Config :=
  c <| cfg_Mesh := cfg_Mesh c0 |> <| cfg_MeshPrivateKey := cfg_MeshPrivateKey c0 |>
    <| cfg_MeshDevice := cfg_MeshDevice c0 |> <| cfg_EnabledByUID := cfg_EnabledByUID c0 |>
    <| cfg_EnabledByGID := cfg_EnabledByGID c0 |> <| cfg_TokensData := cfg_TokensData c0 |>.

(** What no request changes. *)
Record same_settings (b : bool) (c0 c : Config) : Prop := {
  ss_others : with_mesh_fields c0 c = c0;
  ss_Tokens : cfg_TokensData c ⊆ cfg_TokensData c0;
  ss_Mesh : b = false -> cfg_Mesh c = cfg_Mesh c0 /\ cfg_EnabledByUID c = cfg_EnabledByUID c0 /\
                         cfg_EnabledByGID c = cfg_EnabledByGID c0
}.

Lemma ss_Technology b c0 c : same_settings b c0 c -> cfg_Technology c = cfg_Technology c0.
Proof. intros [Ho _ _]. by rewrite <- Ho. Qed.

Lemma ss_AutoConnect b c0 c : same_settings b c0 c -> cfg_AutoConnectData c = cfg_AutoConnectData c0.
Proof. intros [Ho _ _]. by rewrite <- Ho. Qed.

Lemma same_settings_refl b c : same_settings b c c.
Proof. by split; [destruct c|..]. Qed.

Lemma same_settings_saved b c0 c f : saved b f -> same_settings b c0 c -> same_settings b c0 (f c).
Proof.
  intros [] [Ho Ht Hm]; split; try done; try (by rewrite <- Ho at 7).
  - etrans; [apply delete_subseteq|done].
  - unfold enabled_config. by case_match.
  - unfold enabled_config. by case_match.
Qed.

Section Settings.
Context {Nt E : Type} `{MeshNetworker Nt} `{MeshApi E}.

#[export] Instance settings_contract b c0 :
  Contract b (fun s : Server Nt E => same_settings b c0 (sv_cfg s)) (fun _ => True)
    (fun _ s => same_settings b c0 (sv_cfg s)).
Proof.
  split; try done.
  - intros f s. apply same_settings_saved.
  - intros cfg s _ Hs. apply (same_settings_saved _ _ _ _ (saved_logout b (user_id cfg)) Hs).
Qed.

#[export] Instance settings_netw_contract b c0 :
  NetwContract (fun s : Server Nt E => same_settings b c0 (sv_cfg s)).
Proof. split; intros; by apply preserves_zoom_frame. Qed.
End Settings.

(** *** Logging out *)

Section LogOut.
Context {Nt E : Type} `{MeshNetworker Nt} `{MeshApi E}.

(** [NOT_LOGGED_IN] is only sent once the account has no token. *)
Definition logged_out_if_sent (user : Z) (r : Response) (s : Server Nt E) : Prop :=
  r = ServiceError NOT_LOGGED_IN -> cfg_TokensData (sv_cfg s) !! user = None.

Lemma saved_user b f c : saved b f -> user_id (f c) = user_id c.
Proof. intros []; try done. unfold enabled_config. by case_match. Qed.

#[export] Instance logout_contract user :
  Contract true (fun s : Server Nt E => user_id (sv_cfg s) = user)
    (fun cfg => user_id cfg = user) (logged_out_if_sent user).
Proof.
  unfold logged_out_if_sent. split; try done.
  - intros f s Hf. cbn. by rewrite (saved_user _ _ _ Hf).
  - by intros r s Hr _ ->.
  - intros cfg s <- _ _. cbn. apply lookup_delete_eq.
Qed.

#[export] Instance logout_completes user :
  Completes (fun s : Server Nt E => user_id (sv_cfg s) = user) (logged_out_if_sent user).
Proof. by intros s _. Qed.

#[export] Instance logout_netw_contract user :
  NetwContract (fun s : Server Nt E => user_id (sv_cfg s) = user).
Proof. split; intros; by apply preserves_zoom_frame. Qed.
End LogOut.

(** *** Meshnet turned off *)

(** The requests that reach the networker without asking whether the meshnet is
    on. *)
Definition unchecked (o : MeshOp) : bool :=
  match o with
  | MeshEnable _ | MeshAllowIncoming _ | MeshDenyIncoming _ | MeshAllowRouting _ | MeshDenyRouting _
  | MeshAllowLocalNetwork _ | MeshDenyLocalNetwork _ | MeshAllowFileshare _
  | MeshDenyFileshare _ => true
  | _ => false
  end.

Section MeshOff.
Context {Nt E : Type} `{MeshNetworker Nt} `{MeshApi E}.
Context (n : Nt).
#[local] Abbreviation off := (fun s : Server Nt E => sv_netw s = n /\ cfg_Mesh (sv_cfg s) = false).
#[local] Abbreviation untouched := (fun (_ : Response) (s : Server Nt E) => sv_netw s = n).
#[local] Abbreviation K := (fun cfg : Config => cfg_Mesh cfg = false).

#[local] Instance off_contract : Contract false off K untouched.
Proof.
  split; try naive_solver. intros f s Hf [Hn Hm]. split; [done|]. cbn. by inversion Hf; subst.
Qed.

#[local] Instance off_completes : Completes off untouched.
Proof. by intros s []. Qed.

Lemma off_require_mesh cfg : K cfg -> hspec off untouched (fun _ => False) (require_mesh cfg).
Proof. intros HK. unfold require_mesh. rewrite HK. by intros s []. Qed.

Lemma off_invitation_config : hspec_from off untouched logged_in (fun _ => False) invitation_config.
Proof.
  eapply hspec_from_bind; [apply spec_login|]. intros [] _.
  eapply hspec_bind; [by apply spec_registration|]. intros [] _.
  eapply hspec_bind; [apply spec_load_config|]. intros cfg HK.
  eapply hspec_bind; [by apply off_require_mesh|]. done.
Qed.

(** The handlers that load the configuration first, and the connect. *)
Ltac stops :=
  eapply answers_from_bind; [apply spec_login|]; intros [] _;
  try (eapply answers_bind; [by apply spec_registration|]; intros [] _);
  eapply answers_bind; [apply spec_load_config|]; intros ??;
  eapply answers_bind; [by apply off_require_mesh|]; done.

Lemma off_connect id : answers_from off untouched logged_in (connect id).
Proof. stops. Qed.

Lemma off_Connect id : answers_from off untouched logged_in (Connect id).
Proof.
  intros s Hs Hl. unfold handle, Connect. destruct (sv_connecting s); [by destruct Hs|].
  pose proof (off_connect id (s <| sv_connecting := true |>) Hs Hl) as Hr.
  unfold handle in Hr. by destruct (connect id _) as [[r|r] s'].
Qed.

Lemma off_Disable : answers off untouched DisableMeshnet.
Proof.
  unfold DisableMeshnet. eapply answers_bind; [apply spec_load_config|]. intros cfg HK.
  rewrite HK. by intros s [].
Qed.

Lemma off_serves o : unchecked o = false -> answers_from off untouched logged_in (serve o).
Proof.
  intros Ho. destruct o; try discriminate Ho; cbn [serve];
    try solve [ apply serves_IsEnabled | apply serves_RemovePeer | apply serves_PrivateKey
              | apply serves_EnableAutomatic | apply serves_DisableAutomatic
              | apply serves_Notify | apply off_Connect
              | apply answers_from_weaken, off_Disable
              | eapply answers_from_bind; [apply off_invitation_config|done]
              | stops ].
Qed.
End MeshOff.

Lemma mesh_off_untouched {Nt E} `{MeshNetworker Nt} `{MeshApi E} (s : Server Nt E) o :
  cfg_Mesh (sv_cfg s) = false -> unchecked o = false ->
  sv_netw (handle (serve o) s).2 = sv_netw s.
Proof.
  intros Hm Ho. destruct ((ac_IsLoggedIn (sv_env s)).1) eqn:Hl.
  { by apply (off_serves (sv_netw s) o Ho s). }
  destruct (needs_login o s) eqn:Hn; [by rewrite serve_logged_out|].
  destruct o; try done.
  - by apply (off_Disable (sv_netw s) s).
  - cbn in Hn. apply negb_false_iff in Hn. cbn [serve]. unfold handle, Connect. by rewrite Hn.
Qed.
