(* ===== verification/MeshnetProps.v ===== *)
(** * MeshnetProps: the properties of the meshnet service

    The permissions registry and its laws, a concrete environment for the
    service, and the properties proved from the contracts of MeshnetSafety. *)

From stdpp Require Import base option list strings gmap.
From Stdlib Require Import ZArith Lia.
From S2P Require Import Prelude GoLib Api Mesh Config Firewall Networker NetworkerSafety.
From S2P Require Import MeshnetServer MeshnetPeers MeshnetSafety.
Set Warnings "-clear-no-such-hyp".

Open Scope Z_scope.
Open Scope go_scope.

(** ** Permissions *)

Inductive Permission : Type := Incoming | Routing | LocalNetwork | Fileshare | AutomaticFileshare.

Definition allowed (p : Permission) (peer : MachinePeer) : bool :=
  match p with
  | Incoming => p_DoIAllowInbound peer
  | Routing => p_DoIAllowRouting peer
  | LocalNetwork => p_DoIAllowLocalNetwork peer
  | Fileshare => p_DoIAllowFileshare peer
  | AutomaticFileshare => p_AlwaysAcceptFiles peer
  end.

Definition set_allowed (p : Permission) (v : bool) (peer : MachinePeer) : MachinePeer :=
  match p with
  | Incoming => peer <| p_DoIAllowInbound := v |>
  | Routing => peer <| p_DoIAllowRouting := v |>
  | LocalNetwork => peer <| p_DoIAllowLocalNetwork := v |>
  | Fileshare => peer <| p_DoIAllowFileshare := v |>
  | AutomaticFileshare => peer <| p_AlwaysAcceptFiles := v |>
  end.

(** The request that gives or takes a permission. *)
Definition permit (p : Permission) (v : bool) (id : string) : MeshOp :=
  match p, v with
  | Incoming, true => MeshAllowIncoming id
  | Incoming, false => MeshDenyIncoming id
  | Routing, true => MeshAllowRouting id
  | Routing, false => MeshDenyRouting id
  | LocalNetwork, true => MeshAllowLocalNetwork id
  | LocalNetwork, false => MeshDenyLocalNetwork id
  | Fileshare, true => MeshAllowFileshare id
  | Fileshare, false => MeshDenyFileshare id
  | AutomaticFileshare, true => MeshEnableAutomatic id
  | AutomaticFileshare, false => MeshDisableAutomatic id
  end.

(** ** The registry

    What the API keeps of the peers, and what [Configure] writes into it. *)

Definition configured (req : PeerUpdateRequest) (peer : MachinePeer) : MachinePeer :=
  peer <| p_DoIAllowInbound := pu_DoIAllowInbound req |>
       <| p_DoIAllowRouting := pu_DoIAllowRouting req |>
       <| p_DoIAllowLocalNetwork := pu_DoIAllowLocalNetwork req |>
       <| p_DoIAllowFileshare := pu_DoIAllowFileshare req |>
       <| p_AlwaysAcceptFiles := pu_AlwaysAcceptFiles req |>
       <| p_Nickname := pu_Nickname req |>.

Definition configure (id : string) (req : PeerUpdateRequest) (peers : list MachinePeer) :
    list MachinePeer :=
  map (fun p => if has_id id p then configured req p else p) peers.

Class Registry (E : Type) `{MeshApi E} (peers_of : E -> list MachinePeer) : Prop := {
  rg_login e : peers_of (ac_IsLoggedIn e).2 = peers_of e;
  rg_Load e : peers_of (cm_Load e).2 = peers_of e;
  rg_SaveWith e : peers_of (cm_SaveWith e).2 = peers_of e;
  rg_List token id e : peers_of (reg_List token id e).2 = peers_of e;
  rg_listed token id e ps : (reg_List token id e).1 = Ok ps -> ps = peers_of e;
  rg_Configure token id peer req e :
    (reg_Configure token id peer req e).1 = Ok tt ->
    peers_of (reg_Configure token id peer req e).2 = configure peer req (peers_of e);
  rg_Configure_failed token id peer req e err :
    (reg_Configure token id peer req e).1 = Err err ->
    peers_of (reg_Configure token id peer req e).2 = peers_of e
}.

(** A configured peer has the requested flag, and is otherwise as it was. *)
Lemma configured_set p v peer : configured (NewPeerUpdateRequest (set_allowed p v peer)) peer = set_allowed p v peer.
Proof. by destruct p, peer. Qed.

Lemma set_allowed_id p v peer : p_ID (set_allowed p v peer) = p_ID peer.
Proof. by destruct p. Qed.

(** With unique identifiers one entry of the registry changes. *)
Lemma configure_insert req (peers : list MachinePeer) i peer :
  NoDup (p_ID <$> peers) -> peers !! i = Some peer ->
  configure (p_ID peer) req peers = <[i := configured req peer]> peers.
Proof.
  revert i. induction peers as [|q peers IH]; intros i Hnd Hi; [done|].
  cbn in Hnd. apply NoDup_cons in Hnd as [Hq Hnd].
  unfold configure in *. cbn [map]. destruct i as [|i]; cbn in Hi.
  - injection Hi as ->. unfold has_id at 1. rewrite bool_decide_eq_true_2 by done.
    change (<[0%nat := ?q]> (_ :: ?l)) with (q :: l). f_equal.
    rewrite <- (map_id peers) at 2. apply map_ext_in. intros p Hp. unfold has_id.
    rewrite bool_decide_eq_false_2; [done|]. intros Heq. apply Hq. rewrite <- Heq.
    apply list_elem_of_fmap_2, list_elem_of_In, Hp.
  - change (<[S i := ?q]> (?x :: ?l)) with (x :: <[i := q]> l). rewrite (IH i) by done. f_equal.
    unfold has_id. rewrite bool_decide_eq_false_2; [done|].
    intros Heq. apply Hq. rewrite Heq. apply list_elem_of_fmap_2. by eapply list_elem_of_lookup_2.
Qed.

Section Permissions.
Context {Nt E : Type} `{MeshNetworker Nt} `{MeshApi E}.
Context {peers_of : E -> list MachinePeer} `{HR : !Registry E peers_of}.
Context (ps : list MachinePeer).
Implicit Types s : Server Nt E.

Definition registered s : Prop :=
  peers_of (sv_env s) = ps /\ isRegistrationInfoCorrect (sv_cfg s) = true.

(** The responses sent after the API accepted the update. *)
Definition accepted (r : Response) : bool :=
  match r with EmptyResponse | MeshnetError LIB_FAILURE => true | _ => false end.

Definition refused (r : Response) s : Prop := accepted r = false /\ peers_of (sv_env s) = ps.

Lemma registered_env {A} (m : M E A) :
  (forall e, peers_of (m e).2 = peers_of e) -> preserves registered (on_env m).
Proof.
  intros Hm s [Hp Hc]. unfold on_env, zoom, registered. specialize (Hm (sv_env s)).
  destruct (m (sv_env s)). cbn in *. by rewrite Hm.
Qed.

Lemma registered_Load : preserves registered Load.
Proof.
  apply preserves_bind; [apply registered_env, rg_Load|]. intros _. apply preserves_gets.
Qed.

Lemma registered_login : preserves registered (env_pure ac_IsLoggedIn).
Proof.
  intros s [Hp Hc]. unfold env_pure, registered. pose proof (rg_login (sv_env s)) as Hl.
  destruct (ac_IsLoggedIn (sv_env s)). cbn in *. by rewrite Hl.
Qed.

Lemma registered_Logout user : preserves registered (SaveWith (Logout user)).
Proof.
  apply preserves_bind; [apply registered_env, rg_SaveWith|]. intros _. by apply preserves_modify.
Qed.

Lemma registered_IsRegistrationInfoCorrect : preserves registered IsRegistrationInfoCorrect.
Proof.
  apply preserves_bind; [|intros; apply preserves_ret]. apply preserves_attempt.
  intros s Hs. unfold bind at 1. pose proof (registered_Load s Hs) as Hs'.
  destruct (Load s) as [[cfg|e] s'] eqn:HL; [|done].
  assert (cfg = sv_cfg s') as ->.
  { unfold Load, bind, gets in HL. destruct (on_env cm_Load s) as [[]]; [|done]. by injection HL as <- <-. }
  cbn in Hs'. by rewrite (proj2 Hs').
Qed.

Lemma reg_reply {A} (Q : A -> Prop) r :
  accepted r = false -> hspec registered refused Q (reply r).
Proof. by intros ? s []. Qed.

Lemma reg_login : hspec registered refused (fun _ => True) require_login.
Proof.
  unfold require_login. eapply hspec_bind; [apply hspec_call, registered_login|].
  intros [[]|] _; [by apply hspec_ret|by apply reg_reply..].
Qed.

Lemma reg_registration : hspec registered refused (fun _ => True) (require_registration (MeshnetError NOT_REGISTERED)).
Proof.
  unfold require_registration.
  eapply hspec_bind; [apply hspec_call, registered_IsRegistrationInfoCorrect|].
  intros [[]|] _; [by apply hspec_ret|by apply reg_reply..].
Qed.

Lemma reg_load : hspec registered refused (fun _ => True) load_config.
Proof.
  unfold load_config. eapply hspec_bind; [apply hspec_call, registered_Load|].
  intros [] _; [by apply hspec_ret|by apply reg_reply].
Qed.

Lemma reg_failure_or_disabled {A} (Q : A -> Prop) e :
  hspec registered refused Q (failure_or_disabled e).
Proof.
  unfold failure_or_disabled, isMeshOn.
  eapply hspec_bind; [eapply hspec_bind; [apply hspec_call, registered_Load|intros; by apply (hspec_ret _ _ (fun _ => True))]|].
  intros [] _; by apply reg_reply.
Qed.

Lemma reg_api_failure {A} (Q : A -> Prop) e : hspec registered refused Q (api_failure e).
Proof. by apply reg_reply. Qed.

Lemma reg_list cfg failed :
  (forall e, hspec registered refused (fun l => l = ps) (failed e)) ->
  hspec registered refused (fun l => l = ps)
    (api_call cfg (reg_List (current_token cfg) (device_id cfg)) failed).
Proof.
  intros Hf s Hs. unfold api_call, hbind at 1, call at 1, on_env, zoom.
  pose proof (registered_env (reg_List (current_token cfg) (device_id cfg)) (rg_List _ _) s Hs) as Hs'.
  pose proof (rg_listed (current_token cfg) (device_id cfg) (sv_env s)) as Hl.
  unfold on_env, zoom in Hs'. destruct (reg_List _ _ (sv_env s)) as [[l|e] e']; cbn in *.
  - split; [|done]. rewrite <- (proj1 Hs). by apply Hl.
  - destruct (errors_Is e ErrUnauthorized); [|by apply Hf].
    revert Hs'. generalize (s <| sv_env := e' |>). intros s' Hs'.
    eapply (hspec_bind registered refused (fun _ => True) (fun l : list MachinePeer => l = ps)); [| |exact Hs'].
    + apply hspec_call, registered_Logout.
    + intros [] _; by apply reg_reply.
Qed.

Lemma reg_find id :
  hspec registered refused (fun f => ps !! f.1 = Some f.2 /\ p_ID f.2 = id)
    (find_index (has_id id) ps).
Proof.
  unfold find_index. destruct (index_func (has_id id) ps) as [i|] eqn:Hi; [|by apply reg_reply].
  apply index_func_Some in Hi as (p & Hp & Hid). rewrite Hp. apply hspec_ret.
  split; [done|]. by apply bool_decide_eq_true in Hid.
Qed.

(** What a request to set permission [p] of peer [id] to [v] does to the
    registry: nothing, or the one flag of the one peer. *)
Definition outcome (p : Permission) (v : bool) (id : string) (r : Response) (s : Server Nt E) : Prop :=
  if accepted r then
    exists i peer, ps !! i = Some peer /\ p_ID peer = id /\ allowed p peer = negb v /\
      peers_of (sv_env s) = <[i := set_allowed p v peer]> ps
  else peers_of (sv_env s) = ps.

Lemma refused_outcome p v id r s : refused r s -> outcome p v id r s.
Proof. unfold outcome. by intros [-> Hp]. Qed.

(** The networker's part leaves the environment alone and only fails with
    [LIB_FAILURE]. *)
Definition networker_part (netw : H (Server Nt E) unit) : Prop :=
  forall s, sv_env (netw s).2 = sv_env s /\
            match (netw s).1 with inr _ => True | inl r => accepted r = true end.

Lemma netw_if_online peer m : networker_part (if_online peer m).
Proof.
  intros s. unfold if_online, or_reply, hbind, call, on_netw, zoom. case_match; [|done].
  by destruct (m _ (sv_netw s)) as [[]].
Qed.

Lemma netw_reset peers i peer : networker_part (reset_routing peers i peer).
Proof.
  intros s. unfold reset_routing, or_reply, hbind, call, on_netw, zoom.
  by destruct (netw_ResetRouting _ _ (sv_netw s)) as [[]].
Qed.

Lemma netw_none : networker_part (hret tt).
Proof. done. Qed.

Lemma change_outcome p v cfg i peer already code netw :
  NoDup (p_ID <$> ps) -> ps !! i = Some peer -> already = Bool.eqb (allowed p peer) v ->
  networker_part netw -> forall s, registered s ->
  outcome p v (p_ID peer) (handle (change_permission cfg already code (set_allowed p v peer) netw) s).1
    (handle (change_permission cfg already code (set_allowed p v peer) netw) s).2.
Proof.
  intros Hnd Hi -> Hn s [Hs _]. unfold change_permission, handle.
  destruct (Bool.eqb (allowed p peer) v) eqn:Ha; [done|].
  assert (allowed p peer = negb v) as Hav by (by destruct (allowed p peer), v).
  unfold or_reply, updatePeerPermissions, on_env, zoom, hbind, call, hret, reply. cbv beta iota.
  rewrite set_allowed_id. destruct (reg_Configure _ _ _ _ (sv_env s)) as [[[]|e] e'] eqn:HC.
  - pose proof (rg_Configure (current_token cfg) (device_id cfg) (p_ID peer)
      (NewPeerUpdateRequest (set_allowed p v peer)) (sv_env s)) as Hp.
    rewrite HC in Hp. specialize (Hp eq_refl). cbn [snd] in Hp.
    rewrite Hs, (configure_insert _ _ i), configured_set in Hp by done.
    cbv beta iota zeta. destruct (Hn (s <| sv_env := e' |>)) as [He Hr].
    destruct (netw (s <| sv_env := e' |>)) as [[r|[]] s']; cbn [fst snd] in He, Hr |- *;
      unfold outcome; [rewrite Hr|cbn [accepted]]; exists i, peer; by rewrite He.
  - pose proof (rg_Configure_failed (current_token cfg) (device_id cfg) (p_ID peer)
      (NewPeerUpdateRequest (set_allowed p v peer)) (sv_env s) e) as Hp.
    rewrite HC in Hp. specialize (Hp eq_refl). cbn in Hp |- *. by rewrite Hp.
Qed.

Lemma with_peer_outcome p v id failed k :
  (forall e, hspec registered refused (fun l => l = ps) (failed e)) ->
  (forall cfg i peer s, ps !! i = Some peer -> p_ID peer = id -> registered s ->
     outcome p v id (handle (k cfg ps i peer) s).1 (handle (k cfg ps i peer) s).2) ->
  forall s, registered s ->
  outcome p v id (handle (with_peer id failed k) s).1 (handle (with_peer id failed k) s).2.
Proof.
  intros Hf Hk.
  assert (forall {A} (Q : A -> Prop) (m : H (Server Nt E) A) (c : A -> H (Server Nt E) Response),
    hspec registered refused Q m -> (forall a, Q a -> answers registered (outcome p v id) (c a)) ->
    answers registered (outcome p v id) (hbind m c)) as Hbind.
  { intros A Q m c Hm Hc. apply answers_bind with Q; [|done].
    intros s Hs. specialize (Hm s Hs). destruct (m s) as [[]]; [by apply refused_outcome|done]. }
  unfold with_peer. eapply Hbind; [apply reg_login|]. intros _ _.
  eapply Hbind; [apply reg_registration|]. intros _ _.
  eapply Hbind; [apply reg_load|]. intros cfg _.
  eapply Hbind; [by apply reg_list|]. intros ? ->.
  eapply Hbind; [apply reg_find|]. intros [i peer] [Hi Hid] s Hs. by apply Hk.
Qed.

Lemma permit_outcome p v id s : NoDup (p_ID <$> ps) -> registered s ->
  outcome p v id (handle (serve (permit p v id)) s).1 (handle (serve (permit p v id)) s).2.
Proof.
  intros Hnd. revert s.
  destruct p, v; cbn [permit serve]; apply with_peer_outcome;
    try (intros; solve [apply reg_failure_or_disabled | apply reg_api_failure]);
    intros cfg i peer s Hi <- Hs; cbv zeta.
  all: match goal with
       | |- context [change_permission _ _ _ (set_field p_DoIAllowInbound ?b _) _] =>
           apply (change_outcome Incoming b cfg i)
       | |- context [change_permission _ _ _ (set_field p_DoIAllowRouting ?b _) _] =>
           apply (change_outcome Routing b cfg i)
       | |- context [change_permission _ _ _ (set_field p_DoIAllowLocalNetwork ?b _) _] =>
           apply (change_outcome LocalNetwork b cfg i)
       | |- context [change_permission _ _ _ (set_field p_DoIAllowFileshare ?b _) _] =>
           apply (change_outcome Fileshare b cfg i)
       | |- context [change_permission _ _ _ (set_field p_AlwaysAcceptFiles ?b _) _] =>
           apply (change_outcome AutomaticFileshare b cfg i)
       end; auto using netw_if_online, netw_reset, netw_none; unfold allowed;
       match goal with |- context [Bool.eqb ?x _] => by destruct x end.
Qed.
End Permissions.

(** ** Connecting *)

Section Connecting.
Context {Nt E : Type} `{MeshNetworker Nt} `{MeshApi E}.
Context (n : Nt) (c : Config) (id : string).

(** A request that did not reach the networker yet. *)
#[local] Abbreviation waiting := (fun s : Server Nt E => sv_netw s = n /\ same_settings false c (sv_cfg s)).

(** The networker [n'] is connected to a peer that may be used as exit node. *)
Definition connected_to (n' : Nt) (hostname : string) : Prop :=
  exists key peer nameservers,
    p_ID peer = id /\ p_DoesPeerAllowRouting peer = true /\ addr_IsValid (p_Address peer) = true /\
    hostname = p_Hostname peer /\
    netw_Start (mkCredentials "" "" key) (peer_server peer) (ac_Allowlist (cfg_AutoConnectData c))
      nameservers (negb (p_DoesPeerAllowLocalNetwork peer)) n = (Ok tt, n').

Definition only_when_connected (r : Response) (s : Server Nt E) : Prop :=
  r = EmptyResponse ->
  cfg_Mesh c = true /\ cfg_Technology c = NORDLYNX /\ connected_to (sv_netw s) (sv_lastConnectedPeer s).

#[local] Instance waiting_contract : Contract false waiting (same_settings false c) only_when_connected.
Proof.
  unfold only_when_connected. split; try naive_solver.
  intros f s Hf [? ?]. split; [done|]. cbn. by apply same_settings_saved.
Qed.

(** The peer was found. *)
Lemma found_peer (peers : list MachinePeer) :
  hspec waiting only_when_connected (fun f => p_ID f.2 = id) (find_index (has_id id) peers).
Proof.
  unfold find_index. destruct (index_func (has_id id) peers) as [i|] eqn:Hi.
  2: { apply hspec_reply. intros s Hs. by apply sends. }
  apply index_func_Some in Hi as (p & -> & Hp). apply hspec_ret. by apply bool_decide_eq_true in Hp.
Qed.

Lemma starts cfg peer nameservers :
  same_settings false c cfg -> cfg_Mesh cfg = true -> cfg_Technology cfg = NORDLYNX ->
  p_ID peer = id -> p_DoesPeerAllowRouting peer = true -> addr_IsValid (p_Address peer) = true ->
  answers waiting only_when_connected
    (let? r := call (on_netw (netw_Start (mkCredentials "" "" (cfg_MeshPrivateKey cfg))
                               (peer_server peer) (ac_Allowlist (cfg_AutoConnectData cfg)) nameservers
                               (negb (p_DoesPeerAllowLocalNetwork peer)))) in
     match r with
     | Err e => reply (ConnectError (connect_error e))
     | Ok _ =>
         hmodify (fun s => s <| sv_lastConnectedPeer := p_Hostname peer |>) ;;?
         hret EmptyResponse
     end).
Proof.
  intros Hc Hm Ht Hid Hr Ha s [Hn _]. unfold handle, hbind, call, on_netw, zoom.
  pose proof (ss_Technology _ _ _ Hc) as Ht'. pose proof (ss_AutoConnect _ _ _ Hc) as Hac.
  destruct Hc as [_ _ Hm']. destruct (Hm' eq_refl) as [Hm0 _]. rewrite Hn, Hac.
  destruct (netw_Start _ _ _ _ _ n) as [[[]|e] n'] eqn:HS; cbn; intros Hresp; [|done].
  split; [congruence|]. split; [congruence|]. by exists (cfg_MeshPrivateKey cfg), peer, nameservers.
Qed.

Lemma connect_starts : answers_from waiting only_when_connected logged_in (connect id).
Proof.
  unfold connect. eapply answers_from_bind; [apply spec_login|]. intros [] _.
  eapply answers_bind; [by apply spec_registration|]. intros [] _.
  eapply answers_bind; [apply spec_load_config|]. intros cfg Hc.
  unfold require_mesh. destruct (cfg_Mesh cfg) eqn:Hm; [|by intros s Hs].
  eapply (answers_bind _ _ (fun _ => True)); [by apply hspec_ret|]. intros [] _.
  case_bool_decide as Ht; cbn [negb]; [|by intros s Hs].
  eapply answers_bind; [apply spec_api_call; [done|apply spec_failure_or_disabled]|]. intros peers _.
  eapply answers_bind; [apply found_peer|]. intros [i peer] Hid. cbn [snd] in *.
  destruct (p_DoesPeerAllowRouting peer) eqn:Hr; [|by intros s Hs]. cbn [negb].
  destruct (addr_IsValid (p_Address peer)) eqn:Ha; [|by intros s Hs]. cbn [negb].
  eapply (answers_bind _ _ (fun _ => True)); [case_match; [by apply hspec_ret|apply hspec_gets]|].
  intros ns _. by apply starts.
Qed.
End Connecting.

(** ** A concrete environment

    A registry of peers and the outcomes scheduled for calls, by name: each
    entry is used up by the first call of that name, which succeeds ([None]) or
    fails; a call without an entry succeeds. *)

Record ApiSim : Type := mkApiSim {
  as_loggedIn : bool;
  as_schedule : list (string * option error);
  as_machine : Machine;
  as_peers : list MachinePeer
}.
#[export] Instance ApiSim_eta : EtaExpand ApiSim := fun s =>
  mkApiSim (as_loggedIn s) (as_schedule s) (as_machine s) (as_peers s).

Definition api_do {B} (name : string) (f : ApiSim -> ApiSim) (v : ApiSim -> B) : M ApiSim B := fun s =>
  match list_find (fun x => x.1 = name) (as_schedule s) with
  | Some (i, (_, o)) =>
      let s := s <| as_schedule := delete i (as_schedule s) |> in
      match o with
      | Some e => (Err e, s)
      | None => (Ok (v s), f s)
      end
  | None => (Ok (v s), f s)
  end.

Definition api_unit (name : string) : M ApiSim unit := api_do name id (fun _ => tt).

#[export] Instance ApiSim_api : MeshApi ApiSim := {|
  ac_IsLoggedIn s := (as_loggedIn s, s);
  cm_Load := api_unit "Load";
  cm_SaveWith := api_unit "SaveWith";
  gen_Private s := ("private", s);
  gen_Public k := k +:+ ".pub";
  distro_ReleaseName := api_do "ReleaseName" id (fun _ => "Debian");
  reg_Register _ m := api_do "Register" id (fun s => as_machine s);
  reg_Update _ _ _ := api_unit "Update";
  reg_Configure _ _ id req :=
    api_do "Configure" (fun s => s <| as_peers := configure id req (as_peers s) |>) (fun _ => tt);
  reg_Unregister _ id :=
    api_do "Unregister" (fun s => s <| as_peers := filter (fun p => p_ID p <> id) (as_peers s) |>) (fun _ => tt);
  reg_Unpair _ _ id :=
    api_do "Unpair" (fun s => s <| as_peers := filter (fun p => p_ID p <> id) (as_peers s) |>) (fun _ => tt);
  reg_List _ _ := api_do "List" id as_peers;
  reg_Local _ := api_do "Local" id (fun s => [as_machine s]);
  reg_Map _ _ := api_do "Map" id (fun s => mkMachineMap (as_machine s) (as_peers s));
  reg_NotifyNewTransfer _ _ _ _ _ _ := api_unit "NotifyNewTransfer";
  inv_Invite _ _ _ := api_unit "Invite";
  inv_Received _ _ := api_do "Received" id (fun _ => [mkInvitation "i1" "a@b.c" "linux" true false false]);
  inv_Sent _ _ := api_do "Sent" id (fun _ => []);
  inv_Accept _ _ _ _ := api_unit "Accept";
  inv_Reject _ _ _ := api_unit "Reject";
  inv_Revoke _ _ _ := api_unit "Revoke";
  dns_LookupIP _ := api_do "LookupIP" id (fun _ => 0%nat);
  ns_Get _ _ _ := ["103.86.96.100"];
  norduser_StartFileshare _ := api_unit "StartFileshare";
  norduser_StopFileshare _ := api_unit "StopFileshare"
|}.

Lemma api_do_frame {B} name f (v : ApiSim -> B) s :
  (forall s', as_peers (f s') = as_peers s') -> as_peers (api_do name f v s).2 = as_peers s.
Proof. intros Hf. unfold api_do. destruct (list_find _ _) as [[? [? []]]|]; cbn; by rewrite ?Hf. Qed.

Ltac solve_api :=
  intros; cbn in *; unfold api_do in *; destruct (list_find _ _) as [[? [? []]]|]; cbn in *;
  solve [done | congruence].

#[export] Instance ApiSim_registry : Registry ApiSim as_peers.
Proof. split; try (intros; by apply api_do_frame); solve [done | solve_api]. Qed.

(** A registered machine with two peers; the account has a token. *)
Definition this_machine : Machine :=
  mkMachine "m0" "hw" "me.nord" (mkOS "linux" "Debian") "private.pub" [] (AddrV4 (v4 100 64 0 1)) true "".

Definition sample_peer (id : string) (ip : Z) : MachinePeer :=
  zero_peer <| p_ID := id |> <| p_Hostname := id +:+ ".nord" |> <| p_PublicKey := id +:+ "Key" |>
    <| p_Address := AddrV4 ip |> <| p_DoesPeerAllowRouting := true |>.

Definition sample_peers : list MachinePeer :=
  [sample_peer "p1" (v4 100 64 0 2); sample_peer "p2" (v4 100 64 0 3)].

Definition sample_token : TokenData :=
  mkTokenData "token" "" "" false "" "" "" "" "" "" (mkNCData "" "" "" "").

Definition sample_config (mesh : bool) : Config :=
  (newConfig "hw") <| cfg_Mesh := mesh |> <| cfg_MeshPrivateKey := "private" |>
    <| cfg_MeshDevice := Some this_machine |>
    <| cfg_AutoConnectData := (cfg_AutoConnectData (newConfig "hw")) <| ac_ID := 7 |> |>
    <| cfg_TokensData := {[7 := sample_token]} |>.

Definition sample_env (logged : bool) (schedule : list (string * option error)) : ApiSim :=
  mkApiSim logged schedule this_machine sample_peers.

Definition sample_service (n : Combined Sim ListAgent) (mesh logged : bool) (schedule : list (string * option error)) :
    Server (Combined Sim ListAgent) ApiSim :=
  NewServer (sample_config mesh) n (sample_env logged schedule).

(** ** Names of peers *)

Lemma lower_ascii_idem c : lower_ascii (lower_ascii c) = lower_ascii c.
Proof. by destruct c as [[] [] [] [] [] [] [] []]. Qed.

Lemma str_lower_idem s : str_lower (str_lower s) = str_lower s.
Proof. induction s as [|c s IH]; cbn; [done|]. by rewrite lower_ascii_idem, IH. Qed.

Lemma equal_fold_lower a b : equal_fold a (str_lower b) = equal_fold a b.
Proof. unfold equal_fold. by rewrite str_lower_idem. Qed.

Lemma add_names_lookup (m : gmap string PbPeer) p l n :
  foldl (fun m name => <[name := p]> m) m l !! n = if bool_decide (n ∈ l) then Some p else m !! n.
Proof.
  revert m. induction l as [|x l IH]; intros m; [done|]. cbn. rewrite IH.
  destruct (decide (x = n)) as [->|Hne].
  - rewrite lookup_insert_eq. rewrite (bool_decide_eq_true_2 (n ∈ n :: l)) by set_solver.
    by case_bool_decide.
  - rewrite lookup_insert_ne by done.
    by rewrite (bool_decide_ext (n ∈ x :: l) (n ∈ l)) by set_solver.
Qed.

(** A fold that overwrites keeps the last element with the key. *)
Lemma foldl_last {T} (P : T -> Prop) `{!forall x, Decision (P x)}
    (step : gmap string T -> T -> gmap string T) l n :
  (forall m x, step m x !! n = if bool_decide (P x) then Some x else m !! n) ->
  foldl step ∅ l !! n = last (filter P l).
Proof.
  intros Hstep. induction l as [|x l IH] using rev_ind; [done|].
  rewrite foldl_app, filter_app, filter_cons, filter_nil. cbn. rewrite Hstep.
  destruct (decide (P x)); [rewrite bool_decide_eq_true_2 by done; by rewrite last_snoc|].
  rewrite bool_decide_eq_false_2 by done. by rewrite app_nil_r.
Qed.

Lemma MakePeerMaps_split peers :
  MakePeerMaps peers =
    (foldl (fun m p => <[pb_Pubkey p := p]> m) ∅ (pl_External peers ++ pl_Local peers),
     foldl add_peer_names ∅ (pl_External peers ++ pl_Local peers)).
Proof.
  unfold MakePeerMaps. generalize (pl_External peers ++ pl_Local peers) as l.
  assert (forall l (a b : gmap string PbPeer),
    foldl (fun '(byKey, byName) peer => (<[pb_Pubkey peer := peer]> byKey, add_peer_names byName peer)) (a, b) l
    = (foldl (fun m p => <[pb_Pubkey p := p]> m) a l, foldl add_peer_names b l)) as Hl; [|by intros].
  induction l as [|p l IH]; intros a b; [done|]. cbn. apply IH.
Qed.

(** ** Properties *)

(** The two maps answer with the last peer of the list (external peers first,
    then the account's own) that has the public key, respectively the address or
    one of the names, asked for: every peer is found under its key and names
    unless a later one has the same, and nothing else is found. *)
Theorem peer_maps_lookup (peers : PeerList) (k n : string) :
  let all := pl_External peers ++ pl_Local peers in
  (MakePeerMaps peers).1 !! k = last (filter (fun p => pb_Pubkey p = k) all) /\
  (MakePeerMaps peers).2 !! n = last (filter (fun p => n ∈ peer_names p) all).
Proof.
  rewrite MakePeerMaps_split. cbn [fst snd]. split.
  - apply foldl_last. intros m p. cbn.
    case_bool_decide; subst; [apply lookup_insert_eq|by apply lookup_insert_ne].
  - apply foldl_last. intros m p. apply add_names_lookup.
Qed.

(** A peer cannot be addressed by its public key when the key has an upper
    case letter, as almost every base64 key has: the identifier is lower-cased
    before it is compared with the key. *)
Theorem peer_not_found_by_key (p : MachinePeer) :
  let key := p_PublicKey p in
  str_lower key <> key -> p_ID p <> str_lower key ->
  equal_fold (p_Hostname p) key = false -> equal_fold (p_Nickname p) key = false ->
  getPeerWithIdentifier key [p] = None.
Proof.
  intros key Hkey Hid Hh Hn. unfold getPeerWithIdentifier. case_bool_decide; [done|]. cbn.
  rewrite !equal_fold_lower, Hh, Hn, !bool_decide_eq_false_2 by (done || by apply not_eq_sym).
  done.
Qed.

Lemma peer_not_found_by_key_witness :
  p_PublicKey (sample_peer "p1" 0) = "p1Key" /\
  getPeerWithIdentifier "p1Key" [sample_peer "p1" 0] = None.
Proof.
  split; [reflexivity|]. apply (peer_not_found_by_key (sample_peer "p1" 0)); vm_compute; done.
Defined.

(** A request of an account that is not logged in is answered with
    [NOT_LOGGED_IN] and changes neither the configuration nor the networker nor
    the registry: only the login check itself runs.  Exempt are [DisableMeshnet],
    which does not ask, and a connect that finds another one running. *)
Theorem logged_out_requests_rejected {Nt E} `{MeshNetworker Nt} `{MeshApi E}
    (s : Server Nt E) (o : MeshOp) :
  (ac_IsLoggedIn (sv_env s)).1 = false -> needs_login o s = true ->
  handle (serve o) s = (ServiceError NOT_LOGGED_IN, s <| sv_env := (ac_IsLoggedIn (sv_env s)).2 |>).
Proof. apply serve_logged_out. Qed.

Lemma logged_out_requests_rejected_witness :
  let s := sample_service armed_networker true false [] in
  handle (serve (MeshConnect "p1")) s =
    (ServiceError NOT_LOGGED_IN, s <| sv_env := (ac_IsLoggedIn (sv_env s)).2 |>).
Proof. intros s. exact (logged_out_requests_rejected s (MeshConnect "p1") eq_refl eq_refl). Defined.

(** C29: whatever a request to the meshnet service does and however it ends, the only
    settings it can change are the meshnet's own (on or off, key, device, who turned it on) and
    the accounts' tokens; it gives no account a token, and only the requests that
    turn the meshnet on and off change that setting and who turned it on. *)
Theorem requests_keep_settings {Nt E} `{MeshNetworker Nt} `{MeshApi E}
    (s : Server Nt E) (o : MeshOp) :
  let c := sv_cfg s in
  let c' := sv_cfg (handle (serve o) s).2 in
  with_mesh_fields c c' = c /\ cfg_TokensData c' ⊆ cfg_TokensData c /\
  (toggles o = false ->
     cfg_Mesh c' = cfg_Mesh c /\ cfg_EnabledByUID c' = cfg_EnabledByUID c /\
     cfg_EnabledByGID c' = cfg_EnabledByGID c).
Proof.
  destruct (serve_keeps (b := toggles o)
    (I := fun s' : Server Nt E => same_settings (toggles o) (sv_cfg s) (sv_cfg s')) o s)
    as [? ? ?]; [done|apply same_settings_refl|]. auto.
Qed.

(** A logged in account is told that it is not logged in only after its token
    was removed from the configuration. *)
Theorem not_logged_in_means_token_removed {Nt E} `{MeshNetworker Nt} `{MeshApi E}
    (s : Server Nt E) (o : MeshOp) :
  (ac_IsLoggedIn (sv_env s)).1 = true ->
  (handle (serve o) s).1 = ServiceError NOT_LOGGED_IN ->
  cfg_TokensData (sv_cfg (handle (serve o) s).2) !! user_id (sv_cfg s) = None.
Proof.
  intros Hl. exact (serves (b := true) (I := fun s' => user_id (sv_cfg s') = user_id (sv_cfg s))
    (K := fun cfg => user_id cfg = user_id (sv_cfg s)) o (fun _ => eq_refl) s eq_refl Hl).
Qed.

Definition unauthorized_service : Server (Combined Sim ListAgent) ApiSim :=
  sample_service armed_networker true true [("List", Some (Sentinel ErrUnauthorized))].

Lemma not_logged_in_means_token_removed_witness :
  cfg_TokensData (sv_cfg unauthorized_service) !! 7 = Some sample_token /\
  (handle (serve (MeshAllowRouting "p1")) unauthorized_service).1 = ServiceError NOT_LOGGED_IN /\
  cfg_TokensData (sv_cfg (handle (serve (MeshAllowRouting "p1")) unauthorized_service).2) !! 7 = None.
Proof.
  split; [reflexivity|]. split; [vm_compute; reflexivity|].
  apply (not_logged_in_means_token_removed unauthorized_service (MeshAllowRouting "p1"));
    vm_compute; reflexivity.
Defined.

(** While the meshnet is turned off, no request reaches the networker, except
    the one that turns it on and the eight permission requests that forget to
    check: the tunnel, the firewall and the routing stay exactly as they are. *)
Theorem mesh_off_keeps_networker {Nt E} `{MeshNetworker Nt} `{MeshApi E}
    (s : Server Nt E) (o : MeshOp) :
  cfg_Mesh (sv_cfg s) = false -> unchecked o = false ->
  sv_netw (handle (serve o) s).2 = sv_netw s.
Proof. apply mesh_off_untouched. Qed.

Lemma mesh_off_keeps_networker_witness :
  let s := sample_service armed_networker false true [] in
  (handle (serve (MeshConnect "p1")) s).1 = MeshnetError NOT_ENABLED /\
  sv_netw (handle (serve (MeshConnect "p1")) s).2 = sv_netw s.
Proof.
  intros s. split; [vm_compute; reflexivity|].
  exact (mesh_off_keeps_networker s (MeshConnect "p1") eq_refl eq_refl).
Defined.

(** With the meshnet turned off, allowing a peer's incoming traffic succeeds
    and installs firewall rules for the peer. *)
Theorem permission_opens_firewall_with_mesh_off :
  let s := sample_service (new_networker []) false true [] in
  let '(r, s') := handle (serve (MeshAllowIncoming "p1")) s in
  cfg_Mesh (sv_cfg s') = false /\ r = EmptyResponse /\
  map r_Name (la_installed (fw_working (nw_fw (sv_netw s')))) =
    ["p1Key-block-lan-rule-100.64.0.2"; "p1Key-allow-rule-100.64.0.2"].
Proof. vm_compute. repeat split. Qed.

(** When the configuration cannot be saved after the meshnet was set up,
    [EnableMeshnet] answers [CONFIG_FAILURE] and leaves the meshnet running; from
    then on turning it on fails with [LIB_FAILURE] and turning it off is refused
    because it is off. *)
Theorem failed_save_strands_meshnet :
  let enable := MeshEnable (mkUcred 1 1000 1000) in
  let s := sample_service (new_networker []) false true
             [("SaveWith", None); ("SaveWith", Some (Errorf "disk full"))] in
  let '(r, s1) := handle (serve enable) s in
  let '(r2, s2) := handle (serve enable) s1 in
  let '(r3, s3) := handle (serve MeshDisable) s2 in
  r = ServiceError CONFIG_FAILURE /\ nw_isMeshnetSet (sv_netw s1) = true /\
  r2 = MeshnetError LIB_FAILURE /\ r3 = MeshnetError ALREADY_DISABLED /\
  nw_isMeshnetSet (sv_netw s3) = true /\ cfg_Mesh (sv_cfg s3) = false.
Proof. vm_compute. repeat split. Qed.

(** C31: a permission request of a registered machine changes the registry in one
    way only.  When the answer is that it was done, or that the networker failed
    afterwards, the asked-for flag of the asked-for peer was the opposite and is now
    as asked, and every other flag of every peer is as before; with any other
    answer (already set, unknown peer, API failure, ...) the registry is
    unchanged. *)
Theorem permission_request_changes_one_flag {Nt E} `{MeshNetworker Nt} `{MeshApi E}
    {peers_of : E -> list MachinePeer} `{!Registry E peers_of}
    (s : Server Nt E) (p : Permission) (v : bool) (id : string) :
  let before := peers_of (sv_env s) in
  let '(r, s') := handle (serve (permit p v id)) s in
  isRegistrationInfoCorrect (sv_cfg s) = true -> NoDup (p_ID <$> before) ->
  if accepted r then
    exists i peer, before !! i = Some peer /\ p_ID peer = id /\ allowed p peer = negb v /\
      peers_of (sv_env s') = <[i := set_allowed p v peer]> before
  else peers_of (sv_env s') = before.
Proof.
  cbv zeta. destruct (handle (serve (permit p v id)) s) as [r s'] eqn:Hh. intros Hr Hnd.
  pose proof (permit_outcome (peers_of (sv_env s)) p v id s Hnd (conj eq_refl Hr)) as Ho.
  by rewrite Hh in Ho.
Qed.

Definition armed_service : Server (Combined Sim ListAgent) ApiSim :=
  sample_service armed_networker true true [].

Lemma permission_request_changes_one_flag_witness :
  (handle (serve (permit Incoming true "p2")) armed_service).1 = EmptyResponse /\
  exists i peer, sample_peers !! i = Some peer /\ p_ID peer = "p2" /\ allowed Incoming peer = false /\
    as_peers (sv_env (handle (serve (permit Incoming true "p2")) armed_service).2) =
      <[i := set_allowed Incoming true peer]> sample_peers.
Proof.
  pose proof (permission_request_changes_one_flag armed_service Incoming true "p2") as Hp.
  assert ((handle (serve (permit Incoming true "p2")) armed_service).1 = EmptyResponse) as Hr
    by (vm_compute; reflexivity).
  split; [exact Hr|].
  assert (NoDup (p_ID <$> sample_peers)) as Hnd by (apply (bool_decide_unpack _); vm_compute; exact I).
  destruct (handle (serve (permit Incoming true "p2")) armed_service) as [r s'].
  cbn [fst snd] in Hr |- *. rewrite Hr in Hp. apply (Hp eq_refl Hnd).
Defined.

(** A connect request that succeeds was made with the meshnet on and the
    NordLynx technology, by a machine that was not already connecting; the
    networker was started with the peer asked for, which allows routing and has
    an address, and is remembered as the peer connected to. *)
Theorem connect_success_means_started {Nt E} `{MeshNetworker Nt} `{MeshApi E}
    (s : Server Nt E) (id : string) :
  let '(r, s') := handle (Connect id) s in
  r = EmptyResponse ->
  sv_connecting s = false /\ sv_connecting s' = false /\
  cfg_Mesh (sv_cfg s) = true /\ cfg_Technology (sv_cfg s) = NORDLYNX /\
  connected_to (sv_netw s) (sv_cfg s) id (sv_netw s') (sv_lastConnectedPeer s').
Proof.
  unfold handle, Connect. destruct (sv_connecting s) eqn:Hc; [done|].
  set (s0 := s <| sv_connecting := true |>).
  destruct ((ac_IsLoggedIn (sv_env s)).1) eqn:Hl.
  2: { unfold connect. rewrite (hbind_replied _ _ _ _ _ (logged_out_reply s0 Hl)). done. }
  assert (same_settings false (sv_cfg s) (sv_cfg s0)) as Hset by apply same_settings_refl.
  pose proof (connect_starts (sv_netw s) (sv_cfg s) id s0 (conj eq_refl Hset) Hl) as Hk.
  unfold handle in Hk. destruct (connect id s0) as [[r|r] s1]; cbn in Hk |- *;
    intros ->; destruct (Hk eq_refl) as (? & ? & ?); done.
Qed.

Definition meshed_service : Server (Combined Sim ListAgent) ApiSim :=
  (handle (serve (MeshEnable (mkUcred 1 1000 1000))) (sample_service (new_networker []) false true [])).2.

Lemma connect_success_means_started_witness :
  (handle (Connect "p1") meshed_service).1 = EmptyResponse /\
  sv_lastConnectedPeer (handle (Connect "p1") meshed_service).2 = "p1.nord" /\
  connected_to (sv_netw meshed_service) (sv_cfg meshed_service) "p1"
    (sv_netw (handle (Connect "p1") meshed_service).2)
    (sv_lastConnectedPeer (handle (Connect "p1") meshed_service).2).
Proof.
  pose proof (connect_success_means_started meshed_service "p1") as Hc.
  assert ((handle (Connect "p1") meshed_service).1 = EmptyResponse) as Hr by (vm_compute; reflexivity).
  split; [exact Hr|]. split; [vm_compute; reflexivity|].
  destruct (handle (Connect "p1") meshed_service) as [r s']. apply (Hc Hr).
Defined.
