(* ===== verification/Exitnode.v ===== *)
(** * Exitnode: forwarding the traffic of meshnet peers

    Models [meshnet/exitnode]: [fw.go] (the [iptables] commands that filter and
    masquerade forwarded traffic), [allowlist.go] (forwarding to allowlisted
    destinations) and [server.go] (the exit node the networker drives).  Commands
    are built as the code builds them, as text split at spaces.  Running
    [iptables] is the parameter [run_iptables], which returns the output and the
    error; the order in which a Go map is ranged over comes from the same
    environment.  [net.ipv4.ip_forward] is set and unset through the interface
    [SysctlSetter] of file Kernel. *)

From stdpp Require Import base option list strings gmap.
From Stdlib Require Import ZArith Ascii Lia.
From S2P Require Import Prelude GoLib Kernel Mesh Config IPTables.
Set Warnings "-clear-no-such-hyp".

Open Scope Z_scope.
Open Scope go_scope.

Definition meshSrcSubnet : string := "100.64.0.0/10".
Definition msqRuleComment : string := "nordvpn".
Definition filterRuleComment : string := "nordvpn-exitnode-permanent".
Definition transientFilterRuleComment : string := "nordvpn-exitnode-transient".
Definition meshAllowlistRuleComment : string := "nordvpn-exitnode-allowlist".
Definition missingRuleMessage : string := "Bad rule (does a matching rule exist in that chain?)".

Class runCommandFunc (K : Type) : Type := {
  run_iptables : list string -> K -> (string * option error) * K;
  range_keys : gmap string bool -> K -> list string
}.

(** [strings.Split(s, " ")]. *)
Definition words (s : string) : list string := split_char " "%char s.

(** The subnets that are private. *)
Definition private_subnets : list Prefix :=
  [mkPrefix (AddrV4 (v4 10 0 0 0)) 8; mkPrefix (AddrV4 (v4 172 16 0 0)) 12;
   mkPrefix (AddrV4 (v4 192 168 0 0)) 16; mkPrefix (AddrV4 (v4 169 254 0 0)) 16].

Record TrafficPeer : Type := mkTrafficPeer {
  tp_IP : Prefix;
  tp_Routing : bool;
  tp_LocalNetwork : bool
}.

Definition bool_text (b : bool) : string := if b then "true" else "false".

(** [%v] of a [TrafficPeer]. *)
Definition peer_text (p : TrafficPeer) : string :=
  "{" +:+ prefix_String (tp_IP p) +:+ " " +:+ bool_text (tp_Routing p) +:+ " " +:+
  bool_text (tp_LocalNetwork p) +:+ "}".

(** ** [fw.go] *)

Section Commands.
Context {K : Type} `{runCommandFunc K}.

Definition command (args : list string) : M K (string * option error) := fun k =>
  let '(r, k') := run_iptables args k in (Ok r, k').

(** A command whose error is wrapped with its output. *)
Definition command_or (pre : string) (args : list string) : M K unit :=
  let! r := command args in
  match r.2 with
  | None => ret tt
  | Some e => throw (Wrapf pre e (": " +:+ r.1))
  end.

Definition enableMasquerading (peerAddress : string) : M K unit :=
  command_or "iptables adding masquerading rule: "
    (words ("-t nat -A POSTROUTING -s " +:+ peerAddress +:+ " ! -d " +:+ meshSrcSubnet +:+
            " -j MASQUERADE -m comment --comment " +:+ msqRuleComment)).

Definition clearMasquerading : M K unit :=
  let! r := command (words "-t nat -S POSTROUTING") in
  match r.2 with
  | Some e => throw (Wrapf "iptables listing rules: " e (": " +:+ r.1))
  | None =>
      forM_ (split_char newline r.1) (fun lineString =>
        if negb (str_contains lineString msqRuleComment) then ret tt
        else
          let args := words (strings_ReplaceAll lineString "-A" "-D") in
          let! d := command (["-t"; "nat"] ++ args) in
          match d.2 with
          | None => ret tt
          | Some e => throw (Wrapf "iptables deleting rule: " e (": " +:+ lineString))
          end)
  end.

Definition ruleContainsAllIPs (line : string) (cidrIPs : list string) : bool :=
  forallb (fun ip => str_contains line (trim_suffix ip "/32")) cidrIPs.

Definition isNordvpnExitnodeRule (line : string) : bool :=
  str_contains line filterRuleComment || str_contains line transientFilterRuleComment.

(** The line the rule is found in; [None] for -1. *)
Definition checkFilteringRulesLine (cidrIPs : list string) : M K (option nat) :=
  let! r := command (words "-t filter -L FORWARD -v -n") in
  match r.2 with
  | Some e => throw (Wrapf "iptables listing rules: " e (": " +:+ r.1))
  | None =>
      ret (index_func (fun line => negb (bool_decide (line = "")) &&
                                   ruleContainsAllIPs line cidrIPs && isNordvpnExitnodeRule line)
             (split_char newline r.1))
  end.

Definition checkFilteringRule (cidrIP : string) : M K bool :=
  let! lineNum := checkFilteringRulesLine [cidrIP] in
  ret (match lineNum with Some _ => true | None => false end).

Definition modifyPeerTraffic (subnet : Prefix) (flag : string) (source allow : bool) : M K unit :=
  let sourceFlag := if source then "-s" else "-s " +:+ meshSrcSubnet +:+ " -d" in
  let acceptFlag := if allow then "ACCEPT" else "DROP" in
  command_or "iptables modifying rule: "
    (words ("-t filter " +:+ flag +:+ " FORWARD " +:+ sourceFlag +:+ " " +:+ prefix_String subnet +:+
            " -j " +:+ acceptFlag +:+ " -m comment --comment " +:+ transientFilterRuleComment)).

Definition refreshPrivateSubnetsBlock : M K unit :=
  forM_ private_subnets (fun subnet =>
    let! r := attempt (modifyPeerTraffic subnet "-D" false false) in
    match r with
    | Err e =>
        if negb (str_contains (error_text e) missingRuleMessage)
        then throw (Wrapf "deleting private subnets block: " e "")
        else ret tt
    | Ok _ => ret tt
    end ;;
    wrapped ("blocking traffic to '" +:+ prefix_String subnet +:+ "': ")
      (modifyPeerTraffic subnet "-I" false false) "").

Definition blockPhysicalForwarding (intfNames : list string) : M K unit :=
  forM_ intfNames (fun intfName =>
    command_or "iptables inserting rule: "
      (words ("-t filter -I FORWARD -o " +:+ intfName +:+ " -j DROP -m comment --comment " +:+
              transientFilterRuleComment))).

Definition enableFiltering : M K unit :=
  let! ok := checkFilteringRule meshSrcSubnet in
  if ok : bool then ret tt
  else
    forM_ ["-s"; "-d"] (fun flag =>
      command_or "iptables inserting rule: "
        (words ("-t filter -I FORWARD 1 " +:+ flag +:+ " " +:+ meshSrcSubnet +:+
                " -j DROP -m comment --comment " +:+ filterRuleComment))) ;;
    command_or "iptables inserting rule: "
      (words ("-t filter -I FORWARD 1 -d " +:+ meshSrcSubnet +:+
              " -m conntrack --ctstate RELATED,ESTABLISHED -j ACCEPT -m comment --comment " +:+
              filterRuleComment)).

Definition clearExitnodeForwardRules : M K unit :=
  let! r := command ["-S"; "FORWARD"] in
  match r.2 with
  | Some e => throw (Wrapf "listing iptables: " e "")
  | None =>
      forM_ (split_char newline r.1) (fun rule =>
        if negb (str_contains rule transientFilterRuleComment) then ret tt
        else
          let! d := command (words (strings_ReplaceAll rule "-A" "-D")) in
          match d.2 with
          | None => ret tt
          | Some e => throw (Wrapf "deleting iptables rule: " e "")
          end)
  end.

Definition allowLocalNetworkAccess (subnet : Prefix) (flag : string) : M K unit :=
  forM_ private_subnets (fun localSubnet =>
    command_or "iptables modifying rule: "
      (words ("-t filter " +:+ flag +:+ " FORWARD -s " +:+ prefix_String subnet +:+ " -d " +:+
              prefix_String localSubnet +:+ " -j ACCEPT -m comment --comment " +:+
              transientFilterRuleComment))).

Definition resetPeersTraffic (peers : list TrafficPeer) (interfaceNames : list string)
    (killswitch : bool) : M K unit :=
  wrapped "clearing masquerade rules: " clearMasquerading "" ;;
  wrapped "clearing exitnode forward rules: " clearExitnodeForwardRules "" ;;
  forM_ peers (fun peer =>
    when (tp_Routing peer && (negb (tp_LocalNetwork peer) || killswitch))
      (wrapped ("adding rule while resetting peers traffic for peer " +:+ peer_text peer +:+ ": ")
         (modifyPeerTraffic (tp_IP peer) "-I" true true) "")) ;;
  wrapped "refreshing private subnets block while resetting peers traffic: "
    refreshPrivateSubnetsBlock "" ;;
  when killswitch
    (wrapped "adding killswitch physical forwarding block rules while resetting peers traffic: "
       (blockPhysicalForwarding interfaceNames) "") ;;
  forM_ peers (fun peer =>
    when (tp_LocalNetwork peer)
      (if tp_Routing peer && negb killswitch then
         wrapped ("adding rule while resetting peers traffic for peer " +:+ peer_text peer +:+ ": ")
           (modifyPeerTraffic (tp_IP peer) "-I" true true) ""
       else
         wrapped ("adding rules to access local network while resetting peers traffic " +:+
                  peer_text peer +:+ ": ")
           (allowLocalNetworkAccess (tp_IP peer) "-I") "")) ;;
  forM_ peers (fun peer =>
    when (tp_Routing peer)
      (wrapped "enabling masquerading for peer: " (enableMasquerading (prefix_String (tp_IP peer))) "")).

Definition clearFiltering : M K unit :=
  let! r := command ["-S"] in
  match r.2 with
  | Some e => throw (Wrapf "listing iptables rules: " e "")
  | None =>
      forM_ (split_char newline r.1) (fun line =>
        let isFilterRule := str_contains line ("--comment " +:+ filterRuleComment) in
        let isTransientFilterRule := str_contains line ("--comment " +:+ transientFilterRuleComment) in
        if negb (str_contains line "FORWARD") || negb (isFilterRule || isTransientFilterRule) then ret tt
        else
          let! d := command (words (strings_ReplaceAll line "-A " "-D ")) in
          match d.2 with
          | None => ret tt
          | Some e => throw (Wrapf ("deleting FORWARD rule " +:+ line +:+ ": ") e (": " +:+ d.1))
          end)
  end.

(** ** [allowlist.go] *)

Definition MaxUint16 : Z := 65535.

(** One command of [allowlistRuleToFirewall]; no command when the peer may not
    use the destination. *)
Definition allowlist_command (op : bool) (destination portType : string) (peer : MachinePeer) :
    option (list string) :=
  if negb (p_DoIAllowLocalNetwork peer) || negb (addr_IsValid (p_Address peer)) then None
  else if negb (bool_decide (portType = "")) && negb (p_DoIAllowRouting peer) then None
  else Some
    ([if op then "-I" else "-D"; "FORWARD"; "-s"; addr_String (p_Address peer); "-j"; "ACCEPT"; "-m";
      "comment"; "--comment"; meshAllowlistRuleComment] ++
     (if bool_decide (portType = "") then ["-d"; destination]
      else ["-p"; portType; "-m"; portType; "--dport"; destination])).

(** [op] is true for [ADD]. *)
Definition allowlistRuleToFirewall (peers : list MachinePeer) (op : bool)
    (destination portType : string) : M K unit :=
  forM_ peers (fun peer =>
    match allowlist_command op destination portType peer with
    | None => ret tt
    | Some cmd =>
        let! r := command cmd in
        match r.2 with
        | None => ret tt
        | Some e =>
            if negb (str_contains r.1 missingRuleMessage)
            then throw (Wrapf "calling iptables: " e (", " +:+ r.1)) else ret tt
        end
    end).

Definition destination_text (r : PortRange) : string :=
  if pr_Min r =? pr_Max r then itoa (pr_Min r) else itoa (pr_Min r) +:+ ":" +:+ itoa (pr_Max r).

(** The ports of an allowlist as port ranges. *)
Definition allowlist_ranges (ports : PortSet) : list PortRange :=
  PortsToPortRanges (filter (fun p => p <= MaxUint16) (map_to_list ports).*1).

Definition allowlist_ports_to (peers : list MachinePeer) (op : bool) (name : string) (ports : PortSet) :
    M K unit :=
  forM_ (allowlist_ranges ports) (fun portRange =>
    wrapped "adding allowlist rule to firewall: "
      (allowlistRuleToFirewall peers op (destination_text portRange) name) "").

Definition allowlistToFirewall (allowlist : Allowlist) (peers : list MachinePeer) (op : bool) : M K unit :=
  let! subnets := gets (range_keys (al_Subnets allowlist)) in
  forM_ subnets (fun subnet =>
    match ParsePrefix subnet with
    | None => throw (Wrapf "failed to parse subnet: " (Errorf "netip.ParsePrefix") "")
    | Some parsed =>
        if negb (addr_IsPrivate (pfx_addr parsed)) && negb (addr_IsLinkLocalUnicast (pfx_addr parsed))
        then ret tt
        else
          let! r := attempt (allowlistRuleToFirewall peers op subnet "") in
          match r with
          | Err e => if op then throw (Wrapf "adding allowlist rule to firewall: " e "") else ret tt
          | Ok _ => ret tt
          end
    end) ;;
  allowlist_ports_to peers op "tcp" (ports_TCP (al_Ports allowlist)) ;;
  allowlist_ports_to peers op "udp" (ports_UDP (al_Ports allowlist)).
End Commands.

(** ** [server.go] *)

Record Server (K T : Type) : Type := mkServer {
  en_interfaceNames : list string;
  en_iptables : K;
  en_sysctlSetter : T;
  en_peers : list MachinePeer;
  am_allowlist : Allowlist;
  am_peers : list MachinePeer;
  en_enabled : bool
}.
Arguments mkServer {K T} _ _ _ _ _ _ _.
Arguments en_interfaceNames {K T} _.
Arguments en_iptables {K T} _.
Arguments en_sysctlSetter {K T} _.
Arguments en_peers {K T} _.
Arguments am_allowlist {K T} _.
Arguments am_peers {K T} _.
Arguments en_enabled {K T} _.
#[export] Instance Server_eta {K T} : EtaExpand (Server K T) := fun s =>
  mkServer (en_interfaceNames s) (en_iptables s) (en_sysctlSetter s) (en_peers s) (am_allowlist s)
    (am_peers s) (en_enabled s).

Definition NewServer {K T} (interfaceNames : list string) (k : K) (allowlist : Allowlist) (t : T) :
    Server K T :=
  mkServer interfaceNames k t [] allowlist [] false.

Section ExitNode.
Context {K T : Type} `{runCommandFunc K} `{SysctlSetter T}.
#[local] Abbreviation EN := (M (Server K T)).

Definition on_iptables {A} (m : M K A) : EN A :=
  zoom en_iptables (fun k s => s <| en_iptables := k |>) m.
Definition on_sysctl {A} (m : M T A) : EN A :=
  zoom en_sysctlSetter (fun t s => s <| en_sysctlSetter := t |>) m.

Definition setAllowlist (allowlist : Allowlist) : EN unit := set! am_allowlist := allowlist.
Definition setPeers (peers : list MachinePeer) : EN unit := set! am_peers := peers.

Definition allowlist_op (op : bool) : EN unit :=
  let! allowlist := gets am_allowlist in
  let! peers := gets am_peers in
  on_iptables (allowlistToFirewall allowlist peers op).
Definition enableAllowlist : EN unit := allowlist_op true.
Definition disableAllowlist : EN unit := allowlist_op false.

Definition Enable : EN unit :=
  wrapped "enabling ipv4 forwarding: " (on_sysctl sysctl_Set) "" ;;
  wrapped "enabling filtering: " (on_iptables enableFiltering) "" ;;
  set! en_enabled := true.

(** The peers that have an address. *)
Definition traffic_peers (peers : list MachinePeer) (lanAvailable : bool) : list TrafficPeer :=
  omap (fun peer =>
    if addr_IsValid (p_Address peer)
    then Some (mkTrafficPeer (prefix_from (p_Address peer) (addr_BitLen (p_Address peer)))
                 (p_DoIAllowRouting peer) (p_DoIAllowLocalNetwork peer && lanAvailable))
    else None) peers.

Definition resetPeers (lanAvailable killswitch : bool) : EN unit :=
  let! peers := gets en_peers in
  let! names := gets en_interfaceNames in
  on_iptables (resetPeersTraffic (traffic_peers peers lanAvailable) names killswitch) ;;
  disableAllowlist ;;
  if negb lanAvailable then
    setPeers peers ;;
    enableAllowlist
  else ret tt.

Definition ResetFirewall (lanAvailable killswitch : bool) : EN unit :=
  let! enabled := gets en_enabled in
  if negb enabled then ret tt else resetPeers lanAvailable killswitch.

Definition ResetPeers (peers : list MachinePeer) (lanAvailable killswitch : bool) : EN unit :=
  set! en_peers := peers ;;
  resetPeers lanAvailable killswitch.

Definition Disable : EN unit :=
  wrapped "clearing filtering: " (on_iptables clearFiltering) "" ;;
  wrapped "clearing masquerading: " (on_iptables clearMasquerading) "" ;;
  wrapped "unsetting the forwarding value: " (on_sysctl sysctl_Unset) "" ;;
  wrapped "disabling allowlist: " disableAllowlist "" ;;
  set! en_enabled := false.

Definition SetAllowlist (allowlist : Allowlist) (lanAvailable : bool) : EN unit :=
  disableAllowlist ;;
  setAllowlist allowlist ;;
  let! enabled := gets en_enabled in
  if enabled && negb lanAvailable then enableAllowlist else ret tt.
End ExitNode.
