(* ===== verification/ExitnodeTables.v ===== *)
(** * ExitnodeTables: what [iptables] does with the exit node's commands

    The commands of file Exitnode as [iptables(8)] documents them, on the FORWARD
    chain of the filter table and the POSTROUTING chain of the nat table: [-I]
    inserts at the top, [-A] appends, [-D] removes the first equal rule and
    reports a missing one, [-S] and [-L] list.  Rules of other programs are lines
    of text that are kept in place.  [Netfilter] is the law that running
    [iptables] behaves so; the methods of Exitnode are then followed on the tables
    ([does]). *)

From stdpp Require Import base option list strings gmap.
From Stdlib Require Import ZArith Ascii Lia.
From S2P Require Import Prelude GoLib Kernel Mesh Config IPTables Exitnode.
Set Warnings "-clear-no-such-hyp".

Open Scope Z_scope.
Open Scope go_scope.

(** ** Tables *)

(** A rule of the FORWARD chain: the texts of its options. *)
Record FwdRule : Type := mkFwdRule {
  f_src : option string;
  f_dst : option string;
  f_out : option string;
  f_proto : option string;
  f_dport : option string;
  f_ctstate : option string;
  f_comment : string;
  f_target : string
}.
#[export] Instance FwdRule_eta : EtaExpand FwdRule := fun r =>
  mkFwdRule (f_src r) (f_dst r) (f_out r) (f_proto r) (f_dport r) (f_ctstate r) (f_comment r)
    (f_target r).
#[export] Instance FwdRule_eq_dec : EqDecision FwdRule.
Proof. solve_decision. Defined.

Definition empty_fwd : FwdRule := mkFwdRule None None None None None None "" "".

(** A masquerading rule of the POSTROUTING chain. *)
Record NatRule : Type := mkNatRule {
  n_src : string;
  n_notdst : string;
  n_comment : string;
  n_target : string
}.
#[export] Instance NatRule_eta : EtaExpand NatRule := fun r =>
  mkNatRule (n_src r) (n_notdst r) (n_comment r) (n_target r).
#[export] Instance NatRule_eq_dec : EqDecision NatRule.
Proof. solve_decision. Defined.

Definition empty_nat : NatRule := mkNatRule "" "" "" "".

(** A rule this program wrote, or a line of another program. *)
Inductive Entry (R : Type) : Type := Own (r : R) | Other (line : string).
Arguments Own {R} r.
Arguments Other {R} line.
#[export] Instance Entry_eq_dec {R} `{EqDecision R} : EqDecision (Entry R).
Proof. solve_decision. Defined.

#[export] Instance Own_inj {R} : Inj (=) (=) (@Own R).
Proof. by intros ?? [=]. Qed.

(** [t_rest] are the lines [-S] prints of other chains. *)
Record Tables : Type := mkTables {
  t_forward : list (Entry FwdRule);
  t_nat : list (Entry NatRule);
  t_rest : list string
}.
#[export] Instance Tables_eta : EtaExpand Tables := fun t =>
  mkTables (t_forward t) (t_nat t) (t_rest t).

(** ** Listing *)

Definition opt_tokens (o : string) (v : option string) : list string :=
  match v with Some v => [o; v] | None => [] end.

Definition fwd_tokens (r : FwdRule) : list string :=
  opt_tokens "-s" (f_src r) ++ opt_tokens "-d" (f_dst r) ++ opt_tokens "-o" (f_out r) ++
  match f_proto r with Some p => ["-p"; p; "-m"; p] | None => [] end ++
  opt_tokens "--dport" (f_dport r) ++
  match f_ctstate r with Some s => ["-m"; "conntrack"; "--ctstate"; s] | None => [] end ++
  ["-m"; "comment"; "--comment"; f_comment r; "-j"; f_target r].

Definition nat_tokens (r : NatRule) : list string :=
  ["-s"; n_src r; "!"; "-d"; n_notdst r; "-m"; "comment"; "--comment"; n_comment r; "-j"; n_target r].

Definition entry_line {R} (chain : string) (tokens : R -> list string) (e : Entry R) : string :=
  match e with
  | Own r => strings_Join ("-A" :: chain :: tokens r) " "
  | Other line => line
  end.

Definition fwd_line : Entry FwdRule -> string := entry_line "FORWARD" fwd_tokens.
Definition nat_line : Entry NatRule -> string := entry_line "POSTROUTING" nat_tokens.

(** A line of [-L -v -n]. *)
Definition verbose_line (e : Entry FwdRule) : string :=
  match e with
  | Own r => strings_Join ["0"; "0"; f_target r; default "all" (f_proto r); "--"; "*";
                           default "*" (f_out r); default "0.0.0.0/0" (f_src r);
                           default "0.0.0.0/0" (f_dst r); "/*"; f_comment r; "*/"] " "
  | Other line => line
  end.

(** ** Commands *)

Fixpoint strip (p l : list string) : option (list string) :=
  match p, l with
  | [], _ => Some l
  | x :: p', y :: l' => if String.eqb x y then strip p' l' else None
  | _, [] => None
  end.

Section Iptables.
(** How an address is written down in a rule: [iptables] brings the text it is
    given into a form of its own. *)
Context (norm : string -> string).

Fixpoint read_fwd (r : FwdRule) (args : list string) : option FwdRule :=
  match args with
  | [] => Some r
  | o :: v :: args' =>
      if String.eqb o "-s" then read_fwd (r <| f_src := Some (norm v) |>) args'
      else if String.eqb o "-d" then read_fwd (r <| f_dst := Some (norm v) |>) args'
      else if String.eqb o "-o" then read_fwd (r <| f_out := Some v |>) args'
      else if String.eqb o "-p" then read_fwd (r <| f_proto := Some v |>) args'
      else if String.eqb o "--dport" then read_fwd (r <| f_dport := Some v |>) args'
      else if String.eqb o "--ctstate" then read_fwd (r <| f_ctstate := Some v |>) args'
      else if String.eqb o "--comment" then read_fwd (r <| f_comment := v |>) args'
      else if String.eqb o "-j" then read_fwd (r <| f_target := v |>) args'
      else if String.eqb o "-m" then read_fwd r args'
      else None
  | _ => None
  end.

Fixpoint read_nat (r : NatRule) (args : list string) : option NatRule :=
  match args with
  | [] => Some r
  | o :: v :: args' =>
      if String.eqb o "-s" then read_nat (r <| n_src := norm v |>) args'
      else if String.eqb o "--comment" then read_nat (r <| n_comment := v |>) args'
      else if String.eqb o "-j" then read_nat (r <| n_target := v |>) args'
      else if String.eqb o "-m" then read_nat r args'
      else if String.eqb o "!" && String.eqb v "-d" then
        match args' with
        | d :: args'' => read_nat (r <| n_notdst := norm d |>) args''
        | [] => None
        end
      else None
  | _ => None
  end.

Definition done_quietly : string * option error := ("", None).
Definition missing_rule : string * option error :=
  ("iptables: " +:+ missingRuleMessage +:+ ".", Some (Errorf "exit status 1")).
Definition usage_error : string * option error := ("iptables: bad argument", Some (Errorf "exit status 2")).

Definition delete_entry {R} `{EqDecision R} (r : R) (l : list (Entry R)) :
    (string * option error) * list (Entry R) :=
  if decide (Own r ∈ l) then (done_quietly, remove_first (Own r) l) else (missing_rule, l).

Definition filter_command (args : list string) (t : Tables) : (string * option error) * Tables :=
  match strip ["-I"; "FORWARD"] args with
  | Some spec =>
      match read_fwd empty_fwd (default spec (strip ["1"] spec)) with
      | Some r => (done_quietly, t <| t_forward := Own r :: t_forward t |>)
      | None => (usage_error, t)
      end
  | None =>
      match strip ["-D"; "FORWARD"] args with
      | Some spec =>
          match read_fwd empty_fwd spec with
          | Some r => let '(o, l) := delete_entry r (t_forward t) in (o, t <| t_forward := l |>)
          | None => (usage_error, t)
          end
      | None =>
          if bool_decide (args = ["-S"; "FORWARD"]) then
            ((unlines ("-P FORWARD ACCEPT" :: map fwd_line (t_forward t)), None), t)
          else if bool_decide (args = ["-S"]) then
            ((unlines (t_rest t ++ "-P FORWARD ACCEPT" :: map fwd_line (t_forward t)), None), t)
          else if bool_decide (args = ["-L"; "FORWARD"; "-v"; "-n"]) then
            ((unlines ("Chain FORWARD (policy ACCEPT 0 packets, 0 bytes)" ::
                       " pkts bytes target prot opt in out source destination" ::
                       map verbose_line (t_forward t)), None), t)
          else (usage_error, t)
      end
  end.

Definition nat_command (args : list string) (t : Tables) : (string * option error) * Tables :=
  match strip ["-A"; "POSTROUTING"] args with
  | Some spec =>
      match read_nat empty_nat spec with
      | Some r => (done_quietly, t <| t_nat := t_nat t ++ [Own r] |>)
      | None => (usage_error, t)
      end
  | None =>
      match strip ["-D"; "POSTROUTING"] args with
      | Some spec =>
          match read_nat empty_nat spec with
          | Some r => let '(o, l) := delete_entry r (t_nat t) in (o, t <| t_nat := l |>)
          | None => (usage_error, t)
          end
      | None =>
          if bool_decide (args = ["-S"; "POSTROUTING"]) then
            ((unlines ("-P POSTROUTING ACCEPT" :: map nat_line (t_nat t)), None), t)
          else (usage_error, t)
      end
  end.

Definition iptables (args : list string) (t : Tables) : (string * option error) * Tables :=
  match strip ["-t"; "nat"] args with
  | Some args' => nat_command args' t
  | None => filter_command (default args (strip ["-t"; "filter"] args)) t
  end.
End Iptables.

(** ** Plain text

    Text that can stand in a rule without being mistaken for something else when
    the rule is listed and read back. *)

Record plain (s : string) : Prop := mkPlain {
  pl_space : no_char " " s;
  pl_newline : no_char newline s;
  pl_flag : str_contains s "-A" = false;
  pl_comment : str_contains s "nordvpn" = false
}.

(** An IPv4 network: its host bits are zero. *)
Definition is_network (p : Prefix) : Prop :=
  exists a, pfx_addr p = AddrV4 a /\ 0 <= a < 2 ^ 32 /\ 0 <= pfx_bits p <= 32 /\
            mask_addr (AddrV4 a) (pfx_bits p) = AddrV4 a.

(** [iptables] behaves as documented: running it is [iptables] on the tables. *)
Class Netfilter (K : Type) `{runCommandFunc K} (view : K -> Tables) (norm : string -> string) : Prop := {
  nf_output args k : (run_iptables args k).1 = (iptables norm args (view k)).1;
  nf_tables args k : view (run_iptables args k).2 = (iptables norm args (view k)).2;
  nf_norm_idem s : norm (norm s) = norm s;
  nf_norm_plain s : plain s -> plain (norm s);
  nf_norm_prefix a b : 0 <= a < 2 ^ 32 -> 0 <= b <= 32 ->
    norm (prefix_String (mkPrefix (AddrV4 a) b)) = prefix_String (mkPrefix (mask_addr (AddrV4 a) b) b);
  nf_norm_host a : 0 <= a < 2 ^ 32 -> norm (v4_String a) = prefix_String (mkPrefix (AddrV4 a) 32);
  nf_range m k : range_keys m k ≡ₚ (map_to_list m).*1
}.

(** The text of a network is in [iptables]' own form. *)
Lemma nf_norm_network `{Netfilter K view norm} p : is_network p -> norm (prefix_String p) = prefix_String p.
Proof.
  intros (a & Ha & Hr & Hb & Hm). destruct p as [x b]. cbn [pfx_addr pfx_bits] in *. subst.
  by rewrite nf_norm_prefix, Hm.
Qed.

(** ** Text of rules *)

Lemma join_cons x y l : strings_Join (x :: y :: l) " " = x +:+ String " " (strings_Join (y :: l) " ").
Proof. done. Qed.

Lemma words_join l : l <> [] -> Forall (no_char " ") l -> words (strings_Join l " ") = l.
Proof.
  unfold words. induction l as [|x [|y l] IH]; intros Hne Hl; [done|..].
  - apply Forall_inv in Hl. clear -Hl. cbn. induction x as [|c x IH]; [done|].
    destruct Hl as [Hc Hx]. cbn. rewrite IH by done. by destruct (Ascii.eqb_spec c " ").
  - apply Forall_cons in Hl as [Hx Hl]. rewrite join_cons, split_char_line by done.
    by rewrite IH.
Qed.

Lemma contains_join p l : l <> [] -> no_char " " p -> p <> "" ->
  str_contains (strings_Join l " ") p = existsb (fun x => str_contains x p) l.
Proof.
  intros Hne Hp Hp'. induction l as [|x [|y l] IH]; [done|by cbn; rewrite orb_false_r|].
  rewrite join_cons, str_contains_sep by done. rewrite IH by done. done.
Qed.

Lemma replace_none old new s : str_contains s old = false -> replace_from old new 0 s = s.
Proof.
  induction s as [|c s IH]; cbn [str_contains]; [done|].
  intros [Hp Hs]%orb_false_iff. cbn [replace_from]. rewrite Hp. by rewrite IH.
Qed.

Lemma contains_longer (s p x : string) : str_contains s p = false -> str_contains s (p +:+ x) = false.
Proof. intros Hs. apply not_true_iff_false. intros Ht%str_contains_app. congruence. Qed.

Lemma join_no_newline l : Forall (no_char newline) l -> no_char newline (strings_Join l " ").
Proof.
  induction l as [|x [|y l] IH]; intros Hl; [done|by apply Forall_inv in Hl|].
  apply Forall_cons in Hl as [Hx Hl]. rewrite join_cons. apply no_char_app; [done|].
  split; [done|]. by apply IH.
Qed.

Lemma contains_after (s p x : string) : str_contains s x = false -> str_contains s (p +:+ x) = false.
Proof.
  intros Hs. induction s as [|c s IH]; cbn [str_contains] in *.
  - rewrite orb_false_r in *. destruct p as [|a p]; [exact Hs|done].
  - apply orb_false_iff in Hs as [Hp Hs]. rewrite IH by done. rewrite orb_false_r.
    clear IH. revert c s Hp Hs. induction p as [|a p IHp]; intros c s Hp Hs; [exact Hp|].
    change (String a p +:+ x) with (String a (p +:+ x)). cbn [has_prefix].
    apply andb_false_iff. right. destruct s as [|d s]; cbn [str_contains] in Hs.
    + rewrite orb_false_r in Hs. destruct p; [exact Hs|done].
    + apply orb_false_iff in Hs as [Hp' Hs]. by apply IHp.
Qed.

Lemma contains_self (s t : string) : str_contains (s +:+ t) s = true.
Proof.
  assert (has_prefix s (s +:+ t) = true) as Hp.
  { induction s as [|c s IH]; [by destruct t|]. change (String c s +:+ t) with (String c (s +:+ t)).
    cbn. by rewrite (proj2 (Ascii.eqb_eq c c) eq_refl). }
  destruct (s +:+ t); cbn [str_contains]; by rewrite Hp.
Qed.

Lemma contains_suffix (s t p : string) : str_contains t p = true -> str_contains (s +:+ t) p = true.
Proof.
  intros Ht. induction s as [|c s IH]; [done|].
  change (String c s +:+ t) with (String c (s +:+ t)). cbn [str_contains]. rewrite IH. by rewrite orb_true_r.
Qed.

Lemma string_app_assoc (a b c : string) : (a +:+ b) +:+ c = a +:+ (b +:+ c).
Proof.
  induction a as [|x a IH]; [done|].
  change ((String x a +:+ b) +:+ c) with (String x ((a +:+ b) +:+ c)). by rewrite IH.
Qed.

Lemma join_app l x k : l <> [] -> strings_Join (l ++ x :: k) " " =
  strings_Join l " " +:+ String " " (strings_Join (x :: k) " ").
Proof.
  induction l as [|y [|z l] IH]; intros Hne; [done|done|].
  change ((y :: z :: l) ++ x :: k) with (y :: (z :: l) ++ x :: k).
  change (strings_Join (y :: (z :: l) ++ x :: k) " ") with
    (y +:+ String " " (strings_Join ((z :: l) ++ x :: k) " ")).
  rewrite IH by done. rewrite join_cons. by rewrite string_app_assoc.
Qed.

Definition no_flag (s : string) : Prop := no_char " " s /\ str_contains s "-A" = false.

Lemma contains_flag l : Forall no_flag l -> existsb (fun x => str_contains x "-A") l = false.
Proof. induction 1 as [|x l [_ Hx] _ IH]; [done|]. cbn. by rewrite Hx. Qed.

Lemma no_flag_spaces l : Forall no_flag l -> Forall (no_char " ") l.
Proof. intros Hl. apply (Forall_impl _ _ _ Hl). by intros x [? _]. Qed.

(** The command made of a listed line: its [-A] becomes [-D]. *)
Lemma replaced_words c l : Forall no_flag (c :: l) ->
  words (strings_ReplaceAll (strings_Join ("-A" :: c :: l) " ") "-A" "-D") = "-D" :: c :: l.
Proof.
  intros Hl. rewrite join_cons.
  change (strings_ReplaceAll ("-A" +:+ String " " ?s) "-A" "-D") with
    ("-D" +:+ String " " (replace_from "-A" "-D" 0 s)).
  rewrite replace_none by (rewrite contains_join by done; by apply contains_flag).
  unfold words. rewrite split_char_line by by repeat split.
  f_equal. apply words_join; [done|by apply no_flag_spaces].
Qed.

Lemma replaced_words_space c l : Forall no_flag (c :: l) ->
  words (strings_ReplaceAll (strings_Join ("-A" :: c :: l) " ") "-A " "-D ") = "-D" :: c :: l.
Proof.
  intros Hl. rewrite join_cons.
  change (strings_ReplaceAll ("-A" +:+ String " " ?s) "-A " "-D ") with
    ("-D" +:+ String " " (replace_from "-A " "-D " 0 s)).
  assert (str_contains (strings_Join (c :: l) " ") "-A" = false) as Hno
    by (rewrite contains_join by done; by apply contains_flag).
  rewrite replace_none.
  - unfold words. rewrite split_char_line by by repeat split.
    f_equal. apply words_join; [done|by apply no_flag_spaces].
  - apply not_true_iff_false. intros Ht. change "-A " with ("-A" +:+ " ") in Ht.
    apply str_contains_app in Ht. congruence.
Qed.

(** Rules whose texts are plain, written by the exit node. *)
Definition plain_opt (o : option string) : Prop := match o with Some s => plain s | None => True end.

Definition comments : list string :=
  [filterRuleComment; transientFilterRuleComment; meshAllowlistRuleComment].

Record plain_rule (norm : string -> string) (r : FwdRule) : Prop := mkPlainRule {
  pr_src : plain_opt (f_src r) /\ (norm <$> f_src r) = f_src r;
  pr_dst : plain_opt (f_dst r) /\ (norm <$> f_dst r) = f_dst r;
  pr_out : plain_opt (f_out r);
  pr_proto : plain_opt (f_proto r);
  pr_dport : plain_opt (f_dport r);
  pr_ctstate : plain_opt (f_ctstate r);
  pr_comment : f_comment r ∈ comments;
  pr_target : plain (f_target r)
}.

Section ReadBack.
Context (norm : string -> string).
Implicit Types (s d o p dp ct v : option string) (c t : string) (l : list string).

Lemma read_src d o p dp ct c t v l :
  read_fwd norm (mkFwdRule None d o p dp ct c t) (opt_tokens "-s" v ++ l) =
  read_fwd norm (mkFwdRule (norm <$> v) d o p dp ct c t) l.
Proof. by destruct v. Qed.

Lemma read_dst s o p dp ct c t v l :
  read_fwd norm (mkFwdRule s None o p dp ct c t) (opt_tokens "-d" v ++ l) =
  read_fwd norm (mkFwdRule s (norm <$> v) o p dp ct c t) l.
Proof. by destruct v. Qed.

Lemma read_out s d p dp ct c t v l :
  read_fwd norm (mkFwdRule s d None p dp ct c t) (opt_tokens "-o" v ++ l) =
  read_fwd norm (mkFwdRule s d v p dp ct c t) l.
Proof. by destruct v. Qed.

Lemma read_proto s d o dp ct c t v l :
  read_fwd norm (mkFwdRule s d o None dp ct c t)
    (match v with Some p => ["-p"; p; "-m"; p] | None => [] end ++ l) =
  read_fwd norm (mkFwdRule s d o v dp ct c t) l.
Proof. by destruct v. Qed.

Lemma read_dport s d o p ct c t v l :
  read_fwd norm (mkFwdRule s d o p None ct c t) (opt_tokens "--dport" v ++ l) =
  read_fwd norm (mkFwdRule s d o p v ct c t) l.
Proof. by destruct v. Qed.

Lemma read_ctstate s d o p dp c t v l :
  read_fwd norm (mkFwdRule s d o p dp None c t)
    (match v with Some p => ["-m"; "conntrack"; "--ctstate"; p] | None => [] end ++ l) =
  read_fwd norm (mkFwdRule s d o p dp v c t) l.
Proof. by destruct v. Qed.

(** A listed rule is read back as itself. *)
Lemma read_tokens r :
  (norm <$> f_src r) = f_src r -> (norm <$> f_dst r) = f_dst r ->
  read_fwd norm empty_fwd (fwd_tokens r) = Some r.
Proof.
  intros Hs Hd. unfold fwd_tokens, empty_fwd.
  rewrite read_src, read_dst, read_out, read_proto, read_dport, read_ctstate, Hs, Hd.
  by destruct r.
Qed.
End ReadBack.

Lemma plain_no_flag s : plain s -> no_flag s.
Proof. by intros []. Qed.

Lemma comment_no_flag c : c ∈ comments -> no_flag c.
Proof.
  unfold comments. rewrite !elem_of_cons, elem_of_nil. by intros [->|[->|[->|[]]]].
Qed.

Lemma opt_tokens_Forall (P : string -> Prop) o v :
  P o -> (forall s, plain s -> P s) -> plain_opt v -> Forall P (opt_tokens o v).
Proof. intros Ho HP Hv. destruct v; repeat constructor; auto. Qed.

(** Every token of a plain rule: an option, a plain text or the comment. *)
Lemma tokens_Forall norm r (P : string -> Prop) :
  plain_rule norm r -> (forall s, plain s -> P s) -> P (f_comment r) ->
  Forall P ["-s"; "-d"; "-o"; "-p"; "-m"; "--dport"; "conntrack"; "--ctstate"; "comment"; "--comment"; "-j"] ->
  Forall P (fwd_tokens r).
Proof.
  intros [[Hs _] [Hd _] Ho Hp Hdp Hct Hc Ht] HP Hcom Hopts.
  rewrite !Forall_cons in Hopts. destruct Hopts as (? & ? & ? & ? & ? & ? & ? & ? & ? & ? & ? & _).
  unfold fwd_tokens. rewrite !Forall_app.
  repeat split; try by apply opt_tokens_Forall.
  - destruct (f_proto r); repeat constructor; auto.
  - destruct (f_ctstate r); repeat constructor; auto.
  - repeat constructor; auto.
Qed.

Lemma tokens_no_flag norm r : plain_rule norm r -> Forall no_flag ("FORWARD" :: fwd_tokens r).
Proof.
  intros Hr. constructor; [by repeat split|].
  apply (tokens_Forall norm); [done|apply plain_no_flag|by apply comment_no_flag; destruct Hr|].
  rewrite !Forall_cons. by repeat split.
Qed.

(** ** Following the methods on the tables *)

Section Does.
Context {K : Type} `{runCommandFunc K} {view : K -> Tables} {norm : string -> string}
  `{HN : !Netfilter K view norm}.
Implicit Types t : Tables.

(** From any state with tables [t], [m] succeeds with [a] and tables [t']. *)
Definition does {A} (m : M K A) (t : Tables) (a : A) (t' : Tables) : Prop :=
  forall k, view k = t -> exists k', m k = (Ok a, k') /\ view k' = t'.

Lemma does_ret {A} (a : A) t : does (ret a) t a t.
Proof. intros k Hk. by exists k. Qed.

Lemma does_from {A} (m : M K A) t0 t a t' : t = t0 -> does m t0 a t' -> does m t a t'.
Proof. by intros ->. Qed.

Lemma does_to {A} (m : M K A) t a t0 t' : t0 = t' -> does m t a t0 -> does m t a t'.
Proof. by intros ->. Qed.

Lemma does_bind {A B} (m : M K A) (f : A -> M K B) t a t1 b t2 :
  does m t a t1 -> does (f a) t1 b t2 -> does (bind m f) t b t2.
Proof.
  intros Hm Hf k Hk. destruct (Hm k Hk) as (k1 & E1 & H1). destruct (Hf k1 H1) as (k2 & E2 & H2).
  exists k2. split; [|done]. unfold bind. by rewrite E1.
Qed.

Lemma does_wrapped {A} pre (m : M K A) post t a t' :
  does m t a t' -> does (wrapped pre m post) t a t'.
Proof.
  intros Hm k Hk. destruct (Hm k Hk) as (k' & E & Hv). exists k'. split; [|done].
  unfold wrapped. by rewrite E.
Qed.

Lemma does_when (b : bool) (m : M K unit) t t' :
  (b = true -> does m t tt t') -> (b = false -> t' = t) -> does (when b m) t tt t'.
Proof. intros H1 H2. destruct b; cbn; [by apply H1|]. rewrite H2 by done. apply does_ret. Qed.

(** A loop that changes the tables step by step. *)
Lemma does_forM {A} (l : list A) (f : A -> M K unit) (g : Tables -> A -> Tables) t :
  (forall x t0, x ∈ l -> does (f x) t0 tt (g t0 x)) -> does (forM_ l f) t tt (foldl g t l).
Proof.
  revert t. induction l as [|x l IH]; intros t Hf; cbn; [apply does_ret|].
  eapply does_bind; [apply Hf; by left|]. apply IH. intros y t0 Hy. apply Hf. by right.
Qed.

Lemma forM_app {A} (l1 l2 : list A) (f : A -> M K unit) k :
  forM_ (l1 ++ l2) f k = (forM_ l1 f ;; forM_ l2 f) k.
Proof.
  revert k. induction l1 as [|x l1 IH]; intros k; [done|]. cbn [forM_ app]. unfold bind in *.
  destruct (f x k) as [[[]|e] k1]; [apply IH|done].
Qed.

Lemma does_forM_app {A} (l1 l2 : list A) (f : A -> M K unit) t t1 t2 :
  does (forM_ l1 f) t tt t1 -> does (forM_ l2 f) t1 tt t2 -> does (forM_ (l1 ++ l2) f) t tt t2.
Proof.
  intros H1 H2 k Hk. rewrite forM_app. by apply (does_bind _ _ _ _ _ _ _ H1 H2).
Qed.

Lemma does_command args t : does (command args) t (iptables norm args t).1 (iptables norm args t).2.
Proof.
  intros k <-. unfold command. pose proof (nf_output args k) as Ho. pose proof (nf_tables args k) as Ht.
  destruct (run_iptables args k) as [o k']. cbn in *. exists k'. by rewrite Ho.
Qed.

Lemma does_command_or pre args t t' :
  iptables norm args t = (done_quietly, t') -> does (command_or pre args) t tt t'.
Proof.
  intros E. unfold command_or. eapply does_bind; [apply does_command|]. rewrite E. apply does_ret.
Qed.

(** *** Inserting and deleting *)

Lemma iptables_filter args t :
  iptables norm ("-t" :: "filter" :: args) t = filter_command norm args t.
Proof. done. Qed.

Lemma iptables_default o args t : String.eqb "-t" o = false ->
  iptables norm (o :: args) t = filter_command norm (o :: args) t.
Proof. intros Ho. unfold iptables. cbn [strip]. by rewrite Ho. Qed.

Lemma insert_spec spec r t :
  read_fwd norm empty_fwd spec = Some r -> strip ["1"] spec = None ->
  filter_command norm ("-I" :: "FORWARD" :: spec) t =
    (done_quietly, t <| t_forward := Own r :: t_forward t |>).
Proof.
  intros Hr Hs. unfold filter_command.
  change (strip ["-I"; "FORWARD"] ("-I" :: "FORWARD" :: spec)) with (Some spec). cbv iota beta.
  rewrite Hs. change (default spec None) with spec. by rewrite Hr.
Qed.

Lemma insert_first spec r t :
  read_fwd norm empty_fwd spec = Some r ->
  filter_command norm ("-I" :: "FORWARD" :: "1" :: spec) t =
    (done_quietly, t <| t_forward := Own r :: t_forward t |>).
Proof.
  intros Hr. unfold filter_command.
  change (strip ["-I"; "FORWARD"] ("-I" :: "FORWARD" :: "1" :: spec)) with (Some ("1" :: spec)).
  cbv iota beta. change (default ("1" :: spec) (strip ["1"] ("1" :: spec))) with spec. by rewrite Hr.
Qed.

Lemma delete_spec spec r t :
  read_fwd norm empty_fwd spec = Some r ->
  filter_command norm ("-D" :: "FORWARD" :: spec) t =
    ((delete_entry r (t_forward t)).1, t <| t_forward := (delete_entry r (t_forward t)).2 |>).
Proof.
  intros Hr. unfold filter_command.
  change (strip ["-I"; "FORWARD"] ("-D" :: "FORWARD" :: spec)) with (@None (list string)).
  change (strip ["-D"; "FORWARD"] ("-D" :: "FORWARD" :: spec)) with (Some spec). cbv iota beta.
  rewrite Hr. by destruct (delete_entry r (t_forward t)).
Qed.

(** A loop over the lines of a listing that deletes the selected rules: the
    others stay, in order. *)
Lemma clear_loop {R} `{EqDecision R} (line : Entry R -> string) (sel : Entry R -> bool)
    (body : string -> M K unit) (put : list (Entry R) -> Tables) (l : list (Entry R)) :
  (forall e t, e ∈ l -> sel e = false -> does (body (line e)) t tt t) ->
  (forall e l', e ∈ l -> sel e = true -> e ∈ l' ->
     does (body (line e)) (put l') tt (put (remove_first e l'))) ->
  forall kept, (forall e, e ∈ kept -> sel e = false) ->
  does (forM_ (map line l) body) (put (kept ++ l)) tt
    (put (kept ++ filter (fun e => sel e = false) l)).
Proof.
  induction l as [|e l IH]; intros Hskip Hdel kept Hkept; cbn [map forM_].
  { apply does_ret. }
  destruct (sel e) eqn:He.
  - eapply does_bind.
    + apply Hdel; [by left|done|]. apply elem_of_app. right. by left.
    + rewrite remove_first_middle by (intros Hin; apply Hkept in Hin; congruence).
      rewrite filter_cons_False by congruence.
      apply IH; [intros ? ? ?; apply Hskip; by right|intros ? ? ?; apply Hdel; by right|done].
  - eapply does_bind; [apply Hskip; [by left|done]|].
    rewrite filter_cons_True by done.
    rewrite !cons_middle, !app_assoc.
    apply IH; [intros ? ? ?; apply Hskip; by right|intros ? ? ?; apply Hdel; by right|].
    intros x [Hx| ->%list_elem_of_singleton]%elem_of_app; auto.
Qed.
End Does.
