(* ===== verification/ExitnodeSafety.v ===== *)
(** * ExitnodeSafety: what the exit node forwards

    The methods of file Exitnode followed on the tables of ExitnodeTables: the
    FORWARD chain after a reset, the decision it takes for a packet, and that
    disabling the exit node restores the tables. *)

From stdpp Require Import base option list strings gmap.
From Stdlib Require Import ZArith Ascii Lia.
From S2P Require Import Prelude GoLib Kernel Mesh Config IPTables Exitnode ExitnodeTables.
Set Warnings "-clear-no-such-hyp".

Open Scope Z_scope.
Open Scope go_scope.

(** ** Addresses as text *)

(** The characters of addresses and port ranges. *)
Definition address_char (c : ascii) : bool :=
  match digit_val c with
  | Some _ => true
  | None => Ascii.eqb c "." || Ascii.eqb c "/" || Ascii.eqb c ":"
  end.

Lemma address_plain s : all_chars address_char s = true -> plain s.
Proof.
  intros Hs. split.
  - by apply (all_chars_no_char address_char).
  - by apply (all_chars_no_char address_char).
  - by apply no_char_contains, (all_chars_no_char address_char).
  - by apply no_char_contains, (all_chars_no_char address_char).
Qed.

Definition byte_ok (o : Z) : bool :=
  all_chars address_char (itoa o) &&
  bool_decide (parse_octet (itoa o) = Some o) && bool_decide (parse_bits (itoa o) = Some o) &&
  all_chars (fun c => negb (Ascii.eqb c ".") && negb (Ascii.eqb c "/")) (itoa o).

Lemma bytes_ok : forallb byte_ok (seqZ 0 256) = true.
Proof. vm_compute. reflexivity. Qed.

Lemma byte_ok_range o : 0 <= o < 256 -> byte_ok o = true.
Proof.
  intros Ho. pose proof bytes_ok as Hall. rewrite forallb_forall in Hall. apply Hall.
  apply list_elem_of_In, elem_of_seqZ. lia.
Qed.

Lemma octet_range a i : 0 <= octet a i < 256.
Proof.
  unfold octet. change 255 with (Z.ones 8). rewrite Z.land_ones by lia. apply Z.mod_pos_bound. lia.
Qed.

Lemma v4_String_eq a : v4_String a =
  itoa (octet a 0) +:+ String "." (itoa (octet a 1) +:+ String "." (itoa (octet a 2) +:+
    String "." (itoa (octet a 3)))).
Proof. done. Qed.

Ltac byte o :=
  let H := fresh "Hb" in
  pose proof (byte_ok_range o) as H; unfold byte_ok in H; rewrite !andb_true_iff, !bool_decide_eq_true in H.

Lemma itoa_byte_chars o : 0 <= o < 256 -> all_chars address_char (itoa o) = true.
Proof. intros Ho. byte o. naive_solver. Qed.

Lemma itoa_byte_no_char c o : c = "."%char \/ c = "/"%char -> 0 <= o < 256 -> no_char c (itoa o).
Proof.
  intros Hc Ho. byte o. destruct (Hb Ho) as [_ Hs].
  apply (all_chars_no_char (fun c => negb (Ascii.eqb c ".") && negb (Ascii.eqb c "/"))); [|done].
  by destruct Hc as [-> | ->].
Qed.

Lemma v4_String_chars a : all_chars address_char (v4_String a) = true.
Proof.
  rewrite v4_String_eq.
  repeat (rewrite all_chars_app, itoa_byte_chars by apply octet_range; cbn [all_chars andb address_char]).
  rewrite itoa_byte_chars by apply octet_range. done.
Qed.

Lemma split_char_single sep x : no_char sep x -> split_char sep x = [x].
Proof.
  induction x as [|c x IH]; [done|]. intros [Hc Hx]. cbn. rewrite IH by done.
  by destruct (Ascii.eqb_spec c sep).
Qed.

Lemma octets_value a : 0 <= a < 2 ^ 32 -> v4 (octet a 0) (octet a 1) (octet a 2) (octet a 3) = a.
Proof.
  intros Ha. unfold v4, octet. change 255 with (Z.ones 8). rewrite !Z.land_ones by lia.
  rewrite !Z.shiftl_mul_pow2, !Z.shiftr_div_pow2 by lia.
  change (8 * (3 - 0)) with 24. change (8 * (3 - 1)) with 16. change (8 * (3 - 2)) with 8.
  change (8 * (3 - 3)) with 0. rewrite Z.pow_0_r, Z.div_1_r.
  change (2 ^ 32) with 4294967296 in Ha. change (2 ^ 24) with 16777216. change (2 ^ 16) with 65536.
  change (2 ^ 8) with 256. Z.to_euclidean_division_equations. lia.
Qed.

Lemma parse_v4_String a : 0 <= a < 2 ^ 32 -> parse_v4 (v4_String a) = Some a.
Proof.
  intros Ha. unfold parse_v4. rewrite v4_String_eq.
  rewrite !split_char_line by (apply itoa_byte_no_char; [by left|apply octet_range]).
  rewrite split_char_single by (apply itoa_byte_no_char; [by left|apply octet_range]).
  assert (forall i, parse_octet (itoa (octet a i)) = Some (octet a i)) as Ho.
  { intros i. byte (octet a i). by destruct (Hb (octet_range a i)) as [[[_ ?] _] _]. }
  rewrite !Ho. cbn [mbind option_bind]. by rewrite octets_value.
Qed.

Lemma bytes_digits : forallb (fun o => all_chars digit_char (itoa o)) (seqZ 0 256) = true.
Proof. vm_compute. reflexivity. Qed.

Lemma itoa_byte_digits o : 0 <= o < 256 -> all_chars digit_char (itoa o) = true.
Proof.
  intros Ho. pose proof bytes_digits as Hall. rewrite forallb_forall in Hall. apply Hall.
  apply list_elem_of_In, elem_of_seqZ. lia.
Qed.

Lemma addr_kind_digits s t : all_chars digit_char s = true -> addr_kind (s +:+ String "." t) = Some "."%char.
Proof.
  induction s as [|c s IH]; [done|]. cbn [all_chars]. intros [Hc Hs]%andb_true_iff.
  change (String c s +:+ String "." t) with (String c (s +:+ String "." t)).
  specialize (IH Hs). revert IH. generalize (s +:+ String "." t). intros u IH.
  destruct c as [[] [] [] [] [] [] [] []]; try discriminate Hc; exact IH.
Qed.

Lemma ParseAddr_v4 a : 0 <= a < 2 ^ 32 -> ParseAddr (v4_String a) = Some (AddrV4 a).
Proof.
  intros Ha. unfold ParseAddr. rewrite v4_String_eq at 1.
  rewrite addr_kind_digits by apply itoa_byte_digits, octet_range.
  by rewrite parse_v4_String.
Qed.

Lemma cut_last_none c t : no_char c t -> cut_last c t = None.
Proof.
  induction t as [|d t IH]; [done|]. intros [Hd Ht]. cbn. rewrite IH by done.
  destruct (Ascii.eqb_spec c d); congruence.
Qed.

Lemma cut_last_app c s t : no_char c t -> cut_last c (s +:+ String c t) = Some (s, t).
Proof.
  intros Ht. induction s as [|d s IH].
  - change (cut_last c (String c t) = Some (EmptyString, t)). cbn. rewrite cut_last_none by done.
    by rewrite (proj2 (Ascii.eqb_eq c c) eq_refl).
  - change (String d s +:+ String c t) with (String d (s +:+ String c t)). cbn. by rewrite IH.
Qed.

(** The text of an IPv4 prefix is read back as the prefix. *)
Lemma ParsePrefix_String a b : 0 <= a < 2 ^ 32 -> 0 <= b <= 32 ->
  ParsePrefix (prefix_String (mkPrefix (AddrV4 a) b)) = Some (mkPrefix (AddrV4 a) b).
Proof.
  intros Ha Hb. unfold prefix_String, prefix_IsValid. cbn [pfx_addr pfx_bits addr_String].
  rewrite (proj2 (Z.leb_le 0 b)) by lia. unfold ParsePrefix.
  change (v4_String a +:+ "/" +:+ itoa b) with (v4_String a +:+ String "/" (itoa b)).
  rewrite cut_last_app by (apply itoa_byte_no_char; [by right|lia]).
  cbn [mbind option_bind]. rewrite ParseAddr_v4 by done. cbn [mbind option_bind].
  assert (parse_bits (itoa b) = Some b) as ->.
  { byte b. by destruct Hb0 as [[_ ?] _]; [lia|]. }
  cbn [mbind option_bind addr_BitLen]. rewrite (proj2 (Z.ltb_ge b 0)), (proj2 (Z.ltb_ge 32 b)) by lia.
  cbn [orb]. unfold prefix_from. cbn [addr_IsValid andb addr_BitLen].
  by rewrite (proj2 (Z.leb_le 0 b)), (proj2 (Z.leb_le b 32)) by lia.
Qed.

Lemma prefix_String_plain a b : 0 <= b <= 32 -> plain (prefix_String (mkPrefix (AddrV4 a) b)).
Proof.
  intros Hb. apply address_plain. unfold prefix_String, prefix_IsValid. cbn [pfx_addr pfx_bits addr_String].
  rewrite (proj2 (Z.leb_le 0 b)) by lia. rewrite !all_chars_app, v4_String_chars.
  rewrite itoa_byte_chars by lia. done.
Qed.

(** ** The rules of the exit node *)

Definition own_rule (src dst out : option string) (comment target : string) : FwdRule :=
  mkFwdRule src dst out None None None comment target.

Definition net_text (p : Prefix) : option string := Some (prefix_String p).
Definition mesh_text : option string := Some meshSrcSubnet.

(** All traffic of a peer. *)
Definition peer_rule (p : Prefix) : FwdRule :=
  own_rule (net_text p) None None transientFilterRuleComment "ACCEPT".
(** Meshnet traffic to a private subnet. *)
Definition private_block (n : Prefix) : FwdRule :=
  own_rule mesh_text (net_text n) None transientFilterRuleComment "DROP".
(** Traffic that leaves through a physical interface. *)
Definition physical_block (i : string) : FwdRule :=
  own_rule None None (Some i) transientFilterRuleComment "DROP".
(** A peer's traffic to a private subnet. *)
Definition local_rule (p n : Prefix) : FwdRule :=
  own_rule (net_text p) (net_text n) None transientFilterRuleComment "ACCEPT".

Definition from_mesh_drop : FwdRule := own_rule mesh_text None None filterRuleComment "DROP".
Definition to_mesh_drop : FwdRule := own_rule None mesh_text None filterRuleComment "DROP".
Definition established_accept : FwdRule :=
  mkFwdRule None mesh_text None None None (Some "RELATED,ESTABLISHED") filterRuleComment "ACCEPT".

Definition permanent_rules : list FwdRule := [established_accept; to_mesh_drop; from_mesh_drop].

Definition masquerade (p : Prefix) : NatRule :=
  mkNatRule (prefix_String p) meshSrcSubnet msqRuleComment "MASQUERADE".

Definition mesh_network : Prefix := mkPrefix (AddrV4 (v4 100 64 0 0)) 10.

Lemma mesh_network_text : prefix_String mesh_network = meshSrcSubnet.
Proof. vm_compute. reflexivity. Qed.

Lemma mesh_is_network : is_network mesh_network.
Proof. exists (v4 100 64 0 0). repeat split; vm_compute; congruence. Qed.

Lemma private_is_network n : n ∈ private_subnets -> is_network n.
Proof.
  unfold private_subnets. rewrite !elem_of_cons, elem_of_nil.
  intros [->|[->|[->|[->|[]]]]]; eexists; repeat split; vm_compute; congruence.
Qed.

Lemma network_plain p : is_network p -> plain (prefix_String p).
Proof.
  intros (a & Ha & _ & Hb & _). destruct p as [? b]. cbn in *. subst. by apply prefix_String_plain.
Qed.

Lemma network_parse p : is_network p -> ParsePrefix (prefix_String p) = Some p.
Proof.
  intros (a & Ha & Hr & Hb & _). destruct p as [? b]. cbn in *. subst. by apply ParsePrefix_String.
Qed.

Lemma network_text_inj p q : is_network p -> is_network q -> prefix_String p = prefix_String q -> p = q.
Proof.
  intros Hp Hq Heq. apply (inj Some). by rewrite <- (network_parse p Hp), <- (network_parse q Hq), Heq.
Qed.

Lemma mesh_plain : plain meshSrcSubnet.
Proof. rewrite <- mesh_network_text. apply network_plain, mesh_is_network. Qed.

(** ** Commands on the tables *)

Section Commands.
Context {K : Type} `{runCommandFunc K} {view : K -> Tables} {norm : string -> string}
  `{HN : !Netfilter K view norm}.
Implicit Types t : Tables.
#[local] Abbreviation does := (does (view := view)).

Definition push (r : FwdRule) t : Tables := t <| t_forward := Own r :: t_forward t |>.

Lemma norm_mesh : norm meshSrcSubnet = meshSrcSubnet.
Proof. rewrite <- mesh_network_text. apply nf_norm_network, mesh_is_network. Qed.

(** A command made of tokens without spaces. *)
Lemma tokens_words l : l <> [] -> Forall (no_char " ") l -> words (strings_Join l " ") = l.
Proof. apply words_join. Qed.

Ltac plain_tokens :=
  repeat (apply Forall_cons; split; [first [by apply pl_space | by repeat split]|]); by apply Forall_nil.

Lemma does_peer_insert p t : is_network p ->
  does (modifyPeerTraffic p "-I" true true) t tt (push (peer_rule p) t).
Proof.
  intros Hp. pose proof (network_plain p Hp) as Hpl. apply does_command_or.
  change (words _) with (words (strings_Join ["-t"; "filter"; "-I"; "FORWARD"; "-s"; prefix_String p;
    "-j"; "ACCEPT"; "-m"; "comment"; "--comment"; transientFilterRuleComment] " ")).
  rewrite tokens_words by (done || plain_tokens). rewrite iptables_filter. apply insert_spec; [|done].
  cbn. by rewrite nf_norm_network.
Qed.

Lemma does_private_insert n t : is_network n ->
  does (modifyPeerTraffic n "-I" false false) t tt (push (private_block n) t).
Proof.
  intros Hp. pose proof (network_plain n Hp) as Hpl. apply does_command_or.
  change (words _) with (words (strings_Join ["-t"; "filter"; "-I"; "FORWARD"; "-s"; meshSrcSubnet;
    "-d"; prefix_String n; "-j"; "DROP"; "-m"; "comment"; "--comment"; transientFilterRuleComment] " ")).
  rewrite tokens_words by (done || plain_tokens). rewrite iptables_filter. apply insert_spec; [|done].
  cbn. by rewrite norm_mesh, nf_norm_network.
Qed.

Lemma does_physical_insert i t : plain i ->
  does (command_or "iptables inserting rule: "
         (words ("-t filter -I FORWARD -o " +:+ i +:+ " -j DROP -m comment --comment " +:+
                 transientFilterRuleComment))) t tt (push (physical_block i) t).
Proof.
  intros Hpl. apply does_command_or.
  change (words _) with (words (strings_Join ["-t"; "filter"; "-I"; "FORWARD"; "-o"; i;
    "-j"; "DROP"; "-m"; "comment"; "--comment"; transientFilterRuleComment] " ")).
  rewrite tokens_words by (done || plain_tokens). rewrite iptables_filter. by apply insert_spec.
Qed.

Lemma does_local_insert p n t : is_network p -> is_network n ->
  does (command_or "iptables modifying rule: "
         (words ("-t filter " +:+ "-I" +:+ " FORWARD -s " +:+ prefix_String p +:+ " -d " +:+
                 prefix_String n +:+ " -j ACCEPT -m comment --comment " +:+
                 transientFilterRuleComment))) t tt (push (local_rule p n) t).
Proof.
  intros Hp Hn. pose proof (network_plain p Hp). pose proof (network_plain n Hn). apply does_command_or.
  change (words _) with (words (strings_Join ["-t"; "filter"; "-I"; "FORWARD"; "-s"; prefix_String p;
    "-d"; prefix_String n; "-j"; "ACCEPT"; "-m"; "comment"; "--comment"; transientFilterRuleComment] " ")).
  rewrite tokens_words by (done || plain_tokens). rewrite iptables_filter. apply insert_spec; [|done].
  cbn. by rewrite !nf_norm_network.
Qed.

Definition push_all (rs : list FwdRule) t : Tables :=
  t <| t_forward := (Own <$> rs) ++ t_forward t |>.

Lemma push_all_nil t : push_all [] t = t.
Proof. by destruct t. Qed.

Lemma push_all_app r1 r2 t : push_all r1 (push_all r2 t) = push_all (r1 ++ r2) t.
Proof. destruct t. unfold push_all. cbn. by rewrite fmap_app, app_assoc. Qed.

Lemma push_one r t : push r t = push_all [r] t.
Proof. done. Qed.

(** A loop whose steps insert rules: the last ones end up on top. *)
Lemma does_inserts {A} (l : list A) (f : A -> M K unit) (rules : A -> list FwdRule) t :
  (forall x t0, x ∈ l -> does (f x) t0 tt (push_all (rules x) t0)) ->
  does (forM_ l f) t tt (push_all (reverse l ≫= rules) t).
Proof.
  revert t. induction l as [|x l IH]; intros t Hf; cbn [forM_].
  { rewrite push_all_nil. apply does_ret. }
  eapply does_bind; [apply Hf; by left|].
  rewrite reverse_cons, bind_app, <- push_all_app. cbn [mbind list_bind]. rewrite app_nil_r.
  apply IH. intros y t0 Hy. apply Hf. by right.
Qed.

Lemma does_local_access p t : is_network p ->
  does (allowLocalNetworkAccess p "-I") t tt (push_all (local_rule p <$> reverse private_subnets) t).
Proof.
  intros Hp. unfold allowLocalNetworkAccess.
  replace (local_rule p <$> reverse private_subnets)
    with (reverse private_subnets ≫= (fun n => [local_rule p n])) by done.
  apply does_inserts. intros n t0 Hn. rewrite <- push_one.
  apply does_local_insert; [done|by apply private_is_network].
Qed.

Lemma does_physical names t : Forall plain names ->
  does (blockPhysicalForwarding names) t tt (push_all (physical_block <$> reverse names) t).
Proof.
  intros Hn. unfold blockPhysicalForwarding.
  replace (physical_block <$> reverse names)
    with (reverse names ≫= (fun n => [physical_block n])) by (by induction (reverse names)).
  apply does_inserts. intros i t0 Hi. rewrite <- push_one.
  apply does_physical_insert. by eapply Forall_forall.
Qed.

(** Deleting a block that is not there reports a missing rule. *)
Lemma delete_private_missing n t k : is_network n -> Own (private_block n) ∉ t_forward t -> view k = t ->
  exists e k', modifyPeerTraffic n "-D" false false k = (Err e, k') /\ view k' = t /\
    str_contains (error_text e) missingRuleMessage = true.
Proof.
  intros Hn Hmiss Hk. pose proof (network_plain n Hn). unfold modifyPeerTraffic, command_or.
  change (words _) with (words (strings_Join ["-t"; "filter"; "-D"; "FORWARD"; "-s"; meshSrcSubnet;
    "-d"; prefix_String n; "-j"; "DROP"; "-m"; "comment"; "--comment"; transientFilterRuleComment] " ")).
  pose proof mesh_plain. rewrite tokens_words by (done || plain_tokens).
  destruct (does_command (HN := HN) ["-t"; "filter"; "-D"; "FORWARD"; "-s"; meshSrcSubnet;
    "-d"; prefix_String n; "-j"; "DROP"; "-m"; "comment"; "--comment"; transientFilterRuleComment] t k Hk)
    as (k' & Hrun & Hv).
  rewrite iptables_filter, (delete_spec _ (private_block n)) in Hrun, Hv
    by (cbn; by rewrite norm_mesh, nf_norm_network).
  unfold delete_entry in Hrun, Hv. rewrite decide_False in Hrun, Hv by done.
  unfold bind. rewrite Hrun. cbn [fst snd missing_rule].
  eexists _, k'. split; [reflexivity|]. split; [by rewrite Hv; destruct t|]. vm_compute. reflexivity.
Qed.

Lemma private_block_inj n m : is_network n -> is_network m -> private_block n = private_block m -> n = m.
Proof.
  intros Hn Hm Heq. apply (f_equal f_dst) in Heq. injection Heq as Heq. by apply network_text_inj.
Qed.

Lemma does_refresh t :
  (forall n, n ∈ private_subnets -> Own (private_block n) ∉ t_forward t) ->
  does refreshPrivateSubnetsBlock t tt (push_all (private_block <$> reverse private_subnets) t).
Proof.
  assert (forall l t, l ⊆ private_subnets -> NoDup l ->
    (forall n, n ∈ l -> Own (private_block n) ∉ t_forward t) ->
    does (forM_ l (fun subnet =>
      let! r := attempt (modifyPeerTraffic subnet "-D" false false) in
      match r with
      | Err e =>
          if negb (str_contains (error_text e) missingRuleMessage)
          then throw (Wrapf "deleting private subnets block: " e "")
          else ret tt
      | Ok _ => ret tt
      end ;;
      wrapped ("blocking traffic to '" +:+ prefix_String subnet +:+ "': ")
        (modifyPeerTraffic subnet "-I" false false) "")) t tt
      (push_all (private_block <$> reverse l) t)) as Hl.
  { induction l as [|n l IH]; intros t0 Hsub Hnd Hmiss; cbn [forM_].
    { rewrite push_all_nil. apply does_ret. }
    apply NoDup_cons in Hnd as [Hn Hnd].
    assert (n ∈ private_subnets) as Hin by (apply Hsub; by left).
    rewrite reverse_cons, fmap_app, <- push_all_app. eapply does_bind.
    - intros k Hk.
      destruct (delete_private_missing n t0 k) as (e & k1 & E1 & Hv1 & Hmsg);
        [by apply private_is_network|apply Hmiss; by left|done|].
      destruct (does_private_insert n t0 (private_is_network n Hin) k1 Hv1) as (k2 & E2 & Hv2).
      exists k2. split; [|exact Hv2]. unfold bind, attempt, wrapped. rewrite E1, Hmsg. cbn. by rewrite E2.
    - apply IH; [set_solver|done|]. intros m Hm. cbn [push t_forward]. intros Hc.
      apply elem_of_cons in Hc as [Hc|Hc].
      + assert (m = n) as ->; [|done].
        apply private_block_inj; [apply private_is_network; set_solver|by apply private_is_network|].
        by apply (inj Own).
      + revert Hc. apply Hmiss. by right. }
  intros Hmiss. apply Hl; [done| |done].
  apply (bool_decide_unpack _). vm_compute. exact I.
Qed.

(** *** Listings *)

Definition foreign (mark line : string) : Prop := no_newline line /\ str_contains line mark = false.

Definition wf_fwd (e : Entry FwdRule) : Prop :=
  match e with Own r => plain_rule norm r | Other line => foreign "nordvpn-exitnode" line end.

Definition wf_nat (e : Entry NatRule) : Prop :=
  match e with
  | Own r => exists p, is_network p /\ r = masquerade p
  | Other line => foreign "nordvpn" line
  end.

Definition wf_tables t : Prop :=
  Forall wf_fwd (t_forward t) /\ Forall wf_nat (t_nat t) /\
  Forall (foreign "nordvpn-exitnode") (t_rest t).

(** Whether a listed rule mentions one of the comments. *)
Lemma line_contains r x : plain_rule norm r -> no_char " " x ->
  str_contains (fwd_line (Own r)) ("nordvpn" +:+ x) = str_contains (f_comment r) ("nordvpn" +:+ x).
Proof.
  intros Hr Hx. set (p := "nordvpn" +:+ x).
  assert (no_char " " p) as Hp by (apply no_char_app; [by repeat split|done]).
  unfold fwd_line, entry_line. rewrite contains_join by done. cbn [existsb].
  change (str_contains "-A" p) with false. change (str_contains "FORWARD" p) with false. cbn [orb].
  destruct (str_contains (f_comment r) p) eqn:Hc.
  - apply existsb_exists. exists (f_comment r). split; [|done].
    unfold fwd_tokens. rewrite !in_app_iff. do 6 right. cbn. tauto.
  - apply not_true_iff_false. intros (y & Hin & Hy)%existsb_exists.
    assert (Forall (fun y => str_contains y p = false) (fwd_tokens r)) as Hall.
    { apply (tokens_Forall norm); [done| |done|rewrite !Forall_cons; by repeat split].
      intros s []. by apply contains_longer. }
    rewrite Forall_forall in Hall. rewrite Hall in Hy; [done|by apply list_elem_of_In].
Qed.

Lemma foreign_contains x line : foreign "nordvpn-exitnode" line ->
  str_contains line ("nordvpn-exitnode" +:+ x) = false.
Proof. intros [_ Hl]. by apply contains_longer. Qed.

Lemma rule_comment_no_newline c : c ∈ comments -> no_char newline c.
Proof. unfold comments. rewrite !elem_of_cons, elem_of_nil. intros [->|[->|[->|[]]]]; by repeat split. Qed.

Lemma fwd_line_no_newline e : wf_fwd e -> no_newline (fwd_line e).
Proof.
  destruct e as [r|line]; [|by intros []]. intros Hr. apply join_no_newline.
  constructor; [by repeat split|]. constructor; [by repeat split|].
  apply (tokens_Forall norm); [done|by intros s []|apply rule_comment_no_newline; by destruct Hr|].
  rewrite !Forall_cons. by repeat split.
Qed.

Lemma fwd_lines_split t : Forall wf_fwd (t_forward t) ->
  split_char newline (unlines ("-P FORWARD ACCEPT" :: map fwd_line (t_forward t))) =
  "-P FORWARD ACCEPT" :: map fwd_line (t_forward t) ++ [""].
Proof.
  intros Hw. rewrite split_unlines; [done|]. constructor; [by repeat split|].
  apply Forall_fmap. eapply Forall_impl; [exact Hw|]. apply fwd_line_no_newline.
Qed.

(** *** Clearing *)

Definition is_own {R} (e : Entry R) : bool := match e with Own _ => true | Other _ => false end.

Definition has_comment (cs : list string) (e : Entry FwdRule) : bool :=
  match e with Own r => bool_decide (f_comment r ∈ cs) | Other _ => false end.

Lemma does_skip {A} (f : A -> M K unit) x t : (forall k, f x k = (Ok tt, k)) -> does (forM_ [x] f) t tt t.
Proof. intros Hf k Hk. exists k. cbn. unfold bind. by rewrite Hf. Qed.

(** Deleting a listed rule. *)
Lemma does_delete_line r l t : plain_rule norm r -> Own r ∈ l ->
  iptables norm ("-D" :: "FORWARD" :: fwd_tokens r) (t <| t_forward := l |>) =
    (done_quietly, t <| t_forward := remove_first (Own r) l |>).
Proof.
  intros Hr Hin. rewrite iptables_default by done.
  rewrite (delete_spec _ r) by (apply read_tokens; by destruct Hr as [[] []]).
  unfold delete_entry. cbn [t_forward]. by rewrite decide_True.
Qed.

Lemma transient_line e : wf_fwd e ->
  str_contains (fwd_line e) transientFilterRuleComment = has_comment [transientFilterRuleComment] e.
Proof.
  destruct e as [r|line]; cbn [wf_fwd has_comment fwd_line entry_line]; intros He.
  - change transientFilterRuleComment with ("nordvpn" +:+ "-exitnode-transient") at 1.
    etrans; [apply (line_contains r "-exitnode-transient" He); by repeat split|].
    destruct He as [_ _ _ _ _ _ Hc _]. revert Hc. unfold comments.
    rewrite !elem_of_cons, elem_of_nil. by intros [->|[->|[->|[]]]].
  - by apply (foreign_contains "-transient").
Qed.

Lemma does_clear_forward t : Forall wf_fwd (t_forward t) ->
  does clearExitnodeForwardRules t tt
    (t <| t_forward := filter (fun e => has_comment [transientFilterRuleComment] e = false) (t_forward t) |>).
Proof.
  intros Hw. unfold clearExitnodeForwardRules. eapply does_bind; [apply does_command|].
  change (iptables norm ["-S"; "FORWARD"] t) with
    ((unlines ("-P FORWARD ACCEPT" :: map fwd_line (t_forward t)), @None error), t).
  cbn [fst snd]. rewrite fwd_lines_split by done.
  eapply (does_forM_app ["-P FORWARD ACCEPT"]); [by apply does_skip|].
  eapply does_forM_app; [|by apply does_skip].
  apply (does_from _ (t <| t_forward := [] ++ t_forward t |>)); [by destruct t|].
  apply (clear_loop fwd_line (has_comment [transientFilterRuleComment]) _
           (fun l => t <| t_forward := l |>) (t_forward t)); [| |by intros ? ?%elem_of_nil].
  - intros e t0 He Hc. rewrite Forall_forall in Hw. rewrite transient_line, Hc by auto. apply does_ret.
  - intros e l' He Hc Hin. rewrite Forall_forall in Hw. specialize (Hw e He).
    rewrite transient_line, Hc by auto. destruct e as [r|]; [|done]. cbn [negb].
    unfold fwd_line, entry_line. rewrite replaced_words by by apply (tokens_no_flag norm).
    eapply does_bind; [apply does_command|]. rewrite does_delete_line by done. apply does_ret.
Qed.

(** Everything but the allowlist rules. *)
Definition filtering : list string := [filterRuleComment; transientFilterRuleComment].

Lemma line_comment r :
  str_contains (fwd_line (Own r)) ("--comment " +:+ f_comment r) = true.
Proof.
  unfold fwd_line, entry_line, fwd_tokens. rewrite !app_assoc.
  match goal with |- context [?a ++ ["-m"; "comment"; "--comment"; _; "-j"; _]] => set (l := a) end.
  change ("-A" :: "FORWARD" :: l ++ ["-m"; "comment"; "--comment"; f_comment r; "-j"; f_target r]) with
    (("-A" :: "FORWARD" :: l) ++ "-m" :: ["comment"; "--comment"; f_comment r; "-j"; f_target r]).
  rewrite join_app by done.
  change (String " " (strings_Join ["-m"; "comment"; "--comment"; f_comment r; "-j"; f_target r] " ")) with
    (" -m comment " +:+ ("--comment " +:+ (f_comment r +:+ (" -j " +:+ f_target r)))).
  rewrite <- (string_app_assoc "--comment "). apply contains_suffix, contains_suffix, contains_self.
Qed.

(** The test of [clearFiltering] on a listed line. *)
Definition filter_line (line : string) : bool :=
  str_contains line "FORWARD" &&
  (str_contains line ("--comment " +:+ filterRuleComment) ||
   str_contains line ("--comment " +:+ transientFilterRuleComment)).

Lemma foreign_filter_line line : foreign "nordvpn-exitnode" line -> filter_line line = false.
Proof.
  intros Hl. unfold filter_line.
  rewrite (contains_after _ "--comment " filterRuleComment) by by apply (foreign_contains "-permanent").
  rewrite (contains_after _ "--comment " transientFilterRuleComment) by by apply (foreign_contains "-transient").
  apply andb_false_r.
Qed.

Lemma own_filter_line r : plain_rule norm r ->
  filter_line (fwd_line (Own r)) = has_comment filtering (Own r).
Proof.
  intros Hr. unfold filter_line.
  assert (str_contains (fwd_line (Own r)) "FORWARD" = true) as ->.
  { unfold fwd_line, entry_line. by rewrite contains_join by (done || by repeat split). }
  pose proof (pr_comment _ _ Hr) as Hc. unfold comments in Hc.
  rewrite !elem_of_cons, elem_of_nil in Hc. cbn [andb has_comment].
  pose proof (line_comment r) as Hl. destruct Hc as [Hc|[Hc|[Hc|[]]]]; rewrite Hc in *.
  - by rewrite Hl.
  - by rewrite Hl, orb_true_r.
  - rewrite !contains_after; [done|..].
    + etrans; [apply (line_contains r "-exitnode-transient" Hr); by repeat split|]. by rewrite Hc.
    + etrans; [apply (line_contains r "-exitnode-permanent" Hr); by repeat split|]. by rewrite Hc.
Qed.

Lemma does_clear_filtering t : wf_tables t ->
  does clearFiltering t tt
    (t <| t_forward := filter (fun e => has_comment filtering e = false) (t_forward t) |>).
Proof.
  intros (Hw & _ & Hrest). unfold clearFiltering. eapply does_bind; [apply does_command|].
  change (iptables norm ["-S"] t) with
    ((unlines (t_rest t ++ "-P FORWARD ACCEPT" :: map fwd_line (t_forward t)), @None error), t).
  cbn [fst snd]. rewrite split_unlines.
  2: { apply Forall_app. split; [eapply Forall_impl; [exact Hrest|by intros ? []]|].
       constructor; [by repeat split|]. apply Forall_fmap.
       eapply Forall_impl; [exact Hw|apply fwd_line_no_newline]. }
  rewrite <- app_assoc. set (body := fun line : string => _).
  assert (forall line, filter_line line = false -> forall k, body line k = (Ok tt, k)) as Hskip.
  { intros line Hl k. unfold body, filter_line in *. by destruct (str_contains line "FORWARD"), (_ || _). }
  eapply does_forM_app with t.
  { clear Hw. induction Hrest as [|l ls Hl _ IH]; [apply does_ret|].
    change (l :: ls) with ([l] ++ ls). eapply does_forM_app; [|exact IH].
    apply does_skip, Hskip, foreign_filter_line, Hl. }
  change (("-P FORWARD ACCEPT" :: ?l) ++ [""]) with (["-P FORWARD ACCEPT"] ++ l ++ [""]).
  eapply does_forM_app; [by apply does_skip|]. eapply does_forM_app; [|by apply does_skip].
  apply (does_from _ (t <| t_forward := [] ++ t_forward t |>)); [by destruct t|].
  apply (clear_loop fwd_line (has_comment filtering) body (fun l => t <| t_forward := l |>));
    [| |by intros ? ?%elem_of_nil].
  - intros e t0 He Hc k Hk. exists k. split; [|done]. rewrite Forall_forall in Hw. specialize (Hw e He).
    apply Hskip. destruct e; [by rewrite own_filter_line|by apply foreign_filter_line].
  - intros e l' He Hc Hin. rewrite Forall_forall in Hw. specialize (Hw e He). destruct e as [r|]; [|done].
    pose proof (own_filter_line r Hw) as Hl. rewrite Hc in Hl. unfold body, filter_line in *.
    apply andb_true_iff in Hl as [-> ->]. cbn [negb orb].
    unfold fwd_line, entry_line. rewrite replaced_words_space by by apply (tokens_no_flag norm).
    eapply does_bind; [apply does_command|]. rewrite does_delete_line by done. apply does_ret.
Qed.
End Commands.
