(* ===== verification/ExitnodeChains.v ===== *)
(** * ExitnodeChains: the chains after each step of the exit node

    The tables that [clearMasquerading], [enableMasquerading], [enableFiltering],
    [resetPeersTraffic] and the allowlist commands leave behind, as equations on
    the FORWARD and POSTROUTING chains. *)

From stdpp Require Import base option list strings gmap pretty.
From Stdlib Require Import ZArith Ascii Lia.
From S2P Require Import Prelude GoLib Kernel Mesh Config IPTables Exitnode ExitnodeTables ExitnodeSafety.
Set Warnings "-clear-no-such-hyp".

Open Scope Z_scope.
Open Scope go_scope.

(** The entries that are kept when the exit node's own are removed. *)
Definition others {R} (l : list (Entry R)) : list (Entry R) := filter (fun e => is_own e = false) l.

(** ** The rules of a reset *)

(** Peers that may route through this machine, below the blocks. *)
Definition routing_rules (peers : list TrafficPeer) (killswitch : bool) : list FwdRule :=
  reverse peers ≫= fun p =>
    if tp_Routing p && (negb (tp_LocalNetwork p) || killswitch) then [peer_rule (tp_IP p)] else [].

(** Peers that may reach the local network, above the blocks. *)
Definition local_rules (peers : list TrafficPeer) (killswitch : bool) : list FwdRule :=
  reverse peers ≫= fun p =>
    if tp_LocalNetwork p then
      if tp_Routing p && negb killswitch then [peer_rule (tp_IP p)]
      else local_rule (tp_IP p) <$> reverse private_subnets
    else [].

Definition blocks (names : list string) (killswitch : bool) : list FwdRule :=
  (if killswitch then physical_block <$> reverse names else []) ++
  (private_block <$> reverse private_subnets).

Definition transient_rules (peers : list TrafficPeer) (names : list string) (killswitch : bool) :
    list FwdRule :=
  local_rules peers killswitch ++ blocks names killswitch ++ routing_rules peers killswitch.

Definition masquerades (peers : list TrafficPeer) : list NatRule :=
  masquerade <$> (tp_IP <$> filter (fun p => tp_Routing p = true) peers).

(** ** Text of masquerading rules *)

Lemma masquerade_no_flag p : is_network p -> Forall no_flag ("POSTROUTING" :: nat_tokens (masquerade p)).
Proof.
  intros Hp%network_plain%plain_no_flag. unfold nat_tokens, masquerade. cbn [n_src n_notdst n_comment n_target].
  repeat (apply Forall_cons; split; [first [exact Hp|by repeat split]|]). by apply Forall_nil.
Qed.

Lemma masquerade_contains p : str_contains (nat_line (Own (masquerade p))) msqRuleComment = true.
Proof.
  unfold nat_line, entry_line. rewrite contains_join by (done || by repeat split).
  unfold nat_tokens, masquerade. cbn [n_src n_notdst n_comment n_target existsb].
  change (str_contains msqRuleComment msqRuleComment) with true. by rewrite !orb_true_r.
Qed.

Lemma masquerade_no_newline p : is_network p -> no_newline (nat_line (Own (masquerade p))).
Proof.
  intros Hp%network_plain. apply join_no_newline. unfold nat_tokens, masquerade.
  cbn [n_src n_notdst n_comment n_target].
  repeat (apply Forall_cons; split; [first [apply Hp|by repeat split]|]). by apply Forall_nil.
Qed.

Lemma digits_plain s : all_chars digit_char s = true -> plain s.
Proof.
  intros Hs. apply address_plain. induction s as [|c s IH]; [done|]. cbn [all_chars] in *.
  apply andb_true_iff in Hs as [Hc Hs]. rewrite IH by done. rewrite andb_true_r.
  revert Hc. unfold digit_char, address_char. by destruct (digit_val c).
Qed.

Section Chains.
Context {K : Type} `{runCommandFunc K} {view : K -> Tables} {norm : string -> string}
  `{HN : !Netfilter K view norm}.
Implicit Types t : Tables.
#[local] Abbreviation does := (does (view := view)).
#[local] Abbreviation wf_fwd := (wf_fwd (norm := norm)).
#[local] Abbreviation wf_tables := (wf_tables (norm := norm)).

(** ** Masquerading *)

Lemma read_masquerade p : is_network p ->
  read_nat norm empty_nat (nat_tokens (masquerade p)) = Some (masquerade p).
Proof. intros Hp. cbn. by rewrite norm_mesh, nf_norm_network. Qed.

Lemma does_enable_masquerading p t : is_network p ->
  does (enableMasquerading (prefix_String p)) t tt (t <| t_nat := t_nat t ++ [Own (masquerade p)] |>).
Proof.
  intros Hp. pose proof (network_plain p Hp) as Hpl. apply does_command_or.
  change (words _) with (words (strings_Join ["-t"; "nat"; "-A"; "POSTROUTING"; "-s"; prefix_String p;
    "!"; "-d"; meshSrcSubnet; "-j"; "MASQUERADE"; "-m"; "comment"; "--comment"; msqRuleComment] " ")).
  rewrite words_join; [|done|].
  2: { repeat (apply Forall_cons; split; [first [by apply pl_space|by repeat split]|]). by apply Forall_nil. }
  unfold iptables. cbn [strip String.eqb Ascii.eqb Bool.eqb]. unfold nat_command.
  cbn [strip String.eqb Ascii.eqb Bool.eqb]. cbn. by rewrite norm_mesh, nf_norm_network.
Qed.

Lemma delete_masquerade p l t : is_network p -> Own (masquerade p) ∈ l ->
  iptables norm (["-t"; "nat"] ++ "-D" :: "POSTROUTING" :: nat_tokens (masquerade p)) (t <| t_nat := l |>) =
    (done_quietly, t <| t_nat := remove_first (Own (masquerade p)) l |>).
Proof.
  intros Hp Hin.
  change (iptables norm _ ?t0) with (nat_command norm ("-D" :: "POSTROUTING" :: nat_tokens (masquerade p)) t0).
  unfold nat_command.
  change (strip ["-A"; "POSTROUTING"] ("-D" :: ?l)) with (@None (list string)).
  change (strip ["-D"; "POSTROUTING"] ("-D" :: "POSTROUTING" :: ?l)) with (Some l). cbv iota beta.
  rewrite read_masquerade by done. unfold delete_entry. cbn [t_nat]. by rewrite decide_True.
Qed.

Lemma does_clear_masquerading t : Forall wf_nat (t_nat t) ->
  does clearMasquerading t tt (t <| t_nat := others (t_nat t) |>).
Proof.
  intros Hw. unfold clearMasquerading. eapply does_bind; [apply does_command|].
  change (iptables norm _ t) with
    ((unlines ("-P POSTROUTING ACCEPT" :: map nat_line (t_nat t)), @None error), t).
  cbn [fst snd]. rewrite split_unlines.
  2: { constructor; [by repeat split|]. apply Forall_fmap. eapply Forall_impl; [exact Hw|].
       intros [r|line]; [intros (p & Hp & ->); by apply masquerade_no_newline|by intros []]. }
  change (("-P POSTROUTING ACCEPT" :: ?l) ++ [""]) with (["-P POSTROUTING ACCEPT"] ++ l ++ [""]).
  eapply does_forM_app; [by apply does_skip|]. eapply does_forM_app; [|by apply does_skip].
  apply (does_from _ (t <| t_nat := [] ++ t_nat t |>)); [by destruct t|]. rewrite Forall_forall in Hw.
  apply (clear_loop nat_line is_own _ (fun l => t <| t_nat := l |>) (t_nat t)); [| |by intros ? ?%elem_of_nil].
  - intros e t0 He Hc. destruct e as [|line]; [done|]. destruct (Hw _ He) as [_ Hl]. cbn [nat_line entry_line].
    unfold msqRuleComment. rewrite Hl. apply does_ret.
  - intros e l' He Hc Hin. destruct e as [r|]; [|done]. destruct (Hw _ He) as (p & Hp & ->).
    rewrite masquerade_contains. cbn [negb]. unfold nat_line, entry_line.
    rewrite replaced_words by by apply masquerade_no_flag.
    eapply does_bind; [apply does_command|]. rewrite delete_masquerade by done. apply does_ret.
Qed.

Lemma does_masquerades peers t : Forall (fun p => is_network (tp_IP p)) peers ->
  does (forM_ peers (fun peer =>
      when (tp_Routing peer)
        (wrapped "enabling masquerading for peer: " (enableMasquerading (prefix_String (tp_IP peer))) "")))
    t tt (t <| t_nat := t_nat t ++ (Own <$> masquerades peers) |>).
Proof.
  revert t. induction peers as [|p peers IH]; intros t Hp; cbn [forM_].
  { unfold masquerades. cbn. rewrite app_nil_r. destruct t. apply does_ret. }
  apply Forall_cons in Hp as [Hp Hps]. unfold masquerades. rewrite filter_cons.
  destruct (tp_Routing p) eqn:Hr; cbn [when].
  - rewrite decide_True by done. eapply does_bind; [by apply does_wrapped, does_enable_masquerading|].
    intros k Hk. destruct (IH _ Hps k Hk) as (k' & E & Hv). exists k'. split; [exact E|].
    etrans; [exact Hv|]. cbn. by rewrite <- app_assoc.
  - rewrite decide_False by congruence. eapply does_bind; [apply does_ret|]. exact (IH _ Hps).
Qed.

(** ** Resetting the traffic of the peers *)

Definition after_reset (peers : list TrafficPeer) (names : list string) (killswitch : bool) t : Tables :=
  t <| t_forward := (Own <$> transient_rules peers names killswitch) ++
         filter (fun e => has_comment [transientFilterRuleComment] e = false) (t_forward t) |>
    <| t_nat := others (t_nat t) ++ (Own <$> masquerades peers) |>.

Lemma does_optional (b : bool) m rules t :
  (b = true -> does m t tt (push_all rules t)) ->
  does (when b m) t tt (push_all (if b then rules else []) t).
Proof. intros Hm. destruct b; cbn [when]; [by apply Hm|]. rewrite push_all_nil. apply does_ret. Qed.

Lemma does_routing peers killswitch t : Forall (fun p => is_network (tp_IP p)) peers ->
  does (forM_ peers (fun peer =>
      when (tp_Routing peer && (negb (tp_LocalNetwork peer) || killswitch))
        (wrapped ("adding rule while resetting peers traffic for peer " +:+ peer_text peer +:+ ": ")
           (modifyPeerTraffic (tp_IP peer) "-I" true true) "")))
    t tt (push_all (routing_rules peers killswitch) t).
Proof.
  intros Hp. rewrite Forall_forall in Hp. apply does_inserts. intros p t0 Hin. apply does_optional.
  intros _. rewrite <- push_one. apply does_wrapped, does_peer_insert. auto.
Qed.

Lemma does_local peers killswitch t : Forall (fun p => is_network (tp_IP p)) peers ->
  does (forM_ peers (fun peer =>
      when (tp_LocalNetwork peer)
        (if tp_Routing peer && negb killswitch then
           wrapped ("adding rule while resetting peers traffic for peer " +:+ peer_text peer +:+ ": ")
             (modifyPeerTraffic (tp_IP peer) "-I" true true) ""
         else
           wrapped ("adding rules to access local network while resetting peers traffic " +:+
                    peer_text peer +:+ ": ")
             (allowLocalNetworkAccess (tp_IP peer) "-I") "")))
    t tt (push_all (local_rules peers killswitch) t).
Proof.
  intros Hp. rewrite Forall_forall in Hp. apply does_inserts. intros p t0 Hin. apply does_optional.
  intros _. destruct (tp_Routing p && negb killswitch); apply does_wrapped.
  - rewrite <- push_one. apply does_peer_insert. auto.
  - apply does_local_access. auto.
Qed.

Lemma cleared_no_transient (l : list (Entry FwdRule)) (r : FwdRule) : f_comment r = transientFilterRuleComment ->
  Own r ∉ filter (fun e => has_comment [transientFilterRuleComment] e = false) l.
Proof.
  intros Hr [Hc _]%list_elem_of_filter. cbn in Hc. apply bool_decide_eq_false in Hc. apply Hc.
  rewrite Hr. by left.
Qed.

Lemma routing_comment peers killswitch r :
  r ∈ routing_rules peers killswitch -> f_dst r = None.
Proof.
  unfold routing_rules. intros (p & Hr & _)%list_elem_of_bind.
  destruct (tp_Routing p && _); [|by apply elem_of_nil in Hr].
  by apply list_elem_of_singleton in Hr as ->.
Qed.

(** The whole of [resetPeersTraffic]. *)
Lemma does_resetPeersTraffic peers names killswitch t :
  Forall (fun p => is_network (tp_IP p)) peers -> Forall plain names -> wf_tables t ->
  does (resetPeersTraffic peers names killswitch) t tt (after_reset peers names killswitch t).
Proof.
  intros Hp Hn (Hf & Hnat & _). unfold resetPeersTraffic.
  eapply does_bind; [by apply does_wrapped, does_clear_masquerading|].
  eapply does_bind; [by apply does_wrapped, does_clear_forward|].
  eapply does_bind; [by apply does_routing|].
  eapply does_bind.
  { apply does_wrapped, does_refresh. intros n Hin Hc.
    cbn [push_all t_forward] in Hc. apply elem_of_app in Hc as [Hc|Hc].
    - apply list_elem_of_fmap in Hc as (r & [= <-] & Hr%routing_comment). done.
    - revert Hc. by apply cleared_no_transient. }
  eapply does_bind.
  { apply does_optional. intros _. by apply does_wrapped, does_physical. }
  eapply does_bind; [by apply does_local|]. rewrite !push_all_app.
  eapply does_to; [|by apply does_masquerades].
  unfold after_reset, transient_rules, blocks, push_all. destruct t. cbn.
  rewrite <- !app_assoc. reflexivity.
Qed.

(** ** Enabling the filtering *)

Lemma plain_default d o : plain d -> plain_opt o -> plain (default d o).
Proof. by destruct o. Qed.

Lemma word_plain s : all_chars (fun c => negb (Ascii.eqb c " ") && negb (Ascii.eqb c newline)) s = true ->
  str_contains s "-A" = false -> str_contains s "nordvpn" = false -> plain s.
Proof.
  intros Hs HA Hn.
  split; [by eapply (all_chars_no_char _ _ _ _ Hs)|by eapply (all_chars_no_char _ _ _ _ Hs)|done|done].
  Unshelve. all: done.
Qed.

Lemma verbose_contains r x : plain_rule norm r -> no_char " " x ->
  str_contains (verbose_line (Own r)) ("nordvpn" +:+ x) = str_contains (f_comment r) ("nordvpn" +:+ x).
Proof.
  intros [[Hs _] [Hd _] Ho Hpr _ _ _ Ht] Hx.
  assert (forall s, plain s -> str_contains s ("nordvpn" +:+ x) = false) as Hno
    by (intros s []; by apply contains_longer).
  unfold verbose_line. rewrite contains_join by (done || (apply no_char_app; [by repeat split|done])).
  cbn [existsb]. rewrite (Hno _ Ht).
  rewrite (Hno (default "all" (f_proto r))) by (apply plain_default; [by apply word_plain|done]).
  rewrite (Hno (default "*" (f_out r))) by (apply plain_default; [by apply word_plain|done]).
  rewrite (Hno (default "0.0.0.0/0" (f_src r))) by (apply plain_default; [by apply word_plain|done]).
  rewrite (Hno (default "0.0.0.0/0" (f_dst r))) by (apply plain_default; [by apply word_plain|done]).
  rewrite !(Hno "0"), (Hno "--"), (Hno "*"), (Hno "/*"), (Hno "*/") by by apply word_plain.
  by rewrite !orb_false_r.
Qed.

Lemma verbose_filter e : wf_fwd e -> isNordvpnExitnodeRule (verbose_line e) = has_comment filtering e.
Proof.
  unfold isNordvpnExitnodeRule. destruct e as [r|line]; intros He.
  - change filterRuleComment with ("nordvpn" +:+ "-exitnode-permanent").
    change transientFilterRuleComment with ("nordvpn" +:+ "-exitnode-transient") at 1.
    rewrite (verbose_contains r "-exitnode-permanent" He) by by repeat split.
    rewrite (verbose_contains r "-exitnode-transient" He) by by repeat split.
    destruct He as [_ _ _ _ _ _ Hc _]. revert Hc. unfold comments. cbn [has_comment].
    rewrite !elem_of_cons, elem_of_nil. by intros [->|[->|[->|[]]]].
  - cbn [verbose_line has_comment].
    change filterRuleComment with ("nordvpn-exitnode" +:+ "-permanent").
    change transientFilterRuleComment with ("nordvpn-exitnode" +:+ "-transient").
    by rewrite (foreign_contains "-permanent" line He), (foreign_contains "-transient" line He).
Qed.

Definition mesh_check (line : string) : bool :=
  negb (bool_decide (line = "")) && ruleContainsAllIPs line [meshSrcSubnet] && isNordvpnExitnodeRule line.

Definition filter_header : list string :=
  ["Chain FORWARD (policy ACCEPT 0 packets, 0 bytes)";
   " pkts bytes target prot opt in out source destination"].

Lemma verbose_no_newline e : wf_fwd e -> no_newline (verbose_line e).
Proof.
  destruct e as [r|line]; [|by intros []]. intros [[Hs _] [Hd _] Ho Hpr _ _ Hc Ht].
  apply join_no_newline. rewrite !Forall_cons.
  repeat split; try (by repeat split); try apply Ht;
    try (apply pl_newline, plain_default; [by apply word_plain|done]).
  by apply rule_comment_no_newline.
Qed.

Lemma does_check t : Forall wf_fwd (t_forward t) ->
  does (checkFilteringRule meshSrcSubnet) t
    (existsb (fun e => mesh_check (verbose_line e)) (t_forward t)) t.
Proof.
  intros Hw. unfold checkFilteringRule, checkFilteringRulesLine. eapply does_bind.
  { eapply does_bind; [apply does_command|].
    change (iptables norm _ t) with
      ((unlines (filter_header ++ map verbose_line (t_forward t)), @None error), t).
    cbn [fst snd]. apply does_ret. }
  rewrite split_unlines.
  2: { apply Forall_app. split; [repeat constructor; by repeat split|]. apply Forall_fmap.
       eapply Forall_impl; [exact Hw|apply verbose_no_newline]. }
  replace (existsb _ _) with
    (match index_func mesh_check ((filter_header ++ map verbose_line (t_forward t)) ++ [""]) with
     | Some _ => true | None => false end); [apply does_ret|].
  destruct (index_func _ _) as [i|] eqn:Hi.
  - apply index_func_Some in Hi as (line & Hl & Hm). symmetry. apply existsb_exists.
    apply list_elem_of_lookup_2 in Hl. rewrite !elem_of_app, !list_elem_of_singleton in Hl.
    destruct Hl as [[Hl|Hl]|Hl].
    + exfalso. revert Hl. unfold filter_header. rewrite !elem_of_cons, elem_of_nil.
      intros [->|[->|[]]]; vm_compute in Hm; congruence.
    + apply list_elem_of_fmap in Hl as (e & -> & He). exists e. by rewrite <- list_elem_of_In.
    + subst. vm_compute in Hm. congruence.
  - symmetry. apply not_true_iff_false. intros (e & He & Hm)%existsb_exists.
    rewrite (proj1 (index_func_None _ _) Hi) in Hm; [done|].
    rewrite !elem_of_app. left. right. apply list_elem_of_fmap. exists e. by rewrite list_elem_of_In.
Qed.

(** A rule of the exit node that names the meshnet subnet. *)
Definition names_mesh (e : Entry FwdRule) : bool :=
  match e with
  | Own r => bool_decide (f_comment r ∈ filtering) &&
             (bool_decide (f_src r = mesh_text) || bool_decide (f_dst r = mesh_text))
  | Other _ => false
  end.

Lemma verbose_mesh e : wf_fwd e -> names_mesh e = true -> mesh_check (verbose_line e) = true.
Proof.
  intros He. destruct e as [r|]; [|done]. cbn [names_mesh]. intros [Hc Hm]%andb_true_iff.
  unfold mesh_check. rewrite (verbose_filter _ He). cbn [has_comment]. rewrite Hc, andb_true_r.
  assert (str_contains (verbose_line (Own r)) meshSrcSubnet = true) as Hin.
  { unfold verbose_line. rewrite contains_join by (done || by repeat split).
    apply existsb_exists. exists meshSrcSubnet. split; [|by vm_compute].
    rewrite orb_true_iff, !bool_decide_eq_true in Hm. cbn. destruct Hm as [-> | ->]; tauto. }
  apply andb_true_iff. split; [|by cbn; rewrite andb_true_r].
  apply negb_true_iff, bool_decide_eq_false. intros Heq. by rewrite Heq in Hin.
Qed.

Lemma verbose_unmarked e : wf_fwd e -> has_comment filtering e = false -> mesh_check (verbose_line e) = false.
Proof. intros He Hc. unfold mesh_check. rewrite verbose_filter, Hc by done. apply andb_false_r. Qed.

Lemma does_insert_mesh flag r t :
  read_fwd norm empty_fwd [flag; meshSrcSubnet; "-j"; "DROP"; "-m"; "comment"; "--comment"; filterRuleComment]
    = Some r -> no_char " " flag ->
  does (command_or "iptables inserting rule: "
         (words ("-t filter -I FORWARD 1 " +:+ flag +:+ " " +:+ meshSrcSubnet +:+
                 " -j DROP -m comment --comment " +:+ filterRuleComment))) t tt (push r t).
Proof.
  intros Hr Hflag. apply does_command_or.
  change (words _) with (words (strings_Join ["-t"; "filter"; "-I"; "FORWARD"; "1"; flag; meshSrcSubnet;
    "-j"; "DROP"; "-m"; "comment"; "--comment"; filterRuleComment] " ")).
  rewrite words_join; [|done|].
  2: { repeat (apply Forall_cons; split; [first [exact Hflag|by repeat split]|]). by apply Forall_nil. }
  rewrite iptables_filter. by apply insert_first.
Qed.

Definition filtering_found t : bool := existsb (fun e => mesh_check (verbose_line e)) (t_forward t).

(** The three permanent rules are put on top, unless a rule is found. *)
Lemma does_enable t : Forall wf_fwd (t_forward t) ->
  does enableFiltering t tt (if filtering_found t then t else push_all permanent_rules t).
Proof.
  intros Hw. unfold enableFiltering. eapply does_bind; [by apply does_check|].
  change (existsb _ _) with (filtering_found t). destruct (filtering_found t); [apply does_ret|].
  eapply does_bind.
  { eapply does_bind; [apply (does_insert_mesh "-s" from_mesh_drop); [cbn; by rewrite norm_mesh|by repeat split]|].
    eapply does_bind; [apply (does_insert_mesh "-d" to_mesh_drop); [cbn; by rewrite norm_mesh|by repeat split]|].
    apply does_ret. }
  apply does_command_or. etrans; [apply (insert_first (norm := norm)
    ["-d"; meshSrcSubnet; "-m"; "conntrack"; "--ctstate"; "RELATED,ESTABLISHED"; "-j"; "ACCEPT"; "-m";
     "comment"; "--comment"; filterRuleComment] established_accept); cbn; by rewrite norm_mesh|].
  by destruct t.
Qed.

(** A rule of the exit node that names the meshnet subnet is found. *)
Lemma filtering_found_named t : Forall wf_fwd (t_forward t) -> existsb names_mesh (t_forward t) = true ->
  filtering_found t = true.
Proof.
  intros Hw (e & He & Hm)%existsb_exists.
  apply existsb_exists. exists e. split; [done|]. apply verbose_mesh; [|done].
  rewrite Forall_forall in Hw. by apply Hw, list_elem_of_In.
Qed.

Lemma filtering_found_clean t : Forall wf_fwd (t_forward t) ->
  Forall (fun e => has_comment filtering e = false) (t_forward t) -> filtering_found t = false.
Proof.
  intros Hw Hno. apply not_true_iff_false. intros (e & He & Hm)%existsb_exists. rewrite Forall_forall in Hw, Hno.
  apply list_elem_of_In in He. rewrite verbose_unmarked in Hm by auto. done.
Qed.

(** ** The allowlist *)

(** The rule of [allowlist_command]. *)
Definition allow_rule (destination portType : string) (peer : MachinePeer) : option FwdRule :=
  match allowlist_command true destination portType peer with
  | None => None
  | Some _ =>
      Some (if bool_decide (portType = "")
            then mkFwdRule (Some (norm (addr_String (p_Address peer)))) (Some (norm destination)) None None
                   None None meshAllowlistRuleComment "ACCEPT"
            else mkFwdRule (Some (norm (addr_String (p_Address peer)))) None None (Some portType)
                   (Some destination) None meshAllowlistRuleComment "ACCEPT")
  end.

Definition allow_rules (peers : list MachinePeer) (destination portType : string) : list FwdRule :=
  omap (allow_rule destination portType) peers.

Definition is_local_subnet (subnet : string) : bool :=
  match ParsePrefix subnet with
  | Some p => addr_IsPrivate (pfx_addr p) || addr_IsLinkLocalUnicast (pfx_addr p)
  | None => false
  end.

Definition port_rules (peers : list MachinePeer) (name : string) (ports : PortSet) : list FwdRule :=
  allowlist_ranges ports ≫= fun r => allow_rules peers (destination_text r) name.

(** The rules of an allowlist whose subnets are visited in the order [subnets]. *)
Definition allowlist_rules (subnets : list string) (al : Allowlist) (peers : list MachinePeer) :
    list FwdRule :=
  (subnets ≫= fun s => if is_local_subnet s then allow_rules peers s "" else []) ++
  port_rules peers "tcp" (ports_TCP (al_Ports al)) ++ port_rules peers "udp" (ports_UDP (al_Ports al)).

Lemma allow_command_spec op destination portType peer cmd :
  allowlist_command op destination portType peer = Some cmd ->
  exists spec r, cmd = (if op then "-I" else "-D") :: "FORWARD" :: "-s" :: spec /\
    read_fwd norm empty_fwd ("-s" :: spec) = Some r /\ allow_rule destination portType peer = Some r.
Proof.
  unfold allow_rule, allowlist_command.
  destruct (negb (p_DoIAllowLocalNetwork peer) || _); [done|].
  destruct (negb (bool_decide (portType = "")) && _); [done|]. intros [= <-].
  case_bool_decide; eexists _, _; repeat split.
Qed.

Lemma allow_command_None op destination portType peer :
  allowlist_command op destination portType peer = None -> allow_rule destination portType peer = None.
Proof.
  unfold allow_rule, allowlist_command. destruct (negb (p_DoIAllowLocalNetwork peer) || _); [done|].
  by destruct (negb (bool_decide (portType = "")) && _).
Qed.

(** Adding puts the rules on top, the last one first. *)
Lemma does_allow_add peers destination portType t :
  does (allowlistRuleToFirewall peers true destination portType) t tt
    (push_all (reverse (allow_rules peers destination portType)) t).
Proof.
  replace (reverse (allow_rules peers destination portType)) with
    (reverse peers ≫= fun p => option_list (allow_rule destination portType p)).
  2: { unfold allow_rules. induction peers as [|p peers IH]; [done|]. rewrite reverse_cons, bind_app, IH.
       cbn [mbind list_bind omap list_omap]. rewrite app_nil_r.
       destruct (allow_rule _ _ p); cbn [option_list option_rect]; [by rewrite reverse_cons|by rewrite app_nil_r]. }
  apply does_inserts. intros p t0 _.
  destruct (allowlist_command true destination portType p) as [cmd|] eqn:Hc.
  - destruct (allow_command_spec _ _ _ _ _ Hc) as (spec & r & -> & Hr & ->). cbn [option_list option_rect].
    rewrite <- push_one. eapply does_bind; [apply does_command|].
    rewrite iptables_default, (insert_spec _ r) by done. apply does_ret.
  - rewrite (allow_command_None _ _ _ _ Hc). cbn [option_list option_rect]. rewrite push_all_nil. apply does_ret.
Qed.

Definition drop_all (rs : list FwdRule) t : Tables :=
  t <| t_forward := foldl (fun l r => remove_first (Own r) l) (t_forward t) rs |>.

Lemma drop_all_nil t : drop_all [] t = t.
Proof. by destruct t. Qed.

Lemma drop_all_app r1 r2 t : drop_all r2 (drop_all r1 t) = drop_all (r1 ++ r2) t.
Proof. destruct t. unfold drop_all. cbn. by rewrite foldl_app. Qed.

Lemma does_drops {A} (l : list A) (f : A -> M K unit) (rules : A -> list FwdRule) t :
  (forall x t0, x ∈ l -> does (f x) t0 tt (drop_all (rules x) t0)) ->
  does (forM_ l f) t tt (drop_all (l ≫= rules) t).
Proof.
  revert t. induction l as [|x l IH]; intros t Hf; cbn [forM_].
  { rewrite drop_all_nil. apply does_ret. }
  eapply does_bind; [apply Hf; by left|]. cbn [mbind list_bind]. rewrite <- drop_all_app.
  apply IH. intros y t0 Hy. apply Hf. by right.
Qed.

Lemma remove_first_absent {A} `{EqDecision A} (x : A) l : x ∉ l -> remove_first x l = l.
Proof.
  induction l as [|y l IH]; [done|]. rewrite not_elem_of_cons. intros [Hne Hl]. cbn.
  rewrite decide_False by congruence. by rewrite IH.
Qed.

(** Removing takes one copy of each rule away; missing ones are passed over. *)
Lemma does_allow_remove peers destination portType t :
  does (allowlistRuleToFirewall peers false destination portType) t tt
    (drop_all (allow_rules peers destination portType) t).
Proof.
  replace (allow_rules peers destination portType) with
    (peers ≫= fun p => option_list (allow_rule destination portType p)).
  2: { unfold allow_rules. induction peers as [|p peers IH]; [done|]. cbn. rewrite IH.
       by destruct (allow_rule _ _ p). }
  apply does_drops. intros p t0 _.
  destruct (allowlist_command false destination portType p) as [cmd|] eqn:Hc.
  - destruct (allow_command_spec _ _ _ _ _ Hc) as (spec & r & -> & Hr & ->). cbn [option_list option_rect].
    eapply does_bind; [apply does_command|].
    rewrite iptables_default, (delete_spec _ r) by done. unfold drop_all, delete_entry. cbn [foldl].
    destruct (decide (Own r ∈ t_forward t0)); cbn [fst snd done_quietly missing_rule].
    + apply does_ret.
    + rewrite remove_first_absent by done. apply does_ret.
  - rewrite (allow_command_None _ _ _ _ Hc). cbn [option_list option_rect]. rewrite drop_all_nil. apply does_ret.
Qed.

Lemma reverse_bind {A B} (f : A -> list B) l : (reverse l ≫= fun x => reverse (f x)) = reverse (l ≫= f).
Proof.
  induction l as [|x l IH]; [done|]. rewrite reverse_cons, bind_app, IH. cbn [mbind list_bind].
  by rewrite app_nil_r, reverse_app.
Qed.

(** The commands of [allowlistToFirewall] for a given order of the subnets. *)
Definition allowlist_body (al : Allowlist) (peers : list MachinePeer) (op : bool) (subnets : list string) :
    M K unit :=
  forM_ subnets (fun subnet =>
    match ParsePrefix subnet with
    | None => throw (Wrapf "failed to parse subnet: " (Errorf "netip.ParsePrefix") "")
    | Some parsed =>
        if negb (addr_IsPrivate (pfx_addr parsed)) && negb (addr_IsLinkLocalUnicast (pfx_addr parsed))
        then ret tt
        else
          let! r := attempt (allowlistRuleToFirewall peers op subnet "") in
          match r with
          | Err e => if op then throw (Wrapf "adding allowlist rule to firewall: " e "") else ret tt
          | Ok _ => ret tt
          end
    end) ;;
  allowlist_ports_to peers op "tcp" (ports_TCP (al_Ports al)) ;;
  allowlist_ports_to peers op "udp" (ports_UDP (al_Ports al)).

Lemma allowlistToFirewall_body al peers op k :
  allowlistToFirewall al peers op k = allowlist_body al peers op (range_keys (al_Subnets al) k) k.
Proof. done. Qed.

Lemma does_attempt {A} (m : M K A) t a t' : does m t a t' -> does (attempt m) t (Ok a) t'.
Proof. intros Hm k Hk. destruct (Hm k Hk) as (k' & E & Hv). exists k'. unfold attempt. by rewrite E. Qed.

(** A subnet of the allowlist, whichever the operation does to the tables. *)
Lemma does_subnet peers op subnet (act : list FwdRule -> Tables -> Tables) t :
  is_Some (ParsePrefix subnet) -> act [] t = t ->
  does (allowlistRuleToFirewall peers op subnet "") t tt (act (allow_rules peers subnet "") t) ->
  does (match ParsePrefix subnet with
    | None => throw (Wrapf "failed to parse subnet: " (Errorf "netip.ParsePrefix") "")
    | Some parsed =>
        if negb (addr_IsPrivate (pfx_addr parsed)) && negb (addr_IsLinkLocalUnicast (pfx_addr parsed))
        then ret tt
        else
          let! r := attempt (allowlistRuleToFirewall peers op subnet "") in
          match r with
          | Err e => if op then throw (Wrapf "adding allowlist rule to firewall: " e "") else ret tt
          | Ok _ => ret tt
          end
    end) t tt (act (if is_local_subnet subnet then allow_rules peers subnet "" else []) t).
Proof.
  intros [parsed Hp] Hnil Hm. unfold is_local_subnet. rewrite Hp. rewrite <- negb_orb.
  destruct (addr_IsPrivate _ || _); cbn [negb].
  - eapply does_bind; [by apply does_attempt|]. apply does_ret.
  - rewrite Hnil. apply does_ret.
Qed.

Lemma does_ports_add peers name ports t :
  does (allowlist_ports_to peers true name ports) t tt (push_all (reverse (port_rules peers name ports)) t).
Proof.
  unfold allowlist_ports_to, port_rules. rewrite <- reverse_bind. apply does_inserts.
  intros r t0 _. apply does_wrapped, does_allow_add.
Qed.

Lemma does_ports_remove peers name ports t :
  does (allowlist_ports_to peers false name ports) t tt (drop_all (port_rules peers name ports) t).
Proof. apply does_drops. intros r t0 _. apply does_wrapped, does_allow_remove. Qed.

Lemma does_body_add al peers subnets t : Forall (fun s => is_Some (ParsePrefix s)) subnets ->
  does (allowlist_body al peers true subnets) t tt
    (push_all (reverse (allowlist_rules subnets al peers)) t).
Proof.
  intros Hs. rewrite Forall_forall in Hs. unfold allowlist_body, allowlist_rules.
  rewrite !reverse_app, <- app_assoc, <- !push_all_app.
  eapply does_bind; [|eapply does_bind; apply does_ports_add].
  rewrite <- reverse_bind. apply does_inserts. intros s t0 Hin.
  apply (does_subnet peers true s (fun rs => push_all (reverse rs)));
    [by apply Hs|apply push_all_nil|apply does_allow_add].
Qed.

Lemma does_body_remove al peers subnets t : Forall (fun s => is_Some (ParsePrefix s)) subnets ->
  does (allowlist_body al peers false subnets) t tt (drop_all (allowlist_rules subnets al peers) t).
Proof.
  intros Hs. rewrite Forall_forall in Hs. unfold allowlist_body, allowlist_rules.
  rewrite <- !drop_all_app. eapply does_bind; [|eapply does_bind; apply does_ports_remove].
  apply does_drops. intros s t0 Hin.
  apply (does_subnet peers false s drop_all); [by apply Hs|apply drop_all_nil|apply does_allow_remove].
Qed.

Definition subnets_parse (al : Allowlist) : Prop :=
  forall s, s ∈ (map_to_list (al_Subnets al)).*1 -> is_Some (ParsePrefix s).

(** The rules of an allowlist, in some order of its subnets. *)
Definition rules_of (al : Allowlist) (peers : list MachinePeer) : list FwdRule :=
  allowlist_rules (map_to_list (al_Subnets al)).*1 al peers.

Lemma allowlist_rules_perm ks al peers :
  ks ≡ₚ (map_to_list (al_Subnets al)).*1 -> allowlist_rules ks al peers ≡ₚ rules_of al peers.
Proof. intros Hk. unfold rules_of, allowlist_rules. by rewrite Hk. Qed.

(** *** Removing what was added *)

Definition is_allow : Entry FwdRule -> bool := has_comment [meshAllowlistRuleComment].
Definition without_allow (l : list (Entry FwdRule)) : list (Entry FwdRule) :=
  filter (fun e => is_allow e = false) l.
Definition allow_part (l : list (Entry FwdRule)) : list (Entry FwdRule) :=
  filter (fun e => is_allow e = true) l.

Lemma without_allow_none l : allow_part l = [] -> without_allow l = l.
Proof.
  unfold allow_part, without_allow. induction l as [|e l IH]; [done|]. rewrite !filter_cons.
  destruct (is_allow e); rewrite ?decide_True, ?decide_False by done; [done|]. intros Hl. by rewrite IH.
Qed.

Lemma allow_part_remove r l : is_allow (Own r) = true -> Own r ∈ l ->
  allow_part l ≡ₚ Own r :: allow_part (remove_first (Own r) l) /\
  without_allow (remove_first (Own r) l) = without_allow l.
Proof.
  intros Hr (l1 & l2 & -> & Hn)%list_elem_of_split_l. rewrite remove_first_middle by done.
  unfold allow_part, without_allow. rewrite !filter_app, !filter_cons.
  rewrite decide_True, decide_False by congruence. by rewrite Permutation_middle.
Qed.

Lemma allow_rule_comment destination portType peer r :
  allow_rule destination portType peer = Some r -> f_comment r = meshAllowlistRuleComment.
Proof.
  unfold allow_rule. destruct (allowlist_command _ _ _ _); [|done]. intros [= <-]. by case_bool_decide.
Qed.

Definition all_allow (rs : list FwdRule) : Prop := Forall (fun r => is_allow (Own r) = true) rs.

Lemma allow_rules_allow peers destination portType : all_allow (allow_rules peers destination portType).
Proof.
  apply Forall_forall. intros r (p & _ & Hr)%list_elem_of_omap. unfold is_allow, has_comment.
  apply bool_decide_eq_true. rewrite (allow_rule_comment _ _ _ _ Hr). by left.
Qed.

Lemma allowlist_rules_allow ks al peers : all_allow (allowlist_rules ks al peers).
Proof.
  assert (forall A (f : A -> list FwdRule) l, (forall x, all_allow (f x)) -> all_allow (l ≫= f)) as Hb.
  { intros A f l Hf. induction l as [|x l IH]; [by constructor|]. apply Forall_app. split; [apply Hf|exact IH]. }
  unfold allowlist_rules. unfold all_allow. rewrite !Forall_app.
  split; [|split; apply Hb; intros; apply allow_rules_allow].
  apply Hb. intros x. destruct (is_local_subnet x); [apply allow_rules_allow|by constructor].
Qed.

(** All of them were there. *)
Lemma drop_present rs l : all_allow rs -> allow_part l ≡ₚ Own <$> rs ->
  foldl (fun l r => remove_first (Own r) l) l rs = without_allow l.
Proof.
  revert l. induction rs as [|r rs IH]; intros l Ha Hl; cbn [foldl].
  { symmetry. by apply without_allow_none, Permutation_nil_r. }
  apply Forall_cons in Ha as [Hr Ha].
  assert (Own r ∈ l) as Hin.
  { assert (Own r ∈ allow_part l) as Hp by (rewrite Hl; by left).
    by apply list_elem_of_filter in Hp as [_ ?]. }
  destruct (allow_part_remove r l Hr Hin) as [Hp Hw]. rewrite IH; [done|done|].
  apply (Permutation_cons_inv (a := Own r)). rewrite <- Hp. by rewrite Hl.
Qed.

(** None of them was there. *)
Lemma drop_absent rs l : all_allow rs -> allow_part l = [] ->
  foldl (fun l r => remove_first (Own r) l) l rs = without_allow l.
Proof.
  intros Ha Hl. rewrite (without_allow_none l Hl). induction Ha as [|r rs Hr _ IH]; [done|]. cbn [foldl].
  rewrite remove_first_absent; [done|]. intros Hin.
  assert (Own r ∈ allow_part l) as Hp by by apply list_elem_of_filter. rewrite Hl in Hp.
  by apply elem_of_nil in Hp.
Qed.
End Chains.
