(* ===== verification/ExitnodeServer.v ===== *)
(** * ExitnodeServer: the exit node's invariant

    The methods of [Server] ([meshnet/exitnode/server.go]) on the tables: what
    each of them leaves in the chains, an invariant that all of them keep, and
    that [Disable] gives the tables back as the other programs left them. *)

From stdpp Require Import base option list strings gmap.
From Stdlib Require Import ZArith Ascii Lia.
From S2P Require Import Prelude GoLib Kernel Mesh Config IPTables Exitnode ExitnodeTables ExitnodeSafety ExitnodeChains.
Set Warnings "-clear-no-such-hyp".

Open Scope Z_scope.
Open Scope go_scope.

(** The kernel parameter can be set and unset. *)
Class SysctlWorks (T : Type) `{SysctlSetter T} : Prop := {
  sysctl_set_ok x : exists x' : T, sysctl_Set x = (Ok tt, x');
  sysctl_unset_ok x : exists x' : T, sysctl_Unset x = (Ok tt, x')
}.

(** ** Peers and allowlists the exit node can serve *)

(** The peer has no address, or an IPv4 one. *)
Definition peer_ok (p : MachinePeer) : Prop :=
  p_Address p = AddrInvalid \/ exists a, p_Address p = AddrV4 a /\ 0 <= a < 2 ^ 32.

Definition ports_ok (ports : PortSet) : Prop := forall p, p ∈ (map_to_list ports).*1 -> 0 <= p.

(** The subnets are texts of IPv4 prefixes. *)
Record allowlist_ok (al : Allowlist) : Prop := mkAllowlistOk {
  ao_subnets s : s ∈ (map_to_list (al_Subnets al)).*1 ->
    exists a b, 0 <= a < 2 ^ 32 /\ 0 <= b <= 32 /\ s = prefix_String (mkPrefix (AddrV4 a) b);
  ao_tcp : ports_ok (ports_TCP (al_Ports al));
  ao_udp : ports_ok (ports_UDP (al_Ports al))
}.

Lemma allowlist_parses al : allowlist_ok al -> subnets_parse al.
Proof.
  intros Hal s Hs. destruct (ao_subnets al Hal s Hs) as (a & b & Ha & Hb & ->).
  rewrite ParsePrefix_String by done. by eexists.
Qed.

Lemma allowlist_range_bounds ports r : ports_ok ports -> r ∈ allowlist_ranges ports ->
  0 <= pr_Min r <= pr_Max r /\ pr_Max r <= MaxUint16.
Proof.
  intros Hp Hr. unfold allowlist_ranges in Hr. set (l := filter _ _) in Hr.
  assert (NoDup l) as Hnd by (apply NoDup_filter, NoDup_fst_map_to_list).
  destruct (PortsToPortRanges_gaps l Hnd) as [_ Hle]. rewrite Forall_forall in Hle. specialize (Hle r Hr).
  assert (forall p, in_range p r -> 0 <= p <= MaxUint16) as Hin.
  { intros p Hin. assert (p ∈ l) as Hpl by (apply PortsToPortRanges_cover; by exists r).
    apply list_elem_of_filter in Hpl as [? Hpl]. split; [by apply Hp|done]. }
  pose proof (Hin (pr_Min r)). pose proof (Hin (pr_Max r)). unfold in_range in *. lia.
Qed.

Lemma digits_address s : all_chars digit_char s = true -> all_chars address_char s = true.
Proof.
  induction s as [|c s IH]; [done|]. cbn [all_chars]. intros [Hc Hs]%andb_true_iff.
  rewrite IH by done. revert Hc. unfold digit_char, address_char. by destruct (digit_val c).
Qed.

Lemma destination_plain ports r : ports_ok ports -> r ∈ allowlist_ranges ports -> plain (destination_text r).
Proof.
  intros Hp Hr. destruct (allowlist_range_bounds _ _ Hp Hr) as [Hb _]. apply address_plain.
  unfold destination_text. destruct (_ =? _); [apply digits_address, itoa_digits; lia|].
  rewrite !all_chars_app, (digits_address (itoa (pr_Min r))), (digits_address (itoa (pr_Max r)))
    by (apply itoa_digits; lia). done.
Qed.

Section Rules.
Context {K : Type} `{runCommandFunc K} {view : K -> Tables} {norm : string -> string}
  `{HN : !Netfilter K view norm}.
#[local] Abbreviation plain_rule := (plain_rule norm).

Lemma norm_text_ok s : plain s -> plain_opt (Some (norm s)) /\ (norm <$> Some (norm s)) = Some (norm s).
Proof. intros Hs. split; [by apply nf_norm_plain|]. cbn. by rewrite nf_norm_idem. Qed.

Lemma allow_rule_plain destination portType peer r :
  peer_ok peer -> plain destination -> plain portType ->
  allow_rule (norm := norm) destination portType peer = Some r -> plain_rule r.
Proof.
  intros Hp Hd Ht. unfold allow_rule, allowlist_command.
  destruct (p_DoIAllowLocalNetwork peer), (addr_IsValid (p_Address peer)) eqn:Hv; try done.
  assert (plain (addr_String (p_Address peer))) as Ha.
  { destruct Hp as [Hp|(a & -> & _)]; [by rewrite Hp in Hv|]. apply address_plain, v4_String_chars. }
  cbn [negb orb]. destruct (negb (bool_decide (portType = "")) && _); [done|]. intros [= <-].
  assert (meshAllowlistRuleComment ∈ comments) as Hc by (unfold comments; set_solver).
  assert (plain "ACCEPT") as Hacc by by apply word_plain.
  case_bool_decide; split; cbn; try done; by apply norm_text_ok.
Qed.

Lemma allow_rules_plain peers destination portType :
  Forall peer_ok peers -> plain destination -> plain portType ->
  Forall plain_rule (allow_rules (norm := norm) peers destination portType).
Proof.
  intros Hp Hd Ht. apply Forall_forall. intros r (p & Hin & Hr)%list_elem_of_omap.
  rewrite Forall_forall in Hp. by apply (allow_rule_plain destination portType p); auto.
Qed.

Lemma port_rules_plain peers name ports : Forall peer_ok peers -> ports_ok ports -> plain name ->
  Forall plain_rule (port_rules (norm := norm) peers name ports).
Proof.
  intros Hp Ho Hn. apply Forall_forall. intros r (g & Hr & Hg)%list_elem_of_bind.
  eapply Forall_forall; [|exact Hr]. apply allow_rules_plain; [done|by eapply destination_plain|done].
Qed.

Lemma allowlist_rules_plain ks al peers : allowlist_ok al -> Forall peer_ok peers ->
  ks ⊆ (map_to_list (al_Subnets al)).*1 ->
  Forall plain_rule (allowlist_rules (norm := norm) ks al peers).
Proof.
  intros Hal Hp Hk. unfold allowlist_rules. rewrite !Forall_app. split.
  - apply Forall_forall. intros r (s & Hr & Hs)%list_elem_of_bind.
    destruct (is_local_subnet s); [|by apply elem_of_nil in Hr].
    destruct (ao_subnets al Hal s (Hk s Hs)) as (a & b & Ha & Hb & ->).
    eapply Forall_forall; [|exact Hr].
    apply allow_rules_plain; [done|by apply prefix_String_plain|by repeat split].
  - split; apply port_rules_plain; try done; try apply Hal; by apply word_plain.
Qed.
End Rules.

(** ** The server on the tables *)

Section Server.
Context {K T : Type} `{runCommandFunc K} `{SysctlSetter T} {view : K -> Tables}
  {norm : string -> string} `{HN : !Netfilter K view norm} `{HT : !SysctlWorks T}.
Implicit Types (s : Server K T) (t : Tables).
#[local] Abbreviation wf_fwd := (wf_fwd (norm := norm)).
#[local] Abbreviation wf_tables := (wf_tables (norm := norm)).
#[local] Abbreviation rules_of := (rules_of (norm := norm)).

Definition tables s : Tables := view (en_iptables s).

(** The allowlist's rules in the chain are those of the current allowlist and
    peers, or there are none. *)
Record server_ok s : Prop := mkServerOk {
  so_tables : wf_tables (tables s);
  so_names : Forall plain (en_interfaceNames s);
  so_peers : Forall peer_ok (en_peers s);
  so_am_peers : Forall peer_ok (am_peers s);
  so_allowlist : allowlist_ok (am_allowlist s);
  so_allow : allow_part (t_forward (tables s)) = [] \/
             allow_part (t_forward (tables s)) ≡ₚ Own <$> rules_of (am_allowlist s) (am_peers s)
}.

Lemma on_iptables_does {A} (m : M K A) s a t' : does (view := view) m (tables s) a t' ->
  exists k', on_iptables (T := T) m s = (Ok a, s <| en_iptables := k' |>) /\ view k' = t'.
Proof.
  intros Hm. destruct (Hm _ eq_refl) as (k' & E & Hv). exists k'. split; [|done].
  unfold on_iptables, zoom. by rewrite E.
Qed.

Lemma wrapped_ok {S A} pre (m : M S A) post x a x' : m x = (Ok a, x') -> wrapped pre m post x = (Ok a, x').
Proof. unfold wrapped. by intros ->. Qed.

Lemma bind_ok {S A B} (m : M S A) (f : A -> M S B) x a x' : m x = (Ok a, x') -> bind m f x = f a x'.
Proof. unfold bind. by intros ->. Qed.

(** *** The allowlist *)

Lemma disableAllowlist_spec s : server_ok s ->
  exists k', disableAllowlist s = (Ok tt, s <| en_iptables := k' |>) /\
    view k' = (tables s) <| t_forward := without_allow (t_forward (tables s)) |>.
Proof.
  intros Hs. unfold disableAllowlist, allowlist_op.
  set (al := am_allowlist s). set (ps := am_peers s). set (ks := range_keys (al_Subnets al) (en_iptables s)).
  assert (ks ≡ₚ (map_to_list (al_Subnets al)).*1) as Hk by apply nf_range.
  assert (Forall (fun x => is_Some (ParsePrefix x)) ks) as Hparse.
  { apply Forall_forall. intros x Hx. apply (allowlist_parses al (so_allowlist s Hs)). by rewrite <- Hk. }
  destruct (does_body_remove (norm := norm) al ps ks (tables s) Hparse (en_iptables s) eq_refl)
    as (k' & E & Hv).
  exists k'. split.
  - change (on_iptables (allowlistToFirewall al ps false) s = (Ok tt, s <| en_iptables := k' |>)).
    unfold on_iptables, zoom. rewrite allowlistToFirewall_body. fold ks. by rewrite E.
  - rewrite Hv. unfold drop_all. f_equal. destruct (so_allow s Hs) as [Hnone|Hall].
    + by apply drop_absent; [apply allowlist_rules_allow|].
    + apply drop_present; [apply allowlist_rules_allow|]. rewrite Hall.
      by rewrite <- (allowlist_rules_perm ks).
Qed.

Lemma enableAllowlist_spec s : allowlist_ok (am_allowlist s) ->
  exists k' rs, enableAllowlist s = (Ok tt, s <| en_iptables := k' |>) /\
    rs ≡ₚ rules_of (am_allowlist s) (am_peers s) /\ view k' = push_all rs (tables s).
Proof.
  intros Hal. unfold enableAllowlist, allowlist_op.
  set (al := am_allowlist s). set (ps := am_peers s). set (ks := range_keys (al_Subnets al) (en_iptables s)).
  assert (ks ≡ₚ (map_to_list (al_Subnets al)).*1) as Hk by apply nf_range.
  assert (Forall (fun x => is_Some (ParsePrefix x)) ks) as Hparse.
  { apply Forall_forall. intros x Hx. apply (allowlist_parses al Hal). by rewrite <- Hk. }
  destruct (does_body_add (norm := norm) al ps ks (tables s) Hparse (en_iptables s) eq_refl)
    as (k' & E & Hv).
  exists k', (reverse (allowlist_rules (norm := norm) ks al ps)). split; [|split; [|done]].
  - change (on_iptables (allowlistToFirewall al ps true) s = (Ok tt, s <| en_iptables := k' |>)).
    unfold on_iptables, zoom. rewrite allowlistToFirewall_body. fold ks. by rewrite E.
  - rewrite reverse_Permutation. by apply allowlist_rules_perm.
Qed.

(** *** Rules that are kept and rules that are added *)

Lemma own_rule_plain src dst out comment target :
  plain_opt src /\ (norm <$> src) = src -> plain_opt dst /\ (norm <$> dst) = dst -> plain_opt out ->
  comment ∈ comments -> plain target -> plain_rule norm (own_rule src dst out comment target).
Proof. by split. Qed.

Lemma net_text_ok p : is_network p -> plain_opt (net_text p) /\ (norm <$> net_text p) = net_text p.
Proof. intros Hp. split; [by apply network_plain|]. cbn. by rewrite nf_norm_network. Qed.

Lemma mesh_text_ok : plain_opt mesh_text /\ (norm <$> mesh_text) = mesh_text.
Proof. split; [apply mesh_plain|]. cbn. by rewrite norm_mesh. Qed.

Lemma transient_comment : transientFilterRuleComment ∈ comments.
Proof. unfold comments. set_solver. Qed.

Lemma peer_rule_plain p : is_network p -> plain_rule norm (peer_rule p).
Proof.
  intros Hp. apply own_rule_plain; [by apply net_text_ok|done|done|apply transient_comment|by apply word_plain].
Qed.

Lemma local_rule_plain p n : is_network p -> is_network n -> plain_rule norm (local_rule p n).
Proof.
  intros Hp Hn.
  apply own_rule_plain; [by apply net_text_ok|by apply net_text_ok|done|apply transient_comment|by apply word_plain].
Qed.

Lemma private_block_plain n : is_network n -> plain_rule norm (private_block n).
Proof.
  intros Hn. apply own_rule_plain; [apply mesh_text_ok|by apply net_text_ok|done|apply transient_comment|].
  by apply word_plain.
Qed.

Lemma physical_block_plain i : plain i -> plain_rule norm (physical_block i).
Proof. intros Hi. apply own_rule_plain; [done|done|done|apply transient_comment|by apply word_plain]. Qed.

Lemma private_rules_plain (f : Prefix -> FwdRule) :
  (forall n, is_network n -> plain_rule norm (f n)) -> Forall (plain_rule norm) (f <$> reverse private_subnets).
Proof.
  intros Hf. apply Forall_fmap, Forall_forall. intros n Hn. apply Hf, private_is_network.
  by rewrite <- elem_of_reverse.
Qed.

Lemma transient_rules_plain peers names killswitch :
  Forall (fun p => is_network (tp_IP p)) peers -> Forall plain names ->
  Forall (plain_rule norm) (transient_rules peers names killswitch).
Proof.
  intros Hp Hn. rewrite Forall_forall in Hp. unfold transient_rules, blocks. rewrite !Forall_app. repeat split.
  - apply Forall_forall. intros r (p & Hr & Hin)%list_elem_of_bind. rewrite elem_of_reverse in Hin.
    specialize (Hp p Hin). destruct (tp_LocalNetwork p); [|by apply elem_of_nil in Hr].
    destruct (tp_Routing p && _); [apply list_elem_of_singleton in Hr as ->; by apply peer_rule_plain|].
    eapply Forall_forall; [|exact Hr]. apply private_rules_plain. intros n. by apply local_rule_plain.
  - destruct killswitch; [|by constructor]. apply Forall_fmap, Forall_forall. intros i Hi.
    rewrite elem_of_reverse in Hi. apply physical_block_plain. by eapply Forall_forall.
  - apply private_rules_plain. apply private_block_plain.
  - apply Forall_forall. intros r (p & Hr & Hin)%list_elem_of_bind. rewrite elem_of_reverse in Hin.
    specialize (Hp p Hin). destruct (tp_Routing p && _); [|by apply elem_of_nil in Hr].
    apply list_elem_of_singleton in Hr as ->. by apply peer_rule_plain.
Qed.

Lemma permanent_rules_plain : Forall (plain_rule norm) permanent_rules.
Proof.
  assert (filterRuleComment ∈ comments) by (unfold comments; set_solver).
  repeat (apply Forall_cons; split); [split| | |by apply Forall_nil]; cbn; try done;
    try apply mesh_text_ok; try by apply word_plain.
  all: apply own_rule_plain; try done; try apply mesh_text_ok; by apply word_plain.
Qed.

Lemma wf_push rs t : Forall (plain_rule norm) rs -> wf_tables t -> wf_tables (push_all rs t).
Proof.
  intros Hr (Hf & Hn & Hrest). split; [|done]. apply Forall_app. split; [|done].
  by apply Forall_fmap.
Qed.

Lemma wf_filter (P : Entry FwdRule -> Prop) `{forall e, Decision (P e)} t :
  wf_tables t -> wf_tables (t <| t_forward := filter P (t_forward t) |>).
Proof.
  intros (Hf & Hn & Hrest). split; [|done]. apply Forall_forall. intros e [_ He]%list_elem_of_filter.
  by eapply Forall_forall.
Qed.

(** The peers of a reset. *)
Lemma traffic_peers_networks peers lan : Forall peer_ok peers ->
  Forall (fun p => is_network (tp_IP p)) (traffic_peers peers lan).
Proof.
  intros Hp. apply Forall_forall. intros x (p & Hin & Hx)%list_elem_of_omap.
  rewrite Forall_forall in Hp. destruct (Hp p Hin) as [Ha|(a & Ha & Hr)]; rewrite Ha in Hx; [done|].
  injection Hx as <-. exists a. cbn. repeat split; try lia.
Qed.

(** *** The methods *)

Definition base (l : list (Entry FwdRule)) : list (Entry FwdRule) :=
  without_allow (filter (fun e => has_comment [transientFilterRuleComment] e = false) l).

(** The tables after a reset: [rs] are the rules of the allowlist. *)
Definition reset_tables (rs : list FwdRule) (peers : list TrafficPeer) (names : list string)
    (killswitch : bool) t : Tables :=
  t <| t_forward := (Own <$> rs ++ transient_rules peers names killswitch) ++ base (t_forward t) |>
    <| t_nat := others (t_nat t) ++ (Own <$> masquerades peers) |>.

Lemma allow_part_app l1 l2 : allow_part (l1 ++ l2) = allow_part l1 ++ allow_part l2.
Proof. apply filter_app. Qed.

Lemma without_allow_app l1 l2 : without_allow (l1 ++ l2) = without_allow l1 ++ without_allow l2.
Proof. apply filter_app. Qed.

Lemma allow_part_Own rs : Forall (fun r => f_comment r <> meshAllowlistRuleComment) rs ->
  allow_part (Own <$> rs) = [].
Proof.
  unfold allow_part. induction 1 as [|r rs Hr _ IH]; [done|]. rewrite fmap_cons, filter_cons_False; [done|].
  cbn. rewrite bool_decide_eq_true, list_elem_of_singleton. done.
Qed.

Lemma without_allow_Own rs : Forall (fun r => f_comment r <> meshAllowlistRuleComment) rs ->
  without_allow (Own <$> rs) = Own <$> rs.
Proof. intros Hr. by apply without_allow_none, allow_part_Own. Qed.

Lemma allow_part_kept l :
  allow_part (filter (fun e => has_comment [transientFilterRuleComment] e = false) l) = allow_part l.
Proof.
  unfold allow_part. rewrite list_filter_filter_l; [done|]. intros [r|] Hr; [|done].
  cbn in *. apply bool_decide_eq_true, list_elem_of_singleton in Hr.
  by rewrite Hr.
Qed.

Lemma transient_rules_comment peers names killswitch :
  Forall (fun r => f_comment r = transientFilterRuleComment) (transient_rules peers names killswitch).
Proof.
  apply Forall_forall. unfold transient_rules, blocks, local_rules, routing_rules. intros r Hr.
  rewrite !elem_of_app, !list_elem_of_bind in Hr.
  destruct Hr as [(p & Hr & _)|[[Hr|Hr]|(p & Hr & _)]].
  - destruct (tp_LocalNetwork p); [|by apply elem_of_nil in Hr]. destruct (tp_Routing p && _).
    + by apply list_elem_of_singleton in Hr as ->.
    + by apply list_elem_of_fmap in Hr as (n & -> & _).
  - destruct killswitch; [|by apply elem_of_nil in Hr]. by apply list_elem_of_fmap in Hr as (n & -> & _).
  - by apply list_elem_of_fmap in Hr as (n & -> & _).
  - destruct (tp_Routing p && _); [|by apply elem_of_nil in Hr]. by apply list_elem_of_singleton in Hr as ->.
Qed.

Lemma transient_not_allow peers names killswitch :
  Forall (fun r => f_comment r <> meshAllowlistRuleComment) (transient_rules peers names killswitch).
Proof. eapply Forall_impl; [apply transient_rules_comment|]. by cbn; intros r ->. Qed.

Lemma wf_after_reset peers names killswitch t :
  Forall (fun p => is_network (tp_IP p)) peers -> Forall plain names -> wf_tables t ->
  wf_tables (after_reset peers names killswitch t).
Proof.
  intros Hp Hn (Hf & Hnat & Hrest). split; [|split; [|done]].
  - apply Forall_app. split; [by apply Forall_fmap, transient_rules_plain|].
    apply Forall_forall. intros e [_ He]%list_elem_of_filter. by eapply Forall_forall.
  - apply Forall_app. split.
    + apply Forall_forall. intros e [_ He]%list_elem_of_filter. by eapply Forall_forall.
    + apply Forall_fmap, Forall_forall. intros r Hr. apply list_elem_of_fmap in Hr as (p & -> & Hin).
      apply list_elem_of_fmap in Hin as (q & -> & [_ Hq]%list_elem_of_filter). exists (tp_IP q).
      rewrite Forall_forall in Hp. auto.
Qed.

Lemma after_reset_forward peers names killswitch t :
  t_forward (after_reset peers names killswitch t) =
  (Own <$> transient_rules peers names killswitch) ++
  filter (fun e => has_comment [transientFilterRuleComment] e = false) (t_forward t).
Proof. done. Qed.

(** The state after the firewall's part of a reset: still within the invariant. *)
Lemma ok_after_reset s k' lan killswitch : server_ok s ->
  view k' = after_reset (traffic_peers (en_peers s) lan) (en_interfaceNames s) killswitch (tables s) ->
  server_ok (s <| en_iptables := k' |>).
Proof.
  intros Hs Hv. pose proof (traffic_peers_networks _ lan (so_peers s Hs)) as Hn.
  destruct Hs as [Hw Hnames Hp Ha Hal Hallow].
  split; try done.
  - change (wf_tables (view k')). rewrite Hv. by apply wf_after_reset.
  - change (allow_part (t_forward (view k')) = [] \/
      allow_part (t_forward (view k')) ≡ₚ Own <$> rules_of (am_allowlist s) (am_peers s)).
    rewrite Hv, after_reset_forward, allow_part_app, allow_part_Own, allow_part_kept by apply transient_not_allow. exact Hallow.
Qed.

Lemma allow_part_rules rs : all_allow rs -> allow_part (Own <$> rs) = Own <$> rs.
Proof.
  unfold allow_part. induction 1 as [|r rs Hr _ IH]; [done|].
  by rewrite fmap_cons, filter_cons_True, IH.
Qed.

Lemma allow_part_without l : allow_part (without_allow l) = [].
Proof.
  unfold allow_part, without_allow. induction l as [|e l IH]; [done|]. rewrite filter_cons.
  destruct (decide _) as [He|]; [|done]. rewrite filter_cons_False by congruence. done.
Qed.

Lemma resetPeers_spec s lan killswitch : server_ok s ->
  exists k' rs,
    resetPeers lan killswitch s =
      (Ok tt, s <| en_iptables := k' |> <| am_peers := if lan then am_peers s else en_peers s |>) /\
    (if lan then rs = [] else rs ≡ₚ rules_of (am_allowlist s) (en_peers s)) /\
    view k' = reset_tables rs (traffic_peers (en_peers s) lan) (en_interfaceNames s) killswitch (tables s).
Proof.
  intros Hs. pose proof (traffic_peers_networks _ lan (so_peers s Hs)) as Hn.
  destruct (on_iptables_does _ s _ _ (does_resetPeersTraffic _ _ killswitch _ Hn (so_names s Hs) (so_tables s Hs)))
    as (k1 & E1 & Hv1).
  destruct (disableAllowlist_spec (s <| en_iptables := k1 |>)) as (k2 & E2 & Hv2);
    [by eapply ok_after_reset|].
  unfold resetPeers. rewrite (bind_ok _ _ s _ s) by done. rewrite (bind_ok _ _ s _ s) by done.
  rewrite (bind_ok _ _ _ _ _ E1), (bind_ok _ _ _ _ _ E2).
  assert (view k2 = reset_tables [] (traffic_peers (en_peers s) lan) (en_interfaceNames s) killswitch (tables s))
    as Hv.
  { rewrite Hv2. change (tables (s <| en_iptables := k1 |>)) with (view k1).
    rewrite Hv1, after_reset_forward, without_allow_app, without_allow_Own by apply transient_not_allow.
    done. }
  destruct lan; cbn [negb].
  - exists k2, []. split; [by destruct s|]. done.
  - rewrite (bind_ok _ _ _ tt (s <| en_iptables := k2 |> <| am_peers := en_peers s |>)) by done.
    destruct (enableAllowlist_spec (s <| en_iptables := k2 |> <| am_peers := en_peers s |>))
      as (k3 & rs & E3 & Hrs & Hv3); [apply Hs|].
    exists k3, rs. rewrite E3. split; [done|]. split; [done|]. rewrite Hv3.
    change (tables (s <| en_iptables := k2 |> <| am_peers := en_peers s |>)) with (view k2). rewrite Hv.
    unfold reset_tables, push_all. cbn. by rewrite fmap_app, <- app_assoc.
Qed.

(** *** What every method keeps *)

#[local] Arguments others : simpl never.
#[local] Arguments filter : simpl never.
#[local] Arguments fmap : simpl never.

(** The tables without the exit node's rules. *)
Definition foreign_part t : Tables :=
  t <| t_forward := others (t_forward t) |> <| t_nat := others (t_nat t) |>.

Lemma others_app {R} (l1 l2 : list (Entry R)) : others (l1 ++ l2) = others l1 ++ others l2.
Proof. apply filter_app. Qed.

Lemma others_own {R} (rs : list R) : others (Own <$> rs) = [].
Proof. unfold others. induction rs as [|r rs IH]; [done|]. by rewrite fmap_cons, filter_cons_False. Qed.

Lemma others_kept (P : Entry FwdRule -> Prop) `{forall e, Decision (P e)} l :
  (forall line, P (Other line)) -> others (filter P l) = others l.
Proof. intros HP. unfold others. apply list_filter_filter_l. by intros [] He. Qed.

Lemma others_idem {R} (l : list (Entry R)) : others (others l) = others l.
Proof. unfold others. by apply list_filter_filter_l. Qed.

Lemma foreign_push rs t : foreign_part (push_all rs t) = foreign_part t.
Proof. destruct t. unfold foreign_part, push_all. cbn. by rewrite others_app, others_own. Qed.

Lemma foreign_filter (P : Entry FwdRule -> Prop) `{forall e, Decision (P e)} t :
  (forall line, P (Other line)) -> foreign_part (t <| t_forward := filter P (t_forward t) |>) = foreign_part t.
Proof. intros HP. destruct t. unfold foreign_part. cbn. by rewrite others_kept. Qed.

Lemma foreign_reset rs peers names killswitch t :
  foreign_part (reset_tables rs peers names killswitch t) = foreign_part t.
Proof.
  destruct t. unfold foreign_part, reset_tables, base, without_allow. cbn.
  by rewrite !others_app, !others_own, !others_kept, others_idem, app_nil_r.
Qed.

(** The exit node in its invariant, on tables whose foreign part is [f]. *)
Definition serves (f : Tables) s : Prop := server_ok s /\ foreign_part (tables s) = f.

(** [m] succeeds, whatever state it starts in, and stays within [serves f]. *)
Definition keeps (f : Tables) (m : M (Server K T) unit) : Prop :=
  forall s, serves f s -> exists s', m s = (Ok tt, s') /\ serves f s'.

Lemma wf_reset rs peers names killswitch t :
  Forall (plain_rule norm) rs ->
  Forall (fun p => is_network (tp_IP p)) peers -> Forall plain names -> wf_tables t ->
  wf_tables (reset_tables rs peers names killswitch t).
Proof.
  intros Hr Hp Hn Ht. destruct (wf_after_reset peers names killswitch t Hp Hn Ht) as (Hf & Hnat & Hrest).
  split; [|done]. rewrite after_reset_forward, Forall_app in Hf. destruct Hf as [Htr Hkept].
  unfold reset_tables. cbn. rewrite fmap_app, !Forall_app. repeat split; [by apply Forall_fmap|done|].
  apply Forall_forall. intros e [_ He]%list_elem_of_filter. by eapply Forall_forall.
Qed.

Lemma rules_of_plain al peers rs : allowlist_ok al -> Forall peer_ok peers -> rs ≡ₚ rules_of al peers ->
  Forall (plain_rule norm) rs.
Proof. intros Hal Hp ->. by apply allowlist_rules_plain. Qed.

Lemma rules_of_allow al peers rs : rs ≡ₚ rules_of al peers -> all_allow rs.
Proof. intros Hrs. unfold all_allow. rewrite Hrs. apply allowlist_rules_allow. Qed.

Lemma allow_part_base l : allow_part (base l) = [].
Proof. apply allow_part_without. Qed.

Lemma resetPeers_keeps f lan killswitch : keeps f (resetPeers lan killswitch).
Proof.
  intros s [Hs Hf]. destruct (resetPeers_spec s lan killswitch Hs) as (k' & rs & E & Hrs & Hv).
  eexists. split; [exact E|]. clear E.
  assert (Forall (plain_rule norm) rs) as Hpl.
  { destruct lan; [subst; by constructor|]. eapply rules_of_plain; [| |exact Hrs]; apply Hs. }
  assert (all_allow rs) as Hall by (destruct lan; [subst; by constructor|by eapply rules_of_allow]).
  pose proof (traffic_peers_networks _ lan (so_peers s Hs)) as Hn.
  split; [|change (tables _) with (view k'); by rewrite Hv, foreign_reset].
  destruct Hs as [Hw Hnames Hp Ha Hal Hallow]. split; try done.
  - change (wf_tables (view k')). rewrite Hv. by apply wf_reset.
  - by destruct lan.
  - change (tables _) with (view k'). rewrite Hv.
    change (t_forward (reset_tables ?rs ?p ?n ?k ?t)) with
      ((Own <$> rs ++ transient_rules p n k) ++ base (t_forward t)).
    rewrite fmap_app, !allow_part_app, allow_part_base, (allow_part_Own (transient_rules _ _ _)),
      allow_part_rules, !app_nil_r by (done || apply transient_not_allow).
    destruct lan; [left; by subst|right]. cbn. by rewrite Hrs.
Qed.

Lemma on_sysctl_ok (m : M T unit) s x' : m (en_sysctlSetter s) = (Ok tt, x') ->
  on_sysctl (K := K) m s = (Ok tt, s <| en_sysctlSetter := x' |>).
Proof. intros E. unfold on_sysctl, zoom. by rewrite E. Qed.

(** *** Enable *)

Lemma Enable_spec s : server_ok s ->
  exists k' x', Enable s =
      (Ok tt, s <| en_sysctlSetter := x' |> <| en_iptables := k' |> <| en_enabled := true |>) /\
    view k' = if filtering_found (tables s) then tables s else push_all permanent_rules (tables s).
Proof.
  intros Hs. destruct (sysctl_set_ok (en_sysctlSetter s)) as (x' & Ex).
  assert (Forall wf_fwd (t_forward (tables (s <| en_sysctlSetter := x' |>)))) as Hw by apply Hs.
  destruct (on_iptables_does _ (s <| en_sysctlSetter := x' |>) _ _ 
    (does_enable (tables (s <| en_sysctlSetter := x' |>)) Hw))
    as (k' & Ek & Hv).
  exists k', x'. split; [|done]. unfold Enable.
  rewrite (bind_ok _ _ _ _ _ (wrapped_ok _ _ _ _ _ _ (on_sysctl_ok _ _ _ Ex))).
  by rewrite (bind_ok _ _ _ _ _ (wrapped_ok _ _ _ _ _ _ Ek)).
Qed.

Lemma permanent_not_allow : Forall (fun r => f_comment r <> meshAllowlistRuleComment) permanent_rules.
Proof. by repeat constructor. Qed.

(** Adding rules that are not the allowlist's, or none, keeps the invariant. *)
Lemma ok_push s k' x' b rs : server_ok s -> Forall (plain_rule norm) rs ->
  Forall (fun r => f_comment r <> meshAllowlistRuleComment) rs -> view k' = push_all rs (tables s) ->
  server_ok (s <| en_sysctlSetter := x' |> <| en_iptables := k' |> <| en_enabled := b |>).
Proof.
  intros [Hw Hnames Hp Ha Hal Hallow] Hr Hc Hv. split; try done.
  - change (wf_tables (view k')). rewrite Hv. by apply wf_push.
  - change (tables _) with (view k'). rewrite Hv.
    change (t_forward (push_all rs ?t)) with ((Own <$> rs) ++ t_forward t).
    by rewrite allow_part_app, allow_part_Own.
Qed.

Lemma Enable_keeps f : keeps f Enable.
Proof.
  intros s [Hs Hf]. destruct (Enable_spec s Hs) as (k' & x' & E & Hv). eexists. split; [exact E|].
  set (rs := if filtering_found (tables s) then [] else permanent_rules).
  assert (view k' = push_all rs (tables s)) as Hv'
    by (rewrite Hv; unfold rs; destruct (filtering_found _); [by rewrite push_all_nil|done]).
  split; [|change (tables _) with (view k'); by rewrite Hv', foreign_push].
  apply ok_push with rs; [done| | |done]; unfold rs; destruct (filtering_found _);
    [by constructor|apply permanent_rules_plain|by constructor|apply permanent_not_allow].
Qed.

(** *** Disable *)

Lemma own_comments e : wf_fwd e -> has_comment filtering e || is_allow e = is_own e.
Proof.
  destruct e as [r|]; [|done]. intros [_ _ _ _ _ _ Hc _]. unfold is_allow. cbn [has_comment is_own].
  apply orb_true_iff. rewrite !bool_decide_eq_true. revert Hc. unfold comments, filtering.
  rewrite !elem_of_cons, elem_of_nil. tauto.
Qed.

Lemma without_own l : Forall wf_fwd l ->
  without_allow (filter (fun e => has_comment filtering e = false) l) = others l.
Proof.
  unfold without_allow, others. induction 1 as [|e l He _ IH]; [done|].
  pose proof (own_comments e He) as Heq. destruct (has_comment filtering e) eqn:Hf.
  - rewrite !filter_cons_False by (cbn in Heq; congruence). done.
  - rewrite (filter_cons_True _ _ l) by done. cbn [orb] in Heq. destruct (is_allow e) eqn:Ha.
    + rewrite !filter_cons_False by congruence. done.
    + rewrite !filter_cons_True by congruence. by rewrite IH.
Qed.

Lemma allow_part_filtering l :
  allow_part (filter (fun e => has_comment filtering e = false) l) = allow_part l.
Proof.
  unfold allow_part. apply list_filter_filter_l. intros [r|] Hr; [|done].
  unfold is_allow in Hr. cbn in *. apply bool_decide_eq_true, list_elem_of_singleton in Hr. by rewrite Hr.
Qed.

Lemma Disable_spec s : server_ok s ->
  exists k' x', Disable s =
      (Ok tt, s <| en_sysctlSetter := x' |> <| en_iptables := k' |> <| en_enabled := false |>) /\
    view k' = foreign_part (tables s).
Proof.
  intros Hs. destruct (sysctl_unset_ok (en_sysctlSetter s)) as (x' & Ex).
  destruct (on_iptables_does _ s _ _ (does_clear_filtering _ (so_tables s Hs))) as (k1 & E1 & Hv1).
  assert (wf_tables (tables (s <| en_iptables := k1 |>))) as Hw1.
  { change (wf_tables (view k1)). rewrite Hv1. apply wf_filter, Hs. }
  destruct (on_iptables_does _ (s <| en_iptables := k1 |>) _ _
    (does_clear_masquerading (tables (s <| en_iptables := k1 |>)) (proj1 (proj2 Hw1))))
    as (k2 & E2 & Hv2).
  destruct (disableAllowlist_spec (s <| en_iptables := k2 |> <| en_sysctlSetter := x' |>)) as (k3 & E3 & Hv3).
  { destruct Hs as [Hw Hnames Hp Ha Hal Hallow]. split; try done.
    - change (wf_tables (view k2)). rewrite Hv2. destruct Hw1 as (? & Hn & ?). split; [done|]. split; [|done].
      apply Forall_forall. intros e [_ He]%list_elem_of_filter. by eapply Forall_forall.
    - change (tables _) with (view k2). rewrite Hv2. change (t_forward _) with (t_forward (view k1)).
      rewrite Hv1. change (t_forward _) with (filter (fun e => has_comment filtering e = false) (t_forward (tables s))).
      by rewrite allow_part_filtering. }
  exists k3, x'. split.
  - unfold Disable. rewrite (bind_ok _ _ _ _ _ (wrapped_ok _ _ _ _ _ _ E1)).
    rewrite (bind_ok _ _ _ _ _ (wrapped_ok _ _ _ _ _ _ E2)).
    change (en_sysctlSetter s) with (en_sysctlSetter (s <| en_iptables := k1 |> <| en_iptables := k2 |>)) in Ex.
    rewrite (bind_ok _ _ _ _ _ (wrapped_ok _ _ _ _ _ _ (on_sysctl_ok _ _ _ Ex))).
    change (s <| en_iptables := k1 |> <| en_iptables := k2 |> <| en_sysctlSetter := x' |>) with
      (s <| en_iptables := k2 |> <| en_sysctlSetter := x' |>).
    by rewrite (bind_ok _ _ _ _ _ (wrapped_ok _ _ _ _ _ _ E3)).
  - rewrite Hv3. change (tables (s <| en_iptables := k2 |> <| en_sysctlSetter := x' |>)) with (view k2).
    rewrite Hv2. change (tables (s <| en_iptables := k1 |>)) with (view k1). rewrite Hv1.
    unfold foreign_part. rewrite <- without_own by apply Hs. by destruct (tables s).
Qed.

Lemma foreign_part_idem t : foreign_part (foreign_part t) = foreign_part t.
Proof. destruct t. unfold foreign_part. cbn. by rewrite !others_idem. Qed.

Lemma allow_part_others l : allow_part (others l) = [].
Proof.
  unfold allow_part, others. induction l as [|[r|line] l IH]; [done| |].
  - rewrite filter_cons_False by done. exact IH.
  - rewrite filter_cons_True, filter_cons_False by done. exact IH.
Qed.

Lemma wf_foreign t : wf_tables t -> wf_tables (foreign_part t).
Proof.
  intros (Hf & Hn & Hrest).
  split; [|split; [|done]]; apply Forall_forall; intros e [_ He]%list_elem_of_filter; by eapply Forall_forall.
Qed.

Lemma Disable_keeps f : keeps f Disable.
Proof.
  intros s [Hs Hf]. destruct (Disable_spec s Hs) as (k' & x' & E & Hv). eexists. split; [exact E|].
  split; [|change (tables _) with (view k'); by rewrite Hv, foreign_part_idem].
  destruct Hs as [Hw Hnames Hp Ha Hal Hallow]. split; try done.
  - change (wf_tables (view k')). rewrite Hv. by apply wf_foreign.
  - left. change (tables _) with (view k'). rewrite Hv. apply allow_part_others.
Qed.

(** *** SetAllowlist, ResetPeers, ResetFirewall *)

Lemma SetAllowlist_keeps f al lan : allowlist_ok al -> keeps f (SetAllowlist al lan).
Proof.
  intros Hal' s [Hs Hf]. destruct (disableAllowlist_spec s Hs) as (k1 & E1 & Hv1).
  unfold SetAllowlist. rewrite (bind_ok _ _ _ _ _ E1).
  set (s1 := s <| en_iptables := k1 |> <| am_allowlist := al |>).
  change (exists s', (if en_enabled s1 && negb lan then enableAllowlist else ret tt) s1 = (Ok tt, s') /\
                     serves f s').
  assert (foreign_part (view k1) = f) as Hf1
    by (rewrite Hv1, <- Hf; by apply (foreign_filter (fun e => is_allow e = false))).
  assert (wf_tables (view k1)) as Hw1 by (rewrite Hv1; apply wf_filter, Hs).
  assert (allow_part (t_forward (view k1)) = []) as Ha1 by (rewrite Hv1; apply allow_part_without).
  destruct Hs as [_ Hnames Hp Ha Hal Hallow]. destruct (en_enabled s1 && negb lan).
  - destruct (enableAllowlist_spec s1 Hal') as (k2 & rs & E2 & Hrs & Hv2). eexists. split; [exact E2|].
    change (tables s1) with (view k1) in Hv2. change (am_allowlist s1) with al in Hrs.
    change (am_peers s1) with (am_peers s) in Hrs.
    split; [|change (tables _) with (view k2); by rewrite Hv2, foreign_push].
    split; try done.
    + change (wf_tables (view k2)). rewrite Hv2. apply wf_push; [|done].
      exact (rules_of_plain _ _ _ Hal' Ha Hrs).
    + right. change (tables _) with (view k2). rewrite Hv2.
      change (t_forward (push_all rs ?t)) with ((Own <$> rs) ++ t_forward t).
      rewrite allow_part_app, Ha1, app_nil_r, allow_part_rules by exact (rules_of_allow _ _ _ Hrs).
      by rewrite Hrs.
  - eexists. split; [reflexivity|]. split; [|exact Hf1]. split; try done. by left.
Qed.

Lemma ResetPeers_keeps f peers lan killswitch : Forall peer_ok peers -> keeps f (ResetPeers peers lan killswitch).
Proof.
  intros Hp' s [Hs Hf]. unfold ResetPeers.
  apply (resetPeers_keeps f lan killswitch (s <| en_peers := peers |>)). split; [|exact Hf].
  by destruct Hs.
Qed.

Lemma ResetFirewall_keeps f lan killswitch : keeps f (ResetFirewall lan killswitch).
Proof.
  intros s Hs. unfold ResetFirewall. rewrite (bind_ok _ _ s _ s) by done.
  destruct (negb (en_enabled s)); [by exists s|]. by apply resetPeers_keeps.
Qed.

(** ** Sequences of requests *)

Inductive NodeOp : Type :=
| OpEnable
| OpResetPeers (peers : list MachinePeer) (lanAvailable killswitch : bool)
| OpResetFirewall (lanAvailable killswitch : bool)
| OpSetAllowlist (al : Allowlist) (lanAvailable : bool)
| OpDisable.

Definition node_op (op : NodeOp) : M (Server K T) unit :=
  match op with
  | OpEnable => Enable
  | OpResetPeers peers lan ks => ResetPeers peers lan ks
  | OpResetFirewall lan ks => ResetFirewall lan ks
  | OpSetAllowlist al lan => SetAllowlist al lan
  | OpDisable => Disable
  end.

Definition op_ok (op : NodeOp) : Prop :=
  match op with
  | OpResetPeers peers _ _ => Forall peer_ok peers
  | OpSetAllowlist al _ => allowlist_ok al
  | _ => True
  end.

Lemma node_op_keeps f op : op_ok op -> keeps f (node_op op).
Proof.
  destruct op; intros Hop; [apply Enable_keeps|by apply ResetPeers_keeps|apply ResetFirewall_keeps|
    by apply SetAllowlist_keeps|apply Disable_keeps].
Qed.

Lemma node_ops_keep f ops : Forall op_ok ops -> keeps f (forM_ ops node_op).
Proof.
  induction 1 as [|op ops Hop _ IH]; intros s Hs; [by exists s|].
  destruct (node_op_keeps f op Hop s Hs) as (s1 & E & Hs1). cbn [forM_].
  rewrite (bind_ok _ _ _ _ _ E). by apply IH.
Qed.

(** A new server on tables without exit node rules. *)
Lemma NewServer_serves names k al x :
  wf_tables (view k) -> foreign_part (view k) = view k -> Forall plain names -> allowlist_ok al ->
  serves (view k) (NewServer names k al x : Server K T).
Proof.
  intros Hw Hf Hn Hal. split; [|exact Hf]. split; try done.
  left. change (tables _) with (view k). rewrite <- Hf. apply allow_part_others.
Qed.
End Server.
