(* ===== verification/ExitnodeDecision.v ===== *)
(** * ExitnodeDecision: what the exit node forwards

    The decision the FORWARD chain takes for a packet, as [iptables(8)] documents
    it (the first rule that matches decides; the rules of other programs decide as
    they like), and the policy the exit node is meant to implement.  The chain
    that [Enable] and [ResetPeers] leave behind takes exactly the policy's
    decisions for the traffic of the meshnet. *)

From stdpp Require Import base option list strings gmap.
From Stdlib Require Import ZArith Ascii Lia.
From S2P Require Import Prelude GoLib Kernel Mesh Config IPTables Exitnode ExitnodeTables ExitnodeSafety ExitnodeChains ExitnodeServer.
Set Warnings "-clear-no-such-hyp".

Open Scope Z_scope.
Open Scope go_scope.

(** ** Packets and rules *)

(** [pk_reply]: the packet belongs to a connection the machine already tracks. *)
Record Packet : Type := mkPacket {
  pk_src : Z;
  pk_dst : Z;
  pk_out : string;
  pk_proto : string;
  pk_dport : Z;
  pk_reply : bool
}.

Definition text_contains (s : string) (a : Z) : bool :=
  match ParsePrefix s with Some p => prefix_Contains p (AddrV4 a) | None => false end.

(** [-o name]; a name that ends in [+] stands for all that start with it. *)
Fixpoint iface_matches (o i : string) : bool :=
  match o, i with
  | String "+" EmptyString, _ => true
  | EmptyString, EmptyString => true
  | String c o', String d i' => Ascii.eqb c d && iface_matches o' i'
  | _, _ => false
  end.

(** [--dport port] or [--dport first:last]. *)
Definition port_matches (s : string) (port : Z) : bool :=
  match cut_first ":" s with
  | None => match parse_digits digit_val 10 s with Some p => p =? port | None => false end
  | Some (lo, hi) =>
      match parse_digits digit_val 10 lo, parse_digits digit_val 10 hi with
      | Some a, Some b => (a <=? port) && (port <=? b)
      | _, _ => false
      end
  end.

Definition opt_matches {A} (m : A -> bool) (o : option A) : bool :=
  match o with Some x => m x | None => true end.

Definition matches (r : FwdRule) (p : Packet) : bool :=
  opt_matches (fun s => text_contains s (pk_src p)) (f_src r) &&
  opt_matches (fun s => text_contains s (pk_dst p)) (f_dst r) &&
  opt_matches (fun o => iface_matches o (pk_out p)) (f_out r) &&
  opt_matches (fun q => bool_decide (q = pk_proto p)) (f_proto r) &&
  opt_matches (fun s => port_matches s (pk_dport p)) (f_dport r) &&
  opt_matches (fun _ => pk_reply p) (f_ctstate r).

Definition accepts (r : FwdRule) : bool := bool_decide (f_target r = "ACCEPT").

Section Verdict.
(** What a rule of another program decides, when it applies. *)
Context (foreign_verdict : string -> Packet -> option bool).

(** [None] when no rule applies: the chain's policy decides. *)
Fixpoint verdict (l : list (Entry FwdRule)) (p : Packet) : option bool :=
  match l with
  | [] => None
  | Own r :: l' => if matches r p then Some (accepts r) else verdict l' p
  | Other line :: l' =>
      match foreign_verdict line p with Some b => Some b | None => verdict l' p end
  end.

(** Rules with one target. *)
Lemma verdict_uniform rs l p (b : bool) : Forall (fun r => accepts r = b) rs ->
  verdict ((Own <$> rs) ++ l) p = if existsb (fun r => matches r p) rs then Some b else verdict l p.
Proof.
  induction 1 as [|r rs Hr _ IH]; [done|]. cbn. rewrite IH, Hr. by destruct (matches r p).
Qed.
End Verdict.

(** ** The policy *)

Definition is_private (a : Z) : bool := existsb (fun n => prefix_Contains n (AddrV4 a)) private_subnets.

Definition in_mesh (a : Z) : bool := prefix_Contains mesh_network (AddrV4 a).

Definition is_source (p : Packet) (peer : MachinePeer) : bool := bool_decide (p_Address peer = AddrV4 (pk_src p)).

Definition leaves_physical (names : list string) (p : Packet) : bool :=
  existsb (fun n => iface_matches n (pk_out p)) names.

(** A peer's traffic to private addresses needs the local network permission (and
    a machine that can reach its own network), traffic to other addresses the
    routing permission; the kill switch stops the latter at the physical
    interfaces. *)
Definition peer_may (lan killswitch : bool) (names : list string) (p : Packet) (peer : MachinePeer) : bool :=
  if is_private (pk_dst p) then p_DoIAllowLocalNetwork peer && lan
  else p_DoIAllowRouting peer && negb (killswitch && leaves_physical names p).

(** The destinations of the allowlist. *)
Definition allowlisted_subnet (al : Allowlist) (p : Packet) : bool :=
  existsb (fun s => is_local_subnet s && text_contains s (pk_dst p)) (map_to_list (al_Subnets al)).*1.

Definition allowlisted_port (al : Allowlist) (p : Packet) : bool :=
  let listed name (ports : PortSet) :=
    bool_decide (name = pk_proto p) && bool_decide (pk_dport p ∈ (map_to_list ports).*1) &&
    (pk_dport p <=? MaxUint16) in
  listed "tcp" (ports_TCP (al_Ports al)) || listed "udp" (ports_UDP (al_Ports al)).

(** While the machine cannot reach its own network, allowlisted destinations stay
    open to the peers that have the permission. *)
Definition allowlist_may (al : Allowlist) (p : Packet) (peer : MachinePeer) : bool :=
  p_DoIAllowLocalNetwork peer &&
  (allowlisted_subnet al p || (p_DoIAllowRouting peer && allowlisted_port al p)).

Definition may_forward (peers : list MachinePeer) (al : Allowlist) (lan killswitch : bool)
    (names : list string) (p : Packet) : bool :=
  existsb (fun peer => is_source p peer &&
    (peer_may lan killswitch names p peer || (negb lan && allowlist_may al p peer))) peers.

(** ** The rules, one group at a time *)

Lemma existsb_bind {A B} (f : B -> bool) (g : A -> list B) l :
  existsb f (l ≫= g) = existsb (fun x => existsb f (g x)) l.
Proof. induction l as [|x l IH]; [done|]. cbn. by rewrite existsb_app, IH. Qed.

Lemma existsb_perm {A} (f : A -> bool) l1 l2 : l1 ≡ₚ l2 -> existsb f l1 = existsb f l2.
Proof.
  induction 1; cbn; [done|congruence| |congruence]. by rewrite !orb_assoc, (orb_comm (f y)).
Qed.

Lemma existsb_reverse {A} (f : A -> bool) l : existsb f (reverse l) = existsb f l.
Proof. apply existsb_perm, reverse_Permutation. Qed.

Lemma existsb_fmap {A B} (f : B -> bool) (g : A -> B) l : existsb f (g <$> l) = existsb (fun x => f (g x)) l.
Proof. induction l as [|x l IH]; [done|]. cbn. by rewrite IH. Qed.

Lemma existsb_andb_l {A} (b : bool) (f : A -> bool) l : existsb (fun x => b && f x) l = b && existsb f l.
Proof. induction l as [|x l IH]; cbn; [by rewrite andb_false_r|]. rewrite IH. by destruct b, (f x). Qed.

Lemma network_contains p a : is_network p -> text_contains (prefix_String p) a = prefix_Contains p (AddrV4 a).
Proof. intros Hp. unfold text_contains. by rewrite network_parse. Qed.

Lemma mesh_contains a : text_contains meshSrcSubnet a = in_mesh a.
Proof. rewrite <- mesh_network_text. apply network_contains, mesh_is_network. Qed.

Lemma host_contains a x : prefix_Contains (mkPrefix (AddrV4 a) 32) (AddrV4 x) = bool_decide (AddrV4 a = AddrV4 x).
Proof.
  unfold prefix_Contains, prefix_IsValid, in_net. cbn [pfx_bits pfx_addr]. change (32 - 32) with 0.
  rewrite !Z.shiftr_0_r. cbn. destruct (Z.eqb_spec x a); case_bool_decide; congruence.
Qed.

(** Groups of rules against a packet. *)
Lemma matches_peer q p : is_network q -> matches (peer_rule q) p = prefix_Contains q (AddrV4 (pk_src p)).
Proof. intros Hq. unfold matches. cbn. rewrite network_contains by done. by rewrite !andb_true_r. Qed.

Lemma matches_local q n p : is_network q -> is_network n ->
  matches (local_rule q n) p = prefix_Contains q (AddrV4 (pk_src p)) && prefix_Contains n (AddrV4 (pk_dst p)).
Proof. intros Hq Hn. unfold matches. cbn. rewrite !network_contains by done. by rewrite !andb_true_r. Qed.

Lemma matches_private n p : is_network n ->
  matches (private_block n) p = in_mesh (pk_src p) && prefix_Contains n (AddrV4 (pk_dst p)).
Proof.
  intros Hn. unfold matches. cbn [f_src f_dst private_block own_rule mesh_text net_text opt_matches].
  rewrite network_contains, mesh_contains by done. cbn. by rewrite !andb_true_r.
Qed.

Lemma matches_physical i p : matches (physical_block i) p = iface_matches i (pk_out p).
Proof. unfold matches. cbn. by rewrite !andb_true_r. Qed.

Lemma existsb_orb {A} (f g : A -> bool) l : existsb (fun x => f x || g x) l = existsb f l || existsb g l.
Proof. induction l as [|x l IH]; [done|]. cbn. rewrite IH. by destruct (f x), (g x), (existsb f l). Qed.

Lemma existsb_ext_in {A} (f g : A -> bool) l : (forall x, x ∈ l -> f x = g x) -> existsb f l = existsb g l.
Proof.
  induction l as [|x l IH]; intros Hfg; [done|]. cbn. rewrite (Hfg x) by by left.
  rewrite IH; [done|]. intros y Hy. apply Hfg. by right.
Qed.

Lemma existsb_false {A} (f : A -> bool) l : (forall x, x ∈ l -> f x = false) -> existsb f l = false.
Proof.
  intros Hf. induction l as [|x l IH]; [done|]. cbn. rewrite (Hf x) by by left.
  apply IH. intros y Hy. apply Hf. by right.
Qed.

Lemma existsb_omap {A B} (f : B -> bool) (g : A -> option B) l :
  existsb f (omap g l) = existsb (fun x => match g x with Some y => f y | None => false end) l.
Proof. induction l as [|x l IH]; [done|]. cbn. destruct (g x); cbn; by rewrite IH. Qed.

Lemma existsb_swap {A B} (f : A -> B -> bool) l k :
  existsb (fun x => existsb (f x) k) l = existsb (fun y => existsb (fun x => f x y) l) k.
Proof.
  induction l as [|x l IH]; cbn; [by rewrite existsb_false|]. rewrite IH. symmetry. apply existsb_orb.
Qed.

(** A peer as the source of the packet, read off its traffic entry. *)
Definition tp_source (p : Packet) (tp : TrafficPeer) : bool := prefix_Contains (tp_IP tp) (AddrV4 (pk_src p)).

Section Groups.
Context (tps : list TrafficPeer) (Hnet : Forall (fun tp => is_network (tp_IP tp)) tps).

Lemma local_rules_match killswitch p :
  existsb (fun r => matches r p) (local_rules tps killswitch) =
  existsb (fun tp => tp_source p tp &&
    (tp_LocalNetwork tp && (is_private (pk_dst p) || (tp_Routing tp && negb killswitch)))) tps.
Proof.
  unfold local_rules. rewrite existsb_bind, existsb_reverse. apply existsb_ext_in. intros tp Hin.
  rewrite Forall_forall in Hnet. specialize (Hnet tp Hin). unfold tp_source.
  destruct (tp_LocalNetwork tp); [|by rewrite andb_false_r]. destruct (tp_Routing tp && negb killswitch).
  - cbn [existsb]. rewrite matches_peer, orb_false_r, orb_true_r, !andb_true_r by done. done.
  - rewrite existsb_fmap, existsb_reverse, orb_false_r. unfold is_private. cbn [andb].
    rewrite <- existsb_andb_l. apply existsb_ext_in. intros n Hn.
    by rewrite matches_local by (done || by apply private_is_network).
Qed.

Lemma routing_rules_match killswitch p :
  existsb (fun r => matches r p) (routing_rules tps killswitch) =
  existsb (fun tp => tp_source p tp && (tp_Routing tp && (negb (tp_LocalNetwork tp) || killswitch))) tps.
Proof.
  unfold routing_rules. rewrite existsb_bind, existsb_reverse. apply existsb_ext_in. intros tp Hin.
  rewrite Forall_forall in Hnet. specialize (Hnet tp Hin). unfold tp_source.
  destruct (tp_Routing tp && _); [|by rewrite andb_false_r]. cbn. by rewrite matches_peer, orb_false_r, andb_true_r.
Qed.

Lemma blocks_match names killswitch p :
  existsb (fun r => matches r p) (blocks names killswitch) =
  (killswitch && leaves_physical names p) || (in_mesh (pk_src p) && is_private (pk_dst p)).
Proof.
  unfold blocks. rewrite existsb_app. f_equal.
  - destruct killswitch; [|done]. rewrite existsb_fmap, existsb_reverse. apply existsb_ext_in.
    intros i _. apply matches_physical.
  - rewrite existsb_fmap, existsb_reverse. unfold is_private. rewrite <- existsb_andb_l.
    apply existsb_ext_in. intros n Hn. by apply matches_private, private_is_network.
Qed.

Lemma local_accept killswitch : Forall (fun r => accepts r = true) (local_rules tps killswitch).
Proof.
  apply Forall_forall. intros r (tp & Hr & _)%list_elem_of_bind.
  destruct (tp_LocalNetwork tp); [|by apply elem_of_nil in Hr]. destruct (tp_Routing tp && _).
  - by apply list_elem_of_singleton in Hr as ->.
  - by apply list_elem_of_fmap in Hr as (n & -> & _).
Qed.

Lemma routing_accept killswitch : Forall (fun r => accepts r = true) (routing_rules tps killswitch).
Proof.
  apply Forall_forall. intros r (tp & Hr & _)%list_elem_of_bind.
  destruct (tp_Routing tp && _); [|by apply elem_of_nil in Hr]. by apply list_elem_of_singleton in Hr as ->.
Qed.

Lemma blocks_drop names killswitch : Forall (fun r => accepts r = false) (blocks names killswitch).
Proof.
  unfold blocks. apply Forall_app. split; [destruct killswitch; [|by constructor]|];
    apply Forall_fmap, Forall_forall; done.
Qed.

(** What the rules of a reset decide, below the allowlist. *)
Lemma transient_verdict foreign names killswitch l p :
  verdict foreign ((Own <$> transient_rules tps names killswitch) ++ l) p =
  if existsb (fun tp => tp_source p tp &&
       (tp_LocalNetwork tp && (is_private (pk_dst p) || (tp_Routing tp && negb killswitch)))) tps then Some true
  else if (killswitch && leaves_physical names p) || (in_mesh (pk_src p) && is_private (pk_dst p)) then Some false
  else if existsb (fun tp => tp_source p tp &&
       (tp_Routing tp && (negb (tp_LocalNetwork tp) || killswitch))) tps then Some true
  else verdict foreign l p.
Proof.
  unfold transient_rules. rewrite !fmap_app, <- !app_assoc.
  rewrite (verdict_uniform _ _ _ _ true) by apply local_accept.
  rewrite (verdict_uniform _ _ _ _ false) by apply blocks_drop.
  rewrite (verdict_uniform _ _ _ _ true) by apply routing_accept.
  by rewrite local_rules_match, blocks_match, routing_rules_match.
Qed.
End Groups.

(** *** From the peers' permissions to the decision *)

Lemma traffic_existsb peers lan (f : TrafficPeer -> bool) p : Forall peer_ok peers ->
  existsb (fun tp => tp_source p tp && f tp) (traffic_peers peers lan) =
  existsb (fun peer => is_source p peer &&
    f (mkTrafficPeer (prefix_from (p_Address peer) (addr_BitLen (p_Address peer)))
         (p_DoIAllowRouting peer) (p_DoIAllowLocalNetwork peer && lan))) peers.
Proof.
  intros Hp. unfold traffic_peers. rewrite existsb_omap. apply existsb_ext_in. intros peer Hin.
  rewrite Forall_forall in Hp. unfold is_source. destruct (Hp peer Hin) as [Ha|(a & Ha & Hr)]; rewrite Ha; [done|].
  cbn [addr_IsValid]. unfold tp_source. cbn [tp_IP addr_BitLen]. unfold prefix_from. cbn [addr_IsValid addr_BitLen].
  change (0 <=? 32) with true. change (32 <=? 32) with true. cbn [andb]. by rewrite host_contains.
Qed.

(** The decision on the peers' permissions alone, for a packet that the rules
    below drop. *)
Lemma transient_policy foreign peers lan killswitch names l p :
  Forall peer_ok peers -> in_mesh (pk_src p) = true -> verdict foreign l p = Some false ->
  verdict foreign ((Own <$> transient_rules (traffic_peers peers lan) names killswitch) ++ l) p =
  Some (existsb (fun peer => is_source p peer && peer_may lan killswitch names p peer) peers).
Proof.
  intros Hp Hm Hl. rewrite transient_verdict by by apply traffic_peers_networks.
  rewrite Hm, Hl, !traffic_existsb by done. cbn [andb tp_LocalNetwork tp_Routing]. unfold peer_may.
  destruct (is_private (pk_dst p)) eqn:Hpr.
  - rewrite orb_true_r. rewrite (existsb_ext_in _ (fun peer => is_source p peer && (p_DoIAllowLocalNetwork peer && lan)))
      by (intros peer _; by rewrite orb_true_l, andb_true_r).
    by destruct (existsb _ peers).
  - rewrite orb_false_r. destruct killswitch; cbn [andb negb].
    + rewrite existsb_false by (intros peer _; by rewrite andb_false_r, orb_false_r, !andb_false_r).
      destruct (leaves_physical names p); cbn [negb].
      * rewrite existsb_false; [done|]. intros peer _. by rewrite !andb_false_r.
      * rewrite (existsb_ext_in _ (fun peer => is_source p peer && (p_DoIAllowRouting peer && true)))
          by (intros peer _; by rewrite orb_true_r).
        by destruct (existsb _ peers).
    + set (f := fun peer : MachinePeer => _) at 1. set (g := fun peer : MachinePeer => _) at 1.
      rewrite (existsb_ext_in (fun peer => is_source p peer && (p_DoIAllowRouting peer && true)) (fun x => f x || g x)).
      * rewrite existsb_orb. by destruct (existsb f peers), (existsb g peers).
      * intros peer _. unfold f, g.
        by destruct (is_source p peer), (p_DoIAllowRouting peer), (p_DoIAllowLocalNetwork peer), lan.
Qed.

(** ** The allowlist's rules *)

Lemma cut_first_none c s : no_char c s -> cut_first c s = None.
Proof.
  induction s as [|d s IH]; [done|]. intros [Hd Hs]. cbn. rewrite IH by done.
  destruct (Ascii.eqb_spec d c), (Ascii.eqb_spec c d); try congruence; done.
Qed.

Lemma digits_no_colon z : 0 <= z -> no_char ":" (itoa z).
Proof. intros Hz. eapply (all_chars_no_char digit_char); [done|by apply itoa_digits]. Qed.

Lemma destination_matches r x : 0 <= pr_Min r <= pr_Max r ->
  port_matches (destination_text r) x = (pr_Min r <=? x) && (x <=? pr_Max r).
Proof.
  intros Hr. unfold destination_text, port_matches. destruct (Z.eqb_spec (pr_Min r) (pr_Max r)) as [He|He].
  - rewrite cut_first_none, parse_itoa by (try apply digits_no_colon; lia). rewrite <- He.
    destruct (Z.eqb_spec (pr_Min r) x), (Z.leb_spec (pr_Min r) x), (Z.leb_spec x (pr_Min r)); done || lia.
  - change (itoa (pr_Min r) +:+ ":" +:+ itoa (pr_Max r)) with (itoa (pr_Min r) +:+ String ":" (itoa (pr_Max r))).
    rewrite cut_first_app by (apply digits_no_colon; lia). by rewrite !parse_itoa by lia.
Qed.

(** The ranges cover exactly the listed ports. *)
Lemma ranges_match ports x : ports_ok ports ->
  existsb (fun r => port_matches (destination_text r) x) (allowlist_ranges ports) =
  bool_decide (x ∈ (map_to_list ports).*1) && (x <=? MaxUint16).
Proof.
  intros Hp.
  rewrite (existsb_ext_in _ (fun r => (pr_Min r <=? x) && (x <=? pr_Max r)))
    by (intros r Hr; apply destination_matches; by destruct (allowlist_range_bounds ports r Hp Hr)).
  set (l := filter (fun p => p <= MaxUint16) (map_to_list ports).*1).
  assert (forall b c, (b = true <-> c = true) -> b = c) as Heq by (intros [] []; intuition congruence).
  apply Heq. rewrite existsb_exists, andb_true_iff, bool_decide_eq_true, Z.leb_le.
  trans (x ∈ l); [|unfold l; rewrite list_elem_of_filter; tauto].
  rewrite (PortsToPortRanges_cover l x). apply exist_proper. intros r.
  rewrite list_elem_of_In, andb_true_iff, !Z.leb_le. done.
Qed.

Section AllowRules.
Context {K : Type} `{runCommandFunc K} {view : K -> Tables} {norm : string -> string}
  `{HN : !Netfilter K view norm}.

Lemma mask_contains a b x : 0 <= b <= 32 ->
  prefix_Contains (mkPrefix (mask_addr (AddrV4 a) b) b) (AddrV4 x) =
  prefix_Contains (mkPrefix (AddrV4 a) b) (AddrV4 x).
Proof.
  intros Hb. unfold prefix_Contains, in_net. cbn [pfx_addr pfx_bits mask_addr]. f_equal. f_equal.
  rewrite Z.shiftr_shiftl_l by lia. by rewrite Z.sub_diag, Z.shiftl_0_r.
Qed.

Lemma mask_range a b : 0 <= a < 2 ^ 32 -> 0 <= b <= 32 ->
  0 <= Z.shiftl (Z.shiftr a (32 - b)) (32 - b) < 2 ^ 32.
Proof.
  intros Ha Hb. rewrite Z.shiftl_mul_pow2, Z.shiftr_div_pow2 by lia.
  pose proof (Z.pow_pos_nonneg 2 (32 - b)). pose proof (Z.mul_div_le a (2 ^ (32 - b))).
  pose proof (Z.div_pos a (2 ^ (32 - b))). nia.
Qed.

Lemma norm_prefix_contains a b x : 0 <= a < 2 ^ 32 -> 0 <= b <= 32 ->
  text_contains (norm (prefix_String (mkPrefix (AddrV4 a) b))) x =
  text_contains (prefix_String (mkPrefix (AddrV4 a) b)) x.
Proof.
  intros Ha Hb. rewrite nf_norm_prefix by done. unfold text_contains. cbn [mask_addr].
  rewrite !ParsePrefix_String by (done || by apply mask_range). by apply mask_contains.
Qed.

Lemma norm_host_contains a x : 0 <= a < 2 ^ 32 ->
  text_contains (norm (v4_String a)) x = bool_decide (AddrV4 a = AddrV4 x).
Proof.
  intros Ha. rewrite nf_norm_host by done. unfold text_contains.
  rewrite ParsePrefix_String by (done || lia). apply host_contains.
Qed.

Lemma allow_rule_matches destination portType peer p : peer_ok peer ->
  match allow_rule (norm := norm) destination portType peer with Some r => matches r p | None => false end =
  is_source p peer && (p_DoIAllowLocalNetwork peer &&
    (if bool_decide (portType = "") then text_contains (norm destination) (pk_dst p)
     else p_DoIAllowRouting peer && (bool_decide (portType = pk_proto p) && port_matches destination (pk_dport p)))).
Proof.
  intros Hp. unfold allow_rule, allowlist_command, is_source.
  destruct (p_DoIAllowLocalNetwork peer); [|by rewrite andb_false_r].
  destruct Hp as [Ha|(a & Ha & Hr)]; rewrite Ha; [done|]. cbn [negb orb addr_IsValid].
  case_bool_decide as Ht; cbn [negb andb].
  - unfold matches. cbn [f_src f_dst f_out f_proto f_dport f_ctstate opt_matches addr_String].
    by rewrite norm_host_contains, !andb_true_r.
  - destruct (p_DoIAllowRouting peer); cbn [negb]; [|by rewrite andb_false_r].
    unfold matches. cbn [f_src f_dst f_out f_proto f_dport f_ctstate opt_matches addr_String].
    rewrite norm_host_contains by done. by rewrite !andb_true_r, <- andb_assoc.
Qed.

Lemma allow_rules_match peers destination portType p : Forall peer_ok peers ->
  existsb (fun r => matches r p) (allow_rules (norm := norm) peers destination portType) =
  existsb (fun peer => is_source p peer && (p_DoIAllowLocalNetwork peer &&
    (if bool_decide (portType = "") then text_contains (norm destination) (pk_dst p)
     else p_DoIAllowRouting peer && (bool_decide (portType = pk_proto p) && port_matches destination (pk_dport p)))))
    peers.
Proof.
  intros Hp. unfold allow_rules. rewrite existsb_omap. apply existsb_ext_in. intros peer Hin.
  rewrite Forall_forall in Hp. by apply allow_rule_matches, Hp.
Qed.

Lemma port_rules_match peers name ports p : Forall peer_ok peers -> ports_ok ports -> name <> "" ->
  existsb (fun r => matches r p) (port_rules (norm := norm) peers name ports) =
  existsb (fun peer => is_source p peer && (p_DoIAllowLocalNetwork peer && (p_DoIAllowRouting peer &&
    (bool_decide (name = pk_proto p) && (bool_decide (pk_dport p ∈ (map_to_list ports).*1) &&
     (pk_dport p <=? MaxUint16)))))) peers.
Proof.
  intros Hp Ho Hn. unfold port_rules. rewrite existsb_bind.
  rewrite (existsb_ext_in _ _ _ (fun r _ => allow_rules_match peers (destination_text r) name p Hp)).
  rewrite existsb_swap. apply existsb_ext_in. intros peer _. rewrite bool_decide_eq_false_2 by done.
  by rewrite !existsb_andb_l, ranges_match.
Qed.

(** The rules of an allowlist accept exactly what the allowlist opens. *)
Lemma rules_of_match al peers p : Forall peer_ok peers -> allowlist_ok al ->
  existsb (fun r => matches r p) (rules_of (norm := norm) al peers) =
  existsb (fun peer => is_source p peer && allowlist_may al p peer) peers.
Proof.
  intros Hp Hal. unfold rules_of, allowlist_rules. rewrite !existsb_app, existsb_bind.
  rewrite !port_rules_match by (done || apply Hal).
  rewrite (existsb_ext_in _ (fun s => existsb (fun peer => is_source p peer && (p_DoIAllowLocalNetwork peer &&
             (is_local_subnet s && text_contains s (pk_dst p)))) peers)).
  - rewrite existsb_swap, <- !existsb_orb. apply existsb_ext_in. intros peer _.
    rewrite !existsb_andb_l. unfold allowlist_may, allowlisted_port. fold (allowlisted_subnet al p).
    destruct (is_source p peer), (p_DoIAllowLocalNetwork peer), (allowlisted_subnet al p),
      (p_DoIAllowRouting peer); cbn; by rewrite ?andb_assoc.
  - intros s Hs. destruct (is_local_subnet s).
    + rewrite allow_rules_match by done. apply existsb_ext_in. intros peer _. cbn [andb].
      destruct (ao_subnets al Hal s Hs) as (a & b & Ha & Hb & ->).
      rewrite bool_decide_eq_true_2 by done. by rewrite norm_prefix_contains.
    + cbn [existsb andb]. rewrite existsb_false; [done|]. intros peer _. by rewrite !andb_false_r.
Qed.

Lemma rules_of_accept al peers : Forall (fun r => accepts r = true) (rules_of (norm := norm) al peers).
Proof.
  assert (forall ps d t, Forall (fun r => accepts r = true) (allow_rules (norm := norm) ps d t)) as Ha.
  { intros ps d t. apply Forall_forall. intros r (q & _ & Hr)%list_elem_of_omap. revert Hr. unfold allow_rule.
    destruct (allowlist_command _ _ _ _); [|done]. intros [= <-]. by case_bool_decide. }
  apply Forall_forall. intros r Hr. unfold rules_of, allowlist_rules, port_rules in Hr.
  rewrite !elem_of_app, !list_elem_of_bind in Hr.
  destruct Hr as [(x & Hr & _)|[(x & Hr & _)|(x & Hr & _)]].
  - destruct (is_local_subnet x); [|by apply elem_of_nil in Hr]. exact (proj1 (Forall_forall _ _) (Ha _ _ _) r Hr).
  - exact (proj1 (Forall_forall _ _) (Ha _ _ _) r Hr).
  - exact (proj1 (Forall_forall _ _) (Ha _ _ _) r Hr).
Qed.
End AllowRules.
