(* ===== verification/ExitnodeProps.v ===== *)
(** * ExitnodeProps: theorems about the exit node

    The theorems of the exit node with their witnesses, and a concrete
    [iptables] (the tables themselves) that satisfies [Netfilter]. *)

From stdpp Require Import base option list strings gmap.
From Stdlib Require Import ZArith Ascii Lia.
From S2P Require Import Prelude GoLib Kernel Mesh Config IPTables Exitnode ExitnodeTables ExitnodeSafety ExitnodeChains ExitnodeServer ExitnodeDecision.
Set Warnings "-clear-no-such-hyp".

Open Scope Z_scope.
Open Scope go_scope.

(** ** A concrete [iptables] *)

Module TablesModel.

(** Networks are masked and hosts get their mask, as [iptables] prints them. *)
Definition norm (s : string) : string :=
  match ParsePrefix s with
  | Some (mkPrefix (AddrV4 a) b) =>
      if bool_decide (0 <= a < 2 ^ 32) && bool_decide (0 <= b <= 32)
      then prefix_String (mkPrefix (mask_addr (AddrV4 a) b) b) else s
  | Some _ => s
  | None =>
      match ParseAddr s with
      | Some (AddrV4 a) => if bool_decide (0 <= a < 2 ^ 32) then prefix_String (mkPrefix (AddrV4 a) 32) else s
      | _ => s
      end
  end.

#[export] Instance run_tables : runCommandFunc Tables := {|
  run_iptables args t := iptables norm args t;
  range_keys m _ := (map_to_list m).*1
|}.

Lemma norm_prefix a b : 0 <= a < 2 ^ 32 -> 0 <= b <= 32 ->
  norm (prefix_String (mkPrefix (AddrV4 a) b)) = prefix_String (mkPrefix (mask_addr (AddrV4 a) b) b).
Proof.
  intros Ha Hb. unfold norm. rewrite ParsePrefix_String by done.
  by rewrite !bool_decide_eq_true_2 by done.
Qed.

Lemma v4_no_slash a : no_char "/" (v4_String a).
Proof.
  rewrite v4_String_eq.
  repeat (apply no_char_app; [apply itoa_byte_no_char; [by right|apply octet_range]|split; [done|]]).
  apply itoa_byte_no_char; [by right|apply octet_range].
Qed.

Lemma norm_host a : 0 <= a < 2 ^ 32 -> norm (v4_String a) = prefix_String (mkPrefix (AddrV4 a) 32).
Proof.
  intros Ha. unfold norm.
  assert (ParsePrefix (v4_String a) = None) as ->
    by (unfold ParsePrefix; by rewrite (cut_last_none "/" _ (v4_no_slash a))).
  by rewrite ParseAddr_v4, bool_decide_eq_true_2.
Qed.

(** What [norm] returns: the text, or a network. *)
Lemma norm_cases s : norm s = s \/ exists p, is_network p /\ norm s = prefix_String p.
Proof.
  unfold norm. destruct (ParsePrefix s) as [[[|a|a] b]|]; [by left| |by left|].
  - destruct (bool_decide (0 <= a < 2 ^ 32)) eqn:Ha, (bool_decide (0 <= b <= 32)) eqn:Hb; try by left.
    apply bool_decide_eq_true in Ha, Hb. right. eexists. split; [|reflexivity].
    eexists. split; [reflexivity|]. split; [by apply mask_range|]. split; [done|]. cbn [pfx_bits mask_addr].
    f_equal. rewrite Z.shiftr_shiftl_l by lia. by rewrite Z.sub_diag, Z.shiftl_0_r.
  - destruct (ParseAddr s) as [[|a|a]|]; try by left.
    destruct (bool_decide (0 <= a < 2 ^ 32)) eqn:Ha; [|by left]. apply bool_decide_eq_true in Ha.
    right. eexists. split; [|reflexivity]. exists a. repeat split; try (cbn; lia).
Qed.

#[export] Instance netfilter : Netfilter Tables (fun t => t) norm.
Proof.
  split; try done.
  - intros s. destruct (norm_cases s) as [Hs|(p & (a & Hp & Ha & Hb & Hm) & Hs)]; [by rewrite !Hs|].
    rewrite Hs. destruct p as [x b]. cbn [pfx_addr pfx_bits] in *. subst x. by rewrite norm_prefix, Hm.
  - intros s Hs. destruct (norm_cases s) as [->|(p & Hp & ->)]; [done|by apply network_plain].
  - apply norm_prefix.
  - apply norm_host.
Qed.

(** A kernel parameter that can be written. *)
#[export] Instance flag_sysctl : SysctlSetter bool := {|
  sysctl_Set := fun _ => (Ok tt, true);
  sysctl_Unset := fun _ => (Ok tt, false)
|}.

#[export] Instance flag_works : SysctlWorks bool.
Proof. split; intros x; by eexists. Qed.

End TablesModel.

(** ** Theorems *)

Section Theorems.
Context {K T : Type} `{runCommandFunc K} `{SysctlSetter T} {view : K -> Tables}
  {norm : string -> string} `{HN : !Netfilter K view norm} `{HT : !SysctlWorks T}.
Implicit Types (s : Server K T).
#[local] Abbreviation tables := (tables (view := view)).
#[local] Abbreviation serves := (serves (view := view) (norm := norm)).
#[local] Abbreviation rules_of := (rules_of (norm := norm)).

(** The calls a refresh of the meshnet makes to the exit node. *)
Definition refresh_node (peers : list MachinePeer) (lan killswitch : bool) : M (Server K T) unit :=
  Disable ;; Enable ;; ResetPeers peers lan killswitch.

Lemma others_clean l : Forall (fun e => has_comment filtering e = false) (others l).
Proof. apply Forall_forall. by intros [r|line] [He _]%list_elem_of_filter. Qed.

Lemma base_permanent l : base ((Own <$> permanent_rules) ++ others l) = (Own <$> permanent_rules) ++ others l.
Proof.
  unfold base. rewrite filter_app.
  change (filter _ (Own <$> permanent_rules)) with (Own <$> permanent_rules).
  rewrite without_allow_app, (without_allow_Own permanent_rules) by apply permanent_not_allow. f_equal.
  unfold others. rewrite list_filter_filter_r by (by intros [] ?).
  apply without_allow_none, allow_part_others.
Qed.

(** The chain after a refresh. *)
Lemma refresh_chain f s peers lan killswitch : serves f s -> Forall peer_ok peers ->
  exists s' rs, refresh_node peers lan killswitch s = (Ok tt, s') /\ serves f s' /\
    (if lan then rs = [] else rs ≡ₚ rules_of (am_allowlist s) peers) /\
    t_forward (tables s') =
      (Own <$> rs) ++ (Own <$> transient_rules (traffic_peers peers lan) (en_interfaceNames s) killswitch) ++
      (Own <$> permanent_rules) ++ t_forward f.
Proof.
  intros Hs Hp. destruct (Disable_spec s (proj1 Hs)) as (k1 & x1 & E1 & Hv1).
  destruct (Disable_keeps f s Hs) as (s1 & E1' & Hs1). rewrite E1 in E1'. injection E1' as <-.
  set (s1 := s <| en_sysctlSetter := x1 |> <| en_iptables := k1 |> <| en_enabled := false |>) in *.
  destruct (Enable_spec s1 (proj1 Hs1)) as (k2 & x2 & E2 & Hv2).
  destruct (Enable_keeps f s1 Hs1) as (s2 & E2' & Hs2). rewrite E2 in E2'. injection E2' as <-.
  set (s2 := s1 <| en_sysctlSetter := x2 |> <| en_iptables := k2 |> <| en_enabled := true |>) in *.
  destruct (ResetPeers_keeps f peers lan killswitch Hp s2 Hs2) as (s3 & E3 & Hs3).
  assert (server_ok (view := view) (norm := norm) (s2 <| en_peers := peers |>)) as Hok.
  { destruct Hs2 as [[] _]. by split. }
  destruct (resetPeers_spec _ lan killswitch Hok) as (k3 & rs & E3' & Hrs & Hv3).
  change (ResetPeers peers lan killswitch s2) with (resetPeers lan killswitch (s2 <| en_peers := peers |>)) in E3.
  rewrite E3 in E3'. injection E3' as ->. eexists _, rs. split; [|split; [exact Hs3|split; [exact Hrs|]]].
  - unfold refresh_node. by rewrite (bind_ok _ _ _ _ _ E1), (bind_ok _ _ _ _ _ E2).
  - change (tables _) with (view k3). rewrite Hv3.
    change (tables (s2 <| en_peers := peers |>)) with (view k2). rewrite Hv2.
    change (tables s1) with (view k1). rewrite Hv1, (filtering_found_clean (norm := norm)).
    + assert (forall rs ps ns ks t, t_forward (reset_tables rs ps ns ks t) =
        (Own <$> rs ++ transient_rules ps ns ks) ++ base (t_forward t)) as -> by done.
      change (t_forward (push_all permanent_rules (foreign_part (tables s)))) with
        ((Own <$> permanent_rules) ++ others (t_forward (tables s))).
      rewrite base_permanent, fmap_app, <- app_assoc. destruct Hs as [_ <-]. done.
    + rewrite <- Hv1. exact (proj1 (so_tables _ (proj1 Hs1))).
    + apply others_clean.
Qed.

Lemma permanent_drops foreign l p : in_mesh (pk_src p) = true -> in_mesh (pk_dst p) = false ->
  verdict foreign ((Own <$> permanent_rules) ++ l) p = Some false.
Proof.
  intros Hs Hd. unfold permanent_rules. cbn [fmap list_fmap app verdict].
  unfold matches. cbn [f_src f_dst f_out f_proto f_dport f_ctstate established_accept to_mesh_drop from_mesh_drop
    own_rule mesh_text opt_matches]. rewrite (mesh_contains (pk_src p)), !(mesh_contains (pk_dst p)), Hs, Hd. done.
Qed.

(** The rules of the allowlist on top of the others. *)
Lemma allow_verdict foreign al peers (lan : bool) rs l p (b : bool) : Forall peer_ok peers -> allowlist_ok al ->
  (if lan then rs = [] else rs ≡ₚ rules_of al peers) -> verdict foreign l p = Some b ->
  verdict foreign ((Own <$> rs) ++ l) p =
  Some (b || (negb lan && existsb (fun peer => is_source p peer && allowlist_may al p peer) peers)).
Proof.
  intros Hp Hal Hrs Hl. destruct lan; cbn [negb andb]; [subst rs; by rewrite orb_false_r|].
  rewrite (verdict_uniform _ _ _ _ true) by (rewrite Hrs; apply rules_of_accept).
  rewrite (existsb_perm _ _ _ Hrs), rules_of_match, Hl by done.
  destruct (existsb _ peers); [by rewrite orb_true_r|by rewrite orb_false_r].
Qed.

Lemma may_forward_split peers al lan killswitch names p :
  may_forward peers al lan killswitch names p =
  existsb (fun peer => is_source p peer && peer_may lan killswitch names p peer) peers ||
  (negb lan && existsb (fun peer => is_source p peer && allowlist_may al p peer) peers).
Proof.
  unfold may_forward. rewrite <- existsb_andb_l, <- existsb_orb. apply existsb_ext_in. intros peer _.
  by destruct (is_source p peer), (negb lan).
Qed.

(** C4: After a refresh of the meshnet the FORWARD chain decides for every packet
    that comes from the meshnet and leaves it exactly as the peers' permissions,
    the kill switch and the allowlist say, whatever the rules of other programs:
    a peer without the permission is dropped, a peer with it gets through. *)
Theorem exit_node_implements_policy f s peers lan killswitch foreign p :
  serves f s -> Forall peer_ok peers -> in_mesh (pk_src p) = true -> in_mesh (pk_dst p) = false ->
  exists s', refresh_node peers lan killswitch s = (Ok tt, s') /\
    verdict foreign (t_forward (tables s')) p =
    Some (may_forward peers (am_allowlist s) lan killswitch (en_interfaceNames s) p).
Proof.
  intros Hs Hp Hsrc Hdst. destruct (refresh_chain f s peers lan killswitch Hs Hp) as (s' & rs & E & _ & Hrs & Hc).
  exists s'. split; [done|]. rewrite Hc.
  rewrite (allow_verdict _ (am_allowlist s) peers lan _ _ _ _ Hp (so_allowlist _ (proj1 Hs)) Hrs)
    by (apply transient_policy; [done|done|by apply permanent_drops]).
  by rewrite may_forward_split.
Qed.

(** A packet from outside the meshnet to a meshnet address is forwarded by
    the exit node exactly when it belongs to a tracked connection: peers cannot be
    reached from outside on their own. *)
Theorem exit_node_admits_replies_only f s peers lan killswitch foreign p :
  serves f s -> Forall peer_ok peers -> in_mesh (pk_src p) = false -> in_mesh (pk_dst p) = true ->
  existsb (is_source p) peers = false -> killswitch && leaves_physical (en_interfaceNames s) p = false ->
  exists s', refresh_node peers lan killswitch s = (Ok tt, s') /\
    verdict foreign (t_forward (tables s')) p = Some (pk_reply p).
Proof.
  intros Hs Hp Hsrc Hdst Hno Hks.
  destruct (refresh_chain f s peers lan killswitch Hs Hp) as (s' & rs & E & _ & Hrs & Hc).
  assert (forall h, existsb (fun peer => is_source p peer && h peer) peers = false) as Hnone.
  { intros h. apply not_true_iff_false. intros (x & Hx & Hh)%existsb_exists.
    apply not_true_iff_false in Hno. apply Hno, existsb_exists. exists x.
    by apply andb_true_iff in Hh as [? _]. }
  exists s'. split; [done|]. rewrite Hc.
  rewrite (allow_verdict _ (am_allowlist s) peers lan _ _ _ (pk_reply p) Hp (so_allowlist _ (proj1 Hs)) Hrs).
  { by rewrite Hnone, andb_false_r, orb_false_r. }
  rewrite transient_verdict by by apply traffic_peers_networks.
  rewrite !traffic_existsb, !Hnone, Hks, Hsrc by done. cbn [orb andb].
  unfold permanent_rules. cbn [fmap list_fmap app verdict]. unfold matches.
  cbn [f_src f_dst f_out f_proto f_dport f_ctstate established_accept to_mesh_drop own_rule mesh_text opt_matches].
  rewrite !mesh_contains, Hdst. by destruct (pk_reply p).
Qed.

(** C11: Whatever requests the exit node has served, disabling it succeeds and
    gives the FORWARD and POSTROUTING chains back exactly as the other programs
    left them. *)
Theorem exit_node_disable_restores_tables names k al (x : T) ops :
  wf_tables (norm := norm) (view k) -> foreign_part (view k) = view k ->
  Forall plain names -> allowlist_ok al -> Forall op_ok ops ->
  exists s', (forM_ ops node_op ;; Disable) (NewServer names k al x) = (Ok tt, s') /\
    tables s' = view k /\ en_enabled s' = false.
Proof.
  intros Hw Hf Hn Hal Hops.
  destruct (node_ops_keep (view k) ops Hops _ (NewServer_serves names k al x Hw Hf Hn Hal)) as (s1 & E & Hs1).
  destruct (Disable_spec s1 (proj1 Hs1)) as (k' & x' & E' & Hv). eexists.
  rewrite (bind_ok _ _ _ _ _ E), E'. split; [reflexivity|]. split; [|done].
  change (tables _) with (view k'). by rewrite Hv, (proj2 Hs1).
Qed.

(** Enabling filtering puts the three permanent rules on top of the chain
    unless some rule of the exit node already names the meshnet subnet; then it
    adds nothing, so what a half-finished or out-of-order enabling left behind is
    taken for a complete set. *)
Theorem enable_filtering_all_or_nothing k :
  wf_tables (norm := norm) (view k) ->
  exists k', enableFiltering k = (Ok tt, k') /\
    (existsb names_mesh (t_forward (view k)) = true -> view k' = view k) /\
    (Forall (fun e => has_comment filtering e = false) (t_forward (view k)) ->
     view k' = push_all permanent_rules (view k)).
Proof.
  intros (Hw & _). destruct (does_enable (norm := norm) (view k) Hw k eq_refl) as (k' & E & Hv).
  exists k'. split; [done|]. rewrite Hv. split; intros Hx.
  - by rewrite (filtering_found_named (norm := norm)).
  - by rewrite (filtering_found_clean (norm := norm)).
Qed.
End Theorems.

(** ** Concrete runs *)

Module Runs.
Import TablesModel.

Definition peer_at (a : Z) (routing local : bool) : MachinePeer :=
  zero_peer <| p_Address := AddrV4 a |> <| p_DoIAllowRouting := routing |> <| p_DoIAllowLocalNetwork := local |>.

Definition alice : Z := v4 100 64 0 7.
Definition bob : Z := v4 100 64 0 8.
Definition peers : list MachinePeer := [peer_at alice true false; peer_at bob true true].

Definition printers : Allowlist := mkAllowlist (mkPorts {[ 631 := true ]} ∅) {[ "192.168.1.0/24" := true ]}.

Definition docker_line : string := "-A FORWARD -i docker0 -j ACCEPT".
Definition start : Tables := mkTables [Other docker_line] [] ["-P INPUT ACCEPT"].
Definition node : Server Tables bool := NewServer ["eth0"] start printers false.

Definition to_web (src : Z) (out : string) : Packet := mkPacket src (v4 1 1 1 1) out "tcp" 443 false.
Definition to_printer (src : Z) : Packet := mkPacket src (v4 192 168 1 9) "eth0" "tcp" 631 false.
Definition from_web (reply : bool) : Packet := mkPacket (v4 1 1 1 1) alice "nordlynx" "tcp" 50000 reply.

Lemma start_wf : wf_tables (norm := norm) start.
Proof. split; [|split]; repeat constructor; by repeat split. Qed.

Lemma printers_ok : allowlist_ok printers.
Proof.
  split.
  - intros s Hs. vm_compute in Hs. apply list_elem_of_singleton in Hs as ->.
    exists (v4 192 168 1 0), 24. repeat split; vm_compute; congruence.
  - intros p Hp. vm_compute in Hp. apply list_elem_of_singleton in Hp as ->. lia.
  - intros p Hp. vm_compute in Hp. by apply elem_of_nil in Hp.
Qed.

Lemma peers_ok : Forall peer_ok peers.
Proof.
  apply Forall_cons. split; [|apply Forall_cons; split; [|by apply Forall_nil]];
    right; eexists; (split; [reflexivity|]); vm_compute; split; congruence.
Qed.

Lemma names_plain : Forall plain ["eth0"].
Proof. repeat constructor; by repeat split. Qed.

Lemma node_serves : serves (view := fun t => t) (norm := norm) start node.
Proof.
  apply (NewServer_serves (view := fun t => t) (norm := norm) ["eth0"] start printers false);
    [apply start_wf|done|apply names_plain|apply printers_ok].
Qed.

(** With the kill switch on and no local network: Alice reaches the web only
    through a tunnel, Bob the allowlisted printer. *)
Lemma exit_node_implements_policy_witness :
  (exists s', refresh_node peers false true node = (Ok tt, s') /\
     verdict (fun _ _ => Some true) (t_forward (en_iptables s')) (to_web alice "nordtun") = Some true) /\
  (exists s', refresh_node peers false true node = (Ok tt, s') /\
     verdict (fun _ _ => Some true) (t_forward (en_iptables s')) (to_web alice "eth0") = Some false) /\
  (exists s', refresh_node peers false true node = (Ok tt, s') /\
     verdict (fun _ _ => Some true) (t_forward (en_iptables s')) (to_printer bob) = Some true).
Proof.
  split; [|split].
  - destruct (exit_node_implements_policy start node peers false true (fun _ _ => Some true)
      (to_web alice "nordtun") node_serves peers_ok eq_refl eq_refl) as (s' & E & Hv).
    exists s'. split; [exact E|]. etrans; [exact Hv|]. vm_compute. reflexivity.
  - destruct (exit_node_implements_policy start node peers false true (fun _ _ => Some true)
      (to_web alice "eth0") node_serves peers_ok eq_refl eq_refl) as (s' & E & Hv).
    exists s'. split; [exact E|]. etrans; [exact Hv|]. vm_compute. reflexivity.
  - destruct (exit_node_implements_policy start node peers false true (fun _ _ => Some true)
      (to_printer bob) node_serves peers_ok eq_refl eq_refl) as (s' & E & Hv).
    exists s'. split; [exact E|]. etrans; [exact Hv|]. vm_compute. reflexivity.
Defined.

Lemma exit_node_admits_replies_only_witness :
  exists s', refresh_node peers true false node = (Ok tt, s') /\
    verdict (fun _ _ => Some true) (t_forward (en_iptables s')) (from_web false) = Some false.
Proof.
  exact (exit_node_admits_replies_only start node peers true false (fun _ _ => Some true)
    (from_web false) node_serves peers_ok eq_refl eq_refl eq_refl eq_refl).
Defined.

Lemma exit_node_disable_restores_tables_witness :
  exists s', (forM_ [OpEnable; OpResetPeers peers false true; OpSetAllowlist empty_allowlist false;
                     OpResetFirewall true false] node_op ;; Disable)
      (NewServer ["eth0"] start printers false : Server Tables bool) = (Ok tt, s') /\
    en_iptables s' = start /\ en_enabled s' = false.
Proof.
  apply (exit_node_disable_restores_tables (view := fun t => t) (norm := norm) ["eth0"] start printers false);
    [apply start_wf|done|apply names_plain|apply printers_ok|].
  rewrite !Forall_cons. repeat split; try exact peers_ok; try done;
    intros p Hp; vm_compute in Hp; by apply elem_of_nil in Hp.
Defined.

(** Only the first of the three rules was inserted: enabling again leaves it. *)
Lemma enable_filtering_all_or_nothing_witness :
  exists k', enableFiltering (start <| t_forward := [Own from_mesh_drop] |>) = (Ok tt, k') /\
    k' = start <| t_forward := [Own from_mesh_drop] |>.
Proof.
  destruct (enable_filtering_all_or_nothing (view := fun t => t) (norm := norm)
    (start <| t_forward := [Own from_mesh_drop] |>)) as (k' & E & Hsame & _).
  - split; [|split]; repeat constructor; by repeat split.
  - exists k'. split; [exact E|]. apply Hsame. vm_compute. reflexivity.
Defined.

(** An interface whose name contains [-A] ends the resets: the deletion of
    its kill switch rule rewrites the name too ([strings.Replace(rule, "-A",
    "-D", -1)]), so the next reset fails, the old rules stay and permissions are
    no longer applied. *)
Theorem interface_name_blocks_resets :
  exists t e, resetPeersTraffic [] ["LAN-A"] true start = (Ok tt, t) /\
    (resetPeersTraffic (traffic_peers peers true) ["LAN-A"] false t).1 = Err e /\
    Own (physical_block "LAN-A") ∈ t_forward (resetPeersTraffic (traffic_peers peers true) ["LAN-A"] false t).2.
Proof.
  eexists _, _. split; [vm_compute; reflexivity|]. split; [vm_compute; reflexivity|].
  apply (bool_decide_unpack _). vm_compute. exact I.
Qed.
End Runs.
