(* ===== verification/Auth.v ===== *)
(** * Auth: the account of the user

    Models [auth/auth.go]: the checker that tells whether the user is logged in,
    renews expired tokens and credentials, and reads the services of the account;
    and the configuration manager it and the daemon share, as an interface whose
    calls may fail ([config.Manager]).  The checker's mutex makes every exported
    method atomic.  [time.Parse] for the one layout the API uses is written
    out. *)

From stdpp Require Import base option list strings gmap.
From Stdlib Require Import ZArith Ascii Lia.
From S2P Require Import Prelude GoLib Api Mesh Config.
Set Warnings "-clear-no-such-hyp".

Open Scope Z_scope.
Open Scope go_scope.

(** ** Dates: [time.Parse("2006-01-02 15:04:05", s)] in nanoseconds *)

(** Two digits; one is enough where the layout is not fixed. *)
Definition getnum (fixed : bool) (s : string) : option (Z * string) :=
  match s with
  | String a s1 =>
      x ← digit_val a;
      match s1 with
      | String b s2 =>
          match digit_val b with
          | Some y => Some (10 * x + y, s2)
          | None => if fixed : bool then None else Some (x, s1)
          end
      | EmptyString => if fixed then None else Some (x, s1)
      end
  | EmptyString => None
  end.

Definition get_year (s : string) : option (Z * string) :=
  match s with
  | String a (String b (String c (String d rest))) =>
      x ← digit_val a; y ← digit_val b; z ← digit_val c; w ← digit_val d;
      Some (1000 * x + 100 * y + 10 * z + w, rest)
  | _ => None
  end.

Definition skip_char (c : ascii) (s : string) : option string :=
  match s with String a rest => if Ascii.eqb a c then Some rest else None | EmptyString => None end.

Fixpoint cutspace (s : string) : string :=
  match s with String " " rest => cutspace rest | _ => s end.

(** A space of the layout stands for any number of spaces, none at the end. *)
Definition skip_space (s : string) : option string :=
  match s with
  | EmptyString => Some EmptyString
  | String a _ => if Ascii.eqb a " " then Some (cutspace s) else None
  end.

Fixpoint span_digits (s : string) : string * string :=
  match s with
  | String c rest =>
      match digit_val c with
      | Some _ => let '(ds, t) := span_digits rest in (String c ds, t)
      | None => (EmptyString, s)
      end
  | EmptyString => (EmptyString, s)
  end.

(** A fraction of a second may follow the seconds: at most nine digits count. *)
Definition get_fraction (s : string) : option (Z * string) :=
  match s with
  | String c (String d rest) =>
      if (Ascii.eqb c "." || Ascii.eqb c ",") && digit_char d then
        let '(ds, t) := span_digits (String d rest) in
        let ds := String.substring 0 9 ds in
        n ← parse_digits digit_val 10 ds;
        Some (n * 10 ^ (9 - Z.of_nat (String.length ds)), t)
      else Some (0, s)
  | _ => Some (0, s)
  end.

Definition is_leap (y : Z) : bool :=
  (y mod 4 =? 0) && (negb (y mod 100 =? 0) || (y mod 400 =? 0)).

Definition days_in (m y : Z) : Z :=
  if m =? 2 then if is_leap y then 29 else 28
  else if (m =? 4) || (m =? 6) || (m =? 9) || (m =? 11) then 30 else 31.

(** Days from the beginning of year 0 to a date of the Gregorian calendar. *)
Definition days_before (y m d : Z) : Z :=
  365 * y + (y + 3) / 4 - (y + 99) / 100 + (y + 399) / 400 +
  foldr (fun k acc => days_in (Z.of_nat k) y + acc) 0 (seq 1 (Z.to_nat (m - 1))) + (d - 1).

(** Nanoseconds since 1970-01-01 00:00:00 UTC. *)
Definition unix_nano (y m d hour min sec ns : Z) : Z :=
  (((days_before y m d - days_before 1970 1 1) * 24 + hour) * 60 + min) * 60 * 1000000000 +
  sec * 1000000000 + ns.

Definition time_Parse (s : string) : option Z :=
  '(y, s) ← get_year s; s ← skip_char "-" s;
  '(m, s) ← getnum true s; s ← skip_char "-" s;
  '(d, s) ← getnum true s; s ← skip_space s;
  '(hour, s) ← getnum false s; s ← skip_char ":" s;
  '(min, s) ← getnum true s; s ← skip_char ":" s;
  '(sec, s) ← getnum true s;
  '(ns, s) ← get_fraction s;
  if (1 <=? m) && (m <=? 12) && (1 <=? d) && (d <=? days_in m y) && (hour <? 24) && (min <? 60) &&
     (sec <? 60) && bool_decide (s = "")
  then Some (unix_nano y m d hour min sec ns) else None.

Example epoch_parses : time_Parse "1970-01-02 00:00:01.5" = Some 86401500000000.
Proof. reflexivity. Qed.
Example max_date_parses : is_Some (time_Parse "9999-12-31 00:00:00").
Proof. eexists. vm_compute. reflexivity. Qed.
Example other_layout_refused : time_Parse "Wed Sep 18 09:27:12 UTC 2019" = None.
Proof. reflexivity. Qed.

(** ** The configuration manager and the credentials API *)

(** [cm_load]: [None] when [Load] succeeds, else the error and what it leaves in
    the struct; [cm_save]: the error of [SaveWith]. *)
Class ConfigManager (E : Type) : Type := {
  cm_load : E -> option (error * Config) * E;
  cm_save : E -> option error * E
}.

Record TokenRenewResponse : Type := mkTokenRenewResponse {
  tr_Token : string; tr_RenewToken : string; tr_ExpiresAt : string }.
Record NotificationCredentialsResponse : Type := mkNotificationCredentialsResponse {
  nr_Endpoint : string; nr_Username : string; nr_Password : string }.
Record TrustedPassTokenResponse : Type := mkTrustedPassTokenResponse { tp_OwnerID : string; tp_Token : string }.
Record CredentialsResponse : Type := mkCredentialsResponse {
  cd_ID : Z; cd_Username : string; cd_Password : string; cd_NordlynxPrivateKey : string }.
Record ServiceData : Type := mkServiceData {
  svc_ID : Z; svc_ExpiresAt : string; svc_ServiceID : Z; svc_Servers : list Z }.

(** The API calls, the clock and the order of a [range] over the accounts. *)
Class CredentialsAPI (E : Type) : Type := {
  creds_TokenRenew : string -> M E TokenRenewResponse;
  creds_NotificationCredentials : string -> string -> M E NotificationCredentialsResponse;
  creds_TrustedPassToken : string -> M E TrustedPassTokenResponse;
  creds_ServiceCredentials : string -> M E CredentialsResponse;
  creds_Services : string -> M E (list ServiceData);
  creds_MultifactorAuthStatus : string -> M E string;
  time_UnixNano : E -> Z * E;
  range_tokens : gmap Z TokenData -> E -> list (Z * TokenData) * E
}.

(** The configuration on disk beside the environment. *)
Record Store (E : Type) : Type := mkStore { so_cfg : Config; so_env : E }.
Arguments mkStore {E} _ _.
Arguments so_cfg {E} _.
Arguments so_env {E} _.
#[export] Instance Store_eta {E} : EtaExpand (Store E) := fun s => mkStore (so_cfg s) (so_env s).

Section Manager.
Context {E : Type} `{ConfigManager E}.
#[local] Abbreviation ST := (M (Store E)).

Definition in_env {A} (m : M E A) : ST A := zoom so_env (fun e s => s <| so_env := e |>) m.

Definition ask {A} (f : E -> A * E) : ST A := fun s =>
  let '(a, e) := f (so_env s) in (Ok a, s <| so_env := e |>).

(** [var cfg config.Config; if err := cm.Load(&cfg); err != nil { return err }]. *)
Definition cm_Load : ST Config :=
  let! r := ask cm_load in
  match r with
  | None => gets so_cfg
  | Some (e, _) => throw e
  end.

(** The same with the error only logged: the code goes on with what is in [cfg]. *)
Definition cm_LoadLogged : ST Config :=
  let! r := ask cm_load in
  match r with
  | None => gets so_cfg
  | Some (_, c) => ret c
  end.

Definition cm_SaveWith (fn : Config -> Config) : ST unit :=
  let! r := ask cm_save in
  match r with
  | None => modify (fun s => s <| so_cfg := fn (so_cfg s) |>)
  | Some e => throw e
  end.
End Manager.

(** ** The renewing checker *)

Definition VPNServiceID : Z := 1.
Definition DedicatedIPServiceID : Z := 11.
Definition NoServerSelected : Z := -1.

Record DedicatedIPService : Type := mkDedicatedIPService { dip_ExpiresAt : string; dip_ServerID : Z }.

Definition MFAEnabledStatusName : string := "enabled".

(** Replace the entry of a user; an absent one starts from the zero value. *)
Definition update_token (userID : Z) (f : TokenData -> TokenData) (c : Config) : Config :=
  c <| cfg_TokensData := <[userID := f (token_of c userID)]> (cfg_TokensData c) |>.

Definition saveLoginToken (userID : Z) (data : TokenData) : Config -> Config :=
  update_token userID (fun user =>
    user <| td_Token := td_Token data |> <| td_RenewToken := td_RenewToken data |>
         <| td_TokenExpiry := td_TokenExpiry data |>
         <| td_NCData := (td_NCData user) <| nc_Endpoint := nc_Endpoint (td_NCData data) |>
                           <| nc_Username := nc_Username (td_NCData data) |>
                           <| nc_Password := nc_Password (td_NCData data) |> |>
         <| td_TrustedPassOwnerID := td_TrustedPassOwnerID data |>
         <| td_TrustedPassToken := td_TrustedPassToken data |>).

Definition saveVpnExpirationDate (userID : Z) (data : TokenData) : Config -> Config :=
  update_token userID (fun user => user <| td_ServiceExpiry := td_ServiceExpiry data |>).

Definition saveVpnServerCredentials (userID : Z) (data : TokenData) : Config -> Config :=
  update_token userID (fun user =>
    user <| td_NordLynxPrivateKey := td_NordLynxPrivateKey data |>
         <| td_OpenVPNUsername := td_OpenVPNUsername data |>
         <| td_OpenVPNPassword := td_OpenVPNPassword data |>).

(** The API no longer accepts the token. *)
Definition rejected (e : error) : bool :=
  errors_Is e ErrUnauthorized || errors_Is e ErrNotFound || errors_Is e ErrBadRequest.

Section Checker.
Context {E : Type} `{ConfigManager E} `{CredentialsAPI E}.
#[local] Abbreviation ST := (M (Store E)).

Definition isExpired (expiryTime : string) : ST bool :=
  if bool_decide (expiryTime = "") then ret true
  else match time_Parse expiryTime with
       | None => ret true
       | Some expiry => let! now := ask time_UnixNano in ret (expiry <? now)
       end.

Definition renewLoginToken (data : TokenData) : ST TokenData :=
  let! resp := in_env (creds_TokenRenew (td_RenewToken data)) in
  ret (data <| td_Token := tr_Token resp |> <| td_RenewToken := tr_RenewToken resp |>
            <| td_TokenExpiry := tr_ExpiresAt resp |>).

Definition renewNCCredentials (data : TokenData) : ST TokenData :=
  let! resp := in_env (creds_NotificationCredentials (td_Token data) (nc_UserID (td_NCData data))) in
  ret (data <| td_NCData := (td_NCData data) <| nc_Endpoint := nr_Endpoint resp |>
                              <| nc_Username := nr_Username resp |> <| nc_Password := nr_Password resp |> |>).

Definition renewTrustedPassToken (data : TokenData) : ST TokenData :=
  let! resp := wrapped "getting trusted pass token data: " (in_env (creds_TrustedPassToken (td_Token data))) "" in
  ret (data <| td_TrustedPassOwnerID := tp_OwnerID resp |> <| td_TrustedPassToken := tp_Token resp |>).

Definition renewVpnCredentials (data : TokenData) : ST TokenData :=
  let! credentials := in_env (creds_ServiceCredentials (td_Token data)) in
  ret (data <| td_NordLynxPrivateKey := cd_NordlynxPrivateKey credentials |>
            <| td_OpenVPNUsername := cd_Username credentials |>
            <| td_OpenVPNPassword := cd_Password credentials |>).

(** What [renew] does when the API refuses: log the account out, or give up
    silently.  [None]: [renew] returns nil. *)
Definition renew_refused (uid : Z) (e : error) : ST (option TokenData) :=
  if rejected e then cm_SaveWith (Logout uid) ;; ret None else ret None.

(** The trusted pass is only renewed for OAuth logins; a failure other than a
    rejection is ignored and the tokens are saved. *)
Definition renew_trusted_pass (uid : Z) (data : TokenData) : ST (option TokenData) :=
  let! r := attempt (renewTrustedPassToken data) in
  match r with
  | Ok data => cm_SaveWith (saveLoginToken uid data) ;; ret (Some data)
  | Err e =>
      if rejected e then cm_SaveWith (Logout uid) ;; ret None
      else cm_SaveWith (saveLoginToken uid data) ;; ret (Some data)
  end.

(** The branch for an expired login token. *)
Definition renew_expired (uid : Z) (data : TokenData) : ST (option TokenData) :=
  let! r := attempt (renewLoginToken data) in
  match r with
  | Err e => renew_refused uid e
  | Ok data =>
      let! r := attempt (renewNCCredentials data) in
      match r with
      | Err e => renew_refused uid e
      | Ok data =>
          if td_IsOAuth data then renew_trusted_pass uid data
          else cm_SaveWith (saveLoginToken uid data) ;; ret (Some data)
      end
  end.

Definition trusted_pass_missing (data : TokenData) : bool :=
  bool_decide (td_TrustedPassToken data = "") || bool_decide (td_TrustedPassOwnerID data = "").

Definition vpn_credentials_missing (data : TokenData) : bool :=
  bool_decide (td_NordLynxPrivateKey data = "") || bool_decide (td_OpenVPNUsername data = "") ||
  bool_decide (td_OpenVPNPassword data = "").

Definition renew (uid : Z) (data : TokenData) : ST unit :=
  let! expired := isExpired (td_TokenExpiry data) in
  let! step := (if expired : bool then renew_expired uid data else ret (Some data)) in
  match step with
  | None => ret tt
  | Some data =>
      let! step := (if td_IsOAuth data && trusted_pass_missing data then renew_trusted_pass uid data
                    else ret (Some data)) in
      match step with
      | None => ret tt
      | Some data =>
          when (vpn_credentials_missing data)
            (let! data := renewVpnCredentials data in
             cm_SaveWith (saveVpnServerCredentials uid data))
      end
  end.

(** [renew] for every account of the loaded configuration; whether all went well. *)
Fixpoint renew_all (accounts : list (Z * TokenData)) : ST bool :=
  match accounts with
  | [] => ret true
  | (uid, data) :: accounts' =>
      let! r := attempt (renew uid data) in
      let! rest := renew_all accounts' in
      ret (is_ok r && rest)
  end.

Definition IsLoggedIn : ST bool :=
  let! r := attempt cm_Load in
  match r with
  | Err _ => ret false
  | Ok cfg =>
      let! accounts := ask (range_tokens (cfg_TokensData cfg)) in
      let! isLoggedIn := renew_all accounts in
      ret (negb (ac_ID (cfg_AutoConnectData cfg) =? 0) && negb (bool_decide (cfg_TokensData cfg = ∅)) &&
           isLoggedIn)
  end.

Definition isMFAEnabled : ST bool :=
  let! cfg := wrapped "checking MFA status, loading config: " cm_Load "" in
  let data := token_of cfg (ac_ID (cfg_AutoConnectData cfg)) in
  let! status := wrapped "querying MFA status: " (in_env (creds_MultifactorAuthStatus (td_Token data))) "" in
  ret (bool_decide (status = MFAEnabledStatusName)).

(** The expiry of the last VPN service listed. *)
Definition service_expiry (services : list ServiceData) (old : string) : string :=
  foldl (fun acc s => if svc_ServiceID s =? VPNServiceID then svc_ExpiresAt s else acc) old services.

Definition fetchSaveServices (userId : Z) (data : TokenData) : ST TokenData :=
  let! services := in_env (creds_Services (td_Token data)) in
  let data := data <| td_ServiceExpiry := service_expiry services (td_ServiceExpiry data) |> in
  wrapped "saving config: " (cm_SaveWith (saveVpnExpirationDate userId data)) "" ;;
  ret data.

Definition IsVPNExpired : ST bool :=
  let! cfg := wrapped "loading config: " cm_Load "" in
  let uid := ac_ID (cfg_AutoConnectData cfg) in
  let data := token_of cfg uid in
  let! expired := isExpired (td_ServiceExpiry data) in
  let! data := (if expired : bool
                then wrapped "updating service expiry token: " (fetchSaveServices uid data) ""
                else ret data) in
  isExpired (td_ServiceExpiry data).

Definition fetchServices : ST (list ServiceData) :=
  let! cfg := wrapped "loading config: " cm_Load "" in
  let data := token_of cfg (ac_ID (cfg_AutoConnectData cfg)) in
  wrapped "fetching available services: " (in_env (creds_Services (td_Token data))) "".

Fixpoint dedicated_services (services : list ServiceData) : ST (list DedicatedIPService) :=
  match services with
  | [] => ret []
  | service :: services' =>
      let! expired := (if svc_ServiceID service =? DedicatedIPServiceID
                       then isExpired (svc_ExpiresAt service) else ret true) in
      let! rest := dedicated_services services' in
      ret (if expired : bool then rest
           else mkDedicatedIPService (svc_ExpiresAt service)
                  (default NoServerSelected (head (svc_Servers service))) :: rest)
  end.

Definition GetDedicatedIPServices : ST (list DedicatedIPService) :=
  let! services := wrapped "fetching available services: " fetchServices "" in
  dedicated_services services.
End Checker.

(** ** Properties *)

(** The API refuses: it does not know the token, or the account, or the request. *)
Definition refusal (e : error) : Prop :=
  exists s, s ∈ [ErrUnauthorized; ErrNotFound; ErrBadRequest] /\ errors_Is e s = true.

Lemma rejected_refusal e : rejected e = true -> refusal e.
Proof.
  unfold rejected. rewrite !orb_true_iff. intros [[He|He]|He]; eexists; (split; [|exact He]); set_solver.
Qed.

Section Refused.
Context {E : Type} `{CredentialsAPI E}.

(** The tokens of an account: the one that is stored, and those the API gives for its
    renewal token. *)
Inductive token_of_account (data : TokenData) : string -> Prop :=
| stored_token : token_of_account data (td_Token data)
| renewed_token e resp e' :
    creds_TokenRenew (td_RenewToken data) e = (Ok resp, e') -> token_of_account data (tr_Token resp).

(** The API refuses the renewal token of the account or one of its tokens. *)
Inductive refused (data : TokenData) : Prop :=
| refused_renewal e err e' :
    creds_TokenRenew (td_RenewToken data) e = (Err err, e') -> refusal err -> refused data
| refused_notifications token e err e' :
    token_of_account data token ->
    creds_NotificationCredentials token (nc_UserID (td_NCData data)) e = (Err err, e') -> refusal err -> refused data
| refused_trusted_pass token e err e' :
    token_of_account data token -> creds_TrustedPassToken token e = (Err err, e') -> refusal err -> refused data.

(** [c] is [c0] with other tokens for its accounts, less accounts that are refused. *)
Definition accounts_kept (c0 c : Config) : Prop :=
  c = c0 <| cfg_TokensData := cfg_TokensData c |> /\
  dom (cfg_TokensData c) ⊆ dom (cfg_TokensData c0) /\
  forall uid data, cfg_TokensData c0 !! uid = Some data -> uid ∈ dom (cfg_TokensData c) \/ refused data.

Lemma accounts_kept_refl c : accounts_kept c c.
Proof. split_and!; [by destruct c|done|]. intros uid data Hu. left. by eapply elem_of_dom_2. Qed.
End Refused.

Section Accounts.
Context {E : Type} `{ConfigManager E} `{CredentialsAPI E}.
Context (c0 : Config).
#[local] Abbreviation kept := (fun s : Store E => accounts_kept (E := E) c0 (so_cfg s)).

Lemma kept_ask {A} (f : E -> A * E) : preserves kept (ask f).
Proof. intros s Hs. unfold ask. destruct (f (so_env s)). exact Hs. Qed.

Lemma kept_in_env {A} (m : M E A) : preserves kept (in_env m).
Proof. apply preserves_zoom_frame. intros e s Hs. exact Hs. Qed.

Lemma kept_Save f :
  (forall c, accounts_kept (E := E) c0 c -> accounts_kept (E := E) c0 (f c)) -> preserves kept (cm_SaveWith f).
Proof.
  intros Hf. unfold cm_SaveWith. apply preserves_bind; [apply kept_ask|].
  intros [?|]; [apply preserves_throw|]. apply preserves_modify. intros s. apply Hf.
Qed.

Lemma kept_isExpired t : preserves kept (isExpired t).
Proof.
  unfold isExpired. case_match; [apply preserves_ret|]. case_match; [|apply preserves_ret].
  apply preserves_bind; [apply kept_ask|]. intros. apply preserves_ret.
Qed.

(** One account: its data at the start, and what becomes of them. *)
Context (uid : Z) (data0 : TokenData) (Huid : cfg_TokensData c0 !! uid = Some data0).

Definition of_account (d : TokenData) : Prop :=
  token_of_account data0 (td_Token d) /\ nc_UserID (td_NCData d) = nc_UserID (td_NCData data0).

(** The outcome of a call of the API. *)
Definition answered (r : result TokenData) : Prop :=
  match r with Ok d => of_account d | Err e => rejected e = true -> refused data0 end.

Lemma kept_update f : preserves kept (cm_SaveWith (update_token uid f)).
Proof.
  apply kept_Save. intros c (Hc & Hd & Hr). apply elem_of_dom_2 in Huid as Hin. unfold update_token.
  split_and!; cbn; [by rewrite Hc|rewrite dom_insert_L; set_solver|].
  intros uid' data' Hu. rewrite dom_insert_L. destruct (Hr uid' data' Hu); [left; set_solver|by right].
Qed.

Lemma kept_logout : refused data0 -> preserves kept (cm_SaveWith (Logout uid)).
Proof.
  intros Href. apply kept_Save. intros c (Hc & Hd & Hr). unfold Logout.
  split_and!; cbn; [by rewrite Hc|rewrite dom_delete_L; set_solver|].
  intros uid' data' Hu. rewrite dom_delete_L. destruct (decide (uid' = uid)) as [->|Hne].
  - right. by simplify_eq.
  - destruct (Hr uid' data' Hu); [left; set_solver|by right].
Qed.

Ltac kept_step :=
  first [ apply kept_ask | apply kept_in_env | apply kept_update | apply kept_isExpired
        | apply preserves_ret | apply preserves_attempt | apply preserves_wrapped | apply preserves_when
        | apply preserves_bind; [|intros ?] ].

Lemma renewLoginToken_ok : ensures (fun r _ => answered r) (attempt (renewLoginToken data0)).
Proof.
  intros s r s'. unfold attempt, renewLoginToken, bind, in_env, zoom.
  destruct (creds_TokenRenew _ _) as [[resp|err] e'] eqn:Hr; intros [= <- _].
  - split; [|done]. cbn. by eapply renewed_token.
  - intros Hrej. eapply refused_renewal; [exact Hr|by apply rejected_refusal].
Qed.

Lemma renewNCCredentials_ok d : of_account d -> ensures (fun r _ => answered r) (attempt (renewNCCredentials d)).
Proof.
  intros [Ht Hu] s r s'. unfold attempt, renewNCCredentials, bind, in_env, zoom. rewrite Hu.
  destruct (creds_NotificationCredentials _ _ _) as [[resp|err] e'] eqn:Hr; intros [= <- _]; [done|].
  intros Hrej. eapply refused_notifications; [exact Ht|exact Hr|by apply rejected_refusal].
Qed.

Lemma renewTrustedPassToken_ok d : of_account d -> ensures (fun r _ => answered r) (attempt (renewTrustedPassToken d)).
Proof.
  intros [Ht Hu] s r s'. unfold attempt, renewTrustedPassToken, bind, wrapped, in_env, zoom.
  destruct (creds_TrustedPassToken _ _) as [[resp|err] e'] eqn:Hr; intros [= <- _]; [done|].
  intros Hrej. eapply refused_trusted_pass; [exact Ht|exact Hr|]. by apply rejected_refusal.
Qed.

Lemma kept_refused e : (rejected e = true -> refused data0) -> preserves kept (renew_refused uid e).
Proof.
  unfold renew_refused. intros He. destruct (rejected e); [|apply preserves_ret].
  apply preserves_bind; [by apply kept_logout, He|]. intros _. apply preserves_ret.
Qed.

(** A step that goes on with the account, or ends. *)
Definition goes_on (step : option TokenData) : Prop := from_option of_account True step.

Lemma ensures_saved (m : M (Store E) unit) d : of_account d -> ensures (fun r _ => goes_on r) (m ;; ret (Some d)).
Proof. intros Hd s r s'. unfold bind, ret. destruct (m s) as [[?|?] ?]; [by intros [= <- _]|done]. Qed.
Lemma ensures_ended (m : M (Store E) unit) : ensures (fun r _ => goes_on r) (m ;; ret None).
Proof. intros s r s'. unfold bind, ret. destruct (m s) as [[?|?] ?]; [by intros [= <- _]|done]. Qed.

Lemma kept_trusted_pass d :
  of_account d ->
  preserves kept (renew_trusted_pass uid d) /\ ensures (fun r _ => goes_on r) (renew_trusted_pass uid d).
Proof.
  intros Hd. pose proof (renewTrustedPassToken_ok d Hd) as Hok. unfold renew_trusted_pass. split.
  - eapply preserves_bind_with; [|exact Hok|].
    + apply preserves_attempt. unfold renewTrustedPassToken. repeat kept_step.
    + intros [d'|e] He; [repeat kept_step|]. cbn in He. destruct (rejected e); [|repeat kept_step].
      apply preserves_bind; [by apply kept_logout, He|]. intros _. apply preserves_ret.
  - intros s r s'. unfold bind at 1. destruct (attempt _ s) as [[[d'|e]|e] s1] eqn:Hr; [| |done].
    + apply ensures_saved. by apply (Hok s (Ok d') s1).
    + destruct (rejected e); [apply ensures_ended|by apply ensures_saved].
Qed.

Lemma kept_expired :
  preserves kept (renew_expired uid data0) /\ ensures (fun r _ => goes_on r) (renew_expired uid data0).
Proof.
  pose proof renewLoginToken_ok as H1. unfold renew_expired. split.
  - eapply preserves_bind_with; [|exact H1|]; [unfold renewLoginToken; repeat kept_step|].
    intros [d|e] He; [|by apply kept_refused].
    eapply preserves_bind_with; [|by apply renewNCCredentials_ok|]; [unfold renewNCCredentials; repeat kept_step|].
    intros [d'|e'] He'; [|by apply kept_refused].
    destruct (td_IsOAuth d'); [by apply kept_trusted_pass|]. repeat kept_step.
  - assert (Hend : forall e, ensures (fun r _ => goes_on r) (renew_refused (E := E) uid e)).
    { intros e. unfold renew_refused. destruct (rejected e); [apply ensures_ended|]. by intros s r s' [= <- _]. }
    intros s r s'. unfold bind at 1. destruct (attempt _ s) as [[[d|e]|e] s1] eqn:Hr; [|apply Hend|done].
    pose proof (H1 s (Ok d) s1 Hr) as Hd. unfold bind at 1.
    destruct (attempt _ s1) as [[[d'|e]|e] s2] eqn:Hr2; [|apply Hend|done].
    pose proof (renewNCCredentials_ok d Hd s1 (Ok d') s2 Hr2) as Hd'.
    destruct (td_IsOAuth d'); [by apply (kept_trusted_pass d')|by apply ensures_saved].
Qed.

Lemma kept_renew : preserves kept (renew uid data0).
Proof.
  assert (Hself : of_account data0) by (split; [constructor|done]).
  assert (Hret : forall d, of_account d -> ensures (S := Store E) (fun r _ => goes_on r) (ret (Some d)))
    by (intros d Hd s r s' [= <- _]; done).
  unfold renew. apply preserves_bind; [apply kept_isExpired|]. intros expired.
  apply (preserves_bind_with _ goes_on).
  - destruct (expired : bool); [apply kept_expired|apply preserves_ret].
  - destruct (expired : bool); [apply kept_expired|by apply Hret].
  - intros [d|] Hd; [|apply preserves_ret]. cbn in Hd. apply (preserves_bind_with _ goes_on).
    + destruct (_ && _); [by apply kept_trusted_pass|apply preserves_ret].
    + destruct (_ && _); [by apply kept_trusted_pass|by apply Hret].
    + intros [d'|] _; [|apply preserves_ret]. unfold renewVpnCredentials. repeat kept_step.
Qed.
End Accounts.

(** [range] over a map visits each of its entries once. *)
Class RangeLaws (E : Type) `{CredentialsAPI E} : Prop :=
  range_tokens_ok : forall m e, (range_tokens m e).1 ≡ₚ map_to_list m.

Section LoggedIn.
Context {E : Type} `{ConfigManager E} `{CredentialsAPI E} `{!RangeLaws E}.

Lemma kept_renew_all c0 accounts :
  Forall (fun a => cfg_TokensData c0 !! a.1 = Some a.2) accounts ->
  preserves (fun s : Store E => accounts_kept (E := E) c0 (so_cfg s)) (renew_all accounts).
Proof.
  intros Hin. induction Hin as [|[uid data] accounts Huid Hin IH]; cbn [renew_all]; [apply preserves_ret|].
  apply preserves_bind; [by apply preserves_attempt, kept_renew|]. intros r.
  apply preserves_bind; [done|]. intros rest. apply preserves_ret.
Qed.

Lemma map_to_list_entries (m : gmap Z TokenData) : Forall (fun a => m !! a.1 = Some a.2) (map_to_list m).
Proof. apply Forall_forall. by intros [k v] Hk%elem_of_map_to_list. Qed.

Lemma cm_Load_same (s : Store E) r s1 : cm_Load s = (r, s1) -> so_cfg s1 = so_cfg s /\ (forall c, r = Ok c -> c = so_cfg s).
Proof.
  unfold cm_Load, bind, ask, gets. destruct (cm_load (so_env s)) as [[[? ?]|] e]; intros [= <- <-]; [done|].
  split; [done|]. by intros c [= <-].
Qed.

(** C30: asking whether the user is logged in changes nothing of the configuration but
    the tokens of the accounts it holds, adds no account, and removes only accounts
    whose renewal token, or whose stored or renewed token, the API refuses as unknown or
    invalid: network failures, server errors and failed saves never log a user out, and
    the refusal of one account's token leaves the others. *)
Theorem checks_never_log_out_unrejected (s : Store E) :
  let c := so_cfg (IsLoggedIn s).2 in
  c = (so_cfg s) <| cfg_TokensData := cfg_TokensData c |> /\
  dom (cfg_TokensData c) ⊆ dom (cfg_TokensData (so_cfg s)) /\
  forall uid data, cfg_TokensData (so_cfg s) !! uid = Some data ->
    uid ∈ dom (cfg_TokensData c) \/ refused (E := E) data.
Proof.
  cbv zeta. change (accounts_kept (E := E) (so_cfg s) (so_cfg (IsLoggedIn s).2)).
  unfold IsLoggedIn, bind at 1, attempt.
  destruct (cm_Load s) as [[cfg|err] s1] eqn:Hl; apply cm_Load_same in Hl as [Hs1 Hcfg].
  2: { cbn. rewrite Hs1. apply accounts_kept_refl. }
  rewrite (Hcfg cfg eq_refl). set (I := fun s' : Store E => accounts_kept (E := E) (so_cfg s) (so_cfg s')).
  enough (preserves I (let! accounts := ask (range_tokens (cfg_TokensData (so_cfg s))) in
            let! isLoggedIn := renew_all accounts in
            ret (negb (ac_ID (cfg_AutoConnectData (so_cfg s)) =? 0) &&
                 negb (bool_decide (cfg_TokensData (so_cfg s) = ∅)) && isLoggedIn)))
    as Hp by (apply Hp; unfold I; rewrite Hs1; apply accounts_kept_refl).
  eapply (preserves_bind_with I (fun l => l ≡ₚ map_to_list (cfg_TokensData (so_cfg s)))).
  - apply kept_ask.
  - intros s2 l s3. unfold ask. pose proof (range_tokens_ok (cfg_TokensData (so_cfg s)) (so_env s2)) as Hok.
    destruct (range_tokens _ _). by intros [= <- <-].
  - intros l Hperm. apply preserves_bind; [|intros; apply preserves_ret].
    apply kept_renew_all. rewrite Hperm. apply map_to_list_entries.
Qed.

Lemma cm_Load_ok (s : Store E) :
  (forall e, (cm_load e).1 = None) -> exists s', cm_Load s = (Ok (so_cfg s), s') /\ so_cfg s' = so_cfg s.
Proof.
  intros Hl. unfold cm_Load, bind, ask. specialize (Hl (so_env s)).
  destruct (cm_load (so_env s)) as [o e]. cbn in Hl. subst o. by eexists.
Qed.

Lemma cm_SaveWith_ok (s : Store E) f :
  (forall e, (cm_save e).1 = None) ->
  exists s', cm_SaveWith f s = (Ok tt, s') /\ so_cfg s' = f (so_cfg s).
Proof.
  intros Hl. unfold cm_SaveWith, bind, ask. specialize (Hl (so_env s)).
  destruct (cm_save (so_env s)) as [o e]. cbn in Hl. subst o. by eexists.
Qed.

Lemma ask_range m (s : Store E) : exists l s', ask (range_tokens m) s = (Ok l, s') /\ l ≡ₚ map_to_list m /\ so_cfg s' = so_cfg s.
Proof.
  unfold ask. pose proof (range_tokens_ok m (so_env s)) as Hok. destruct (range_tokens m (so_env s)) as [l e].
  by eexists _, _.
Qed.

Lemma renewLoginToken_rejected data (s : Store E) :
  (forall t e, exists err e', creds_TokenRenew t e = (Err err, e') /\ rejected err = true) ->
  exists err s', renewLoginToken data s = (Err err, s') /\ rejected err = true /\ so_cfg s' = so_cfg s.
Proof.
  intros Hr. unfold renewLoginToken, bind, in_env, zoom.
  destruct (Hr (td_RenewToken data) (so_env s)) as (err & e' & -> & Hrej). by eexists _, _.
Qed.

(** An expired account whose token the API refuses is removed, without an error. *)
Lemma renew_rejected uid data (s : Store E) :
  (forall e, (cm_save e).1 = None) -> td_TokenExpiry data = "" ->
  (forall t e, exists err e', creds_TokenRenew t e = (Err err, e') /\ rejected err = true) ->
  exists s', renew uid data s = (Ok tt, s') /\ so_cfg s' = Logout uid (so_cfg s).
Proof.
  intros Hsave Hexp Hrej. unfold renew, isExpired. rewrite Hexp, bool_decide_true by done.
  rewrite bind_ret. destruct (renewLoginToken_rejected data s Hrej) as (err & s1 & Hr & Herr & Hc1).
  destruct (cm_SaveWith_ok s1 (Logout uid) Hsave) as (s2 & Hs & Hc2).
  exists s2. split; [|by rewrite Hc2, Hc1].
  assert (He : renew_expired uid data s = (Ok None, s2)).
  { unfold renew_expired. erewrite bind_attempt by exact Hr.
    unfold renew_refused. rewrite Herr. by erewrite bind_Ok by exact Hs. }
  by erewrite bind_Ok by exact He.
Qed.

(** The check that logs an account out still answers that the user is
    logged in.  When the only account has no valid login token any more and the
    API refuses to renew it, [IsLoggedIn] removes the account from the
    configuration and returns true; only the next call returns false. *)
Theorem rejected_account_reported_logged_in (s : Store E) (uid : Z) (data : TokenData) :
  (forall e, (cm_load e).1 = None) -> (forall e, (cm_save e).1 = None) ->
  (forall t e, exists err e', creds_TokenRenew t e = (Err err, e') /\ rejected err = true) ->
  cfg_TokensData (so_cfg s) = {[uid := data]} -> ac_ID (cfg_AutoConnectData (so_cfg s)) = uid -> uid <> 0 ->
  td_TokenExpiry data = "" ->
  exists s', IsLoggedIn s = (Ok true, s') /\ so_cfg s' = Logout uid (so_cfg s) /\
    (IsLoggedIn s').1 = Ok false.
Proof.
  intros Hload Hsave Hrej Ht Hid Hnz Hexp.
  destruct (cm_Load_ok s Hload) as (s1 & Hl & Hc1).
  destruct (ask_range (cfg_TokensData (so_cfg s)) s1) as (l & s2 & Hr & Hperm & Hc2).
  rewrite Ht, map_to_list_singleton in Hperm. apply Permutation_singleton_r in Hperm as ->.
  destruct (renew_rejected uid data s2 Hsave Hexp Hrej) as (s3 & Hn & Hc3).
  assert (Hc : so_cfg s3 = Logout uid (so_cfg s)) by congruence.
  exists s3. split; [|split; [done|]].
  - unfold IsLoggedIn. erewrite bind_attempt by exact Hl. cbv beta iota. erewrite bind_Ok by exact Hr.
    cbn [renew_all]. rewrite bind_assoc. erewrite bind_attempt by exact Hn. cbn.
    apply Z.eqb_neq in Hnz. rewrite Hid, Hnz, Ht, bool_decide_false; [done|]. apply insert_non_empty.
  - destruct (cm_Load_ok s3 Hload) as (s4 & Hl4 & Hc4).
    assert (He : cfg_TokensData (so_cfg s3) = ∅).
    { rewrite Hc. unfold Logout. cbn. rewrite Ht. apply delete_singleton_eq. }
    destruct (ask_range (cfg_TokensData (so_cfg s3)) s4) as (l & s5 & Hr5 & Hperm & _).
    rewrite He, map_to_list_empty in Hperm. apply Permutation_nil_r in Hperm as ->.
    unfold IsLoggedIn. erewrite bind_attempt by exact Hl4. cbv beta iota. erewrite bind_Ok by exact Hr5.
    cbn. rewrite He, bool_decide_true by done. by destruct (negb _).
Qed.

(** The answer no comes from a date in the future of the clock. *)
Lemma isExpired_false text (s s' : Store E) :
  isExpired text s = (Ok false, s') ->
  so_cfg s' = so_cfg s /\
  exists t e, time_Parse text = Some t /\ (time_UnixNano e).1 <= t /\ so_env s' = (time_UnixNano e).2.
Proof.
  unfold isExpired. case_bool_decide; [done|]. destruct (time_Parse text) as [t|]; [|done].
  unfold bind, ask. destruct (time_UnixNano (so_env s)) as [now e] eqn:He.
  intros [= Ht%Z.ltb_ge <-]. split; [done|]. exists t, (so_env s). by rewrite He.
Qed.

Lemma isExpired_cfg text (s : Store E) : so_cfg (isExpired text s).2 = so_cfg s.
Proof.
  unfold isExpired. case_bool_decide; [done|]. destruct (time_Parse text); [|done].
  unfold bind, ask. by destruct (time_UnixNano (so_env s)).
Qed.

(** What [fetchSaveServices] returns is what it saved. *)
Lemma fetchSaveServices_saved uid data (s : Store E) data' s' :
  fetchSaveServices uid data s = (Ok data', s') ->
  td_ServiceExpiry (token_of (so_cfg s') uid) = td_ServiceExpiry data'.
Proof.
  unfold fetchSaveServices, bind at 1. destruct (in_env _ s) as [[services|] s1]; [|done].
  cbv zeta. unfold bind at 1, wrapped, cm_SaveWith, bind, ask.
  destruct (cm_save (so_env s1)) as [[?|] e]; [done|]. intros [= <- <-]. cbn.
  unfold token_of. cbn. by rewrite lookup_insert_eq.
Qed.

(** The VPN service is reported as not expired only if the configuration
    afterwards holds, for the current account, an expiry date that parses and
    that the clock, read last, had not passed. *)
Theorem unexpired_service_is_current (s s' : Store E) :
  IsVPNExpired s = (Ok false, s') ->
  exists t e,
    time_Parse (td_ServiceExpiry (token_of (so_cfg s') (ac_ID (cfg_AutoConnectData (so_cfg s))))) = Some t /\
    (time_UnixNano e).1 <= t /\ so_env s' = (time_UnixNano e).2.
Proof.
  unfold IsVPNExpired, bind at 1, wrapped. destruct (cm_Load s) as [[cfg|] s1] eqn:Hl; [|done].
  assert (Hc : cfg = so_cfg s /\ so_cfg s1 = so_cfg s).
  { revert Hl. unfold cm_Load, bind, ask, gets. destruct (cm_load (so_env s)) as [[[? ?]|] e]; [done|].
    by intros [= <- <-]. }
  destruct Hc as [-> Hc1]. set (uid := ac_ID _). unfold bind at 1.
  pose proof (isExpired_cfg (td_ServiceExpiry (token_of (so_cfg s) uid)) s1) as Hc2.
  destruct (isExpired _ s1) as [[[]|] s2]; [| |done]; cbn in Hc2.
  - unfold bind at 1. destruct (fetchSaveServices uid _ s2) as [[data|] s3] eqn:Hf; [|done].
    intros (Hc & t & e & Ht)%isExpired_false. exists t, e.
    by rewrite Hc, (fetchSaveServices_saved _ _ _ _ _ Hf).
  - rewrite bind_ret. intros (Hc & t & e & Ht)%isExpired_false. exists t, e. by rewrite Hc, Hc2, Hc1.
Qed.
End LoggedIn.

(** ** A concrete environment

    The configuration loads and saves; the API always answers a renewal with
    [renew] and a query for services with [services]; the clock shows [now]. *)

Inductive Backend (renew : result TokenRenewResponse) (services : result (list ServiceData)) (now : Z) : Type :=
| backend.
Arguments backend {renew services now}.

Section Backend.
Context (renew : result TokenRenewResponse) (services : result (list ServiceData)) (now : Z).

#[export] Instance Backend_manager : ConfigManager (Backend renew services now) := {|
  cm_load e := (None, e);
  cm_save e := (None, e)
|}.

#[export] Instance Backend_api : CredentialsAPI (Backend renew services now) := {|
  creds_TokenRenew _ e := (renew, e);
  creds_NotificationCredentials _ _ := throw (Errorf "offline");
  creds_TrustedPassToken _ := throw (Errorf "offline");
  creds_ServiceCredentials _ := throw (Errorf "offline");
  creds_Services _ e := (services, e);
  creds_MultifactorAuthStatus _ := throw (Errorf "offline");
  time_UnixNano e := (now, e);
  range_tokens m e := (map_to_list m, e)
|}.

#[export] Instance Backend_range : RangeLaws (Backend renew services now).
Proof. intros m e. reflexivity. Qed.
End Backend.

(** An account whose login token has no expiry date, so counts as expired. *)
Definition sample_account : Config :=
  (newConfig "machine") <| cfg_TokensData := {[ 7 := zero_token ]} |>
    <| cfg_AutoConnectData := (cfg_AutoConnectData (newConfig "machine")) <| ac_ID := 7 |> |>.

Definition account_with renew services now : Store (Backend renew services now) :=
  mkStore sample_account backend.

(** An API that only times out keeps the account. *)
Lemma checks_never_log_out_unrejected_witness :
  7 ∈ dom (cfg_TokensData (so_cfg (IsLoggedIn (account_with (Err (Errorf "timeout")) (Err (Errorf "timeout")) 0)).2)).
Proof.
  destruct (checks_never_log_out_unrejected (account_with (Err (Errorf "timeout")) (Err (Errorf "timeout")) 0))
    as (_ & _ & Hkept).
  assert (Hno : forall err, err = Errorf "timeout" \/ err = Errorf "offline" -> refusal err -> False).
  { intros err [->| ->] (k & Hk & He); repeat (apply elem_of_cons in Hk as [->|Hk]; [discriminate He|]);
      by apply not_elem_of_nil in Hk. }
  destruct (Hkept 7 zero_token eq_refl) as [Hin|[e err e' Hc Hr|token e err e' _ Hc Hr|token e err e' _ Hc Hr]]; [exact Hin|..];
    exfalso; (injection Hc as <- <-); apply (Hno _ ltac:(by auto) Hr).
Defined.

(** An account whose token is refused is removed. *)
Example refused_account_removed :
  cfg_TokensData (so_cfg (IsLoggedIn (account_with (Err (Sentinel ErrUnauthorized)) (Ok []) 0)).2) = ∅.
Proof. vm_compute. reflexivity. Qed.

Lemma rejected_account_reported_logged_in_witness :
  exists s', IsLoggedIn (account_with (Err (Sentinel ErrUnauthorized)) (Ok []) 0) = (Ok true, s') /\
    cfg_TokensData (so_cfg s') = ∅.
Proof.
  destruct (rejected_account_reported_logged_in
              (account_with (Err (Sentinel ErrUnauthorized)) (Ok []) 0) 7 zero_token) as (s' & Hl & Hc & _).
  - reflexivity.
  - reflexivity.
  - intros t e. eexists _, _. split; reflexivity.
  - reflexivity.
  - reflexivity.
  - discriminate.
  - reflexivity.
  - exists s'. split; [exact Hl|]. rewrite Hc. vm_compute. reflexivity.
Defined.

Definition vpn_service : ServiceData := mkServiceData 1 "2050-06-04 00:00:00" VPNServiceID [].

Lemma unexpired_service_is_current_witness :
  exists t e,
    time_Parse (td_ServiceExpiry (token_of
      (so_cfg (IsVPNExpired (account_with (Ok (mkTokenRenewResponse "" "" "")) (Ok [vpn_service]) 0)).2) 7)) = Some t /\
    (time_UnixNano e).1 <= t /\
    so_env (IsVPNExpired (account_with (Ok (mkTokenRenewResponse "" "" "")) (Ok [vpn_service]) 0)).2 = (time_UnixNano e).2.
Proof.
  apply (unexpired_service_is_current (account_with (Ok (mkTokenRenewResponse "" "" "")) (Ok [vpn_service]) 0)).
  vm_compute. reflexivity.
Defined.
