(* ===== verification/Json.v ===== *)
(** * Json: how the configuration is written and read

    Models the JSON form of the configuration: the struct tags of
    [config/config.go], [config/token.go], [config/user.go] and
    [core/mesh/peer.go], and the marshalling methods of [config/user.go],
    [config/field.go] and [config/allowlistlist.go].  Of [encoding/json] it has
    what they use: [omitempty]; decoding into a value that already has contents,
    where absent fields and null leave scalars alone; and type errors.  When there
    is an error the decoded value is not used (file ConfigFile takes what is left
    from its environment).  Numbers are integers; [float64] rounds those beyond
    2^53.  A UUID is its text, with the empty text for the zero one.  Go also matches keys that differ in case, which
    the written form never has.  Between a value and its text stand [print_json]
    and [parse_json] of file ConfigFile. *)

From stdpp Require Import base option list strings gmap fin_maps.
From Stdlib Require Import ZArith Ascii Lia.
From S2P Require Import Prelude GoLib Mesh Config.
Set Warnings "-clear-no-such-hyp".

Open Scope Z_scope.
Open Scope go_scope.

#[warnings="-register-all"] Inductive json : Type :=
| JNull
| JBool (b : bool)
| JNum (z : Z)
| JString (s : string)
| JArray (l : list json)
| JObject (o : list (string * json)).

(** How a Go type is encoded, decoded over an old value (with whether there was
    no error), and when [omitempty] leaves it out. *)
Record Codec (A : Type) : Type := mkCodec {
  enc : A -> json;
  dec : json -> A -> A * bool;
  is_empty : A -> bool
}.
Arguments mkCodec {A} _ _ _.
Arguments enc {A} _ _.
Arguments dec {A} _ _ _.
Arguments is_empty {A} _ _.

(** ** Scalars *)

Definition c_string : Codec string := mkCodec JString
  (fun j old => match j with JString s => (s, true) | JNull => (old, true) | _ => (old, false) end)
  (fun s => bool_decide (s = "")).

Definition c_bool : Codec bool := mkCodec JBool
  (fun j old => match j with JBool b => (b, true) | JNull => (old, true) | _ => (old, false) end)
  negb.

(** An integer type with bounds [lo], [hi]. *)
Definition c_int (lo hi : Z) : Codec Z := mkCodec JNum
  (fun j old => match j with
                | JNum z => if (lo <=? z) && (z <=? hi) then (z, true) else (old, false)
                | JNull => (old, true)
                | _ => (old, false)
                end)
  (fun z => z =? 0).
Definition c_int64 : Codec Z := c_int (- 2 ^ 63) max_int64.
Definition c_int32 : Codec Z := c_int (- 2 ^ 31) (2 ^ 31 - 1).
Definition c_uint32 : Codec Z := c_int 0 (2 ^ 32 - 1).

Definition technology_num (t : Technology) : Z :=
  match t with UNKNOWN_TECHNOLOGY => 0 | OPENVPN => 1 | NORDLYNX => 2 end.
Definition num_technology (z : Z) : Technology :=
  if z =? 1 then OPENVPN else if z =? 2 then NORDLYNX else UNKNOWN_TECHNOLOGY.
Definition c_technology : Codec Technology := mkCodec (fun t => JNum (technology_num t))
  (fun j old => match j with
                | JNum z => (num_technology z, true)
                | JNull => (old, true)
                | _ => (old, false)
                end)
  (fun t => bool_decide (t = UNKNOWN_TECHNOLOGY)).

(** [Field.MarshalJSON] and [Field.UnmarshalJSON]; a struct is never empty. *)
Definition c_true_field : Codec TrueField := mkCodec
  (fun t => match t with None => JNull | Some b => JBool b end)
  (fun j old => match j with JNull => (old, true) | JBool b => (Some b, true) | _ => (old, false) end)
  (fun _ => false).

(** ** Lists and sets *)

(** [[]string]: an element of the wrong type becomes the empty string. *)
Definition dec_strings (l : list json) : list string * bool :=
  (map (fun j => (dec c_string j "").1) l, forallb (fun j => (dec c_string j "").2) l).

Definition c_dns : Codec DNS := mkCodec
  (fun d => match d with None => JNull | Some l => JArray (map JString l) end)
  (fun j old => match j with
                | JArray l => let '(ss, ok) := dec_strings l in (Some ss, ok)
                | JNull => (None, true)
                | _ => (old, false)
                end)
  (fun d => bool_decide (elems d = [])).

(** [Subnets]: the keys, nothing when there are none. *)
Definition c_subnets : Codec Subnets := mkCodec
  (fun m => if bool_decide (m = ∅) then JNull else JArray (map JString (map_to_list m).*1))
  (fun j old => match j with
                | JArray l => let '(ss, ok) := dec_strings l in
                              if ok : bool then (set_all ss ∅, true) else (old, false)
                | JNull => (∅, true)
                | _ => (old, false)
                end)
  (fun m => bool_decide (m = ∅)).

(** [float64(z)]: to the nearest number with 53 significant bits, ties to even. *)
Definition float64 (z : Z) : Z :=
  let a := Z.abs z in
  if a <=? 2 ^ 53 then z
  else
    let k := Z.log2 a - 52 in
    let q := Z.shiftr a k in
    let rem := a - Z.shiftl q k in
    let half := 2 ^ (k - 1) in
    let q := if (half <? rem) || ((rem =? half) && Z.odd q) then q + 1 else q in
    Z.sgn z * Z.shiftl q k.

Definition dec_numbers (l : list json) : list Z * bool :=
  (map (fun j => match j with JNum z => z | _ => 0 end) l,
   forallb (fun j => match j with JNum _ | JNull => true | _ => false end) l).

(** [PortSet] and [UidBoolMap]: the keys as [[]float64]. *)
Definition c_numbers : Codec (gmap Z bool) := mkCodec
  (fun m => if bool_decide (m = ∅) then JNull else JArray (map (fun z => JNum (float64 z)) (map_to_list m).*1))
  (fun j old => match j with
                | JArray l => let '(zs, ok) := dec_numbers l in
                              if ok : bool then (set_all zs ∅, true) else (old, false)
                | JNull => (∅, true)
                | _ => (old, false)
                end)
  (fun m => bool_decide (m = ∅)).

(** ** Structs *)

(** The last value of a key. *)
Fixpoint get (o : list (string * json)) (key : string) : option json :=
  match o with
  | [] => None
  | (k, j) :: o' =>
      match get o' key with
      | Some j' => Some j'
      | None => if bool_decide (k = key) then Some j else None
      end
  end.

Definition field {A} (cd : Codec A) (key : string) (a : A) : list (string * json) := [(key, enc cd a)].
Definition field_omit {A} (cd : Codec A) (key : string) (a : A) : list (string * json) :=
  if is_empty cd a then [] else [(key, enc cd a)].

(** Decode the field [key] of [o] over its old value. *)
Definition into {A} (cd : Codec A) (o : list (string * json)) (key : string) (old : A) : A * bool :=
  match get o key with
  | None => (old, true)
  | Some j => dec cd j old
  end.

(** A struct from the encoding of its fields and their decoding. *)
Definition c_struct {A} (fields : A -> list (string * json)) (decode : list (string * json) -> A -> A * bool) :
    Codec A := mkCodec
  (fun a => JObject (fields a))
  (fun j old => match j with JObject o => decode o old | JNull => (old, true) | _ => (old, false) end)
  (fun _ => false).

(** A pointer; [zero] is what it points to before decoding into a nil one. *)
Definition c_pointer {A} (cd : Codec A) (zero : A) : Codec (option A) := mkCodec
  (fun p => match p with None => JNull | Some a => enc cd a end)
  (fun j old => match j with
                | JNull => (None, true)
                | _ => let '(a, ok) := dec cd j (default zero old) in (Some a, ok)
                end)
  (fun p => bool_decide (p = None)).

Definition c_ports : Codec Ports := c_struct
  (fun p => field c_numbers "tcp" (ports_TCP p) ++ field c_numbers "udp" (ports_UDP p))
  (fun o p => let '(t, ok1) := into c_numbers o "tcp" (ports_TCP p) in
              let '(u, ok2) := into c_numbers o "udp" (ports_UDP p) in
              (mkPorts t u, ok1 && ok2)).

Definition c_allowlist : Codec Allowlist := c_struct
  (fun a => field c_ports "ports" (al_Ports a) ++ field c_subnets "subnets" (al_Subnets a))
  (fun o a => let '(p, ok1) := into c_ports o "ports" (al_Ports a) in
              let '(s, ok2) := into c_subnets o "subnets" (al_Subnets a) in
              (mkAllowlist p s, ok1 && ok2)).

Definition c_ncdata : Codec NCData := c_struct
  (fun d => field c_string "user_id" (nc_UserID d) ++ field_omit c_string "username" (nc_Username d) ++
            field_omit c_string "password" (nc_Password d) ++ field_omit c_string "endpoint" (nc_Endpoint d))
  (fun o d => let '(i, ok1) := into c_string o "user_id" (nc_UserID d) in
              let '(u, ok2) := into c_string o "username" (nc_Username d) in
              let '(p, ok3) := into c_string o "password" (nc_Password d) in
              let '(e, ok4) := into c_string o "endpoint" (nc_Endpoint d) in
              (mkNCData i u p e, ok1 && ok2 && ok3 && ok4)).

Definition c_token : Codec TokenData := c_struct
  (fun d => field_omit c_string "token" (td_Token d) ++ field_omit c_string "token_expiry" (td_TokenExpiry d) ++
            field_omit c_string "renew_token" (td_RenewToken d) ++ field_omit c_bool "is_oauth" (td_IsOAuth d) ++
            field_omit c_string "trusted_pass_token" (td_TrustedPassToken d) ++
            field_omit c_string "trusted_pass_owner_id" (td_TrustedPassOwnerID d) ++
            field_omit c_string "service_expiry" (td_ServiceExpiry d) ++
            field c_string "nordlynx_private_key" (td_NordLynxPrivateKey d) ++
            field c_string "openvpn_username" (td_OpenVPNUsername d) ++
            field c_string "openvpn_password" (td_OpenVPNPassword d) ++ field c_ncdata "nc_data" (td_NCData d))
  (fun o d => let '(t, ok1) := into c_string o "token" (td_Token d) in
              let '(te, ok2) := into c_string o "token_expiry" (td_TokenExpiry d) in
              let '(rt, ok3) := into c_string o "renew_token" (td_RenewToken d) in
              let '(oa, ok4) := into c_bool o "is_oauth" (td_IsOAuth d) in
              let '(tp, ok5) := into c_string o "trusted_pass_token" (td_TrustedPassToken d) in
              let '(tpo, ok6) := into c_string o "trusted_pass_owner_id" (td_TrustedPassOwnerID d) in
              let '(se, ok7) := into c_string o "service_expiry" (td_ServiceExpiry d) in
              let '(nl, ok8) := into c_string o "nordlynx_private_key" (td_NordLynxPrivateKey d) in
              let '(ou, ok9) := into c_string o "openvpn_username" (td_OpenVPNUsername d) in
              let '(op, ok10) := into c_string o "openvpn_password" (td_OpenVPNPassword d) in
              let '(nc, ok11) := into c_ncdata o "nc_data" (td_NCData d) in
              (mkTokenData t te rt oa tp tpo se nl ou op nc,
               ok1 && ok2 && ok3 && ok4 && ok5 && ok6 && ok7 && ok8 && ok9 && ok10 && ok11)).

(** [map[int64]TokenData]: the keys in decimal; every value is decoded afresh. *)
Fixpoint dec_tokens (o : list (string * json)) (m : gmap Z TokenData) : gmap Z TokenData * bool :=
  match o with
  | [] => (m, true)
  | (k, j) :: o' =>
      let '(d, ok) := dec c_token j zero_token in
      match atoi k with
      | Some uid => let '(m', ok') := dec_tokens o' (<[uid := d]> m) in (m', ok && ok')
      | None => let '(m', _) := dec_tokens o' m in (m', false)
      end
  end.
Definition c_tokens : Codec (gmap Z TokenData) := mkCodec
  (fun m => JObject (map (fun kv => (itoa kv.1, enc c_token kv.2)) (map_to_list m)))
  (fun j old => match j with JObject o => dec_tokens o old | JNull => (∅, true) | _ => (old, false) end)
  (fun m => bool_decide (m = ∅)).

Definition c_users : Codec UsersData := c_struct
  (fun u => field c_numbers "notify" (ud_Notify u) ++ field c_numbers "notify_off" (ud_NotifyOff u) ++
            field c_numbers "tray_off" (ud_TrayOff u))
  (fun o u => let '(n, ok1) := into c_numbers o "notify" (ud_Notify u) in
              let '(f, ok2) := into c_numbers o "notify_off" (ud_NotifyOff u) in
              let '(t, ok3) := into c_numbers o "tray_off" (ud_TrayOff u) in
              (mkUsersData n f t, ok1 && ok2 && ok3)).

(** [netip.Addr]: the empty text is the zero address. *)
Definition c_addr : Codec Addr := mkCodec
  (fun a => JString (match a with AddrInvalid => "" | _ => addr_String a end))
  (fun j old => match j with
                | JString s => if bool_decide (s = "") then (AddrInvalid, true)
                               else match ParseAddr s with Some a => (a, true) | None => (old, false) end
                | JNull => (old, true)
                | _ => (old, false)
                end)
  (fun _ => false).

Definition c_os : Codec OperatingSystem := c_struct
  (fun os => field c_string "Name" (os_Name os) ++ field c_string "Distro" (os_Distro os))
  (fun o os => let '(n, ok1) := into c_string o "Name" (os_Name os) in
               let '(d, ok2) := into c_string o "Distro" (os_Distro os) in (mkOS n d, ok1 && ok2)).

Definition c_strings : Codec (list string) := mkCodec
  (fun l => JArray (map JString l))
  (fun j old => match j with JArray l => dec_strings l | JNull => ([], true) | _ => (old, false) end)
  (fun l => bool_decide (l = [])).

Definition c_machine : Codec Machine := c_struct
  (fun m => field c_string "ID" (m_ID m) ++ field c_string "HardwareID" (m_HardwareID m) ++
            field c_string "Hostname" (m_Hostname m) ++ field c_os "OS" (m_OS m) ++
            field c_string "PublicKey" (m_PublicKey m) ++ field c_strings "Endpoints" (m_Endpoints m) ++
            field c_addr "Address" (m_Address m) ++ field c_bool "SupportsRouting" (m_SupportsRouting m) ++
            field c_string "Nickname" (m_Nickname m))
  (fun o m => let '(i, ok1) := into c_string o "ID" (m_ID m) in
              let '(hw, ok2) := into c_string o "HardwareID" (m_HardwareID m) in
              let '(h, ok3) := into c_string o "Hostname" (m_Hostname m) in
              let '(os, ok4) := into c_os o "OS" (m_OS m) in
              let '(pk, ok5) := into c_string o "PublicKey" (m_PublicKey m) in
              let '(es, ok6) := into c_strings o "Endpoints" (m_Endpoints m) in
              let '(a, ok7) := into c_addr o "Address" (m_Address m) in
              let '(sr, ok8) := into c_bool o "SupportsRouting" (m_SupportsRouting m) in
              let '(n, ok9) := into c_string o "Nickname" (m_Nickname m) in
              (mkMachine i hw h os pk es a sr n,
               ok1 && ok2 && ok3 && ok4 && ok5 && ok6 && ok7 && ok8 && ok9)).

Definition c_autoconnect : Codec AutoConnectData := c_struct
  (fun a => field_omit c_int64 "id" (ac_ID a) ++ field_omit c_string "server_tag" (ac_ServerTag a) ++
            field c_string "Country" (ac_Country a) ++ field c_string "City" (ac_City a) ++
            field c_int32 "Group" (ac_Group a) ++ field_omit c_int32 "protocol" (ac_Protocol a) ++
            field_omit c_bool "cybersec" (ac_ThreatProtectionLite a) ++
            field_omit c_bool "obfuscate" (ac_Obfuscate a) ++ field_omit c_dns "dns" (ac_DNS a) ++
            field_omit c_allowlist "whitelist" (ac_Allowlist a) ++ field c_bool "postquantum_vpn" (ac_PostquantumVpn a))
  (fun o a => let '(i, ok1) := into c_int64 o "id" (ac_ID a) in
              let '(st, ok2) := into c_string o "server_tag" (ac_ServerTag a) in
              let '(co, ok3) := into c_string o "Country" (ac_Country a) in
              let '(ci, ok4) := into c_string o "City" (ac_City a) in
              let '(g, ok5) := into c_int32 o "Group" (ac_Group a) in
              let '(p, ok6) := into c_int32 o "protocol" (ac_Protocol a) in
              let '(tp, ok7) := into c_bool o "cybersec" (ac_ThreatProtectionLite a) in
              let '(ob, ok8) := into c_bool o "obfuscate" (ac_Obfuscate a) in
              let '(d, ok9) := into c_dns o "dns" (ac_DNS a) in
              let '(al, ok10) := into c_allowlist o "whitelist" (ac_Allowlist a) in
              let '(pq, ok11) := into c_bool o "postquantum_vpn" (ac_PostquantumVpn a) in
              (mkAutoConnectData i st co ci g p tp ob d al pq,
               ok1 && ok2 && ok3 && ok4 && ok5 && ok6 && ok7 && ok8 && ok9 && ok10 && ok11)).

(** The struct [meshnet]. *)
Definition c_meshnet : Codec (Z * Z) := c_struct
  (fun m => field c_uint32 "enabled_by_uid" m.1 ++ field c_uint32 "enabled_by_gid" m.2)
  (fun o m => let '(u, ok1) := into c_uint32 o "enabled_by_uid" m.1 in
              let '(g, ok2) := into c_uint32 o "enabled_by_gid" m.2 in ((u, g), ok1 && ok2)).

Definition zero_users : UsersData := mkUsersData ∅ ∅ ∅.

Definition c_config : Codec Config := c_struct
  (fun c => field_omit c_technology "technology" (cfg_Technology c) ++ field c_bool "firewall" (cfg_Firewall c) ++
            field c_uint32 "fwmark" (cfg_FirewallMark c) ++ field c_true_field "routing" (cfg_Routing c) ++
            field c_true_field "analytics" (cfg_Analytics c) ++ field c_bool "mesh" (cfg_Mesh c) ++
            field c_string "mesh_private_key" (cfg_MeshPrivateKey c) ++
            field (c_pointer c_machine zero_machine) "mesh_device" (cfg_MeshDevice c) ++
            field_omit c_bool "kill_switch" (cfg_KillSwitch c) ++ field_omit c_bool "auto_connect" (cfg_AutoConnect c) ++
            field c_bool "ipv6" (cfg_IPv6 c) ++ field c_meshnet "meshnet" (cfg_EnabledByUID c, cfg_EnabledByGID c) ++
            field c_autoconnect "auto_connect_data" (cfg_AutoConnectData c) ++
            field_omit (c_pointer c_users zero_users) "users_data" (cfg_UsersData c) ++
            field_omit c_tokens "tokens_data" (cfg_TokensData c) ++ field c_string "machine_id" (cfg_MachineID c) ++
            field c_bool "lan_discovery" (cfg_LanDiscovery c) ++
            field_omit c_string "remote_config" (cfg_RemoteConfig c) ++
            field c_string "rc_last_update" (cfg_RCLastUpdate c) ++
            field_omit c_true_field "virtual_location" (cfg_VirtualLocation c))
  (fun o c => let '(te, ok1) := into c_technology o "technology" (cfg_Technology c) in
              let '(fw, ok2) := into c_bool o "firewall" (cfg_Firewall c) in
              let '(fm, ok3) := into c_uint32 o "fwmark" (cfg_FirewallMark c) in
              let '(ro, ok4) := into c_true_field o "routing" (cfg_Routing c) in
              let '(an, ok5) := into c_true_field o "analytics" (cfg_Analytics c) in
              let '(me, ok6) := into c_bool o "mesh" (cfg_Mesh c) in
              let '(mk, ok7) := into c_string o "mesh_private_key" (cfg_MeshPrivateKey c) in
              let '(md, ok8) := into (c_pointer c_machine zero_machine) o "mesh_device" (cfg_MeshDevice c) in
              let '(ks, ok9) := into c_bool o "kill_switch" (cfg_KillSwitch c) in
              let '(ac, ok10) := into c_bool o "auto_connect" (cfg_AutoConnect c) in
              let '(v6, ok11) := into c_bool o "ipv6" (cfg_IPv6 c) in
              let '(mn, ok12) := into c_meshnet o "meshnet" (cfg_EnabledByUID c, cfg_EnabledByGID c) in
              let '(ad, ok13) := into c_autoconnect o "auto_connect_data" (cfg_AutoConnectData c) in
              let '(ud, ok14) := into (c_pointer c_users zero_users) o "users_data" (cfg_UsersData c) in
              let '(td, ok15) := into c_tokens o "tokens_data" (cfg_TokensData c) in
              let '(mi, ok16) := into c_string o "machine_id" (cfg_MachineID c) in
              let '(ld, ok17) := into c_bool o "lan_discovery" (cfg_LanDiscovery c) in
              let '(rc, ok18) := into c_string o "remote_config" (cfg_RemoteConfig c) in
              let '(rl, ok19) := into c_string o "rc_last_update" (cfg_RCLastUpdate c) in
              let '(vl, ok20) := into c_true_field o "virtual_location" (cfg_VirtualLocation c) in
              (mkConfig te fw fm ro an me mk md ks ac v6 mn.1 mn.2 ad ud td mi ld rc rl vl,
               ok1 && ok2 && ok3 && ok4 && ok5 && ok6 && ok7 && ok8 && ok9 && ok10 && ok11 && ok12 && ok13 &&
               ok14 && ok15 && ok16 && ok17 && ok18 && ok19 && ok20)).

(** ** Reading back what was written *)

(** Decoding the encoding of [a] over [old] gives [b]. *)
Definition reads {A} (cd : Codec A) (a old b : A) : Prop := dec cd (enc cd a) old = (b, true).

Lemma get_app a b key : get (a ++ b) key = match get b key with Some j => Some j | None => get a key end.
Proof.
  induction a as [|[k j] a IH]; cbn; [by destruct (get b key)|]. rewrite IH. by destruct (get b key).
Qed.

(** What [omitempty] makes of a value: an empty one leaves the old one. *)
Definition or_old {A} (cd : Codec A) (a old b : A) : A := if is_empty cd a then old else b.

Section Into.
Context {A : Type} (cd : Codec A).

Lemma into_app_other l l' key old : get l' key = None -> into cd (l ++ l') key old = into cd l key old.
Proof. intros Hl. unfold into. by rewrite get_app, Hl. Qed.

Lemma into_skip {B} (cd' : Codec B) k b l key old : k <> key -> into cd (field cd' k b ++ l) key old = into cd l key old.
Proof.
  intros Hk. unfold into, field. rewrite get_app. destruct (get l key); [done|]. cbn. by rewrite bool_decide_false.
Qed.

Lemma into_skip_omit {B} (cd' : Codec B) k b l key old :
  k <> key -> into cd (field_omit cd' k b ++ l) key old = into cd l key old.
Proof. intros Hk. unfold field_omit. destruct (is_empty cd' b); [done|]. by apply into_skip. Qed.

Lemma into_hit key a l old b :
  get l key = None -> reads cd a old b -> into cd (field cd key a ++ l) key old = (b, true).
Proof. intros Hl Hr. unfold into, field. rewrite get_app, Hl. cbn. by rewrite bool_decide_true. Qed.

Lemma into_hit_omit key a l old b :
  get l key = None -> (is_empty cd a = false -> reads cd a old b) ->
  into cd (field_omit cd key a ++ l) key old = (or_old cd a old b, true).
Proof.
  intros Hl Hr. unfold field_omit, or_old. destruct (is_empty cd a) eqn:He.
  - cbn. unfold into. by rewrite Hl.
  - apply into_hit; auto.
Qed.
End Into.

Lemma get_skip {B} (cd' : Codec B) k b l key : k <> key -> get l key = None -> get (field cd' k b ++ l) key = None.
Proof. intros Hk Hl. rewrite get_app, Hl. cbn. by rewrite bool_decide_false. Qed.
Lemma get_skip_omit {B} (cd' : Codec B) k b l key :
  k <> key -> get l key = None -> get (field_omit cd' k b ++ l) key = None.
Proof. intros Hk Hl. unfold field_omit. destruct (is_empty cd' b); [done|]. by apply get_skip. Qed.

(** Find the field [key] in the fields of a struct, which end in [[]]. *)
Ltac find_field tac :=
  repeat first [ rewrite into_skip by discriminate | rewrite into_skip_omit by discriminate ];
  first [ erewrite into_hit; [ | absent | tac ] | erewrite into_hit_omit; [ | absent | intros _; tac ] ]
with absent := repeat first [ apply get_skip; [discriminate|] | apply get_skip_omit; [discriminate|] ]; reflexivity.

Lemma reads_string a old : reads c_string a old a.
Proof. done. Qed.
Lemma reads_bool a old : reads c_bool a old a.
Proof. done. Qed.
Lemma reads_int lo hi a old : lo <= a <= hi -> reads (c_int lo hi) a old a.
Proof.
  intros Ha. unfold reads. cbn. destruct (Z.leb_spec lo a), (Z.leb_spec a hi); try lia. done.
Qed.
Lemma reads_technology a old : reads c_technology a old a.
Proof. by destruct a. Qed.
Lemma reads_true_field a : reads c_true_field a None a.
Proof. by destruct a. Qed.

Lemma dec_strings_map l : dec_strings (map JString l) = (l, true).
Proof.
  unfold dec_strings. f_equal; [|by induction l].
  induction l as [|s l IH]; [done|]. cbn. by f_equal.
Qed.
Lemma reads_strings a old : reads c_strings a old a.
Proof. unfold reads. cbn. apply dec_strings_map. Qed.

(** The set of keys of a map, which is all that is written. *)
Definition truthy `{Countable K} (m : gmap K bool) : gmap K bool := (fun _ => true) <$> m.

Lemma set_all_app `{Countable K} (a b : list K) m : set_all (a ++ b) m = set_all b (set_all a m).
Proof. unfold set_all. apply foldl_app. Qed.

Lemma set_all_keys `{Countable K} (m : gmap K bool) : set_all (map_to_list m).*1 ∅ = truthy m.
Proof.
  assert (Hin : forall (ks : list K) acc k, set_all ks acc !! k = if decide (k ∈ ks) then Some true else acc !! k).
  { intros ks acc k. revert acc. induction ks as [|x ks IH]; intros acc; [by rewrite decide_False by apply not_elem_of_nil|].
    change (set_all (x :: ks) acc) with (set_all ks (<[x := true]> acc)). rewrite IH.
    destruct (decide (k ∈ ks)); [rewrite decide_True by (by right); done|].
    destruct (decide (k = x)) as [->|Hne]; [rewrite lookup_insert_eq, decide_True by left; done|].
    rewrite lookup_insert_ne, decide_False by (try done; by intros [?|?]%elem_of_cons). done. }
  apply map_eq. intros k. rewrite Hin. unfold truthy. rewrite lookup_fmap.
  destruct (m !! k) as [v|] eqn:Hk.
  - rewrite decide_True; [done|]. apply list_elem_of_fmap. exists (k, v). split; [done|]. by apply elem_of_map_to_list.
  - rewrite decide_False; [by rewrite lookup_empty|]. intros ([k' v] & -> & Hkv%elem_of_map_to_list)%list_elem_of_fmap.
    cbn in Hk. by rewrite Hk in Hkv.
Qed.

Lemma reads_subnets a old : reads c_subnets a old (truthy a).
Proof.
  unfold reads. cbn [enc dec c_subnets].
  case_bool_decide as Ha; [subst a; unfold truthy; by rewrite fmap_empty|]. rewrite dec_strings_map. by rewrite set_all_keys.
Qed.

Definition small_keys (m : gmap Z bool) : Prop := forall z, z ∈ dom m -> Z.abs z <= 2 ^ 53.

Lemma dec_numbers_map l : (forall z, z ∈ l -> Z.abs z <= 2 ^ 53) -> dec_numbers (map (fun z => JNum (float64 z)) l) = (l, true).
Proof.
  intros Hl. unfold dec_numbers. f_equal; [|clear Hl; induction l as [|z l IH]; [done|exact IH]].
  induction l as [|z l IH]; [done|]. cbn [map]. f_equal.
  - unfold float64. destruct (Z.leb_spec (Z.abs z) (2 ^ 53)); [done|]. specialize (Hl z ltac:(left)). lia.
  - apply IH. intros y Hy. apply Hl. by right.
Qed.

Lemma reads_numbers a old : small_keys a -> reads c_numbers a old (truthy a).
Proof.
  intros Hs. unfold reads. cbn [enc dec c_numbers].
  case_bool_decide as Ha; [subst a; unfold truthy; by rewrite fmap_empty|].
  rewrite dec_numbers_map; [by rewrite set_all_keys|].
  intros z ([k v] & -> & Hkv%elem_of_map_to_list)%list_elem_of_fmap. apply Hs. by eapply elem_of_dom_2.
Qed.

Lemma reads_dns a old : reads c_dns a old a.
Proof. destruct a as [l|]; [|done]. unfold reads. cbn [enc dec c_dns]. by rewrite dec_strings_map. Qed.

Definition addr_ok (a : Addr) : Prop :=
  a = AddrInvalid \/ (addr_String a <> "" /\ ParseAddr (addr_String a) = Some a).

Lemma reads_addr a old : addr_ok a -> reads c_addr a old a.
Proof.
  intros [->|[Hne Hp]]; [done|]. unfold reads. cbn. destruct a; [done| |]; by rewrite bool_decide_false, Hp.
Qed.

(** Decoding a struct is decoding its fields one by one. *)
Ltac read_struct cd :=
  unfold reads, cd, c_struct; cbn [enc dec]; rewrite <- (app_nil_r (_ ++ _)), <- ?app_assoc; cbv beta iota.

Lemma reads_os a old : reads c_os a old a.
Proof. destruct a. read_struct c_os. repeat find_field ltac:(apply reads_string). done. Qed.

Definition machine_ok (m : Machine) : Prop := addr_ok (m_Address m).

Lemma reads_machine a old : machine_ok a -> reads c_machine a old a.
Proof.
  intros Ha. read_struct c_machine.
  repeat find_field ltac:(first [apply reads_string | apply reads_bool | apply reads_os | apply reads_strings
                                | apply reads_addr, Ha]).
  by destruct a.
Qed.

Lemma reads_pointer {A} (cd : Codec A) zero a old b :
  enc cd a <> JNull -> reads cd a (default zero old) b ->
  reads (c_pointer cd zero) (Some a) old (Some b).
Proof.
  intros Hn Hr. unfold reads in *. cbn [enc dec c_pointer].
  destruct (enc cd a) eqn:He; [by destruct Hn|..]; by rewrite Hr.
Qed.

Definition normal_ports (p : Ports) : Ports := mkPorts (truthy (ports_TCP p)) (truthy (ports_UDP p)).
Definition normal_allowlist (a : Allowlist) : Allowlist := mkAllowlist (normal_ports (al_Ports a)) (truthy (al_Subnets a)).
Definition allowlist_ok (a : Allowlist) : Prop :=
  small_keys (ports_TCP (al_Ports a)) /\ small_keys (ports_UDP (al_Ports a)).

Lemma reads_ports a old : small_keys (ports_TCP a) -> small_keys (ports_UDP a) -> reads c_ports a old (normal_ports a).
Proof. intros H1 H2. read_struct c_ports. repeat find_field ltac:(by apply reads_numbers). done. Qed.

Lemma reads_allowlist a old : allowlist_ok a -> reads c_allowlist a old (normal_allowlist a).
Proof.
  intros [H1 H2]. read_struct c_allowlist.
  repeat find_field ltac:(first [by apply reads_ports | apply reads_subnets]). done.
Qed.

(** An omitted value that equals the old one is read back as well. *)
Lemma or_old_string a : or_old c_string a "" a = a.
Proof. unfold or_old. cbn. by case_bool_decide. Qed.
Lemma or_old_bool a : or_old c_bool a false a = a.
Proof. by destruct a. Qed.
Lemma or_old_int lo hi a : or_old (c_int lo hi) a 0 a = a.
Proof. unfold or_old. cbn. by destruct (Z.eqb_spec a 0). Qed.

Lemma reads_ncdata a : reads c_ncdata a (mkNCData "" "" "" "") a.
Proof.
  read_struct c_ncdata. repeat find_field ltac:(apply reads_string).
  cbn [nc_Username nc_Password nc_Endpoint]. rewrite !or_old_string. by destruct a.
Qed.

Lemma reads_token a : reads c_token a zero_token a.
Proof.
  read_struct c_token.
  repeat find_field ltac:(first [apply reads_string | apply reads_bool | apply reads_ncdata]).
  cbn [zero_token td_Token td_TokenExpiry td_RenewToken td_IsOAuth td_TrustedPassToken td_TrustedPassOwnerID
       td_ServiceExpiry]. rewrite !or_old_string, or_old_bool. by destruct a.
Qed.

Definition tokens_ok (m : gmap Z TokenData) : Prop := forall uid, uid ∈ dom m -> - 2 ^ 63 <= uid <= max_int64.

Lemma dec_tokens_list l m :
  (forall kv, kv ∈ l -> - 2 ^ 63 <= kv.1 <= max_int64) ->
  dec_tokens (map (fun kv => (itoa kv.1, enc c_token kv.2)) l) m = (foldl (fun m kv => <[kv.1 := kv.2]> m) m l, true).
Proof.
  revert m. induction l as [|[k d] l IH]; intros m Hl; [done|]. cbn [map dec_tokens foldl fst snd].
  rewrite (reads_token d : dec c_token (enc c_token d) zero_token = (d, true)).
  rewrite atoi_itoa by (apply (Hl (k, d)); left). rewrite IH; [done|]. intros kv Hkv. apply Hl. by right.
Qed.

Lemma foldl_insert_list (l : list (Z * TokenData)) (m : gmap Z TokenData) :
  NoDup l.*1 -> foldl (fun m kv => <[kv.1 := kv.2]> m) m l = list_to_map l ∪ m.
Proof.
  revert m. induction l as [|[k d] l IH]; intros m Hnd; cbn; [by rewrite (left_id_L ∅ (∪))|].
  apply NoDup_cons in Hnd as [Hk Hnd]. rewrite IH by done.
  rewrite <- insert_union_l. rewrite insert_union_r; [done|]. by apply not_elem_of_list_to_map_1.
Qed.

Lemma reads_tokens a : tokens_ok a -> reads c_tokens a ∅ a.
Proof.
  intros Ha. unfold reads. cbn [enc dec c_tokens]. rewrite dec_tokens_list.
  - rewrite foldl_insert_list by apply NoDup_fst_map_to_list. by rewrite list_to_map_to_list, (right_id_L ∅ (∪)).
  - intros [k d] Hk%elem_of_map_to_list. apply Ha. by eapply elem_of_dom_2.
Qed.

Lemma or_old_tokens a : or_old c_tokens a ∅ a = a.
Proof. unfold or_old. cbn. by case_bool_decide. Qed.

Definition normal_users (u : UsersData) : UsersData :=
  mkUsersData (truthy (ud_Notify u)) (truthy (ud_NotifyOff u)) (truthy (ud_TrayOff u)).
Definition users_ok (u : UsersData) : Prop :=
  small_keys (ud_Notify u) /\ small_keys (ud_NotifyOff u) /\ small_keys (ud_TrayOff u).

Lemma reads_users a old : users_ok a -> reads c_users a old (normal_users a).
Proof. intros (H1 & H2 & H3). read_struct c_users. repeat find_field ltac:(by apply reads_numbers). done. Qed.

(** What a default [AutoConnectData] becomes: an omitted protocol keeps the
    default, and an empty list of name servers is nil. *)
Definition normal_autoconnect (a : AutoConnectData) : AutoConnectData :=
  a <| ac_Protocol := if ac_Protocol a =? 0 then 1 else ac_Protocol a |>
    <| ac_DNS := if bool_decide (elems (ac_DNS a) = []) then None else ac_DNS a |>
    <| ac_Allowlist := normal_allowlist (ac_Allowlist a) |>.

Definition int32 (z : Z) : Prop := - 2 ^ 31 <= z <= 2 ^ 31 - 1.
Definition uint32 (z : Z) : Prop := 0 <= z <= 2 ^ 32 - 1.
Definition autoconnect_ok (a : AutoConnectData) : Prop :=
  - 2 ^ 63 <= ac_ID a <= max_int64 /\ int32 (ac_Group a) /\ int32 (ac_Protocol a) /\ allowlist_ok (ac_Allowlist a).

Lemma reads_autoconnect a :
  autoconnect_ok a ->
  reads c_autoconnect a (mkAutoConnectData 0 "" "" "" 0 1 false false None empty_allowlist false) (normal_autoconnect a).
Proof.
  intros (Hi & Hg & Hp & Ha). read_struct c_autoconnect.
  repeat find_field ltac:(first [apply reads_string | apply reads_bool | by apply reads_int
                                | by apply reads_allowlist | apply reads_dns]).
  cbn [ac_ID ac_ServerTag ac_Protocol ac_ThreatProtectionLite ac_Obfuscate ac_DNS ac_Allowlist].
  rewrite or_old_string, !or_old_bool. unfold c_int64. rewrite or_old_int. by destruct a.
Qed.

Lemma reads_meshnet a old : uint32 a.1 -> uint32 a.2 -> reads c_meshnet a old a.
Proof. intros H1 H2. read_struct c_meshnet. repeat find_field ltac:(by apply reads_int). by destruct a. Qed.

(** The configuration that is read back from one that was written. *)
Definition normal (c : Config) : Config :=
  c <| cfg_Technology := if bool_decide (cfg_Technology c = UNKNOWN_TECHNOLOGY) then NORDLYNX else cfg_Technology c |>
    <| cfg_AutoConnectData := normal_autoconnect (cfg_AutoConnectData c) |>
    <| cfg_UsersData := Some (default zero_users (normal_users <$> cfg_UsersData c)) |>.

(** Values within the range of their Go types whose sets of ports and users a
    [float64] holds exactly. *)
Definition writable (c : Config) : Prop :=
  uint32 (cfg_FirewallMark c) /\ uint32 (cfg_EnabledByUID c) /\ uint32 (cfg_EnabledByGID c) /\
  autoconnect_ok (cfg_AutoConnectData c) /\ tokens_ok (cfg_TokensData c) /\
  from_option users_ok True (cfg_UsersData c) /\ from_option machine_ok True (cfg_MeshDevice c).

Lemma reads_machine_pointer a :
  from_option machine_ok True a -> reads (c_pointer c_machine zero_machine) a None a.
Proof. destruct a as [m|]; intros Hm; [|done]. apply reads_pointer; [done|]. by apply reads_machine. Qed.

Lemma reads_users_pointer a :
  from_option users_ok True a -> reads (c_pointer c_users zero_users) a (Some zero_users) (normal_users <$> a).
Proof. destruct a as [u|]; intros Hu; [|done]. apply reads_pointer; [done|]. by apply reads_users. Qed.

Lemma config_reads c id :
  writable c -> reads c_config c (newConfig id) (normal c).
Proof.
  intros (Hf & Hu & Hg & Ha & Ht & Hus & Hm). read_struct c_config.
  repeat find_field ltac:(first [apply reads_string | apply reads_bool | by apply reads_int | apply reads_technology
    | apply reads_true_field | by apply reads_machine_pointer | by apply reads_autoconnect | by apply reads_meshnet
    | by apply reads_tokens | by apply reads_users_pointer]).
  cbn [newConfig cfg_Technology cfg_KillSwitch cfg_AutoConnect cfg_UsersData cfg_TokensData cfg_RemoteConfig
       cfg_VirtualLocation andb fst snd].
  rewrite !or_old_bool, or_old_string, or_old_tokens. destruct c as [[] ? ? ? ? ? ? ? ? ? ? ? ? ? [u|] ? ? ? ? ? ?]; done.
Qed.
