(* ===== verification/ConfigFile.v ===== *)
(** * ConfigFile: the encrypted configuration file

    Models [config/manager.go] ([FilesystemConfigManager]) and
    [internal/crypto.go].  The state is the flag [NewInstallation], the
    configurations published so far and the environment; the mutex makes the
    methods atomic, and the deferred publication comes after the unlock.

    Class [Codecs] is what the file format takes from other packages: MD5,
    AES-GCM, gob and the text of JSON, with [CodecLaws] their round trips.  Class
    [Host] is the machine: the file system, the random sources and the machine id;
    [HostLaws] says which operations touch which file, whether or not they
    succeed, and [HostWorks] that nothing fails.  A nil dereference is the error
    [nil_panic], which no caller handles. *)

From stdpp Require Import base option list strings gmap fin_maps.
From Stdlib Require Import ZArith Ascii Lia.
From S2P Require Import Prelude GoLib Mesh Config Json.

Open Scope Z_scope.
Open Scope go_scope.

Abbreviation bytes := (list ascii).

Class Codecs : Type := {
  md5_Sum : bytes -> bytes;
  gcm_Seal : bytes -> bytes -> bytes -> bytes;  (* key, nonce, plain text *)
  gcm_Open : bytes -> bytes -> bytes -> option bytes;
  gob_Encode : bytes -> bytes;
  gob_Decode : bytes -> option bytes;
  print_json : json -> bytes;
  parse_json : bytes -> option json;
  (** What a failed [json.Unmarshal] leaves in the struct. *)
  json_leftover : json -> Config -> Config
}.

Definition NonceSize : nat := 12.

Class CodecLaws `{Codecs} : Prop := {
  md5_length b : length (md5_Sum b) = 16%nat;
  open_seal key nonce p :
    length key = 32%nat -> length nonce = NonceSize -> gcm_Open key nonce (gcm_Seal key nonce p) = Some p;
  gob_roundtrip b : gob_Decode (gob_Encode b) = Some b;
  gob_nonempty b : gob_Encode b <> [];
  json_roundtrip j : parse_json (print_json j) = Some j
}.

Class Host (E : Type) : Type := {
  os_Exists : string -> E -> bool;  (* [os.Stat] does not say that the file is missing *)
  os_ReadFile : string -> M E bytes;
  os_WriteFile : string -> bytes -> M E unit;
  os_MkdirAll : string -> M E unit;
  filepath_Dir : string -> string;
  filepath_Abs : string -> M E string;
  rand_Read : nat -> M E bytes;  (* [io.ReadFull(rand.Reader, b)] *)
  rand_Intn : Z -> E -> Z * E;  (* the generator seeded with the time *)
  GetMachineID : E -> string * E
}.

(** [contents] is what the files hold. *)
Class HostLaws (E : Type) `{Host E} (contents : E -> gmap string bytes) : Prop := {
  exists_spec p e : os_Exists p e = bool_decide (is_Some (contents e !! p));
  read_contents p e : contents (os_ReadFile p e).2 = contents e;
  read_spec p e d : (os_ReadFile p e).1 = Ok d -> contents e !! p = Some d;
  write_other p d e q : p <> q -> contents (os_WriteFile p d e).2 !! q = contents e !! q;
  write_spec p d e : (os_WriteFile p d e).1 = Ok tt -> contents (os_WriteFile p d e).2 = <[p := d]> (contents e);
  mkdir_contents p e : contents (os_MkdirAll p e).2 = contents e;
  abs_contents p e : contents (filepath_Abs p e).2 = contents e;
  rand_contents n e : contents (rand_Read n e).2 = contents e;
  rand_length n e b : (rand_Read n e).1 = Ok b -> length b = n;
  intn_contents n e : contents (rand_Intn n e).2 = contents e;
  intn_range n e : 0 < n -> 0 <= (rand_Intn n e).1 < n;
  machine_contents e : contents (GetMachineID e).2 = contents e
}.

(** A machine on which nothing fails. *)
Class HostWorks (E : Type) `{Host E} (contents : E -> gmap string bytes) (id : string) : Prop := {
  read_works p e d : contents e !! p = Some d -> (os_ReadFile p e).1 = Ok d;
  write_works p d e : (os_WriteFile p d e).1 = Ok tt;
  mkdir_works p e : (os_MkdirAll p e).1 = Ok tt;
  abs_works p e : is_ok (filepath_Abs p e).1 = true;
  rand_works n e : is_ok (rand_Read n e).1 = true;
  machine_stable e : (GetMachineID e).1 = id
}.

(** ** Encryption *)

Definition nil_panic : error := Sentinel "runtime error: invalid memory address or nil pointer dereference".

Definition hex_EncodeToString (b : bytes) : bytes :=
  b ≫= (fun c => [hex_digit (Z.of_N (N_of_ascii c) / 16); hex_digit (Z.of_N (N_of_ascii c) mod 16)]).

Section Crypto.
Context `{Codecs}.

Definition createHash (key : bytes) : bytes := hex_EncodeToString (md5_Sum key).

Definition Decrypt (data passphrase : bytes) : result bytes :=
  let key := createHash passphrase in
  if bool_decide (length key ∈ [16; 24; 32]%nat) then
    if (length data <? NonceSize)%nat then Err (Errorf "invalid data")
    else match gcm_Open key (take NonceSize data) (drop NonceSize data) with
         | Some p => Ok p
         | None => Err (Errorf "cipher: message authentication failed")
         end
  else Err (Errorf "crypto/aes: invalid key size").

Context {E : Type} `{Host E}.

(** The error of [aes.NewCipher] is dropped; [cipher.NewGCM] of the nil block
    panics. *)
Definition Encrypt (data passphrase : bytes) : M E bytes :=
  let key := createHash passphrase in
  if bool_decide (length key ∈ [16; 24; 32]%nat) then
    let! nonce := rand_Read NonceSize in
    ret (nonce ++ gcm_Seal key nonce data)
  else throw nil_panic.
End Crypto.

(** ** The manager *)

Definition errNoInstallFile : string := "install file doesn't exist".

Record Manager (E : Type) : Type := mkManager {
  fm_NewInstallation : bool;
  fm_published : list Config;
  fm_env : E
}.
Arguments mkManager {E} _ _ _.
Arguments fm_NewInstallation {E} _.
Arguments fm_published {E} _.
Arguments fm_env {E} _.
#[export] Instance Manager_eta {E} : EtaExpand (Manager E) := fun s =>
  mkManager (fm_NewInstallation s) (fm_published s) (fm_env s).

(** The translation of the old setting [notify]: the order of the keys does not
    matter, since every one is set to the same value. *)
Definition translate_notify (u : UsersData) : UsersData :=
  u <| ud_NotifyOff := map_fold (fun uid (val : bool) off => if val then off else <[uid := true]> off)
                         (ud_NotifyOff u) (ud_Notify u) |>.

Section Manager.
Context `{Codecs} {E : Type} `{Host E}.
(** The arguments of [NewFilesystemConfigManager]. *)
Context (location vault : string) (salt : bytes) (has_publisher : bool).
#[local] Abbreviation ST := (M (Manager E)).

Definition in_host {A} (m : M E A) : ST A := zoom fm_env (fun e s => s <| fm_env := e |>) m.
Definition ask_host {A} (f : E -> A * E) : ST A := fun s =>
  let '(a, e) := f (fm_env s) in (Ok a, s <| fm_env := e |>).

(** [StdFilesystemHandle]. *)
Definition FileExists (p : string) : ST bool := gets (fun s => os_Exists p (fm_env s)).
Definition ReadFile (p : string) : ST bytes := in_host (os_ReadFile p).
Definition EnsureDirFull (p : string) : ST unit :=
  let! dir := wrapped "getting absolute path: " (in_host (filepath_Abs p)) "" in
  wrapped "making directories: " (in_host (os_MkdirAll dir)) "".
Definition EnsureDir (p : string) : ST unit := EnsureDirFull (filepath_Dir p).
Definition WriteFile (p : string) (d : bytes) : ST unit :=
  EnsureDir p ;; in_host (os_WriteFile p d).

Definition lift_result {A} (r : result A) : ST A := match r with Ok a => ret a | Err e => throw e end.

Fixpoint key_loop (n : nat) (key : bytes) : ST bytes :=
  match n with
  | O => ret key
  | S n' => let! r := ask_host (rand_Intn (126 - 33)) in
            key_loop n' (key ++ [ascii_of_N (Z.to_N (r + 33))])
  end.
Definition generateKey : ST bytes := key_loop 32 [].

Definition newKey : ST unit :=
  let! key := generateKey in
  let! cipher := in_host (Encrypt key salt) in
  WriteFile vault (gob_Encode cipher).

Definition loadKey : ST bytes :=
  let! exists_ := FileExists vault in
  if negb exists_ then throw (Sentinel errNoInstallFile)
  else
    let! content := ReadFile vault in
    match content with
    | [] => throw (Sentinel errNoInstallFile)
    | _ =>
        match gob_Decode content with
        | None => throw (Errorf "gob")
        | Some cipher => lift_result (Decrypt cipher salt)
        end
    end.

Definition getPassphrase : ST bytes :=
  let! r := attempt loadKey in
  match r with
  | Ok key => ret key
  | Err err => if errors_Is err errNoInstallFile then newKey ;; loadKey else throw err
  end.

Definition save (c : Config) : ST unit :=
  let! pass := getPassphrase in
  let! encrypted := in_host (Encrypt (print_json (enc c_config c)) pass) in
  WriteFile location encrypted.

(** [json.Unmarshal(decrypted, c)] and the translation after it: what is left in
    [*c] and the error. *)
Definition decode_config (decrypted : bytes) (c : Config) : Config * option error :=
  match parse_json decrypted with
  | None => (c, Some (Errorf "invalid character"))
  | Some j =>
      match dec c_config j c with
      | (c', true) =>
          match cfg_UsersData c' with
          | None => (c', Some nil_panic)
          | Some u => (c' <| cfg_UsersData := Some (translate_notify u) |>, None)
          end
      | (_, false) => (json_leftover j c, Some (Errorf "json: cannot unmarshal"))
      end
  end.

Definition read_config : ST bytes :=
  let! pass := getPassphrase in
  let! data := ReadFile location in
  lift_result (Decrypt data pass).

(** [load]: what is left in [*c] and the error. *)
Definition load : ST (Config * option error) :=
  let! id := ask_host GetMachineID in
  let c := newConfig id in
  let! exists_ := FileExists location in
  if negb exists_ then
    set! fm_NewInstallation := true ;;
    let! r := attempt (save c) in
    ret (c, match r with Ok _ => None | Err e => Some e end)
  else
    let! r := attempt read_config in
    match r with
    | Err e => ret (c, Some e)
    | Ok decrypted => ret (decode_config decrypted c)
    end.

Definition publish (c : Config) : ST unit :=
  when has_publisher (modify (fun s => s <| fm_published := fm_published s ++ [c] |>)).

(** The deferred function tests the outer [err], which the error of [load] does
    not reach. *)
Definition SaveWith (fn : Config -> Config) : ST unit :=
  let! r := load in
  match r with
  | (c, Some e) => publish c ;; throw e
  | (c, None) =>
      let c := fn c in
      save c ;; publish c
  end.

Definition Reset : ST unit :=
  let! id := ask_host GetMachineID in save (newConfig id).

Definition Load : ST Config :=
  let! r := load in
  match r with (c, None) => ret c | (_, Some e) => throw e end.
End Manager.

(** ** Encryption is undone by decryption *)

Lemma createHash_length `{Codecs} `{!CodecLaws} pass : length (createHash pass) = 32%nat.
Proof.
  unfold createHash, hex_EncodeToString. pose proof (md5_length pass) as Hl. revert Hl.
  generalize (md5_Sum pass). intros b.
  enough (length (b ≫= (fun c => [hex_digit (Z.of_N (N_of_ascii c) / 16); hex_digit (Z.of_N (N_of_ascii c) mod 16)]))
            = (2 * length b)%nat) as -> by lia.
  induction b as [|c b IH]; [done|]. cbn [mbind list_bind length app]. rewrite IH. lia.
Qed.

Section Runs.
Context `{Codecs} `{!CodecLaws} {E : Type} `{Host E} {contents : E -> gmap string bytes} `{!HostLaws E contents}.

Lemma Encrypt_contents data pass e : contents (Encrypt data pass e).2 = contents e.
Proof.
  unfold Encrypt. case_bool_decide; [|done]. unfold bind. pose proof (rand_contents NonceSize e) as Hr.
  by destruct (rand_Read NonceSize e) as [[n|err] e'].
Qed.

Lemma Encrypt_Decrypt data pass e d :
  (Encrypt data pass e).1 = Ok d -> Decrypt d pass = Ok data.
Proof.
  unfold Encrypt, Decrypt. rewrite createHash_length. rewrite !bool_decide_true by (do 2 right; left).
  unfold bind. pose proof (rand_length NonceSize e) as Hr. destruct (rand_Read NonceSize e) as [[n|err] e']; [|done].
  intros [= <-]. specialize (Hr n eq_refl). rewrite length_app, Hr.
  destruct (Nat.ltb_spec (NonceSize + length (gcm_Seal (createHash pass) n data)) NonceSize) as [Hlt|_]; [lia|].
  rewrite <- Hr at 1 2. rewrite take_app_length, drop_app_length.
  rewrite open_seal; [done| |done]. apply createHash_length.
Qed.

Context {id : string} `{!HostWorks E contents id}.

Lemma Encrypt_works data pass e :
  exists d, (Encrypt data pass e).1 = Ok d.
Proof.
  unfold Encrypt. rewrite createHash_length. rewrite bool_decide_true by (do 2 right; left). unfold bind.
  pose proof (rand_works NonceSize e) as Hr. destruct (rand_Read NonceSize e) as [[n|err] e']; [|done]. by eexists.
Qed.
End Runs.

(** ** What the methods leave alone, on any machine *)

Section Frame.
Context `{Codecs} {E : Type} `{Host E} {contents : E -> gmap string bytes} `{!HostLaws E contents}.
Context (location vault : string) (salt : bytes) (has_publisher : bool).

Definition files_of (s : Manager E) : gmap string bytes := contents (fm_env s).
Definition file_is (p : string) (d : option bytes) (s : Manager E) : Prop := files_of s !! p = d.

Lemma in_host_file {A} (m : M E A) p d :
  (forall e, contents (m e).2 !! p = contents e !! p) -> preserves (file_is p d) (in_host m).
Proof.
  intros Hm s Hs. unfold in_host, zoom. specialize (Hm (fm_env s)). destruct (m (fm_env s)) as [r e].
  unfold file_is, files_of in *. cbn in *. congruence.
Qed.

Lemma ask_host_file {A} (f : E -> A * E) p d :
  (forall e, contents (f e).2 = contents e) -> preserves (file_is p d) (ask_host f).
Proof.
  intros Hf s Hs. unfold ask_host. specialize (Hf (fm_env s)). destruct (f (fm_env s)) as [r e].
  unfold file_is, files_of in *. cbn in *. congruence.
Qed.

Lemma ReadFile_file q p d : preserves (file_is p d) (ReadFile q).
Proof. apply in_host_file. intros e. by rewrite read_contents. Qed.

Lemma Encrypt_file data pass p d : preserves (file_is p d) (in_host (Encrypt data pass)).
Proof. apply in_host_file. intros e. by rewrite Encrypt_contents. Qed.

Lemma EnsureDir_file q p d : preserves (file_is p d) (EnsureDir q).
Proof.
  unfold EnsureDir, EnsureDirFull. pres_auto; apply in_host_file; intros e;
    [by rewrite abs_contents|by rewrite mkdir_contents].
Qed.

Lemma WriteFile_file q b p d : q <> p -> preserves (file_is p d) (WriteFile q b).
Proof.
  intros Hq. apply preserves_bind; [apply EnsureDir_file|]. intros _. apply in_host_file. intros e.
  by rewrite write_other.
Qed.

Lemma key_loop_file n key p d : preserves (file_is p d) (key_loop n key).
Proof.
  revert key. induction n as [|n IH]; intros key; cbn; [apply preserves_ret|].
  apply preserves_bind; [|intros r; apply IH]. apply ask_host_file. intros e. apply intn_contents.
Qed.

Lemma loadKey_file p d : preserves (file_is p d) (loadKey vault salt).
Proof.
  unfold loadKey, FileExists, lift_result. pres_auto. apply ReadFile_file.
Qed.

Lemma newKey_file p d : vault <> p -> preserves (file_is p d) (newKey vault salt).
Proof.
  intros Hp. unfold newKey, generateKey. pres_auto; [apply key_loop_file|apply Encrypt_file|by apply WriteFile_file].
Qed.

Lemma getPassphrase_file p d : vault <> p -> preserves (file_is p d) (getPassphrase vault salt).
Proof.
  intros Hp. unfold getPassphrase. pres_auto; [apply loadKey_file|by apply newKey_file|apply loadKey_file].
Qed.

Lemma read_config_file p d : vault <> p -> preserves (file_is p d) (read_config location vault salt).
Proof.
  intros Hp. unfold read_config, lift_result. pres_auto; [by apply getPassphrase_file|apply ReadFile_file].
Qed.

Lemma publish_file c p d : preserves (file_is p d) (publish has_publisher c).
Proof. apply preserves_when, preserves_modify. intros s. done. Qed.

(** Loading a file that exists does not write it. *)
Lemma load_file d : vault <> location -> preserves (file_is location (Some d)) (load location vault salt).
Proof.
  intros Hv. unfold load. apply preserves_bind; [apply ask_host_file; intros e; apply machine_contents|].
  intros mid. apply (preserves_read _ _ _ true).
  { intros s Hs. rewrite exists_spec. unfold file_is, files_of in Hs. rewrite Hs. by apply bool_decide_true. }
  cbn [negb]. pres_auto. by apply read_config_file.
Qed.

Lemma SaveWith_run fn s c e s' :
  load location vault salt s = (Ok (c, Some e), s') ->
  SaveWith location vault salt has_publisher fn s =
    (Err e, if has_publisher then s' <| fm_published := fm_published s' ++ [c] |> else s').
Proof. intros Hl. unfold SaveWith. go_run. unfold publish. by destruct has_publisher. Qed.

Lemma load_failure_kept fn s d c e s' :
  vault <> location -> file_is location (Some d) s -> load location vault salt s = (Ok (c, Some e), s') ->
  file_is location (Some d) (SaveWith location vault salt has_publisher fn s).2.
Proof.
  intros Hv Hd Hl. rewrite (SaveWith_run _ _ _ _ _ Hl). pose proof (load_file d Hv s Hd) as Hk. rewrite Hl in Hk.
  by destruct has_publisher.
Qed.
End Frame.

(** ** The methods on a machine where nothing fails *)

Section Works.
Context `{Codecs} `{!CodecLaws} {E : Type} `{Host E} {contents : E -> gmap string bytes} `{!HostLaws E contents}.
Context {id : string} `{!HostWorks E contents id}.
Context (location vault : string) (salt : bytes) (has_publisher : bool).
#[local] Abbreviation view := (files_of (contents := contents)).

(** [m] returns [a] in [s'] and touches only the files. *)
Definition runs {A} (m : M (Manager E) A) (s : Manager E) (a : A) (s' : Manager E) : Prop :=
  m s = (Ok a, s') /\ fm_published s' = fm_published s.

Lemma runs_bind {A B} (m : M (Manager E) A) (k : A -> M (Manager E) B) s a s1 b s2 :
  runs m s a s1 -> runs (k a) s1 b s2 -> runs (bind m k) s b s2.
Proof. intros [Hm Hp] [Hk Hq]. split; [by rewrite (bind_Ok _ _ _ _ _ Hm)|congruence]. Qed.

Lemma runs_ret {A} (a : A) s : runs (ret a) s a s.
Proof. done. Qed.

Lemma runs_attempt {A} (m : M (Manager E) A) s a s' : runs m s a s' -> runs (attempt m) s (Ok a) s'.
Proof. intros [Hm Hp]. split; [|done]. unfold attempt. by rewrite Hm. Qed.

Lemma runs_wrapped {A} pre (m : M (Manager E) A) post s a s' : runs m s a s' -> runs (wrapped pre m post) s a s'.
Proof. intros [Hm Hp]. split; [by apply wrapped_Ok|done]. Qed.

Lemma in_host_runs {A} (m : M E A) s a :
  (m (fm_env s)).1 = Ok a -> runs (in_host m) s a (s <| fm_env := (m (fm_env s)).2 |>).
Proof. intros Hm. split; [|done]. unfold in_host, zoom. destruct (m (fm_env s)). cbn in *. by subst. Qed.

Lemma ReadFile_works p d s : view s !! p = Some d -> exists s', runs (ReadFile p) s d s' /\ view s' = view s.
Proof. intros Hd. eexists. split; [by apply in_host_runs, read_works|]. unfold files_of. cbn. apply read_contents. Qed.

Lemma Encrypt_runs data pass s :
  exists d s', runs (in_host (Encrypt data pass)) s d s' /\ view s' = view s /\ Decrypt d pass = Ok data.
Proof.
  destruct (Encrypt_works data pass (fm_env s)) as [d Hd]. exists d. eexists. split_and!; [by apply in_host_runs| |].
  - unfold files_of. cbn. apply Encrypt_contents.
  - by eapply Encrypt_Decrypt.
Qed.

Lemma EnsureDir_works p s : exists s', runs (EnsureDir p) s tt s' /\ view s' = view s.
Proof.
  pose proof (abs_works (filepath_Dir p) (fm_env s)) as Ha.
  destruct (filepath_Abs (filepath_Dir p) (fm_env s)).1 as [dir|] eqn:Hd; [|done].
  eexists. split.
  - eapply runs_bind; [by apply runs_wrapped, in_host_runs|]. apply runs_wrapped, in_host_runs, mkdir_works.
  - unfold files_of. cbn. by rewrite mkdir_contents, abs_contents.
Qed.

Lemma WriteFile_works p d s : exists s', runs (WriteFile p d) s tt s' /\ view s' = <[p := d]> (view s).
Proof.
  destruct (EnsureDir_works p s) as (s1 & Hr & Hv). eexists. split.
  - eapply runs_bind; [exact Hr|]. apply in_host_runs, write_works.
  - unfold files_of in *. cbn. rewrite write_spec by apply write_works. by rewrite Hv.
Qed.

Lemma key_loop_works n key s :
  exists k s', runs (key_loop n key) s k s' /\ view s' = view s.
Proof.
  revert key s. induction n as [|n IH]; intros key s; [by exists key, s|]. cbn [key_loop].
  destruct (rand_Intn (126 - 33) (fm_env s)) as [r e'] eqn:Hr.
  destruct (IH (key ++ [ascii_of_N (Z.to_N (r + 33))]) (s <| fm_env := e' |>)) as (k & s' & Hk & Hv).
  exists k, s'. split.
  - eapply runs_bind; [|exact Hk]. split; [|done]. unfold ask_host. by rewrite Hr.
  - rewrite Hv. unfold files_of. cbn. pose proof (intn_contents (126 - 33) (fm_env s)) as Hc. by rewrite Hr in Hc.
Qed.

(** The vault holds the passphrase [k]. *)
Definition key_is (files : gmap string bytes) (k : bytes) : Prop :=
  exists content cipher, files !! vault = Some content /\ content <> [] /\
    gob_Decode content = Some cipher /\ Decrypt cipher salt = Ok k.
(** There is no vault yet, or an empty one. *)
Definition no_key (files : gmap string bytes) : Prop := files !! vault = None \/ files !! vault = Some [].

Lemma loadKey_works k s : key_is (view s) k -> exists s', runs (loadKey vault salt) s k s' /\ view s' = view s.
Proof.
  intros (content & cipher & Hc & Hne & Hg & Hd). destruct (ReadFile_works _ _ s Hc) as (s' & Hr & Hv).
  exists s'. split; [|done]. unfold loadKey.
  eapply (runs_bind _ _ _ true); [|].
  { split; [|done]. unfold FileExists, gets. rewrite exists_spec. unfold files_of in Hc. by rewrite Hc, bool_decide_true. }
  cbn [negb]. eapply runs_bind; [exact Hr|]. destruct content; [done|]. rewrite Hg, Hd. apply runs_ret.
Qed.

Lemma loadKey_missing s :
  no_key (view s) ->
  exists s', runs (attempt (loadKey vault salt)) s (Err (Sentinel errNoInstallFile)) s' /\ view s' = view s.
Proof.
  intros Hn. unfold loadKey. unfold runs, attempt, bind at 1, FileExists, gets. rewrite exists_spec.
  unfold no_key, files_of in Hn. destruct Hn as [Hn|Hn].
  - rewrite bool_decide_false by (rewrite Hn; by intros [? ?]). by exists s.
  - rewrite bool_decide_true by (by rewrite Hn). cbn [negb].
    destruct (ReadFile_works vault [] s Hn) as (s' & [Hr Hp] & Hv). exists s'.
    by rewrite (bind_Ok _ _ _ _ _ Hr).
Qed.

Lemma newKey_works s :
  exists k s', runs (newKey vault salt) s tt s' /\ key_is (view s') k /\
    forall p, p <> vault -> view s' !! p = view s !! p.
Proof.
  destruct (key_loop_works 32 [] s) as (k & s1 & Hk & Hv1).
  destruct (Encrypt_runs k salt s1) as (d & s2 & Hd & Hv2 & Hdec).
  destruct (WriteFile_works vault (gob_Encode d) s2) as (s3 & Hw & Hv3).
  exists k, s3. split_and!.
  - eapply runs_bind; [exact Hk|]. eapply runs_bind; [exact Hd|exact Hw].
  - exists (gob_Encode d), d. rewrite Hv3, lookup_insert_eq.
    split_and!; [done|apply gob_nonempty|apply gob_roundtrip|done].
  - intros p Hp. rewrite Hv3, lookup_insert_ne by done. by rewrite Hv2, Hv1.
Qed.

Lemma getPassphrase_key k s :
  key_is (view s) k -> exists s', runs (getPassphrase vault salt) s k s' /\ view s' = view s.
Proof.
  intros Hk. destruct (loadKey_works k s Hk) as (s' & Hr & Hv). exists s'. split; [|done].
  eapply runs_bind; [by apply runs_attempt|]. apply runs_ret.
Qed.

Lemma getPassphrase_works s :
  (exists k, key_is (view s) k) \/ no_key (view s) ->
  exists k s', runs (getPassphrase vault salt) s k s' /\ key_is (view s') k /\
    forall p, p <> vault -> view s' !! p = view s !! p.
Proof.
  intros [[k Hk]|Hn].
  - destruct (getPassphrase_key k s Hk) as (s' & Hr & Hv). exists k, s'. rewrite Hv. auto.
  - destruct (loadKey_missing s Hn) as (s1 & Hr & Hv1).
    destruct (newKey_works s1) as (k & s2 & Hnew & Hk & Hsame).
    destruct (loadKey_works k s2 Hk) as (s3 & Hl & Hv3).
    exists k, s3. split_and!; [|by rewrite Hv3|intros p Hp; by rewrite Hv3, Hsame, Hv1].
    eapply runs_bind; [exact Hr|]. cbn [errors_Is]. rewrite bool_decide_true by done.
    eapply runs_bind; [exact Hnew|exact Hl].
Qed.
End Works.

(** ** What is read is what was written *)

Lemma translate_truthy u : (forall uid val, ud_Notify u !! uid = Some val -> val = true) -> translate_notify u = u.
Proof.
  intros Ht. unfold translate_notify. enough (map_fold (fun uid (val : bool) off => if val then off else <[uid := true]> off)
    (ud_NotifyOff u) (ud_Notify u) = ud_NotifyOff u) as -> by (by destruct u).
  revert Ht. generalize (ud_Notify u) as m. intros m.
  apply (map_fold_weak_ind (fun r m => (forall uid val, m !! uid = Some val -> val = true) -> r = ud_NotifyOff u)); [done|].
  clear m. intros uid val m r Hm IH Ht. rewrite (Ht uid val) by apply lookup_insert_eq. apply IH.
  intros uid' val' Hl. apply (Ht uid'). rewrite lookup_insert_ne; [done|]. intros ->. by rewrite Hm in Hl.
Qed.

Lemma lookup_truthy {K} `{Countable K} (m : gmap K bool) k v : truthy m !! k = Some v -> v = true.
Proof. unfold truthy. rewrite lookup_fmap. destruct (m !! k); cbn; congruence. Qed.

Lemma dom_truthy {K} `{Countable K} (m : gmap K bool) : dom (truthy m) = dom m.
Proof. unfold truthy. apply dom_fmap_L. Qed.

Lemma small_truthy m : small_keys m -> small_keys (truthy m).
Proof. unfold small_keys. by rewrite dom_truthy. Qed.

(** What was read back can be written again. *)
Lemma writable_normal c : writable c -> writable (normal c).
Proof.
  intros (Hf & Hu & Hg & (Hi & Hgr & Hp & H1 & H2) & Ht & Hus & Hm). unfold writable, normal. cbn.
  split_and!; try done.
  - destruct Hi. split_and!; try done; cbn.
    + unfold int32 in *. destruct (Z.eqb_spec (ac_Protocol (cfg_AutoConnectData c)) 0); lia.
    + split; by apply small_truthy.
  - destruct (cfg_UsersData c) as [u|]; cbn; [|by repeat split]. destruct Hus as (Ha & Hb & Hc).
    split_and!; by apply small_truthy.
Qed.

Lemma writable_new id : writable (newConfig id).
Proof. repeat split; try done. Qed.

Lemma normal_new id : normal (newConfig id) = newConfig id.
Proof. done. Qed.

Section Written.
Context `{Codecs} `{!CodecLaws}.

Lemma decode_written c id :
  writable c -> decode_config (print_json (enc c_config c)) (newConfig id) = (normal c, None).
Proof.
  intros Hw. unfold decode_config. rewrite json_roundtrip.
  rewrite (config_reads c id Hw : dec c_config (enc c_config c) (newConfig id) = (normal c, true)).
  change (cfg_UsersData (normal c)) with (Some (default zero_users (normal_users <$> cfg_UsersData c))).
  cbv beta iota. rewrite translate_truthy; [done|]. destruct (cfg_UsersData c) as [u|]; [|done].
  intros uid val. apply lookup_truthy.
Qed.

Context {E : Type} `{Host E} {contents : E -> gmap string bytes} `{!HostLaws E contents}.
Context {id : string} `{!HostWorks E contents id}.
Context (location vault : string) (salt : bytes) (has_publisher : bool) (Hlv : vault <> location).
#[local] Abbreviation view := (files_of (contents := contents)).

(** The files hold the configuration [c]. *)
Definition holds (files : gmap string bytes) (c : Config) : Prop :=
  exists k d text, key_is vault salt files k /\ files !! location = Some d /\ Decrypt d k = Ok text /\
    forall mid, decode_config text (newConfig mid) = (c, None).

(** The vault is usable: it has a key, or one will be made. *)
Definition keyed (files : gmap string bytes) : Prop :=
  (exists k, key_is vault salt files k) \/ no_key vault files.

Lemma holds_keyed files c : holds files c -> keyed files.
Proof. intros (k & ? & ? & Hk & _). left. by exists k. Qed.

Lemma key_other files k d : key_is vault salt files k -> key_is vault salt (<[location := d]> files) k.
Proof. intros (ct & ci & Hc & Hr). exists ct, ci. by rewrite lookup_insert_ne. Qed.

Lemma save_works c s :
  keyed (view s) -> writable c ->
  exists s', runs (save location vault salt c) s tt s' /\ holds (view s') (normal c).
Proof.
  intros Hk Hw. destruct (getPassphrase_works vault salt s Hk) as (k & s1 & Hp & Hk1 & _).
  destruct (Encrypt_runs (print_json (enc c_config c)) k s1) as (d & s2 & He & Hv2 & Hdec).
  destruct (WriteFile_works location d s2) as (s3 & Hwr & Hv3).
  exists s3. split; [eapply runs_bind; [exact Hp|]; eapply runs_bind; [exact He|exact Hwr]|].
  exists k, d, (print_json (enc c_config c)). rewrite Hv3, Hv2. split_and!.
  - by apply key_other.
  - apply lookup_insert_eq.
  - done.
  - intros mid. by apply decode_written.
Qed.

Lemma machine_runs s :
  exists s', runs (ask_host GetMachineID) s id s' /\ view s' = view s.
Proof.
  pose proof (machine_stable (fm_env s)) as Hid. pose proof (machine_contents (fm_env s)) as Hc.
  unfold runs, ask_host. destruct (GetMachineID (fm_env s)) as [mid e] eqn:Hm. cbn in *. subst mid.
  eexists. split; [by split|]. done.
Qed.

Lemma exists_runs p s b : b = bool_decide (is_Some (view s !! p)) -> runs (FileExists p) s b s.
Proof. intros ->. split; [|done]. unfold FileExists, gets. by rewrite exists_spec. Qed.

Lemma load_holds c s :
  holds (view s) c -> exists s', runs (load location vault salt) s (c, None) s' /\ view s' = view s.
Proof.
  intros (k & d & text & Hk & Hd & Hdec & Hc). destruct (machine_runs s) as (s1 & Hm & Hv1).
  rewrite <- Hv1 in Hk. destruct (getPassphrase_key vault salt k s1 Hk) as (s2 & Hp & Hv2).
  assert (Hd2 : view s2 !! location = Some d) by (by rewrite Hv2, Hv1).
  destruct (ReadFile_works location d s2 Hd2) as (s3 & Hr & Hv3).
  exists s3. split; [|by rewrite Hv3, Hv2, Hv1]. eapply runs_bind; [exact Hm|].
  eapply (runs_bind _ _ _ true); [apply exists_runs; rewrite Hv1, Hd; by rewrite bool_decide_true|]. cbn [negb].
  eapply runs_bind; [apply runs_attempt; eapply runs_bind; [exact Hp|]; eapply runs_bind; [exact Hr|]|].
  - unfold lift_result. rewrite Hdec. apply runs_ret.
  - cbv beta iota. rewrite Hc. apply runs_ret.
Qed.

Lemma load_new s :
  view s !! location = None -> keyed (view s) ->
  exists s', runs (load location vault salt) s (newConfig id, None) s' /\ holds (view s') (newConfig id).
Proof.
  intros Hn Hk. destruct (machine_runs s) as (s1 & Hm & Hv1).
  destruct (save_works (newConfig id) (s1 <| fm_NewInstallation := true |>)) as (s2 & Hs & Hh).
  { unfold files_of in *. cbn. by rewrite Hv1. }
  { apply writable_new. }
  exists s2. split; [|exact Hh]. eapply runs_bind; [exact Hm|].
  eapply (runs_bind _ _ _ false); [apply exists_runs; rewrite Hv1, Hn; rewrite bool_decide_false; [done|by intros [? ?]]|].
  cbn [negb]. eapply (runs_bind _ _ _ tt (s1 <| fm_NewInstallation := true |>)); [done|].
  eapply runs_bind; [by apply runs_attempt|]. apply runs_ret.
Qed.
End Written.

(** ** The specification: one cell

    What the users of [config.Manager] rely on: a cell that is empty before the
    first use, and the list of what was published. *)

Inductive ManagerOp : Type :=
| OpLoad
| OpSaveWith (fn : Config -> Config)
| OpReset.

(** Changes that keep the configuration within the range of its Go types. *)
Definition keeps_writable (op : ManagerOp) : Prop :=
  match op with OpSaveWith fn => forall c, writable c -> writable (fn c) | _ => True end.

Section Cell.
Context (id : string) (has_publisher : bool).

Definition cell_step (op : ManagerOp) (s : option Config * list Config) :
    option Config * (option Config * list Config) :=
  let '(cell, published) := s in
  let c := default (newConfig id) cell in
  match op with
  | OpLoad => (Some c, (Some c, published))
  | OpSaveWith fn => (None, (Some (normal (fn c)), published ++ if has_publisher then [fn c] else []))
  | OpReset => (None, (Some (newConfig id), published))
  end.

Fixpoint cell_run (ops : list ManagerOp) (s : option Config * list Config) :
    list (result (option Config)) * (option Config * list Config) :=
  match ops with
  | [] => ([], s)
  | op :: ops' => let '(r, s1) := cell_step op s in
                  let '(rs, s2) := cell_run ops' s1 in (Ok r :: rs, s2)
  end.
End Cell.

Section Refinement.
Context `{Codecs} `{!CodecLaws} {E : Type} `{Host E} {contents : E -> gmap string bytes} `{!HostLaws E contents}.
Context (location vault : string) (salt : bytes) (has_publisher : bool).
#[local] Abbreviation view := (files_of (contents := contents)).

Definition manager_step (op : ManagerOp) : M (Manager E) (option Config) :=
  match op with
  | OpLoad => let! c := Load location vault salt in ret (Some c)
  | OpSaveWith fn => SaveWith location vault salt has_publisher fn ;; ret None
  | OpReset => Reset location vault salt ;; ret None
  end.

Fixpoint manager_run (ops : list ManagerOp) (s : Manager E) : list (result (option Config)) * Manager E :=
  match ops with
  | [] => ([], s)
  | op :: ops' => let '(r, s1) := manager_step op s in
                  let '(rs, s2) := manager_run ops' s1 in (r :: rs, s2)
  end.

(** The simulation relation. *)
Definition represents (s : Manager E) (a : option Config * list Config) : Prop :=
  fm_published s = a.2 /\
  match a.1 with
  | None => view s !! location = None /\ keyed vault salt (view s)
  | Some c => holds location vault salt (view s) c /\ writable c
  end.

Context {id : string} `{!HostWorks E contents id} (Hlv : vault <> location).

Lemma load_represents s a :
  represents s a ->
  exists s', runs (load location vault salt) s (default (newConfig id) a.1, None) s' /\
    represents s' (Some (default (newConfig id) a.1), a.2).
Proof.
  destruct a as [[c|] pub]; cbn; intros [Hp Hr]; cbn in Hr.
  - destruct Hr as [Hh Hw]. destruct (load_holds location vault salt c s Hh) as (s' & Hl & Hv).
    exists s'. split; [done|]. split; [by rewrite (proj2 Hl)|]. cbn. by rewrite Hv.
  - destruct Hr as [Hn Hk]. destruct (load_new location vault salt Hlv s Hn Hk) as (s' & Hl & Hh).
    exists s'. split; [done|]. split; [by rewrite (proj2 Hl)|]. split; [done|apply writable_new].
Qed.

Lemma save_represents c s a :
  represents s a -> writable c ->
  exists s', runs (save location vault salt c) s tt s' /\ represents s' (Some (normal c), a.2).
Proof.
  intros [Hp Hr] Hw. destruct (save_works location vault salt Hlv c s) as (s' & Hs & Hh); [|done|].
  - destruct a.1; [by eapply holds_keyed, Hr|by apply Hr].
  - exists s'. split; [done|]. split; [by rewrite (proj2 Hs)|]. split; [done|by apply writable_normal].
Qed.

Lemma publish_run c (s : Manager E) :
  exists s', publish has_publisher c s = (Ok tt, s') /\
    fm_published s' = fm_published s ++ (if has_publisher then [c] else []) /\ fm_env s' = fm_env s.
Proof. unfold publish. destruct has_publisher; eexists; split; [done|done|done|]. by rewrite app_nil_r. Qed.

Lemma default_writable s a : represents s a -> writable (default (newConfig id) a.1).
Proof. intros [_ Hr]. destruct a.1; [apply Hr|apply writable_new]. Qed.

Lemma step_simulates op s a :
  keeps_writable op -> represents s a ->
  exists s', manager_step op s = (Ok (cell_step id has_publisher op a).1, s') /\
    represents s' (cell_step id has_publisher op a).2.
Proof.
  intros Hop Hr. destruct (load_represents s a Hr) as (s1 & Hl & Hr1). destruct Hl as [Hl Hp1].
  pose proof (default_writable s a Hr) as Hw. destruct a as [cell pub]. destruct op as [|fn|]; cbn in *.
  - exists s1. split; [|done]. unfold Load. rewrite bind_assoc, (bind_Ok _ _ _ _ _ Hl). done.
  - destruct (save_represents (fn (default (newConfig id) cell)) s1 _ Hr1 (Hop _ Hw)) as (s2 & [Hs Hp2] & [Hpub Hh]).
    destruct (publish_run (fn (default (newConfig id) cell)) s2) as (s3 & Hpr & Hp3 & He3). exists s3. split.
    + unfold SaveWith. rewrite bind_assoc, (bind_Ok _ _ _ _ _ Hl). cbv beta iota.
      rewrite bind_assoc, (bind_Ok _ _ _ _ _ Hs). by rewrite (bind_Ok _ _ _ _ _ Hpr).
    + split; [cbn in *; congruence|]. unfold files_of in *. cbn in *. by rewrite He3.
  - destruct (machine_runs s) as (s2 & Hm & Hv).
    destruct (save_represents (newConfig id) s2 (cell, pub)) as (s3 & [Hs Hp3] & Hr3).
    + destruct Hr as [Hp Hr]. split; [by rewrite (proj2 Hm)|]. cbn in *. by rewrite Hv.
    + apply writable_new.
    + exists s3. split; [|exact Hr3]. unfold Reset. rewrite bind_assoc, (bind_Ok _ _ _ _ _ (proj1 Hm)).
      by rewrite (bind_Ok _ _ _ _ _ Hs).
Qed.

(** C6: the file manager implements a cell. On a machine where no call fails and whose
    identifier stays the same, with the vault and the configuration in different files
    and codecs that are inverse to each other, and with changes that keep the numbers
    in the range of their Go types, every sequence of [Load], [SaveWith] and [Reset]
    returns exactly what a cell returns that starts with the default configuration, or
    with the one in the file. After [SaveWith] with the change [fn] the cell has not
    [fn c] but [normal (fn c)], in which what the JSON form leaves out has its default
    again; what is published is [fn c]. So a configuration survives the key in the
    vault, both encryptions and the JSON form of every field, up to [normal]. *)
Theorem config_file_is_a_cell (ops : list ManagerOp) (s : Manager E) (a : option Config * list Config) :
  represents s a -> Forall keeps_writable ops ->
  (manager_run ops s).1 = (cell_run id has_publisher ops a).1 /\
  represents (manager_run ops s).2 (cell_run id has_publisher ops a).2.
Proof.
  intros Hr Hops. revert s a Hr. induction Hops as [|op ops Hop _ IH]; intros s a Hr; [done|]. cbn.
  destruct (step_simulates op s a Hop Hr) as (s1 & -> & Hr1).
  destruct (cell_step id has_publisher op a) as [r a1]. cbn in Hr1. specialize (IH s1 a1 Hr1).
  destruct (manager_run ops s1) as [rs s2], (cell_run id has_publisher ops a1) as [rs' a2].
  destruct IH as [IH1 IH2]. cbn in *. by rewrite IH1.
Qed.
End Refinement.

(** ** Failures *)

Section Failures.
Context `{Codecs} {E : Type} `{Host E} {contents : E -> gmap string bytes} `{!HostLaws E contents}.
Context (location vault : string) (salt : bytes).

(** A configuration that cannot be read is never overwritten.  On any machine,
    when the file exists and [load] reports an error, [SaveWith] returns that error
    without calling the change and leaves the file as it is, byte for byte.  It
    still publishes what the failed [load] left in the struct, because the deferred
    function tests an [err] that the inner declaration shadows. *)
Theorem failed_load_keeps_file (fn : Config -> Config) (s s' : Manager E) d c e :
  vault <> location -> contents (fm_env s) !! location = Some d ->
  load location vault salt s = (Ok (c, Some e), s') ->
  (SaveWith location vault salt true fn s).1 = Err e /\
  contents (fm_env (SaveWith location vault salt true fn s).2) !! location = Some d /\
  fm_published (SaveWith location vault salt true fn s).2 = fm_published s' ++ [c].
Proof.
  intros Hv Hd Hl. split_and!; [by rewrite (SaveWith_run _ _ _ _ _ _ _ _ _ Hl)| |by rewrite (SaveWith_run _ _ _ _ _ _ _ _ _ Hl)].
  exact (load_failure_kept location vault salt true fn s d c e s' Hv Hd Hl).
Qed.
End Failures.

(** The notify setting of a decoded configuration maps every user to true. *)
Lemma dec_numbers_true o key old m ok :
  (forall uid (val : bool), old !! uid = Some val -> val = true) -> into c_numbers o key old = (m, ok) ->
  forall uid val, m !! uid = Some val -> val = true.
Proof.
  intros Hold. unfold into. destruct (get o key) as [j|]; [|by intros [= <- <-]].
  cbn [dec c_numbers]. destruct j; try by intros [= <- <-].
  destruct (dec_numbers l) as [zs ok']. destruct ok'; intros [= <- <-]; [|done].
  enough (Hs : forall acc, (forall uid (val : bool), acc !! uid = Some val -> val = true) ->
            forall uid val, set_all zs acc !! uid = Some val -> val = true) by (by apply Hs).
  induction zs as [|z zs IH]; intros acc Ha; [done|]. apply (IH (<[z := true]> acc)).
  intros uid val. destruct (decide (uid = z)) as [->|Hne].
  - rewrite lookup_insert_eq. congruence.
  - rewrite lookup_insert_ne by done. apply Ha.
Qed.

Lemma dec_config_users o c :
  cfg_UsersData (dec c_config (JObject o) c).1 = (into (c_pointer c_users zero_users) o "users_data" (cfg_UsersData c)).1.
Proof. cbn [dec c_config c_struct]. repeat destruct (into _ _ _ _). done. Qed.

(** The translation of the old notify setting never does anything.  Whatever
    the file holds, decoding it makes [Notify] map its users to true, since
    [UidBoolMap.UnmarshalJSON] only stores true, so the loop that looks for users
    mapped to false leaves the users as they are. *)
Theorem notify_translation_is_dead (j : json) (mid : string) (u : UsersData) :
  cfg_UsersData (dec c_config j (newConfig mid)).1 = Some u -> translate_notify u = u.
Proof.
  intros Hu. apply translate_truthy.
  destruct j as [| | | | |o]; try (injection Hu as <-; by intros uid val; cbn; rewrite lookup_empty).
  rewrite dec_config_users in Hu. revert Hu. unfold into. cbn [newConfig cfg_UsersData].
  destruct (get o "users_data") as [j|]; [|intros [= <-]; by intros uid val; cbn; rewrite lookup_empty].
  cbn [dec c_pointer default]. destruct j as [| | | | |o']; try done;
    try (intros [= <-]; by intros uid val; cbn; rewrite lookup_empty).
  cbn [dec c_users c_struct zero_users id ud_Notify ud_NotifyOff ud_TrayOff].
  destruct (into c_numbers o' "notify" ∅) as [n ok1] eqn:Hn.
  destruct (into c_numbers o' "notify_off" ∅), (into c_numbers o' "tray_off" ∅). intros [= <-]. cbn [ud_Notify].
  eapply dec_numbers_true; [|exact Hn]. by intros uid val; cbn; rewrite lookup_empty.
Qed.

Lemma key_loop_printable `{HostLaws E contents} n key :
  ensures (fun k _ => length k = (n + length key)%nat /\
             exists new, k = key ++ new /\ Forall (fun c => 33 <= Z.of_N (N_of_ascii c) <= 125) new)
    (key_loop (E := E) n key).
Proof.
  revert key. induction n as [|n IH]; intros key s k s'; cbn [key_loop].
  - intros [= <- _]. split; [done|]. exists []. by rewrite app_nil_r.
  - unfold bind, ask_host. pose proof (intn_range (126 - 33) (fm_env s) ltac:(lia)) as Hr.
    destruct (rand_Intn (126 - 33) (fm_env s)) as [r e]. cbn in Hr. intros Hk.
    apply IH in Hk as (Hl & new & -> & Hn). split; [rewrite Hl, length_app; cbn; lia|].
    exists (ascii_of_N (Z.to_N (r + 33)) :: new). split; [by rewrite <- app_assoc|].
    apply Forall_cons. split; [|done]. rewrite N_ascii_embedding by lia. lia.
Qed.

(** The generated key.  Every key [generateKey] makes has 32 bytes, all of
    them printable characters other than the space and the tilde: each is the
    conversion of an integer from 33 to 125, so no conversion to a byte loses
    anything. *)
Theorem generated_key_printable `{HostLaws E contents} (s s' : Manager E) (k : bytes) :
  generateKey s = (Ok k, s') ->
  length k = 32%nat /\ Forall (fun c => 33 <= Z.of_N (N_of_ascii c) <= 125) k.
Proof.
  intros Hk. destruct (key_loop_printable 32 [] s k s' Hk) as (Hl & new & -> & Hn). by split.
Qed.

(** ** A concrete machine

    Files in memory, on which nothing fails, and reversible encodings. *)

Module Memory.

Fixpoint tree_of (j : json) : gen_tree (bool + Z + string) :=
  match j with
  | JNull => GenNode 0 []
  | JBool b => GenLeaf (inl (inl b))
  | JNum z => GenLeaf (inl (inr z))
  | JString s => GenLeaf (inr s)
  | JArray l => GenNode 1 (map tree_of l)
  | JObject o => GenNode 2 (map (fun kv => GenNode 3 [GenLeaf (inr kv.1); tree_of kv.2]) o)
  end.

Fixpoint of_tree (t : gen_tree (bool + Z + string)) : json :=
  match t with
  | GenLeaf (inl (inl b)) => JBool b
  | GenLeaf (inl (inr z)) => JNum z
  | GenLeaf (inr s) => JString s
  | GenNode 1 ts => JArray (map of_tree ts)
  | GenNode 2 ts => JObject (map (fun t => match t with
                                           | GenNode _ [GenLeaf (inr k); t'] => (k, of_tree t')
                                           | _ => (EmptyString, JNull)
                                           end) ts)
  | GenNode _ _ => JNull
  end.

Lemma of_tree_of : forall j, of_tree (tree_of j) = j.
Proof.
  fix IH 1. intros [|b|z|s|l|o]; cbn; [done|done|done|done| |].
  - f_equal. induction l as [|j l IHl]; [done|]. cbn. f_equal; [apply IH|exact IHl].
  - f_equal. induction o as [|[k j] o IHo]; [done|]. cbn. f_equal; [|exact IHo]. by rewrite IH.
Qed.

Fixpoint bits (p : positive) : bytes :=
  match p with xH => [] | xO p => "0"%char :: bits p | xI p => "1"%char :: bits p end.
Fixpoint of_bits (b : bytes) : positive :=
  match b with [] => xH | c :: b => if Ascii.eqb c "0"%char then xO (of_bits b) else xI (of_bits b) end.
Lemma of_bits_bits p : of_bits (bits p) = p.
Proof. induction p; cbn; congruence. Qed.

#[export] Instance codecs : Codecs := {|
  md5_Sum b := take 16 (b ++ replicate 16 "0"%char);
  gcm_Seal key nonce p := key ++ p;
  gcm_Open key nonce c := if bool_decide (take 32 c = key) then Some (drop 32 c) else None;
  gob_Encode b := "g"%char :: b;
  gob_Decode b := match b with c :: b => Some b | [] => None end;
  print_json j := bits (encode (tree_of j));
  parse_json b := of_tree <$> decode (of_bits b);
  json_leftover j c := c
|}.

#[export] Instance codec_laws : CodecLaws.
Proof.
  split.
  - intros b. cbn [md5_Sum codecs]. rewrite length_take, length_app, length_replicate. lia.
  - intros key nonce p Hk _. cbn. rewrite <- Hk, take_app_length, drop_app_length. by rewrite bool_decide_true.
  - done.
  - done.
  - intros j. cbn [print_json parse_json codecs]. rewrite of_bits_bits, decode_encode. cbn. by rewrite of_tree_of.
Qed.

Definition Files : Type := gmap string bytes.

#[export] Instance host : Host Files := {|
  os_Exists p e := bool_decide (is_Some (e !! p));
  os_ReadFile p e := (match e !! p with Some d => Ok d | None => Err (Errorf "no such file") end, e);
  os_WriteFile p d e := (Ok tt, <[p := d]> e);
  os_MkdirAll p e := (Ok tt, e);
  filepath_Dir p := p;
  filepath_Abs p e := (Ok p, e);
  rand_Read n e := (Ok (replicate n "r"%char), e);
  rand_Intn n e := (0, e);
  GetMachineID e := ("machine", e)
|}.

#[export] Instance host_laws : HostLaws Files id.
Proof.
  split; intros; cbn in *; unfold id in *; try done.
  - by destruct (e !! p) eqn:Hp; simplify_eq.
  - by apply (lookup_insert_ne e).
  - simplify_eq. apply length_replicate.
Qed.

#[export] Instance host_works : HostWorks Files id "machine".
Proof. split; intros; cbn in *; try done. by unfold id in *; simplify_option_eq. Qed.

Definition fresh : Manager Files := mkManager false [] ∅.
Definition turn_on (c : Config) : Config := c <| cfg_KillSwitch := true |>.

Lemma config_file_is_a_cell_witness :
  (manager_run "settings" "vault" [] true [OpLoad; OpSaveWith turn_on; OpLoad] fresh).1 =
    [Ok (Some (newConfig "machine")); Ok None; Ok (Some (turn_on (newConfig "machine")))] /\
  fm_published (manager_run "settings" "vault" [] true [OpLoad; OpSaveWith turn_on; OpLoad] fresh).2 =
    [turn_on (newConfig "machine")].
Proof.
  destruct (config_file_is_a_cell (E := Files) (contents := id) (id := "machine") "settings" "vault" [] true
    ltac:(discriminate) [OpLoad; OpSaveWith turn_on; OpLoad] fresh (None, [])) as [H1 H2].
  - split; [done|]. split; [done|]. right. by left.
  - repeat apply Forall_cons_2; try done. intros c Hc. exact Hc.
  - split; [exact H1|]. exact (proj1 H2).
Defined.

Lemma generated_key_printable_witness :
  length (replicate 32 "!"%char) = 32%nat /\
  Forall (fun c => 33 <= Z.of_N (N_of_ascii c) <= 125) (replicate 32 "!"%char).
Proof. apply (generated_key_printable (E := Files) (contents := id) fresh fresh). vm_compute. reflexivity. Defined.

(** A file too short to hold a nonce. *)
Definition broken : Manager Files := mkManager false [] (<["settings" := ["x"%char]]> ∅).

Lemma failed_load_keeps_file_witness :
  (SaveWith "settings" "vault" [] true turn_on broken).1 = Err (Errorf "invalid data") /\
  fm_published (SaveWith "settings" "vault" [] true turn_on broken).2 = [newConfig "machine"].
Proof.
  destruct (failed_load_keeps_file (E := Files) (contents := id) "settings" "vault" [] turn_on broken
    (load "settings" "vault" [] broken).2 ["x"%char] (newConfig "machine") (Errorf "invalid data"))
    as (H1 & _ & H3); [done|done|vm_compute; reflexivity|].
  split; [exact H1|]. rewrite H3. vm_compute. reflexivity.
Defined.

Definition old_file : json :=
  JObject [("users_data"%string, JObject [("notify"%string, JArray [JNum 1000])])].

Lemma notify_translation_is_dead_witness :
  translate_notify (mkUsersData {[1000 := true]} ∅ ∅) = mkUsersData {[1000 := true]} ∅ ∅.
Proof. apply (notify_translation_is_dead old_file "machine"). vm_compute. reflexivity. Defined.
End Memory.
