(* ===== verification/Servers.v ===== *)
(** * Servers: choosing a VPN server

    Models the server data and its predicates ([core/models.go]), the text helpers
    they use ([internal/string.go], [nstrings]) and the choice of a server by tag,
    group and settings ([daemon/servers.go]).  The API, the random numbers and the
    cached server list are the parameter [ServersEnv].  Floating point fields
    (coordinates, distances, penalties) are only passed on to the API and left
    out. *)

From stdpp Require Import base option list strings gmap.
From Stdlib Require Import ZArith SpecFloat Ascii Lia.
From S2P Require Import Prelude GoLib Config.
Set Warnings "-clear-no-such-hyp".

Open Scope Z_scope.
Open Scope go_scope.

(** ** Text helpers *)

(** The characters [0-9a-zA-Z \-_]. *)
Definition alphanumeric (c : ascii) : bool :=
  let n := nat_of_ascii c in
  ((48 <=? n)%nat && (n <=? 57)%nat) || ((97 <=? n)%nat && (n <=? 122)%nat) ||
  ((65 <=? n)%nat && (n <=? 90)%nat) ||
  Ascii.eqb c " " || Ascii.eqb c "-" || Ascii.eqb c "_".

Fixpoint RemoveNonAlphanumeric (s : string) : string :=
  match s with
  | EmptyString => EmptyString
  | String c s' => if alphanumeric c then String c (RemoveNonAlphanumeric s') else RemoveNonAlphanumeric s'
  end.

(** [strings.TrimRight(s, "_")]. *)
Fixpoint trim_underscores (s : string) : string :=
  match s with
  | EmptyString => EmptyString
  | String c s' =>
      match trim_underscores s' with
      | EmptyString => if Ascii.eqb c "_" then EmptyString else String c EmptyString
      | t => String c t
      end
  end.

Definition SnakeCase (name : string) : string :=
  trim_underscores
    (foldr (fun v acc => if bool_decide (v = "") then acc else str_lower v +:+ "_" +:+ acc) ""
       (split_char " " (RemoveNonAlphanumeric name))).

Definition BoolFromString (arg : string) : option bool :=
  let arg := str_lower arg in
  if bool_decide (arg ∈ ["0"; "false"; "disable"; "disabled"; "off"]) then Some false
  else if bool_decide (arg ∈ ["1"; "true"; "enable"; "enabled"; "on"]) then Some true
  else None.

Definition is_lower (c : ascii) : bool := let n := nat_of_ascii c in (97 <=? n)%nat && (n <=? 122)%nat.

Fixpoint digits_between (lo hi : nat) (s : string) : bool :=
  match s, hi with
  | EmptyString, _ => (lo =? 0)%nat
  | String c s', S hi' => digit_char c && digits_between (lo - 1) hi' s'
  | String _ _, O => false
  end.

(** The pattern [^[a-z]{2}[0-9]{2,4}$]. *)
Definition tag_matches (s : string) : bool :=
  match s with
  | String a (String b rest) => is_lower a && is_lower b && digits_between 2 4 rest
  | _ => false
  end.

(** ** [core/models.go] *)

Inductive ServerTechnology : Type :=
| UnknownTech | OpenVPNUDP | OpenVPNTCP | Socks5 | HTTPProxy | PPTP | L2TP | OpenVPNUDPObfuscated
| OpenVPNTCPObfuscated | WireguardTech.
#[export] Instance ServerTechnology_eq_dec : EqDecision ServerTechnology.
Proof. solve_decision. Defined.

Inductive ServerBy : Type := ServerByUnknown | ServerBySpeed | ServerByCountry | ServerByCity | ServerByName.
#[export] Instance ServerBy_eq_dec : EqDecision ServerBy.
Proof. solve_decision. Defined.

Record ServerTag : Type := mkServerTag { st_Action : ServerBy; st_ID : Z }.
Definition zero_tag : ServerTag := mkServerTag ServerByUnknown 0.

(** [config.ServerGroup]. *)
Definition ServerGroup : Type := Z.
Definition UNDEFINED : ServerGroup := 0.
Definition DoubleVPN : ServerGroup := 1.
Definition ONION_OVER_VPN : ServerGroup := 3.
Definition DEDICATED_IP : ServerGroup := 9.
Definition STANDARD_VPN_SERVERS : ServerGroup := 11.
Definition P2P : ServerGroup := 15.
Definition OBFUSCATED : ServerGroup := 17.
Definition EUROPE : ServerGroup := 19.
Definition THE_AMERICAS : ServerGroup := 21.
Definition ASIA_PACIFIC : ServerGroup := 23.
Definition AFRICA_MIDDLE_EAST_INDIA : ServerGroup := 25.

Definition GroupMap : list (string * ServerGroup) :=
  [("double_vpn", DoubleVPN); ("onion_over_vpn", ONION_OVER_VPN); ("dedicated_ip", DEDICATED_IP);
   ("standard_vpn_servers", STANDARD_VPN_SERVERS); ("p2p", P2P); ("europe", EUROPE);
   ("the_americas", THE_AMERICAS); ("asia_pacific", ASIA_PACIFIC);
   ("africa_the_middle_east_and_india", AFRICA_MIDDLE_EAST_INDIA); ("obfuscated_servers", OBFUSCATED)].

Record ServersFilter : Type := mkServersFilter {
  flt_Limit : Z;
  flt_Tech : ServerTechnology;
  flt_Group : ServerGroup;
  flt_Tag : ServerTag
}.

(** A [float64]. *)
Definition float64 : Type := spec_float.

Record City : Type := mkCity {
  city_ID : Z;
  city_Name : string;
  city_Latitude : float64;
  city_Longitude : float64;
  city_HubScore : option float64
}.
Definition zero_float : float64 := S754_zero false.

Record Country : Type := mkCountry {
  co_ID : Z;
  co_Name : string;
  co_Code : string;
  co_City : City;
  co_Cities : list City
}.
Record Group : Type := mkGroup { gr_ID : ServerGroup; gr_Title : string }.
Record Specification : Type := mkSpecification { sp_Identifier : string; sp_Values : list string }.
Record TechnologyEntry : Type := mkTechnologyEntry { te_ID : ServerTechnology; te_Status : string }.

Record Server : Type := mkServer {
  srv_ID : Z;
  srv_Name : string;
  srv_Station : string;
  srv_Hostname : string;
  srv_Load : Z;
  srv_Status : string;
  srv_Locations : list Country;
  srv_Technologies : list TechnologyEntry;
  srv_Groups : list Group;
  srv_Specifications : list Specification;
  srv_Timestamp : Z;
  srv_NordLynxPublicKey : string;
  srv_Keys : list string;
  srv_IPRecords : list string;
  srv_CreatedAt : string;
  srv_UpdatedAt : string;
  srv_Distance : float64;
  srv_Penalty : float64;
  srv_PartialPenalty : float64
}.
#[export] Instance Server_eta : EtaExpand Server := fun s =>
  mkServer (srv_ID s) (srv_Name s) (srv_Station s) (srv_Hostname s) (srv_Load s) (srv_Status s)
    (srv_Locations s) (srv_Technologies s) (srv_Groups s) (srv_Specifications s) (srv_Timestamp s)
    (srv_NordLynxPublicKey s) (srv_Keys s) (srv_IPRecords s) (srv_CreatedAt s) (srv_UpdatedAt s) (srv_Distance s) (srv_Penalty s)
    (srv_PartialPenalty s).

Definition Online : string := "online".

Definition IsOnline (s : Server) : bool := bool_decide (srv_Status s = Online).

(** The first technology entry that is the wanted one and online decides. *)
Definition IsConnectableVia (tech : ServerTechnology) (s : Server) : bool :=
  existsb (fun t => bool_decide (te_ID t = tech) && bool_decide (te_Status t = Online)) (srv_Technologies s) &&
  IsOnline s.

Definition IsObfuscated (s : Server) : bool :=
  IsConnectableVia OpenVPNUDPObfuscated s && IsConnectableVia OpenVPNTCPObfuscated s.

Definition Protocol_UNKNOWN : Z := 0.
Definition Protocol_UDP : Z := 1.
Definition Protocol_TCP : Z := 2.

Definition IsConnectableWithProtocol (tech : Technology) (proto : Z) (s : Server) : bool :=
  match tech with
  | NORDLYNX => IsConnectableVia WireguardTech s
  | OPENVPN =>
      if proto =? Protocol_UDP then IsConnectableVia OpenVPNUDP s || IsConnectableVia OpenVPNUDPObfuscated s
      else if proto =? Protocol_TCP then IsConnectableVia OpenVPNTCP s || IsConnectableVia OpenVPNTCPObfuscated s
      else false
  | UNKNOWN_TECHNOLOGY => false
  end.

Fixpoint specification_values (specs : list Specification) (identifier : string) : list string :=
  match specs with
  | [] => []
  | spec :: specs' =>
      if bool_decide (sp_Identifier spec = identifier) then sp_Values spec
      else specification_values specs' identifier
  end.
Definition getSpecificationsForIdentifier (s : Server) (identifier : string) : list string :=
  specification_values (srv_Specifications s) identifier.

Definition Version (s : Server) : string := default "" (head (getSpecificationsForIdentifier s "version")).

Definition IsVirtualLocation (s : Server) : bool :=
  match getSpecificationsForIdentifier s "virtual_location" with
  | [] => false
  | v :: _ => default false (BoolFromString v)
  end.

Definition IPv4 (s : Server) : option Addr := ParseAddr (srv_Station s).

Definition IPs (s : Server) : list Addr :=
  match omap ParseAddr (srv_IPRecords s) with
  | [] => option_list (IPv4 s)
  | ips => ips
  end.

Definition SupportsIPv6 (s : Server) : bool := existsb addr_Is6 (IPs s).

Definition ByGroup (g : ServerGroup) (x : Group) : bool := gr_ID x =? g.

(** The name of a server: the first label of its host name. *)
Definition server_name (s : Server) : string := default "" (head (split_char "." (srv_Hostname s))).

Inductive ServerObfuscationStatus : Type := ServerObfuscated | ServerNotObfuscated | NotAServerName.

Definition IsServerObfuscated (servers : list Server) (serverTag : string) : ServerObfuscationStatus :=
  match find (fun s => bool_decide (server_name s = serverTag)) servers with
  | None => NotAServerName
  | Some s => if IsObfuscated s then ServerObfuscated else ServerNotObfuscated
  end.

(** ** [daemon/servers.go] *)

Definition ErrDedicatedIPServer : string := "selected dedicated IP servers group".
Definition ErrServerIsUnavailable : string :=
  "The specified server is not available at the moment or does not support your connection settings.".
Definition ErrTagDoesNotExist : string := "The specified server does not exist.".
Definition ErrGroupDoesNotExist : string := "The specified group does not exist.".
Definition ErrDoubleGroup : string := "You cannot connect to a group and set the group option at the same time.".
Definition ErrVirtualServerSelected : string := "Please enable virtual location access to connect to this server.".

Definition isDedicatedIP (s : Server) : bool := existsb (fun g => gr_ID g =? DEDICATED_IP) (srv_Groups s).

Definition groupConvert (group : string) : ServerGroup :=
  match find (fun kv => bool_decide (kv.1 = SnakeCase group)) GroupMap with
  | Some kv => kv.2
  | None => UNDEFINED
  end.

Definition resolveServerGroup (flag tag : string) : result ServerGroup :=
  let tagServerGroup := groupConvert tag in
  let flagServerGroup := groupConvert flag in
  if negb (tagServerGroup =? UNDEFINED) && negb (flagServerGroup =? UNDEFINED) then Err (Sentinel ErrDoubleGroup)
  else if negb (bool_decide (flag = "")) then
    if flagServerGroup =? UNDEFINED then Err (Sentinel ErrGroupDoesNotExist) else Ok flagServerGroup
  else Ok tagServerGroup.

Definition techToServerTech (tech : Technology) (protocol : Z) (obfuscated : bool) : ServerTechnology :=
  match tech with
  | NORDLYNX => WireguardTech
  | OPENVPN =>
      if protocol =? Protocol_TCP then if obfuscated then OpenVPNTCPObfuscated else OpenVPNTCP
      else if protocol =? Protocol_UDP then if obfuscated then OpenVPNUDPObfuscated else OpenVPNUDP
      else UnknownTech
  | UNKNOWN_TECHNOLOGY => UnknownTech
  end.

Definition selectFilter (tag : string) (group : ServerGroup) (obfuscated : bool) (s : Server) : bool :=
  let in_group g := existsb (ByGroup g) (srv_Groups s) in
  let has_key := bool_decide (tag ∈ srv_Keys s) in
  if negb (bool_decide (tag = "")) && negb (group =? UNDEFINED) then in_group group && has_key
  else if negb (group =? UNDEFINED) then in_group group
  else if negb (bool_decide (tag = "")) then has_key
  else in_group (if obfuscated then OBFUSCATED else STANDARD_VPN_SERVERS).

Definition canConnect (tech : Technology) (protocol : Z) (serverTag : string) (group : ServerGroup)
    (obfuscated : bool) (s : Server) : bool :=
  IsConnectableWithProtocol tech protocol s && Bool.eqb (IsObfuscated s) obfuscated &&
  selectFilter serverTag group obfuscated s.

Definition filterServers (servers : list Server) (tech : Technology) (protocol : Z) (serverTag : string)
    (group : ServerGroup) (obfuscated : bool) : result (list Server) :=
  match filter (fun s => canConnect tech protocol serverTag group obfuscated s = true) servers with
  | [] => Err (Sentinel ErrServerIsUnavailable)
  | ret => Ok ret
  end.

(** The index of the country, and of the city when the name is a city. *)
Definition city_matches (name countryName countryCode : string) (city : City) : bool :=
  let cityName := SnakeCase (city_Name city) in
  equal_fold name cityName || equal_fold name (countryName +:+ " " +:+ cityName) ||
  equal_fold name (countryCode +:+ " " +:+ cityName).

Fixpoint location_from (i : nat) (name : string) (countries : list Country) : option (nat * option nat) :=
  match countries with
  | [] => None
  | country :: countries' =>
      let countryName := SnakeCase (co_Name country) in
      let countryCode := SnakeCase (co_Code country) in
      if equal_fold name countryName || equal_fold name countryCode then Some (i, None)
      else
        match index_func (city_matches name countryName countryCode) (co_Cities country) with
        | Some cityIndex => Some (i, Some cityIndex)
        | None => location_from (S i) name countries'
        end
  end.
Definition locationByName (name : string) (countries : list Country) : option (nat * option nat) :=
  location_from 0 name countries.

Definition serverLocationTagFromString (serverTag : string) (countries : list Country) : option ServerTag :=
  '(ci, cityIndex) ← locationByName serverTag countries;
  country ← countries !! ci;
  match cityIndex with
  | None => Some (mkServerTag ServerByCountry (co_ID country))
  | Some i => city ← co_Cities country !! i; Some (mkServerTag ServerByCity (city_ID city))
  end.

Record ServerParameters : Type := mkServerParameters {
  spa_Country : string;
  spa_City : string;
  spa_Group : ServerGroup
}.

Definition GetServerParameters (serverTag groupTag : string) (countries : list Country) : ServerParameters :=
  let group := groupConvert groupTag in
  match locationByName serverTag countries with
  | None => mkServerParameters "" "" group
  | Some (ci, cityIndex) =>
      match countries !! ci with
      | None => mkServerParameters "" "" group
      | Some country =>
          match cityIndex ≫= fun i => co_Cities country !! i with
          | None => mkServerParameters (co_Name country) "" group
          | Some city => mkServerParameters (co_Name country) (city_Name city) group
          end
      end
  end.

Class ServersEnv (E : Type) : Type := {
  api_Server : Z -> M E Server;
  api_RecommendedServers : ServersFilter -> M E (list Server);
  api_ServersCountries : M E (list Country);
  (** [rand.Intn] for a positive bound *)
  rand_Intn : nat -> E -> nat * E
}.

(** A Go call that may panic. *)
Inductive outcome (A : Type) : Type := Returned (a : A) | Panicked (msg : string).
Arguments Returned {A} a.
Arguments Panicked {A} msg.

Section Pick.
Context {E : Type} `{ServersEnv E}.

Definition rand_element {A} (l : list A) : M E (outcome A) := fun e =>
  match l with
  | [] => (Ok (Panicked "invalid argument to Intn"), e)
  | x :: _ =>
      let '(i, e') := rand_Intn (length l) e in (Ok (Returned (default x (l !! i))), e')
  end.

Definition getSpecificServerRemote (tech : Technology) (protocol : Z) (obfuscated : bool)
    (serverTag : ServerTag) : M E (list Server) :=
  let! server := api_Server (st_ID serverTag) in
  if IsConnectableWithProtocol tech protocol server && Bool.eqb (IsObfuscated server) obfuscated
  then ret [server] else throw (Sentinel ErrServerIsUnavailable).

Definition getServersRemote (tech : Technology) (protocol : Z) (obfuscated : bool) (tag : ServerTag)
    (group : ServerGroup) (count : Z) : M E (list Server) :=
  let serverTech := techToServerTech tech protocol obfuscated in
  if bool_decide (serverTech = UnknownTech) then throw (Errorf "unknown technology")
  else
    let limit := if count =? 1 then 20 else count in
    let group := if (group =? UNDEFINED) && obfuscated then OBFUSCATED else group in
    let! servers := api_RecommendedServers (mkServersFilter limit serverTech group tag) in
    match servers with
    | [] => throw (Errorf "recommended: empty list")
    | _ => ret servers
    end.

Definition serverTagFromString (countries : list Country) (serverTag : string) (group : ServerGroup)
    (servers : list Server) (isGroupFlagSet : bool) : M E ServerTag :=
  if bool_decide (serverTag = "") then ret zero_tag
  else if negb (group =? UNDEFINED) && negb isGroupFlagSet then ret (mkServerTag ServerBySpeed group)
  else
    let serverTag := if equal_fold serverTag "uk" then "gb" else serverTag in
    let! countries := (match countries with [] => api_ServersCountries | _ => ret countries end) in
    match serverLocationTagFromString serverTag countries with
    | Some locationTag => ret locationTag
    | None =>
        match find (fun s => equal_fold serverTag (server_name s)) servers with
        | Some server => ret (mkServerTag ServerByName (srv_ID server))
        | None =>
            if negb (tag_matches serverTag) then throw (Sentinel ErrTagDoesNotExist)
            else throw (Errorf "could not determine server tag")
        end
    end.

(** The servers from the API for a known tag. *)
Definition remote_servers (tech : Technology) (protocol : Z) (obfuscated : bool) (serverTag : ServerTag)
    (group : ServerGroup) (count : Z) : M E (list Server) :=
  if bool_decide (st_Action serverTag = ServerByName)
  then getSpecificServerRemote tech protocol obfuscated serverTag
  else getServersRemote tech protocol obfuscated serverTag group count.

(** The cached servers, without those of dedicated IPs when there is a choice. *)
Definition local_servers (servers : list Server) (tech : Technology) (protocol : Z) (tag : string)
    (group : ServerGroup) (obfuscated by_name : bool) : result (list Server) :=
  match filterServers servers tech protocol tag group obfuscated with
  | Err e => Err e
  | Ok l =>
      Ok (if negb by_name && (1 <? length l)%nat
          then filter (fun s => isDedicatedIP s = false) l else l)
  end.

(** The servers from the API, or from the cached list when that fails, and
    whether they are from the API.  An unknown tag ends the search. *)
Definition candidate_servers (countries : list Country) (servers : list Server) (tech : Technology)
    (protocol : Z) (obfuscated : bool) (tag groupFlag : string) (serverGroup : ServerGroup) (count : Z) :
    M E (list Server * bool) :=
  let! t := attempt (serverTagFromString countries tag serverGroup servers
                       (negb (bool_decide (groupFlag = "")))) in
  let local serverTag :=
    match local_servers servers tech protocol tag serverGroup obfuscated
            (bool_decide (st_Action serverTag = ServerByName)) with
    | Ok l => ret (l, false)
    | Err e => throw e
    end in
  match t with
  | Err e => if errors_Is e ErrTagDoesNotExist then throw e else local zero_tag
  | Ok serverTag =>
      let! r := attempt (remote_servers tech protocol obfuscated serverTag serverGroup count) in
      match r with
      | Ok l => ret (l, true)
      | Err _ => local serverTag
      end
  end.

Definition drop_virtual (allowVirtualServer : bool) (l : list Server) : result (list Server) :=
  if negb allowVirtualServer && (0 <? length l)%nat then
    match filter (fun s => IsVirtualLocation s = false) l with
    | [] => Err (Sentinel ErrVirtualServerSelected)
    | l' => Ok l'
    end
  else Ok l.

Definition keep_one (count : Z) (l : list Server) : M E (list Server) :=
  if (count =? 1) && (0 <? length l)%nat then
    let! x := rand_element l in
    ret (match x with Returned s => [s] | Panicked _ => [] end)
  else ret l.

Definition getServers (countries : list Country) (servers : list Server) (tech : Technology) (protocol : Z)
    (obfuscated : bool) (tag groupFlag : string) (count : Z) (allowVirtualServer : bool) :
    M E (list Server * bool) :=
  match resolveServerGroup groupFlag tag with
  | Err e => throw e
  | Ok serverGroup =>
      if serverGroup =? DEDICATED_IP then throw (Sentinel ErrDedicatedIPServer)
      else
        let! found := candidate_servers countries servers tech protocol obfuscated tag groupFlag
                        serverGroup count in
        match drop_virtual allowVirtualServer found.1 with
        | Err e => throw e
        | Ok l => let! l := keep_one count l in ret (l, found.2)
        end
  end.

Definition PickServer (countries : list Country) (servers : list Server) (tech : Technology) (protocol : Z)
    (obfuscated : bool) (tag groupFlag : string) (allowVirtualServer : bool) : M E (outcome (Server * bool)) :=
  let! r := getServers countries servers tech protocol obfuscated tag groupFlag 1 allowVirtualServer in
  let! x := rand_element r.1 in
  ret (match x with Returned s => Returned (s, r.2) | Panicked m => Panicked m end).
End Pick.
