(* ===== verification/ServersProps.v ===== *)
(** * ServersProps: what the choice of a server guarantees

    Theorems about [PickServer] of file Servers: the server returned meets the
    request, whether it came from the API or from the cached list, and the exact
    condition under which the call panics. *)

From stdpp Require Import base option list strings gmap.
From Stdlib Require Import ZArith Ascii Lia.
From S2P Require Import Prelude GoLib Config Servers.
Set Warnings "-clear-no-such-hyp".

Open Scope Z_scope.
Open Scope go_scope.

(** ** What is asked for

    The request of the user and what the API is asked, stated without the functions
    of the program; [s] is a server. *)

Definition offers (technology : ServerTechnology) (s : Server) : Prop :=
  srv_Status s = "online" /\
  exists entry, entry ∈ srv_Technologies s /\ te_ID entry = technology /\ te_Status entry = "online".

(** The server can be used with the technology and the protocol: UDP is 1, TCP 2. *)
Definition connectable (tech : Technology) (protocol : Z) (s : Server) : Prop :=
  match tech with
  | NORDLYNX => offers WireguardTech s
  | OPENVPN => protocol = 1 /\ (offers OpenVPNUDP s \/ offers OpenVPNUDPObfuscated s) \/
               protocol = 2 /\ (offers OpenVPNTCP s \/ offers OpenVPNTCPObfuscated s)
  | UNKNOWN_TECHNOLOGY => False
  end.

Definition obfuscates (s : Server) : Prop := offers OpenVPNUDPObfuscated s /\ offers OpenVPNTCPObfuscated s.






(** Texts that differ in case only. *)
Definition same_text (a b : string) : Prop := str_lower a = str_lower b.

(** The place a text names: a country by its name or code, or a city by its name, with
    or without its country. *)
Inductive place_named (countries : list Country) (text : string) : ServerTag -> Prop :=
| names_country country :
    country ∈ countries ->
    same_text text (SnakeCase (co_Name country)) \/ same_text text (SnakeCase (co_Code country)) ->
    place_named countries text (mkServerTag ServerByCountry (co_ID country))
| names_city country city :
    country ∈ countries -> city ∈ co_Cities country ->
    same_text text (SnakeCase (city_Name city)) \/
    same_text text (SnakeCase (co_Name country) +:+ " " +:+ SnakeCase (city_Name city)) \/
    same_text text (SnakeCase (co_Code country) +:+ " " +:+ SnakeCase (city_Name city)) ->
    place_named countries text (mkServerTag ServerByCity (city_ID city)).

(** The text is the first label of the name of the host. *)
Definition names_host (text : string) (s : Server) : Prop :=
  exists label rest, same_text text label /\ no_char "." label /\
    (srv_Hostname s = label \/ srv_Hostname s = label +:+ "." +:+ rest).

(** The United Kingdom is GB in the list of countries. *)
Definition place_text (tag : string) : string := if bool_decide (str_lower tag = "uk") then "gb" else tag.

(** The technology the API is asked for. *)
Inductive api_technology : Technology -> Z -> bool -> ServerTechnology -> Prop :=
| ask_nordlynx protocol obfuscated : api_technology NORDLYNX protocol obfuscated WireguardTech
| ask_udp : api_technology OPENVPN 1 false OpenVPNUDP
| ask_udp_obfuscated : api_technology OPENVPN 1 true OpenVPNUDPObfuscated
| ask_tcp : api_technology OPENVPN 2 false OpenVPNTCP
| ask_tcp_obfuscated : api_technology OPENVPN 2 true OpenVPNTCPObfuscated.

Section Asked.
Context {E : Type} `{ServersEnv E}.

(** The countries the tag is looked up in, and the state of the world afterwards: those
    that are given, or those of the API when none are. *)
Inductive known_countries (countries : list Country) (e : E) : list Country -> E -> Prop :=
| countries_given : countries <> [] -> known_countries countries e countries e
| countries_fetched answer e1 :
    countries = [] -> api_ServersCountries e = (Ok answer, e1) -> known_countries countries e answer e1.

(** The place the API is asked for: none without a tag, the group that the tag names, or
    the country or city it names. *)
Inductive asked_place (countries : list Country) (tag flag : string) (group : ServerGroup) (e : E) : ServerTag -> E -> Prop :=
| ask_anywhere : tag = "" -> asked_place countries tag flag group e (mkServerTag ServerByUnknown 0) e
| ask_group : tag <> "" -> flag = "" -> group <> 0 ->
    asked_place countries tag flag group e (mkServerTag ServerBySpeed group) e
| ask_place known e1 place : tag <> "" -> group = 0 \/ flag <> "" ->
    known_countries countries e known e1 -> place_named known (place_text tag) place ->
    asked_place countries tag flag group e place e1.

(** The server the API answered with: one of those it recommends for the technology,
    the group (number 17 for obfuscation without a group) and the place; or the server
    whose name the tag is, which then meets the settings. *)
Inductive answered (countries : list Country) (servers : list Server) (tech : Technology) (protocol : Z)
    (obfuscated : bool) (tag flag : string) (group : ServerGroup) (e : E) (s : Server) : Prop :=
| answered_recommended technology place e1 answer e2 :
    api_technology tech protocol obfuscated technology ->
    asked_place countries tag flag group e place e1 ->
    api_RecommendedServers
      (mkServersFilter 20 technology (if (group =? 0) && obfuscated then 17 else group) place) e1 = (Ok answer, e2) ->
    s ∈ answer ->
    answered countries servers tech protocol obfuscated tag flag group e s
| answered_by_name cached known e1 e2 :
    tag <> "" -> group = 0 \/ flag <> "" -> known_countries countries e known e1 ->
    cached ∈ servers -> names_host (place_text tag) cached ->
    api_Server (srv_ID cached) e1 = (Ok s, e2) ->
    connectable tech protocol s -> (obfuscates s <-> obfuscated = true) ->
    answered countries servers tech protocol obfuscated tag flag group e s.
End Asked.

(** *** The functions of the program decide it *)

Lemma via_offers technology s : IsConnectableVia technology s = true <-> offers technology s.
Proof.
  unfold IsConnectableVia, IsOnline, offers. rewrite andb_true_iff, existsb_exists, bool_decide_eq_true.
  change Online with "online". split.
  - intros [(t & Ht%list_elem_of_In & [?%bool_decide_eq_true ?%bool_decide_eq_true]%andb_true_iff) ?]. eauto 6.
  - intros (? & t & Ht & Hi & Hs). split; [|done]. exists t. rewrite <- list_elem_of_In.
    split; [done|]. by rewrite andb_true_iff, !bool_decide_eq_true.
Qed.

Lemma obfuscated_obfuscates s : IsObfuscated s = true <-> obfuscates s.
Proof. unfold IsObfuscated, obfuscates. by rewrite andb_true_iff, !via_offers. Qed.

Lemma obfuscation_as_asked s b : IsObfuscated s = b -> (obfuscates s <-> b = true).
Proof. intros <-. by rewrite obfuscated_obfuscates. Qed.

Lemma protocol_connectable tech protocol s : IsConnectableWithProtocol tech protocol s = true -> connectable tech protocol s.
Proof.
  unfold IsConnectableWithProtocol, connectable. destruct tech; [done| |by rewrite via_offers].
  change Protocol_UDP with 1. change Protocol_TCP with 2.
  destruct (Z.eqb_spec protocol 1); [|destruct (Z.eqb_spec protocol 2); [|done]];
    rewrite orb_true_iff, !via_offers; auto.
Qed.







Lemma tech_asked tech protocol obfuscated :
  techToServerTech tech protocol obfuscated <> UnknownTech ->
  api_technology tech protocol obfuscated (techToServerTech tech protocol obfuscated).
Proof.
  unfold techToServerTech. destruct tech; [done| |constructor].
  change Protocol_UDP with 1. change Protocol_TCP with 2.
  destruct (Z.eqb_spec protocol 2) as [->|]; [destruct obfuscated; constructor|].
  destruct (Z.eqb_spec protocol 1) as [->|]; [destruct obfuscated; constructor|done].
Qed.

Lemma place_located text countries place :
  serverLocationTagFromString text countries = Some place -> place_named countries text place.
Proof.
  unfold serverLocationTagFromString, locationByName.
  enough (Hg : forall before rest,
    ('(ci, cityIndex) ← location_from (length before) text rest;
     country ← (before ++ rest) !! ci;
     match cityIndex with
     | None => Some (mkServerTag ServerByCountry (co_ID country))
     | Some i => city ← co_Cities country !! i; Some (mkServerTag ServerByCity (city_ID city))
     end) = Some place -> place_named (before ++ rest) text place) by exact (Hg [] countries).
  intros before rest. revert before. induction rest as [|country rest IH]; intros before; cbn [location_from]; [done|].
  assert (Hc : (before ++ country :: rest) !! length before = Some country)
    by (rewrite lookup_app_r, Nat.sub_diag by done; done).
  assert (Hin : country ∈ before ++ country :: rest) by (by eapply list_elem_of_lookup_2).
  unfold equal_fold at 1 2. destruct (_ || _) eqn:Hn.
  - cbn. rewrite Hc. cbn. intros [= <-]. constructor; [done|].
    by rewrite orb_true_iff, !bool_decide_eq_true in Hn.
  - destruct (index_func _ _) as [i|] eqn:Hi.
    + cbn. rewrite Hc. cbn. intros (city & Hcity & [= <-])%bind_Some.
      econstructor; [done|by eapply list_elem_of_lookup_2|].
      assert (Hm : city_matches text (SnakeCase (co_Name country)) (SnakeCase (co_Code country)) city = true).
      { revert i Hi Hcity. clear. induction (co_Cities country) as [|x l IH]; intros i; cbn [index_func]; [done|].
        destruct (city_matches _ _ _ x) eqn:Hx; [by intros [= <-] [= <-]|].
        intros (j & Hj & ->)%fmap_Some. by apply IH. }
      unfold city_matches, equal_fold in Hm. rewrite !orb_true_iff, !bool_decide_eq_true in Hm. tauto.
    + specialize (IH (before ++ [country])). rewrite length_app, Nat.add_comm, <- (assoc_L (++)) in IH. exact IH.
Qed.

Lemma host_label text s : equal_fold text (server_name s) = true -> names_host text s.
Proof.
  unfold equal_fold, server_name. rewrite bool_decide_eq_true. intros Ht.
  exists (default "" (head (split_char "." (srv_Hostname s)))). revert Ht. generalize (srv_Hostname s) as h. intros h Ht.
  assert (Hs : exists rest, no_char "." (default "" (head (split_char "." h))) /\
    (h = default "" (head (split_char "." h)) \/ h = default "" (head (split_char "." h)) +:+ "." +:+ rest)).
  { clear Ht. induction h as [|c h IH]; [exists ""; by split; [|left]|]. cbn [split_char].
    destruct (Ascii.eqb_spec c ".") as [->|Hc]; [exists h; by split; [|right]|]. destruct IH as (rest & Hn & Hr).
    exists rest. destruct (split_char "." h) as [|x l]; cbn in *; (split; [by split|]).
    - destruct Hr as [->|Hr]; [by left|]. right. by rewrite Hr at 1.
    - destruct Hr as [Hr|Hr]; [left; by rewrite Hr at 1|right; by rewrite Hr at 1]. }
  destruct Hs as (rest & Hn & Hr). exists rest. by split_and!.
Qed.

Section Picking.
Context {E : Type} `{ServersEnv E}.
Context (countries : list Country) (servers : list Server) (tech : Technology) (protocol : Z).
Context (obfuscated : bool) (tag flag : string) (virtual : bool).
#[local] Abbreviation matching := (canConnect tech protocol tag).

Lemma rand_element_in {A} (l : list A) (e e' : E) a :
  rand_element l e = (Ok (Returned a), e') -> a ∈ l.
Proof.
  unfold rand_element. destruct l as [|x l]; [done|].
  destruct (rand_Intn _ e) as [i e1]. intros [= <- <-].
  destruct ((x :: l) !! i) eqn:Hi; cbn [default]; [by eapply list_elem_of_lookup_2|left].
Qed.

Lemma rand_element_nonempty {A} (l : list A) (e : E) :
  l <> [] -> exists a e', rand_element l e = (Ok (Returned a), e').
Proof. destruct l as [|x l]; [done|]. cbn. destruct (rand_Intn _ e). eauto. Qed.



(** The dedicated servers are dropped from two or more matches; nothing is left
    exactly when all of them are dedicated. *)
Lemma local_servers_empty group by_name :
  local_servers servers tech protocol tag group obfuscated by_name = Ok [] <->
  by_name = false /\
  (2 <= length (filter (fun s => matching group obfuscated s = true) servers))%nat /\
  Forall (fun s => isDedicatedIP s = true) (filter (fun s => matching group obfuscated s = true) servers).
Proof.
  unfold local_servers, filterServers.
  destruct (filter (fun s => matching group obfuscated s = true) servers) as [|x l] eqn:Hl.
  { split; [done|]. cbn. lia. }
  clear Hl. set (m := x :: l).
  destruct (negb by_name && (1 <? length m)%nat) eqn:Hb.
  - apply andb_true_iff in Hb as [Hn Hm%Nat.ltb_lt]. apply negb_true_iff in Hn. subst by_name.
    split.
    + intros [= He]. repeat split; [lia|]. apply Forall_forall. intros s Hs.
      destruct (isDedicatedIP s) eqn:Hd; [done|].
      assert (Hin : s ∈ filter (fun s => isDedicatedIP s = false) m) by (by apply list_elem_of_filter).
      rewrite He in Hin. by apply not_elem_of_nil in Hin.
    + intros (_ & _ & Hall). f_equal. apply elem_of_nil_inv. intros s [Hd Hs]%list_elem_of_filter.
      rewrite Forall_forall in Hall. by rewrite (Hall s Hs) in Hd.
  - split; [by intros [=]|]. intros (-> & Hlen & _). cbn [negb andb] in Hb.
    apply Nat.ltb_ge in Hb. lia.
Qed.

Lemma countries_known (e : E) known e1 :
  (match countries with [] => api_ServersCountries | _ => ret countries end) e = (Ok known, e1) ->
  known_countries countries e known e1.
Proof.
  destruct countries as [|c l]; [by apply countries_fetched|]. intros [= <- <-]. by apply countries_given.
Qed.

(** The tag of a request: a place, or the name of a cached server. *)
Lemma tag_asked group (e : E) t e1 :
  serverTagFromString countries tag group servers (negb (bool_decide (flag = ""))) e = (Ok t, e1) ->
  (st_Action t <> ServerByName -> asked_place countries tag flag group e t e1) /\
  (st_Action t = ServerByName -> tag <> "" /\ (group = 0 \/ flag <> "") /\
     exists known cached, known_countries countries e known e1 /\ cached ∈ servers /\
       names_host (place_text tag) cached /\ st_ID t = srv_ID cached).
Proof.
  unfold serverTagFromString. change UNDEFINED with 0. case_bool_decide as Ht.
  { intros [= <- <-]. split; [intros _; by apply ask_anywhere|done]. }
  destruct (negb (group =? 0) && negb (negb (bool_decide (flag = "")))) eqn:Hg.
  { apply andb_true_iff in Hg as [Hg%negb_true_iff%Z.eqb_neq Hf]. rewrite negb_involutive, bool_decide_eq_true in Hf.
    intros [= <- <-]. split; [intros _; by apply ask_group|done]. }
  assert (Hgf : group = 0 \/ flag <> "").
  { destruct (Z.eqb_spec group 0); [by left|]. right. intros ->. done. }
  fold (place_text tag). unfold bind.
  destruct (match countries with [] => api_ServersCountries | _ => ret countries end e) as [[known|] e2] eqn:Hk; [|done].
  apply countries_known in Hk.
  assert (He : (if equal_fold tag "uk" then "gb" else tag) = place_text tag) by done. rewrite He.
  destruct (serverLocationTagFromString (place_text tag) known) as [place|] eqn:Hp.
  { intros [= <- <-]. apply place_located in Hp. split; [intros _; by eapply ask_place|]. by destruct Hp. }
  destruct (find _ servers) as [cached|] eqn:Hf.
  - apply find_some in Hf as [Hin%list_elem_of_In Hh%host_label]. intros [= <- <-].
    split; [intros Hc; by destruct (Hc eq_refl)|]. intros _. split_and!; [done..|]. by exists known, cached.
  - by destruct (tag_matches _).
Qed.

(** A candidate from the API is what the API answered to the request. *)
Lemma remote_answered group (e e1 e2 : E) t l s :
  serverTagFromString countries tag group servers (negb (bool_decide (flag = ""))) e = (Ok t, e1) ->
  remote_servers tech protocol obfuscated t group 1 e1 = (Ok l, e2) -> s ∈ l ->
  answered countries servers tech protocol obfuscated tag flag group e s.
Proof.
  intros [Hp Hn]%tag_asked Hr Hs. unfold remote_servers in Hr. case_bool_decide as Ha.
  - destruct (Hn Ha) as (Ht & Hg & known & cached & Hk & Hin & Hh & Hid).
    unfold getSpecificServerRemote, bind in Hr. rewrite Hid in Hr.
    destruct (api_Server (srv_ID cached) e1) as [[srv|] e3] eqn:Hapi; [|done].
    destruct (_ && _) eqn:Hok; [|done]. injection Hr as <- _. apply list_elem_of_singleton in Hs as ->.
    apply andb_true_iff in Hok as [Hc%protocol_connectable Ho%eqb_prop%obfuscation_as_asked].
    by eapply answered_by_name.
  - unfold getServersRemote in Hr. cbv zeta in Hr. case_bool_decide as Htech; [done|].
    apply tech_asked in Htech. unfold bind in Hr.
    destruct (api_RecommendedServers _ e1) as [[answer|] e3] eqn:Hapi; [|done].
    assert (answer = l) as -> by by destruct answer; injection Hr.
    eapply answered_recommended; [exact Htech|by apply Hp|exact Hapi|done].
Qed.

(** How the candidates of a request were found. *)
Definition found (group : ServerGroup) (l : list Server) (remote : bool) : Prop :=
  if remote
  then exists t e1 e2, remote_servers tech protocol obfuscated t group 1 e1 = (Ok l, e2)
  else exists t, local_servers servers tech protocol tag group obfuscated
                   (bool_decide (st_Action t = ServerByName)) = Ok l.

Lemma candidates_found group e l remote e' :
  candidate_servers countries servers tech protocol obfuscated tag flag group 1 e = (Ok (l, remote), e') ->
  found group l remote /\
  (remote = true -> forall s, s ∈ l -> answered countries servers tech protocol obfuscated tag flag group e s).
Proof.
  unfold candidate_servers, bind, attempt.
  destruct (serverTagFromString _ _ _ _ _ e) as [[t|err] e1] eqn:Ht.
  - destruct (remote_servers _ _ _ t _ _ e1) as [[l1|err] e2] eqn:Hr.
    + intros [= <- <- _]. split; [by exists t, e1, e2|]. intros _ s Hs. by eapply remote_answered.
    + destruct local_servers eqn:Hl; [|done]. intros [= <- <- _]. split; [by exists t|done].
  - destruct errors_Is; [done|].
    destruct local_servers eqn:Hl; [|done]. intros [= <- <- _]. split; [by exists zero_tag|done].
Qed.

Lemma drop_virtual_spec l l' :
  drop_virtual virtual l = Ok l' ->
  (forall s, s ∈ l' -> s ∈ l /\ (virtual = true \/ IsVirtualLocation s = false)) /\ (l' = [] -> l = []).
Proof.
  unfold drop_virtual. destruct virtual; cbn [negb andb].
  { intros [= <-]. auto. }
  destruct (0 <? length l)%nat eqn:Hl.
  - destruct (filter _ l) as [|x m] eqn:Hf; [done|]. intros [= <-]. split; [|done].
    intros s Hs. rewrite <-Hf in Hs. apply list_elem_of_filter in Hs. tauto.
  - apply Nat.ltb_ge in Hl. destruct l; [|cbn in Hl; lia]. intros [= <-].
    split; [by intros s ?%not_elem_of_nil|done].
Qed.

Lemma keep_one_spec l (e e' : E) l' :
  keep_one 1 l e = (Ok l', e') -> (forall s, s ∈ l' -> s ∈ l) /\ (l' = [] -> l = []).
Proof.
  unfold keep_one, bind. destruct l as [|x l]; cbn [length Nat.ltb Nat.leb andb Z.eqb Pos.eqb].
  { intros [= <- _]. auto. }
  destruct (rand_element_nonempty (x :: l) e) as (a & e1 & Hr); [done|]. rewrite Hr.
  intros [= <- _]. split; [|done].
  intros s ->%list_elem_of_singleton. by eapply rand_element_in.
Qed.

(** A successful [getServers] chose from candidates [found] for the request. *)
Lemma getServers_spec e l remote e' :
  getServers countries servers tech protocol obfuscated tag flag 1 virtual e = (Ok (l, remote), e') ->
  exists group l0,
    resolveServerGroup flag tag = Ok group /\ group <> DEDICATED_IP /\ found group l0 remote /\
    (remote = true -> forall s, s ∈ l0 -> answered countries servers tech protocol obfuscated tag flag group e s) /\
    (forall s, s ∈ l -> s ∈ l0 /\ (virtual = true \/ IsVirtualLocation s = false)) /\
    (l = [] -> l0 = []).
Proof.
  unfold getServers, bind. destruct (resolveServerGroup flag tag) as [group|]; [|done].
  destruct (group =? DEDICATED_IP) eqn:Hg; [done|]. apply Z.eqb_neq in Hg.
  destruct (candidate_servers _ _ _ _ _ _ _ _ _ e) as [[[l0 r]|] e1] eqn:Hc; [|done].
  apply candidates_found in Hc as [Hc Hans]. cbn [fst snd].
  destruct (drop_virtual virtual l0) as [l1|] eqn:Hd; [|done].
  apply drop_virtual_spec in Hd as [Hd Hd0].
  destruct (keep_one 1 l1 e1) as [[l2|] e2] eqn:Hk; [|done].
  apply keep_one_spec in Hk as [Hk Hk0]. intros [= <- <- _].
  exists group, l0. repeat split; auto; apply Hd; auto.
Qed.

(** [PickServer] panics only when there was nothing left to choose from. *)
Lemma PickServer_spec e r e' :
  PickServer countries servers tech protocol obfuscated tag flag virtual e = (Ok r, e') ->
  exists l remote e1, getServers countries servers tech protocol obfuscated tag flag 1 virtual e = (Ok (l, remote), e1) /\
    match r with
    | Returned (s, b) => s ∈ l /\ b = remote
    | Panicked _ => l = []
    end.
Proof.
  unfold PickServer, bind. destruct getServers as [[[l remote]|] e1]; [|done]. cbn [fst snd].
  intros Hr. exists l, remote, e1. split; [done|].
  destruct l as [|x l]; [by injection Hr as <- _|].
  destruct (rand_element_nonempty (x :: l) e1) as (a & e2 & Ha); [done|]. rewrite Ha in Hr.
  injection Hr as <- _. split; [by eapply rand_element_in|done].
Qed.
End Picking.

Section Theorems.
Context {E : Type} `{ServersEnv E}.

Lemma remote_nonempty tech protocol obfuscated t group count (e e' : E) :
  remote_servers tech protocol obfuscated t group count e <> (Ok [], e').
Proof.
  unfold remote_servers. case_bool_decide.
  - unfold getSpecificServerRemote, bind. destruct (api_Server _ e) as [[?|] ?]; [|done]. by case_match.
  - unfold getServersRemote, bind. case_bool_decide; [done|].
    destruct (api_RecommendedServers _ e) as [[[|]|] ?]; done.
Qed.

(** The cached servers that match a request, dedicated ones included. *)
Definition cached_matches (servers : list Server) (tech : Technology) (protocol : Z) (tag : string)
    (group : ServerGroup) (obfuscated : bool) : list Server :=
  filter (fun s => canConnect tech protocol tag group obfuscated s = true) servers.


(** [PickServer] panics with an empty range only when it fell back to the
    cached servers and every one of the two or more matches belongs to the
    dedicated IP group; and then it always does, when the API cannot recommend
    servers and the tag is not the name of a server. *)
Theorem pick_server_panics_on_dedicated (countries : list Country) (servers : list Server)
    (tech : Technology) (protocol : Z) (obfuscated : bool) (tag flag : string) (virtual : bool)
    (group : ServerGroup) (t : ServerTag) (e e1 : E) :
  resolveServerGroup flag tag = Ok group -> group <> DEDICATED_IP ->
  serverTagFromString countries tag group servers (negb (bool_decide (flag = ""))) e = (Ok t, e1) ->
  st_Action t <> ServerByName ->
  (forall f, exists err e2, api_RecommendedServers f e1 = (Err err, e2)) ->
  (exists m e2, PickServer countries servers tech protocol obfuscated tag flag virtual e = (Ok (Panicked m), e2)) <->
  (2 <= length (cached_matches servers tech protocol tag group obfuscated))%nat /\
  Forall (fun s => isDedicatedIP s = true) (cached_matches servers tech protocol tag group obfuscated).
Proof.
  intros Hg Hd Ht Hn Hapi. split.
  - intros (m & e2 & Hp).
    destruct (PickServer_spec _ _ _ _ _ _ _ _ _ _ _ Hp) as (l & b & e3 & Hgs & ->).
    destruct (getServers_spec _ _ _ _ _ _ _ _ _ _ _ _ Hgs) as (g & l0 & Hr & _ & Hf & _ & _ & Hempty).
    rewrite (Hempty eq_refl) in Hf. assert (g = group) as -> by congruence. destruct b.
    + destruct Hf as (t0 & e4 & e5 & Hrem). by apply remote_nonempty in Hrem.
    + destruct Hf as [t0 Hl]. apply local_servers_empty in Hl. tauto.
  - intros [Hlen Hall].
    assert (Hl : local_servers servers tech protocol tag group obfuscated false = Ok [])
      by (by apply local_servers_empty).
    assert (Hrem : exists err e2, remote_servers tech protocol obfuscated t group 1 e1 = (Err err, e2)).
    { unfold remote_servers. rewrite bool_decide_false by done. unfold getServersRemote. cbv zeta.
      destruct (bool_decide (_ = UnknownTech)); [eexists _, _; reflexivity|]. edestruct Hapi as (err & e2 & Ha).
      erewrite bind_Err by exact Ha. eexists _, _; reflexivity. }
    destruct Hrem as (err & e2 & Hrem). eexists _, e2.
    unfold PickServer, getServers. rewrite Hg. apply Z.eqb_neq in Hd. rewrite Hd.
    unfold bind, candidate_servers, bind, attempt. rewrite Ht, Hrem.
    rewrite bool_decide_false by done. rewrite Hl. cbn. by destruct virtual.
Qed.
End Theorems.

(** ** An environment without network

    Every API call fails and the first candidate is chosen. *)

Definition Offline : Type := unit.

#[export] Instance Offline_env : ServersEnv Offline := {|
  api_Server _ := throw (Errorf "offline");
  api_RecommendedServers _ := throw (Errorf "offline");
  api_ServersCountries := throw (Errorf "offline");
  rand_Intn _ e := (0%nat, e)
|}.

Definition sample_vpn_server (id : Z) (groups : list ServerGroup) : Server :=
  mkServer id "Lithuania #7" "192.0.2.7" "lt7.nordvpn.com" 10 Online []
    [mkTechnologyEntry WireguardTech Online] (map (fun g => mkGroup g "") groups) [] 0 "key" ["lt"] [] "" "" zero_float zero_float zero_float.

(** The API knows one country and recommends one server for it. *)
Definition Recommending : Type := nat.
Definition sample_country : Country :=
  mkCountry 126 "Lithuania" "LT" (mkCity 1 "Vilnius" zero_float zero_float None) [mkCity 1 "Vilnius" zero_float zero_float None].

#[export] Instance Recommending_env : ServersEnv Recommending := {|
  api_Server _ := throw (Errorf "offline");
  api_RecommendedServers f e :=
    if bool_decide (st_Action (flt_Tag f) = ServerByCity) && (st_ID (flt_Tag f) =? 1) && bool_decide (flt_Tech f = WireguardTech)
    then (Ok [sample_vpn_server 7 [STANDARD_VPN_SERVERS]], S e) else (Ok [], S e);
  api_ServersCountries e := (Ok [sample_country], S e);
  rand_Intn _ e := (0%nat, e)
|}.


Definition dedicated_servers : list Server :=
  [sample_vpn_server 7 [DEDICATED_IP; P2P]; sample_vpn_server 8 [DEDICATED_IP; P2P]].

Lemma pick_server_panics_on_dedicated_witness :
  exists m e, PickServer (E := Offline) [] dedicated_servers NORDLYNX Protocol_UDP false "" "p2p" true tt
              = (Ok (Panicked m), e).
Proof.
  apply (pick_server_panics_on_dedicated (E := Offline) [] dedicated_servers NORDLYNX Protocol_UDP false ""
           "p2p" true P2P zero_tag tt tt).
  - vm_compute. reflexivity.
  - discriminate.
  - reflexivity.
  - discriminate.
  - intros f. eexists _, _. reflexivity.
  - split; [vm_compute; lia|]. vm_compute. repeat constructor.
Defined.
