(* ===== verification/Daemon.v ===== *)
(** * Daemon: the daemon's RPC object and the connection requests

    Models the state of [daemon/rpc.go], the choice of the server for an account
    ([selectServer] and the dedicated IP functions of [daemon/servers.go]),
    connecting, disconnecting, logging in and out ([daemon/rpc_connect.go],
    [rpc_disconnect.go], [rpc_login.go], [rpc_logout.go], [rpc_token.go]), the
    kill switch at start and stop of the daemon ([daemon/jobs.go]), and the
    endpoint and name server choices they use ([network/endpoint.go],
    [network/connection.go], [daemon/dns/nameservers.go]).

    The networker is the interface [DaemonNetworker], which file Networker
    implements; everything else outside is [DaemonEnv].  The stream to the client
    does not fail; what is sent on it is the result of the handler.  Published
    events and logs are left out. *)

From stdpp Require Import base option list strings gmap.
From Stdlib Require Import ZArith Ascii Lia.
From S2P Require Import Prelude GoLib Api Mesh Config Firewall Networker Auth Servers.
Set Warnings "-clear-no-such-hyp".

Open Scope Z_scope.
Open Scope go_scope.

(** ** Codes ([internal/codes.go]) *)

Definition CodeSuccess : Z := 1000.
Definition CodeConnecting : Z := 1001.
Definition CodeConnected : Z := 1002.
Definition CodeDisconnected : Z := 1003.
Definition CodeNothingToDo : Z := 2000.
Definition CodeVPNNotRunning : Z := 2003.
Definition CodeTokenInvalidated : Z := 2005.
Definition CodeFailure : Z := 3000.
Definition CodeConfigError : Z := 3004.
Definition CodeAccountExpired : Z := 3008.
Definition CodeGatewayError : Z := 3014.
Definition CodeDependencyError : Z := 3017.
Definition CodeTokenRenewError : Z := 3022.
Definition CodeKillSwitchError : Z := 3023.
Definition CodeInternalError : Z := 3026.
Definition CodeTokenLoginFailure : Z := 3035.
Definition CodeAutoConnectServerNotObfuscated : Z := 3037.
Definition CodeAutoConnectServerObfuscated : Z := 3038.
Definition CodeTokenInvalid : Z := 3039.
Definition CodePrivateSubnetLANDiscovery : Z := 3040.
Definition CodeDedicatedIPRenewError : Z := 3041.
Definition CodeDedicatedIPNoServer : Z := 3042.
Definition CodeDedicatedIPServiceButNoServers : Z := 3043.
Definition CodeAllowlistInvalidSubnet : Z := 3044.
Definition CodeAllowlistSubnetNoop : Z := 3045.
Definition CodeAllowlistPortOutOfRange : Z := 3046.
Definition CodeAllowlistPortNoop : Z := 3047.
Definition CodePqAndMeshnetSimultaneously : Z := 3048.
Definition CodePqWithoutNordlynx : Z := 3049.

Definition ErrNotLoggedIn : string := "you are not logged in".
Definition ErrAlreadyLoggedIn : string := "you are already logged in".
Definition ErrUnhandled : string := "Something went wrong. Please try again. If the problem persists, contact our customer support.".
Definition ErrMissingExchangeToken : string := "exchange token not provided".
Definition context_canceled : string := "context canceled".

(** ** Endpoints and name servers *)

Record Endpoint : Type := mkEndpoint { ep_ips : list Addr; ep_supportsIPv6 : bool }.

Definition endpoint_ip6 (e : Endpoint) : result Addr :=
  match find addr_Is6 (ep_ips e) with Some ip => Ok ip | None => Err (Errorf "no IPv6 addresses") end.
Definition endpoint_ip4 (e : Endpoint) : result Addr :=
  match find addr_Is4 (ep_ips e) with Some ip => Ok ip | None => Err (Errorf "no IPv4 addresses") end.
Definition endpoint_ip (e : Endpoint) : result Addr :=
  if ep_supportsIPv6 e then endpoint_ip6 e else endpoint_ip4 e.

Definition endpoint_Network (e : Endpoint) : result Prefix :=
  match endpoint_ip e with
  | Ok ip => Ok (prefix_from ip (addr_BitLen ip))
  | Err err => Err err
  end.

Definition NewIPv4Endpoint (ip : Addr) : Endpoint := mkEndpoint [ip] false.
Definition NewIPv6Endpoint (ips : list Addr) : Endpoint := mkEndpoint ips true.
Definition NewLocalEndpoint (ips : list Addr) : Endpoint := mkEndpoint ips false.

(** [NameServers.Get]; [servers] are the configured ones. *)
Definition NameServers_Get (servers : list string) (isThreatProtectionLite ipv6 : bool) : list string :=
  if isThreatProtectionLite then
    (if ipv6 then ["2400:bb40:4444::103"; "2400:bb40:8888::103"] else []) ++
    (match servers with [] => ["103.86.96.96"; "103.86.99.99"] | _ => servers end)
  else
    (if ipv6 then ["2400:bb40:4444::100"; "2400:bb40:8888::100"] else []) ++
    ["103.86.96.100"; "103.86.99.100"].

(** ** Interfaces *)

(** [networker.Networker]: its methods as data, see file Networker. *)
Class DaemonNetworker (Nt : Type) : Type := {
  netw_do : NwOp -> M Nt unit;
  netw_IsVPNActive : M Nt bool
}.

#[export] Instance Combined_daemon_networker {W A} `{Collaborators W} `{Agent A} :
    DaemonNetworker (Combined W A) := {|
  netw_do := exec_nw;
  netw_IsVPNActive := isConnectedToVPN
|}.

Class DaemonEnv (E : Type) : Type := {
  env_manager :: ConfigManager E;
  env_credentials :: CredentialsAPI E;
  env_servers :: ServersEnv E;
  dm_Servers : E -> list Server;
  dm_Countries : E -> list Country;
  ns_servers : E -> list string;
  factory : Technology -> M E VpnRef;
  endpoint_Resolve : Addr -> M E (list Addr);
  cm_reset : M E string;
  nc_Stop : M E unit;
  nc_Revoke : bool -> M E unit;
  api_DeleteToken : string -> M E unit;
  api_Logout : string -> M E unit;
  oauth_Login : M E string;
  oauth_Token : string -> M E TokenRenewResponse;
  analytics_Enable : M E unit;
  analytics_Disable : M E unit;
  norduser_Restart : Z -> M E unit;
  IsSystemShutdown : E -> bool * E
}.

(** ** State *)

Record RPC (Nt E : Type) : Type := mkRPC {
  rpc_store : Store E;
  rpc_netw : Nt;
  rpc_lastServer : Server;
  rpc_endpoint : Endpoint;
  rpc_devEnv : bool;
  rpc_systemShutdown : bool;
  rpc_connecting : bool
}.
Arguments mkRPC {Nt E} _ _ _ _ _ _ _.
Arguments rpc_store {Nt E} _.
Arguments rpc_netw {Nt E} _.
Arguments rpc_lastServer {Nt E} _.
Arguments rpc_endpoint {Nt E} _.
Arguments rpc_devEnv {Nt E} _.
Arguments rpc_systemShutdown {Nt E} _.
Arguments rpc_connecting {Nt E} _.
#[export] Instance RPC_eta {Nt E} : EtaExpand (RPC Nt E) := fun r =>
  mkRPC (rpc_store r) (rpc_netw r) (rpc_lastServer r) (rpc_endpoint r) (rpc_devEnv r)
    (rpc_systemShutdown r) (rpc_connecting r).

Definition zero_vpn_server : Server := mkServer 0 "" "" "" 0 "" [] [] [] [] 0 "" [] [] "" "" zero_float zero_float zero_float.

Definition NewRPC {Nt E} (store : Store E) (netw : Nt) (devEnv : bool) : RPC Nt E :=
  mkRPC store netw zero_vpn_server (mkEndpoint [] false) devEnv false false.

(** The configuration on disk. *)
Definition rpc_cfg {Nt E} (r : RPC Nt E) : Config := so_cfg (rpc_store r).

(** [pb.Payload]. *)
Record Payload : Type := mkPayload { py_Type : Z; py_Data : list string }.
Definition code (c : Z) : Payload := mkPayload c [].

Section Daemon.
Context {Nt E : Type} `{DaemonNetworker Nt} `{DaemonEnv E}.
#[local] Abbreviation D := (M (RPC Nt E)).

Definition on_store {A} (m : M (Store E) A) : D A := zoom rpc_store (fun t r => r <| rpc_store := t |>) m.
Definition on_env {A} (m : M E A) : D A := on_store (in_env m).
Definition on_netw {A} (m : M Nt A) : D A := zoom rpc_netw (fun n r => r <| rpc_netw := n |>) m.
Definition nw (o : NwOp) : D unit := on_netw (netw_do o).
Definition env_get {A} (f : E -> A) : D A := gets (fun r => f (so_env (rpc_store r))).

Definition Load : D Config := on_store cm_Load.
Definition LoadLogged : D Config := on_store cm_LoadLogged.
Definition SaveWith (f : Config -> Config) : D unit := on_store (cm_SaveWith f).
Definition IsVPNActive : D bool := on_netw netw_IsVPNActive.

(** ** The server for an account *)

Definition isAnyDIPServersAvailable (services : list DedicatedIPService) : bool :=
  existsb (fun s => negb (dip_ServerID s =? NoServerSelected)) services.

Definition getServerByID (servers : list Server) (serverID : Z) : result Server :=
  match find (fun s => srv_ID s =? serverID) servers with
  | Some s => Ok s
  | None => Err (Errorf "server not found")
  end.

(** The services of the account, with the errors both callers report. *)
Definition dedicatedIPServices : D (list DedicatedIPService) :=
  let! r := attempt (on_store GetDedicatedIPServices) in
  match r with
  | Err _ => throw (Sentinel ErrUnhandled)
  | Ok [] => throw (ErrorWithCode CodeDedicatedIPRenewError)
  | Ok services =>
      if isAnyDIPServersAvailable services then ret services
      else throw (ErrorWithCode CodeDedicatedIPServiceButNoServers)
  end.

Definition selectDedicatedIPServer (servers : list Server) : D (outcome Server) :=
  let! services := dedicatedIPServices in
  let! service := on_env (rand_element services) in
  match service with
  | Panicked m => ret (Panicked m)
  | Returned service =>
      match getServerByID servers (dip_ServerID service) with
      | Ok server => ret (Returned server)
      | Err _ => throw (Sentinel ErrServerIsUnavailable)
      end
  end.

(** What [selectServer] does with an error of [PickServer]. *)
Definition pick_error (cfg : Config) (servers : list Server) (err : error) : D (outcome (Server * bool)) :=
  if errors_Is err ErrUnauthorized then
    SaveWith (Config.Logout (ac_ID (cfg_AutoConnectData cfg))) ;; throw (Sentinel ErrNotLoggedIn)
  else if errors_Is err ErrTagDoesNotExist || errors_Is err ErrGroupDoesNotExist ||
          errors_Is err ErrServerIsUnavailable || errors_Is err ErrDoubleGroup ||
          errors_Is err ErrVirtualServerSelected
  then throw err
  else if errors_Is err ErrDedicatedIPServer then
    let! s := selectDedicatedIPServer servers in
    ret (match s with Returned s => Returned (s, false) | Panicked m => Panicked m end)
  else throw (Sentinel ErrUnhandled).

(** A dedicated server is only for accounts that have it. *)
Definition check_dedicated (cfg : Config) (server : Server) : D unit :=
  when (isDedicatedIP server)
    (let! services := dedicatedIPServices in
     if negb (existsb (fun s => dip_ServerID s =? srv_ID server) services)
     then throw (ErrorWithCode CodeDedicatedIPNoServer)
     else if negb (IsConnectableWithProtocol (cfg_Technology cfg) (ac_Protocol (cfg_AutoConnectData cfg)) server) ||
             negb (Bool.eqb (IsObfuscated server) (ac_Obfuscate (cfg_AutoConnectData cfg)))
     then throw (Sentinel ErrServerIsUnavailable)
     else ret tt).

Definition selectServer (cfg : Config) (tag groupFlag : string) : D (outcome (Server * bool)) :=
  let! servers := env_get dm_Servers in
  let! countries := env_get dm_Countries in
  let ac := cfg_AutoConnectData cfg in
  let! r := attempt (on_env (PickServer countries servers (cfg_Technology cfg) (ac_Protocol ac)
                               (ac_Obfuscate ac) tag groupFlag (TrueField_Get (cfg_VirtualLocation cfg)))) in
  let! picked := (match r with Ok x => ret x | Err err => pick_error cfg servers err end) in
  match picked with
  | Panicked m => ret (Panicked m)
  | Returned (server, remote) =>
      check_dedicated cfg server ;;
      ret (Returned (server, remote))
  end.

(** ** Connecting *)

(** The result of a streaming request: the payloads sent, or a panic. *)
Inductive Stream : Type := Sent (payloads : list Payload) | Crashed (msg : string).

Fixpoint resolve_v6 (all ips : list Addr) : D Endpoint :=
  match ips with
  | [] => ret (NewLocalEndpoint all)
  | ip :: ips' =>
      if addr_Is6 ip then
        let! r := attempt (on_env (endpoint_Resolve ip)) in
        if is_ok r then ret (NewIPv6Endpoint all) else resolve_v6 all ips'
      else resolve_v6 all ips'
  end.
Definition DefaultEndpoint (serverIps : list Addr) : D Endpoint := resolve_v6 serverIps serverIps.

(** The endpoint for the server: its address in the end. *)
Definition set_endpoint (cfg : Config) (server : Server) : D unit :=
  if cfg_IPv6 cfg then
    ignore (nw NwPermitIPv6) ;;
    let! ep := DefaultEndpoint (IPs server) in
    set! rpc_endpoint := ep
  else
    match IPv4 server with
    | None => throw (Sentinel ErrUnhandled)
    | Some ip => set! rpc_endpoint := NewIPv4Endpoint ip
    end.

Definition server_data (cfg : Config) (server : Server) (ip : Addr) : ServerData :=
  let country := default "" (co_Name <$> head (srv_Locations server)) in
  let city := default "" ((fun l => city_Name (co_City l)) <$> head (srv_Locations server)) in
  mkServerData ip (srv_Hostname server) (srv_Name server) country city
    (ac_Protocol (cfg_AutoConnectData cfg)) (srv_NordLynxPublicKey server)
    (ac_Obfuscate (cfg_AutoConnectData cfg)) (Version server) (IsVirtualLocation server)
    (ac_PostquantumVpn (cfg_AutoConnectData cfg)).

Definition credentials_of (cfg : Config) : Credentials :=
  let token := token_of cfg (ac_ID (cfg_AutoConnectData cfg)) in
  mkCredentials (td_OpenVPNUsername token) (td_OpenVPNPassword token) (td_NordLynxPrivateKey token).

Definition connection_nameservers (cfg : Config) (server : Server) : D (list string) :=
  let! configured := env_get ns_servers in
  ret (elems (DNS_Or (ac_DNS (cfg_AutoConnectData cfg))
                (NameServers_Get configured (ac_ThreatProtectionLite (cfg_AutoConnectData cfg))
                   (SupportsIPv6 server)))).

(** From the server on: endpoint, start of the networker and its outcome. *)
Definition connect_to (cfg : Config) (server : Server) : D (list Payload) :=
  set_endpoint cfg server ;;
  let! ep := gets rpc_endpoint in
  match endpoint_Network ep with
  | Err _ => throw (Sentinel ErrUnhandled)
  | Ok subnet =>
      set! rpc_lastServer := server ;;
      let! nameservers := connection_nameservers cfg server in
      let data := [srv_Name server; srv_Hostname server; if IsVirtualLocation server then " - Virtual" else ""] in
      let connecting := mkPayload CodeConnecting data in
      let! r := attempt (nw (NwStart (credentials_of cfg) (server_data cfg server (pfx_addr subnet))
                               (ac_Allowlist (cfg_AutoConnectData cfg)) nameservers true)) in
      match r with
      | Err err =>
          ret [connecting;
               mkPayload (if errors_Is err context_canceled then CodeDisconnected else CodeFailure) data]
      | Ok _ =>
          when (negb (SupportsIPv6 server)) (ignore (nw NwDenyIPv6)) ;;
          ret [connecting; mkPayload CodeConnected data]
      end
  end.

Definition connect (serverTag serverGroup : string) : D Stream :=
  let! loggedIn := on_store IsLoggedIn in
  if negb loggedIn then throw (Sentinel ErrNotLoggedIn)
  else
    let! r := attempt (on_store IsVPNExpired) in
    match r with
    | Err _ => ret (Sent [code CodeTokenRenewError])
    | Ok true => ret (Sent [code CodeAccountExpired])
    | Ok false =>
        let! cfg := LoadLogged in
        let! r := attempt (selectServer cfg (RemoveNonAlphanumeric serverTag) serverGroup) in
        match r with
        | Err err =>
            match errors_As_code err with
            | Some c => ret (Sent [code c])
            | None => throw err
            end
        | Ok (Panicked m) => ret (Crashed m)
        | Ok (Returned (server, _)) =>
            let! sent := connect_to cfg server in
            ret (Sent sent)
        end
    end.

(** [connectContext.TryExecuteWith]: refused while another connect runs. *)
Definition Connect (serverTag serverGroup : string) : D Stream :=
  let! busy := gets rpc_connecting in
  if busy : bool then ret (Sent [code CodeNothingToDo])
  else
    set! rpc_connecting := true ;;
    let! r := attempt (connect serverTag serverGroup) in
    set! rpc_connecting := false ;;
    match r with Ok s => ret s | Err e => throw e end.

Definition Disconnect : D Stream :=
  let! active := IsVPNActive in
  if negb active then
    ignore (nw NwUnsetFirewall) ;;
    ret (Sent [code CodeVPNNotRunning])
  else
    let! r := attempt (nw NwStop) in
    match r with
    | Err _ => throw (Sentinel ErrUnhandled)
    | Ok _ =>
        let! cfg := LoadLogged in
        ret (Sent [code CodeDisconnected])
    end.

(** ** Logging in and out *)

Fixpoint hex_text (s : string) : bool :=
  match s with
  | EmptyString => true
  | String c s' =>
      let n := nat_of_ascii c in
      (((48 <=? n)%nat && (n <=? 57)%nat) || ((97 <=? n)%nat && (n <=? 102)%nat)) && hex_text s'
  end.

Definition login_data (resp : TokenRenewResponse) (credentials : CredentialsResponse) (isOAuth : bool) : TokenData :=
  mkTokenData (tr_Token resp) (tr_ExpiresAt resp) (tr_RenewToken resp) isOAuth "" "" ""
    (cd_NordlynxPrivateKey credentials) (cd_Username credentials) (cd_Password credentials) (mkNCData "" "" "" "").

Definition save_login (resp : TokenRenewResponse) (credentials : CredentialsResponse) (isOAuth : bool)
    (c : Config) : Config :=
  c <| cfg_TokensData := <[cd_ID credentials := login_data resp credentials isOAuth]> (cfg_TokensData c) |>
    <| cfg_AutoConnectData := (cfg_AutoConnectData c) <| ac_ID := cd_ID credentials |> |>.

Definition loginCommon (resp : option TokenRenewResponse) : D Z :=
  let! loggedIn := on_store IsLoggedIn in
  if loggedIn : bool then throw (Sentinel ErrAlreadyLoggedIn)
  else match resp with
  | None => ret CodeTokenLoginFailure
  | Some resp =>
      let! r := attempt (on_env (creds_ServiceCredentials (tr_Token resp))) in
      match r with
      | Err err =>
          ret (if errors_Is err ErrServerInternal then CodeInternalError
               else if errors_Is err ErrUnauthorized then CodeTokenInvalid
               else CodeGatewayError)
      | Ok credentials =>
          let! l := attempt Load in
          if negb (is_ok l) then ret CodeConfigError
          else
            let! w := attempt (SaveWith (save_login resp credentials false)) in
            if negb (is_ok w) then ret CodeConfigError
            else
              ignore (on_store isMFAEnabled) ;;
              ret CodeSuccess
      end
  end.

Definition LoginWithToken (token : string) : D Z :=
  if negb (hex_text token) then ret CodeTokenInvalid
  else loginCommon (if bool_decide (token = "") then None
                    else Some (mkTokenRenewResponse token "" "9999-12-31 00:00:00")).

Definition LoginOAuth2 : D string :=
  let! loggedIn := on_store IsLoggedIn in
  if loggedIn : bool then throw (Sentinel ErrAlreadyLoggedIn) else on_env oauth_Login.

Definition LoginOAuth2Callback (data : string) : D unit :=
  let! loggedIn := on_store IsLoggedIn in
  if loggedIn : bool then throw (Sentinel ErrAlreadyLoggedIn)
  else if bool_decide (data = "") then throw (Sentinel ErrMissingExchangeToken)
  else
    let! resp := on_env (oauth_Token data) in
    let! credentials := on_env (creds_ServiceCredentials (tr_Token resp)) in
    SaveWith (save_login resp credentials true) ;;
    ignore (on_store isMFAEnabled).

(** The errors of the API that do not stop a logout. *)
Definition token_gone (e : error) : bool := errors_Is e ErrUnauthorized || errors_Is e ErrBadRequest.
Definition api_failure (e : error) : Z := if errors_Is e ErrServerInternal then CodeInternalError else CodeFailure.

(** [None]: go on with the logout. *)
Definition revoke_token (tokenData : TokenData) : D (option Z) :=
  ignore (let! dev := gets rpc_devEnv in on_env (nc_Revoke dev)) ;;
  let! r := attempt (on_env (api_DeleteToken (td_Token tokenData))) in
  match r with
  | Err e => if token_gone e then ret None else ret (Some (api_failure e))
  | Ok _ => ret None
  end.

Definition api_logout (tokenData : TokenData) : D (option Z) :=
  let! r := attempt (on_env (api_Logout (td_Token tokenData))) in
  match r with
  | Err e => if token_gone e || errors_Is e ErrNotFound then ret None else ret (Some (api_failure e))
  | Ok _ => ret None
  end.

Definition save_logout (c : Config) : Config :=
  c <| cfg_TokensData := delete (ac_ID (cfg_AutoConnectData c)) (cfg_TokensData c) |>
    <| cfg_AutoConnectData := (cfg_AutoConnectData c) <| ac_ID := 0 |> |>
    <| cfg_Mesh := false |>.

Definition finish_logout (persistToken : bool) (tokenData : TokenData) : D Z :=
  SaveWith save_logout ;;
  ret (if negb persistToken && bool_decide (td_RenewToken tokenData = "")
       then CodeTokenInvalidated else CodeSuccess).

Definition Logout (persistToken : bool) : D Z :=
  let! loggedIn := on_store IsLoggedIn in
  if negb loggedIn then throw (Sentinel ErrNotLoggedIn)
  else
    let! l := attempt Load in
    match l with
    | Err _ => ret CodeFailure
    | Ok cfg =>
        let! r := attempt (nw NwStop) in
        if negb (is_ok r) then ret CodeFailure
        else
          let! r := attempt (nw NwUnSetMesh) in
          if (match r with Err e => negb (errors_Is e ErrMeshNotActive) | Ok _ => false end)
          then ret CodeFailure
          else
            ignore (on_env nc_Stop) ;;
            match cfg_TokensData cfg !! ac_ID (cfg_AutoConnectData cfg) with
            | None => ret CodeFailure
            | Some tokenData =>
                if persistToken then finish_logout persistToken tokenData
                else
                  let! stop := revoke_token tokenData in
                  match stop with
                  | Some c => ret c
                  | None =>
                      let! stop := api_logout tokenData in
                      match stop with
                      | Some c => ret c
                      | None => finish_logout persistToken tokenData
                      end
                  end
            end
    end.

(** [TokenInfo]: the data of the current account. *)
Definition TokenInfo : D (result TokenData) :=
  let! loggedIn := on_store IsLoggedIn in
  if negb loggedIn then throw (Sentinel ErrNotLoggedIn)
  else
    let! l := attempt Load in
    ret (match l with
         | Err _ => Err (ErrorWithCode CodeConfigError)
         | Ok cfg => Ok (token_of cfg (ac_ID (cfg_AutoConnectData cfg)))
         end).

(** ** The kill switch at start and stop of the daemon *)

Definition StartKillSwitch : D unit :=
  let! l := attempt Load in
  match l with
  | Err _ => ret tt
  | Ok cfg =>
      when (cfg_KillSwitch cfg) (ignore (nw (NwSetKillSwitch (ac_Allowlist (cfg_AutoConnectData cfg)))))
  end.

Definition StopKillSwitch : D unit :=
  let! cfg := wrapped "loading daemon config: " Load "" in
  when (cfg_KillSwitch cfg)
    (let! flag := gets rpc_systemShutdown in
     let! shutdown := (if flag : bool then ret true else on_store (ask IsSystemShutdown)) in
     if shutdown : bool then ret tt
     else wrapped "unsetting killswitch: " (nw NwUnsetKillSwitch) "").

Definition SystemShutdownSignal : D unit := set! rpc_systemShutdown := true.
End Daemon.
