(* ===== verification/Settings.v ===== *)
(** * Settings: the requests that change settings

    Models [daemon/rpc_set_*.go] and [daemon/rpc_settings.go]: every handler with
    its guards, networker calls and configuration updates in the order of the
    code, and the code it answers.  Most handlers only log an error of [Load] and
    go on with the configuration it left ([LoadLogged]).

    Port ranges are [int64]: the loops over them count with wrap-around, on fuel
    that is enough whenever the Go loop ends; [None] is a loop that does not
    end. *)

From stdpp Require Import base option list strings gmap sorting.
From Stdlib Require Import ZArith Ascii Lia.
From S2P Require Import Prelude GoLib Api Mesh Config Firewall Networker Auth Servers Daemon.
Set Warnings "-clear-no-such-hyp".

Open Scope Z_scope.
Open Scope go_scope.

(** ** Ports *)

Definition AllowlistMinPort : Z := 1.
Definition AllowlistMaxPort : Z := 65535.

(** [int64] wrap-around. *)
Definition wrap64 (z : Z) : Z := (z + 2 ^ 63) mod 2 ^ 64 - 2 ^ 63.

(** [for port := p; port <= stop; port++ { ports = append(ports, port) }]. *)
Fixpoint ports_loop (fuel : nat) (p stop : Z) : option (list Z) :=
  if stop <? p then Some []
  else match fuel with
       | O => None
       | S fuel' => cons p <$> ports_loop fuel' (wrap64 (p + 1)) stop
       end.

Definition loop_fuel (start stop : Z) : nat := Z.to_nat (stop - start + 1).

Definition getPortsInARange (start stop : Z) : option (list Z) :=
  cons start <$> ports_loop (loop_fuel (start + 1) stop) (wrap64 (start + 1)) stop.

(** The loop of [arePortsValid] that removes: whether every port is present. *)
Fixpoint ports_present (fuel : nat) (p stop : Z) (current : PortSet) : option bool :=
  if stop <? p then Some true
  else match fuel with
       | O => None
       | S fuel' =>
           if bool_decide (is_Some (current !! p)) then ports_present fuel' (wrap64 (p + 1)) stop current
           else Some false
       end.

(** The error code, or none when the ports are valid. *)
Definition arePortsValid (portRangeStart portRangeEnd : Z) (currentPorts : PortSet) (remove : bool) :
    option (option Z) :=
  let out_of_range := (portRangeStart <? AllowlistMinPort) || (AllowlistMaxPort <? portRangeStart) in
  if out_of_range then Some (Some CodeAllowlistPortOutOfRange)
  else if negb (portRangeEnd =? 0) && (out_of_range || (portRangeEnd <? portRangeStart))
  then Some (Some CodeAllowlistPortOutOfRange)
  else
    present ← (if remove
               then ports_present (loop_fuel portRangeStart portRangeEnd) portRangeStart portRangeEnd currentPorts
               else Some true);
    if negb present then Some (Some CodeAllowlistPortNoop)
    else if (portRangeEnd =? 0) &&
            negb (Bool.eqb (bool_decide (is_Some (currentPorts !! portRangeStart))) remove)
    then Some (Some CodeAllowlistPortNoop)
    else Some None.

(** ** Subnets *)

Definition is_private (p : Prefix) : bool :=
  addr_IsPrivate (pfx_addr p) || addr_IsLinkLocalUnicast (pfx_addr p).

Definition containsPrivateNetwork (subnet : string) : bool :=
  match ParsePrefix subnet with None => false | Some net => is_private net end.

Definition isSubnetValid (subnet : string) (currentSubnets : Subnets) (remove : bool) : option Z :=
  match ParseCIDR subnet with
  | None => Some CodeAllowlistInvalidSubnet
  | Some _ =>
      if negb (Bool.eqb (bool_decide (is_Some (currentSubnets !! subnet))) remove)
      then Some CodeAllowlistSubnetNoop else None
  end.

(** [slices.Sort] of strings, by bytes. *)
Definition string_le (a b : string) : Prop := String.leb a b = true.
#[export] Instance string_le_dec : RelDecision string_le.
Proof. intros a b. unfold string_le. apply _. Defined.
Definition sort_Strings (l : list string) : list string := merge_sort string_le l.

(** ** Requests and responses *)

Inductive AllowlistRequest : Type :=
| AllowlistSubnet (subnet : string)
| AllowlistPorts (isUdp isTcp : bool) (startPort endPort : Z).

Inductive SetErrorCode : Type := FAILURE | CONFIG_ERROR | ALREADY_SET.
Inductive SetDNSStatus : Type := DNS_CONFIGURED | DNS_CONFIGURED_TPL_RESET | INVALID_DNS_ADDRESS | TOO_MANY_VALUES.
Inductive SetLANDiscoveryStatus : Type := DISCOVERY_CONFIGURED | DISCOVERY_CONFIGURED_ALLOWLIST_RESET.
Inductive SetProtocolStatus : Type := PROTOCOL_CONFIGURED | PROTOCOL_CONFIGURED_VPN_ON | INVALID_TECHNOLOGY.
Inductive SetThreatProtectionLiteStatus : Type := TPL_CONFIGURED | TPL_CONFIGURED_DNS_RESET.

(** The responses of all handlers; [Hung] is a handler that does not return,
    [DaemonPanic] one that ends the process. *)
Inductive Reply : Type :=
| Answer (p : Payload)
| SetError (c : SetErrorCode)
| DNSStatus (s : SetDNSStatus)
| LANDiscoveryStatus (s : SetLANDiscoveryStatus)
| ProtocolStatus (s : SetProtocolStatus)
| ThreatProtectionLiteStatus (s : SetThreatProtectionLiteStatus)
| Hung
| DaemonPanic (msg : string).

Definition answer (c : Z) : Reply := Answer (code c).

Definition set_ac (f : AutoConnectData -> AutoConnectData) (c : Config) : Config :=
  c <| cfg_AutoConnectData := f (cfg_AutoConnectData c) |>.

Definition format_bool (b : bool) : string := if b then "true" else "false".
Definition technology_String (t : Technology) : string :=
  match t with UNKNOWN_TECHNOLOGY => "UNKNOWN_TECHNOLOGY" | OPENVPN => "OPENVPN" | NORDLYNX => "NORDLYNX" end.

(** The allowlist after a request, or the code of its refusal. *)
Definition new_subnets (lan : bool) (subnet : string) (remove : bool) (a : Allowlist) : result Allowlist :=
  if lan && containsPrivateNetwork subnet then Err (ErrorWithCode CodePrivateSubnetLANDiscovery)
  else match isSubnetValid subnet (al_Subnets a) remove with
       | Some c => Err (ErrorWithCode c)
       | None => Ok (UpdateSubnets subnet remove a)
       end.

(** One protocol of a request for ports; [update] is its update function. *)
Definition new_ports (s e : Z) (remove : bool) (current : PortSet)
    (update : list Z -> bool -> Allowlist -> Allowlist) (a : Allowlist) : option (result Allowlist) :=
  valid ← arePortsValid s e current remove;
  match valid with
  | Some c => Some (Err (ErrorWithCode c))
  | None => ports ← getPortsInARange s e; Some (Ok (update ports remove a))
  end.

Definition new_allowlist (cfg : Config) (req : AllowlistRequest) (remove : bool) : option (result Allowlist) :=
  let allowlist := ac_Allowlist (cfg_AutoConnectData cfg) in
  match req with
  | AllowlistSubnet subnet => Some (new_subnets (cfg_LanDiscovery cfg) subnet remove allowlist)
  | AllowlistPorts isUdp isTcp s e =>
      udp ← (if isUdp then new_ports s e remove (ports_UDP (al_Ports allowlist)) UpdateUDPPorts allowlist
             else Some (Ok allowlist));
      match udp with
      | Err err => Some (Err err)
      | Ok allowlist =>
          if isTcp then new_ports s e remove (ports_TCP (al_Ports allowlist)) UpdateTCPPorts allowlist
          else Some (Ok allowlist)
      end
  end.

Section Settings.
Context {Nt E : Type} `{DaemonNetworker Nt} `{DaemonEnv E}.
#[local] Abbreviation D := (M (RPC Nt E)).

(** [if err := r.cm.SaveWith(f); err != nil { return CodeConfigError }], then [k]. *)
Definition save_or {A} (failed : A) (f : Config -> Config) (k : D A) : D A :=
  let! r := attempt (SaveWith f) in
  if is_ok r then k else ret failed.

(** [if err := r.netw.Op(); err != nil { return failed }], then [k]. *)
Definition netw_or {A} (failed : A) (o : NwOp) (k : D A) : D A :=
  let! r := attempt (nw o) in
  if is_ok r then k else ret failed.

(** *** Allowlist *)

Definition getNewAllowlist (req : AllowlistRequest) (remove : bool) : D (option (result Allowlist)) :=
  let! l := attempt Load in
  ret (match l with
       | Err _ => Some (Err (ErrorWithCode CodeConfigError))
       | Ok cfg => new_allowlist cfg req remove
       end).

Definition handleNewAllowlist (allowlist : Allowlist) : D Reply :=
  netw_or (answer CodeFailure) (NwSetAllowlist allowlist)
    (save_or (answer CodeConfigError) (set_ac (fun a => a <| ac_Allowlist := allowlist |>))
       (ret (answer CodeSuccess))).

Definition change_allowlist (req : AllowlistRequest) (remove : bool) : D Reply :=
  let! a := getNewAllowlist req remove in
  match a with
  | None => ret Hung
  | Some (Err e) => ret (answer (default CodeFailure (errors_As_code e)))
  | Some (Ok allowlist) => handleNewAllowlist allowlist
  end.
Definition SetAllowlist (req : AllowlistRequest) : D Reply := change_allowlist req false.
Definition UnsetAllowlist (req : AllowlistRequest) : D Reply := change_allowlist req true.
Definition UnsetAllAllowlist : D Reply := handleNewAllowlist (NewAllowlist [] [] []).

(** *** Switches *)

Definition SetAnalytics (enabled : bool) : D Reply :=
  let! cfg := LoadLogged in
  if Bool.eqb (TrueField_Get (cfg_Analytics cfg)) enabled then ret (answer CodeNothingToDo)
  else
    let! r := attempt (on_env (if enabled then analytics_Enable else analytics_Disable)) in
    if negb (is_ok r) then ret (answer CodeConfigError)
    else save_or (answer CodeConfigError) (fun c => c <| cfg_Analytics := TrueField_Set enabled |>)
           (ret (answer CodeSuccess)).

Definition SetFirewall (enabled : bool) : D Reply :=
  let! cfg := LoadLogged in
  if Bool.eqb (cfg_Firewall cfg) enabled then ret (answer CodeNothingToDo)
  else if cfg_KillSwitch cfg && negb enabled then ret (answer CodeDependencyError)
  else
    netw_or (answer CodeFailure) (if enabled then NwEnableFirewall else NwDisableFirewall)
      (save_or (answer CodeConfigError) (fun c => c <| cfg_Firewall := enabled |>)
         (ret (answer CodeSuccess))).

Definition SetFirewallMark (value : Z) : D Reply :=
  let! cfg := LoadLogged in
  if cfg_FirewallMark cfg =? value then ret (answer CodeNothingToDo)
  else save_or (answer CodeConfigError) (fun c => c <| cfg_FirewallMark := value |>)
         (ret (answer CodeSuccess)).

Definition SetIpv6 (enabled : bool) : D Reply :=
  let! cfg := LoadLogged in
  if Bool.eqb (cfg_IPv6 cfg) enabled then ret (answer CodeNothingToDo)
  else save_or (answer CodeConfigError) (fun c => c <| cfg_IPv6 := enabled |>) (ret (answer CodeSuccess)).

Definition SetKillSwitch (enabled : bool) (allowlist : Allowlist) : D Reply :=
  let! cfg := LoadLogged in
  if negb (cfg_Firewall cfg) then ret (answer CodeDependencyError)
  else if Bool.eqb (cfg_KillSwitch cfg) enabled then ret (answer CodeNothingToDo)
  else
    netw_or (answer CodeKillSwitchError) (if enabled then NwSetKillSwitch allowlist else NwUnsetKillSwitch)
      (save_or (answer CodeConfigError) (fun c => c <| cfg_KillSwitch := enabled |>)
         (ret (answer CodeSuccess))).

Definition SetRouting (enabled : bool) : D Reply :=
  let! cfg := LoadLogged in
  if Bool.eqb (TrueField_Get (cfg_Routing cfg)) enabled then ret (answer CodeNothingToDo)
  else if cfg_Mesh cfg && negb enabled then ret (answer CodeDependencyError)
  else
    save_or (answer CodeConfigError) (fun c => c <| cfg_Routing := TrueField_Set enabled |>)
      (ignore (nw (if enabled then NwEnableRouting else NwDisableRouting)) ;;
       ret (answer CodeSuccess)).

Definition SetVirtualLocation (enabled : bool) : D Reply :=
  let! cfg := LoadLogged in
  if Bool.eqb (TrueField_Get (cfg_VirtualLocation cfg)) enabled then ret (answer CodeNothingToDo)
  else save_or (answer CodeConfigError) (fun c => c <| cfg_VirtualLocation := TrueField_Set enabled |>)
         (ret (answer CodeSuccess)).

(** *** Post-quantum, obfuscation, protocol and technology *)

Definition SetPostQuantum (enabled : bool) : D Reply :=
  let! cfg := LoadLogged in
  if Bool.eqb (ac_PostquantumVpn (cfg_AutoConnectData cfg)) enabled then ret (answer CodeNothingToDo)
  else if cfg_Mesh cfg && enabled then ret (answer CodePqAndMeshnetSimultaneously)
  else if negb (bool_decide (cfg_Technology cfg = NORDLYNX)) then ret (answer CodePqWithoutNordlynx)
  else save_or (answer CodeConfigError) (set_ac (fun a => a <| ac_PostquantumVpn := enabled |>))
         (ret (answer CodeSuccess)).

(** The obfuscation of a server chosen by name must match the setting. *)
Definition obfuscation_conflict (servers : list Server) (serverTag : string) (obfuscate : bool) : option Z :=
  match IsServerObfuscated servers serverTag with
  | ServerNotObfuscated => if obfuscate then Some CodeAutoConnectServerNotObfuscated else None
  | ServerObfuscated => if obfuscate then None else Some CodeAutoConnectServerObfuscated
  | NotAServerName => None
  end.

Definition SetObfuscate (enabled : bool) : D Reply :=
  let! cfg := LoadLogged in
  let! servers := env_get dm_Servers in
  if Bool.eqb (ac_Obfuscate (cfg_AutoConnectData cfg)) enabled then ret (answer CodeNothingToDo)
  else match (if cfg_AutoConnect cfg
              then obfuscation_conflict servers (ac_ServerTag (cfg_AutoConnectData cfg)) enabled else None) with
  | Some c => ret (answer c)
  | None =>
      save_or (answer CodeConfigError) (set_ac (fun a => a <| ac_Obfuscate := enabled |>))
        (let! active := IsVPNActive in
         ret (Answer (mkPayload CodeSuccess [format_bool active])))
  end.

Definition SetProtocol (protocol : Z) : D Reply :=
  let! cfg := LoadLogged in
  if ac_Protocol (cfg_AutoConnectData cfg) =? protocol then ret (SetError ALREADY_SET)
  else if bool_decide (cfg_Technology cfg = NORDLYNX) then ret (ProtocolStatus INVALID_TECHNOLOGY)
  else save_or (SetError CONFIG_ERROR) (set_ac (fun a => a <| ac_Protocol := protocol |>))
         (let! active := IsVPNActive in
          ret (ProtocolStatus (if active then PROTOCOL_CONFIGURED_VPN_ON else PROTOCOL_CONFIGURED))).

Definition SetTechnology (technology : Technology) : D Reply :=
  let! cfg := LoadLogged in
  if bool_decide (cfg_Technology cfg = technology)
  then ret (Answer (mkPayload CodeNothingToDo [technology_String technology]))
  else
    let! v := attempt (on_env (factory technology)) in
    match v with
    | Err _ => ret (answer CodeConfigError)
    | Ok v =>
        let nordlynx := bool_decide (technology = NORDLYNX) in
        let protocol := if nordlynx then Protocol_UDP else ac_Protocol (cfg_AutoConnectData cfg) in
        let obfuscate := if nordlynx then false else ac_Obfuscate (cfg_AutoConnectData cfg) in
        if negb nordlynx && ac_PostquantumVpn (cfg_AutoConnectData cfg)
        then ret (answer CodePqWithoutNordlynx)
        else
          save_or (answer CodeConfigError)
            (fun c => set_ac (fun a => a <| ac_Protocol := protocol |> <| ac_Obfuscate := obfuscate |>)
                        (c <| cfg_Technology := technology |>))
            (ignore (nw (NwSetVPN v)) ;;
             let! active := IsVPNActive in
             ret (Answer (mkPayload CodeSuccess [format_bool active; technology_String technology])))
    end.

(** *** Name servers *)

(** The slice of the request is sorted in place, so the sorted one is saved. *)
Definition SetDNS (dns : slice string) : D Reply :=
  let! cfg := LoadLogged in
  let ac := cfg_AutoConnectData cfg in
  if (3 <? length (elems dns))%nat then ret (DNSStatus TOO_MANY_VALUES)
  else
    let nameservers := sort_Strings <$> dns in
    if bool_decide (elems nameservers = sort_Strings (elems (ac_DNS ac))) then ret (SetError ALREADY_SET)
    else if negb (forallb (fun a => bool_decide (is_Some (ParseAddr a))) (elems nameservers))
    then ret (DNSStatus INVALID_DNS_ADDRESS)
    else
      let tpl := ac_ThreatProtectionLite ac && is_nil nameservers in
      let! ep := gets rpc_endpoint in
      let! configured := env_get ns_servers in
      let v6 := match endpoint_Network ep with Ok subnet => addr_Is6 (pfx_addr subnet) | Err _ => false end in
      let effective := match nameservers with
                       | Some l => l
                       | None => NameServers_Get configured tpl v6
                       end in
      netw_or (SetError FAILURE) (NwSetDNS effective)
        (save_or (SetError CONFIG_ERROR)
           (set_ac (fun a => a <| ac_ThreatProtectionLite := tpl |> <| ac_DNS := nameservers |>))
           (ret (DNSStatus (if Bool.eqb tpl (ac_ThreatProtectionLite ac) then DNS_CONFIGURED
                            else DNS_CONFIGURED_TPL_RESET)))).

Definition SetThreatProtectionLite (enabled : bool) : D Reply :=
  let! cfg := LoadLogged in
  let ac := cfg_AutoConnectData cfg in
  if Bool.eqb (ac_ThreatProtectionLite ac) enabled then ret (SetError ALREADY_SET)
  else
    let! configured := env_get ns_servers in
    netw_or (SetError CONFIG_ERROR) (NwSetDNS (NameServers_Get configured enabled (cfg_IPv6 cfg)))
      (save_or (SetError CONFIG_ERROR)
         (set_ac (fun a => a <| ac_ThreatProtectionLite := enabled |> <| ac_DNS := None |>))
         (ret (ThreatProtectionLiteStatus
                 (if negb (is_nil (ac_DNS ac)) && enabled then TPL_CONFIGURED_DNS_RESET else TPL_CONFIGURED)))).

(** *** LAN discovery *)

(** The subnets that stay: those that parse and are not private. *)
Definition public_subnets (subnets : Subnets) : Subnets :=
  (fun _ => true) <$>
    filter (fun kv => (match ParsePrefix kv.1 with None => false | Some p => negb (is_private p) end) = true) subnets.

Definition SetLANDiscovery (enabled : bool) : D Reply :=
  let! l := attempt Load in
  match l with
  | Err _ => ret (SetError CONFIG_ERROR)
  | Ok cfg =>
      if Bool.eqb (cfg_LanDiscovery cfg) enabled then ret (SetError ALREADY_SET)
      else
        let allowlist := ac_Allowlist (cfg_AutoConnectData cfg) in
        let subnets := if enabled then public_subnets (al_Subnets allowlist) else al_Subnets allowlist in
        let reset := enabled && existsb (fun kv => containsPrivateNetwork kv.1) (map_to_list (al_Subnets allowlist)) in
        ignore (nw (NwSetLanDiscovery enabled)) ;;
        netw_or (SetError FAILURE) (NwSetAllowlist (allowlist <| al_Subnets := subnets |>))
          (save_or (SetError CONFIG_ERROR)
             (fun c => set_ac (fun a => a <| ac_Allowlist := (ac_Allowlist a) <| al_Subnets := subnets |> |>)
                         (c <| cfg_LanDiscovery := enabled |>))
             (ret (LANDiscoveryStatus
                     (if reset then DISCOVERY_CONFIGURED_ALLOWLIST_RESET else DISCOVERY_CONFIGURED))))
  end.

(** *** Users *)

Definition users (c : Config) : UsersData := default (mkUsersData ∅ ∅ ∅) (cfg_UsersData c).
Definition set_off (uid : Z) (off : bool) (m : gmap Z bool) : gmap Z bool :=
  if off then <[uid := true]> m else delete uid m.

Definition enabled_text (b : bool) : string := if b then "enabled" else "disabled".

Definition SetNotify (uid : Z) (notify : bool) : D Reply :=
  let! cfg := LoadLogged in
  let notifyStatus := negb (map_get (ud_NotifyOff (users cfg)) uid) in
  if Bool.eqb notify notifyStatus
  then ret (Answer (mkPayload CodeNothingToDo [enabled_text notifyStatus]))
  else
    save_or (answer CodeConfigError)
      (fun c => c <| cfg_UsersData :=
         Some ((users c) <| ud_NotifyOff := set_off uid (negb notify) (ud_NotifyOff (users c)) |>) |>)
      (ret (answer CodeSuccess)).

(** [uint32(uid)]. *)
Definition SetTray (uid : Z) (tray : bool) : D Reply :=
  let! cfg := LoadLogged in
  let trayStatus := negb (map_get (ud_TrayOff (users cfg)) uid) in
  if Bool.eqb tray trayStatus
  then ret (Answer (mkPayload CodeNothingToDo [enabled_text trayStatus]))
  else
    save_or (answer CodeConfigError)
      (fun c => c <| cfg_UsersData :=
         Some ((users c) <| ud_TrayOff := set_off uid (negb tray) (ud_TrayOff (users c)) |>) |>)
      (ignore (on_env (norduser_Restart (uid mod 2 ^ 32))) ;;
       ret (answer CodeSuccess)).

(** *** Autoconnect *)

(** A panic, an error code, an error, or the parameters of the server found. *)
Definition autoconnect_parameters (cfg : Config) (serverTag : string) : D (Reply + ServerParameters) :=
  if bool_decide (serverTag = "") then ret (inr (mkServerParameters "" "" 0))
  else
    let! r := attempt (selectServer cfg serverTag "") in
    match r with
    | Err err => match errors_As_code err with Some c => ret (inl (answer c)) | None => throw err end
    | Ok (Panicked m) => ret (inl (DaemonPanic m))
    | Ok (Returned _) =>
        let! countries := env_get dm_Countries in
        ret (inr (GetServerParameters serverTag serverTag countries))
    end.

Definition save_autoconnect (cfg : Config) (serverTag : string) (p : ServerParameters) (c : Config) : Config :=
  let ac := cfg_AutoConnectData cfg in
  c <| cfg_AutoConnect := true |>
    <| cfg_AutoConnectData :=
         mkAutoConnectData (ac_ID ac) serverTag (spa_Country p) (spa_City p) (spa_Group p) (ac_Protocol ac)
           (ac_ThreatProtectionLite ac) (ac_Obfuscate ac) (ac_DNS ac) (ac_Allowlist ac) (ac_PostquantumVpn ac) |>.

Definition SetAutoConnect (enabled : bool) (serverTag : string) : D Reply :=
  let! loggedIn := on_store IsLoggedIn in
  if negb loggedIn then throw (Sentinel ErrNotLoggedIn)
  else
    let! cfg := LoadLogged in
    let! servers := env_get dm_Servers in
    if negb (cfg_AutoConnect cfg) && negb enabled then ret (answer CodeNothingToDo)
    else if negb enabled then
      save_or (answer CodeConfigError) (fun c => c <| cfg_AutoConnect := false |>) (ret (answer CodeSuccess))
    else match obfuscation_conflict servers serverTag (ac_Obfuscate (cfg_AutoConnectData cfg)) with
    | Some c => ret (answer c)
    | None =>
        let! p := autoconnect_parameters cfg serverTag in
        match p with
        | inl reply => ret reply
        | inr p =>
            save_or (answer CodeConfigError) (save_autoconnect cfg serverTag p) (ret (answer CodeSuccess))
        end
    end.

(** *** Defaults *)

Definition Reset : D unit :=
  let! machineID := on_env cm_reset in
  modify (fun r => r <| rpc_store := (rpc_store r) <| so_cfg := newConfig machineID |> |>).

Definition SetDefaults : D Reply :=
  let! l := attempt Load in
  if negb (is_ok l) then ret (answer CodeFailure)
  else
    netw_or (answer CodeFailure) NwStop
      (ignore (nw NwUnSetMesh) ;;
       ignore (on_env nc_Stop) ;;
       let! dev := gets rpc_devEnv in
       when dev (ignore (on_env (nc_Revoke true))) ;;
       let! r := attempt Reset in
       if negb (is_ok r) then ret (answer CodeConfigError)
       else
         let! cfg := LoadLogged in
         let! v := attempt (on_env (factory (cfg_Technology cfg))) in
         match v with
         | Err _ => ret (answer CodeConfigError)
         | Ok v =>
             ignore (nw (NwSetVPN v)) ;;
             ret (answer CodeSuccess)
         end).

(** *** Reading the settings *)

(** [Settings] fills in the autoconnect parameters older versions did not save,
    and answers the configuration it read. *)
Definition Settings : D Config :=
  let! cfg := LoadLogged in
  let ac := cfg_AutoConnectData cfg in
  let! countries := env_get dm_Countries in
  if cfg_AutoConnect cfg && negb (bool_decide (ac_ServerTag ac = "")) && bool_decide (ac_Country ac = "") &&
     bool_decide (ac_City ac = "") && (ac_Group ac =? UNDEFINED)
  then
    let p := GetServerParameters (ac_ServerTag ac) (ac_ServerTag ac) countries in
    let fill := set_ac (fun a => a <| ac_Country := spa_Country p |> <| ac_City := spa_City p |>
                                   <| ac_Group := spa_Group p |>) in
    ignore (SaveWith fill) ;;
    ret (fill cfg)
  else ret cfg.
End Settings.

(** ** Requests as data *)

Inductive Request : Type :=
| RConnect (tag group : string)
| RDisconnect
| RLoginWithToken (token : string)
| RLoginOAuth2Callback (data : string)
| RLogout (persistToken : bool)
| RSetAllowlist (req : AllowlistRequest)
| RUnsetAllowlist (req : AllowlistRequest)
| RUnsetAllAllowlist
| RSetAnalytics (enabled : bool)
| RSetAutoConnect (enabled : bool) (tag : string)
| RSetDefaults
| RSetDNS (dns : slice string)
| RSetFirewall (enabled : bool)
| RSetFirewallMark (value : Z)
| RSetIpv6 (enabled : bool)
| RSetKillSwitch (enabled : bool) (allowlist : Allowlist)
| RSetLANDiscovery (enabled : bool)
| RSetNotify (uid : Z) (notify : bool)
| RSetObfuscate (enabled : bool)
| RSetPostQuantum (enabled : bool)
| RSetProtocol (protocol : Z)
| RSetRouting (enabled : bool)
| RSetTechnology (technology : Technology)
| RSetThreatProtectionLite (enabled : bool)
| RSetTray (uid : Z) (tray : bool)
| RSetVirtualLocation (enabled : bool)
| RSettings
| RStartKillSwitch.

Definition discard {S A} (m : M S A) : M S unit := let! _ := m in ret tt.

Definition serve {Nt E} `{DaemonNetworker Nt} `{DaemonEnv E} (q : Request) : M (RPC Nt E) unit :=
  match q with
  | RConnect tag group => discard (Connect tag group)
  | RDisconnect => discard Disconnect
  | RLoginWithToken token => discard (LoginWithToken token)
  | RLoginOAuth2Callback data => LoginOAuth2Callback data
  | RLogout persist => discard (Logout persist)
  | RSetAllowlist req => discard (SetAllowlist req)
  | RUnsetAllowlist req => discard (UnsetAllowlist req)
  | RUnsetAllAllowlist => discard UnsetAllAllowlist
  | RSetAnalytics b => discard (SetAnalytics b)
  | RSetAutoConnect b tag => discard (SetAutoConnect b tag)
  | RSetDefaults => discard SetDefaults
  | RSetDNS dns => discard (SetDNS dns)
  | RSetFirewall b => discard (SetFirewall b)
  | RSetFirewallMark v => discard (SetFirewallMark v)
  | RSetIpv6 b => discard (SetIpv6 b)
  | RSetKillSwitch b allowlist => discard (SetKillSwitch b allowlist)
  | RSetLANDiscovery b => discard (SetLANDiscovery b)
  | RSetNotify uid b => discard (SetNotify uid b)
  | RSetObfuscate b => discard (SetObfuscate b)
  | RSetPostQuantum b => discard (SetPostQuantum b)
  | RSetProtocol p => discard (SetProtocol p)
  | RSetRouting b => discard (SetRouting b)
  | RSetTechnology t => discard (SetTechnology t)
  | RSetThreatProtectionLite b => discard (SetThreatProtectionLite b)
  | RSetTray uid b => discard (SetTray uid b)
  | RSetVirtualLocation b => discard (SetVirtualLocation b)
  | RSettings => discard Settings
  | RStartKillSwitch => StartKillSwitch
  end.
