(* ===== verification/DaemonSafety.v ===== *)
(** * DaemonSafety: what the requests of the daemon keep

    Lemmas shared by the theorems about the daemon: requests seen as steps of the
    saved configuration and of the networker.  [leads I c m]: started with the
    configuration [c] on disk, [m] ends with one that satisfies [I]. *)

From stdpp Require Import base option list strings gmap sorting.
From Stdlib Require Import ZArith Lia.
From S2P Require Import Prelude GoLib Api Mesh Config Firewall Networker Auth Servers Daemon Settings.
Set Warnings "-clear-no-such-hyp".

Open Scope Z_scope.
Open Scope go_scope.

(** ** The configuration *)

Section Cfg.
Context {Nt E : Type} `{DaemonNetworker Nt} `{DaemonEnv E}.
#[local] Abbreviation D := (M (RPC Nt E)).
Implicit Types r : RPC Nt E.

(** [m] leaves the saved configuration alone. *)
Definition frames {A} (m : D A) : Prop := forall r, rpc_cfg (m r).2 = rpc_cfg r.

Lemma frames_ret {A} (a : A) : frames (ret a).
Proof. done. Qed.
Lemma frames_throw {A} e : frames (throw (A := A) e).
Proof. done. Qed.
Lemma frames_gets {A} (f : RPC Nt E -> A) : frames (gets f).
Proof. done. Qed.
Lemma frames_bind {A B} (m : D A) (k : A -> D B) : frames m -> (forall a, frames (k a)) -> frames (bind m k).
Proof.
  intros Hm Hk r. unfold bind. specialize (Hm r). destruct (m r) as [[a|e] r']; [|done].
  by rewrite (Hk a r').
Qed.
Lemma frames_attempt {A} (m : D A) : frames m -> frames (attempt m).
Proof. intros Hm r. unfold attempt. specialize (Hm r). by destruct (m r). Qed.
Lemma frames_ignore {A} (m : D A) : frames m -> frames (ignore m).
Proof. intros Hm r. apply Hm. Qed.
Lemma frames_wrapped {A} pre (m : D A) post : frames m -> frames (wrapped pre m post).
Proof. intros Hm r. unfold wrapped. specialize (Hm r). by destruct (m r) as [[a|e] r']. Qed.
Lemma frames_when b (m : D unit) : frames m -> frames (when b m).
Proof. intros Hm. by destruct b. Qed.
Lemma frames_netw {A} (m : M Nt A) : frames (on_netw m).
Proof. intros r. unfold on_netw, zoom. by destruct (m (rpc_netw r)). Qed.
Lemma frames_nw o : frames (nw o).
Proof. apply frames_netw. Qed.
Lemma frames_env {A} (m : M E A) : frames (on_env m).
Proof.
  intros r. unfold on_env, on_store, in_env, zoom. by destruct (m (so_env (rpc_store r))).
Qed.
Lemma frames_ask {A} (f : E -> A * E) : frames (on_store (ask f)).
Proof. intros r. unfold on_store, ask, zoom. by destruct (f (so_env (rpc_store r))). Qed.
Lemma frames_env_get {A} (f : E -> A) : frames (env_get f).
Proof. done. Qed.
Lemma frames_set (f : RPC Nt E -> RPC Nt E) : (forall r, rpc_store (f r) = rpc_store r) -> frames (modify f).
Proof. intros Hf r. unfold rpc_cfg. cbn. by rewrite Hf. Qed.

(** [leads I c m]: from configuration [c] to one that satisfies [I]. *)
Definition leads {A} (I : Config -> Prop) (c : Config) (m : D A) : Prop :=
  forall r, rpc_cfg r = c -> I (rpc_cfg (m r).2).

Context (I : Config -> Prop).

Lemma leads_ret {A} c (a : A) : I c -> leads I c (ret a).
Proof. by intros Hc r <-. Qed.
Lemma leads_throw {A} c e : I c -> leads I c (throw (A := A) e).
Proof. by intros Hc r <-. Qed.
Lemma leads_frames {A} c (m : D A) : I c -> frames m -> leads I c m.
Proof. intros Hc Hm r <-. by rewrite (Hm r). Qed.

Lemma leads_bind {A B} c (m : D A) (k : A -> D B) :
  I c -> frames m -> (forall a, leads I c (k a)) -> leads I c (bind m k).
Proof.
  intros Hc Hm Hk r Hr. unfold bind. specialize (Hm r). destruct (m r) as [[a|e] r']; cbn in *.
  - apply Hk. congruence.
  - congruence.
Qed.

Lemma leads_save c f : I c -> I (f c) -> leads I c (SaveWith f).
Proof.
  intros Hc Hf r <-. unfold SaveWith, on_store, zoom, cm_SaveWith, bind, ask.
  destruct (cm_save (so_env (rpc_store r))) as [[e|] e']; done.
Qed.

(** A step that may save, followed by steps that do not. *)
Lemma leads_then {A B} c (m : D A) (k : A -> D B) :
  leads I c m -> (forall a, frames (k a)) -> leads I c (bind m k).
Proof.
  intros Hm Hk r Hr. unfold bind. specialize (Hm r Hr). destruct (m r) as [[a|e] r']; [|done].
  cbn. by rewrite (Hk a r').
Qed.

Lemma leads_attempt {A} c (m : D A) : leads I c m -> leads I c (attempt m).
Proof. intros Hm r Hr. specialize (Hm r Hr). unfold attempt. by destruct (m r). Qed.

Lemma leads_save_or {A} c (failed : A) f k :
  I c -> I (f c) -> frames k -> leads I c (save_or failed f k).
Proof.
  intros Hc Hf Hk. unfold save_or. apply leads_then; [by apply leads_attempt, leads_save|].
  intros a. by destruct (is_ok a).
Qed.

Lemma leads_netw_or {A} c (failed : A) o k : I c -> leads I c k -> leads I c (netw_or failed o k).
Proof.
  intros Hc Hk. unfold netw_or. apply leads_bind; [done|apply frames_attempt, frames_nw|].
  intros a. destruct (is_ok a); [done|by apply leads_ret].
Qed.

Lemma leads_when c b (m : D unit) : I c -> leads I c m -> leads I c (when b m).
Proof. intros Hc Hm. destruct b; [done|by apply leads_ret]. Qed.

(** [m] preserves [I] when it does from every configuration that satisfies it. *)
Lemma preserves_leads {A} (m : D A) :
  (forall c, I c -> leads I c m) -> preserves (fun r => I (rpc_cfg r)) m.
Proof. intros Hm r Hr. by apply (Hm (rpc_cfg r)). Qed.

(** Loading succeeds: the code works on the configuration on disk. *)
Definition loads : Prop := forall e : E, (cm_load e).1 = None.

Lemma on_store_frame {A} (m : M (Store E) A) :
  (forall s, so_cfg (m s).2 = so_cfg s) -> frames (on_store m).
Proof. intros Hm r. unfold on_store, zoom, rpc_cfg. specialize (Hm (rpc_store r)). by destruct (m (rpc_store r)). Qed.

Lemma frames_Load : frames Load.
Proof.
  apply on_store_frame. intros s. unfold cm_Load, bind, ask.
  by destruct (cm_load (so_env s)) as [[[? ?]|] e].
Qed.
Lemma frames_LoadLogged : frames LoadLogged.
Proof.
  apply on_store_frame. intros s. unfold cm_LoadLogged, bind, ask.
  by destruct (cm_load (so_env s)) as [[[? ?]|] e].
Qed.

Lemma leads_LoadLogged {B} c (k : Config -> D B) :
  loads -> leads I c (k c) -> leads I c (bind LoadLogged k).
Proof.
  intros Hl Hk r Hr. unfold bind, LoadLogged, on_store, zoom, cm_LoadLogged, bind, ask.
  specialize (Hl (so_env (rpc_store r))).
  destruct (cm_load (so_env (rpc_store r))) as [o e]. cbn in Hl. subst o. cbn.
  unfold rpc_cfg in Hr. rewrite Hr. by apply Hk.
Qed.

Lemma leads_Load {B} c (k : result Config -> D B) :
  I c -> (forall e, leads I c (k (Err e))) -> leads I c (k (Ok c)) -> leads I c (bind (attempt Load) k).
Proof.
  intros Hc He Hk r Hr. unfold bind, attempt, Load, on_store, zoom, cm_Load, bind, ask.
  destruct (cm_load (so_env (rpc_store r))) as [[[err c']|] e]; cbn.
  - by apply He.
  - unfold rpc_cfg in Hr. rewrite Hr. by apply Hk.
Qed.
End Cfg.

Create HintDb frames discriminated.
#[export] Hint Resolve frames_ret frames_throw frames_gets frames_netw frames_nw frames_env frames_ask
  frames_env_get frames_Load frames_LoadLogged : frames.

Ltac frames_step :=
  match goal with
  | |- frames (bind _ _) => apply frames_bind
  | |- frames (attempt _) => apply frames_attempt
  | |- frames (ignore _) => apply frames_ignore
  | |- frames (wrapped _ _ _) => apply frames_wrapped
  | |- frames (when _ _) => apply frames_when
  | |- frames (modify _) => apply frames_set; intros; reflexivity
  | |- frames (match ?x with _ => _ end) => destruct x eqn:?
  | |- forall _, _ => intros ?
  end.
Ltac frames_auto := repeat (solve [eauto with frames nocore] || frames_step).

(** ** The checker only touches tokens *)

Section Tokens.
Context {Nt E : Type} `{DaemonNetworker Nt} `{DaemonEnv E}.

(** [I] is about everything but the tokens. *)
Definition token_blind (I : Config -> Prop) : Prop :=
  forall c t, I c <-> I (c <| cfg_TokensData := t |>).

Context (I : Config -> Prop) (HI : token_blind I).

Lemma blind_update uid f c : I c -> I (update_token uid f c).
Proof. intros Hc. by apply HI. Qed.
Lemma blind_Logout uid c : I c -> I (Config.Logout uid c).
Proof. intros Hc. by apply HI. Qed.

#[local] Abbreviation inv := (fun s : Store E => I (so_cfg s)).

Lemma blind_ask {A} (f : E -> A * E) : preserves inv (ask f).
Proof. intros s Hs. unfold ask. by destruct (f (so_env s)). Qed.
Lemma blind_env {A} (m : M E A) : preserves inv (in_env m).
Proof. apply preserves_zoom_frame. by intros e s Hs. Qed.
Lemma blind_save f : (forall c, I c -> I (f c)) -> preserves inv (cm_SaveWith f).
Proof.
  intros Hf. unfold cm_SaveWith. apply preserves_bind; [apply blind_ask|].
  intros [?|]; [apply preserves_throw|]. apply preserves_modify. intros s. apply Hf.
Qed.
Lemma blind_load : preserves inv cm_Load.
Proof.
  unfold cm_Load. apply preserves_bind; [apply blind_ask|]. intros [[? ?]|]; [apply preserves_throw|apply preserves_gets].
Qed.
#[local] Hint Resolve blind_ask blind_env blind_load : pres.

Lemma blind_save_token uid f : preserves inv (cm_SaveWith (update_token uid f)).
Proof. apply blind_save. intros c. apply blind_update. Qed.
Lemma blind_save_logout uid : preserves inv (cm_SaveWith (Config.Logout uid)).
Proof. apply blind_save. intros c. apply blind_Logout. Qed.
#[local] Hint Resolve blind_save_token blind_save_logout : pres.

Lemma blind_isExpired t : preserves inv (isExpired t).
Proof. unfold isExpired. pres_auto. Qed.
#[local] Hint Resolve blind_isExpired : pres.

Lemma blind_renew uid data : preserves inv (renew uid data).
Proof.
  unfold renew, renew_expired, renew_trusted_pass, renew_refused, renewLoginToken, renewNCCredentials,
    renewTrustedPassToken, renewVpnCredentials, saveLoginToken, saveVpnServerCredentials. pres_auto.
Qed.

Lemma blind_renew_all l : preserves inv (renew_all l).
Proof.
  induction l as [|[uid data] l IH]; cbn [renew_all]; [apply preserves_ret|].
  apply preserves_bind; [apply preserves_attempt, blind_renew|]. intros r.
  apply preserves_bind; [done|]. intros; apply preserves_ret.
Qed.
#[local] Hint Resolve blind_renew_all : pres.

Lemma blind_IsLoggedIn : preserves inv IsLoggedIn.
Proof. unfold IsLoggedIn. pres_auto. Qed.

Lemma blind_IsVPNExpired : preserves inv IsVPNExpired.
Proof. unfold IsVPNExpired, fetchSaveServices, saveVpnExpirationDate. pres_auto. Qed.

Lemma blind_isMFAEnabled : preserves inv isMFAEnabled.
Proof. unfold isMFAEnabled. pres_auto. Qed.

Lemma blind_dedicated l : preserves inv (dedicated_services l).
Proof.
  induction l as [|x l IH]; cbn [dedicated_services]; [apply preserves_ret|].
  apply preserves_bind; [case_match; [apply blind_isExpired|apply preserves_ret]|]. intros ex.
  apply preserves_bind; [done|]. intros; apply preserves_ret.
Qed.

Lemma blind_GetDedicatedIPServices : preserves inv GetDedicatedIPServices.
Proof.
  unfold GetDedicatedIPServices, fetchServices. apply preserves_bind; [pres_auto|]. apply blind_dedicated.
Qed.
End Tokens.

Section Requests.
Context {Nt E : Type} `{DaemonNetworker Nt} `{DaemonEnv E}.
#[local] Abbreviation D := (M (RPC Nt E)).

Section Blind.
Context (I : Config -> Prop) (HI : token_blind I).
#[local] Abbreviation inv := (fun r : RPC Nt E => I (rpc_cfg r)).

Lemma inv_store {A} (m : M (Store E) A) :
  preserves (fun s => I (so_cfg s)) m -> preserves inv (on_store m).
Proof.
  intros Hm r Hr. unfold on_store, zoom, rpc_cfg. specialize (Hm (rpc_store r) Hr).
  by destruct (m (rpc_store r)).
Qed.

Lemma inv_frames {A} (m : D A) : frames m -> preserves inv m.
Proof. intros Hm r Hr. by rewrite (Hm r). Qed.

Lemma inv_SaveWith f : (forall c, I c -> I (f c)) -> preserves inv (SaveWith f).
Proof. intros Hf. by apply inv_store, blind_save. Qed.

Lemma inv_IsLoggedIn : preserves inv (on_store IsLoggedIn).
Proof. by apply inv_store, blind_IsLoggedIn. Qed.
Lemma inv_IsVPNExpired : preserves inv (on_store IsVPNExpired).
Proof. by apply inv_store, blind_IsVPNExpired. Qed.
Lemma inv_isMFAEnabled : preserves inv (on_store isMFAEnabled).
Proof. by apply inv_store, blind_isMFAEnabled. Qed.
Lemma inv_dedicated : preserves inv (on_store GetDedicatedIPServices).
Proof. by apply inv_store, blind_GetDedicatedIPServices. Qed.
Lemma inv_save_logout uid : preserves inv (SaveWith (Config.Logout uid)).
Proof. apply inv_SaveWith. intros c. by apply blind_Logout. Qed.
Lemma inv_env {A} (m : M E A) : preserves inv (on_env m).
Proof. apply inv_frames, frames_env. Qed.
Lemma inv_nw o : preserves inv (nw o).
Proof. apply inv_frames, frames_nw. Qed.
Lemma inv_env_get {A} (f : E -> A) : preserves inv (env_get f).
Proof. by apply inv_frames. Qed.
Lemma inv_Load : preserves inv Load.
Proof. apply inv_frames, frames_Load. Qed.
Lemma inv_LoadLogged : preserves inv LoadLogged.
Proof. apply inv_frames, frames_LoadLogged. Qed.
Lemma inv_IsVPNActive : preserves inv IsVPNActive.
Proof. apply inv_frames, frames_netw. Qed.
#[local] Hint Resolve inv_IsLoggedIn inv_IsVPNExpired inv_isMFAEnabled inv_dedicated inv_save_logout inv_env
  inv_nw inv_env_get inv_Load inv_LoadLogged inv_IsVPNActive : pres.

Lemma inv_selectServer cfg tag flag : preserves inv (selectServer cfg tag flag).
Proof.
  unfold selectServer, pick_error, selectDedicatedIPServer, check_dedicated, dedicatedIPServices.
  repeat (solve [eauto with pres nocore] || pres_step).
Qed.
#[local] Hint Resolve inv_selectServer : pres.

Lemma frames_resolve all ips : frames (Nt := Nt) (E := E) (resolve_v6 all ips).
Proof. induction ips as [|ip ips IH]; cbn [resolve_v6]; frames_auto; done. Qed.

Lemma frames_connect_to cfg server : frames (Nt := Nt) (E := E) (connect_to cfg server).
Proof.
  unfold connect_to, set_endpoint, connection_nameservers, DefaultEndpoint.
  frames_auto; apply frames_resolve.
Qed.

Lemma inv_Connect tag group : preserves inv (Connect tag group).
Proof.
  unfold Connect, connect.
  repeat (solve [eauto with pres nocore] || (apply inv_frames, frames_connect_to) || pres_step);
    by apply preserves_modify.
Qed.

Lemma inv_Disconnect : preserves inv Disconnect.
Proof. unfold Disconnect. pres_auto. Qed.

Lemma inv_autoconnect_parameters cfg tag : preserves inv (autoconnect_parameters cfg tag).
Proof. unfold autoconnect_parameters. pres_auto. Qed.

Lemma inv_StartKillSwitch : preserves inv StartKillSwitch.
Proof. unfold StartKillSwitch. pres_auto. Qed.

Lemma inv_Login resp : (forall resp cr b c, I c -> I (save_login resp cr b c)) -> preserves inv (loginCommon resp).
Proof.
  intros Hlogin. unfold loginCommon.
  repeat (solve [eauto with pres nocore] || (apply inv_SaveWith, Hlogin) || pres_step).
Qed.

Lemma inv_Callback data :
  (forall resp cr b c, I c -> I (save_login resp cr b c)) -> preserves inv (LoginOAuth2Callback data).
Proof.
  intros Hlogin. unfold LoginOAuth2Callback.
  repeat (solve [eauto with pres nocore] || (apply inv_SaveWith, Hlogin) || pres_step).
Qed.

Lemma inv_Logout persist : (forall c, I c -> I (save_logout c)) -> preserves inv (Logout persist).
Proof.
  intros Hlogout. unfold Logout, revoke_token, api_logout, finish_logout.
  repeat (solve [eauto with pres nocore] || (apply inv_SaveWith, Hlogout) || pres_step).
Qed.
End Blind.
End Requests.

(** ** The networker

    What every method but [UnsetKillSwitch] keeps, every request but the one that
    turns the kill switch off keeps; and without the request that turns the
    firewall off, [DisableFirewall] need not be kept either. *)

Definition turns_off (q : Request) : bool :=
  match q with RSetKillSwitch false _ => true | _ => false end.

Definition firewall_off (q : Request) : bool :=
  match q with RSetFirewall false => true | _ => false end.

(** The methods called, with or without [DisableFirewall]. *)
Definition called (fwoff : bool) (o : NwOp) : Prop :=
  o <> NwUnsetKillSwitch /\ (fwoff = false -> o <> NwDisableFirewall).

Section Networker.
Context {Nt E : Type} `{DaemonNetworker Nt} `{DaemonEnv E}.
Context (P : Nt -> Prop) (fwoff : bool).
Context (Hop : forall o, called fwoff o -> preserves P (netw_do o)).
Context (Hactive : preserves P netw_IsVPNActive).
#[local] Abbreviation inv := (fun r : RPC Nt E => P (rpc_netw r)).

Lemma nwi_store {A} (m : M (Store E) A) : preserves inv (on_store m).
Proof. apply preserves_zoom_frame. by intros t r Hr. Qed.
Lemma nwi_env {A} (m : M E A) : preserves inv (on_env m).
Proof. apply nwi_store. Qed.
Lemma nwi_netw {A} (m : M Nt A) : preserves P m -> preserves inv (on_netw m).
Proof.
  intros Hm r Hr. unfold on_netw, zoom. specialize (Hm (rpc_netw r) Hr). by destruct (m (rpc_netw r)).
Qed.
Lemma nwi_nw o : called fwoff o -> preserves inv (nw o).
Proof. intros Ho. by apply nwi_netw, Hop. Qed.
Lemma nwi_IsVPNActive : preserves inv IsVPNActive.
Proof. by apply nwi_netw. Qed.
Lemma nwi_env_get {A} (f : E -> A) : preserves inv (env_get f).
Proof. apply preserves_gets. Qed.
Lemma nwi_Load : preserves inv Load.
Proof. apply nwi_store. Qed.
Lemma nwi_LoadLogged : preserves inv LoadLogged.
Proof. apply nwi_store. Qed.
Lemma nwi_SaveWith f : preserves inv (SaveWith f).
Proof. apply nwi_store. Qed.
Lemma nwi_Reset : preserves inv Reset.
Proof. unfold Reset. apply preserves_bind; [apply nwi_env|]. intros id. by apply preserves_modify. Qed.
#[local] Hint Resolve nwi_store nwi_env nwi_IsVPNActive nwi_env_get nwi_Load nwi_LoadLogged nwi_SaveWith
  nwi_Reset : pres.

Ltac is_called := split; [congruence|intros ?; congruence].
Ltac nwi_auto :=
  repeat (solve [eauto with pres nocore] || (apply nwi_nw; is_called) || (by apply preserves_modify) || pres_step).

Lemma nwi_save_or {A} (failed : A) f k : preserves inv k -> preserves inv (save_or failed f k).
Proof. intros Hk. unfold save_or. nwi_auto; done. Qed.
Lemma nwi_netw_or {A} (failed : A) o k : called fwoff o -> preserves inv k -> preserves inv (netw_or failed o k).
Proof. intros Ho Hk. unfold netw_or. apply preserves_bind; [by apply preserves_attempt, nwi_nw|]. intros a. case_match; [done|apply preserves_ret]. Qed.

Lemma nwi_resolve all ips : preserves inv (resolve_v6 all ips).
Proof. induction ips; cbn [resolve_v6]; nwi_auto; done. Qed.
#[local] Hint Resolve nwi_resolve : pres.

Lemma nwi_selectServer cfg tag flag : preserves inv (selectServer cfg tag flag).
Proof.
  unfold selectServer, pick_error, selectDedicatedIPServer, check_dedicated, dedicatedIPServices. nwi_auto.
Qed.
#[local] Hint Resolve nwi_selectServer : pres.

Lemma nwi_Connect tag group : preserves inv (Connect tag group).
Proof.
  unfold Connect, connect, connect_to, set_endpoint, connection_nameservers, DefaultEndpoint. nwi_auto.
Qed.

Lemma nwi_account :
  preserves inv Disconnect /\ (forall t, preserves inv (LoginWithToken t)) /\
  (forall d, preserves inv (LoginOAuth2Callback d)) /\ (forall b, preserves inv (Logout b)).
Proof.
  split_and!; intros;
    unfold Disconnect, LoginWithToken, loginCommon, LoginOAuth2Callback, Logout, revoke_token, api_logout,
      finish_logout; nwi_auto.
Qed.

Ltac nwi_setting :=
  repeat (solve [eauto with pres nocore] || (apply nwi_save_or) || (apply nwi_netw_or; [is_called|]) ||
          (apply nwi_nw; is_called) || pres_step || (cbv zeta)).

Lemma nwi_settings :
  (forall req b, preserves inv (change_allowlist req b)) /\ preserves inv UnsetAllAllowlist /\
  (forall b, preserves inv (SetAnalytics b)) /\ (forall b t, preserves inv (SetAutoConnect b t)) /\
  (forall d, preserves inv (SetDNS d)) /\ (forall b, fwoff || b = true -> preserves inv (SetFirewall b)) /\
  (forall b, preserves inv (SetLANDiscovery b)) /\ (forall b, preserves inv (SetRouting b)) /\
  (forall t, preserves inv (SetTechnology t)) /\ (forall b, preserves inv (SetThreatProtectionLite b)) /\
  preserves inv SetDefaults.
Proof.
  split_and!; intros.
  - unfold change_allowlist, getNewAllowlist, handleNewAllowlist. nwi_setting.
  - unfold UnsetAllAllowlist, handleNewAllowlist. nwi_setting.
  - unfold SetAnalytics. nwi_setting.
  - unfold SetAutoConnect, autoconnect_parameters. nwi_setting.
  - unfold SetDNS. nwi_setting.
  - unfold SetFirewall. destruct b; [nwi_setting|].
    assert (fwoff = true) by (by destruct fwoff). nwi_setting.
  - unfold SetLANDiscovery. nwi_setting.
  - unfold SetRouting. destruct b; nwi_setting.
  - unfold SetTechnology. nwi_setting.
  - unfold SetThreatProtectionLite. nwi_setting.
  - unfold SetDefaults. nwi_setting.
Qed.

Lemma nwi_plain :
  (forall v, preserves inv (SetFirewallMark v)) /\ (forall b, preserves inv (SetIpv6 b)) /\
  (forall uid b, preserves inv (SetNotify uid b)) /\ (forall b, preserves inv (SetObfuscate b)) /\
  (forall b, preserves inv (SetPostQuantum b)) /\ (forall p, preserves inv (SetProtocol p)) /\
  (forall uid b, preserves inv (SetTray uid b)) /\ (forall b, preserves inv (SetVirtualLocation b)) /\
  preserves inv Settings /\ preserves inv StartKillSwitch /\
  (forall a, preserves inv (SetKillSwitch true a)).
Proof.
  split_and!; intros;
    unfold SetFirewallMark, SetIpv6, SetNotify, SetObfuscate, SetPostQuantum, SetProtocol, SetTray,
      SetVirtualLocation, Settings, StartKillSwitch, SetKillSwitch; nwi_setting.
Qed.

Lemma nwi_discard {A} (m : M (RPC Nt E) A) : preserves inv m -> preserves inv (discard m).
Proof. intros Hm. apply preserves_bind; [done|]. intros _. apply preserves_ret. Qed.

Lemma nwi_serve q :
  turns_off q = false -> (fwoff = false -> firewall_off q = false) -> preserves inv (serve q).
Proof.
  destruct nwi_account as (? & ? & ? & ?).
  destruct nwi_settings as (? & ? & ? & ? & ? & ? & ? & ? & ? & ? & ?).
  destruct nwi_plain as (? & ? & ? & ? & ? & ? & ? & ? & ? & ? & ?).
  destruct q as [| | | | | | | | | | | | | | |[] ?| | | | | | | | | | | |]; cbn [serve turns_off firewall_off];
    intros Hq Hf; try done; try (apply nwi_discard); eauto using nwi_Connect.
  assert (fwoff || enabled = true) by (destruct enabled; [by rewrite orb_true_r|];
    destruct fwoff; [done|by specialize (Hf eq_refl)]). auto.
Qed.
End Networker.
