(* ===== verification/DaemonProps.v ===== *)
(** * DaemonProps: what the daemon guarantees about its settings

    The consistency of the saved configuration, the kill switch through every
    request, the ports accepted for the allowlist, the servers chosen for an
    account, and the ways in which configuration and networker drift apart. *)

From stdpp Require Import base option list strings gmap sorting.
From Stdlib Require Import ZArith Lia.
From S2P Require Import Prelude GoLib Api Mesh Config Firewall Networker NetworkerSafety.
From S2P Require Import Auth Servers Daemon Settings DaemonSafety.
Set Warnings "-clear-no-such-hyp".

Open Scope Z_scope.
Open Scope go_scope.

(** ** Consistent configurations *)

(** The dependencies between settings that the handlers check. *)
Record consistent (c : Config) : Prop := mkConsistent {
  con_ks : cfg_KillSwitch c = true -> cfg_Firewall c = true;
  con_pq : ac_PostquantumVpn (cfg_AutoConnectData c) = true ->
           cfg_Technology c = NORDLYNX /\ cfg_Mesh c = false;
  con_dns : ac_ThreatProtectionLite (cfg_AutoConnectData c) = true -> ac_DNS (cfg_AutoConnectData c) = None;
  con_lan : cfg_LanDiscovery c = true ->
            forall s, s ∈ dom (al_Subnets (ac_Allowlist (cfg_AutoConnectData c))) -> containsPrivateNetwork s = false;
  con_udp : cfg_Technology c = NORDLYNX -> ac_Protocol (cfg_AutoConnectData c) = Protocol_UDP;
  con_mesh : cfg_Mesh c = true -> TrueField_Get (cfg_Routing c) = true
}.

Lemma consistent_blind : token_blind consistent.
Proof. intros c t. split; intros [? ? ? ? ? ?]; by constructor. Qed.

Lemma consistent_new id : consistent (newConfig id).
Proof. constructor; done. Qed.

Lemma consistent_login resp cr b c : consistent c -> consistent (save_login resp cr b c).
Proof. intros [? ? ? ? ? ?]. by constructor. Qed.

Lemma consistent_logout c : consistent c -> consistent (save_logout c).
Proof.
  intros [? Hpq ? ? ? ?]. constructor; try done. intros Hq. by destruct (Hpq Hq).
Qed.

Section Consistency.
Context {Nt E : Type} `{DaemonNetworker Nt} `{DaemonEnv E}.
Context (Hloads : loads (E := E)).
#[local] Abbreviation inv := (fun r : RPC Nt E => consistent (rpc_cfg r)).

(** Follow a handler from a loaded configuration [c] to its saves. *)
Ltac leads_step :=
  match goal with
  | |- leads _ _ (bind LoadLogged _) => apply leads_LoadLogged; [exact Hloads|]
  | |- leads _ _ (bind (attempt Load) _) => apply leads_Load; [assumption|intros ?|]
  | |- leads _ _ (ret _) => apply leads_ret; assumption
  | |- leads _ _ (throw _) => apply leads_throw; assumption
  | |- leads _ _ (save_or _ _ _) => apply leads_save_or; [assumption| |solve [frames_auto]]
  | |- leads _ _ (netw_or _ _ _) => apply leads_netw_or; [assumption|]
  | |- leads _ _ (bind _ _) => apply leads_bind; [assumption|solve [frames_auto]|intros ?]
  | |- leads _ _ (match ?x with _ => _ end) => destruct x eqn:?
  | |- leads _ _ (let x := _ in _) => cbv zeta
  end.

(** Boolean guards as propositions. *)
Ltac guards :=
  repeat match goal with
  | H : Bool.eqb _ _ = false |- _ => apply eqb_false_iff in H
  | H : _ && _ = false |- _ => apply andb_false_iff in H
  | H : negb _ = true |- _ => apply negb_true_iff in H
  | H : negb _ = false |- _ => apply negb_false_iff in H
  | H : bool_decide _ = true |- _ => apply bool_decide_eq_true in H
  | H : bool_decide _ = false |- _ => apply bool_decide_eq_false in H
  end.

Ltac settle :=
  match goal with
  | Hc : consistent ?c |- consistent _ => destruct Hc as [Hks Hpq Hdns Hlan Hudp Hmesh]; constructor; cbn
  end; guards; try done; repeat match goal with b : bool |- _ => destruct b end;
  intuition (simplify_eq/=; congruence).

Lemma keeps_switches (b : bool) :
  preserves inv (SetAnalytics b) /\ preserves inv (SetFirewall b) /\ preserves inv (SetIpv6 b) /\
  preserves inv (SetRouting b) /\ preserves inv (SetVirtualLocation b) /\ preserves inv (SetPostQuantum b) /\
  preserves inv (SetObfuscate b) /\ preserves inv (SetThreatProtectionLite b).
Proof.
  split_and!; apply preserves_leads; intros c Hc.
  - unfold SetAnalytics. repeat leads_step; settle.
  - unfold SetFirewall. repeat leads_step; settle.
  - unfold SetIpv6. repeat leads_step; settle.
  - unfold SetRouting. repeat leads_step; settle.
  - unfold SetVirtualLocation. repeat leads_step; settle.
  - unfold SetPostQuantum. repeat leads_step; settle.
  - unfold SetObfuscate. repeat leads_step; settle.
  - unfold SetThreatProtectionLite. repeat leads_step; settle.
Qed.

Lemma keeps_plain :
  (forall v, preserves inv (SetFirewallMark v)) /\ (forall b a, preserves inv (SetKillSwitch b a)) /\
  (forall uid b, preserves inv (SetNotify uid b)) /\ (forall uid b, preserves inv (SetTray uid b)) /\
  (forall p, preserves inv (SetProtocol p)) /\ preserves inv Settings.
Proof.
  split_and!; intros; apply preserves_leads; intros c Hc.
  - unfold SetFirewallMark. repeat leads_step; settle.
  - unfold SetKillSwitch. repeat leads_step; settle.
  - unfold SetNotify. repeat leads_step; settle.
  - unfold SetTray. repeat leads_step; settle.
  - unfold SetProtocol. repeat leads_step; settle.
  - unfold Settings. apply leads_LoadLogged; [exact Hloads|]. cbv zeta.
    apply leads_bind; [done|frames_auto|]. intros countries. case_match; [|by apply leads_ret].
    apply leads_then; [|intros; apply frames_ret]. intros r Hr.
    apply (leads_save consistent c); [done| |done]. settle.
Qed.

Lemma keeps_technology t : preserves inv (SetTechnology t).
Proof.
  apply preserves_leads; intros c Hc. unfold SetTechnology. repeat leads_step.
  case_bool_decide; cbn in *; settle.
Qed.

Lemma keeps_dns dns : preserves inv (SetDNS dns).
Proof.
  apply preserves_leads; intros c Hc. unfold SetDNS. repeat leads_step.
  all: destruct Hc; constructor; cbn; try done; intros [_ Hn]%andb_true_iff; by destruct dns.
Qed.

(** The allowlist can change as long as LAN discovery keeps it public. *)
Lemma consistent_allowlist c a :
  consistent c ->
  (cfg_LanDiscovery c = true -> forall s, s ∈ dom (al_Subnets a) -> containsPrivateNetwork s = false) ->
  consistent (set_ac (fun ac => ac <| ac_Allowlist := a |>) c).
Proof. intros [? ? ? ? ? ?] Ha. by constructor. Qed.

Lemma leads_handle c a :
  consistent c ->
  (cfg_LanDiscovery c = true -> forall s, s ∈ dom (al_Subnets a) -> containsPrivateNetwork s = false) ->
  leads (Nt := Nt) (E := E) consistent c (handleNewAllowlist a).
Proof. intros Hc Ha. unfold handleNewAllowlist. repeat leads_step. by apply consistent_allowlist. Qed.

(** A new allowlist has no private subnet that LAN discovery forbids. *)
Lemma new_ports_subnets s e remove current update a a' :
  (forall ports, al_Subnets (update ports remove a) = al_Subnets a) ->
  new_ports s e remove current update a = Some (Ok a') -> al_Subnets a' = al_Subnets a.
Proof.
  intros Hu. unfold new_ports. destruct arePortsValid as [[?|]|]; [done| |done]. cbn.
  destruct getPortsInARange; [|done]. cbn. intros [= <-]. apply Hu.
Qed.

Lemma new_allowlist_public c req remove a :
  consistent c -> new_allowlist c req remove = Some (Ok a) ->
  cfg_LanDiscovery c = true -> forall s, s ∈ dom (al_Subnets a) -> containsPrivateNetwork s = false.
Proof.
  intros Hc Hn Hlan. destruct req as [subnet|isUdp isTcp st e].
  - injection Hn as Hn. unfold new_subnets in Hn. rewrite Hlan in Hn. cbn [andb] in Hn.
    destruct (containsPrivateNetwork subnet) eqn:Hp; [done|].
    destruct isSubnetValid; [done|]. injection Hn as <-. intros s Hs.
    destruct (decide (s = subnet)) as [->|Hne]; [done|]. apply (con_lan c Hc Hlan).
    unfold UpdateSubnets in Hs. cbn in Hs. destruct remove; set_solver.
  - cbn in Hn. assert (Hsub : al_Subnets a = al_Subnets (ac_Allowlist (cfg_AutoConnectData c))).
    { destruct isUdp.
      - destruct (new_ports st e remove (ports_UDP _) _ _) as [[a1|]|] eqn:H1; [|done..]. cbn in Hn.
        apply new_ports_subnets in H1; [|done]. rewrite <-H1. destruct isTcp; [|by injection Hn as <-].
        by eapply new_ports_subnets, Hn.
      - cbn in Hn. destruct isTcp; [|by injection Hn as <-]. by eapply new_ports_subnets, Hn. }
    rewrite Hsub. by apply Hc.
Qed.

Lemma keeps_allowlist req remove : preserves inv (change_allowlist req remove).
Proof.
  apply preserves_leads; intros c Hc. unfold change_allowlist, getNewAllowlist.
  intros r Hr. rewrite bind_assoc. revert r Hr.
  apply (leads_Load consistent c); [done|by intros e r <-|].
  change (leads (Nt := Nt) consistent c
    (match new_allowlist c req remove with
     | None => ret Hung
     | Some (Err e) => ret (answer (default CodeFailure (errors_As_code e)))
     | Some (Ok allowlist) => handleNewAllowlist allowlist
     end)).
  destruct (new_allowlist c req remove) as [[a|e]|] eqn:Hn; [|by apply leads_ret..].
  apply leads_handle; [done|]. by eapply new_allowlist_public.
Qed.

Lemma keeps_no_allowlist : preserves inv UnsetAllAllowlist.
Proof.
  apply preserves_leads; intros c Hc. apply leads_handle; [done|]. intros _ s Hs. cbn in Hs. set_solver.
Qed.

Lemma public_subnets_public m s : s ∈ dom (public_subnets m) -> containsPrivateNetwork s = false.
Proof.
  unfold public_subnets. rewrite dom_fmap. intros [v Hv]%elem_of_dom.
  apply map_lookup_filter_Some in Hv as [_ Hp]. cbn [fst] in Hp. unfold containsPrivateNetwork.
  destruct (ParsePrefix s); [by apply negb_true_iff|done].
Qed.

Lemma keeps_lan b : preserves inv (SetLANDiscovery b).
Proof.
  apply preserves_leads; intros c Hc. unfold SetLANDiscovery. repeat leads_step.
  destruct Hc as [? ? ? Hlan ? ?]; constructor; cbn; try done.
  intros -> s Hs. by eapply public_subnets_public.
Qed.

(** Autoconnect writes back what was loaded, whatever happened to the tokens
    meanwhile. *)
Lemma consistent_autoconnect c c' tag p :
  consistent c -> (exists t, c' = c <| cfg_TokensData := t |>) -> consistent (save_autoconnect c tag p c').
Proof. intros [? ? ? ? ? ?] [t ->]. by constructor. Qed.

Lemma keeps_autoconnect b tag : preserves inv (SetAutoConnect b tag).
Proof.
  unfold SetAutoConnect. apply preserves_bind; [apply inv_IsLoggedIn, consistent_blind|]. intros loggedIn.
  destruct (negb loggedIn); [apply preserves_throw|].
  apply preserves_leads. intros c Hc. apply leads_LoadLogged; [exact Hloads|].
  apply leads_bind; [done|frames_auto|]. intros servers.
  destruct (_ && _); [by apply leads_ret|]. destruct (negb b).
  { apply leads_save_or; [done| |frames_auto]. settle. }
  destruct obfuscation_conflict; [by apply leads_ret|].
  set (J := fun c' => exists t, c' = c <| cfg_TokensData := t |>).
  assert (HJ : token_blind J).
  { intros c' t. split; [intros [t0 ->]; by exists t|].
    intros [t0 Ht]. exists (cfg_TokensData c').
    apply (f_equal (fun x => x <| cfg_TokensData := cfg_TokensData c' |>)) in Ht.
    transitivity (c' <| cfg_TokensData := t |> <| cfg_TokensData := cfg_TokensData c' |>); [by destruct c'|exact Ht]. }
  intros r Hr. unfold bind at 1.
  pose proof (inv_autoconnect_parameters J HJ c tag r) as Hp.
  assert (J (rpc_cfg r)) as HJr by (rewrite Hr; exists (cfg_TokensData c); by destruct c).
  specialize (Hp HJr). destruct (autoconnect_parameters c tag r) as [[[reply|p]|e] r1]; cbn in Hp |- *.
  - destruct Hp as [t ->]. by apply consistent_blind.
  - assert (Hl : leads (Nt := Nt) (E := E) consistent (rpc_cfg r1)
      (save_or (answer CodeConfigError) (save_autoconnect c tag p) (ret (answer CodeSuccess)))).
    { apply leads_save_or; [|by apply consistent_autoconnect|frames_auto].
      destruct Hp as [t ->]. by apply consistent_blind. }
    by apply Hl.
  - destruct Hp as [t ->]. by apply consistent_blind.
Qed.

Lemma keeps_defaults : preserves inv SetDefaults.
Proof.
  unfold SetDefaults, netw_or.
  assert (Hreset : preserves inv Reset).
  { unfold Reset. apply preserves_bind; [apply inv_env|]. intros id.
    apply preserves_modify. intros r _. apply consistent_new. }
  repeat ((apply preserves_bind; [|intros ?]) || apply preserves_when || apply preserves_ret ||
          (apply preserves_attempt, Hreset) ||
          (apply inv_frames; solve [frames_auto]) || case_match).
Qed.

(** C5: every request to the daemon's service (those to the meshnet's service are not
    among them) keeps the saved configuration consistent, as long as the configuration
    can always be loaded: the kill switch is only on with the firewall, post-quantum
    encryption only with NordLynx and without meshnet, threat protection only without
    custom name servers, LAN discovery only without private subnets in the allowlist,
    NordLynx only over UDP, and meshnet only with routing. Saving, the API and the
    networker may fail in any way. *)
Theorem requests_keep_consistent (qs : list Request) (r : RPC Nt E) :
  consistent (rpc_cfg r) -> consistent (rpc_cfg (run_ops serve qs r)).
Proof.
  apply (run_ops_inv serve inv). intros q.
  assert (discarded : forall A (m : M (RPC Nt E) A), preserves inv m -> preserves inv (discard m)).
  { intros A m Hm. apply preserves_bind; [done|]. intros _. apply preserves_ret. }
  pose proof consistent_blind. pose proof consistent_login. pose proof consistent_logout.
  destruct keeps_plain as (? & ? & ? & ? & ? & ?).
  destruct q as [| | | | | | | |b| | | |b| |b| |b| |b|b| |b| |b| |b| |]; cbn [serve];
    try destruct (keeps_switches b) as (? & ? & ? & ? & ? & ? & ? & ?); try (apply discarded);
    eauto using inv_Connect, inv_Disconnect, inv_Login, inv_Callback, inv_Logout, keeps_allowlist,
      keeps_no_allowlist, keeps_autoconnect, keeps_defaults, keeps_dns, keeps_lan, keeps_technology,
      inv_StartKillSwitch.
  unfold LoginWithToken. case_match; [apply preserves_ret|by apply inv_Login].
Qed.
End Consistency.

(** ** The kill switch through requests *)

Section KillSwitch.
Context {Nt E : Type} `{DaemonNetworker Nt} `{DaemonEnv E}.

Definition ks_on (c : Config) : Prop := cfg_KillSwitch c = true.
Lemma ks_blind : token_blind ks_on.
Proof. done. Qed.
#[local] Abbreviation inv := (fun r : RPC Nt E => ks_on (rpc_cfg r)).

Ltac ks_step :=
  first [ apply inv_IsLoggedIn, ks_blind | apply inv_selectServer, ks_blind
        | apply inv_autoconnect_parameters, ks_blind
        | apply (inv_SaveWith ks_on); intros c Hc; first [exact Hc | reflexivity]
        | apply inv_frames; solve [frames_auto]
        | pres_step | progress cbv zeta ].

(** Only turning it off and resetting the settings clear the setting. *)
Lemma ks_serve q : turns_off q = false -> q <> RSetDefaults -> preserves inv (serve q).
Proof.
  assert (Hd : forall A (m : M (RPC Nt E) A), preserves inv m -> preserves inv (discard m)).
  { intros A m Hm. apply preserves_bind; [done|]. intros _. apply preserves_ret. }
  intros Hq Hdef. destruct q as [| | | | | | | | | | | | | | |[] ?| | | | | | | | | | | |]; try done;
    cbn [serve]; try apply Hd;
    try solve [apply inv_Connect, ks_blind | apply inv_Disconnect | by apply inv_Callback
              | by apply inv_Logout | apply inv_StartKillSwitch
              | unfold LoginWithToken; case_match; [apply preserves_ret|by apply inv_Login]];
    unfold SetAllowlist, UnsetAllowlist, UnsetAllAllowlist, change_allowlist, getNewAllowlist,
      handleNewAllowlist, SetAnalytics, SetAutoConnect, SetDNS, SetFirewall, SetFirewallMark, SetIpv6,
      SetKillSwitch, SetLANDiscovery, SetNotify, SetObfuscate, SetPostQuantum, SetProtocol, SetRouting,
      SetTechnology, SetThreatProtectionLite, SetTray, SetVirtualLocation, Settings, save_or, netw_or;
    repeat ks_step.
Qed.
End KillSwitch.

Section Protection.
Context {W A E : Type} `{Collaborators W} `{Agent A} `{DaemonEnv E}.
Context (R : A -> list Rule -> Prop) `{!LawfulAgent A R}.
Implicit Types r : RPC (Combined W A) E.

(** The setting is on and the networker armed, with an enabled firewall. *)
Definition protected r : Prop :=
  ks_on (rpc_cfg r) /\
  held (fun f => synced R f /\ fw_enabled f = true) (Some true) None None (rpc_netw r).

(** With the setting on, a request to turn the firewall off does nothing. *)
Lemma firewall_off_refused r :
  loads (E := E) -> ks_on (rpc_cfg r) -> rpc_netw (SetFirewall false r).2 = rpc_netw r.
Proof.
  intros Hl Hks. unfold SetFirewall, bind at 1, LoadLogged, on_store, zoom, cm_LoadLogged, bind, ask.
  specialize (Hl (so_env (rpc_store r))). destruct (cm_load (so_env (rpc_store r))) as [o e].
  cbn in Hl. subst o. cbn. unfold ks_on, rpc_cfg in Hks. rewrite Hks. by case_match.
Qed.

Lemma protected_serve q :
  loads (E := E) -> turns_off q = false -> q <> RSetDefaults -> preserves protected (serve q).
Proof.
  intros Hl Hq Hdef r [Hks Hn]. split; [by apply ks_serve|].
  destruct (firewall_off q) eqn:Hf.
  - destruct q as [| | | | | | | | | | | |[]| | | | | | | | | | | | | | |]; try done. cbn [serve].
    unfold discard, bind. pose proof (firewall_off_refused r Hl Hks) as Hnw.
    destruct (SetFirewall false r) as [[a|e] r']; cbn in Hnw |- *; by rewrite Hnw.
  - revert Hn. apply (nwi_serve _ false); [| |done|done].
    + intros o [Ho1 Ho2]. apply armed_exec_but; [done|]. intros ->. by destruct Ho2.
    + apply held_isConnected.
Qed.

Lemma protected_run qs r :
  loads (E := E) -> Forall (fun q => turns_off q = false /\ q <> RSetDefaults) qs ->
  protected r -> protected (run_ops serve qs r).
Proof.
  intros Hl Hqs. revert r. induction Hqs as [|q qs [Hq Hd] Hqs IH]; intros r Hr; [done|].
  cbn [run_ops]. apply IH. by apply protected_serve.
Qed.

(** A kill switch request answered with success arms the networker. *)
Lemma SetKillSwitch_protects allowlist r r' :
  (forall w e w', list_devices w = (Err e, w') -> errors_Is e ErrRuleAlreadyExists = false) ->
  ready R (nw_fw (rpc_netw r)) -> fw_enabled (nw_fw (rpc_netw r)) = true ->
  nw_isNetworkSet (rpc_netw r) = false -> Forall safe_name (nw_rules (rpc_netw r)) ->
  SetKillSwitch true allowlist r = (Ok (answer CodeSuccess), r') -> protected r'.
Proof.
  intros Hdev Hready Hen Hnet Hrules. unfold SetKillSwitch.
  unfold bind at 1. destruct (LoadLogged r) as [[cfg|] r1] eqn:Hload; [|done].
  assert (Hnw : rpc_netw r1 = rpc_netw r).
  { revert Hload. unfold LoadLogged, on_store, zoom. destruct (cm_LoadLogged _). by intros [= _ <-]. }
  destruct (negb _); [done|]. destruct (Bool.eqb _ _); [done|].
  unfold netw_or, bind at 1, attempt, nw, on_netw, zoom. rewrite Hnw.
  change (netw_do (NwSetKillSwitch allowlist) (rpc_netw r)) with (setKillSwitch allowlist (rpc_netw r)).
  destruct (setKillSwitch allowlist (rpc_netw r)) as [[[]|] n'] eqn:Hset; [|done]. cbn [is_ok].
  unfold save_or, bind, attempt, SaveWith, on_store, zoom, cm_SaveWith, bind, ask. cbn.
  destruct (cm_save _) as [[?|] e']; [done|]. intros [= <-]. split; [done|]. cbn.
  apply (setKillSwitch_arms R (fun f => synced R f /\ fw_enabled f = true)) in Hset; [done..|].
  intros Hs. split; [done|]. by apply blockTraffic_enabled.
Qed.
End Protection.

(** C2: the kill switch after a request. Let the configuration always be loaded, the
    firewall agent keep its promise (its calls succeed), and let the failure to list
    the devices never be that a rule exists already; let the firewall be switched on
    and in step with its agent, the VPN not be connected, and no rule of the networker
    have a name of the kill switch. After a request to set the kill switch was then
    answered with success, all traffic stays dropped: through every sequence of
    further requests to this service other than turning the kill switch off and
    resetting the settings (connecting, disconnecting, logging out, changing the
    allowlist or the technology, asking to turn the firewall off, ...), whichever API
    calls, saves and other networker steps fail, the agent holds the rules that drop
    all and all forwarded traffic, and the setting stays on for the next start of the
    daemon. *)
Theorem kill_switch_request_protects {W A E} `{Collaborators W} `{Agent A} `{DaemonEnv E}
    (R : A -> list Rule -> Prop) `{!LawfulAgent A R} (r r' : RPC (Combined W A) E)
    (allowlist : Allowlist) (qs : list Request) :
  loads (E := E) ->
  (forall w e w', list_devices w = (Err e, w') -> errors_Is e ErrRuleAlreadyExists = false) ->
  ready R (nw_fw (rpc_netw r)) -> fw_enabled (nw_fw (rpc_netw r)) = true ->
  nw_isNetworkSet (rpc_netw r) = false -> Forall safe_name (nw_rules (rpc_netw r)) ->
  SetKillSwitch true allowlist r = (Ok (answer CodeSuccess), r') ->
  Forall (fun q => turns_off q = false /\ q <> RSetDefaults) qs ->
  let r'' := run_ops serve qs r' in
  cfg_KillSwitch (rpc_cfg r'') = true /\
  exists l i j, R (fw_working (nw_fw (rpc_netw r''))) l /\ drop_rule i ∈ l /\ drop_fw_rule j ∈ l.
Proof.
  intros Hl Hdev Hready Hen Hnet Hrules Hset Hqs r''.
  apply (SetKillSwitch_protects R) in Hset; [|done..].
  destruct (protected_run R qs r' Hl Hqs Hset) as [Hks ([Hb [[_ HR] Hen']] & _)].
  split; [done|]. fold r'' in Hb, HR, Hen'. rewrite Hen' in HR.
  destruct (blocked_rules _ Hb) as (i & j & Hi & Hj).
  exists (reverse (fw_rules (nw_fw (rpc_netw r'')))), i, j. by rewrite !elem_of_reverse.
Qed.

(** ** Ports of the allowlist *)

Lemma wrap64_id z : - 2 ^ 63 <= z < 2 ^ 63 -> wrap64 z = z.
Proof. intros Hz. unfold wrap64. rewrite Z.mod_small; lia. Qed.

Lemma wrap64_range z : - 2 ^ 63 <= wrap64 z <= max_int64.
Proof.
  unfold wrap64, max_int64. pose proof (Z.mod_pos_bound (z + 2 ^ 63) (2 ^ 64) ltac:(lia)). lia.
Qed.

Lemma ports_loop_ends fuel p stop :
  0 < p -> p <= stop + 1 -> stop < max_int64 -> (loop_fuel p stop <= fuel)%nat ->
  ports_loop fuel p stop = Some (seqZ p (stop - p + 1)).
Proof.
  unfold loop_fuel, max_int64. revert p. induction fuel as [|fuel IH]; intros p Hp Hle Hmax Hfuel; cbn [ports_loop].
  - destruct (Z.ltb_spec stop p); [|lia]. by rewrite seqZ_nil by lia.
  - destruct (Z.ltb_spec stop p); [by rewrite seqZ_nil by lia|].
    rewrite wrap64_id by lia. rewrite IH by lia. cbn. f_equal. rewrite (seqZ_cons p) by lia.
    f_equal. f_equal; lia.
Qed.

Lemma ports_loop_hangs fuel p : p <= max_int64 -> ports_loop fuel p max_int64 = None.
Proof.
  revert p. induction fuel as [|fuel IH]; intros p Hp; cbn [ports_loop];
    (destruct (Z.ltb_spec max_int64 p); [lia|]); [done|].
  rewrite IH; [done|]. apply wrap64_range.
Qed.

Lemma getPortsInARange_ends s e :
  0 < s <= e -> e < max_int64 -> getPortsInARange s e = Some (seqZ s (e - s + 1)).
Proof.
  intros Hs Hlt. pose proof Hlt as Hlt'. unfold max_int64 in Hlt'. unfold getPortsInARange.
  rewrite wrap64_id by lia. rewrite ports_loop_ends; [|lia..]. cbn. f_equal. rewrite (seqZ_cons s) by lia.
  f_equal. f_equal; lia.
Qed.

(** The loop over a port range ends with exactly the ports of the range for
    every range the checks let through, except the one that reaches the largest
    64-bit integer: there the counter wraps around and the loop never ends,
    whatever the number of steps allowed. *)
Theorem port_range_ends_iff (s e : Z) :
  AllowlistMinPort <= s <= AllowlistMaxPort -> s <= e <= max_int64 ->
  (e < max_int64 -> getPortsInARange s e = Some (seqZ s (e - s + 1))) /\
  (e = max_int64 -> forall fuel, ports_loop fuel (wrap64 (s + 1)) e = None).
Proof.
  unfold AllowlistMinPort, AllowlistMaxPort. intros Hs He. split.
  - apply getPortsInARange_ends. lia.
  - intros -> fuel. apply ports_loop_hangs, wrap64_range.
Qed.

Lemma port_range_ends_iff_witness : getPortsInARange 65535 65537 = Some [65535; 65536; 65537].
Proof.
  change [65535; 65536; 65537] with (seqZ 65535 (65537 - 65535 + 1)).
  apply (port_range_ends_iff 65535 65537); [unfold AllowlistMinPort, AllowlistMaxPort; lia|vm_compute; split; discriminate|reflexivity].
Defined.

Lemma set_all_lookup `{Countable K} (ks : list K) (m : gmap K bool) k :
  k ∈ ks -> set_all ks m !! k = Some true.
Proof.
  unfold set_all. revert m. induction ks as [|x ks IH] using rev_ind; intros m; [by intros ?%elem_of_nil|].
  rewrite foldl_app. cbn. intros [Hin| ->%list_elem_of_singleton]%elem_of_app.
  - destruct (decide (k = x)) as [->|Hne]; [apply lookup_insert_eq|]. rewrite lookup_insert_ne by done. by apply IH.
  - apply lookup_insert_eq.
Qed.

(** The end of a port range is not checked: every end up to the largest
    64-bit integer is accepted with a valid start, and ports that do not exist
    enter the allowlist. *)
Theorem allowlist_accepts_any_end (cfg : Config) (s e : Z) :
  AllowlistMinPort <= s <= AllowlistMaxPort -> s <= e < max_int64 ->
  exists a, new_allowlist cfg (AllowlistPorts true false s e) false = Some (Ok a) /\
    ports_UDP (al_Ports a) !! e = Some true.
Proof.
  unfold AllowlistMinPort, AllowlistMaxPort. intros Hs He. cbn [new_allowlist].
  eexists. split.
  - unfold new_ports, arePortsValid, AllowlistMinPort, AllowlistMaxPort.
    destruct (Z.ltb_spec s 1); [lia|]. destruct (Z.ltb_spec 65535 s); [lia|]. cbn [orb].
    destruct (Z.ltb_spec e s); [lia|]. destruct (Z.eqb_spec e 0); [lia|]. cbn.
    rewrite getPortsInARange_ends by lia. cbn. reflexivity.
  - cbn. apply set_all_lookup. apply elem_of_seqZ. lia.
Qed.

Lemma allowlist_accepts_any_end_witness :
  exists a, new_allowlist (newConfig "machine") (AllowlistPorts true false 65535 65536) false = Some (Ok a) /\
    ports_UDP (al_Ports a) !! 65536 = Some true.
Proof.
  apply (allowlist_accepts_any_end (newConfig "machine") 65535 65536);
    [unfold AllowlistMinPort, AllowlistMaxPort; lia|vm_compute; split; [discriminate|reflexivity]].
Defined.

(** ** Drift between settings and networker *)

Section Drift.
Context {W A E : Type} `{Collaborators W} `{Agent A} `{DaemonEnv E}.
Implicit Types r : RPC (Combined W A) E.

(** Resetting the settings never touches an armed kill switch. *)
Lemma SetDefaults_armed r :
  held (fun _ => True) (Some true) None None (rpc_netw r) ->
  held (fun _ => True) (Some true) None None (rpc_netw (SetDefaults r).2).
Proof.
  intros Hr. destruct (nwi_settings (E := E) (held (W := W) (A := A) (fun _ => True) (Some true) None None) true)
    as (_ & _ & _ & _ & _ & _ & _ & _ & _ & _ & Hd); [| |by apply Hd].
  - intros o [Ho _]. by apply armed_exec.
  - apply held_isConnected.
Qed.

Lemma SetDefaults_resets r r' :
  SetDefaults r = (Ok (answer CodeSuccess), r') -> exists id, rpc_cfg r' = newConfig id.
Proof.
  intros Hr. enough (Hp : ensures (fun rep (r' : RPC (Combined W A) E) =>
      rep = answer CodeSuccess -> exists id, rpc_cfg r' = newConfig id) SetDefaults) by (by eapply Hp).
  clear r r' Hr. unfold SetDefaults, netw_or.
  assert (Hother : forall c, c <> CodeSuccess -> ensures (fun rep (r' : RPC (Combined W A) E) =>
      rep = answer CodeSuccess -> exists id, rpc_cfg r' = newConfig id) (ret (answer c)))
    by (intros c Hc; apply ensures_ret; by intros r [=]).
  apply ensures_bind. intros l. case_match; [by apply Hother|].
  apply ensures_bind. intros o. case_match; [|by apply Hother].
  do 4 (apply ensures_bind; intros ?).
  intros r rep r'. unfold bind at 1, attempt at 1, Reset, bind at 1.
  destruct (on_env cm_reset r) as [[id|] r1]; cbn [is_ok negb]; [|by intros [= <- <-]].
  unfold modify. cbv beta iota. cbn [is_ok negb].
  match goal with |- context [bind LoadLogged _ ?x] => set (r2 := x) end. assert (Hc2 : rpc_cfg r2 = newConfig id) by done. clearbody r2. clear r1.
  assert (Hf : frames (Nt := Combined W A) (E := E) (let! cfg := LoadLogged in
     let! v := attempt (on_env (factory (cfg_Technology cfg))) in
     match v with
     | Ok v => ignore (nw (NwSetVPN v));; ret (answer CodeSuccess)
     | Err _ => ret (answer CodeConfigError)
     end)) by frames_auto.
  specialize (Hf r2). intros Hrun _. exists id. rewrite <- Hc2, <- Hf.
  cbn in Hrun. by rewrite Hrun.
Qed.

(** With the setting off, turning the kill switch off is a no-op. *)
Lemma SetKillSwitch_off_noop r allowlist :
  loads (E := E) -> cfg_Firewall (rpc_cfg r) = true -> cfg_KillSwitch (rpc_cfg r) = false ->
  (SetKillSwitch false allowlist r).1 = Ok (answer CodeNothingToDo) /\
  rpc_netw (SetKillSwitch false allowlist r).2 = rpc_netw r.
Proof.
  intros Hl Hfw Hks. unfold SetKillSwitch, LoadLogged, on_store, zoom, cm_LoadLogged, bind, ask.
  specialize (Hl (so_env (rpc_store r))). destruct (cm_load (so_env (rpc_store r))) as [o e].
  cbn in Hl. subst o. unfold rpc_cfg in Hfw, Hks. cbn. by rewrite Hfw, Hks.
Qed.

(** Resetting the settings while the kill switch is set leaves its rules in
    the firewall although the setting is off afterwards, and a request to turn it
    off is answered that there is nothing to do: the user stays without network
    and cannot lift the block. *)
Theorem defaults_strand_kill_switch r r' allowlist :
  loads (E := E) -> nw_isKillSwitchSet (rpc_netw r) = true -> blocked (nw_fw (rpc_netw r)) ->
  Forall safe_name (nw_rules (rpc_netw r)) ->
  SetDefaults r = (Ok (answer CodeSuccess), r') ->
  cfg_KillSwitch (rpc_cfg r') = false /\
  (SetKillSwitch false allowlist r').1 = Ok (answer CodeNothingToDo) /\
  exists i j, drop_rule i ∈ fw_rules (nw_fw (rpc_netw (SetKillSwitch false allowlist r').2)) /\
    drop_fw_rule j ∈ fw_rules (nw_fw (rpc_netw (SetKillSwitch false allowlist r').2)).
Proof.
  intros Hl Hks Hb Hrules Hd. destruct (SetDefaults_resets r r' Hd) as [id Hcfg].
  destruct (SetKillSwitch_off_noop r' allowlist Hl) as [Hrep Hnw]; [by rewrite Hcfg..|].
  split; [by rewrite Hcfg|]. split; [done|]. rewrite Hnw. apply blocked_rules.
  destruct (SetDefaults_armed r) as [[Hb' _] _]; [|by rewrite Hd in Hb'].
  exact (conj (conj Hb I) (conj Hrules (conj Hks (conj I I)))).
Qed.

(** An error while loading the configuration is only logged, and the default
    configuration takes its place.  A request to turn the firewall off then passes
    the check that the kill switch is off, whatever the saved setting says, and
    disables the firewall of the networker. *)
Theorem load_error_bypasses_kill_switch_check r id err e' n' :
  cm_load (so_env (rpc_store r)) = (Some (err, newConfig id), e') ->
  DisableFirewall (rpc_netw r) = (Ok tt, n') ->
  rpc_netw (SetFirewall false r).2 = n'.
Proof.
  intros Hl Hd. unfold SetFirewall, bind at 1, LoadLogged, on_store, zoom, cm_LoadLogged, bind, ask.
  rewrite Hl. cbn. unfold netw_or, bind, attempt, nw, on_netw, zoom. cbn. rewrite Hd. cbn.
  unfold save_or, bind, attempt, SaveWith, on_store, zoom. by destruct (cm_SaveWith _ _) as [[[]|] s'].
Qed.
End Drift.

(** ** A concrete daemon

    The configuration loads unless [load] says otherwise, and saves; the backend
    cannot be reached except for the list of services; the first of several random
    choices is taken. *)

Inductive Desk (load : option (error * Config)) (servers : list Server) (services : result (list ServiceData)) : Type :=
| desk.
Arguments desk {load servers services}.

Section Desk.
Context (load : option (error * Config)) (servers : list Server) (services : result (list ServiceData)).
#[local] Abbreviation T := (Desk load servers services).

#[export] Instance Desk_manager : ConfigManager T := {|
  cm_load e := (load, e);
  cm_save e := (None, e)
|}.

#[export] Instance Desk_credentials : CredentialsAPI T := {|
  creds_TokenRenew _ := throw (Errorf "offline");
  creds_NotificationCredentials _ _ := throw (Errorf "offline");
  creds_TrustedPassToken _ := throw (Errorf "offline");
  creds_ServiceCredentials _ := throw (Errorf "offline");
  creds_Services _ e := (services, e);
  creds_MultifactorAuthStatus _ := throw (Errorf "offline");
  time_UnixNano e := (0, e);
  range_tokens m e := (map_to_list m, e)
|}.

#[export] Instance Desk_servers : ServersEnv T := {|
  api_Server _ := throw (Errorf "offline");
  api_RecommendedServers _ := throw (Errorf "offline");
  api_ServersCountries := throw (Errorf "offline");
  rand_Intn _ e := (0%nat, e)
|}.

#[export] Instance Desk_env : DaemonEnv T := {|
  env_manager := Desk_manager;
  env_credentials := Desk_credentials;
  env_servers := Desk_servers;
  dm_Servers _ := servers;
  dm_Countries _ := [];
  ns_servers _ := [];
  factory _ := ret 2%nat;
  endpoint_Resolve _ := throw (Errorf "offline");
  cm_reset := ret "machine";
  nc_Stop := ret tt;
  nc_Revoke _ := ret tt;
  api_DeleteToken _ := ret tt;
  api_Logout _ := ret tt;
  oauth_Login := throw (Errorf "offline");
  oauth_Token _ := throw (Errorf "offline");
  analytics_Enable := ret tt;
  analytics_Disable := ret tt;
  norduser_Restart _ := ret tt;
  IsSystemShutdown e := (false, e)
|}.
End Desk.

(** A daemon that just started, with the default settings. *)
Definition new_daemon load servers services : RPC (Combined Sim ListAgent) (Desk load servers services) :=
  NewRPC (mkStore (newConfig "machine") desk) (new_networker []) false.

Definition calm_daemon := new_daemon None [] (Ok []).

Lemma calm_loads : loads (E := Desk None [] (Ok [])).
Proof. intros e. reflexivity. Qed.

(** The firewall stays off in the networker when the settings are reset to
    values that say it is on: a kill switch set afterwards is reported as set,
    and not one rule is installed. *)
Theorem defaults_leave_firewall_off :
  let r := run_ops serve [RSetFirewall false; RSetDefaults] calm_daemon in
  let s := SetKillSwitch true empty_allowlist r in
  s.1 = Ok (answer CodeSuccess) /\ cfg_KillSwitch (rpc_cfg s.2) = true /\ cfg_Firewall (rpc_cfg s.2) = true /\
  nw_isKillSwitchSet (rpc_netw s.2) = true /\ installed_names (rpc_netw s.2) = [].
Proof. vm_compute. repeat split. Qed.

Definition sample_requests : list Request :=
  [RSetKillSwitch true empty_allowlist; RSetFirewall false; RSetTechnology OPENVPN; RSetPostQuantum true;
   RSetDNS (Some ["1.1.1.1"]); RSetThreatProtectionLite true; RDisconnect; RSetAllowlist (AllowlistPorts true true 22 23)].

Lemma requests_keep_consistent_witness :
  consistent (rpc_cfg (run_ops serve sample_requests calm_daemon)) /\
  cfg_KillSwitch (rpc_cfg (run_ops serve sample_requests calm_daemon)) = true.
Proof.
  split; [|vm_compute; reflexivity].
  apply (requests_keep_consistent calm_loads sample_requests calm_daemon).
  exact (consistent_new "machine").
Defined.

Definition protected_daemon : RPC (Combined Sim ListAgent) (Desk None [] (Ok [])) :=
  (SetKillSwitch true empty_allowlist calm_daemon).2.

Lemma protected_daemon_run :
  SetKillSwitch true empty_allowlist calm_daemon = (Ok (answer CodeSuccess), protected_daemon).
Proof.
  unfold protected_daemon. assert ((SetKillSwitch true empty_allowlist calm_daemon).1 = Ok (answer CodeSuccess))
    as He by (vm_compute; reflexivity).
  destruct (SetKillSwitch true empty_allowlist calm_daemon). cbn in He |- *. by rewrite He.
Qed.

Definition later_requests : list Request :=
  [RSetFirewall false; RSetTechnology OPENVPN; RSetDNS (Some ["1.1.1.1"]); RDisconnect; RUnsetAllAllowlist].

Lemma kill_switch_request_protects_witness :
  cfg_KillSwitch (rpc_cfg (run_ops serve later_requests protected_daemon)) = true /\
  exists l i j, list_agent_R (fw_working (nw_fw (rpc_netw (run_ops serve later_requests protected_daemon)))) l /\
    drop_rule i ∈ l /\ drop_fw_rule j ∈ l.
Proof.
  apply (kill_switch_request_protects list_agent_R calm_daemon protected_daemon empty_allowlist later_requests).
  - exact calm_loads.
  - by intros w e w' [=].
  - exact new_networker_ready.
  - reflexivity.
  - reflexivity.
  - constructor.
  - exact protected_daemon_run.
  - unfold later_requests. repeat constructor; discriminate.
Defined.

Lemma protected_daemon_blocked :
  blocked (nw_fw (rpc_netw protected_daemon)) /\ Forall safe_name (nw_rules (rpc_netw protected_daemon)).
Proof.
  split; [split; [|split]|].
  - change (fw_rules (nw_fw (rpc_netw protected_daemon))) with
      [drop_fw_rule [eth0]; drop_rule [eth0]; api_allowlist_rule [eth0] 57841; deny_dns_rule].
    solve_names.
  - apply (bool_decide_unpack _). vm_compute. exact I.
  - apply (bool_decide_unpack _). vm_compute. exact I.
  - change (nw_rules (rpc_netw protected_daemon)) with [deny_dns_name]. solve_names.
Qed.

Definition reset_daemon : RPC (Combined Sim ListAgent) (Desk None [] (Ok [])) := (SetDefaults protected_daemon).2.

Lemma reset_daemon_run : SetDefaults protected_daemon = (Ok (answer CodeSuccess), reset_daemon).
Proof.
  unfold reset_daemon. assert ((SetDefaults protected_daemon).1 = Ok (answer CodeSuccess))
    as He by (vm_compute; reflexivity).
  destruct (SetDefaults protected_daemon). cbn in He |- *. by rewrite He.
Qed.

Lemma defaults_strand_kill_switch_witness :
  cfg_KillSwitch (rpc_cfg reset_daemon) = false /\
  (SetKillSwitch false empty_allowlist reset_daemon).1 = Ok (answer CodeNothingToDo) /\
  exists i j, drop_rule i ∈ fw_rules (nw_fw (rpc_netw (SetKillSwitch false empty_allowlist reset_daemon).2)) /\
    drop_fw_rule j ∈ fw_rules (nw_fw (rpc_netw (SetKillSwitch false empty_allowlist reset_daemon).2)).
Proof.
  apply (defaults_strand_kill_switch protected_daemon reset_daemon empty_allowlist).
  - exact calm_loads.
  - vm_compute. reflexivity.
  - apply protected_daemon_blocked.
  - apply protected_daemon_blocked.
  - exact reset_daemon_run.
Defined.

(** The kill switch is set, and the configuration cannot be read any more. *)
Definition unreadable_daemon :
    RPC (Combined Sim ListAgent) (Desk (Some (Errorf "unexpected EOF", newConfig "machine")) [] (Ok [])) :=
  NewRPC (mkStore ((newConfig "machine") <| cfg_KillSwitch := true |>) desk) armed_networker false.

Lemma load_error_bypasses_kill_switch_check_witness :
  installed_names (rpc_netw unreadable_daemon) = ["deny-private-dns"; "api_allowlist"; "drop"; "drop-fw"] /\
  installed_names (rpc_netw (SetFirewall false unreadable_daemon).2) = [].
Proof.
  split; [vm_compute; reflexivity|].
  rewrite (load_error_bypasses_kill_switch_check unreadable_daemon "machine" (Errorf "unexpected EOF") desk
             (DisableFirewall armed_networker).2).
  - vm_compute. reflexivity.
  - reflexivity.
  - assert ((DisableFirewall armed_networker).1 = Ok tt) as He by (vm_compute; reflexivity).
    change (rpc_netw unreadable_daemon) with armed_networker.
    destruct (DisableFirewall armed_networker). cbn in He |- *. by rewrite He.
Defined.

(** ** Dedicated servers *)

Section Dedicated.
Context {Nt E : Type} `{DaemonNetworker Nt} `{DaemonEnv E}.
Implicit Types r : RPC Nt E.

Lemma dedicatedIPServices_spec r services r' :
  dedicatedIPServices r = (Ok services, r') ->
  exists st st', GetDedicatedIPServices (E := E) st = (Ok services, st') /\ isAnyDIPServersAvailable services = true.
Proof.
  unfold dedicatedIPServices, bind, attempt, on_store, zoom.
  destruct (GetDedicatedIPServices (rpc_store r)) as [[[|s l]|e] st'] eqn:Hs; [done| |done].
  destruct (isAnyDIPServersAvailable (s :: l)) eqn:Ha; [|done]. intros [= <- _]. by eexists _, _.
Qed.

Lemma check_dedicated_spec cfg server r r' :
  check_dedicated cfg server r = (Ok tt, r') -> isDedicatedIP server = true ->
  exists services st st',
    GetDedicatedIPServices (E := E) st = (Ok services, st') /\ srv_ID server ∈ (dip_ServerID <$> services) /\
    IsConnectableWithProtocol (cfg_Technology cfg) (ac_Protocol (cfg_AutoConnectData cfg)) server = true /\
    IsObfuscated server = ac_Obfuscate (cfg_AutoConnectData cfg).
Proof.
  intros Hc Hd. unfold check_dedicated in Hc. rewrite Hd in Hc. cbn [when] in Hc. unfold bind in Hc.
  destruct (dedicatedIPServices r) as [[services|] r1] eqn:Hs; [|done].
  destruct (dedicatedIPServices_spec _ _ _ Hs) as (st & st' & Hg & _).
  destruct (existsb _ services) eqn:He; [|done]. cbn [negb] in Hc.
  destruct (_ || _) eqn:Hbad; [done|]. apply orb_false_iff in Hbad as [H1%negb_false_iff H2%negb_false_iff].
  exists services, st, st'. split; [done|]. split; [|split; [done|by apply eqb_prop]].
  apply existsb_exists in He as (x & Hx & Hid%Z.eqb_eq). apply list_elem_of_fmap. exists x.
  split; [done|]. by apply list_elem_of_In.
Qed.

(** A server of the dedicated IP group is chosen only for an account whose
    services, as the API lists them without the expired ones, include that very
    server, and only when it can be reached with the technology, protocol and
    obfuscation of the settings. *)
Theorem dedicated_server_needs_service (cfg : Config) (tag flag : string) r r' (s : Server) (remote : bool) :
  selectServer cfg tag flag r = (Ok (Returned (s, remote)), r') -> isDedicatedIP s = true ->
  exists services st st',
    GetDedicatedIPServices (E := E) st = (Ok services, st') /\ srv_ID s ∈ (dip_ServerID <$> services) /\
    IsConnectableWithProtocol (cfg_Technology cfg) (ac_Protocol (cfg_AutoConnectData cfg)) s = true /\
    IsObfuscated s = ac_Obfuscate (cfg_AutoConnectData cfg).
Proof.
  intros Hs Hd. unfold selectServer, env_get in Hs. cbv zeta in Hs. rewrite !bind_gets in Hs.
  unfold bind at 1, attempt in Hs. destruct (on_env _ r) as [p r1].
  unfold bind at 1 in Hs.
  destruct ((match p with Ok x => ret x | Err err => pick_error cfg _ err end) r1) as [[[[s' b]|m]|e] r2]; try done.
  unfold bind in Hs. destruct (check_dedicated cfg s' r2) as [[[]|] r3] eqn:Hc; [|done].
  injection Hs as <- <- _. by eapply check_dedicated_spec.
Qed.
End Dedicated.

Definition dip_server : Server :=
  mkServer 7 "Dedicated #7" "192.0.2.7" "lt7.nordvpn.com" 10 Online []
    [mkTechnologyEntry WireguardTech Online] [mkGroup DEDICATED_IP "Dedicated IP"] [] 0 "key" ["lt7"] [] "" "" zero_float zero_float zero_float.

Definition dip_service (servers : list Z) : ServiceData :=
  mkServiceData 1 "2050-06-04 00:00:00" DedicatedIPServiceID servers.

Definition dip_daemon services := new_daemon None [dip_server] (Ok services).

Lemma dedicated_server_needs_service_witness :
  exists services st st',
    GetDedicatedIPServices (E := Desk None [dip_server] (Ok [dip_service [7]])) st = (Ok services, st') /\
    srv_ID dip_server ∈ (dip_ServerID <$> services) /\
    IsConnectableWithProtocol NORDLYNX Protocol_UDP dip_server = true /\ IsObfuscated dip_server = false.
Proof.
  destruct (dedicated_server_needs_service (newConfig "machine") "" "dedicated_ip" (dip_daemon [dip_service [7]])
    (selectServer (newConfig "machine") "" "dedicated_ip" (dip_daemon [dip_service [7]])).2 dip_server false)
    as (services & st & st' & H1 & H2 & H3 & H4).
  - assert ((selectServer (newConfig "machine") "" "dedicated_ip" (dip_daemon [dip_service [7]])).1
              = Ok (Returned (dip_server, false))) as He by (vm_compute; reflexivity).
    destruct (selectServer _ _ _ _). cbn in He |- *. by rewrite He.
  - reflexivity.
  - exists services, st, st'. split; [exact H1|split; [exact H2|split; [exact H3|exact H4]]].
Defined.

(** The dedicated server is chosen among all services of the account, also
    those for which no server was selected: an account with a usable server can be
    told that it is not available. *)
Theorem dedicated_choice_ignores_selection :
  let r := dip_daemon [dip_service []; dip_service [7]] in
  isAnyDIPServersAvailable [mkDedicatedIPService "2050-06-04 00:00:00" NoServerSelected;
                            mkDedicatedIPService "2050-06-04 00:00:00" 7] = true /\
  (GetDedicatedIPServices (rpc_store r)).1 =
    Ok [mkDedicatedIPService "2050-06-04 00:00:00" NoServerSelected; mkDedicatedIPService "2050-06-04 00:00:00" 7] /\
  (selectServer (newConfig "machine") "" "dedicated_ip" r).1 = Err (Sentinel ErrServerIsUnavailable).
Proof. vm_compute. repeat split. Qed.
