(* ===== verification/Routes.v ===== *)
(** * Routes: routes, policy routing and interface groups

    Models [daemon/routes]: the router and the policy router, which forward to an
    agent that can be swapped for a no-op ([router.go], [rule.go], [norouter],
    [norule]); the agent for routes ([netlink/netlink.go]) and the search for a
    gateway ([netlink/retriever.go]); the agent for policy rules
    ([iprule/iprule.go]) and the groups of the interfaces ([ifgroup/ifgroup.go]).

    The netlink package and the kernel behind it are class [Netlink].  A rule or
    a route is a record of the fields the code uses; in a rule -1 is an unset
    field, as in [netlink.NewRule].  [NetlinkLaws] says what [ip-rule(8)] and
    [ip-route(8)] document: adding adds one entry or fails, deleting removes one
    entry that agrees with the given one on the fields that are set, or fails. *)

From stdpp Require Import base option list sorting strings pretty gmap.
From Stdlib Require Import ZArith Lia.
From S2P Require Import Prelude GoLib Config Firewall Networker.

Open Scope Z_scope.
Open Scope go_scope.

(** ** The router *)

#[export] Instance Route_eta : EtaExpand Route := fun r =>
  mkRoute (rt_Gateway r) (rt_Subnet r) (rt_Device r) (rt_TableID r).

(** [Route.IsEqual]. *)
Definition route_IsEqual (r to : Route) : bool :=
  bool_decide (rt_Gateway r = rt_Gateway to) && bool_decide (rt_Subnet r = rt_Subnet to) &&
  bool_decide (if_name (rt_Device r) = if_name (rt_Device to)) && bool_decide (rt_TableID r = rt_TableID to).

(** The agent in use: the no-op one, which succeeds and does nothing, or the
    working one. *)
Inductive AgentRef : Type := Noop | Working.

Class RouteAgent (A : Type) : Type := {
  agent_AddRoute : Route -> M A unit;
  agent_Flush : M A unit
}.

Record Router (A : Type) : Type := mkRouter {
  ro_current : AgentRef;
  ro_working : A;
  ro_applied : list Route;
  ro_isEnabled : bool
}.
Arguments mkRouter {A} _ _ _ _.
Arguments ro_current {A} _.
Arguments ro_working {A} _.
Arguments ro_applied {A} _.
Arguments ro_isEnabled {A} _.
#[export] Instance Router_eta {A} : EtaExpand (Router A) := fun r =>
  mkRouter (ro_current r) (ro_working r) (ro_applied r) (ro_isEnabled r).

Definition NewRouter {A} (working : A) (enabled : bool) : Router A :=
  mkRouter (if enabled then Working else Noop) working [] enabled.

Section Router.
Context {A : Type} `{RouteAgent A}.
#[local] Abbreviation R := (M (Router A)).

Definition on_working {B} (m : M A B) : R B := zoom ro_working (fun a r => r <| ro_working := a |>) m.

(** A call of [r.current]. *)
Definition on_current (m : M A unit) : R unit :=
  let! c := gets ro_current in
  match c with Noop => ret tt | Working => on_working m end.

Definition Router_Add (route : Route) : R unit :=
  on_current (agent_AddRoute route) ;;
  modify (fun r => r <| ro_applied := ro_applied r ++ [route] |>).

Definition Router_Flush : R unit :=
  on_current agent_Flush ;;
  set! ro_applied := [].

(** The loop variable is a copy: the remembered routes keep their table. *)
Definition with_table (tableID : Z) (route : Route) : Route :=
  if rt_TableID route =? 0 then route else route <| rt_TableID := tableID |>.

Definition Router_Enable (tableID : Z) : R unit :=
  let! enabled := gets ro_isEnabled in
  if enabled : bool then ret tt
  else
    let! applied := gets ro_applied in
    forM_ applied (fun route => on_working (agent_AddRoute (with_table tableID route))) ;;
    modify (fun r => r <| ro_isEnabled := true |> <| ro_current := Working |>).

Definition Router_Disable : R unit :=
  let! enabled := gets ro_isEnabled in
  if negb enabled then ret tt
  else
    on_current agent_Flush ;;
    modify (fun r => r <| ro_isEnabled := false |> <| ro_current := Noop |>).
End Router.

(** ** The policy router *)

Class PolicyAgent (A : Type) : Type := {
  agent_SetupRoutingRules : bool -> bool -> bool -> list string -> M A unit;
  agent_CleanupRouting : M A unit;
  agent_TableID : A -> Z
}.

Record PolicyRouter (A : Type) : Type := mkPolicyRouter {
  po_current : AgentRef;
  po_working : A;
  po_appliedRule : option (bool * bool * bool * list string);
  po_isEnabled : bool
}.
Arguments mkPolicyRouter {A} _ _ _ _.
Arguments po_current {A} _.
Arguments po_working {A} _.
Arguments po_appliedRule {A} _.
Arguments po_isEnabled {A} _.
#[export] Instance PolicyRouter_eta {A} : EtaExpand (PolicyRouter A) := fun p =>
  mkPolicyRouter (po_current p) (po_working p) (po_appliedRule p) (po_isEnabled p).

Definition NewPolicyRouter {A} (working : A) (enabled : bool) : PolicyRouter A :=
  mkPolicyRouter (if enabled then Working else Noop) working None enabled.

Section PolicyRouter.
Context {A : Type} `{PolicyAgent A}.
#[local] Abbreviation P := (M (PolicyRouter A)).

Definition on_policy {B} (m : M A B) : P B := zoom po_working (fun a p => p <| po_working := a |>) m.
Definition on_current_policy (m : M A unit) : P unit :=
  let! c := gets po_current in
  match c with Noop => ret tt | Working => on_policy m end.

Definition Policy_SetupRoutingRules (ipv6 enableLocal lanDiscovery : bool) (allowSubnets : list string) : P unit :=
  on_current_policy (agent_SetupRoutingRules ipv6 enableLocal lanDiscovery allowSubnets) ;;
  set! po_appliedRule := Some (ipv6, enableLocal, lanDiscovery, allowSubnets).

Definition Policy_CleanupRouting : P unit :=
  on_current_policy agent_CleanupRouting ;;
  set! po_appliedRule := None.

Definition Policy_TableID (p : PolicyRouter A) : Z :=
  match po_current p with Noop => 0 | Working => agent_TableID (po_working p) end.

Definition Policy_Enable : P unit :=
  let! enabled := gets po_isEnabled in
  if enabled : bool then ret tt
  else
    let! rule := gets po_appliedRule in
    match rule with
    | Some (ipv6, local, lan, subnets) => on_policy (agent_SetupRoutingRules ipv6 local lan subnets)
    | None => ret tt
    end ;;
    modify (fun p => p <| po_current := Working |> <| po_isEnabled := true |>).

Definition Policy_Disable : P unit :=
  let! enabled := gets po_isEnabled in
  if negb enabled then ret tt
  else
    on_current_policy agent_CleanupRouting ;;
    modify (fun p => p <| po_current := Noop |> <| po_isEnabled := false |>).
End PolicyRouter.

(** ** Netlink *)

Definition RT_TABLE_MAIN : Z := 254.
Definition SCOPE_UNIVERSE : Z := 0.
Definition SCOPE_LINK : Z := 253.

Record NlRoute : Type := mkNlRoute {
  nl_LinkIndex : Z;
  nl_Gw : option Addr;
  nl_Dst : option Prefix;
  nl_Table : Z;
  nl_Scope : Z;
  nl_Priority : Z
}.
#[export] Instance NlRoute_eq_dec : EqDecision NlRoute.
Proof. solve_decision. Defined.

Record NlRule : Type := mkNlRule {
  ru_Priority : Z;
  ru_Invert : bool;
  ru_Mark : Z;
  ru_Table : Z;
  ru_SuppressIfgroup : Z;
  ru_SuppressPrefixlen : Z;
  ru_Src : option Prefix;
  ru_Dst : option Prefix
}.
#[export] Instance NlRule_eta : EtaExpand NlRule := fun r =>
  mkNlRule (ru_Priority r) (ru_Invert r) (ru_Mark r) (ru_Table r) (ru_SuppressIfgroup r)
    (ru_SuppressPrefixlen r) (ru_Src r) (ru_Dst r).
#[export] Instance NlRule_eq_dec : EqDecision NlRule.
Proof. solve_decision. Defined.

(** [netlink.NewRule()]; the family is an argument of the calls. *)
Definition NewRule : NlRule := mkNlRule (-1) false (-1) (-1) (-1) (-1) None None.

Definition ErrExist : string := "file already exists".

(** The second argument of the rule calls is the family: IPv6 or IPv4. *)
Class Netlink (K : Type) : Type := {
  netlink_RouteAdd : NlRoute -> M K unit;
  netlink_RouteDel : NlRoute -> M K unit;
  netlink_RouteList : bool -> M K (list NlRoute);
  netlink_RuleList : bool -> M K (list NlRule);
  netlink_RuleAdd : NlRule -> bool -> M K unit;
  netlink_RuleDel : NlRule -> bool -> M K unit;
  netlink_LinkGroup : Z -> M K Z;  (* the group of the link with this index *)
  netlink_LinkSetGroup : Z -> Z -> M K unit;
  netlink_LinkList : M K (list (Z * Z));  (* index and group *)
  net_InterfaceByIndex : Z -> M K Interface;
  device_list : M K (list Interface);
  rpfilter_Set : M K unit;
  rpfilter_Unset : M K unit;
  (** [slices.SortFunc] by [routeCmp]: the order of equal routes is not specified *)
  sort_routes : list NlRoute -> list NlRoute
}.

(** [t] and [r] are the same in the fields that are set in [t]. *)
Definition agrees (t r : NlRule) : bool :=
  ((ru_Priority t =? -1) || (ru_Priority t =? ru_Priority r)) &&
  ((ru_Mark t =? -1) || (ru_Mark t =? ru_Mark r)) && ((ru_Table t =? -1) || (ru_Table t =? ru_Table r)) &&
  ((ru_SuppressIfgroup t =? -1) || (ru_SuppressIfgroup t =? ru_SuppressIfgroup r)) &&
  ((ru_SuppressPrefixlen t =? -1) || (ru_SuppressPrefixlen t =? ru_SuppressPrefixlen r)) &&
  (bool_decide (ru_Src t = None) || bool_decide (ru_Src t = ru_Src r)) &&
  (bool_decide (ru_Dst t = None) || bool_decide (ru_Dst t = ru_Dst r)).

(** [Mask.Size()]. *)
Definition mask_size (p : Prefix) : Z := Z.max 0 (pfx_bits p).
Definition dst_len (dst : option Prefix) : Z := match dst with None => 0 | Some p => mask_size p end.

(** A route to a longer prefix comes first, then one of a smaller metric. *)
Definition routeCmp (a b : NlRoute) : Z :=
  if dst_len (nl_Dst b) <? dst_len (nl_Dst a) then -1
  else if dst_len (nl_Dst a) <? dst_len (nl_Dst b) then 1
  else if nl_Priority a <? nl_Priority b then -1
  else if nl_Priority b <? nl_Priority a then 1
  else 0.

(** [rules] and [routes] are what the kernel holds. *)
Class NetlinkLaws (K : Type) `{Netlink K} (rules : K -> bool -> list NlRule) (routes : K -> list NlRoute) : Prop := {
  rule_list_ok fam k l : (netlink_RuleList fam k).1 = Ok l -> l ≡ₚ rules k fam;
  rule_add_ok r fam k :
    (netlink_RuleAdd r fam k).1 = Ok tt -> rules (netlink_RuleAdd r fam k).2 fam ≡ₚ r :: rules k fam;
  rule_add_err r fam k e :
    (netlink_RuleAdd r fam k).1 = Err e -> rules (netlink_RuleAdd r fam k).2 fam ≡ₚ rules k fam;
  rule_del_ok t fam k :
    (netlink_RuleDel t fam k).1 = Ok tt ->
    exists r, agrees t r = true /\ rules k fam ≡ₚ r :: rules (netlink_RuleDel t fam k).2 fam;
  rule_del_err t fam k e :
    (netlink_RuleDel t fam k).1 = Err e ->
    rules (netlink_RuleDel t fam k).2 fam ≡ₚ rules k fam /\ forall r, r ∈ rules k fam -> agrees t r = false;
  rule_add_other r fam k : rules (netlink_RuleAdd r fam k).2 (negb fam) = rules k (negb fam);
  rule_del_other t fam k : rules (netlink_RuleDel t fam k).2 (negb fam) = rules k (negb fam);
  route_list_ok fam k l : (netlink_RouteList fam k).1 = Ok l -> forall r, r ∈ l -> r ∈ routes k;
  route_add_ok r k : (netlink_RouteAdd r k).1 = Ok tt -> routes (netlink_RouteAdd r k).2 ≡ₚ r :: routes k;
  route_add_err r k e : (netlink_RouteAdd r k).1 = Err e -> routes (netlink_RouteAdd r k).2 = routes k;
  route_del_ok r k : (netlink_RouteDel r k).1 = Ok tt -> routes k ≡ₚ r :: routes (netlink_RouteDel r k).2;
  route_del_err r k e : (netlink_RouteDel r k).1 = Err e -> routes (netlink_RouteDel r k).2 = routes k;
  sort_routes_ok l : sort_routes l ≡ₚ l;
  sort_routes_sorted l : StronglySorted (fun a b => routeCmp a b <= 0) (sort_routes l);
  rule_list_rules fam k : rules (netlink_RuleList fam k).2 = rules k;
  route_list_rules fam k : rules (netlink_RouteList fam k).2 = rules k;
  link_group_rules i k : rules (netlink_LinkGroup i k).2 = rules k;
  set_group_rules i g k : rules (netlink_LinkSetGroup i g k).2 = rules k;
  device_list_rules k : rules (device_list k).2 = rules k;
  rpfilter_set_rules k : rules (rpfilter_Set k).2 = rules k;
  rpfilter_unset_rules k : rules (rpfilter_Unset k).2 = rules k
}.

(** ** The agent for routes *)

Record NetlinkRouter (K : Type) : Type := mkNetlinkRouter { nr_routes : list Route; nr_kernel : K }.
Arguments mkNetlinkRouter {K} _ _.
Arguments nr_routes {K} _.
Arguments nr_kernel {K} _.
#[export] Instance NetlinkRouter_eta {K} : EtaExpand (NetlinkRouter K) := fun r =>
  mkNetlinkRouter (nr_routes r) (nr_kernel r).

Definition ErrRouteToOtherDestinationExists : string := "route to differ".

(** [prefixToIPNet]; a prefix stands for its [net.IPNet]. *)
Definition toNetlinkRoute (route : Route) : NlRoute :=
  let gateway := rt_Gateway route in
  mkNlRoute (if_index (rt_Device route)) (if addr_IsValid gateway then Some gateway else None)
    (Some (rt_Subnet route)) (if rt_TableID route =? 0 then RT_TABLE_MAIN else rt_TableID route)
    (if negb (addr_IsValid gateway) || addr_IsUnspecified gateway then SCOPE_LINK else SCOPE_UNIVERSE) 0.

Section NetlinkRouter.
Context {K : Type} `{Netlink K}.
#[local] Abbreviation N := (M (NetlinkRouter K)).

Definition on_kernel {B} (m : M K B) : N B := zoom nr_kernel (fun k r => r <| nr_kernel := k |>) m.

Definition router_has (routes : list Route) (route : Route) : bool := existsb (route_IsEqual route) routes.

Definition Netlink_Add (route : Route) : N unit :=
  let! routes := gets nr_routes in
  if router_has routes route then throw (Errorf "route already exists")
  else
    let! r := attempt (on_kernel (netlink_RouteAdd (toNetlinkRoute route))) in
    match r with
    | Err err =>
        if errors_Is err ErrExist then throw (Sentinel ErrRouteToOtherDestinationExists)
        else throw (Wrapf "adding route to a routing table: " err "")
    | Ok _ => modify (fun r => r <| nr_routes := nr_routes r ++ [route] |>)
    end.

(** The errors of the deletions. *)
Fixpoint flush_routes (routes : list Route) : N (list (option error)) :=
  match routes with
  | [] => ret []
  | route :: routes' =>
      let! r := attempt (on_kernel (netlink_RouteDel (toNetlinkRoute route))) in
      let! errs := flush_routes routes' in
      ret (match r with Ok _ => errs | Err err => Some (Wrapf "deleting route: " err "") :: errs end)
  end.

Definition Netlink_Flush : N unit :=
  let! routes := gets nr_routes in
  let! errs := flush_routes routes in
  set! nr_routes := [] ;;
  match errors_Join errs with None => ret tt | Some err => throw err end.

#[export] Instance netlink_agent : RouteAgent (NetlinkRouter K) := {|
  agent_AddRoute := Netlink_Add;
  agent_Flush := Netlink_Flush
|}.
End NetlinkRouter.

(** ** Finding a gateway *)

(** [isSubnet]: nil contains everything. *)
Definition isSubnet (network subnet : option Prefix) : bool :=
  match network, subnet with
  | None, _ => true
  | Some _, None => false
  | Some n, Some s => prefix_Contains n (pfx_addr s) && (mask_size n <=? mask_size s)
  end.

Definition ruleAppliesForRoute (rule : NlRule) (route : NlRoute) (ifgroup : Z) : bool :=
  negb (Bool.eqb (ru_Invert rule)
    ((ru_Mark rule <? 0) && (ru_Table rule =? nl_Table route) && isSubnet (ru_Src rule) (nl_Dst route) &&
     ((ru_SuppressPrefixlen rule <? 0) || (ru_SuppressPrefixlen rule <? dst_len (nl_Dst route))) &&
     ((ru_SuppressIfgroup rule <? 0) || negb (ru_SuppressIfgroup rule =? ifgroup)))).

Definition filterRoutes (routes : list NlRoute) (subnet : Prefix) (ignoreTable : Z) : list NlRoute :=
  filter (fun r => ((nl_Table r =? ignoreTable) || negb (isSubnet (nl_Dst r) (Some subnet))) = false) routes.

(** [linksGroupMap[index]]: the last link with the index, 0 when there is none. *)
Definition link_group (links : list (Z * Z)) (index : Z) : Z :=
  foldl (fun acc l => if l.1 =? index then l.2 else acc) 0 links.

(** One rule: the routes not used yet that it applies to, and the rest, which keep
    their order. *)
Definition take_routes (links : list (Z * Z)) (rule : NlRule) (routes : list NlRoute) : list NlRoute * list NlRoute :=
  let applies := fun route => ruleAppliesForRoute rule route (link_group links (nl_LinkIndex route)) in
  (filter (fun r => applies r = true) routes, filter (fun r => applies r = false) routes).

Fixpoint orderRoutesByRules (rules : list NlRule) (routes : list NlRoute) (links : list (Z * Z)) : list NlRoute :=
  match rules with
  | [] => []
  | rule :: rules' =>
      let '(out, unused) := take_routes links rule routes in
      out ++ orderRoutesByRules rules' unused links
  end.

Definition ErrNotFound : string := "gateway not found".

Section Retriever.
Context {K : Type} `{Netlink K}.

Definition listRoutesForSubnet (subnet : Prefix) (ignoreTable : Z) : M K (list NlRoute) :=
  let family := addr_Is6 (pfx_addr subnet) in
  let! routes := wrapped "listing routes: " (netlink_RouteList family) "" in
  let routes := filterRoutes routes subnet ignoreTable in
  if (length routes <=? 1)%nat then ret routes
  else
    let routes := sort_routes routes in
    let! rules := wrapped "listing rules: " (netlink_RuleList family) "" in
    let! links := wrapped "listing links: " netlink_LinkList "" in
    ret (orderRoutesByRules rules routes links).

Definition Retrieve (prefix : Prefix) (ignoreTable : Z) : M K (Addr * Interface) :=
  let! routeList := wrapped "listing routes for subnet: " (listRoutesForSubnet prefix ignoreTable) "" in
  match routeList with
  | [] => throw (Sentinel ErrNotFound)
  | _ =>
      match find (fun r => match nl_Gw r with Some _ => true | None => false end) routeList with
      | None => throw (Errorf "retrieving route with gateway: %!w(<nil>)")
      | Some route =>
          let! iface := wrapped ("retrieving interface by index " +:+ pretty (nl_LinkIndex route) +:+ ": ")
                          (net_InterfaceByIndex (nl_LinkIndex route)) "" in
          match nl_Gw route with
          | Some ip => ret (ip, iface)
          | None => throw (Errorf "failed retrieving gateway ip")
          end
      end
  end.
End Retriever.

(** ** Interface groups *)

Definition ErrAlreadySet : string := "already set".
Definition ErrNotSet : string := "not set".
(** [ifgroup.Group], 0xe1f1. *)
Definition ifgroup_Group : Z := 57841.

Record GroupManager (K : Type) : Type := mkGroupManager {
  gm_set : bool;
  gm_backup : gmap Z Z;
  gm_kernel : K
}.
Arguments mkGroupManager {K} _ _ _.
Arguments gm_set {K} _.
Arguments gm_backup {K} _.
Arguments gm_kernel {K} _.
#[export] Instance GroupManager_eta {K} : EtaExpand (GroupManager K) := fun g =>
  mkGroupManager (gm_set g) (gm_backup g) (gm_kernel g).

Definition NewNetlinkManager {K} (k : K) : GroupManager K := mkGroupManager false ∅ k.

Section Ifgroup.
Context {K : Type} `{Netlink K}.
#[local] Abbreviation G := (M (GroupManager K)).

Definition on_links {B} (m : M K B) : G B := zoom gm_kernel (fun k g => g <| gm_kernel := k |>) m.

Definition device_group (device : Interface) : G Z :=
  wrapped ("retrieving netlink device '" +:+ pretty (if_index device) +:+ "': ")
    (on_links (netlink_LinkGroup (if_index device))) "".
Definition set_group (device : Interface) (group : Z) : G unit :=
  wrapped "setting group for netlink device: " (on_links (netlink_LinkSetGroup (if_index device) group)) "".

Definition Group_Set : G unit :=
  let! set := gets gm_set in
  if set : bool then throw (Sentinel ErrAlreadySet)
  else
    let! devices := wrapped "listing devices: " (on_links device_list) "" in
    forM_ devices (fun device =>
      let! group := device_group device in
      modify (fun g => g <| gm_backup := <[if_index device := group]> (gm_backup g) |>)) ;;
    forM_ devices (fun device => set_group device ifgroup_Group) ;;
    set! gm_set := true.

Definition Group_Unset : G unit :=
  let! set := gets gm_set in
  if negb set then throw (Sentinel ErrNotSet)
  else
    let! devices := wrapped "lilsting devices: " (on_links device_list) "" in
    forM_ devices (fun device =>
      device_group device ;;
      let! backup := gets gm_backup in
      set_group device (default 0 (backup !! if_index device))) ;;
    modify (fun g => g <| gm_backup := ∅ |> <| gm_set := false |>).
End Ifgroup.

(** ** The agent for policy rules *)

Definition isRuleSame (rule target : NlRule) : bool :=
  Bool.eqb (ru_Invert rule) (ru_Invert target) && (ru_Mark rule =? ru_Mark target) &&
  (ru_Table rule =? ru_Table target) &&
  ((ru_SuppressIfgroup rule =? ru_SuppressIfgroup target) ||
   (ru_SuppressPrefixlen rule =? ru_SuppressPrefixlen target)).

Definition allowSubnetRule (prioID : Z) (subnet : Prefix) : NlRule :=
  NewRule <| ru_Priority := prioID |> <| ru_Table := RT_TABLE_MAIN |> <| ru_Dst := Some subnet |>.

Definition fwmarkRule (prioID fwmark tableID : Z) : NlRule :=
  NewRule <| ru_Priority := prioID |> <| ru_Invert := true |> <| ru_Mark := fwmark |> <| ru_Table := tableID |>.

Definition suppressRule (prioID : Z) (skipGroup : bool) : NlRule :=
  NewRule <| ru_Priority := prioID |> <| ru_Table := RT_TABLE_MAIN |> <| ru_SuppressPrefixlen := 0 |>
          <| ru_SuppressIfgroup := if skipGroup then -1 else ifgroup_Group |>.

(** [uint(z)] on 64 bits. *)
Definition to_uint (z : Z) : Z := z mod 2 ^ 64.

(** The priority of the last rule other than the main one, 0 when there is none. *)
Definition last_priority (rules : list NlRule) : Z :=
  foldl (fun acc rule => if isRuleSame rule (NewRule <| ru_Table := RT_TABLE_MAIN |>) then acc
                         else to_uint (ru_Priority rule)) 0 rules.
Definition priority_used (rules : list NlRule) (prio : Z) : bool :=
  existsb (fun rule => to_uint (ru_Priority rule) =? prio) rules.

(** The loop: down from [prioID] to the first priority that is not in use.  The
    fuel bounds the priorities tried. *)
Fixpoint free_priority (fuel : nat) (rules : list NlRule) (prioID : Z) : option Z :=
  match fuel with
  | O => None
  | S fuel' =>
      let prioID := prioID - 1 in
      if prioID =? 0 then None
      else if priority_used rules prioID then free_priority fuel' rules prioID
      else Some prioID
  end.

(** The loop passes only over priorities in use, so one step more than there are
    rules is enough. *)
Definition rule_priority (rules : list NlRule) : option Z :=
  if last_priority rules =? 0 then None
  else free_priority (S (length rules)) rules (last_priority rules).

Definition defaultCustomRoutingTableID : Z := 205.

(** The loop up from [tblID] to the first table that is not in use, at most 60000. *)
Fixpoint free_table (fuel : nat) (used : list Z) (tblID : Z) : option Z :=
  match fuel with
  | O => None
  | S fuel' =>
      if existsb (Z.eqb tblID) used then
        let tblID := tblID + 1 in
        if 60000 <? tblID then None else free_table fuel' used tblID
      else Some tblID
  end.
Definition custom_table (routes : list NlRoute) : option Z :=
  free_table (Z.to_nat 59796) (map (fun r => to_uint (nl_Table r)) routes) defaultCustomRoutingTableID.

Record RuleRouter (K : Type) : Type := mkRuleRouter {
  ir_tableID : Z;
  ir_fwmark : Z;
  ir_allowSubnets : list string;
  ir_groups : GroupManager K
}.
Arguments mkRuleRouter {K} _ _ _ _.
Arguments ir_tableID {K} _.
Arguments ir_fwmark {K} _.
Arguments ir_allowSubnets {K} _.
Arguments ir_groups {K} _.
#[export] Instance RuleRouter_eta {K} : EtaExpand (RuleRouter K) := fun r =>
  mkRuleRouter (ir_tableID r) (ir_fwmark r) (ir_allowSubnets r) (ir_groups r).

(** [iprule.NewRouter]. *)
Definition NewRuleRouter {K} (k : K) (fwmark : Z) : RuleRouter K := mkRuleRouter 0 fwmark [] (NewNetlinkManager k).

Section RuleRouter.
Context {K : Type} `{Netlink K}.
#[local] Abbreviation I := (M (RuleRouter K)).

Definition on_groups {B} (m : M (GroupManager K) B) : I B := zoom ir_groups (fun g r => r <| ir_groups := g |>) m.
Definition on_rules {B} (m : M K B) : I B := on_groups (on_links m).

Definition calculateRulePriority (ipv6 : bool) : I Z :=
  let! rules := wrapped "listing ip rules: " (on_rules (netlink_RuleList ipv6)) "" in
  match rule_priority rules with
  | Some prioID => ret prioID
  | None => throw (Errorf (if last_priority rules =? 0 then "unable to calculate ip rule priority id"
                           else "unable to calculate rule priority id"))
  end.

Definition calculateCustomTableID (ipv6 : bool) : I Z :=
  let! routes := wrapped "listing ip rules: " (on_rules (netlink_RouteList ipv6)) "" in
  match custom_table routes with
  | Some id => ret id
  | None => throw (Errorf "unable to calculate custom table id")
  end.

Definition addFwmarkRule (fwMarkVal prioID tblID : Z) (ipv6 : bool) : I unit :=
  if fwMarkVal =? 0 then throw (Errorf "fwmark cannot be 0")
  else wrapped "adding fwmark rule: " (on_rules (netlink_RuleAdd (fwmarkRule prioID fwMarkVal tblID) ipv6)) "".

Definition findFwmarkRule (fwMarkVal : Z) (ipv6 : bool) : I Z :=
  if fwMarkVal =? 0 then throw (Errorf "fwmark cannot be 0")
  else
    let! rules := wrapped "listing ip rules: " (on_rules (netlink_RuleList ipv6)) "" in
    ret (match find (fun rule => isRuleSame rule (fwmarkRule (-1) fwMarkVal (ru_Table rule))) rules with
         | Some rule => to_uint (ru_Table rule)
         | None => 0
         end).

Definition removeFwmarkRule (fwMarkVal : Z) (ipv6 : bool) : I unit :=
  if fwMarkVal =? 0 then throw (Errorf "fwmark cannot be 0")
  else wrapped "removing fwmark rule: " (on_rules (netlink_RuleDel (fwmarkRule (-1) fwMarkVal (-1)) ipv6)) "".

Definition addAllowSubnetRule (prioID : Z) (subnet : Prefix) (ipv6 : bool) : I unit :=
  wrapped "adding allow subnet rule: " (on_rules (netlink_RuleAdd (allowSubnetRule prioID subnet) ipv6)) "".

Definition removeAllowSubnetRule (subnet : Prefix) (ipv6 : bool) : I unit :=
  wrapped "removing allow subnet rule: " (on_rules (netlink_RuleDel (allowSubnetRule (-1) subnet) ipv6)) "".

Definition removeAllowSubnetRules (subnets : list string) (ipv6 : bool) : I unit :=
  forM_ subnets (fun subnet =>
    match ParseCIDR subnet with
    | None => ret tt
    | Some net => ignore (removeAllowSubnetRule net ipv6)
    end).

Definition addSuppressRule (prioID : Z) (ipv6 skipGroup : bool) : I unit :=
  let! r := attempt (on_rules (netlink_RuleAdd (suppressRule prioID skipGroup) ipv6)) in
  match r with Ok _ => ret tt | Err err => throw (Errorf ("adding suppress rule: " +:+ error_text err)) end.

Definition checkSuppressRule (ipv6 : bool) : I bool :=
  let! rules := wrapped "listing ip rules: " (on_rules (netlink_RuleList ipv6)) "" in
  ret (existsb (fun rule => isRuleSame rule (suppressRule (-1) false)) rules).

Definition removeSuppressRule (ipv6 : bool) : I unit :=
  wrapped "removing suppress prefix rule: " (on_rules (netlink_RuleDel (suppressRule (-1) true) ipv6)) "".

(** A failure to find a priority is not reported. *)
Definition enableLocalTraffic (ipv6 skipGroup : bool) : I unit :=
  let! rulePresent := checkSuppressRule ipv6 in
  when rulePresent (ignore (removeSuppressRule ipv6)) ;;
  let! r := attempt (calculateRulePriority ipv6) in
  match r with
  | Err _ => ret tt
  | Ok ruleID => addSuppressRule ruleID ipv6 skipGroup
  end.

(** The table of the fwmark rule, which is added when there is none. *)
Definition fwmark_table (ipv6 : bool) : I Z :=
  let! fwmark := gets ir_fwmark in
  let! routingTableID := findFwmarkRule fwmark ipv6 in
  if routingTableID =? 0 then
    let! fwMarkRuleID := calculateRulePriority ipv6 in
    let! routingTableID := calculateCustomTableID ipv6 in
    addFwmarkRule fwmark fwMarkRuleID routingTableID ipv6 ;;
    ret routingTableID
  else ret routingTableID.

Definition allow_subnet (ipv6 : bool) (subnet : string) : I unit :=
  let! subnetRuleID := calculateRulePriority ipv6 in
  match ParseCIDR subnet with
  | None => throw (Errorf ("invalid CIDR address: " +:+ subnet))
  | Some net => addAllowSubnetRule subnetRuleID net ipv6
  end.

(** The body of the loop over the families. *)
Definition setup_family (enableLocal lanDiscovery : bool) (allowSubnets : list string) (ipv6 : bool) : I unit :=
  let! routingTableID := fwmark_table ipv6 in
  set! ir_tableID := routingTableID ;;
  (if enableLocal then enableLocalTraffic ipv6 lanDiscovery else ignore (removeSuppressRule ipv6)) ;;
  let! old := gets ir_allowSubnets in
  removeAllowSubnetRules old ipv6 ;;
  forM_ allowSubnets (allow_subnet ipv6).

(** The deferred function. *)
Definition recover_family (allowSubnets : list string) (ipv6 : bool) : I unit :=
  ignore (removeSuppressRule ipv6) ;;
  ignore (let! fwmark := gets ir_fwmark in removeFwmarkRule fwmark ipv6) ;;
  removeAllowSubnetRules allowSubnets ipv6.

Definition SetupRoutingRules (ipv6Enabled enableLocal lanDiscovery : bool) (allowSubnets : list string) : I unit :=
  wrapped "setting rp filter: " (on_rules rpfilter_Set) "" ;;
  let! g := attempt (on_groups Group_Set) in
  match g with
  | Err err => if errors_Is err ErrAlreadySet then ret tt else throw (Wrapf "setting ifgroups: " err "")
  | Ok _ => ret tt
  end ;;
  let families := if ipv6Enabled then [false; true] else [false] in
  on_error
    (forM_ families (setup_family enableLocal lanDiscovery allowSubnets) ;;
     set! ir_allowSubnets := allowSubnets)
    (forM_ families (recover_family allowSubnets)).

(** The body of the loop of [CleanupRouting]. *)
Definition cleanup_family (ipv6 : bool) : I unit :=
  ignore (removeSuppressRule ipv6) ;;
  ignore (let! fwmark := gets ir_fwmark in removeFwmarkRule fwmark ipv6) ;;
  let! old := gets ir_allowSubnets in
  removeAllowSubnetRules old ipv6.

Definition CleanupRouting : I unit :=
  forM_ [false; true] cleanup_family ;;
  wrapped "unsetting rp filter: " (on_rules rpfilter_Unset) "" ;;
  wrapped "unsetting ifgroups: " (on_groups Group_Unset) "" ;;
  set! ir_tableID := 0.

#[export] Instance rule_agent : PolicyAgent (RuleRouter K) := {|
  agent_SetupRoutingRules := SetupRoutingRules;
  agent_CleanupRouting := CleanupRouting;
  agent_TableID := ir_tableID
|}.
End RuleRouter.
