(* ===== verification/RoutesKernel.v ===== *)
(** * RoutesKernel: a kernel in memory

    A concrete [Netlink]: two lists of rules, a list of routes and a list of
    interfaces with their groups.  It meets the laws the theorems about routes
    assume, and the behaviours behind the findings are computed on it. *)

From stdpp Require Import base option list sorting strings pretty gmap.
From Stdlib Require Import ZArith Lia.
From S2P Require Import Prelude GoLib Config Firewall Networker Routes.

Open Scope Z_scope.
Open Scope go_scope.

Module MemNetlink.

Record Mem : Type := mkMem {
  m_rules4 : list NlRule;
  m_rules6 : list NlRule;
  m_routes : list NlRoute;
  m_links : list (Interface * Z)
}.
#[export] Instance Mem_eta : EtaExpand Mem := fun m => mkMem (m_rules4 m) (m_rules6 m) (m_routes m) (m_links m).

Definition mem_rules (m : Mem) (ipv6 : bool) : list NlRule := if ipv6 then m_rules6 m else m_rules4 m.
Definition with_rules (ipv6 : bool) (l : list NlRule) (m : Mem) : Mem :=
  if ipv6 then m <| m_rules6 := l |> else m <| m_rules4 := l |>.

(** The list without its first element that satisfies [f]. *)
Fixpoint remove_if {A} (f : A -> bool) (l : list A) : option (list A) :=
  match l with
  | [] => None
  | x :: l' => if f x then Some l' else cons x <$> remove_if f l'
  end.

Definition update {A} (f : Mem -> option Mem) (a : A) (e : string) : M Mem A := fun m =>
  match f m with Some m' => (Ok a, m') | None => (Err (Sentinel e), m) end.

Definition route_ipv6 (r : NlRoute) : bool := match nl_Dst r with Some p => addr_Is6 (pfx_addr p) | None => false end.

Definition set_links (i g : Z) (l : list (Interface * Z)) : list (Interface * Z) :=
  map (fun x => if if_index x.1 =? i then (x.1, g) else x) l.

#[local] Instance routeCmp_dec (a b : NlRoute) : Decision ((fun a b => routeCmp a b <= 0) a b).
Proof. apply Z_le_dec. Defined.

#[export] Instance mem_netlink : Netlink Mem := {|
  netlink_RouteAdd r := update (fun m => if bool_decide (r ∈ m_routes m) then None else Some (m <| m_routes := m_routes m ++ [r] |>)) tt ErrExist;
  netlink_RouteDel r := update (fun m => (fun l => m <| m_routes := l |>) <$> remove_if (fun x => bool_decide (x = r)) (m_routes m)) tt "no such process";
  netlink_RouteList ipv6 := gets (fun m => filter (fun r => route_ipv6 r = ipv6) (m_routes m));
  netlink_RuleList ipv6 := gets (fun m => mem_rules m ipv6);
  netlink_RuleAdd r ipv6 := update (fun m => Some (with_rules ipv6 (r :: mem_rules m ipv6) m)) tt ErrExist;
  netlink_RuleDel t ipv6 := update (fun m => (fun l => with_rules ipv6 l m) <$> remove_if (agrees t) (mem_rules m ipv6)) tt "no such file or directory";
  netlink_LinkGroup i := fun m =>
    match find (fun x => if_index x.1 =? i) (m_links m) with
    | Some x => (Ok x.2, m)
    | None => (Err (Sentinel "Link not found"), m)
    end;
  netlink_LinkSetGroup i g := update (fun m =>
    match find (fun x => if_index x.1 =? i) (m_links m) with
    | Some _ => Some (m <| m_links := set_links i g (m_links m) |>)
    | None => None
    end) tt "no such device";
  netlink_LinkList := gets (fun m => map (fun x => (if_index x.1, x.2)) (m_links m));
  net_InterfaceByIndex i := fun m =>
    match find (fun x => if_index x.1 =? i) (m_links m) with
    | Some x => (Ok x.1, m)
    | None => (Err (Sentinel "no such network interface"), m)
    end;
  device_list := gets (fun m => map fst (m_links m));
  rpfilter_Set := ret tt;
  rpfilter_Unset := ret tt;
  sort_routes := merge_sort (fun a b => routeCmp a b <= 0)
|}.

Lemma remove_if_Some {A} (f : A -> bool) l l' :
  remove_if f l = Some l' -> exists x, f x = true /\ l ≡ₚ x :: l'.
Proof.
  revert l'. induction l as [|y l IH]; intros l'; cbn; [done|]. destruct (f y) eqn:Hf.
  - intros [= ->]. by exists y.
  - intros (l2 & Hl2 & ->)%fmap_Some. destruct (IH l2 Hl2) as (x & Hx & Hp). exists x. split; [done|].
    rewrite Hp. apply Permutation_swap.
Qed.

Lemma remove_if_None {A} (f : A -> bool) l x : remove_if f l = None -> x ∈ l -> f x = false.
Proof.
  induction l as [|y l IH]; cbn; [by intros _ ?%not_elem_of_nil|]. destruct (f y) eqn:Hf; [done|].
  intros Hn%fmap_None [->|Hx]%elem_of_cons; [done|auto].
Qed.

Lemma rules_with ipv6 l m : mem_rules (with_rules ipv6 l m) ipv6 = l.
Proof. by destruct ipv6. Qed.
Lemma rules_with_other ipv6 l m : mem_rules (with_rules ipv6 l m) (negb ipv6) = mem_rules m (negb ipv6).
Proof. by destruct ipv6. Qed.

Lemma routeCmp_le a b :
  routeCmp a b <= 0 <->
  dst_len (nl_Dst b) < dst_len (nl_Dst a) \/
  dst_len (nl_Dst b) = dst_len (nl_Dst a) /\ nl_Priority a <= nl_Priority b.
Proof. unfold routeCmp. repeat case_match; rewrite ?Z.ltb_lt, ?Z.ltb_ge in *; lia. Qed.

#[export] Instance routeCmp_trans : Transitive (fun a b => routeCmp a b <= 0).
Proof. intros a b c. rewrite !routeCmp_le. lia. Qed.
#[export] Instance routeCmp_total : Total (fun a b => routeCmp a b <= 0).
Proof. intros a b. rewrite !routeCmp_le. lia. Qed.

#[export] Instance mem_laws : NetlinkLaws Mem mem_rules m_routes.
Proof.
  constructor; try done.
  - intros fam k l [= <-]. done.
  - intros r fam k _. cbn. by rewrite rules_with.
  - intros t fam k. cbn. unfold update. destruct (remove_if _ _) as [l|] eqn:Hr; [|done]. intros _. cbn.
    rewrite rules_with. by apply remove_if_Some.
  - intros t fam k e. cbn. unfold update. destruct (remove_if _ _) as [l|] eqn:Hr; [done|]. intros _. split; [done|].
    intros r. by apply remove_if_None.
  - intros r fam k. apply rules_with_other.
  - intros t fam k. cbn. unfold update. destruct (remove_if _ _); [apply rules_with_other|done].
  - intros fam k l [= <-] r [_ Hr]%list_elem_of_filter. done.
  - intros r k. cbn. unfold update. destruct (bool_decide _); [done|]. intros _. cbn. solve_Permutation.
  - intros r k e. cbn. unfold update. by destruct (bool_decide _).
  - intros r k. cbn. unfold update. destruct (remove_if _ _) as [l|] eqn:Hr; [|done]. intros _. cbn.
    by apply remove_if_Some in Hr as (x & ->%bool_decide_eq_true & Hp).
  - intros r k e. cbn. unfold update. by destruct (remove_if _ _).
  - intros l. apply merge_sort_Permutation.
  - intros l. apply StronglySorted_merge_sort; apply _.
  - intros i k. cbn. by destruct (find _ _).
  - intros i g k. cbn. unfold update. by destruct (find _ _).
Qed.

(** The group of each link. *)
Definition mem_groups (m : Mem) : gmap Z Z := list_to_map (map (fun x => (if_index x.1, x.2)) (m_links m)).

Lemma mem_groups_lookup l i :
  (list_to_map (map (fun x : Interface * Z => (if_index x.1, x.2)) l) : gmap Z Z) !! i =
  snd <$> find (fun x => if_index x.1 =? i) l.
Proof.
  induction l as [|x l IH]; cbn; [apply lookup_empty|]. destruct (Z.eqb_spec (if_index x.1) i) as [->|Hne].
  - by rewrite lookup_insert_eq.
  - by rewrite lookup_insert_ne.
Qed.

Lemma find_set_links i g l j :
  snd <$> find (fun x => if_index x.1 =? j) (set_links i g l) =
  if i =? j then (fun _ => g) <$> find (fun x => if_index x.1 =? j) l else snd <$> find (fun x => if_index x.1 =? j) l.
Proof.
  induction l as [|x l IH]; cbn; [by destruct (i =? j)|].
  destruct (Z.eqb_spec (if_index x.1) i) as [Hi|Hi]; cbn; destruct (Z.eqb_spec (if_index x.1) j) as [Hj|Hj]; cbn.
  - by replace (i =? j) with true by (symmetry; apply Z.eqb_eq; congruence).
  - exact IH.
  - replace (i =? j) with false; [done|]. symmetry. apply Z.eqb_neq. congruence.
  - exact IH.
Qed.
End MemNetlink.
