(* ===== verification/RoutesProps.v ===== *)
(** * RoutesProps: properties of the routes and policy rules

    First the choice of priorities and tables, then the rules in the kernel: the
    policy router only ever adds its own rules, at most one for the mark and one
    for local traffic, and a cleanup removes exactly these.  Then the routes of the
    router, the gateway that is found, and the groups of the interfaces. *)

From stdpp Require Import base option list sorting strings pretty gmap.
From Stdlib Require Import ZArith Lia.
From S2P Require Import Prelude GoLib Config Firewall Networker Routes RoutesKernel.

Open Scope Z_scope.
Open Scope go_scope.

(** ** Priorities and tables *)

Lemma priority_used_spec rules p :
  priority_used rules p = true <-> p ∈ map (fun r => to_uint (ru_Priority r)) rules.
Proof.
  unfold priority_used. rewrite existsb_exists, list_elem_of_fmap. split.
  - intros (r & Hr & Hp%Z.eqb_eq). exists r. split; [done|]. by apply list_elem_of_In.
  - intros (r & -> & Hr). exists r. split; [by apply list_elem_of_In|]. apply Z.eqb_refl.
Qed.

(** The free priority is the largest one, if the loop ends in time. *)
Lemma free_priority_Some fuel rules p q :
  0 < p -> free_priority fuel rules p = Some q ->
  0 < q < p /\ priority_used rules q = false /\ forall x, q < x < p -> priority_used rules x = true.
Proof.
  revert p. induction fuel as [|fuel IH]; intros p Hp; [done|]. cbn [free_priority].
  destruct (Z.eqb_spec (p - 1) 0); [done|]. destruct (priority_used rules (p - 1)) eqn:Hu.
  - intros (Hq & Hf & Hx)%IH; [|lia]. split_and!; [lia|lia|done|]. intros x Hxp.
    destruct (decide (x = p - 1)) as [->|]; [done|]. apply Hx. lia.
  - intros [= <-]. split_and!; [lia|lia|done|lia].
Qed.

Lemma free_priority_None fuel rules p :
  0 < p -> free_priority fuel rules p = None ->
  forall x, Z.max 0 (p - 1 - Z.of_nat fuel) < x < p -> priority_used rules x = true.
Proof.
  revert p. induction fuel as [|fuel IH]; intros p Hp; [lia|]. cbn [free_priority].
  destruct (Z.eqb_spec (p - 1) 0) as [He|He]; [lia|]. destruct (priority_used rules (p - 1)) eqn:Hu; [|done].
  intros Hn x Hx. destruct (decide (x = p - 1)) as [->|]; [done|]. apply (IH (p - 1)); [lia|done|lia].
Qed.

(** Priorities in use below [p], one after the other, are no more than the rules. *)
Lemma used_priorities_bound rules p n :
  (forall x, p - 1 - Z.of_nat n < x < p -> priority_used rules x = true) -> (n <= length rules)%nat.
Proof.
  intros Hx. rewrite <- (length_map (fun r => to_uint (ru_Priority r)) rules).
  transitivity (length (seqZ (p - Z.of_nat n) (Z.of_nat n))); [rewrite length_seqZ; lia|].
  apply submseteq_length, NoDup_submseteq; [apply NoDup_seqZ|].
  intros x [Hl Hu]%elem_of_seqZ. apply priority_used_spec, Hx. lia.
Qed.

Lemma last_priority_nonneg rules : 0 <= last_priority rules.
Proof.
  unfold last_priority. assert (forall acc, 0 <= acc -> 0 <= foldl (fun acc rule =>
    if isRuleSame rule (NewRule <| ru_Table := RT_TABLE_MAIN |>) then acc else to_uint (ru_Priority rule)) acc rules) as Hf.
  { induction rules as [|r rules IH]; intros acc Ha; [done|]. cbn [foldl]. apply IH.
    destruct (isRuleSame r _); [done|]. unfold to_uint. apply Z.mod_pos_bound. lia. }
  by apply Hf.
Qed.

(** The priority for a new rule.  It is the largest priority below that of the
    last rule other than the main one that no rule uses, and positive, so that the
    new rule goes before the rules it has to precede and after no rule of the same
    priority; and there is an answer unless every smaller priority is taken. *)
Theorem rule_priority_is_free (rules : list NlRule) :
  match rule_priority rules with
  | Some p => 0 < p < last_priority rules /\ priority_used rules p = false /\
              forall x, p < x < last_priority rules -> priority_used rules x = true
  | None => forall x, 0 < x < last_priority rules -> priority_used rules x = true
  end.
Proof.
  unfold rule_priority. pose proof (last_priority_nonneg rules) as Hl.
  destruct (Z.eqb_spec (last_priority rules) 0) as [He|He]; [lia|].
  destruct (free_priority (S (length rules)) rules (last_priority rules)) as [p|] eqn:Hf.
  - apply free_priority_Some in Hf as (Hp & Hu & Hx); [|lia]. done.
  - pose proof (free_priority_None _ _ (last_priority rules) ltac:(lia) Hf) as Hn. intros x Hx. apply Hn. split; [|lia].
    destruct (decide (last_priority rules - 1 - Z.of_nat (S (length rules)) <= 0)); [lia|].
    enough (S (length rules) <= length rules)%nat by lia.
    apply (used_priorities_bound rules (last_priority rules)). intros y Hy. apply Hn. lia.
Qed.

Lemma free_table_spec fuel used t :
  t <= 60000 -> 60000 - t < Z.of_nat fuel ->
  match free_table fuel used t with
  | Some q => t <= q <= 60000 /\ (q ∉ used) /\ forall x, t <= x < q -> x ∈ used
  | None => forall x, t <= x <= 60000 -> x ∈ used
  end.
Proof.
  revert t. induction fuel as [|fuel IH]; intros t Ht Hf; [lia|]. cbn [free_table].
  destruct (existsb (Z.eqb t) used) eqn:He.
  - apply existsb_exists in He as (y & Hy%list_elem_of_In & <-%Z.eqb_eq).
    destruct (Z.ltb_spec 60000 (t + 1)) as [Hgt|Hle]; [intros x Hx; by replace x with t by lia|].
    specialize (IH (t + 1) Hle ltac:(lia)). destruct (free_table fuel used (t + 1)) as [q|].
    + destruct IH as (Hq & Hu & Hx). split_and!; [lia|lia|done|]. intros x Hx'.
      destruct (decide (x = t)) as [->|]; [done|]. apply Hx. lia.
    + intros x Hx. destruct (decide (x = t)) as [->|]; [done|]. apply IH. lia.
  - split_and!; [lia|lia| |lia]. intros Hin. apply not_true_iff_false in He. apply He, existsb_exists.
    exists t. split; [by apply list_elem_of_In|apply Z.eqb_refl].
Qed.

Lemma custom_table_bounds routes t : custom_table routes = Some t -> 205 <= t <= 60000.
Proof.
  unfold custom_table. intros Ht.
  pose proof (free_table_spec (Z.to_nat 59796) (map (fun r => to_uint (nl_Table r)) routes)
                defaultCustomRoutingTableID ltac:(done) ltac:(done)) as Hs.
  rewrite Ht in Hs. apply Hs.
Qed.

(** The table for the routes through the tunnel.  It is the smallest number
    from 205 on that no route names as its table, and at most 60000; there is one
    unless all of them are taken. *)
Theorem custom_table_is_free (routes : list NlRoute) :
  match custom_table routes with
  | Some t => 205 <= t <= 60000 /\ (forall r, r ∈ routes -> to_uint (nl_Table r) <> t) /\
              forall x, 205 <= x < t -> exists r, r ∈ routes /\ to_uint (nl_Table r) = x
  | None => forall x, 205 <= x <= 60000 -> exists r, r ∈ routes /\ to_uint (nl_Table r) = x
  end.
Proof.
  unfold custom_table.
  pose proof (free_table_spec (Z.to_nat 59796) (map (fun r => to_uint (nl_Table r)) routes)
                defaultCustomRoutingTableID ltac:(done) ltac:(done)) as Hs.
  assert (Hin : forall x, x ∈ map (fun r => to_uint (nl_Table r)) routes -> exists r, r ∈ routes /\ to_uint (nl_Table r) = x).
  { intros x (r & -> & Hr)%list_elem_of_fmap. by exists r. }
  destruct (free_table _ _ _) as [t|].
  - destruct Hs as (Ht & Hu & Hx). split_and!; [apply Ht|apply Ht| |auto].
    intros r Hr <-. apply Hu, list_elem_of_fmap. by exists r.
  - auto.
Qed.

(** ** The rules in the kernel *)

Section OwnRules.
(** The rules before the daemon, and the mark. *)
Context (base : list NlRule) (mark : Z).

Definition is_fwmark (r : NlRule) : Prop := exists prio table, r = fwmarkRule prio mark table /\ 0 < table < 2 ^ 64.
Definition is_suppress (r : NlRule) : Prop := exists prio skip, r = suppressRule prio skip.
Definition is_allow (r : NlRule) (net : Prefix) : Prop := exists prio, r = allowSubnetRule prio net.

(** Beside the rules of others there are at most [f] rules for the mark, at most
    [s] for local traffic, and rules for subnets among [nets]. *)
Definition own_list (f s : nat) (nets : list Prefix) (l : list NlRule) : Prop :=
  exists fw sup subs dsts, l ≡ₚ base ++ fw ++ sup ++ subs /\
    Forall is_fwmark fw /\ Forall is_suppress sup /\ Forall2 is_allow subs dsts /\
    (length fw <= f)%nat /\ (length sup <= s)%nat /\ dsts ⊆+ nets.

#[export] Instance own_list_proper f s nets : Proper ((≡ₚ) ==> iff) (own_list f s nets).
Proof.
  assert (forall l l', l ≡ₚ l' -> own_list f s nets l -> own_list f s nets l') as Hp.
  { intros l l' Hl (fw & sup & subs & dsts & Hr & Hrest). exists fw, sup, subs, dsts. split; [by rewrite <- Hl|done]. }
  intros l l' Hl. split; apply Hp; [done|by symmetry].
Qed.

Lemma own_mono f s nets f' s' nets' l :
  (f <= f')%nat -> (s <= s')%nat -> nets ⊆+ nets' -> own_list f s nets l -> own_list f' s' nets' l.
Proof.
  intros Hf Hs Hn (fw & sup & subs & dsts & Hr & Ha & Hb & Hc & Hlf & Hls & Hd).
  exists fw, sup, subs, dsts. split_and!; try done; [lia|lia|by etrans].
Qed.

Lemma own_add_fwmark s nets l r : is_fwmark r -> own_list 0 s nets l -> own_list 1 s nets (r :: l).
Proof.
  intros Hr (fw & sup & subs & dsts & Hl & Ha & Hb & Hc & Hlf & Hls & Hd). destruct fw; [|cbn in Hlf; lia].
  exists [r], sup, subs, dsts. split_and!; try done; [|by constructor]. rewrite Hl. solve_Permutation.
Qed.

Lemma own_add_suppress f nets l r : is_suppress r -> own_list f 0 nets l -> own_list f 1 nets (r :: l).
Proof.
  intros Hr (fw & sup & subs & dsts & Hl & Ha & Hb & Hc & Hlf & Hls & Hd). destruct sup; [|cbn in Hls; lia].
  exists fw, [r], subs, dsts. split_and!; try done; [|by constructor]. rewrite Hl. solve_Permutation.
Qed.

Lemma own_add_allow f s nets l r net : is_allow r net -> own_list f s nets l -> own_list f s (net :: nets) (r :: l).
Proof.
  intros Hr (fw & sup & subs & dsts & Hl & Ha & Hb & Hc & Hlf & Hls & Hd).
  exists fw, sup, (r :: subs), (net :: dsts). split_and!; try done.
  - rewrite Hl. solve_Permutation.
  - by constructor.
  - by apply submseteq_skip.
Qed.

(** No rule of others is like one of the daemon. *)
Definition foreign : Prop :=
  forall r, r ∈ base ->
    agrees (fwmarkRule (-1) mark (-1)) r = false /\ agrees (suppressRule (-1) true) r = false /\
    forall net, agrees (allowSubnetRule (-1) net) r = false.
Context (Hforeign : foreign) (Hmark : 0 < mark).

(** Which of the daemon's rules a deletion can hit. *)
Lemma fwmark_hits_fwmark r : is_fwmark r -> agrees (fwmarkRule (-1) mark (-1)) r = true.
Proof. intros (p & t & -> & _). unfold agrees. cbn. by rewrite Z.eqb_refl, orb_true_r. Qed.
Lemma fwmark_misses r : is_suppress r \/ (exists net, is_allow r net) -> agrees (fwmarkRule (-1) mark (-1)) r = false.
Proof.
  intros [(p & sk & ->)|(net & p & ->)]; unfold agrees; cbn;
    (destruct (Z.eqb_spec mark (-1)); [lia|]); by rewrite ?andb_false_r.
Qed.
Lemma suppress_hits_suppress r : is_suppress r -> agrees (suppressRule (-1) true) r = true.
Proof. by intros (p & sk & ->). Qed.
Lemma suppress_misses r : is_fwmark r \/ (exists net, is_allow r net) -> agrees (suppressRule (-1) true) r = false.
Proof. intros [(p & t & -> & _)|(net & p & ->)]; unfold agrees; cbn; by rewrite ?andb_false_r. Qed.
Lemma allow_hits r net net' : is_allow r net' -> agrees (allowSubnetRule (-1) net) r = true <-> net = net'.
Proof.
  intros (p & ->). unfold agrees. cbn [allowSubnetRule NewRule set_field ru_Dst]. cbn. split.
  - by intros [= ->]%bool_decide_eq_true.
  - intros ->. by apply bool_decide_true.
Qed.
Lemma allow_misses r net : is_fwmark r \/ is_suppress r -> agrees (allowSubnetRule (-1) net) r = false.
Proof.
  intros [(p & t & -> & _)|(p & sk & ->)]; unfold agrees; cbn; by rewrite ?andb_false_r.
Qed.

Lemma Forall2_subs subs dsts r :
  Forall2 is_allow subs dsts -> r ∈ subs -> exists net, net ∈ dsts /\ is_allow r net.
Proof.
  intros H2 Hr. apply list_elem_of_lookup in Hr as (i & Hi). destruct (Forall2_lookup_l _ _ _ _ _ H2 Hi) as (net & Hn & Ha).
  exists net. split; [by eapply list_elem_of_lookup_2|done].
Qed.

(** A rule that agrees with the daemon's deletions is the daemon's. *)
Lemma own_agrees_fwmark f s nets l r :
  own_list f s nets l -> r ∈ l -> agrees (fwmarkRule (-1) mark (-1)) r = true -> is_fwmark r.
Proof.
  intros (fw & sup & subs & dsts & Hl & Ha & Hb & Hc & _) Hin Hag. rewrite Hl, !elem_of_app in Hin.
  rewrite Forall_forall in Ha. rewrite Forall_forall in Hb. destruct Hin as [Hin|[Hin|[Hin|Hin]]]; [|auto|..].
  - destruct (Hforeign r Hin) as (Hf & _). congruence.
  - rewrite fwmark_misses in Hag; [done|]. auto.
  - destruct (Forall2_subs _ _ _ Hc Hin) as (net & _ & Hn). rewrite fwmark_misses in Hag; [done|]. eauto.
Qed.

Lemma own_agrees_suppress f s nets l r :
  own_list f s nets l -> r ∈ l -> agrees (suppressRule (-1) true) r = true -> is_suppress r.
Proof.
  intros (fw & sup & subs & dsts & Hl & Ha & Hb & Hc & _) Hin Hag. rewrite Hl, !elem_of_app in Hin.
  rewrite Forall_forall in Ha. rewrite Forall_forall in Hb. destruct Hin as [Hin|[Hin|[Hin|Hin]]]; [| |auto|].
  - destruct (Hforeign r Hin) as (_ & Hf & _). congruence.
  - rewrite suppress_misses in Hag; [done|]. auto.
  - destruct (Forall2_subs _ _ _ Hc Hin) as (net & _ & Hn). rewrite suppress_misses in Hag; [done|]. eauto.
Qed.

Lemma own_del_fwmark s nets r l :
  own_list 1 s nets (r :: l) -> agrees (fwmarkRule (-1) mark (-1)) r = true -> own_list 0 s nets l.
Proof.
  intros (fw & sup & subs & dsts & Hl & Ha & Hb & Hc & Hlf & Hls & Hd) Hag.
  assert (Hin : r ∈ base ++ fw ++ sup ++ subs) by (rewrite <- Hl; left).
  rewrite !elem_of_app in Hin. destruct Hin as [Hin|[Hin|[Hin|Hin]]].
  - destruct (Hforeign r Hin) as (Hf & _). congruence.
  - destruct fw as [|x [|y fw]]; [by apply not_elem_of_nil in Hin| |cbn in Hlf; lia].
    apply list_elem_of_singleton in Hin as ->. exists [], sup, subs, dsts. split_and!; try done.
    apply (Permutation_cons_inv (a := x)). rewrite Hl. solve_Permutation.
  - rewrite Forall_forall in Hb. rewrite fwmark_misses in Hag; [done|]. auto.
  - destruct (Forall2_subs _ _ _ Hc Hin) as (net & _ & Hn). rewrite fwmark_misses in Hag; [done|]. eauto.
Qed.

Lemma own_no_fwmark s nets l :
  own_list 1 s nets l -> (forall r, r ∈ l -> agrees (fwmarkRule (-1) mark (-1)) r = false) -> own_list 0 s nets l.
Proof.
  intros (fw & sup & subs & dsts & Hl & Ha & Hb & Hc & Hlf & Hls & Hd) Hno. destruct fw as [|x fw].
  - exists [], sup, subs, dsts. by split_and!; try done; cbn; lia.
  - apply Forall_cons in Ha as [Hx _]. specialize (Hno x). rewrite fwmark_hits_fwmark in Hno by done.
    discriminate Hno. rewrite Hl, !elem_of_app, elem_of_cons. auto.
Qed.

Lemma own_del_suppress f nets r l :
  own_list f 1 nets (r :: l) -> agrees (suppressRule (-1) true) r = true -> own_list f 0 nets l.
Proof.
  intros (fw & sup & subs & dsts & Hl & Ha & Hb & Hc & Hlf & Hls & Hd) Hag.
  assert (Hin : r ∈ base ++ fw ++ sup ++ subs) by (rewrite <- Hl; left).
  rewrite !elem_of_app in Hin. destruct Hin as [Hin|[Hin|[Hin|Hin]]].
  - destruct (Hforeign r Hin) as (_ & Hf & _). congruence.
  - rewrite Forall_forall in Ha. rewrite suppress_misses in Hag; [done|]. auto.
  - destruct sup as [|x [|y sup]]; [by apply not_elem_of_nil in Hin| |cbn in Hls; lia].
    apply list_elem_of_singleton in Hin as ->. exists fw, [], subs, dsts. split_and!; try done.
    apply (Permutation_cons_inv (a := x)). rewrite Hl. solve_Permutation.
  - destruct (Forall2_subs _ _ _ Hc Hin) as (net & _ & Hn). rewrite suppress_misses in Hag; [done|]. eauto.
Qed.

Lemma own_no_suppress f nets l :
  own_list f 1 nets l -> (forall r, r ∈ l -> agrees (suppressRule (-1) true) r = false) -> own_list f 0 nets l.
Proof.
  intros (fw & sup & subs & dsts & Hl & Ha & Hb & Hc & Hlf & Hls & Hd) Hno. destruct sup as [|x sup].
  - exists fw, [], subs, dsts. by split_and!; try done; cbn; lia.
  - apply Forall_cons in Hb as [Hx _]. specialize (Hno x). rewrite suppress_hits_suppress in Hno by done.
    discriminate Hno. rewrite Hl, !elem_of_app, elem_of_cons. auto.
Qed.

Lemma own_del_allow f s nets net r l :
  own_list f s (net :: nets) (r :: l) -> agrees (allowSubnetRule (-1) net) r = true -> own_list f s nets l.
Proof.
  intros (fw & sup & subs & dsts & Hl & Ha & Hb & Hc & Hlf & Hls & Hd) Hag.
  assert (Hin : r ∈ base ++ fw ++ sup ++ subs) by (rewrite <- Hl; left).
  rewrite !elem_of_app in Hin. destruct Hin as [Hin|[Hin|[Hin|Hin]]].
  - destruct (Hforeign r Hin) as (_ & _ & Hf). specialize (Hf net). congruence.
  - rewrite Forall_forall in Ha. rewrite allow_misses in Hag; [done|]. auto.
  - rewrite Forall_forall in Hb. rewrite allow_misses in Hag; [done|]. auto.
  - apply list_elem_of_split in Hin as (s1 & s2 & ->).
    apply Forall2_app_inv_l in Hc as (d1 & d2' & H1 & H2 & ->). apply Forall2_cons_inv_l in H2 as (net' & d2 & Hn & H2 & ->).
    apply (allow_hits r net net' Hn) in Hag as <-.
    exists fw, sup, (s1 ++ s2), (d1 ++ d2). split_and!; try done.
    + apply (Permutation_cons_inv (a := r)). rewrite Hl. solve_Permutation.
    + by apply Forall2_app.
    + apply (submseteq_app_inv_l _ _ [net]). cbn. by rewrite Permutation_middle.
Qed.

Lemma own_no_allow f s nets net l :
  own_list f s (net :: nets) l -> (forall r, r ∈ l -> agrees (allowSubnetRule (-1) net) r = false) ->
  own_list f s nets l.
Proof.
  intros (fw & sup & subs & dsts & Hl & Ha & Hb & Hc & Hlf & Hls & Hd) Hno.
  exists fw, sup, subs, dsts. split_and!; try done.
  apply submseteq_cons_r in Hd as [Hd|(k & Hk & Hd)]; [done|].
  assert (Hn : net ∈ dsts) by (rewrite Hk; left). apply list_elem_of_lookup in Hn as (i & Hi).
  destruct (Forall2_lookup_r _ _ _ _ _ Hc Hi) as (r & Hr & Hal). specialize (Hno r).
  rewrite (proj2 (allow_hits r net net Hal) eq_refl) in Hno. discriminate Hno.
  rewrite Hl, !elem_of_app. do 3 right. by eapply list_elem_of_lookup_2.
Qed.
End OwnRules.

Section RuleRouterProps.
Context {K : Type} `{Netlink K} {rules : K -> bool -> list NlRule} {routes : K -> list NlRoute}
  `{!NetlinkLaws K rules routes}.
(** The family looked at, its rules before the daemon, the mark, and the subnets
    the router remembers. *)
Context (fam : bool) (base : list NlRule) (mark : Z) (Hforeign : foreign base mark) (Hmark : 0 < mark).
Context (old : list string).

Definition kernel_rules (r : RuleRouter K) : list NlRule := rules (gm_kernel (ir_groups r)) fam.

Definition Own (f s : nat) (nets : list Prefix) (r : RuleRouter K) : Prop :=
  ir_fwmark r = mark /\ ir_allowSubnets r = old /\ own_list base mark f s nets (kernel_rules r).

Lemma Own_mono f s nets f' s' nets' r :
  (f <= f')%nat -> (s <= s')%nat -> nets ⊆+ nets' -> Own f s nets r -> Own f' s' nets' r.
Proof. intros Hf Hs Hn (Hm & Hs' & Ho). split_and!; [done..|]. by eapply own_mono. Qed.

(** A call of netlink, as a change of the kernel. *)
Lemma on_rules_run {B} (m : M K B) r :
  (on_rules m r).1 = (m (gm_kernel (ir_groups r))).1 /\
  kernel_rules (on_rules m r).2 = rules (m (gm_kernel (ir_groups r))).2 fam /\
  ir_fwmark (on_rules m r).2 = ir_fwmark r /\ ir_allowSubnets (on_rules m r).2 = ir_allowSubnets r.
Proof. unfold on_rules, on_groups, on_links, zoom. by destruct (m (gm_kernel (ir_groups r))). Qed.

Lemma on_rules_frame {B} (m : M K B) f s nets :
  (forall k, rules (m k).2 fam = rules k fam) -> preserves (Own f s nets) (on_rules m).
Proof.
  intros Hm r (Hmk & Hs' & Ho). destruct (on_rules_run m r) as (_ & Hk & Hf & Ha). split_and!; [congruence..|].
  rewrite Hk, Hm. done.
Qed.

Lemma on_groups_frame {B} (m : M (GroupManager K) B) f s nets :
  (forall g, rules (gm_kernel (m g).2) = rules (gm_kernel g)) -> preserves (Own f s nets) (on_groups m).
Proof.
  intros Hm r. unfold on_groups, zoom. specialize (Hm (ir_groups r)).
  destruct (m (ir_groups r)) as [res g]. unfold Own, kernel_rules. cbn in *. by rewrite Hm.
Qed.

Lemma add_run rule f s nets f' s' nets' r :
  Own f s nets r -> own_list base mark f' s' nets' (kernel_rules r) ->
  own_list base mark f' s' nets' (rule :: kernel_rules r) ->
  Own f' s' nets' (on_rules (netlink_RuleAdd rule fam) r).2.
Proof.
  intros (Hm & Hs' & _) Ho Ha. destruct (on_rules_run (netlink_RuleAdd rule fam) r) as (_ & Hk & Hf & Hal).
  split_and!; [congruence..|]. rewrite Hk. set (k := gm_kernel (ir_groups r)).
  pose proof (rule_add_ok rule fam k) as Hok. pose proof (rule_add_err rule fam k) as Herr.
  destruct (netlink_RuleAdd rule fam k) as [[[]|e] k']; cbn in *; [by rewrite Hok|by rewrite (Herr e)].
Qed.

Lemma del_run t f s nets f' s' nets' r :
  (forall x l, own_list base mark f s nets (x :: l) -> agrees t x = true -> own_list base mark f' s' nets' l) ->
  (forall l, own_list base mark f s nets l -> (forall x, x ∈ l -> agrees t x = false) -> own_list base mark f' s' nets' l) ->
  Own f s nets r -> Own f' s' nets' (on_rules (netlink_RuleDel t fam) r).2.
Proof.
  intros Hdel Hno (Hm & Hs' & Ho). destruct (on_rules_run (netlink_RuleDel t fam) r) as (_ & Hk & Hf & Hal).
  split_and!; [congruence..|]. rewrite Hk. unfold kernel_rules in Ho. set (k := gm_kernel (ir_groups r)) in *.
  pose proof (rule_del_ok t fam k) as Hok. pose proof (rule_del_err t fam k) as Herr.
  destruct (netlink_RuleDel t fam k) as [[[]|e] k']; cbn in *.
  - destruct (Hok eq_refl) as (x & Hx & Hp). apply (Hdel x); [by rewrite <- Hp|done].
  - destruct (Herr e eq_refl) as [Hp Hx]. rewrite Hp. by apply Hno.
Qed.

Lemma wrapped_state {S B} pre (m : M S B) post s : (wrapped pre m post s).2 = (m s).2.
Proof. unfold wrapped. by destruct (m s) as [[b|e] s']. Qed.

Lemma removeFwmarkRule_own s nets r : Own 1 s nets r -> Own 0 s nets (removeFwmarkRule mark fam r).2.
Proof.
  intros Hr. unfold removeFwmarkRule. destruct (Z.eqb_spec mark 0); [lia|]. rewrite wrapped_state.
  revert Hr. apply del_run; [by apply own_del_fwmark|by apply own_no_fwmark].
Qed.

Lemma removeSuppressRule_own f nets r : Own f 1 nets r -> Own f 0 nets (removeSuppressRule fam r).2.
Proof.
  intros Hr. unfold removeSuppressRule. rewrite wrapped_state.
  revert Hr. apply del_run; [by apply own_del_suppress|by apply own_no_suppress].
Qed.

Lemma removeAllowSubnetRule_own f s nets net r :
  Own f s (net :: nets) r -> Own f s nets (removeAllowSubnetRule net fam r).2.
Proof.
  intros Hr. unfold removeAllowSubnetRule. rewrite wrapped_state.
  revert Hr. apply del_run; [by apply own_del_allow|by apply own_no_allow].
Qed.

(** The subnets that parse. *)
Definition parsed (subnets : list string) : list Prefix := omap ParseCIDR subnets.

Lemma removeAllowSubnetRules_own f s subnets nets r :
  Own f s (parsed subnets ++ nets) r -> Own f s nets (removeAllowSubnetRules subnets fam r).2.
Proof.
  revert r. induction subnets as [|x subnets IH]; intros r Hr; [done|].
  unfold removeAllowSubnetRules. cbn [forM_]. fold (removeAllowSubnetRules (K := K) subnets fam).
  unfold parsed in Hr. cbn in Hr. destruct (ParseCIDR x) as [net|].
  - rewrite bind_ignore. apply IH. by apply removeAllowSubnetRule_own.
  - rewrite bind_ret. by apply IH.
Qed.

(** Removals never do harm. *)
Lemma removeAllowSubnetRules_keep f s subnets nets : preserves (Own f s nets) (removeAllowSubnetRules subnets fam).
Proof.
  intros r Hr. apply removeAllowSubnetRules_own. revert Hr. apply Own_mono; [done|done|]. apply submseteq_inserts_l. done.
Qed.

Lemma list_frame f s nets ipv6 : preserves (Own f s nets) (on_rules (netlink_RuleList ipv6)).
Proof. apply on_rules_frame. intros k. by rewrite rule_list_rules. Qed.
Lemma calculateRulePriority_keep f s nets ipv6 : preserves (Own f s nets) (calculateRulePriority ipv6).
Proof. unfold calculateRulePriority. pres_auto. apply list_frame. Qed.
Lemma calculateCustomTableID_keep f s nets ipv6 : preserves (Own f s nets) (calculateCustomTableID ipv6).
Proof. unfold calculateCustomTableID. pres_auto. apply on_rules_frame. intros k. by rewrite route_list_rules. Qed.
Lemma checkSuppressRule_keep f s nets ipv6 : preserves (Own f s nets) (checkSuppressRule ipv6).
Proof. unfold checkSuppressRule. pres_auto. apply list_frame. Qed.
Lemma findFwmarkRule_keep f s nets ipv6 : preserves (Own f s nets) (findFwmarkRule mark ipv6).
Proof. unfold findFwmarkRule. pres_auto. apply list_frame. Qed.

(** What a listing says about the rules. *)
Lemma listed l r r' :
  on_rules (netlink_RuleList fam) r = (Ok l, r') -> l ≡ₚ kernel_rules r /\ kernel_rules r' = kernel_rules r.
Proof.
  intros Hl. destruct (on_rules_run (netlink_RuleList fam) r) as (H1 & H2 & _). rewrite Hl in H1, H2. cbn in *. split.
  - unfold kernel_rules. by apply rule_list_ok.
  - rewrite H2. unfold kernel_rules. by rewrite rule_list_rules.
Qed.

Lemma Own_kernel f s nets f' s' nets' r r' :
  Own f s nets r' -> kernel_rules r' = kernel_rules r -> own_list base mark f' s' nets' (kernel_rules r) -> Own f' s' nets' r'.
Proof. intros (Hm & Hs & _) Hk Ho. split_and!; [done..|]. by rewrite Hk. Qed.

(** When no table is found, there is no rule for the mark. *)
Lemma findFwmarkRule_none s nets r r' :
  Own 1 s nets r -> findFwmarkRule mark fam r = (Ok 0, r') -> Own 0 s nets r'.
Proof.
  intros Hr Hf. pose proof (findFwmarkRule_keep 1 s nets fam r Hr) as Hk. rewrite Hf in Hk. cbn in Hk.
  revert Hf. unfold findFwmarkRule. destruct (Z.eqb_spec mark 0); [lia|]. unfold bind, wrapped.
  destruct (on_rules (netlink_RuleList fam) r) as [[l|e] r1] eqn:Hl; [|done]. intros [= Hz <-].
  apply listed in Hl as [Hp Hkr]. eapply Own_kernel; [done|done|].
  destruct Hr as (_ & _ & Ho). apply own_no_fwmark; [done|]. rewrite <- Hp in Ho. intros x Hx. rewrite <- Hp in Hx.
  apply not_true_is_false. intros Hag. pose proof (own_agrees_fwmark _ _ Hforeign Hmark _ _ _ _ _ Ho Hx Hag) as (p & t & -> & Ht).
  destruct (find _ l) as [y|] eqn:Hy.
  - apply find_some in Hy as [Hin Hsame]. apply list_elem_of_In in Hin.
    assert (Hag' : agrees (fwmarkRule (-1) mark (-1)) y = true).
    { revert Hsame. unfold isRuleSame, agrees. cbn. rewrite !andb_true_iff, !Z.eqb_eq. intros [[[_ ->] _] _].
      by rewrite Z.eqb_refl, orb_true_r. }
    pose proof (own_agrees_fwmark _ _ Hforeign Hmark _ _ _ _ _ Ho Hin Hag') as (p' & t' & -> & Ht').
    cbn in Hz. unfold to_uint in Hz. rewrite Z.mod_small in Hz by lia. lia.
  - eapply find_none in Hy; [|by apply list_elem_of_In]. revert Hy. unfold isRuleSame. cbn. by rewrite !Z.eqb_refl.
Qed.

Lemma fwmark_table_own s nets : preserves (Own 1 s nets) (fwmark_table fam).
Proof.
  intros r Hr. unfold fwmark_table. rewrite bind_gets. rewrite (proj1 Hr : ir_fwmark r = mark).
  pose proof (findFwmarkRule_keep 1 s nets fam r Hr) as Hk. unfold bind at 1.
  destruct (findFwmarkRule mark fam r) as [[t|e] r1] eqn:Hf; [|done]. destruct (Z.eqb_spec t 0) as [->|]; [|done].
  pose proof (findFwmarkRule_none s nets r r1 Hr Hf) as H0.
  pose proof (calculateRulePriority_keep 0 s nets fam r1 H0) as H1. unfold bind at 1.
  destruct (calculateRulePriority fam r1) as [[prio|e] r2]; [|by eapply Own_mono; [| | |exact H1]; [lia|lia|]].
  cbn in H1. pose proof (calculateCustomTableID_keep 0 s nets fam r2 H1) as H2.
  unfold bind at 1. destruct (calculateCustomTableID fam r2) as [[t|e] r3] eqn:Ht;
    [|by eapply Own_mono; [| | |exact H2]; [lia|lia|]].
  cbn in H2. assert (Htb : 205 <= t <= 60000).
  { revert Ht. unfold calculateCustomTableID, bind. destruct (wrapped _ _ _ r2) as [[l|e] r4]; [|done].
    destruct (custom_table l) eqn:Hc; [|done]. intros [= <- _]. by eapply custom_table_bounds. }
  assert (Ha : Own 1 s nets (addFwmarkRule mark prio t fam r3).2).
  { unfold addFwmarkRule. destruct (Z.eqb_spec mark 0); [lia|]. rewrite wrapped_state. eapply add_run; [exact H2| |].
    - eapply own_mono; [| | |apply H2]; [lia|lia|done].
    - apply own_add_fwmark; [|apply H2]. exists prio, t. split; [done|lia]. }
  unfold bind. by destruct (addFwmarkRule mark prio t fam r3) as [[[]|e] r5].
Qed.

Lemma checkSuppressRule_none f nets r r' :
  Own f 1 nets r -> checkSuppressRule fam r = (Ok false, r') -> Own f 0 nets r'.
Proof.
  intros Hr Hf. pose proof (checkSuppressRule_keep f 1 nets fam r Hr) as Hk. rewrite Hf in Hk. cbn in Hk.
  revert Hf. unfold checkSuppressRule, bind, wrapped.
  destruct (on_rules (netlink_RuleList fam) r) as [[l|e] r1] eqn:Hl; [|done]. intros [= He <-].
  apply listed in Hl as [Hp Hkr]. eapply Own_kernel; [done|done|].
  destruct Hr as (_ & _ & Ho). apply own_no_suppress; [done|]. rewrite <- Hp in Ho. intros x Hx. rewrite <- Hp in Hx.
  apply not_true_is_false. intros Hag.
  pose proof (own_agrees_suppress _ _ Hforeign _ _ _ _ _ Ho Hx Hag) as (p & sk & ->).
  apply not_true_iff_false in He. apply He, existsb_exists. eexists. split; [by apply list_elem_of_In|]. by destruct sk.
Qed.

Lemma addSuppressRule_own f nets prio skip r : Own f 0 nets r -> Own f 1 nets (addSuppressRule prio fam skip r).2.
Proof.
  intros Hr. unfold addSuppressRule. assert (Ha : Own f 1 nets (on_rules (netlink_RuleAdd (suppressRule prio skip) fam) r).2).
  { eapply add_run; [exact Hr| |].
    - eapply own_mono; [| | |apply Hr]; [lia|lia|done].
    - apply own_add_suppress; [|apply Hr]. by exists prio, skip. }
  unfold bind, attempt. by destruct (on_rules _ r) as [[[]|e] r1].
Qed.

Lemma enableLocalTraffic_own f nets skip : preserves (Own f 1 nets) (enableLocalTraffic fam skip).
Proof.
  intros r Hr. unfold enableLocalTraffic. pose proof (checkSuppressRule_keep f 1 nets fam r Hr) as Hk.
  unfold bind at 1. destruct (checkSuppressRule fam r) as [[present|e] r1] eqn:Hc; [|done]. cbn in Hk.
  assert (H0 : Own f 0 nets (when present (ignore (removeSuppressRule fam)) r1).2).
  { destruct present; [by apply removeSuppressRule_own|]. exact (checkSuppressRule_none f nets r r1 Hr Hc). }
  unfold bind at 1. destruct (when present _ r1) as [[[]|e] r2]; cbn in H0;
    [|by eapply Own_mono; [| | |exact H0]; [lia|lia|]].
  pose proof (calculateRulePriority_keep f 0 nets fam r2 H0) as H1.
  unfold bind, attempt. destruct (calculateRulePriority fam r2) as [[prio|e] r3]; cbn in H1;
    [by apply addSuppressRule_own|]. by eapply Own_mono; [| | |exact H1]; [lia|lia|].
Qed.

Lemma allow_subnet_own f s nets x r : Own f s nets r -> Own f s (parsed [x] ++ nets) (allow_subnet fam x r).2.
Proof.
  intros Hr. pose proof (calculateRulePriority_keep f s nets fam r Hr) as H1. unfold allow_subnet, bind.
  assert (Hw : forall r', Own f s nets r' -> Own f s (parsed [x] ++ nets) r').
  { intros r'. apply Own_mono; [done|done|]. by apply submseteq_inserts_l. }
  destruct (calculateRulePriority fam r) as [[prio|e] r1]; cbn in H1; [|by apply Hw].
  destruct (ParseCIDR x) as [net|] eqn:Hx; [|by apply Hw].
  unfold addAllowSubnetRule. rewrite wrapped_state. eapply add_run; [exact H1|by apply Hw|].
  unfold parsed. cbn. rewrite Hx. apply own_add_allow; [|apply H1]. by exists prio.
Qed.

Lemma allow_subnets_own f s new nets r :
  Own f s nets r -> Own f s (parsed new ++ nets) (forM_ new (allow_subnet fam) r).2.
Proof.
  revert nets r. induction new as [|x new IH]; intros nets r Hr; [done|]. cbn [forM_].
  pose proof (allow_subnet_own f s nets x r Hr) as H1. unfold bind.
  assert (Hp : parsed new ++ parsed [x] ++ nets ≡ₚ parsed (x :: new) ++ nets).
  { unfold parsed. cbn. destruct (ParseCIDR x); cbn; [|done]. by rewrite <- Permutation_middle. }
  destruct (allow_subnet fam x r) as [[[]|e] r1]; cbn in H1.
  - eapply Own_mono; [done|done| |apply (IH _ _ H1)]. by rewrite Hp.
  - eapply Own_mono; [done|done| |exact H1]. rewrite <- Hp. by apply submseteq_inserts_l.
Qed.

(** Calls for the other family. *)
Lemma add_other rule ipv6 f s nets : ipv6 <> fam -> preserves (Own f s nets) (on_rules (netlink_RuleAdd rule ipv6)).
Proof.
  intros Hf. apply on_rules_frame. intros k. replace fam with (negb ipv6) by (by destruct fam, ipv6). apply rule_add_other.
Qed.
Lemma del_other t ipv6 f s nets : ipv6 <> fam -> preserves (Own f s nets) (on_rules (netlink_RuleDel t ipv6)).
Proof.
  intros Hf. apply on_rules_frame. intros k. replace fam with (negb ipv6) by (by destruct fam, ipv6). apply rule_del_other.
Qed.
Lemma list_other f s nets ipv6 : preserves (Own f s nets) (on_rules (netlink_RouteList ipv6)).
Proof. apply on_rules_frame. intros k. by rewrite route_list_rules. Qed.

Hint Resolve add_other del_other list_other list_frame : pres.

Lemma setup_family_other f s nets local lan new ipv6 :
  ipv6 <> fam -> preserves (Own f s nets) (setup_family local lan new ipv6).
Proof.
  intros Hf. unfold setup_family, fwmark_table, findFwmarkRule, calculateRulePriority, calculateCustomTableID,
    addFwmarkRule, enableLocalTraffic, checkSuppressRule, removeSuppressRule, addSuppressRule, removeAllowSubnetRules,
    removeAllowSubnetRule, allow_subnet, calculateRulePriority, addAllowSubnetRule.
  pres_auto. apply preserves_modify. done.
Qed.

Lemma recover_family_other f s nets new ipv6 : ipv6 <> fam -> preserves (Own f s nets) (recover_family new ipv6).
Proof.
  intros Hf. unfold recover_family, removeSuppressRule, removeFwmarkRule, removeAllowSubnetRules, removeAllowSubnetRule.
  pres_auto.
Qed.

(** One family: the old subnets are replaced by the new ones, and an error leaves
    one or the other. *)
Definition settled (new : list string) (x : result unit * RuleRouter K) : Prop :=
  Own 1 1 (parsed new) x.2 \/ (is_ok x.1 = false /\ Own 1 1 (parsed old) x.2).

Lemma setup_family_own local lan new r : Own 1 1 (parsed old) r -> settled new (setup_family local lan new fam r).
Proof.
  intros Hr. unfold setup_family. pose proof (fwmark_table_own 1 (parsed old) r Hr) as H1. unfold bind at 1.
  destruct (fwmark_table fam r) as [[t|e] r1]; cbn in H1; [|by right]. rewrite bind_modify.
  set (r2 := set_field ir_tableID t r1). assert (H2 : Own 1 1 (parsed old) r2) by exact H1. clearbody r2.
  set (step := if local then enableLocalTraffic fam lan else ignore (removeSuppressRule fam)).
  assert (H3 : preserves (Own 1 1 (parsed old)) step).
  { unfold step. destruct local; [apply enableLocalTraffic_own|]. intros x Hx. cbn.
    eapply Own_mono; [| | |by apply removeSuppressRule_own]; [lia|lia|done]. }
  specialize (H3 r2 H2). unfold bind at 1.
  destruct (step r2) as [[[]|e] r3]; cbn in H3; [|by right]. rewrite bind_gets.
  rewrite (proj1 (proj2 H3) : ir_allowSubnets r3 = old).
  assert (H4 : Own 1 1 [] (removeAllowSubnetRules old fam r3).2).
  { apply removeAllowSubnetRules_own. by rewrite app_nil_r. }
  unfold bind. destruct (removeAllowSubnetRules old fam r3) as [[[]|e] r4]; cbn in H4.
  - left. rewrite <- (app_nil_r (parsed new)). by apply allow_subnets_own.
  - left. eapply Own_mono; [done|done| |exact H4]. apply submseteq_nil_l.
Qed.

Lemma removeFwmark_gets s nets r :
  Own 1 s nets r -> Own 0 s nets (bind (gets ir_fwmark) (fun m => removeFwmarkRule m fam) r).2.
Proof. intros Hr. rewrite bind_gets, (proj1 Hr : ir_fwmark r = mark). by apply removeFwmarkRule_own. Qed.

(** The removals of a cleanup and of an error. *)
Lemma recover_family_own subnets nets r :
  Own 1 1 (parsed subnets ++ nets) r -> Own 0 0 nets (recover_family subnets fam r).2.
Proof.
  intros Hr. unfold recover_family. rewrite !bind_ignore.
  apply removeAllowSubnetRules_own, removeFwmark_gets. by apply removeSuppressRule_own.
Qed.

Lemma recover_family_keep subnets nets r : Own 1 1 nets r -> Own 1 1 nets (recover_family subnets fam r).2.
Proof.
  intros Hr. eapply Own_mono; [| | |apply recover_family_own]; [lia|lia|done|].
  revert Hr. apply Own_mono; [done|done|]. by apply submseteq_inserts_l.
Qed.
End RuleRouterProps.

(** ** Sequences of setups and cleanups *)

Inductive PolicyOp : Type :=
| PolicySetup (ipv6 enableLocal lanDiscovery : bool) (allowSubnets : list string)
| PolicyCleanup.

Section PolicyOps.
Context {K : Type} `{Netlink K} {rules : K -> bool -> list NlRule} {routes : K -> list NlRoute}
  `{!NetlinkLaws K rules routes}.
Context (fam : bool) (base : list NlRule) (mark : Z) (Hforeign : foreign base mark) (Hmark : 0 < mark).
#[local] Abbreviation Own := (Own (rules := rules) fam base mark).
#[local] Abbreviation kernel := (kernel_rules (rules := rules) fam).

Definition policy_op (o : PolicyOp) : M (RuleRouter K) unit :=
  match o with
  | PolicySetup ipv6 local lan subnets => SetupRoutingRules ipv6 local lan subnets
  | PolicyCleanup => CleanupRouting
  end.

(** A setup that includes the family. *)
Definition covers (o : PolicyOp) : Prop :=
  match o with PolicySetup ipv6 _ _ _ => fam = true -> ipv6 = true | PolicyCleanup => True end.

Definition owned (r : RuleRouter K) : Prop := Own (ir_allowSubnets r) 1 1 (parsed (ir_allowSubnets r)) r.

(** The groups of the interfaces have nothing to do with the rules. *)
Lemma on_links_rules {B} (m : M K B) rs :
  (forall k, rules (m k).2 = rules k) -> preserves (fun g : GroupManager K => rules (gm_kernel g) = rs) (on_links m).
Proof. intros Hm g Hg. unfold on_links, zoom. specialize (Hm (gm_kernel g)). destruct (m (gm_kernel g)). cbn in *. congruence. Qed.

Lemma group_rules (g : GroupManager K) :
  rules (gm_kernel (Group_Set g).2) = rules (gm_kernel g) /\ rules (gm_kernel (Group_Unset g).2) = rules (gm_kernel g).
Proof.
  split; [enough (preserves (fun g' : GroupManager K => rules (gm_kernel g') = rules (gm_kernel g)) Group_Set) as Hp
         |enough (preserves (fun g' : GroupManager K => rules (gm_kernel g') = rules (gm_kernel g)) Group_Unset) as Hp];
    try (by apply Hp); unfold Group_Set, Group_Unset, device_group, set_group;
    pres_auto; try (apply preserves_modify; done); apply on_links_rules; intros k;
    first [apply device_list_rules|apply link_group_rules|apply set_group_rules].
Qed.

(** The loop over the families of a setup. *)
Lemma setup_families_own old local lan new ipv6 r :
  (fam = true -> ipv6 = true) -> Own old 1 1 (parsed old) r ->
  settled (rules := rules) fam base mark old new
    (forM_ (if ipv6 then [false; true] else [false]) (setup_family local lan new) r).
Proof.
  intros Hc Hr. set (m := setup_family local lan new).
  assert (Hother : forall ipv6' nets, ipv6' <> fam -> preserves (Own old 1 1 nets) (m ipv6')).
  { intros. by apply setup_family_other. }
  assert (Hfam : forall r, Own old 1 1 (parsed old) r -> settled (rules := rules) fam base mark old new (m fam r)).
  { intros. by apply setup_family_own. }
  destruct fam eqn:Hfm.
  - rewrite (Hc eq_refl). cbn [forM_]. pose proof (Hother false (parsed old) ltac:(done) r Hr) as H1. unfold bind.
    destruct (m false r) as [[[]|e] r1]; cbn in H1; [|by right]. specialize (Hfam r1 H1).
    by destruct (m true r1) as [[[]|e] r2].
  - specialize (Hfam r Hr). destruct ipv6; cbn [forM_]; unfold bind; destruct (m false r) as [[[]|e] r1]; try done.
    destruct Hfam as [H1|[H1 _]]; [|done]. cbn in H1. pose proof (Hother true (parsed new) ltac:(done) r1 H1) as H2.
    left. by destruct (m true r1) as [[[]|e] r2].
Qed.

(** The removals only log their errors. *)
Lemma recover_family_ok new ipv6 (r : RuleRouter K) : is_ok (recover_family new ipv6 r).1 = true.
Proof.
  unfold recover_family. rewrite !bind_ignore. generalize ((let! fwmark := gets ir_fwmark in removeFwmarkRule fwmark ipv6)
    (removeSuppressRule ipv6 r).2).2. unfold removeAllowSubnetRules. induction new as [|z new IH]; intros r1; [done|].
  cbn [forM_]. destruct (ParseCIDR z); [rewrite bind_ignore|rewrite bind_ret]; apply IH.
Qed.

(** The removals, for both families. *)
Lemma recover_families_own old new ipv6 nets r :
  (fam = true -> ipv6 = true) -> Own old 1 1 (parsed new ++ nets) r ->
  Own old 0 0 nets (forM_ (if ipv6 then [false; true] else [false]) (recover_family new) r).2.
Proof.
  intros Hc Hr.
  assert (Hother : forall ipv6' f s nets, ipv6' <> fam -> preserves (Own old f s nets) (recover_family new ipv6')).
  { intros. by apply recover_family_other. }
  assert (Hfam : forall r, Own old 1 1 (parsed new ++ nets) r -> Own old 0 0 nets (recover_family new fam r).2).
  { intros. by apply recover_family_own. }
  destruct fam eqn:Hfm.
  - rewrite (Hc eq_refl). cbn [forM_]. pose proof (Hother false 1%nat 1%nat _ ltac:(done) r Hr) as H1. unfold bind.
    pose proof (recover_family_ok new false r) as Hok. destruct (recover_family new false r) as [[[]|e] r1]; [|done]. specialize (Hfam r1 H1).
    by destruct (recover_family new true r1) as [[[]|e] r2].
  - specialize (Hfam r Hr). destruct ipv6; cbn [forM_]; unfold bind; destruct (recover_family new false r) as [[[]|e] r1]; try done.
    pose proof (Hother true 0%nat 0%nat _ ltac:(done) r1 Hfam) as H2. by destruct (recover_family new true r1) as [[[]|e] r2].
Qed.

(** Removing with the remembered subnets is removing with these. *)
Lemma cleanup_family_eq ipv6 (r : RuleRouter K) : cleanup_family ipv6 r = recover_family (ir_allowSubnets r) ipv6 r.
Proof.
  assert (Hs : forall B (m : M K B) x, ir_allowSubnets (on_rules m x).2 = ir_allowSubnets x).
  { intros B m x. apply (on_rules_run (rules := rules) fam m x). }
  unfold cleanup_family, recover_family. rewrite !bind_ignore, bind_gets.
  match goal with |- removeAllowSubnetRules ?a _ _ = removeAllowSubnetRules ?b _ _ => enough (a = b) as -> by done end.
  unfold removeSuppressRule. rewrite wrapped_state, bind_gets. unfold removeFwmarkRule.
  destruct (_ =? 0); cbn [snd throw]; rewrite ?wrapped_state, !Hs; done.
Qed.

Lemma cleanup_loop_own old r :
  Own old 1 1 (parsed old) r -> Own old 0 0 [] (forM_ [false; true] cleanup_family r).2.
Proof.
  intros Hr. assert (Heq : forM_ [false; true] cleanup_family r = forM_ [false; true] (recover_family old) r).
  { cbn [forM_]. unfold bind. rewrite cleanup_family_eq. rewrite (proj1 (proj2 Hr) : ir_allowSubnets r = old).
    destruct (recover_family old false r) as [[[]|e] r1] eqn:H1; [|done]. rewrite cleanup_family_eq.
    enough (ir_allowSubnets r1 = old) as -> by done. destruct (decide (false = fam)) as [<-|Hne].
    - pose proof (recover_family_keep false base mark Hforeign Hmark old old (parsed old) r Hr) as Hk.
      rewrite H1 in Hk. apply Hk.
    - pose proof (recover_family_other fam base mark old 1%nat 1%nat (parsed old) old false Hne r Hr) as Hk.
      rewrite H1 in Hk. apply Hk. }
  rewrite Heq. apply (recover_families_own old old true [] r); [done|]. by rewrite app_nil_r.
Qed.

Lemma CleanupRouting_own old r :
  Own old 1 1 (parsed old) r -> Own old 0 0 [] (CleanupRouting r).2.
Proof.
  intros Hr. pose proof (cleanup_loop_own old r Hr) as H0. unfold CleanupRouting. unfold bind at 1.
  destruct (forM_ [false; true] cleanup_family r) as [[[]|e] r1]; [|done]. cbn in H0. revert r1 H0.
  change (preserves (Own old 0 0 [])
    (wrapped "unsetting rp filter: " (on_rules rpfilter_Unset) "" ;;
     wrapped "unsetting ifgroups: " (on_groups Group_Unset) "" ;; set! ir_tableID := 0)).
  pres_auto.
  - apply on_rules_frame. intros k. by rewrite rpfilter_unset_rules.
  - apply on_groups_frame. intros g. apply group_rules.
  - apply preserves_modify. done.
Qed.

Lemma SetupRoutingRules_own ipv6 local lan new :
  (fam = true -> ipv6 = true) -> preserves owned (SetupRoutingRules ipv6 local lan new).
Proof.
  intros Hc r Hr. unfold owned in Hr. remember (ir_allowSubnets r) as old eqn:Hold.
  assert (Hown : forall r', Own old 1 1 (parsed old) r' -> owned r').
  { intros r' Hr'. unfold owned. by rewrite (proj1 (proj2 Hr')). }
  assert (H1 : preserves (Own old 1 1 (parsed old)) (on_rules rpfilter_Set)).
  { apply on_rules_frame. intros k. by rewrite rpfilter_set_rules. }
  assert (H2 : preserves (Own old 1 1 (parsed old)) (on_groups Group_Set)).
  { apply on_groups_frame. intros g. apply group_rules. }
  specialize (H1 r Hr). unfold SetupRoutingRules. unfold bind at 1, wrapped at 1.
  destruct (on_rules rpfilter_Set r) as [[[]|e] r1]; cbn in H1; [|by apply Hown].
  specialize (H2 r1 H1). unfold bind at 1, attempt at 1. destruct (on_groups Group_Set r1) as [g r2]. cbn in H2.
  set (step := match g with Err err => _ | Ok _ => _ end).
  assert (H3 : Own old 1 1 (parsed old) (step r2).2).
  { unfold step. destruct g as [[]|e]; [done|]. by destruct (errors_Is e ErrAlreadySet). }
  unfold bind at 1. destruct (step r2) as [[[]|e] r3]; cbn in H3; [|by apply Hown].
  pose proof (setup_families_own old local lan new ipv6 r3 Hc H3) as Hs. unfold on_error, bind.
  destruct (forM_ _ (setup_family local lan new) r3) as [[[]|e] r4]; cbn.
  - destruct Hs as [Hs|[Hs _]]; [|done]. cbn in Hs. destruct Hs as (Hm & _ & Ho). split_and!; [done|done|exact Ho].
  - apply Hown. destruct Hs as [Hs|[_ Hs]]; cbn in Hs.
    + eapply Own_mono; [| | |apply (recover_families_own old new ipv6 []); [done|by rewrite app_nil_r]]; [lia|lia|].
      apply submseteq_nil_l.
    + eapply Own_mono; [| | |apply (recover_families_own old new ipv6 (parsed old)); [done|]]; [lia|lia|done|].
      revert Hs. apply Own_mono; [done|done|]. by apply submseteq_inserts_l.
Qed.

Lemma policy_op_owned o : covers o -> preserves owned (policy_op o).
Proof.
  destruct o as [ipv6 local lan new|]; cbn [covers policy_op]; intros Hc.
  - by apply SetupRoutingRules_own.
  - intros r Hr. pose proof (CleanupRouting_own _ r Hr) as H0. unfold owned.
    rewrite (proj1 (proj2 H0)). eapply Own_mono; [| | |exact H0]; [lia|lia|apply submseteq_nil_l].
Qed.

Lemma own_none_base nets r : Own nets 0 0 [] r -> kernel r ≡ₚ base.
Proof.
  intros (_ & _ & fw & sup & subs & dsts & Hl & _ & _ & Hc & Hf & Hs & Hd).
  destruct fw; [|cbn in Hf; lia]. destruct sup; [|cbn in Hs; lia].
  apply submseteq_nil_r in Hd as ->. apply Forall2_nil_inv_r in Hc as ->. rewrite Hl. by rewrite !app_nil_r.
Qed.

(** C12: the policy rules of one family are given back. Let netlink keep its promise:
    a call that fails changes nothing, and a rule is deleted unless there is none to
    delete. Whatever setups and cleanups were made, with any settings and subnets, and
    whichever other steps of them failed, the rules of other programs are all still
    there, and one more cleanup leaves exactly these. For the rules of IPv6 every
    setup must have been with IPv6: one without it leaves an allow rule of an earlier
    one behind (Example ipv6_allow_rule_left). *)
Theorem policy_rules_restored (ops : list PolicyOp) (k : K) :
  rules k fam ≡ₚ base -> Forall covers ops ->
  base ⊆+ kernel (run_ops policy_op ops (NewRuleRouter k mark)) /\
  kernel (CleanupRouting (run_ops policy_op ops (NewRuleRouter k mark))).2 ≡ₚ base.
Proof.
  intros Hk Hops. assert (H0 : owned (NewRuleRouter k mark)).
  { split_and!; [done|done|]. exists [], [], [], []. unfold kernel_rules. cbn. rewrite app_nil_r.
    by split_and!; try done; lia. }
  assert (Hr : owned (run_ops policy_op ops (NewRuleRouter k mark))).
  { revert H0. generalize (NewRuleRouter k mark). induction Hops as [|o ops Ho _ IH]; intros r Hr; [done|].
    cbn. apply IH. by apply policy_op_owned. }
  split.
  - destruct Hr as (_ & _ & fw & sup & subs & dsts & Hl & _). rewrite Hl. by apply submseteq_inserts_r.
  - by eapply own_none_base, CleanupRouting_own.
Qed.
End PolicyOps.

(** ** Witness *)

Module PolicyWitness.
Import MemNetlink.

(** The rules Linux starts with. *)
Definition rules0 : list NlRule :=
  [NewRule <| ru_Priority := 0 |> <| ru_Table := 255 |>; NewRule <| ru_Priority := 32766 |> <| ru_Table := 254 |>;
   NewRule <| ru_Priority := 32767 |> <| ru_Table := 253 |>].
Definition eth0 : Interface := mkInterface 2 1500 "eth0" "" 0.
Definition mem0 : Mem := mkMem rules0 rules0 [] [(eth0, 0)].
Definition mark0 : Z := 57841.
Definition ops0 : list PolicyOp :=
  [PolicySetup true true false ["10.0.0.0/8"]; PolicySetup false true true ["10.0.0.0/8"; "192.168.1.0/24"]; PolicyCleanup].

Lemma foreign0 : foreign rules0 mark0.
Proof. intros r Hr. repeat (apply elem_of_cons in Hr as [->|Hr]; [by split_and!|]). by apply not_elem_of_nil in Hr. Qed.

Lemma policy_rules_restored_witness :
  kernel_rules (rules := mem_rules) false (CleanupRouting (run_ops policy_op ops0 (NewRuleRouter mem0 mark0))).2 ≡ₚ rules0.
Proof.
  apply (policy_rules_restored (K := Mem) (routes := m_routes) false rules0 mark0 foreign0 ltac:(done) ops0 mem0 ltac:(done)).
  repeat constructor; done.
Defined.
End PolicyWitness.
