(* ===== verification/RoutesTable.v ===== *)
(** * RoutesTable: the routes in the kernel, gateways and interface groups

    The order in which the search for a gateway looks at the routes, and the route
    it takes; the routes the router adds and gives back; the groups of the
    interfaces; and a concrete kernel on which the hypotheses are met and on which
    the behaviours behind the findings are computed. *)

From stdpp Require Import base option list sorting strings pretty gmap.
From Stdlib Require Import ZArith Lia.
From S2P Require Import Prelude GoLib Config Firewall Networker Routes RoutesKernel RoutesProps.

Open Scope Z_scope.
Open Scope go_scope.

(** ** What the kernel prefers

    The choice between routes stated without the functions of the program:
    the length of a destination, when a network covers another, when a rule
    selects a route, and which route is the better one. *)

(** The length of the prefix of a destination; no destination stands for
    everything. *)
Definition length_of (dst : option Prefix) : Z :=
  match dst with Some p => if pfx_bits p <? 0 then 0 else pfx_bits p | None => 0 end.

(** Every address of [dst] is in [net]. *)
Definition covers (net dst : option Prefix) : Prop :=
  match net with
  | None => True
  | Some n => exists p, dst = Some p /\ prefix_Contains n (pfx_addr p) = true /\ length_of net <= length_of dst
  end.

(** The selector of the rule: no mark, the table and a source that covers the
    destination; and nothing of the rule suppresses the route: its prefix is longer
    than the suppressed ones and its interface is not in the suppressed group. *)
Record selects (rule : NlRule) (route : NlRoute) (group : Z) : Prop := {
  selects_unmarked : ru_Mark rule < 0;
  selects_table : nl_Table route = ru_Table rule;
  selects_source : covers (ru_Src rule) (nl_Dst route);
  selects_longer : 0 <= ru_SuppressPrefixlen rule -> ru_SuppressPrefixlen rule < length_of (nl_Dst route);
  selects_group : 0 <= ru_SuppressIfgroup rule -> group <> ru_SuppressIfgroup rule
}.

(** An inverted rule covers the routes it does not select. *)
Definition rule_covers (rule : NlRule) (route : NlRoute) (group : Z) : Prop :=
  if ru_Invert rule then ~ selects rule route group else selects rule route group.

(** The group of an interface is the last one listed for it. *)
Definition group_of (links : list (Z * Z)) (index : Z) : Z :=
  match last (filter (fun l => l.1 = index) links) with Some l => l.2 | None => 0 end.

(** The rule at position [i] is the first that covers the route. *)
Definition first_rule (links : list (Z * Z)) (rules : list NlRule) (route : NlRoute) (i : nat) : Prop :=
  let group := group_of links (nl_LinkIndex route) in
  (exists rule, rules !! i = Some rule /\ rule_covers rule route group) /\
  forall j rule, (j < i)%nat -> rules !! j = Some rule -> ~ rule_covers rule route group.

(** A longer prefix, or the same length and no larger metric. *)
Definition better_route (a b : NlRoute) : Prop :=
  length_of (nl_Dst b) < length_of (nl_Dst a) \/
  length_of (nl_Dst a) = length_of (nl_Dst b) /\ nl_Priority a <= nl_Priority b.

(** [a] is chosen rather than [b]: an earlier rule covers it, or the same rule does
    and [a] is the better route. *)
Definition chosen_over (links : list (Z * Z)) (rules : list NlRule) (a b : NlRoute) : Prop :=
  exists i j, first_rule links rules a i /\ first_rule links rules b j /\
    ((i < j)%nat \/ i = j /\ better_route a b).

(** ** The order of the routes *)

Lemma length_of_dst dst : length_of dst = dst_len dst.
Proof. destruct dst as [p|]; [|done]. cbn. unfold mask_size. destruct (Z.ltb_spec (pfx_bits p) 0); lia. Qed.

Lemma isSubnet_covers net dst : isSubnet net dst = true <-> covers net dst.
Proof.
  unfold covers. destruct net as [n|]; [|done]. cbn [isSubnet]. rewrite !length_of_dst. destruct dst as [p|].
  - rewrite andb_true_iff, Z.leb_le. cbn [dst_len]. split; [intros [? ?]; by exists p|].
    by intros (? & [= <-] & ? & ?).
  - split; [done|]. by intros (? & ? & _).
Qed.

Lemma better_routeCmp a b : routeCmp a b <= 0 <-> better_route a b.
Proof. rewrite MemNetlink.routeCmp_le. unfold better_route. rewrite !length_of_dst. lia. Qed.

Lemma group_of_link links i : group_of links i = link_group links i.
Proof.
  unfold group_of, link_group. induction links as [|l links IH] using rev_ind; [done|].
  rewrite filter_app, foldl_app. cbn [foldl]. rewrite filter_cons, list.filter_nil.
  destruct (Z.eqb_spec l.1 i) as [He|He].
  - rewrite decide_True by done. by rewrite last_snoc.
  - rewrite decide_False by done. by rewrite app_nil_r, IH.
Qed.

Lemma ruleApplies_covers rule route group :
  ruleAppliesForRoute rule route group = true <-> rule_covers rule route group.
Proof.
  assert ((ru_Mark rule <? 0) && (ru_Table rule =? nl_Table route) && isSubnet (ru_Src rule) (nl_Dst route) &&
     ((ru_SuppressPrefixlen rule <? 0) || (ru_SuppressPrefixlen rule <? dst_len (nl_Dst route))) &&
     ((ru_SuppressIfgroup rule <? 0) || negb (ru_SuppressIfgroup rule =? group)) = true
    <-> selects rule route group) as Hs.
  { rewrite !andb_true_iff, !orb_true_iff, negb_true_iff, !Z.ltb_lt, Z.eqb_eq, Z.eqb_neq, isSubnet_covers.
    split; [intros ((((? & ?) & ?) & ?) & ?); constructor|intros []]; rewrite ?length_of_dst in *; try done; try lia.
    split_and!; try done; lia. }
  unfold ruleAppliesForRoute, rule_covers. destruct (andb _ _); destruct (ru_Invert rule); cbn; intuition congruence.
Qed.

Section Order.
Context (links : list (Z * Z)).

Definition applies (rule : NlRule) (route : NlRoute) : bool :=
  ruleAppliesForRoute rule route (link_group links (nl_LinkIndex route)).

Lemma applies_covers rule route :
  applies rule route = true <-> rule_covers rule route (group_of links (nl_LinkIndex route)).
Proof. unfold applies. by rewrite ruleApplies_covers, group_of_link. Qed.

(** The position of the first rule that applies to a route. *)
Fixpoint rule_index (rules : list NlRule) (route : NlRoute) : option nat :=
  match rules with
  | [] => None
  | rule :: rules' => if applies rule route then Some 0%nat else S <$> rule_index rules' route
  end.

(** [a] is looked at no later than [b]: an earlier rule applies to it, or the same
    rule does and [a] is at least as specific. *)
Definition preferred (rules : list NlRule) (a b : NlRoute) : Prop :=
  exists i j, rule_index rules a = Some i /\ rule_index rules b = Some j /\
    ((i < j)%nat \/ i = j /\ routeCmp a b <= 0).

Lemma rule_index_first rules route i :
  rule_index rules route = Some i <-> first_rule links rules route i.
Proof.
  unfold first_rule. cbv zeta. setoid_rewrite <- applies_covers. revert i.
  induction rules as [|rule rules IH]; intros i; cbn [rule_index].
  { split; [done|]. by intros [(? & ? & _) _]. }
  destruct (applies rule route) eqn:Ha.
  - split; [intros [= <-]; split; [by exists rule|lia]|].
    intros [_ Hno]. destruct i; [done|]. exfalso. apply (Hno 0%nat rule); [lia|done..].
  - rewrite fmap_Some. setoid_rewrite IH. split.
    + intros (j & [(r & Hr & Hc) Hno] & ->). split; [by exists r|].
      intros [|j'] r' Hj Hr'; cbn in Hr'; [by injection Hr' as <-; rewrite Ha|]. apply (Hno j'); [lia|done].
    + intros [(r & Hr & Hc) Hno]. destruct i as [|i]; cbn in Hr; [injection Hr as <-; congruence|].
      exists i. split; [|done]. split; [by exists r|]. intros j r' Hj. apply (Hno (S j)). lia.
Qed.

Lemma covered_index rules route :
  is_Some (rule_index rules route) <-> exists i, first_rule links rules route i.
Proof. unfold is_Some. by setoid_rewrite rule_index_first. Qed.

Lemma preferred_chosen rules a b : preferred rules a b -> chosen_over links rules a b.
Proof.
  intros (i & j & Hi & Hj & Hij). exists i, j. rewrite <- !rule_index_first, <- better_routeCmp. auto.
Qed.

Lemma take_routes_eq rule routes :
  take_routes links rule routes =
  (filter (fun r => applies rule r = true) routes, filter (fun r => applies rule r = false) routes).
Proof. done. Qed.

(** The routes listed are those some rule applies to. *)
Lemma elem_of_order rules routes r :
  r ∈ orderRoutesByRules rules routes links <-> r ∈ routes /\ is_Some (rule_index rules r).
Proof.
  revert routes. induction rules as [|rule rules IH]; intros routes; cbn [orderRoutesByRules rule_index].
  - rewrite elem_of_nil. split; [done|]. by intros [_ [? ?]].
  - rewrite take_routes_eq, elem_of_app, IH, !list_elem_of_filter. destruct (applies rule r).
    + split; [|intros [? _]; by left]. intros [[_ Hr]|[[? _] _]]; [|done]. split; [done|by eexists].
    + rewrite fmap_is_Some. split; [intros [[? _]|[[_ ?] ?]]; done|]. intros [? ?]. by right.
Qed.

Lemma StronglySorted_filter {A} (R : A -> A -> Prop) (P : A -> Prop) `{!forall x, Decision (P x)} l :
  StronglySorted R l -> StronglySorted R (filter P l).
Proof.
  induction 1 as [|a l Hs IH Ha]; [constructor|]. rewrite filter_cons. case_decide; [|done].
  constructor; [done|]. rewrite Forall_forall in *. intros x [_ Hx]%list_elem_of_filter. auto.
Qed.

Lemma StronglySorted_append {A} (R : A -> A -> Prop) l1 l2 :
  StronglySorted R l1 -> StronglySorted R l2 -> (forall x y, x ∈ l1 -> y ∈ l2 -> R x y) -> StronglySorted R (l1 ++ l2).
Proof.
  induction 1 as [|a l Hs IH Ha]; intros H2 Hx; cbn; [done|].
  constructor; [apply IH; [done|]; intros x y Hxl; apply Hx; by right|].
  apply Forall_app. split; [done|]. apply Forall_forall. intros y. apply Hx. by left.
Qed.

Lemma StronglySorted_impl_in {A} (R R' : A -> A -> Prop) l :
  StronglySorted R l -> (forall x y, x ∈ l -> y ∈ l -> R x y -> R' x y) -> StronglySorted R' l.
Proof.
  induction 1 as [|a l Hs IH Ha]; intros Hi; [constructor|]. constructor.
  - apply IH. intros x y Hx Hy. apply Hi; by right.
  - rewrite Forall_forall in *. intros x Hx. apply Hi; [by left|by right|auto].
Qed.

Lemma order_sorted rules routes :
  StronglySorted (fun a b => routeCmp a b <= 0) routes ->
  StronglySorted (preferred rules) (orderRoutesByRules rules routes links).
Proof.
  revert routes. induction rules as [|rule rules IH]; intros routes Hs; cbn [orderRoutesByRules]; [constructor|].
  rewrite take_routes_eq. apply StronglySorted_append.
  - eapply StronglySorted_impl_in; [by apply StronglySorted_filter|].
    intros x y [Hx _]%list_elem_of_filter [Hy _]%list_elem_of_filter Hc.
    exists 0%nat, 0%nat. cbn [rule_index]. rewrite Hx, Hy. auto.
  - eapply StronglySorted_impl_in; [by apply IH, StronglySorted_filter|].
    intros x y [[Hx _]%list_elem_of_filter _]%elem_of_order [[Hy _]%list_elem_of_filter _]%elem_of_order.
    intros (i & j & Hi & Hj & Hij). exists (S i), (S j). cbn [rule_index]. rewrite Hx, Hy, Hi, Hj.
    split_and!; [done..|]. lia.
  - intros x y [Hx _]%list_elem_of_filter [[Hy _]%list_elem_of_filter [j Hj]]%elem_of_order.
    exists 0%nat, (S j). cbn [rule_index]. rewrite Hx, Hy, Hj. split_and!; [done..|]. lia.
Qed.
End Order.

(** ** The gateway *)

Lemma find_first_sorted {A} (R : A -> A -> Prop) (f : A -> bool) l x :
  StronglySorted R l -> find f l = Some x ->
  x ∈ l /\ f x = true /\ forall y, y ∈ l -> f y = true -> y = x \/ R x y.
Proof.
  induction 1 as [|a l Hs IH Ha]; [done|]. cbn [find]. destruct (f a) eqn:Hf.
  - intros [= ->]. split_and!; [by left|done|]. intros y [->|Hy]%elem_of_cons _; [by left|].
    right. rewrite Forall_forall in Ha. auto.
  - intros (Hx & Hfx & Hy)%IH. split_and!; [by right|done|].
    intros y [->|Hin]%elem_of_cons Hfy; [congruence|auto].
Qed.

Section Gateway.
Context {K : Type} `{Netlink K} {rules : K -> bool -> list NlRule} {routes : K -> list NlRoute}
  `{!NetlinkLaws K rules routes}.

(** A route the search may take: outside the ignored table, to a network with the
    whole prefix in it, through a gateway. *)
Definition candidate (prefix : Prefix) (ignoreTable : Z) (r : NlRoute) : Prop :=
  nl_Table r <> ignoreTable /\ covers (nl_Dst r) (Some prefix) /\ nl_Gw r <> None.

(** What the kernel answers while a gateway is looked for. *)
Record Answers (prefix : Prefix) (k : K) (l : list NlRoute) (rs : list NlRule) (links : list (Z * Z)) : Prop := {
  routes_answer : (netlink_RouteList (addr_Is6 (pfx_addr prefix)) k).1 = Ok l;
  rules_answer : let k1 := (netlink_RouteList (addr_Is6 (pfx_addr prefix)) k).2 in
                 (netlink_RuleList (addr_Is6 (pfx_addr prefix)) k1).1 = Ok rs;
  links_answer : let k1 := (netlink_RouteList (addr_Is6 (pfx_addr prefix)) k).2 in
                 let k2 := (netlink_RuleList (addr_Is6 (pfx_addr prefix)) k1).2 in
                 (netlink_LinkList k2).1 = Ok links
}.

Lemma filterRoutes_spec l prefix t r :
  r ∈ filterRoutes l prefix t <-> r ∈ l /\ nl_Table r <> t /\ covers (nl_Dst r) (Some prefix).
Proof.
  unfold filterRoutes.
  rewrite list_elem_of_filter, orb_false_iff, negb_false_iff, Z.eqb_neq, isSubnet_covers. tauto.
Qed.

Definition has_gateway (r : NlRoute) : bool := match nl_Gw r with Some _ => true | None => false end.

(** The route whose gateway is answered. *)
Lemma Retrieve_route prefix t k ip iface :
  (Retrieve prefix t k).1 = Ok (ip, iface) ->
  exists l r, (listRoutesForSubnet prefix t k).1 = Ok l /\ find has_gateway l = Some r /\ nl_Gw r = Some ip /\
    (net_InterfaceByIndex (nl_LinkIndex r) (listRoutesForSubnet prefix t k).2).1 = Ok iface.
Proof.
  unfold Retrieve, bind, wrapped. destruct (listRoutesForSubnet prefix t k) as [[l|e] k1]; [|done].
  intros Hr. exists l. destruct l as [|r0 l]; [done|]. fold has_gateway in Hr.
  destruct (find has_gateway (r0 :: l)) as [r|]; [|done]. exists r. cbn [fst snd].
  destruct (net_InterfaceByIndex (nl_LinkIndex r) k1) as [[i|e] k2] eqn:Hi; [|done].
  destruct (nl_Gw r); [|done]. by injection Hr as -> ->.
Qed.

(** The list the gateway is searched in. *)
Lemma listRoutes_spec prefix t k l rs links :
  Answers prefix k l rs links ->
  let cand := filterRoutes l prefix t in
  (listRoutesForSubnet prefix t k).1 =
    Ok (if (length cand <=? 1)%nat then cand else orderRoutesByRules rs (sort_routes cand) links).
Proof.
  intros [H1 H2 H3]. unfold listRoutesForSubnet, bind, wrapped.
  destruct (netlink_RouteList _ k) as [r1 k1]. cbn in H1, H2, H3. subst r1. cbv zeta.
  destruct (length _ <=? 1)%nat; [done|].
  destruct (netlink_RuleList _ k1) as [r2 k2]. cbn in H2, H3. subst r2.
  destruct (netlink_LinkList k2) as [r3 k3]. cbn in H3. by subst r3.
Qed.

Lemma find_gateway_None l r : find has_gateway l = None -> r ∈ l -> nl_Gw r = None.
Proof.
  intros Hf Hr%list_elem_of_In. pose proof (find_none _ _ Hf r Hr) as Hg. unfold has_gateway in Hg.
  by destruct (nl_Gw r).
Qed.

(** The list that [listRoutesForSubnet] returns. *)
#[local] Abbreviation listed prefix t l rs links :=
  (let cand := filterRoutes l prefix t in
   if (length cand <=? 1)%nat then cand else orderRoutesByRules rs (sort_routes cand) links).

Lemma candidate_filtered prefix t l r : candidate prefix t r -> r ∈ l -> r ∈ filterRoutes l prefix t.
Proof. intros (Ht & Hs & _) Hr. by apply filterRoutes_spec. Qed.

Lemma listed_is_best prefix t l rs links r ip :
  find has_gateway (listed prefix t l rs links) = Some r -> nl_Gw r = Some ip ->
  r ∈ l /\ candidate prefix t r /\ nl_Gw r = Some ip /\
  forall r', r' ∈ l -> candidate prefix t r' -> is_Some (rule_index links rs r') ->
    r' = r \/ preferred links rs r r'.
Proof.
  cbv zeta. intros Hf Hg. pose proof (order_sorted links rs (sort_routes (filterRoutes l prefix t)) (sort_routes_sorted _)) as Hs.
  assert (Hin : forall x, x ∈ filterRoutes l prefix t -> nl_Gw x = Some ip -> x ∈ l /\ candidate prefix t x).
  { intros x (Hx & Ht & Hsub)%filterRoutes_spec Hgx. split; [done|]. split_and!; [done..|]. by rewrite Hgx. }
  destruct (Nat.leb_spec (length (filterRoutes l prefix t)) 1) as [Hlen|Hlen].
  - apply find_some in Hf as [Hr%list_elem_of_In _]. destruct (Hin r Hr Hg) as [? ?]. split_and!; [done..|].
    intros r' Hr' Hc _. left. pose proof (candidate_filtered _ _ _ _ Hc Hr') as Hr2.
    destruct (filterRoutes l prefix t) as [|a [|b cand]]; [by apply not_elem_of_nil in Hr| |cbn in Hlen; lia].
    apply list_elem_of_singleton in Hr, Hr2. congruence.
  - destruct (find_first_sorted _ _ _ _ Hs Hf) as (Hr & _ & Hbest).
    apply elem_of_order in Hr as [Hr _]. rewrite sort_routes_ok in Hr. destruct (Hin r Hr Hg) as [? ?].
    split_and!; [done..|]. intros r' Hr' Hc Hi. apply Hbest.
    + apply elem_of_order. split; [|done]. rewrite sort_routes_ok. by apply candidate_filtered.
    + unfold has_gateway. destruct Hc as (_ & _ & Hc). by destruct (nl_Gw r').
Qed.

Lemma listed_has_candidate prefix t l rs links r :
  r ∈ l -> candidate prefix t r -> is_Some (rule_index links rs r) ->
  exists r', find has_gateway (listed prefix t l rs links) = Some r'.
Proof.
  intros Hr Hc Hi. destruct (find has_gateway _) as [r'|] eqn:Hf; [by exists r'|]. exfalso. apply (proj2 (proj2 Hc)).
  revert Hf. cbv zeta. destruct (length _ <=? 1)%nat; intros Hf; apply (find_gateway_None _ r Hf).
  - by apply candidate_filtered.
  - apply elem_of_order. split; [|done]. rewrite sort_routes_ok. by apply candidate_filtered.
Qed.

Lemma Retrieve_finds prefix t k l r :
  (listRoutesForSubnet prefix t k).1 = Ok l -> find has_gateway l = Some r ->
  (forall i k', exists iface, (net_InterfaceByIndex i k').1 = Ok iface) ->
  exists ip iface, (Retrieve prefix t k).1 = Ok (ip, iface).
Proof.
  intros Hl Hf Hif. unfold Retrieve, bind, wrapped. destruct (listRoutesForSubnet prefix t k) as [r1 k1].
  cbn in Hl. subst r1. fold has_gateway. destruct l as [|r0 l]; [done|]. rewrite Hf.
  destruct (Hif (nl_LinkIndex r) k1) as (iface & Hi). destruct (net_InterfaceByIndex (nl_LinkIndex r) k1) as [ri k2].
  cbn in Hi. subst ri. apply find_some in Hf as [_ Hg]. unfold has_gateway in Hg.
  destruct (nl_Gw r) as [ip|]; [|done]. by exists ip, iface.
Qed.

(** C14: the gateway that is found.  When the kernel lists its routes, rules and
    links, the gateway answered is that of a candidate: a route with a gateway,
    outside the ignored table, to a network that contains the prefix.  It is chosen
    over every other candidate that some rule covers: an earlier rule covers it, or
    the same rule does and it has the longer prefix, or the same length and no
    larger metric.  And when some rule covers a candidate and interfaces can be
    looked up, a gateway is found. *)
Theorem gateway_is_best prefix t k l rs links :
  Answers prefix k l rs links ->
  (forall ip iface, (Retrieve prefix t k).1 = Ok (ip, iface) ->
     exists r, r ∈ l /\ candidate prefix t r /\ nl_Gw r = Some ip /\
       forall r', r' ∈ l -> candidate prefix t r' -> (exists i, first_rule links rs r' i) ->
         r' = r \/ chosen_over links rs r r') /\
  ((exists r, r ∈ l /\ candidate prefix t r /\ exists i, first_rule links rs r i) ->
   (forall i k', exists iface, (net_InterfaceByIndex i k').1 = Ok iface) ->
   exists ip iface, (Retrieve prefix t k).1 = Ok (ip, iface)).
Proof.
  intros Ha. pose proof (listRoutes_spec prefix t k l rs links Ha) as Hl. cbv zeta in Hl.
  split.
  - intros ip iface (l' & r & Hl' & Hf & Hg & _)%Retrieve_route. rewrite Hl in Hl'. injection Hl' as <-.
    destruct (listed_is_best prefix t l rs links r ip Hf Hg) as (Hr & Hc & _ & Hbest).
    exists r. split_and!; [done..|]. intros r' Hr' Hc' [Heq|Hp]%covered_index%Hbest; [by left| |done..].
    right. by apply preferred_chosen.
  - intros (r & Hr & Hc & Hi%covered_index) Hif. pose proof (listed_has_candidate prefix t l rs links r Hr Hc Hi) as (r' & Hf).
    apply (Retrieve_finds prefix t k _ r' Hl Hf Hif).
Qed.
End Gateway.

(** ** The routes of the router *)

Section RouterProps.
Context {K : Type} `{Netlink K} {rules : K -> bool -> list NlRule} {routes : K -> list NlRoute}
  `{!NetlinkLaws K rules routes}.
#[local] Abbreviation agent := (NetlinkRouter K).
(** The routes of other programs. *)
Context (base : list NlRoute).









(** The states of a router over this agent, with any kernel that starts with the
    routes [base], in which no flush failed. *)
#[local] Abbreviation router := (Router agent).











End RouterProps.

(** ** The groups of the interfaces *)

(** [groups]: the group of each link. *)
Class GroupLaws (K : Type) `{Netlink K} (groups : K -> gmap Z Z) : Prop := {
  link_group_ok i k g : (netlink_LinkGroup i k).1 = Ok g -> groups k !! i = Some g;
  link_group_same i k : groups (netlink_LinkGroup i k).2 = groups k;
  link_set_ok i g k : (netlink_LinkSetGroup i g k).1 = Ok tt -> groups (netlink_LinkSetGroup i g k).2 = <[i := g]> (groups k);
  device_list_same k : groups (device_list k).2 = groups k
}.

Section Groups.
Context {K : Type} `{Netlink K} {groups : K -> gmap Z Z} `{!GroupLaws K groups}.
#[local] Abbreviation manager := (GroupManager K).
Context (devices : list Interface) (before : gmap Z Z).

Definition link_groups (g : manager) : gmap Z Z := groups (gm_kernel g).

Lemma on_links_run {B} (m : M K B) (g : manager) :
  on_links m g = ((m (gm_kernel g)).1, mkGroupManager (gm_set g) (gm_backup g) (m (gm_kernel g)).2).
Proof. unfold on_links, zoom. by destruct (m (gm_kernel g)). Qed.

Lemma device_group_wp d (g : manager) :
  wp (device_group d) (fun res g' => gm_set g' = gm_set g /\ gm_backup g' = gm_backup g /\ link_groups g' = link_groups g /\
    forall x, res = Ok x -> link_groups g !! if_index d = Some x) g.
Proof.
  unfold wp, device_group, wrapped. rewrite on_links_run. pose proof (link_group_same (if_index d) (gm_kernel g)) as Hs.
  pose proof (link_group_ok (if_index d) (gm_kernel g)) as Ho.
  destruct (netlink_LinkGroup (if_index d) (gm_kernel g)) as [[x|e] k']; cbn in *; split_and!; try done; naive_solver.
Qed.

Lemma set_group_wp d x (g : manager) :
  wp (set_group d x) (fun res g' => gm_set g' = gm_set g /\ gm_backup g' = gm_backup g /\
    (res = Ok tt -> link_groups g' = <[if_index d := x]> (link_groups g))) g.
Proof.
  unfold wp, set_group, wrapped. rewrite on_links_run. pose proof (link_set_ok (if_index d) x (gm_kernel g)) as Ho.
  destruct (netlink_LinkSetGroup (if_index d) x (gm_kernel g)) as [[[]|e] k']; cbn in *; by split_and!; auto.
Qed.

(** The groups of all other links are as before. *)
Definition others_kept (g : manager) : Prop :=
  forall i, (forall d, d ∈ devices -> if_index d <> i) -> link_groups g !! i = before !! i.
(** The groups of the devices are saved. *)
Definition backed_up (g : manager) : Prop :=
  forall d, d ∈ devices -> exists x, before !! if_index d = Some x /\ gm_backup g !! if_index d = Some x.

Lemma backup_loop (g : manager) :
  link_groups g = before ->
  wp (forM_ devices (fun device =>
        let! group := device_group device in
        modify (fun g => g <| gm_backup := <[if_index device := group]> (gm_backup g) |>)))
     (fun res g' => res = Ok tt -> link_groups g' = before /\ backed_up g') g.
Proof.
  intros Hg. apply (wp_forM_ _ _ (fun l g' => link_groups g' = before /\
    forall d, d ∈ devices -> d ∈ l \/ exists x, before !! if_index d = Some x /\ gm_backup g' !! if_index d = Some x)).
  - auto.
  - intros g' [Hg' Hb] _. split; [done|]. intros d Hd. destruct (Hb d Hd) as [Hn|?]; [by apply not_elem_of_nil in Hn|done].
  - intros x l g' [Hg' Hb]. apply wp_bind. eapply wp_mono; [|apply device_group_wp]. cbn.
    intros [v|e] g'' (_ & Hbk & Hl & Hv); [|done]. unfold wp, modify. cbn. split; [by rewrite <- Hg', <- Hl|].
    intros d Hd. rewrite Hbk. destruct (decide (if_index d = if_index x)) as [Heq|Hne].
    + right. exists v. rewrite Heq, lookup_insert_eq. split; [|done]. rewrite <- Hg'. by apply Hv.
    + rewrite lookup_insert_ne by done. destruct (Hb d Hd) as [[->|Hin]%elem_of_cons|?]; [done|by left|by right].
Qed.

Lemma set_loop (g : manager) :
  link_groups g = before -> backed_up g ->
  wp (forM_ devices (fun device => set_group device ifgroup_Group))
     (fun res g' => res = Ok tt -> others_kept g' /\ backed_up g' /\
        forall d, d ∈ devices -> link_groups g' !! if_index d = Some ifgroup_Group) g.
Proof.
  intros Hg Hb. apply (wp_forM_ _ _ (fun l g' => (exists done, devices = done ++ l) /\ others_kept g' /\ backed_up g' /\
    forall d, d ∈ devices -> d ∈ l \/ link_groups g' !! if_index d = Some ifgroup_Group)).
  - split_and!; [by exists []| |done|auto]. intros i _. by rewrite Hg.
  - intros g' (_ & Ho & Hb' & Hs) _. split_and!; [done..|]. intros d Hd. destruct (Hs d Hd) as [Hn|?]; [by apply not_elem_of_nil in Hn|done].
  - intros x l g' ([done Hdone] & Ho & Hb' & Hs). eapply wp_mono; [|apply set_group_wp]. cbn.
    intros [[]|e] g'' (_ & Hbk & Hl); [|done]. specialize (Hl eq_refl). split_and!.
    + exists (done ++ [x]). by rewrite <- app_assoc.
    + intros i Hi. rewrite Hl, lookup_insert_ne; [by apply Ho|]. apply Hi. rewrite Hdone. set_solver.
    + intros d Hd. rewrite Hbk. by apply Hb'.
    + intros d Hd. rewrite Hl. destruct (decide (if_index d = if_index x)) as [->|Hne]; [right; apply lookup_insert_eq|].
      rewrite lookup_insert_ne by done. destruct (Hs d Hd) as [[->|Hin]%elem_of_cons|?]; [done|by left|by right].
Qed.

Lemma unset_loop (g : manager) :
  others_kept g -> backed_up g ->
  wp (forM_ devices (fun device =>
        device_group device ;;
        let! backup := gets gm_backup in
        set_group device (default 0 (backup !! if_index device))))
     (fun res g' => res = Ok tt -> link_groups g' = before) g.
Proof.
  intros Ho Hb. apply (wp_forM_ _ _ (fun l g' => (exists done, devices = done ++ l) /\ others_kept g' /\ backed_up g' /\
    forall d, d ∈ devices -> d ∈ l \/ link_groups g' !! if_index d = before !! if_index d)).
  - split_and!; [by exists []|done|done|auto].
  - intros g' (_ & Ho' & _ & Hs) _. apply map_eq. intros i.
    destruct (decide (Exists (fun d => if_index d = i) devices)) as [(d & Hd & <-)%Exists_exists|Hn].
    + destruct (Hs d Hd) as [Hn|?]; [by apply not_elem_of_nil in Hn|done].
    + apply Ho'. intros d Hd Hi. apply Hn, Exists_exists. eauto.
  - intros x l g' ([done Hdone] & Ho' & Hb' & Hs). apply wp_bind. eapply wp_mono; [|apply device_group_wp]. cbn.
    intros [v|e] g1 (_ & Hbk & Hl & _); [|done]. apply wp_bind. unfold wp at 1, gets. cbn.
    assert (Hx : x ∈ devices) by (rewrite Hdone; set_solver). destruct (Hb' x Hx) as (v0 & Hv0 & Hbv).
    rewrite Hbk, Hbv. cbn [default]. eapply wp_mono; [|apply set_group_wp]. cbn.
    intros [[]|e] g2 (_ & Hbk2 & Hl2); [|done]. specialize (Hl2 eq_refl). rewrite Hl in Hl2. split_and!.
    + exists (done ++ [x]). by rewrite <- app_assoc.
    + intros i Hi. rewrite Hl2, lookup_insert_ne; [by apply Ho'|]. by apply Hi.
    + intros d Hd. rewrite Hbk2, Hbk. by apply Hb'.
    + intros d Hd. rewrite Hl2. destruct (decide (if_index d = if_index x)) as [->|Hne]; [right; by rewrite lookup_insert_eq|].
      rewrite lookup_insert_ne by done. destruct (Hs d Hd) as [[->|Hin]%elem_of_cons|?]; [done|by left|by right].
Qed.

Lemma devices_wp (pre : string) (g : manager) :
  (device_list (gm_kernel g)).1 = Ok devices ->
  wp (wrapped pre (on_links device_list) "")
     (fun res g' => res = Ok devices /\ gm_set g' = gm_set g /\ gm_backup g' = gm_backup g /\ link_groups g' = link_groups g) g.
Proof.
  intros Hd. unfold wp, wrapped. rewrite on_links_run. pose proof (device_list_same (gm_kernel g)) as Hs.
  destruct (device_list (gm_kernel g)) as [r k]. cbn in *. by subst r.
Qed.

Lemma Group_Set_spec (k : K) :
  groups k = before -> (device_list k).1 = Ok devices ->
  wp Group_Set (fun res g => res = Ok tt -> gm_set g = true /\ others_kept g /\ backed_up g /\
    forall d, d ∈ devices -> link_groups g !! if_index d = Some ifgroup_Group) (NewNetlinkManager k).
Proof.
  intros Hk Hd. apply wp_bind. unfold wp at 1. cbn [fst snd gets gm_set NewNetlinkManager].
  apply wp_bind. eapply wp_mono; [|by apply devices_wp]. intros res g0 (-> & _ & _ & Hg0).
  apply wp_bind. eapply wp_mono; [|apply backup_loop; by rewrite Hg0]. intros [[]|e] g1 H1; [|done].
  destruct (H1 eq_refl) as [Hg1 Hb1].
  apply wp_bind. eapply wp_mono; [|by apply set_loop]. intros [[]|e] g2 H2; [|done]. unfold wp, modify. cbn. auto.
Qed.

Lemma Group_Unset_spec (g : manager) :
  gm_set g = true -> others_kept g -> backed_up g -> (device_list (gm_kernel g)).1 = Ok devices ->
  wp Group_Unset (fun res g' => res = Ok tt -> link_groups g' = before) g.
Proof.
  intros Hs Ho Hb Hd. apply wp_bind. unfold wp at 1. cbn [fst snd gets]. rewrite Hs. cbn [negb].
  apply wp_bind. eapply wp_mono; [|by apply devices_wp]. intros res g0 (-> & _ & Hb0 & Hg0).
  apply wp_bind. eapply wp_mono; [|apply unset_loop].
  - intros [[]|e] g1 H1; [|done]. unfold wp, modify. cbn. auto.
  - intros i Hi. rewrite Hg0. by apply Ho.
  - intros d Hd'. rewrite Hb0. by apply Hb.
Qed.

(** The groups of the interfaces are given back.  After a successful [Set] every
    device is in the group of the application and every other link in its own, and
    a successful [Unset], with the same devices present, puts every link back into
    the group it was in before. *)
Theorem groups_given_back (k : K) :
  groups k = before -> (device_list k).1 = Ok devices -> (Group_Set (NewNetlinkManager k)).1 = Ok tt ->
  let g := (Group_Set (NewNetlinkManager k)).2 in
  (forall d, d ∈ devices -> link_groups g !! if_index d = Some ifgroup_Group) /\ others_kept g /\
  ((device_list (gm_kernel g)).1 = Ok devices -> (Group_Unset g).1 = Ok tt -> link_groups (Group_Unset g).2 = before).
Proof.
  intros Hk Hd Hset g. destruct (Group_Set_spec k Hk Hd Hset) as (Hs & Ho & Hb & Hg). fold g in Hs, Ho, Hb, Hg.
  split_and!; [done..|]. intros Hd' Hu. by apply (Group_Unset_spec g).
Qed.
End Groups.

(** ** The kernel in memory *)

Module TableWitness.
Import MemNetlink PolicyWitness.

#[export] Instance mem_group_laws : GroupLaws Mem mem_groups.
Proof.
  constructor.
  - intros i k g. cbn. unfold mem_groups. rewrite mem_groups_lookup. destruct (find _ _) as [x|]; [|done]. by intros [= <-].
  - intros i k. cbn. by destruct (find _ _).
  - intros i g k. cbn. unfold update. destruct (find _ _) as [x|] eqn:Hf; [|done]. intros _. cbn. apply map_eq. intros j.
    unfold mem_groups. cbn. rewrite mem_groups_lookup, find_set_links. destruct (Z.eqb_spec i j) as [->|Hne].
    + by rewrite Hf, lookup_insert_eq.
    + by rewrite lookup_insert_ne, mem_groups_lookup.
  - done.
Qed.

Definition addr (s : string) : Addr := default AddrInvalid (ParseAddr s).
Definition cidr (s : string) : Prefix := default (mkPrefix AddrInvalid (-1)) (ParseCIDR s).
Definition gw (s : string) (dst : option Prefix) (table metric : Z) : NlRoute := mkNlRoute 2 (Some (addr s)) dst table 0 metric.

(** Two default routes and one to a subnet, in the main table and in table 205. *)
Definition table0 : list NlRoute :=
  [gw "192.168.1.1" None 254 100; gw "192.168.1.2" None 254 50; gw "10.1.1.1" (Some (cidr "10.0.0.0/8")) 205 0].
Definition mem1 : Mem := mkMem rules0 rules0 table0 [(eth0, 7)].

Lemma gateway_is_best_witness :
  exists ip iface, (Retrieve (cidr "1.1.1.1/32") 205 mem1).1 = Ok (ip, iface) /\ ip = addr "192.168.1.2".
Proof.
  destruct (gateway_is_best (K := Mem) (rules := mem_rules) (routes := m_routes) (cidr "1.1.1.1/32") 205 mem1 table0 rules0 [(2, 7)]
    ltac:(by constructor)) as [Hbest Hsome].
  assert (Hr : (Retrieve (cidr "1.1.1.1/32") 205 mem1).1 = Ok (addr "192.168.1.2", eth0)) by (vm_compute; reflexivity).
  destruct (Hbest _ _ Hr) as (r & Hrest). exists (addr "192.168.1.2"), eth0. split; [exact Hr|reflexivity].
Defined.

Definition route0 : Route := mkRoute (addr "192.168.1.1") (cidr "8.8.8.0/24") eth0 0.


Lemma groups_given_back_witness :
  link_groups (groups := mem_groups) (Group_Unset (Group_Set (NewNetlinkManager mem1)).2).2 = {[2 := 7]}.
Proof.
  apply (groups_given_back (K := Mem) (groups := mem_groups) [eth0] {[2 := 7]} mem1); vm_compute; reflexivity.
Defined.

(** The table of the router is that of the last family: with a route of another
    program in table 205 the IPv4 rule gets table 206 and the IPv6 rule table 205,
    and [TableID], by which the IPv4 routes are added, is 205. *)
Definition mem2 : Mem := mkMem rules0 rules0 [gw "10.1.1.1" (Some (cidr "10.0.0.0/8")) 205 0] [(eth0, 0)].
Definition setup2 : RuleRouter Mem := (SetupRoutingRules true false false [] (NewRuleRouter mem2 mark0)).2.
Example table_of_last_family :
  ir_tableID setup2 = 205 /\
  exists r, r ∈ mem_rules (gm_kernel (ir_groups setup2)) false /\ ru_Mark r = mark0 /\ ru_Table r = 206.
Proof.
  split; [vm_compute; reflexivity|]. exists (fwmarkRule 32765 mark0 206).
  split; [|by split]. apply list_elem_of_In. vm_compute. auto.
Qed.

(** A setup without IPv6 after one with IPv6 forgets the IPv6 rules of its subnets:
    the cleanup leaves one of them behind. *)
Example ipv6_allow_rule_left :
  length (mem_rules (gm_kernel (ir_groups (run_ops policy_op
    [PolicySetup true false false ["10.0.0.0/8"]; PolicySetup false false false []; PolicyCleanup]
    (NewRuleRouter mem1 mark0)))) true) = 4%nat.
Proof. vm_compute. reflexivity. Qed.

(** A route added twice while routing is off is remembered twice, and routing
    cannot be turned on again. *)
Definition twice : Router (NetlinkRouter Mem) :=
  (Router_Add route0 (Router_Add route0 (NewRouter (mkNetlinkRouter [] mem1) false)).2).2.
Example duplicate_blocks_enable :
  (Router_Enable 205 twice).1 = Err (Errorf "route already exists") /\
  (Router_Enable 205 (Router_Enable 205 twice).2).1 = Err (Errorf "route already exists").
Proof. split; vm_compute; reflexivity. Qed.
End TableWitness.
