(* ===== verification/Transfers.v ===== *)
(** * Transfers: file transfers, their states and their storage

    Models the data of file sharing: the transfers and files of [fileshare/pb], the
    texts and searches of [fileshare/transfer.go], the translation of the transfers
    and events of libdrop ([fileshare/libdrop/libdrop.go]) and the storage that
    combines libdrop's with an old history file ([fileshare/storage]).

    A status is a protobuf enumeration and any integer can be cast to it, so it is a
    number with named values; the same holds for the direction.  Sizes are 64-bit
    integers and wrap around.  Of libdrop's types the model has the cases the code
    distinguishes and one for all others. *)

From stdpp Require Import base option list strings pretty gmap.
From Stdlib Require Import ZArith Lia Ascii.
From S2P Require Import Prelude GoLib.

Open Scope Z_scope.
Open Scope go_scope.

(** ** Paths *)

(** [strings.Split(path, "/")] without empty and dot elements, with [..] resolved;
    [out] is the result so far, in reverse. *)
Fixpoint clean_elements (rooted : bool) (out : list string) (elements : list string) : list string :=
  match elements with
  | [] => rev out
  | e :: elements' =>
      if bool_decide (e = "") || bool_decide (e = ".") then clean_elements rooted out elements'
      else if bool_decide (e = "..") then
        match out with
        | last :: out' => if bool_decide (last = "..") then clean_elements rooted (".." :: out) elements'
                          else clean_elements rooted out' elements'
        | [] => clean_elements rooted (if rooted then [] else [".."]) elements'
        end
      else clean_elements rooted (e :: out) elements'
  end.

(** [filepath.Clean]. *)
Definition filepath_Clean (path : string) : string :=
  let rooted := has_prefix "/" path in
  let out := strings_Join (clean_elements rooted [] (split_char "/"%char path)) "/" in
  if rooted then "/" +:+ out else if bool_decide (out = "") then "." else out.

(** [filepath.Join]. *)
Definition filepath_Join (elements : list string) : string :=
  match filter (fun e => e <> "") elements with
  | [] => ""
  | es => filepath_Clean (strings_Join es "/")
  end.

(** [filepath.Base]: the last element that is not empty. *)
Definition filepath_Base (path : string) : string :=
  if bool_decide (path = "") then "."
  else match last (filter (fun e => e <> "") (split_char "/"%char path)) with
       | Some e => e
       | None => "/"
       end.

(** ** Statuses *)

Definition Status : Type := Z.
Definition Status_SUCCESS : Status := 0.
Definition Status_CANCELED : Status := 1.
Definition Status_BAD_PATH : Status := 2.
Definition Status_BAD_FILE : Status := 3.
Definition Status_TRANSPORT : Status := 4.
Definition Status_BAD_STATUS : Status := 5.
Definition Status_REQUESTED : Status := 100.
Definition Status_ONGOING : Status := 101.
Definition Status_FINISHED_WITH_ERRORS : Status := 102.
Definition Status_ACCEPT_FAILURE : Status := 103.
Definition Status_CANCELED_BY_PEER : Status := 104.
Definition Status_INTERRUPTED : Status := 105.
Definition Status_PAUSED : Status := 106.
Definition Status_PENDING : Status := 107.
Definition Status_FILE_REJECTED : Status := 34.

Definition Direction : Type := Z.
Definition Direction_UNKNOWN_DIRECTION : Direction := 0.
Definition Direction_INCOMING : Direction := 1.
Definition Direction_OUTGOING : Direction := 2.

Definition IncomingStatus : gmap Z string := list_to_map
  [(Status_REQUESTED, "waiting for download"); (Status_ONGOING, "downloading"); (Status_SUCCESS, "completed");
   (Status_INTERRUPTED, "interrupted"); (Status_FINISHED_WITH_ERRORS, "completed with errors");
   (Status_ACCEPT_FAILURE, "accepted with errors"); (Status_CANCELED, "canceled");
   (Status_CANCELED_BY_PEER, "canceled by peer"); (Status_PENDING, "pending")].

Definition OutgoingStatus : gmap Z string := list_to_map
  [(Status_REQUESTED, "request sent"); (Status_ONGOING, "uploading"); (Status_SUCCESS, "completed");
   (Status_INTERRUPTED, "interrupted"); (Status_FINISHED_WITH_ERRORS, "completed with errors");
   (Status_ACCEPT_FAILURE, "accepted with errors"); (Status_CANCELED, "canceled");
   (Status_CANCELED_BY_PEER, "canceled by peer");
   (Status_FILE_REJECTED, "the receiver has declined the file transfer"); (Status_PENDING, "pending")].

Definition FileStatus : gmap Z string := list_to_map
  [(Status_SUCCESS, "completed"); (Status_CANCELED, "canceled"); (Status_INTERRUPTED, "interrupted");
   (Status_PENDING, "pending"); (Status_BAD_PATH, "the download path is not valid");
   (Status_BAD_FILE, "the file is no longer found"); (Status_TRANSPORT, "transport problem");
   (Status_BAD_STATUS, "bad status"); (6, "service not active"); (7, "bad transfer"); (8, "bad transfer state");
   (9, "bad file id"); (10, "bad system time"); (11, "truncated file"); (12, "internal error");
   (13, "internal error"); (14, "internal error"); (15, "io error"); (16, "data send error");
   (17, "directory not expected"); (18, "empty transfer"); (19, "transfer closed by peer");
   (20, "directory depth or breadth limits are exceeded"); (21, "the file has been modified");
   (22, "the file has been modified"); (23, "internal error"); (24, "transfer timeout");
   (25, "waiting for peer to come online"); (26, "waiting for peer to come online");
   (28, "the file has been modified"); (29, "filename too long"); (30, "authentication failed");
   (33, "the file is corrupted")].

Definition IncomingFileStatus : gmap Z string := list_to_map
  [(Status_SUCCESS, "downloaded"); (Status_CANCELED, "canceled"); (Status_REQUESTED, "waiting for download");
   (Status_ONGOING, "downloading"); (Status_FINISHED_WITH_ERRORS, "downloaded with errors");
   (Status_ACCEPT_FAILURE, "accepted with errors")].

Definition OutgoingFileStatus : gmap Z string := list_to_map
  [(Status_SUCCESS, "uploaded"); (Status_CANCELED, "canceled"); (Status_REQUESTED, "request sent");
   (Status_ONGOING, "uploading"); (Status_FINISHED_WITH_ERRORS, "uploaded with errors");
   (Status_ACCEPT_FAILURE, "accepted with errors")].

(** ** Files and transfers *)

Record File : Type := mkFile {
  f_Id : string;
  f_Path : string;
  f_FullPath : string;
  f_Size : Z;
  f_Transferred : Z;
  f_Status : Status
}.
#[export] Instance File_eta : EtaExpand File := fun f =>
  mkFile (f_Id f) (f_Path f) (f_FullPath f) (f_Size f) (f_Transferred f) (f_Status f).
#[export] Instance File_eq_dec : EqDecision File.
Proof. solve_decision. Defined.

(** [t_Created] is the time in milliseconds. *)
Record Transfer : Type := mkTransfer {
  t_Id : string;
  t_Direction : Direction;
  t_Peer : string;
  t_Status : Status;
  t_Created : Z;
  t_Path : string;
  t_Files : list File;
  t_TotalSize : Z;
  t_TotalTransferred : Z
}.
#[export] Instance Transfer_eta : EtaExpand Transfer := fun t =>
  mkTransfer (t_Id t) (t_Direction t) (t_Peer t) (t_Status t) (t_Created t) (t_Path t) (t_Files t)
    (t_TotalSize t) (t_TotalTransferred t).
#[export] Instance Transfer_eq_dec : EqDecision Transfer.
Proof. solve_decision. Defined.

Definition GetTransferStatus (tr : Transfer) : string :=
  default "-" (if t_Direction tr =? Direction_INCOMING then IncomingStatus !! t_Status tr
               else OutgoingStatus !! t_Status tr).

Definition SetTransferAllFileStatus (tr : Transfer) (status : Status) : Transfer :=
  tr <| t_Files := map (fun f => f <| f_Status := status |>) (t_Files tr) |>.

Definition FindTransferFileByPath (tr : Transfer) (filePath : string) : option File :=
  find (fun f => bool_decide (f_Path f = filePath)) (t_Files tr).

(** [nil] is the empty list. *)
Definition GetTransferFilesByPathPrefix (tr : Transfer) (filePath : string) : list File :=
  filter (fun f => has_prefix filePath (f_Path f) = true) (t_Files tr).

Definition GetTransferFileStatus (file : File) (incoming : bool) : string :=
  match (if incoming then IncomingFileStatus else OutgoingFileStatus) !! f_Status file with
  | Some status => status
  | None => default "-" (FileStatus !! f_Status file)
  end.

(** The same definitions are in [event_manager.go] and in [libdrop.go]. *)
Definition isFileCompleted (file : File) : bool :=
  negb (f_Status file =? Status_REQUESTED) && negb (f_Status file =? Status_ONGOING) &&
  negb (f_Status file =? Status_PENDING).

Definition isFileTransferred (file : File) : bool :=
  negb (isFileCompleted file) || (f_Status file =? Status_SUCCESS).

Definition checkFileHasErrors (file : File) : bool :=
  negb (f_Status file =? Status_SUCCESS) && negb (f_Status file =? Status_REQUESTED) &&
  negb (f_Status file =? Status_CANCELED) && negb (f_Status file =? Status_ONGOING) &&
  negb (f_Status file =? Status_PENDING).

(** [uint64] arithmetic. *)
Definition u64 (z : Z) : Z := z mod 2 ^ 64.
Definition sum_u64 {A} (f : A -> Z) (l : list A) : Z := foldl (fun acc x => u64 (acc + f x)) 0 l.

(** ** The transfers of libdrop *)

Inductive IncomingPathStateKind : Type :=
| IncomingPending (BaseDir : string)
| IncomingStarted (BytesReceived : Z)
| IncomingFailed (Status : Z) (BytesReceived : Z)
| IncomingCompleted (FinalPath : string)
| IncomingRejected (BytesReceived : Z)
| IncomingPaused (BytesReceived : Z)
| IncomingOther.

Record IncomingPath : Type := mkIncomingPath {
  ip_FileId : string;
  ip_RelativePath : string;
  ip_Bytes : Z;
  ip_States : list IncomingPathStateKind
}.

Inductive OutgoingFileSource : Type := SourceBasePath (BasePath : string) | SourceOther.

Inductive OutgoingPathStateKind : Type :=
| OutgoingStarted (BytesSent : Z)
| OutgoingFailed (Status : Z) (BytesSent : Z)
| OutgoingCompleted
| OutgoingRejected (BytesSent : Z)
| OutgoingPaused (BytesSent : Z)
| OutgoingOther.

Record OutgoingPath : Type := mkOutgoingPath {
  op_FileId : string;
  op_RelativePath : string;
  op_Bytes : Z;
  op_Source : OutgoingFileSource;
  op_States : list OutgoingPathStateKind
}.

Inductive TransferKind : Type :=
| TransferIncoming (Paths : list IncomingPath)
| TransferOutgoing (Paths : list OutgoingPath)
| TransferOther.

Inductive TransferStateKind : Type := TransferCancel (ByPeer : bool) | TransferFailed (Status : Z) | TransferStateOther.

Record TransferInfo : Type := mkTransferInfo {
  ti_Id : string;
  ti_CreatedAt : Z;
  ti_Peer : string;
  ti_Kind : TransferKind;
  ti_States : list TransferStateKind
}.

Definition statusFromIncomingPath (p : IncomingPath) : Status :=
  match last (ip_States p) with
  | None => Status_REQUESTED
  | Some (IncomingCompleted _) => Status_SUCCESS
  | Some (IncomingFailed status _) => status
  | Some (IncomingPaused _) => Status_PAUSED
  | Some (IncomingPending _) => Status_PENDING
  | Some (IncomingRejected _) => Status_CANCELED
  | Some (IncomingStarted _) => Status_ONGOING
  | Some IncomingOther => Status_BAD_STATUS
  end.

Definition transferredFromIncomingPath (p : IncomingPath) : Z :=
  foldl (fun transferred st =>
    match st with
    | IncomingStarted n | IncomingFailed _ n | IncomingRejected n | IncomingPaused n => n
    | IncomingCompleted _ => ip_Bytes p
    | _ => transferred
    end) 0 (ip_States p).

Definition determineFullIncomingPath (p : IncomingPath) : string :=
  foldl (fun fullPath st =>
    match st with
    | IncomingPending dir => filepath_Join [dir; fullPath]
    | IncomingCompleted final => final
    | _ => fullPath
    end) (ip_RelativePath p) (ip_States p).

Definition norddropIncomingPathToPBFile (p : IncomingPath) : File :=
  mkFile (ip_FileId p) (ip_RelativePath p) (determineFullIncomingPath p) (ip_Bytes p)
    (transferredFromIncomingPath p) (statusFromIncomingPath p).

Definition statusFromOutgoingPath (p : OutgoingPath) : Status :=
  match last (op_States p) with
  | None => Status_REQUESTED
  | Some (OutgoingStarted _) => Status_ONGOING
  | Some (OutgoingFailed status _) => status
  | Some OutgoingCompleted => Status_SUCCESS
  | Some (OutgoingRejected _) => Status_CANCELED
  | Some (OutgoingPaused _) => Status_PAUSED
  | Some OutgoingOther => Status_BAD_STATUS
  end.

Definition transferredFromOutgoingPath (p : OutgoingPath) : Z :=
  foldl (fun transferred st =>
    match st with
    | OutgoingStarted n | OutgoingFailed _ n | OutgoingRejected n | OutgoingPaused n => n
    | OutgoingCompleted => op_Bytes p
    | OutgoingOther => transferred
    end) 0 (op_States p).

Definition determineFullOutgoingPath (p : OutgoingPath) : string :=
  match op_Source p with
  | SourceBasePath base => filepath_Join [base; op_RelativePath p]
  | SourceOther => ""
  end.

Definition norddropOutgoingPathToPBFile (p : OutgoingPath) : File :=
  mkFile (op_FileId p) (op_RelativePath p) (determineFullOutgoingPath p) (op_Bytes p)
    (transferredFromOutgoingPath p) (statusFromOutgoingPath p).

Definition directionFromTransferInfo (ti : TransferInfo) : Direction :=
  match ti_Kind ti with
  | TransferOutgoing _ => Direction_OUTGOING
  | TransferIncoming _ => Direction_INCOMING
  | TransferOther => Direction_UNKNOWN_DIRECTION
  end.

Definition filesFromTransferInfo (ti : TransferInfo) : list File :=
  match ti_Kind ti with
  | TransferIncoming paths => map norddropIncomingPathToPBFile paths
  | TransferOutgoing paths => map norddropOutgoingPathToPBFile paths
  | TransferOther => []
  end.

Definition calculateTotalSizeAndTotalTransferred (allFiles : list File) : Z * Z :=
  let counted := filter (fun f => isFileTransferred f = true) allFiles in
  (sum_u64 f_Size counted, sum_u64 f_Transferred counted).

(** One step of the loop: all canceled, all finished, no errors, started. *)
Definition status_flags (flags : bool * bool * bool * bool) (file : File) : bool * bool * bool * bool :=
  let '(allCanceled, allFinished, hasNoErrors, hasStarted) := flags in
  (allCanceled && (f_Status file =? Status_CANCELED),
   allFinished && isFileCompleted file,
   hasNoErrors && negb (checkFileHasErrors file),
   hasStarted || negb (f_Status file =? Status_REQUESTED)).

Definition getTransferStatusByFiles (files : list File) : Status :=
  let '(allCanceled, allFinished, hasNoErrors, hasStarted) := foldl status_flags (true, true, true, false) files in
  if allCanceled : bool then Status_CANCELED
  else if allFinished && hasNoErrors then Status_SUCCESS
  else if allFinished && negb hasNoErrors then Status_FINISHED_WITH_ERRORS
  else if hasStarted : bool then Status_ONGOING
  else Status_REQUESTED.

(** The status, and the files with their adjusted statuses. *)
Definition determineTransferStatusAndAdjustFileStatuses (ti : TransferInfo) (allFiles : list File) : Status * list File :=
  match last (ti_States ti) with
  | None => (getTransferStatusByFiles allFiles, allFiles)
  | Some (TransferCancel byPeer) =>
      let statusByFiles := getTransferStatusByFiles allFiles in
      if (statusByFiles =? Status_SUCCESS) || (statusByFiles =? Status_FINISHED_WITH_ERRORS)
      then (statusByFiles, allFiles)
      else
        (if byPeer then Status_CANCELED_BY_PEER else Status_CANCELED,
         map (fun f => if isFileCompleted f then f else f <| f_Status := Status_CANCELED |>) allFiles)
  | Some (TransferFailed status) => (status, allFiles)
  | Some TransferStateOther => (Status_SUCCESS, allFiles)  (* the zero status *)
  end.

(** The end of both loops. *)
Definition merge_path (result transferPath : string) : string :=
  if bool_decide (result = "") then transferPath
  else if negb (bool_decide (result = transferPath)) && negb (bool_decide (transferPath = "")) then "multiple files"
  else result.

(** The path of an outgoing transfer, with [transferPath] from the step before. *)
Definition outgoing_path (path : OutgoingPath) (file : File) (transferPath : string) : string :=
  if bool_decide (filepath_Base (op_RelativePath path) = op_RelativePath path) then f_FullPath file
  else match cut_first "/"%char (op_RelativePath path) with
       | Some (dir, _) =>
           match op_Source path with
           | SourceBasePath base => filepath_Join [base; dir]
           | SourceOther => transferPath
           end
       | None => transferPath
       end.

Definition determineTransferPath (ti : TransferInfo) (allFiles : list File) : string :=
  match ti_Kind ti with
  | TransferIncoming paths =>
      foldl (fun transferPath path =>
        foldl (fun tp st => match st with IncomingPending dir => dir | _ => tp end) transferPath (ip_States path))
        "" paths
  | TransferOutgoing paths =>
      (foldl (fun '(result, transferPath) '(path, file) =>
         let transferPath := outgoing_path path file transferPath in
         (merge_path result transferPath, transferPath)) ("", "") (zip paths allFiles)).1
  | TransferOther => ""
  end.

Definition norddropTransferToPBTransfer (ti : TransferInfo) : Transfer :=
  let allFiles := filesFromTransferInfo ti in
  let '(totalSize, totalTransferred) := calculateTotalSizeAndTotalTransferred allFiles in
  let '(status, files) := determineTransferStatusAndAdjustFileStatuses ti allFiles in
  mkTransfer (ti_Id ti) (directionFromTransferInfo ti) (ti_Peer ti) status (ti_CreatedAt ti)
    (determineTransferPath ti files) files totalSize totalTransferred.

(** ** Events *)

Record ReceivedFile : Type := mkReceivedFile { rf_Id : string; rf_Path : string; rf_Size : Z }.
Record QueuedFile : Type := mkQueuedFile { qf_BaseDir : option string; qf_Id : string; qf_Path : string; qf_Size : Z }.

(** [StatusCode] of an event: the codes of libdrop. *)
Definition StatusCode : Type := Z.
Definition StatusCodeFinalized : StatusCode := 1.
Definition StatusCodeBadTransfer : StatusCode := 4.
Definition StatusCodeIoError : StatusCode := 7.

Inductive EventKind : Type :=
| EventKindRequestReceived (Peer TransferId : string) (Files : list ReceivedFile)
| EventKindRequestQueued (Peer TransferId : string) (Files : list QueuedFile)
| EventKindFileStarted (TransferId FileId : string) (Transferred : Z)
| EventKindFileProgress (TransferId FileId : string) (Transferred : Z)
| EventKindTransferFailed (TransferId : string) (code : StatusCode)
| EventKindTransferFinalized (TransferId : string) (ByPeer : bool)
| EventKindFileDownloaded (TransferId FileId FinalPath : string)
| EventKindFileUploaded (TransferId FileId : string)
| EventKindFileRejected (TransferId FileId : string) (ByPeer : bool)
| EventKindFileFailed (TransferId FileId : string) (code : StatusCode)
| EventKindUnknown.

(** The events of libdrop have the same cases, and [EventKindUnknown] stands for any
    other.  A failed transfer loses its identifier. *)
Definition toInternalEventKind (kind : EventKind) : EventKind :=
  match kind with
  | EventKindTransferFailed _ code => EventKindTransferFailed "" code
  | k => k
  end.

(** ** Storage *)

Class Storage (E : Type) : Type := {
  storage_Load : M E (gmap string Transfer);
  storage_PurgeTransfersUntil : Z -> M E unit  (* in milliseconds *)
}.

(** The parts of libdrop and of the file system the storage uses.  [history_Read]
    reads and decodes the history file. *)
Inductive FileTree : Type := FileNode (file : File) (children : list FileTree).

Class StorageEnv (E : Type) : Type := {
  norddrop_TransfersSince : Z -> M E (list TransferInfo);
  norddrop_PurgeTransfersUntil : Z -> M E unit;
  history_Read : M E (list (string * (Transfer * list FileTree)));  (* the files of a transfer are the trees *)
  history_ModTime : M E Z;
  history_Remove : M E unit
}.

(** [os.ErrNotExist]. *)
Definition ErrNotExist : string := "file does not exist".

(** The children of a file are listed in the order of [maps.Values], which is not
    specified; a file with children is dropped. *)
Fixpoint flatten_tree (t : FileTree) : list File :=
  match t with
  | FileNode file [] => [if bool_decide (f_Path file = "") then file <| f_Path := f_Id file |> else file]
  | FileNode _ children => flat_map flatten_tree children
  end.
Definition flatten (files : list FileTree) : list File := flat_map flatten_tree files.

(** The transfers of the history file that had not ended were interrupted. *)
Definition history_transfer (x : Transfer * list FileTree) : Transfer :=
  let tr := x.1 <| t_Files := flatten x.2 |> in
  if (t_Status tr =? Status_REQUESTED) || (t_Status tr =? Status_ONGOING)
  then SetTransferAllFileStatus (tr <| t_Status := Status_INTERRUPTED |>) Status_INTERRUPTED
  else tr.

Section Storages.
Context {E : Type} `{StorageEnv E}.

(** [time.Time{}.Unix()]: the year 1 in seconds. *)
Definition zero_time : Z := -62135596800.

Definition Fileshare_Load : M E (gmap string Transfer) :=
  let! infos := wrapped ("getting transfers since " +:+ itoa zero_time +:+ ": ") (norddrop_TransfersSince zero_time) "" in
  ret (foldl (fun m ti => <[ti_Id ti := norddropTransferToPBTransfer ti]> m) ∅ infos).

(** The time in seconds times a hundred. *)
Definition Fileshare_PurgeTransfersUntil (until : Z) : M E unit := norddrop_PurgeTransfersUntil (until / 1000 * 100).

Definition JsonFile_Load : M E (gmap string Transfer) :=
  let! transfers := history_Read in
  ret (list_to_map (map (fun x => (x.1, history_transfer x.2)) transfers)).

Definition JsonFile_PurgeTransfersUntil (until : Z) : M E unit :=
  let! info := attempt history_ModTime in
  match info with
  | Ok modTime => when (modTime <? until) (wrapped "removing transfers history file: " history_Remove "")
  | Err err => if errors_Is err ErrNotExist then ret tt else throw (Wrapf "stating transfers history file: " err "")
  end.

(** [Libdrop.Load], then the transfers of the history file on top; an error of the
    history file is only logged. *)
Definition Combined_Load : M E (gmap string Transfer) :=
  let! libdropTransfers := wrapped "getting transfers from libdrop: " Fileshare_Load "" in
  let! jsonTransfers := attempt JsonFile_Load in
  match jsonTransfers with
  | Ok json => ret (json ∪ libdropTransfers)
  | Err _ => ret libdropTransfers
  end.

Definition Combined_PurgeTransfersUntil (until : Z) : M E unit :=
  Fileshare_PurgeTransfersUntil until ;; JsonFile_PurgeTransfersUntil until.

#[export] Instance combined_storage : Storage E := {|
  storage_Load := Combined_Load;
  storage_PurgeTransfersUntil := Combined_PurgeTransfersUntil
|}.
End Storages.
