(* ===== verification/Fileshare.v ===== *)
(** * Fileshare: the event manager, its notifications and the file sharing service

    Models [fileshare/event_manager.go], [notification_manager.go], [peers.go] and
    [server.go]: the live state of the transfers, driven by the events of libdrop,
    the progress of the transfers to their subscribers, accepting transfers, and the
    requests of the service.

    The manager's state is [EventManager].  A progress channel is a number, and what
    is sent on a channel and its closing is recorded in [em_sent]; a subscriber reads
    its channel until it is closed ([startTransferStatusStream]).  The rest of the
    world (storage, libdrop, the mesh service, file system, user, notifier, the
    stream to the client) is class [FileshareEnv]. *)

From stdpp Require Import base option list strings pretty gmap sorting.
From Stdlib Require Import ZArith Lia Floats.SpecFloat.
From S2P Require Import Prelude GoLib Mesh MeshnetServer MeshnetPeers Transfers.

Open Scope Z_scope.
Open Scope go_scope.

Definition ErrTransferNotFound : string := "transfer not found".
Definition ErrFileNotFound : string := "file not found".
Definition ErrTransferAlreadyAccepted : string := "can't accept already accepted transfer".
Definition ErrTransferAcceptOutgoing : string := "can't accept outgoing transfer".
Definition ErrSizeLimitExceeded : string := "provided size limit exceeded".
Definition ErrAcceptDirNotFound : string := "accept directory not found".
Definition ErrAcceptDirIsASymlink : string := "accept directory is a symlink".
Definition ErrAcceptDirIsNotADirectory : string := "accept directory is not a directory".
Definition ErrNoPermissionsToAcceptDirectory : string := "no permissions to accept directory".
Definition ErrNotificationsAlreadyEnabled : string := "notifications already enabled".
Definition ErrNotificationsAlreadyDisabled : string := "notifications already disabled".
Definition ErrTransferCanceledByPeer : string := "transfer has been canceled by peer".
Definition ErrTransferCanceledByUs : string := "transfer has been canceled by us".

(** ** The state *)

Record LiveFile : Type := mkLiveFile {
  lf_ID : string;
  lf_FullPath : string;
  lf_Size : Z;
  lf_Transferred : Z;
  lf_Finished : bool
}.
#[export] Instance LiveFile_eta : EtaExpand LiveFile := fun f =>
  mkLiveFile (lf_ID f) (lf_FullPath f) (lf_Size f) (lf_Transferred f) (lf_Finished f).

Record LiveTransfer : Type := mkLiveTransfer {
  lt_ID : string;
  lt_Direction : Direction;
  lt_TotalSize : Z;
  lt_TotalTransferred : Z;
  lt_Files : gmap string LiveFile
}.
#[export] Instance LiveTransfer_eta : EtaExpand LiveTransfer := fun t =>
  mkLiveTransfer (lt_ID t) (lt_Direction t) (lt_TotalSize t) (lt_TotalTransferred t) (lt_Files t).

Record TransferProgressInfo : Type := mkProgress {
  pi_TransferID : string;
  pi_Transferred : Z;
  pi_Status : Status
}.

(** A message on a channel, or [None] for its closing. *)
Definition ChanEvent : Type := nat * option TransferProgressInfo.

(** The notifications shown, by their numbers. *)
Record NotificationManager : Type := mkNotificationManager {
  nm_downloadedFiles : gmap Z string;
  nm_transfers : gmap Z string;
  nm_defaultDownloadDir : string
}.
#[export] Instance NotificationManager_eta : EtaExpand NotificationManager := fun n =>
  mkNotificationManager (nm_downloadedFiles n) (nm_transfers n) (nm_defaultDownloadDir n).

Record EventManager (E : Type) : Type := mkEventManager {
  em_liveTransfers : gmap string LiveTransfer;
  em_transferSubscriptions : gmap string nat;
  em_notificationManager : option NotificationManager;
  em_defaultDownloadDir : string;
  em_nextChan : nat;
  em_sent : list ChanEvent;
  em_env : E
}.
Arguments mkEventManager {E} _ _ _ _ _ _ _.
Arguments em_liveTransfers {E} _.
Arguments em_transferSubscriptions {E} _.
Arguments em_notificationManager {E} _.
Arguments em_defaultDownloadDir {E} _.
Arguments em_nextChan {E} _.
Arguments em_sent {E} _.
Arguments em_env {E} _.
#[export] Instance EventManager_eta {E} : EtaExpand (EventManager E) := fun m =>
  mkEventManager (em_liveTransfers m) (em_transferSubscriptions m) (em_notificationManager m)
    (em_defaultDownloadDir m) (em_nextChan m) (em_sent m) (em_env m).

Definition NewEventManager {E} (env : E) (defaultDownloadDir : string) : EventManager E :=
  mkEventManager ∅ ∅ None defaultDownloadDir 0 [] env.

(** ** The environment *)

(** [fs.FileInfo]: symbolic link, directory, permission bits, owner and group when
    [Sys] is a [Stat_t]. *)
Record FileInfo : Type := mkFileInfo {
  fi_Symlink : bool;
  fi_IsDir : bool;
  fi_Perm : Z;
  fi_Stat : option (Z * Z)
}.

Inductive FsServiceError : Type := MESH_NOT_ENABLED | INTERNAL_FAILURE.
Inductive FsErrorCode : Type :=
| LIB_FAILURE | TRANSFER_NOT_FOUND | INVALID_PEER | FILE_NOT_FOUND | ACCEPT_ALL_FILES_FAILED | ACCEPT_OUTGOING
| ALREADY_ACCEPTED | FILE_INVALIDATED | TRANSFER_INVALIDATED | TOO_MANY_FILES | DIRECTORY_TOO_DEEP
| SENDING_NOT_ALLOWED | PEER_DISCONNECTED | FILE_NOT_IN_PROGRESS | TRANSFER_NOT_CREATED | NOT_ENOUGH_SPACE
| ACCEPT_DIR_NOT_FOUND | ACCEPT_DIR_IS_A_SYMLINK | ACCEPT_DIR_IS_NOT_A_DIRECTORY | NO_FILES
| ACCEPT_DIR_NO_PERMISSIONS | PURGE_FAILURE.
(** [pb.Error]. *)
Inductive FsError : Type := FsEmpty | FsService (c : FsServiceError) | FsFileshare (c : FsErrorCode).

Inductive StatusResponse : Type :=
| StatusError (e : FsError)
| StatusProgress (TransferId : string) (Progress : Z) (status : Status).
Inductive ListResponse : Type := ListError (e : FsError) | ListTransfers (l : list Transfer).

Record Action : Type := mkAction { ac_Key : string; ac_Action : string }.

Class FileshareEnv (E : Type) : Type := {
  fse_storage :: Storage E;
  fileshare_Send : Addr -> list string -> M E string;
  fileshare_Accept : string -> string -> string -> M E unit;
  fileshare_Finalize : string -> M E unit;
  fileshare_CancelFile : string -> string -> M E unit;
  mesh_IsEnabled : M E bool;
  mesh_GetPeers : M E Response;
  mesh_NotifyNewTransfer : PbPeer -> string -> Z -> string -> M E unit;
  filesystem_Stat : string -> M E bool;  (* is a directory *)
  filesystem_ReadDir : string -> M E (list (string * bool));  (* name, is a directory *)
  filesystem_Lstat : string -> M E FileInfo;
  filesystem_Statfs : string -> M E (Z * Z);  (* Bavail, Bsize *)
  osinfo_CurrentUser : M E string;  (* Uid *)
  osinfo_GetGroupIds : string -> M E (list string);
  notifier_New : M E unit;
  notifier_SendNotification : string -> string -> list Action -> M E Z;
  notifier_Close : M E unit;
  download_directory : M E string;
  open_file : string -> M E unit;
  srv_Send : StatusResponse -> M E unit;
  srv_SendList : ListResponse -> M E unit;
  shutdown_send : M E unit;
  (** the order of a [range] over the live transfers, and [sort.Slice] by date *)
  range_ids : list string -> list string;
  sort_transfers : list Transfer -> list Transfer
}.

Class FileshareLaws (E : Type) `{FileshareEnv E} : Prop := {
  range_ids_ok l : range_ids l ≡ₚ l;
  sort_transfers_ok l : sort_transfers l ≡ₚ l;
  sort_transfers_sorted l : StronglySorted (fun a b => t_Created a <= t_Created b) (sort_transfers l)
}.

(** ** Progress in percent *)

Definition float64 (z : Z) : spec_float := binary_normalize 53 1024 z 0 false.
(** The conversion truncates; what does not fit 63 bits becomes 0, as on amd64. *)
Definition float_to_u32 (f : spec_float) : Z :=
  match f with
  | S754_finite s m e =>
      let v := if 0 <=? e then Z.pos m * 2 ^ e else Z.pos m / 2 ^ (- e) in
      let v := if s then - v else v in
      if Z.abs v <? 2 ^ 63 then v mod 2 ^ 32 else 0
  | _ => 0
  end.
(** [uint32(float64(transferred) / float64(size) * 100)]. *)
Definition progress_percent (transferred size : Z) : Z :=
  float_to_u32 (SFmul 53 1024 (SFdiv 53 1024 (float64 transferred) (float64 size)) (float64 100)).

(** ** Permissions of the download directory *)

Definition isFileWriteable (fileInfo : FileInfo) (uid : string) (gids : list string) : bool :=
  match fi_Stat fileInfo with
  | None => false
  | Some (ownerUID, ownerGID) =>
      match atoi uid with
      | None => false
      | Some uid =>
          let bit := if uid =? ownerUID then 128
                     else if existsb (fun g => bool_decide (g = itoa ownerGID)) gids then 16 else 2 in
          negb (Z.land (fi_Perm fileInfo) bit =? 0)
      end
  end.

(** ** Live transfers *)

Definition isLiveTransferFinished (tr : LiveTransfer) : bool :=
  forallb (fun x => lf_Finished x.2) (map_to_list (lt_Files tr)).

Definition removeFileFromLiveTransfer (transfer : LiveTransfer) (file : LiveFile) : LiveTransfer :=
  transfer <| lt_TotalSize := u64 (lt_TotalSize transfer - lf_Size file) |>
           <| lt_TotalTransferred := u64 (lt_TotalTransferred transfer - lf_Transferred file) |>
           <| lt_Files := delete (lf_ID file) (lt_Files transfer) |>.

Definition live_file (file : File) : LiveFile :=
  mkLiveFile (f_Id file) (f_FullPath file) (f_Size file) (f_Transferred file) (isFileCompleted file).

(** The live transfer for a transfer of the storage. *)
Definition new_live_transfer (t : Transfer) : LiveTransfer :=
  mkLiveTransfer (t_Id t) (t_Direction t) (t_TotalSize t) (t_TotalTransferred t)
    (foldl (fun m f => if isFileTransferred f then <[f_Id f := live_file f]> m else m) ∅ (t_Files t)).

Definition updateTransferWithLiveData (transfer : Transfer) (live : gmap string LiveTransfer) : Transfer :=
  match live !! t_Id transfer with
  | None => transfer
  | Some l =>
      transfer <| t_TotalTransferred := lt_TotalTransferred l |>
               <| t_Files := map (fun f => match lt_Files l !! f_Id f with
                                          | Some lf => f <| f_Transferred := lf_Transferred lf |>
                                          | None => f
                                          end) (t_Files transfer) |>
  end.

(** ** Texts of notifications *)

Definition fileStatusToNotificationSummary (direction : Direction) (status : Status) : string :=
  match (if direction =? Direction_INCOMING then IncomingFileStatus !! status
         else if direction =? Direction_OUTGOING then OutgoingFileStatus !! status else None) with
  | Some summary => summary
  | None => default "" (FileStatus !! status)
  end.

Definition transferCanceledByPeerNotificationBody : string := "The sender has canceled this transfer.".
Definition transferCanceledByPeerNotificationSummary : string := "Transfer no longer exists".
Definition transferInvalidated : string := "You’ve already accepted or declined this transfer.".
Definition genericError : string := "Something went wrong.".
Definition cancelFailedNotificationSummary : string := "Failed to decline transfer".

Definition acceptErrorToNotificationBody (err : error) : string :=
  if errors_Is err ErrSizeLimitExceeded then "There’s not enough storage on your device."
  else if errors_Is err ErrTransferAlreadyAccepted then transferInvalidated
  else if errors_Is err ErrAcceptDirNotFound then "The download directory doesn't exist."
  else if errors_Is err ErrAcceptDirIsASymlink then "The download path can’t be a symbolic link."
  else if errors_Is err ErrAcceptDirIsNotADirectory then "The download path must be a directory."
  else if errors_Is err ErrNoPermissionsToAcceptDirectory then
    "You don’t have write permissions for the download directory."
  else if errors_Is err ErrTransferCanceledByPeer then transferCanceledByPeerNotificationBody
  else genericError.

Definition new_transfer_body (transferID peer : string) : string :=
  "Transfer ID: " +:+ transferID +:+ newline_str +:+ "From: " +:+ peer.

(** The numbers of the codes of the mesh service; the names of the service errors are
    used for both kinds of code. *)
Definition service_code (c : ServiceErrorCode) : Z :=
  match c with NOT_LOGGED_IN => 0 | API_FAILURE => 1 | CONFIG_FAILURE => 2 end.
Definition meshnet_code (c : MeshnetErrorCode) : Z :=
  match c with
  | NOT_REGISTERED => 0 | MeshnetServer.LIB_FAILURE => 1 | ALREADY_ENABLED => 3 | ALREADY_DISABLED => 4
  | NOT_ENABLED => 5 | TECH_FAILURE => 6 | TUNNEL_CLOSED => 7 | CONFLICT_WITH_PQ => 8
  end.
Definition ServiceErrorCode_name (code : Z) : string :=
  if code =? 0 then "NOT_LOGGED_IN" else if code =? 1 then "API_FAILURE" else if code =? 2 then "CONFIG_FAILURE" else "".

Section EventManager.
Context {E : Type} `{FileshareEnv E}.
#[local] Abbreviation F := (M (EventManager E)).

Definition on_env {A} (m : M E A) : F A := zoom em_env (fun e s => s <| em_env := e |>) m.

(** ** Peers *)

(** [peers.go]: [getAllPeers]. *)
Definition getAllPeers : F PeerList :=
  let! resp := wrapped "failed to get peers: " (on_env mesh_GetPeers) "" in
  match resp with
  | PeersResponse peers => ret peers
  | ServiceError c => throw (Errorf ("GetPeers failed, service error: " +:+ ServiceErrorCode_name (service_code c)))
  | MeshnetError c => throw (Errorf ("GetPeers failed, meshnet error: " +:+ ServiceErrorCode_name (meshnet_code c)))
  | _ => throw (Errorf "GetPeers failed, unknown error")
  end.

Definition getPeers : F (list PbPeer) :=
  let! peers := getAllPeers in
  ret (pl_External peers ++ pl_Local peers).

Definition getPeerByIP (peerIP : string) : F PbPeer :=
  let! peers := getPeers in
  match find (fun p => bool_decide (pb_Ip p = peerIP)) peers with
  | Some peer => ret peer
  | None => throw (Errorf ("peer " +:+ peerIP +:+ " not found"))
  end.

(** ** Notifications *)

(** What [em.notificationManager] does when there is one. *)
Definition with_notifications (m : NotificationManager -> F unit) : F unit :=
  let! nm := gets em_notificationManager in
  match nm with None => ret tt | Some nm => m nm end.

Definition set_notifications (nm : NotificationManager) : F unit := set! em_notificationManager := Some nm.

Definition sendGenericNotification (summary body : string) : F unit :=
  ignore (on_env (notifier_SendNotification summary body [])).

Definition NotifyFile (filename : string) (direction : Direction) (status : Status) : F unit :=
  with_notifications (fun nm =>
    let summary := fileStatusToNotificationSummary direction status in
    if (direction =? Direction_INCOMING) && (status =? Status_SUCCESS) then
      let! r := attempt (on_env (notifier_SendNotification summary filename [mkAction "open-file" "Open"])) in
      match r with
      | Ok id => set_notifications (nm <| nm_downloadedFiles := <[id := filename]> (nm_downloadedFiles nm) |>)
      | Err _ => ret tt
      end
    else ignore (on_env (notifier_SendNotification summary filename []))).

(** The number returned with an error is zero, and it is stored as well. *)
Definition NotifyNewTransfer (transferID peer : string) : F unit :=
  with_notifications (fun nm =>
    let! r := attempt (on_env (notifier_SendNotification "New file transfer!" (new_transfer_body transferID peer)
                                 [mkAction "accept-transfer" "Accept"; mkAction "cancel-transfer" "Decline"])) in
    let id := match r with Ok id => id | Err _ => 0 end in
    set_notifications (nm <| nm_transfers := <[id := transferID]> (nm_transfers nm) |>)).

Definition NotifyNewAutoacceptTransfer (transferID peer : string) : F unit :=
  with_notifications (fun _ =>
    sendGenericNotification "New transfer accepted automatically" (new_transfer_body transferID peer)).

Definition NotifyAutoacceptFailed (transferID peer : string) (reason : error) : F unit :=
  with_notifications (fun _ =>
    sendGenericNotification "Failed to autoaccept transfer"
      (acceptErrorToNotificationBody reason +:+ newline_str +:+ new_transfer_body transferID peer)).

Definition EnableNotifications : F unit :=
  let! nm := gets em_notificationManager in
  match nm with
  | Some _ => throw (Sentinel ErrNotificationsAlreadyEnabled)
  | None =>
      let! dir := attempt (on_env download_directory) in
      on_env notifier_New ;;
      set_notifications (mkNotificationManager ∅ ∅ (match dir with Ok d => d | Err _ => "" end))
  end.

Definition DisableNotifications : F unit :=
  let! nm := gets em_notificationManager in
  match nm with
  | None => throw (Sentinel ErrNotificationsAlreadyDisabled)
  | Some _ =>
      let! r := attempt (on_env notifier_Close) in
      match r with
      | Err err => throw (Errorf ("failed to disable notifier: " +:+ error_text err))
      | Ok _ => set! em_notificationManager := None
      end
  end.

(** ** Transfers *)

Definition getTransferFromStorage (id : string) : F Transfer :=
  let! r := attempt (on_env storage_Load) in
  match r with
  | Err err => throw (Errorf ("loading transfers from storage: " +:+ error_text err))
  | Ok transfers =>
      match transfers !! id with
      | None => throw (Sentinel ErrTransferNotFound)
      | Some t => ret t
      end
  end.

Definition getTransfer (transferID : string) : F Transfer :=
  let! transfer := getTransferFromStorage transferID in
  let! live := gets em_liveTransfers in
  ret (updateTransferWithLiveData transfer live).

Definition GetTransfers : F (list Transfer) :=
  let! r := attempt (on_env storage_Load) in
  match r with
  | Err err => throw (Errorf ("loading transfers from storage: " +:+ error_text err))
  | Ok transfers =>
      let! live := gets em_liveTransfers in
      ret (sort_transfers (map (fun x => updateTransferWithLiveData x.2 live) (map_to_list transfers)))
  end.

(** The object a live transfer is: its entry in the map. *)
Definition put_live (t : LiveTransfer) : F unit :=
  modify (fun s => s <| em_liveTransfers := <[lt_ID t := t]> (em_liveTransfers s) |>).

Definition getLiveTransfer (id : string) : F LiveTransfer :=
  let! live := gets em_liveTransfers in
  match live !! id with
  | Some transfer => ret transfer
  | None =>
      let! storageTransfer := getTransferFromStorage id in
      let transfer := new_live_transfer storageTransfer in
      put_live transfer ;;
      ret transfer
  end.

(** A failure to get the transfer is logged. *)
Definition with_live (id : string) (k : LiveTransfer -> F unit) : F unit :=
  let! r := attempt (getLiveTransfer id) in
  match r with Err _ => ret tt | Ok transfer => k transfer end.
Definition with_file (transfer : LiveTransfer) (fileId : string) (k : LiveFile -> F unit) : F unit :=
  match lt_Files transfer !! fileId with None => ret tt | Some file => k file end.

(** [progressCh <- info] and [close(progressCh)]. *)
Definition chan_send (ch : nat) (info : TransferProgressInfo) : F unit :=
  modify (fun s => s <| em_sent := em_sent s ++ [(ch, Some info)] |>).
Definition chan_close (ch : nat) : F unit :=
  modify (fun s => s <| em_sent := em_sent s ++ [(ch, None)] |>).

Definition finalizeTransfer (transfer : LiveTransfer) (status : Status) : F unit :=
  let! subs := gets em_transferSubscriptions in
  match subs !! lt_ID transfer with
  | Some ch =>
      chan_send ch (mkProgress (lt_ID transfer) 0 status) ;;
      chan_close ch ;;
      modify (fun s => s <| em_transferSubscriptions := delete (lt_ID transfer) (em_transferSubscriptions s) |>)
  | None => ret tt
  end ;;
  modify (fun s => s <| em_liveTransfers := delete (lt_ID transfer) (em_liveTransfers s) |>).

Definition finalizeFinishedTransfer (transfer : LiveTransfer) : F unit :=
  when (isLiveTransferFinished transfer && (lt_Direction transfer =? Direction_INCOMING))
    (ignore (on_env (fileshare_Finalize (lt_ID transfer)))).

(** ** Accepting *)

(** The checks of the directory. *)
Definition check_directory (path : string) : F unit :=
  let! info := attempt (on_env (filesystem_Lstat path)) in
  match info with
  | Err _ => throw (Sentinel ErrAcceptDirNotFound)
  | Ok fileInfo =>
      if fi_Symlink fileInfo then throw (Sentinel ErrAcceptDirIsASymlink)
      else if negb (fi_IsDir fileInfo) then throw (Sentinel ErrAcceptDirIsNotADirectory)
      else
        let! user := attempt (on_env osinfo_CurrentUser) in
        match user with
        | Err _ => throw (Sentinel ErrNoPermissionsToAcceptDirectory)
        | Ok uid =>
            let! groups := attempt (on_env (osinfo_GetGroupIds uid)) in
            match groups with
            | Err _ => throw (Sentinel ErrNoPermissionsToAcceptDirectory)
            | Ok gids => if isFileWriteable fileInfo uid gids then ret tt
                         else throw (Sentinel ErrNoPermissionsToAcceptDirectory)
            end
        end
  end.

(** The checks of the transfer. *)
Definition check_transfer (transfer : Transfer) : option string :=
  if negb (t_Direction transfer =? Direction_INCOMING) then Some ErrTransferAcceptOutgoing
  else if t_Status transfer =? Status_CANCELED_BY_PEER then Some ErrTransferCanceledByPeer
  else if t_Status transfer =? Status_CANCELED then Some ErrTransferCanceledByUs
  else if negb (t_Status transfer =? Status_REQUESTED) then Some ErrTransferAlreadyAccepted
  else None.

(** The files of the given paths, [None] when a path has none. *)
Fixpoint files_by_paths (transfer : Transfer) (filePaths : list string) : option (list File) :=
  match filePaths with
  | [] => Some []
  | p :: ps =>
      match GetTransferFilesByPathPrefix transfer p with
      | [] => None
      | fs => app fs <$> files_by_paths transfer ps
      end
  end.
Definition accepted_files (transfer : Transfer) (filePaths : list string) : option (list File) :=
  match filePaths with [] => Some (t_Files transfer) | _ => files_by_paths transfer filePaths end.

Definition acceptTransfer (transferID path : string) (filePaths : list string) : F Transfer :=
  check_directory path ;;
  let! transfer := getTransfer transferID in
  match check_transfer transfer with
  | Some err => throw (Sentinel err)
  | None =>
      match accepted_files transfer filePaths with
      | None => throw (Sentinel ErrFileNotFound)
      | Some files =>
          let totalSize := sum_u64 f_Size files in
          let! statfs := attempt (on_env (filesystem_Statfs path)) in
          match statfs with
          | Err _ => throw (Sentinel ErrSizeLimitExceeded)
          | Ok (bavail, bsize) =>
              if u64 (bavail * u64 bsize) <? totalSize then throw (Sentinel ErrSizeLimitExceeded)
              else ret transfer
          end
      end
  end.

(** ** Events *)

Definition handleRequestReceivedEvent (peerIP transferId : string) : F unit :=
  let! r := attempt (getPeerByIP peerIP) in
  match r with
  | Err _ => ret tt
  | Ok peer =>
      if negb (pb_DoIAllowFileshare peer) then ignore (on_env (fileshare_Finalize transferId))
      else if negb (pb_AlwaysAcceptFiles peer) then NotifyNewTransfer transferId (pb_Hostname peer)
      else
        let! dir := gets em_defaultDownloadDir in
        if bool_decide (dir = "") then ret tt
        else
          let! a := attempt (acceptTransfer transferId dir []) in
          match a with
          | Err err => NotifyAutoacceptFailed transferId (pb_Hostname peer) err
          | Ok transfer =>
              forM_ (t_Files transfer) (fun file => ignore (on_env (fileshare_Accept transferId dir (f_Id file)))) ;;
              NotifyNewAutoacceptTransfer transferId (pb_Hostname peer)
          end
  end.

Definition handleFileProgressEvent (transferId fileId : string) (transferred : Z) : F unit :=
  with_live transferId (fun transfer =>
    with_file transfer fileId (fun file =>
      let transfer := transfer
        <| lt_TotalTransferred := u64 (lt_TotalTransferred transfer + u64 (transferred - lf_Transferred file)) |>
        <| lt_Files := <[fileId := file <| lf_Transferred := transferred |>]> (lt_Files transfer) |> in
      put_live transfer ;;
      let! subs := gets em_transferSubscriptions in
      match subs !! lt_ID transfer with
      | Some ch =>
          chan_send ch (mkProgress transferId
            (if 0 <? lt_TotalSize transfer
             then progress_percent (lt_TotalTransferred transfer) (lt_TotalSize transfer) else 0)
            Status_ONGOING)
      | None => ret tt
      end)).

(** [file.Finished = true] on the file under [fileId]. *)
Definition finish_file (transfer : LiveTransfer) (fileId : string) (file : LiveFile) : LiveTransfer :=
  transfer <| lt_Files := <[fileId := file <| lf_Finished := true |>]> (lt_Files transfer) |>.

Definition handleFileDownloadedEvent (transferId fileId finalPath : string) : F unit :=
  with_live transferId (fun transfer =>
    with_file transfer fileId (fun file =>
      let transfer := finish_file transfer fileId file in
      put_live transfer ;;
      NotifyFile finalPath (lt_Direction transfer) Status_SUCCESS ;;
      finalizeFinishedTransfer transfer)).

Definition handleFileUploadedEvent (transferId fileId : string) : F unit :=
  with_live transferId (fun transfer =>
    with_file transfer fileId (fun file =>
      let transfer := finish_file transfer fileId file in
      put_live transfer ;;
      NotifyFile (lf_FullPath file) (lt_Direction transfer) Status_SUCCESS ;;
      finalizeFinishedTransfer transfer)).

(** A failed or rejected file is removed. *)
Definition drop_file (transferId fileId : string) (status : Status) : F unit :=
  with_live transferId (fun transfer =>
    with_file transfer fileId (fun file =>
      let transfer := removeFileFromLiveTransfer (finish_file transfer fileId file) file in
      put_live transfer ;;
      NotifyFile (lf_FullPath file) (lt_Direction transfer) status ;;
      finalizeFinishedTransfer transfer)).
(** [pb.Status(event.Status.Status)]. *)
Definition handleFileFailedEvent (transferId fileId : string) (code : StatusCode) : F unit :=
  drop_file transferId fileId code.
Definition handleFileRejectedEvent (transferId fileId : string) : F unit :=
  drop_file transferId fileId Status_CANCELED.

Definition handleTransferFailedEvent (transferId : string) (code : StatusCode) : F unit :=
  with_live transferId (fun transfer => finalizeTransfer transfer code).

Definition handleTransferFinalizedEvent (transferId : string) (byPeer : bool) : F unit :=
  with_live transferId (fun transfer =>
    if isLiveTransferFinished transfer then
      let! r := attempt (getTransferFromStorage transferId) in
      match r with
      | Err _ => ret tt
      | Ok storageTransfer => finalizeTransfer transfer (t_Status storageTransfer)
      end
    else finalizeTransfer transfer (if byPeer then Status_CANCELED_BY_PEER else Status_CANCELED)).

Definition OnEvent (event : EventKind) : F unit :=
  match event with
  | EventKindRequestReceived peer id _ => handleRequestReceivedEvent peer id
  | EventKindRequestQueued _ _ _ => ret tt
  | EventKindFileStarted _ _ _ => ret tt
  | EventKindFileProgress id file n => handleFileProgressEvent id file n
  | EventKindTransferFailed id code => handleTransferFailedEvent id code
  | EventKindTransferFinalized id byPeer => handleTransferFinalizedEvent id byPeer
  | EventKindFileDownloaded id file path => handleFileDownloadedEvent id file path
  | EventKindFileUploaded id file => handleFileUploadedEvent id file
  | EventKindFileRejected id file _ => handleFileRejectedEvent id file
  | EventKindFileFailed id file code => handleFileFailedEvent id file code
  | EventKindUnknown => ret tt
  end.

Definition CancelLiveTransfers : F unit :=
  let! live := gets em_liveTransfers in
  forM_ (range_ids (map_to_list live).*1) (fun id => ignore (on_env (fileshare_Finalize id))).

Definition Subscribe (id : string) : F nat :=
  let! ch := gets em_nextChan in
  modify (fun s => s <| em_transferSubscriptions := <[id := ch]> (em_transferSubscriptions s) |>
                     <| em_nextChan := S ch |>) ;;
  ret ch.

(** ** Actions on notifications *)

(** [GetAndDeleteTransferNotification]. *)
Definition take_transfer_notification (nm : NotificationManager) (id : Z) : option string * NotificationManager :=
  (nm_transfers nm !! id, nm <| nm_transfers := delete id (nm_transfers nm) |>).
Definition take_file_notification (nm : NotificationManager) (id : Z) : option string * NotificationManager :=
  (nm_downloadedFiles nm !! id, nm <| nm_downloadedFiles := delete id (nm_downloadedFiles nm) |>).

Definition OpenFile (notificationID : Z) : F unit :=
  with_notifications (fun nm =>
    let '(file, nm) := take_file_notification nm notificationID in
    set_notifications nm ;;
    match file with Some filename => ignore (on_env (open_file filename)) | None => ret tt end).

Definition Notification_AcceptTransfer (notificationID : Z) : F unit :=
  with_notifications (fun nm =>
    let '(id, nm) := take_transfer_notification nm notificationID in
    set_notifications nm ;;
    match id with
    | None => ret tt
    | Some transferID =>
        let! r := attempt (acceptTransfer transferID (nm_defaultDownloadDir nm) []) in
        match r with
        | Err err =>
            sendGenericNotification
              (match err with
               | Sentinel s => if bool_decide (s = ErrTransferCanceledByPeer) then transferCanceledByPeerNotificationSummary
                               else "Failed to accept transfer"
               | _ => "Failed to accept transfer"
               end)
              (acceptErrorToNotificationBody err)
        | Ok transfer =>
            forM_ (t_Files transfer) (fun file =>
              let! a := attempt (on_env (fileshare_Accept transferID (nm_defaultDownloadDir nm) (f_Id file))) in
              match a with
              | Ok _ => ret tt
              | Err _ => sendGenericNotification "Failed to download file" (f_Id file)
              end)
        end
    end).

Definition Notification_CancelTransfer (notificationID : Z) : F unit :=
  with_notifications (fun nm =>
    let '(id, nm) := take_transfer_notification nm notificationID in
    set_notifications nm ;;
    match id with
    | None => ret tt
    | Some transferID =>
        let! r := attempt (getTransfer transferID) in
        match r with
        | Err _ => sendGenericNotification cancelFailedNotificationSummary genericError
        | Ok transfer =>
            if negb (t_Status transfer =? Status_ONGOING) && negb (t_Status transfer =? Status_REQUESTED) then
              if t_Status transfer =? Status_CANCELED_BY_PEER
              then sendGenericNotification transferCanceledByPeerNotificationSummary transferCanceledByPeerNotificationBody
              else sendGenericNotification cancelFailedNotificationSummary transferInvalidated
            else
              let! f := attempt (on_env (fileshare_Finalize transferID)) in
              match f with
              | Ok _ => ret tt
              | Err err => sendGenericNotification cancelFailedNotificationSummary (error_text err)
              end
        end
    end).

Definition CloseNotification (notificationID : Z) : F unit :=
  with_notifications (fun nm =>
    let '(_, nm) := take_file_notification nm notificationID in
    let '(_, nm) := take_transfer_notification nm notificationID in
    set_notifications nm).
End EventManager.

(** ** The service *)

Definition DirDepthLimit : nat := 5.
Definition TransferFileLimit : Z := 1000.
Definition errMaxDirectoryDepthReached : string := "max directory depth reached".
Definition errGetPeersFailed : string := "failed to get peers from meshnet daemon".

Record SendRequest : Type := mkSendRequest { sq_Peer : string; sq_Paths : list string; sq_Silent : bool }.
Record AcceptRequest : Type := mkAcceptRequest {
  aq_TransferId : string;
  aq_DstPath : string;
  aq_Silent : bool;
  aq_Files : list string
}.

(** How a request with progress ends: with the answer of the stream, or reading a
    channel. *)
Inductive Reply : Type := Answered | Streaming (ch : nat).

(** The answer to the error of [AcceptTransfer]. *)
Definition accept_error (err : error) : FsErrorCode :=
  if errors_Is err ErrTransferNotFound then TRANSFER_NOT_FOUND
  else if errors_Is err ErrTransferAcceptOutgoing then ACCEPT_OUTGOING
  else if errors_Is err ErrTransferAlreadyAccepted then ALREADY_ACCEPTED
  else if errors_Is err ErrFileNotFound then FILE_NOT_FOUND
  else if errors_Is err ErrSizeLimitExceeded then NOT_ENOUGH_SPACE
  else if errors_Is err ErrAcceptDirNotFound then ACCEPT_DIR_NOT_FOUND
  else if errors_Is err ErrAcceptDirIsASymlink then ACCEPT_DIR_IS_A_SYMLINK
  else if errors_Is err ErrAcceptDirIsNotADirectory then ACCEPT_DIR_IS_NOT_A_DIRECTORY
  else if errors_Is err ErrNoPermissionsToAcceptDirectory then ACCEPT_DIR_NO_PERMISSIONS
  else if errors_Is err ErrTransferCanceledByUs || errors_Is err ErrTransferCanceledByPeer then TRANSFER_INVALIDATED
  else LIB_FAILURE.

Definition is_accepted (paths : list string) (file : File) : bool :=
  match paths with [] => true | _ => existsb (fun p => has_prefix p (f_Path file)) paths end.

(** The loop over the chunks.  With chunks of a positive size the length of the list
    is enough fuel; with size zero the loop does not end. *)
Fixpoint chunks (fuel : nat) (size : nat) (l : list Transfer) : option (list (list Transfer)) :=
  match fuel with
  | O => None
  | S fuel' =>
      match l with
      | [] => Some []
      | _ => if (length l <? size)%nat then Some [l]
             else cons (take size l) <$> chunks fuel' size (drop size l)
      end
  end.

Section Service.
Context {E : Type} `{FileshareEnv E}.
#[local] Abbreviation F := (M (EventManager E)).

Definition answer (e : FsError) : F Reply := on_env (srv_Send (StatusError e)) ;; ret Answered.

(** [resp.GetStatus().GetValue()] without an error. *)
Definition mesh_enabled : F bool :=
  let! r := attempt (on_env mesh_IsEnabled) in
  ret (match r with Ok b => b | Err _ => false end).

(** Both maps. *)
Definition Server_getPeers : F (gmap string PbPeer * gmap string PbPeer) :=
  let! r := attempt (on_env mesh_GetPeers) in
  match r with
  | Ok (PeersResponse peers) => ret (MakePeerMaps peers)
  | _ => throw (Sentinel errGetPeersFailed)
  end.

(** The search by key, then by name. *)
Definition find_peer (maps : gmap string PbPeer * gmap string PbPeer) (name : string) : option PbPeer :=
  match maps.1 !! name with Some p => Some p | None => maps.2 !! str_lower name end.

(** The only caller starts with [DirDepthLimit]; a depth of zero is an error. *)
Fixpoint getNumberOfFiles (maxDepth : nat) (path : string) : F Z :=
  match maxDepth with
  | O => throw (Sentinel errMaxDirectoryDepthReached)
  | S depth =>
      let! files := on_env (filesystem_ReadDir path) in
      (fix count (files : list (string * bool)) (n : Z) : F Z :=
         match files with
         | [] => ret n
         | (name, true) :: files' =>
             let! nested := getNumberOfFiles depth (path +:+ "/" +:+ name) in
             count files' (n + nested)
         | (_, false) :: files' => count files' (n + 1)
         end) files 0
  end.

(** The loop over the paths: the error to answer, or the number of files. *)
Fixpoint count_paths (paths : list string) (fileCount : Z) : F (FsErrorCode + Z) :=
  match paths with
  | [] => ret (inr fileCount)
  | path :: paths' =>
      let! isDirectory := attempt (on_env (filesystem_Stat path)) in
      match isDirectory with
      | Err _ => ret (inl FILE_NOT_FOUND)
      | Ok dir =>
          let! n := if dir : bool then attempt (getNumberOfFiles DirDepthLimit path) else ret (Ok 1) in
          match n with
          | Err err => ret (inl (if errors_Is err errMaxDirectoryDepthReached then DIRECTORY_TOO_DEEP else FILE_NOT_FOUND))
          | Ok n =>
              let fileCount := fileCount + n in
              if TransferFileLimit <? fileCount then ret (inl TOO_MANY_FILES)
              else if fileCount =? 0 then ret (inl NO_FILES)
              else count_paths paths' fileCount
          end
      end
  end.

(** The end of [Send] and [Accept]: the first status, then the progress if it is
    asked for. *)
Definition reply_started (transferID : string) (silent : bool) : F Reply :=
  on_env (srv_Send (StatusProgress transferID 0 Status_REQUESTED)) ;;
  if silent then ret Answered
  else let! ch := Subscribe transferID in ret (Streaming ch).

Definition Server_Send (req : SendRequest) : F Reply :=
  let! enabled := mesh_enabled in
  if negb enabled then answer (FsService MESH_NOT_ENABLED)
  else
    let! count := count_paths (sq_Paths req) 0 in
    match count with
    | inl code => answer (FsFileshare code)
    | inr _ =>
        let! maps := attempt Server_getPeers in
        match maps with
        | Err _ => answer (FsService INTERNAL_FAILURE)
        | Ok maps =>
            match find_peer maps (sq_Peer req) with
            | None => answer (FsFileshare INVALID_PEER)
            | Some peer =>
                if negb (pb_Status peer) then answer (FsFileshare PEER_DISCONNECTED)
                else match ParseAddr (pb_Ip peer) with
                | None => answer (FsFileshare INVALID_PEER)
                | Some parsedIP =>
                    if negb (pb_IsFileshareAllowed peer) then answer (FsFileshare SENDING_NOT_ALLOWED)
                    else
                      let! id := attempt (on_env (fileshare_Send parsedIP (sq_Paths req))) in
                      match id with
                      | Err _ => answer (FsFileshare TRANSFER_NOT_CREATED)
                      | Ok transferID =>
                          let fileName := match sq_Paths req with [p] => p | _ => "" end in
                          ignore (on_env (mesh_NotifyNewTransfer peer fileName
                                            (Z.of_nat (length (sq_Paths req))) transferID)) ;;
                          reply_started transferID (sq_Silent req)
                      end
                end
            end
        end
    end.

(** The loop over the files: accepted or canceled; whether one was started. *)
Fixpoint accept_files (req : AcceptRequest) (files : list File) (started : bool) : F bool :=
  match files with
  | [] => ret started
  | file :: files' =>
      if is_accepted (aq_Files req) file then
        let! r := attempt (on_env (fileshare_Accept (aq_TransferId req) (aq_DstPath req) (f_Id file))) in
        accept_files req files' (match r with Ok _ => true | Err _ => started end)
      else
        ignore (on_env (fileshare_CancelFile (aq_TransferId req) (f_Id file))) ;;
        accept_files req files' started
  end.

Definition Server_Accept (req : AcceptRequest) : F Reply :=
  let! enabled := mesh_enabled in
  if negb enabled then answer (FsService MESH_NOT_ENABLED)
  else
    let! r := attempt (acceptTransfer (aq_TransferId req) (aq_DstPath req) (aq_Files req)) in
    match r with
    | Err err => answer (FsFileshare (accept_error err))
    | Ok transfer =>
        let! transferStarted := accept_files req (t_Files transfer) false in
        if negb transferStarted then answer (FsFileshare ACCEPT_ALL_FILES_FAILED)
        else reply_started (t_Id transfer) (aq_Silent req)
    end.

(** [startTransferStatusStream] on the messages of its channel up to the closing. *)
Fixpoint startTransferStatusStream (msgs : list TransferProgressInfo) : F unit :=
  match msgs with
  | [] => ret tt
  | ev :: msgs' =>
      if pi_Status ev =? Status_ONGOING then
        ignore (on_env (srv_Send (StatusProgress (pi_TransferID ev) (pi_Transferred ev) Status_ONGOING))) ;;
        startTransferStatusStream msgs'
      else if existsb (Z.eqb (pi_Status ev))
                [Status_SUCCESS; Status_FINISHED_WITH_ERRORS; Status_CANCELED_BY_PEER; Status_CANCELED] then
        on_env (srv_Send (StatusProgress (pi_TransferID ev) 0 (pi_Status ev)))
      else startTransferStatusStream msgs'
  end.

(** The transfer of a request to cancel. *)
Definition requested_transfer (id : string) : F (FsErrorCode + Transfer) :=
  let! r := attempt (getTransfer id) in
  ret (match r with
       | Ok t => inr t
       | Err err => inl (if errors_Is err ErrTransferNotFound then TRANSFER_NOT_FOUND else LIB_FAILURE)
       end).

Definition Server_Cancel (transferId : string) : F FsError :=
  let! enabled := mesh_enabled in
  if negb enabled then ret (FsService MESH_NOT_ENABLED)
  else
    let! t := requested_transfer transferId in
    match t with
    | inl code => ret (FsFileshare code)
    | inr transfer =>
        if negb (t_Status transfer =? Status_ONGOING) && negb (t_Status transfer =? Status_REQUESTED)
        then ret (FsFileshare TRANSFER_INVALIDATED)
        else
          let! r := attempt (on_env (fileshare_Finalize (t_Id transfer))) in
          ret (match r with Ok _ => FsEmpty | Err _ => FsFileshare LIB_FAILURE end)
    end.

Definition Server_CancelFile (transferId filePath : string) : F FsError :=
  let! enabled := mesh_enabled in
  if negb enabled then ret (FsService MESH_NOT_ENABLED)
  else
    let! t := requested_transfer transferId in
    match t with
    | inl code => ret (FsFileshare code)
    | inr transfer =>
        match FindTransferFileByPath transfer filePath with
        | None => ret (FsFileshare FILE_NOT_FOUND)
        | Some file =>
            if (f_Status file =? Status_CANCELED) || (f_Status file =? Status_SUCCESS)
            then ret (FsFileshare FILE_INVALIDATED)
            else if negb (f_Status file =? Status_ONGOING) then ret (FsFileshare FILE_NOT_IN_PROGRESS)
            else
              let! r := attempt (on_env (fileshare_CancelFile transferId (f_Id file))) in
              ret (match r with Ok _ => FsEmpty | Err _ => FsFileshare LIB_FAILURE end)
        end
    end.

(** The name the peer of a transfer is shown with. *)
Definition name_peer (maps : gmap string PbPeer * gmap string PbPeer) (t : Transfer) : Transfer :=
  match find_peer maps (t_Peer t) with
  | None => t
  | Some peer => t <| t_Peer := if bool_decide (pb_Nickname peer = "") then pb_Hostname peer else pb_Nickname peer |>
  end.

(** [None]: the loop does not end. *)
Definition Server_List (listChunkSize : nat) : F (option unit) :=
  let! enabled := mesh_enabled in
  if negb enabled then on_env (srv_SendList (ListError (FsService MESH_NOT_ENABLED))) ;; ret (Some tt)
  else
    let! maps := attempt Server_getPeers in
    match maps with
    | Err _ => on_env (srv_SendList (ListError (FsService INTERNAL_FAILURE))) ;; ret (Some tt)
    | Ok maps =>
        let! transfers := attempt GetTransfers in
        match transfers with
        | Err _ => on_env (srv_SendList (ListError (FsFileshare LIB_FAILURE))) ;; ret (Some tt)
        | Ok transfers =>
            let named := map (name_peer maps) transfers in
            match chunks (S (length named)) listChunkSize named with
            | None => ret None
            | Some cs => forM_ cs (fun c => on_env (srv_SendList (ListTransfers c))) ;; ret (Some tt)
            end
        end
    end.

Inductive SetNotificationsStatus : Type := SET_SUCCESS | NOTHING_TO_DO | SET_FAILURE.

Definition Server_SetNotifications (enable : bool) : F SetNotificationsStatus :=
  let! r := attempt (if enable then EnableNotifications else DisableNotifications) in
  ret (match r with
       | Ok _ => SET_SUCCESS
       | Err (Sentinel s) =>
           if bool_decide (s = if enable then ErrNotificationsAlreadyEnabled else ErrNotificationsAlreadyDisabled)
           then NOTHING_TO_DO else SET_FAILURE
       | Err _ => SET_FAILURE
       end).

Definition Server_PurgeTransfersUntil (until : Z) : F FsError :=
  let! enabled := mesh_enabled in
  if negb enabled then ret (FsService MESH_NOT_ENABLED)
  else
    let! r := attempt (on_env (storage_PurgeTransfersUntil until)) in
    ret (match r with Ok _ => FsEmpty | Err _ => FsFileshare PURGE_FAILURE end).

Definition Server_Stop : F unit := on_env shutdown_send.
End Service.
