(* ===== verification/FileshareProps.v ===== *)
(** * FileshareProps: properties of file sharing

    First what every request and event leaves alone; then the protocol of the
    progress channels, the totals of the live transfers, when files are downloaded
    without being asked for, the status of a transfer by its files, and listing. *)

From stdpp Require Import base option list strings pretty gmap sorting.
From Stdlib Require Import ZArith Lia.
From S2P Require Import Prelude GoLib Mesh MeshnetServer MeshnetPeers Transfers Fileshare.

Open Scope Z_scope.
Open Scope go_scope.

(** ** Requests, events and actions *)

Inductive FsOp : Type :=
| FsEvent (event : EventKind)
| FsSend (req : SendRequest)
| FsAccept (req : AcceptRequest)
| FsCancel (transferId : string)
| FsCancelFile (transferId filePath : string)
| FsList (listChunkSize : nat)
| FsSetNotifications (enable : bool)
| FsPurge (until : Z)
| FsStop
| FsCancelLive
| FsOpenFile (notification : Z)
| FsAcceptNotification (notification : Z)
| FsCancelNotification (notification : Z)
| FsCloseNotification (notification : Z).

Section Ops.
Context {E : Type} `{FileshareEnv E}.
#[local] Abbreviation F := (M (EventManager E)).

Definition discard {A} (m : F A) : F unit := let! _ := m in ret tt.

Definition fs_op (o : FsOp) : F unit :=
  match o with
  | FsEvent ev => OnEvent ev
  | FsSend req => discard (Server_Send req)
  | FsAccept req => discard (Server_Accept req)
  | FsCancel id => discard (Server_Cancel id)
  | FsCancelFile id path => discard (Server_CancelFile id path)
  | FsList n => discard (Server_List n)
  | FsSetNotifications b => discard (Server_SetNotifications b)
  | FsPurge until => discard (Server_PurgeTransfersUntil until)
  | FsStop => Server_Stop
  | FsCancelLive => CancelLiveTransfers
  | FsOpenFile n => OpenFile n
  | FsAcceptNotification n => Notification_AcceptTransfer n
  | FsCancelNotification n => Notification_CancelTransfer n
  | FsCloseNotification n => CloseNotification n
  end.

(** ** What is left alone

    An invariant that mentions neither the environment nor the notifications is kept
    by everything but the live transfers and the channels. *)

Section Frame.
Context (I : EventManager E -> Prop).
Context (Henv : forall e s, I s -> I (s <| em_env := e |>)).
Context (Hnm : forall nm s, I s -> I (s <| em_notificationManager := nm |>)).

Lemma on_env_frame {A} (m : M E A) : preserves I (on_env m).
Proof. apply preserves_zoom_frame. auto. Qed.
Lemma set_notifications_frame nm : preserves I (set_notifications nm).
Proof. apply preserves_modify. auto. Qed.
Lemma drop_notifications_frame : preserves I (set! em_notificationManager := None).
Proof. apply preserves_modify. auto. Qed.
#[local] Hint Resolve on_env_frame set_notifications_frame drop_notifications_frame : pres.

Lemma with_notifications_frame k : (forall nm, preserves I (k nm)) -> preserves I (with_notifications k).
Proof. intros Hk. unfold with_notifications. pres_auto. Qed.
Lemma getTransferFromStorage_frame id : preserves I (getTransferFromStorage id).
Proof. unfold getTransferFromStorage. pres_auto. Qed.
#[local] Hint Resolve with_notifications_frame getTransferFromStorage_frame : pres.
Lemma getTransfer_frame id : preserves I (getTransfer id).
Proof. unfold getTransfer. pres_auto. Qed.
Lemma sendGeneric_frame a b : preserves I (sendGenericNotification a b).
Proof. unfold sendGenericNotification. pres_auto. Qed.
#[local] Hint Resolve getTransfer_frame sendGeneric_frame : pres.
Lemma NotifyFile_frame a b c : preserves I (NotifyFile a b c).
Proof. unfold NotifyFile. apply with_notifications_frame. pres_auto. Qed.
Lemma NotifyNewTransfer_frame a b : preserves I (NotifyNewTransfer a b).
Proof. unfold NotifyNewTransfer. apply with_notifications_frame. pres_auto. Qed.
Lemma NotifyNewAuto_frame a b : preserves I (NotifyNewAutoacceptTransfer a b).
Proof. unfold NotifyNewAutoacceptTransfer. apply with_notifications_frame. pres_auto. Qed.
Lemma NotifyAutoFailed_frame a b c : preserves I (NotifyAutoacceptFailed a b c).
Proof. unfold NotifyAutoacceptFailed. apply with_notifications_frame. pres_auto. Qed.
Lemma check_directory_frame p : preserves I (check_directory p).
Proof. unfold check_directory. pres_auto. Qed.
#[local] Hint Resolve NotifyFile_frame NotifyNewTransfer_frame NotifyNewAuto_frame NotifyAutoFailed_frame
  check_directory_frame : pres.
Lemma acceptTransfer_frame a b c : preserves I (acceptTransfer a b c).
Proof. unfold acceptTransfer. pres_auto. Qed.
Lemma getPeerByIP_frame p : preserves I (getPeerByIP p).
Proof. unfold getPeerByIP, getPeers, getAllPeers. pres_auto. Qed.
Lemma finalizeFinished_frame t : preserves I (finalizeFinishedTransfer t).
Proof. unfold finalizeFinishedTransfer. pres_auto. Qed.
#[local] Hint Resolve acceptTransfer_frame getPeerByIP_frame finalizeFinished_frame : pres.
Lemma handleRequestReceived_frame a b : preserves I (handleRequestReceivedEvent a b).
Proof. unfold handleRequestReceivedEvent. pres_auto. Qed.

Lemma answer_frame e : preserves I (answer e).
Proof. unfold answer. pres_auto. Qed.
Lemma mesh_enabled_frame : preserves I mesh_enabled.
Proof. unfold mesh_enabled. pres_auto. Qed.
Lemma Server_getPeers_frame : preserves I Server_getPeers.
Proof. unfold Server_getPeers. pres_auto. Qed.
Lemma getNumberOfFiles_frame d p : preserves I (getNumberOfFiles d p).
Proof.
  revert p. induction d as [|d IH]; intros p; cbn [getNumberOfFiles]; [pres_auto|].
  apply preserves_bind; [apply on_env_frame|]. intros files. generalize 0.
  induction files as [|[name []] files IHf]; intros n; pres_auto.
Qed.
#[local] Hint Resolve answer_frame mesh_enabled_frame Server_getPeers_frame getNumberOfFiles_frame : pres.
Lemma count_paths_frame ps n : preserves I (count_paths ps n).
Proof. revert n. induction ps as [|p ps IH]; intros n; cbn [count_paths]; pres_auto. Qed.
Lemma accept_files_frame req fs b : preserves I (accept_files req fs b).
Proof. revert b. induction fs as [|f fs IH]; intros b; cbn [accept_files]; pres_auto. Qed.
Lemma requested_transfer_frame id : preserves I (requested_transfer id).
Proof. unfold requested_transfer. pres_auto. Qed.
#[local] Hint Resolve count_paths_frame accept_files_frame requested_transfer_frame : pres.

(** Requests, once subscribing and the events are known to keep the invariant. *)
Lemma fs_op_preserves :
  (forall id, preserves I (Subscribe id)) ->
  forall o, (forall ev, o = FsEvent ev -> preserves I (OnEvent ev)) -> preserves I (fs_op o).
Proof.
  intros Hsub o Hev. destruct o; cbn [fs_op]; [by apply Hev|..]; unfold discard.
  - unfold Server_Send, reply_started. pres_auto.
  - unfold Server_Accept, reply_started. pres_auto.
  - unfold Server_Cancel. pres_auto.
  - unfold Server_CancelFile. pres_auto.
  - unfold Server_List, GetTransfers. pres_auto.
  - unfold Server_SetNotifications, EnableNotifications, DisableNotifications. pres_auto.
  - unfold Server_PurgeTransfersUntil. pres_auto.
  - unfold Server_Stop. pres_auto.
  - unfold CancelLiveTransfers. pres_auto.
  - unfold OpenFile. apply with_notifications_frame. pres_auto.
  - unfold Notification_AcceptTransfer. apply with_notifications_frame. pres_auto.
  - unfold Notification_CancelTransfer. apply with_notifications_frame. pres_auto.
  - unfold CloseNotification. apply with_notifications_frame. pres_auto.
Qed.

(** Events, once a live transfer that is found satisfies [Q], and the steps that
    change a live transfer keep the invariant for such a transfer. *)
Lemma OnEvent_preserves (Q : LiveTransfer -> Prop) :
  (forall id, preserves I (getLiveTransfer id)) ->
  (forall id s t s', I s -> getLiveTransfer id s = (Ok t, s') -> Q t) ->
  (forall id n t fid f, Q t -> lt_Files t !! fid = Some f ->
     preserves I (let t := t <| lt_TotalTransferred := u64 (lt_TotalTransferred t + u64 (n - lf_Transferred f)) |>
                             <| lt_Files := <[fid := f <| lf_Transferred := n |>]> (lt_Files t) |> in
       put_live t ;;
       let! subs := gets em_transferSubscriptions in
       match subs !! lt_ID t with
       | Some ch => chan_send ch (mkProgress id
           (if 0 <? lt_TotalSize t then progress_percent (lt_TotalTransferred t) (lt_TotalSize t) else 0) Status_ONGOING)
       | None => ret tt
       end)) ->
  (forall t fid f, Q t -> lt_Files t !! fid = Some f -> preserves I (put_live (finish_file t fid f))) ->
  (forall t fid f, Q t -> lt_Files t !! fid = Some f ->
     preserves I (put_live (removeFileFromLiveTransfer (finish_file t fid f) f))) ->
  (forall t st, Q t -> preserves I (finalizeTransfer t st)) ->
  forall ev, preserves I (OnEvent ev).
Proof.
  intros Hget HQ Hprog Hfin Hrem Hdone.
  assert (Hlive : forall id k, (forall t, Q t -> preserves I (k t)) -> preserves I (with_live id k)).
  { intros id k Hk s Hs. unfold with_live, bind, attempt. pose proof (Hget id s Hs) as Hs'.
    destruct (getLiveTransfer id s) as [[t|e] s'] eqn:Hg; [|done]. apply Hk; [exact (HQ _ _ _ _ Hs Hg)|done]. }
  assert (Hfile : forall t fid k, (forall f, lt_Files t !! fid = Some f -> preserves I (k f)) -> preserves I (with_file t fid k)).
  { intros t fid k Hk. unfold with_file. destruct (lt_Files t !! fid) eqn:?; [by apply Hk|apply preserves_ret]. }
  intros ev. destruct ev; cbn [OnEvent]; try apply preserves_ret.
  - apply handleRequestReceived_frame.
  - apply Hlive. intros t Ht. apply Hfile. intros f Hf. by apply Hprog.
  - apply Hlive. intros t Ht. by apply Hdone.
  - apply Hlive. intros t Ht. pres_auto; by apply Hdone.
  - apply Hlive. intros t Ht. apply Hfile. intros f Hf. cbv zeta.
    apply preserves_bind; [by apply Hfin|]. pres_auto.
  - apply Hlive. intros t Ht. apply Hfile. intros f Hf. cbv zeta.
    apply preserves_bind; [by apply Hfin|]. pres_auto.
  - apply Hlive. intros t Ht. apply Hfile. intros f Hf. cbv zeta.
    apply preserves_bind; [by apply Hrem|]. pres_auto.
  - apply Hlive. intros t Ht. apply Hfile. intros f Hf. cbv zeta.
    apply preserves_bind; [by apply Hrem|]. pres_auto.
Qed.
End Frame.
End Ops.

(** ** The progress channels *)

Section Channels.
Context {E : Type} `{FileshareEnv E}.

(** What happened on a channel. *)
Definition on_chan (ch : nat) (log : list ChanEvent) : list (option TransferProgressInfo) :=
  map snd (filter (fun x => x.1 = ch) log).
#[global] Arguments on_chan : simpl never.
Definition ongoing (x : option TransferProgressInfo) : Prop :=
  match x with Some i => pi_Status i = Status_ONGOING | None => False end.

(** Progress, and then nothing, or one last status and the closing. *)
Definition protocol (l : list (option TransferProgressInfo)) : Prop :=
  Forall ongoing l \/ exists pre last, Forall ongoing pre /\ l = pre ++ [Some last; None].

Definition chan_inv (s : EventManager E) : Prop :=
  (forall ch, protocol (on_chan ch (em_sent s))) /\
  (forall id ch, em_transferSubscriptions s !! id = Some ch -> Forall ongoing (on_chan ch (em_sent s)) /\ (ch < em_nextChan s)%nat) /\
  (forall id id' ch, em_transferSubscriptions s !! id = Some ch -> em_transferSubscriptions s !! id' = Some ch -> id = id') /\
  (forall ch, (em_nextChan s <= ch)%nat -> on_chan ch (em_sent s) = []).

Lemma on_chan_app ch l l' : on_chan ch (l ++ l') = on_chan ch l ++ on_chan ch l'.
Proof. unfold on_chan. by rewrite filter_app, map_app. Qed.
Lemma on_chan_same ch x : on_chan ch [(ch, x)] = [x].
Proof. unfold on_chan. by rewrite filter_cons_True. Qed.
Lemma on_chan_other ch ch' x : ch' <> ch -> on_chan ch [(ch', x)] = [].
Proof. intros Hne. unfold on_chan. by rewrite filter_cons_False. Qed.

(** A progress message to a subscriber. *)
Lemma chan_inv_send s id ch i :
  chan_inv s -> em_transferSubscriptions s !! id = Some ch -> pi_Status i = Status_ONGOING ->
  chan_inv (s <| em_sent := em_sent s ++ [(ch, Some i)] |>).
Proof.
  intros (Hp & Hs & Hi & Hn) Hch Hst. destruct (Hs id ch Hch) as [Ho Hlt]. split_and!; cbn.
  - intros c. rewrite on_chan_app. destruct (decide (ch = c)) as [->|Hne].
    + rewrite on_chan_same. left. apply Forall_app. split; [done|by constructor].
    + rewrite on_chan_other, app_nil_r by done. apply Hp.
  - intros id' c Hc. destruct (Hs id' c Hc) as [Ho' Hlt']. split; [|done]. rewrite on_chan_app.
    destruct (decide (ch = c)) as [->|Hne].
    + rewrite on_chan_same. apply Forall_app. split; [done|by constructor].
    + by rewrite on_chan_other, app_nil_r.
  - exact Hi.
  - intros c Hc. rewrite on_chan_app, Hn, on_chan_other; [done|lia|done].
Qed.

(** The last message and the closing of a subscriber, who is then no more. *)
Lemma chan_inv_finish s id ch i :
  chan_inv s -> em_transferSubscriptions s !! id = Some ch ->
  chan_inv (s <| em_sent := (em_sent s ++ [(ch, Some i)]) ++ [(ch, None)] |>
              <| em_transferSubscriptions := delete id (em_transferSubscriptions s) |>).
Proof.
  intros (Hp & Hs & Hi & Hn) Hch. destruct (Hs id ch Hch) as [Ho Hlt]. split_and!; cbn.
  - intros c. rewrite !on_chan_app. destruct (decide (ch = c)) as [->|Hne].
    + rewrite !on_chan_same. right. exists (on_chan c (em_sent s)), i. split; [done|]. by rewrite <- app_assoc.
    + rewrite !on_chan_other, !app_nil_r by done. apply Hp.
  - intros id' c [Hne Hc]%lookup_delete_Some. destruct (Hs id' c Hc) as [Ho' Hlt']. split; [|done].
    assert (ch <> c) by (intros ->; apply Hne; by eapply Hi). by rewrite !on_chan_app, !on_chan_other, !app_nil_r.
  - intros id1 id2 c [_ H1]%lookup_delete_Some [_ H2]%lookup_delete_Some. by eapply Hi.
  - intros c Hc. rewrite !on_chan_app, Hn, !on_chan_other; [done|lia|lia|done].
Qed.

Lemma chan_inv_subscribe id : preserves chan_inv (Subscribe id).
Proof.
  intros s (Hp & Hs & Hi & Hn). unfold Subscribe, bind, gets, modify, ret. cbn. split_and!; cbn.
  - exact Hp.
  - intros id' c [[<- <-]|[Hne Hc]]%lookup_insert_Some.
    + split; [|lia]. rewrite Hn by lia. constructor.
    + destruct (Hs id' c Hc). split; [done|lia].
  - intros id1 id2 c [[<- <-]|[Hn1 H1]]%lookup_insert_Some [[<- H2]|[Hn2 H2]]%lookup_insert_Some; [done|..|by eapply Hi].
    + destruct (Hs _ _ H2). lia.
    + subst c. destruct (Hs _ _ H1). lia.
  - intros c Hc. apply Hn. lia.
Qed.

(** The channels do not depend on the live transfers. *)
Lemma chan_inv_live s live : chan_inv s -> chan_inv (s <| em_liveTransfers := live |>).
Proof. done. Qed.

Lemma chan_inv_finalize t st : preserves chan_inv (finalizeTransfer t st).
Proof.
  intros s Hs. unfold finalizeTransfer, bind, gets. destruct (em_transferSubscriptions s !! lt_ID t) as [ch|] eqn:Hch; [|done].
  apply chan_inv_live. by apply (chan_inv_finish s (lt_ID t) ch (mkProgress (lt_ID t) 0 st)).
Qed.

Lemma chan_inv_event ev : preserves chan_inv (OnEvent ev).
Proof.
  apply (OnEvent_preserves chan_inv ltac:(done) ltac:(done) (fun _ => True)); try done.
  - intros id. unfold getLiveTransfer. pose proof (getTransferFromStorage_frame chan_inv ltac:(done)) as Hg.
    pres_auto. apply preserves_modify. auto using chan_inv_live.
  - intros id n t fid f _ Hf s Hs. unfold bind, put_live, modify, gets. cbn.
    destruct (em_transferSubscriptions s !! lt_ID t) as [ch|] eqn:Hch; [|done].
    match goal with |- chan_inv (chan_send _ ?i (mkEventManager ?l _ _ _ _ _ _)).2 =>
      by apply (chan_inv_live _ l (chan_inv_send s (lt_ID t) ch i Hs Hch eq_refl)) end.
  - intros t fid f _ _. apply preserves_modify. auto using chan_inv_live.
  - intros t fid f _ _. apply preserves_modify. auto using chan_inv_live.
  - intros t st _. apply chan_inv_finalize.
Qed.

Lemma chan_inv_reachable ops env dir : chan_inv (run_ops fs_op ops (NewEventManager env dir)).
Proof.
  apply run_ops_inv; [intros o; apply fs_op_preserves; try done; [apply chan_inv_subscribe|intros; apply chan_inv_event]|].
  split_and!; cbn; try done. by left.
Qed.

(** C26: the progress of a transfer.  Whatever requests and events there were, on every
    channel there has been progress and then nothing, or one last status and the
    closing; so nothing is ever sent on a closed channel and none is closed twice,
    which would end the process.  The channel of a current subscriber is open, and no
    two transfers share one. *)
Theorem progress_channels_protocol (ops : list FsOp) (env : E) (dir : string) :
  let s := run_ops fs_op ops (NewEventManager env dir) in
  (forall ch, protocol (on_chan ch (em_sent s))) /\
  (forall id ch, em_transferSubscriptions s !! id = Some ch -> Forall ongoing (on_chan ch (em_sent s))) /\
  (forall id id' ch, em_transferSubscriptions s !! id = Some ch -> em_transferSubscriptions s !! id' = Some ch -> id = id').
Proof.
  destruct (chan_inv_reachable ops env dir) as (Hp & Hs & Hi & _). cbv zeta. split_and!; [exact Hp| |exact Hi].
  intros id ch Hch. by apply (Hs id ch).
Qed.
End Channels.

(** ** The totals of the live transfers *)

Definition map_sum (g : LiveFile -> Z) (m : gmap string LiveFile) : Z := map_fold (fun _ f acc => g f + acc) 0 m.

Lemma map_sum_delete g m k f : m !! k = Some f -> map_sum g m = g f + map_sum g (delete k m).
Proof. intros Hk. unfold map_sum. apply (map_fold_delete_L (fun _ f acc => g f + acc) 0 k f m); [intros; lia|done]. Qed.
Lemma map_sum_insert g m k f : map_sum g (<[k := f]> m) = g f + map_sum g (delete k m).
Proof. rewrite (map_sum_delete g _ k f) by apply lookup_insert_eq. by rewrite delete_insert_eq. Qed.
Lemma map_sum_insert_new g m k f : m !! k = None -> map_sum g (<[k := f]> m) = g f + map_sum g m.
Proof. intros Hk. by rewrite map_sum_insert, delete_id. Qed.

Definition list_sum (l : list Z) : Z := foldr Z.add 0 l.
Lemma sum_u64_sum {A} (g : A -> Z) l : sum_u64 g l = u64 (list_sum (map g l)).
Proof.
  unfold sum_u64. enough (forall acc, foldl (fun acc x => u64 (acc + g x)) (u64 acc) l = u64 (acc + list_sum (map g l))) as Hg.
  { by apply (Hg 0). }
  induction l as [|x l IH]; intros acc; cbn [foldl map list_sum foldr]; [by rewrite Z.add_0_r|].
  replace (u64 (u64 acc + g x)) with (u64 (acc + g x)) by (unfold u64; by rewrite Zplus_mod_idemp_l).
  rewrite IH. unfold list_sum. f_equal. lia.
Qed.

Section Totals.

Definition exact (t : LiveTransfer) : Prop :=
  lt_TotalSize t = u64 (map_sum lf_Size (lt_Files t)) /\
  lt_TotalTransferred t = u64 (map_sum lf_Transferred (lt_Files t)).
Definition keyed (t : LiveTransfer) : Prop := forall k f, lt_Files t !! k = Some f -> lf_ID f = k.
Definition good (t : LiveTransfer) : Prop := keyed t /\ (isLiveTransferFinished t = false -> exact t).

Lemma finished_spec t :
  isLiveTransferFinished t = true <-> forall k f, lt_Files t !! k = Some f -> lf_Finished f = true.
Proof.
  unfold isLiveTransferFinished. rewrite forallb_forall. split.
  - intros Hf k f Hk. apply (Hf (k, f)), list_elem_of_In, elem_of_map_to_list, Hk.
  - intros Hf [k f] Hx%list_elem_of_In%elem_of_map_to_list. by apply (Hf k f).
Qed.

(** The three changes of a live transfer. *)
Lemma good_progress t fid f n :
  good t -> lt_Files t !! fid = Some f ->
  good (t <| lt_TotalTransferred := u64 (lt_TotalTransferred t + u64 (n - lf_Transferred f)) |>
          <| lt_Files := <[fid := f <| lf_Transferred := n |>]> (lt_Files t) |>).
Proof.
  intros [Hk Hg] Hf. split.
  - intros k f'; cbn; intros [[<- <-]|[_ Hk']]%lookup_insert_Some; [exact (Hk _ _ Hf)|by apply Hk].
  - intros Hfin. destruct Hg as [Hs Ht].
    { apply not_true_iff_false. intros Hc. apply not_true_iff_false in Hfin. apply Hfin.
      rewrite finished_spec in Hc. apply finished_spec. intros k f'; cbn; intros [[<- <-]|[_ Hk']]%lookup_insert_Some; cbn; by eapply Hc. }
    pose proof (map_sum_delete lf_Size _ _ _ Hf) as H1. pose proof (map_sum_delete lf_Transferred _ _ _ Hf) as H2.
    split; cbn; rewrite map_sum_insert; cbn; [by rewrite Hs, H1|].
    rewrite Ht, H2. unfold u64. rewrite Zplus_mod_idemp_l, Zplus_mod_idemp_r. f_equal. lia.
Qed.

Lemma finish_file_unfinished t fid f :
  lt_Files t !! fid = Some f -> isLiveTransferFinished (finish_file t fid f) = false -> isLiveTransferFinished t = false.
Proof.
  intros Hf Hfin. apply not_true_iff_false. intros Hc. apply not_true_iff_false in Hfin. apply Hfin.
  rewrite finished_spec in Hc. apply finished_spec. intros k f'; cbn; intros [[<- <-]|[_ Hk']]%lookup_insert_Some; cbn; [done|by eapply Hc].
Qed.

Lemma good_finish t fid f : good t -> lt_Files t !! fid = Some f -> good (finish_file t fid f).
Proof.
  intros [Hk Hg] Hf. split.
  - intros k f'; cbn; intros [[<- <-]|[_ Hk']]%lookup_insert_Some; [exact (Hk _ _ Hf)|by apply Hk].
  - intros Hfin. destruct (Hg (finish_file_unfinished _ _ _ Hf Hfin)) as [Hs Ht].
    split; cbn; rewrite map_sum_insert; cbn.
    + rewrite Hs. by rewrite (map_sum_delete lf_Size _ _ _ Hf).
    + rewrite Ht. by rewrite (map_sum_delete lf_Transferred _ _ _ Hf).
Qed.

Lemma good_remove t fid f :
  good t -> lt_Files t !! fid = Some f -> good (removeFileFromLiveTransfer (finish_file t fid f) f).
Proof.
  intros Hgood Hf. pose proof Hgood as [Hk Hg]. pose proof (Hk _ _ Hf) as Hid.
  assert (Hdel : forall x, delete fid (<[fid := x]> (lt_Files t)) = delete fid (lt_Files t))
    by (intros; apply delete_insert_eq).
  unfold removeFileFromLiveTransfer. rewrite Hid. split.
  - intros k f'. cbn. rewrite Hdel. intros [_ Hk']%lookup_delete_Some. by apply Hk.
  - intros Hfin. destruct (Hg) as [Hs Ht].
    { apply not_true_iff_false. intros Hc. apply not_true_iff_false in Hfin. apply Hfin.
      rewrite finished_spec in Hc. apply finished_spec. intros k f'. cbn. rewrite Hdel.
      intros [_ Hk']%lookup_delete_Some. by eapply Hc. }
    split; cbn; rewrite Hdel.
    + rewrite Hs, (map_sum_delete lf_Size _ _ _ Hf). unfold u64. rewrite Zminus_mod_idemp_l. f_equal. lia.
    + rewrite Ht, (map_sum_delete lf_Transferred _ _ _ Hf). unfold u64. rewrite Zminus_mod_idemp_l. f_equal. lia.
Qed.

(** The status of a file is one of these. *)
Definition status_is (l : list Status) (f : File) : Prop := f_Status f ∈ l.

(** *** From the storage *)

Definition transferred (t : Transfer) : list File := filter (fun f => isFileTransferred f = true) (t_Files t).

(** A stored transfer has its files under different identifiers, and either exact
    totals or nothing left to transfer. *)
Definition storable (t : Transfer) : Prop :=
  NoDup (map f_Id (transferred t)) /\
  (Forall (fun f => isFileCompleted f = true) (t_Files t) \/
   t_TotalSize t = sum_u64 f_Size (transferred t) /\ t_TotalTransferred t = sum_u64 f_Transferred (transferred t)).

Definition live_files (l : list File) (m : gmap string LiveFile) : gmap string LiveFile :=
  foldl (fun m f => <[f_Id f := live_file f]> m) m l.

Lemma new_live_files t : lt_Files (new_live_transfer t) = live_files (transferred t) ∅.
Proof.
  unfold new_live_transfer, live_files, transferred. cbn. generalize (∅ : gmap string LiveFile).
  induction (t_Files t) as [|f l IH]; intros m; [done|]. rewrite filter_cons. cbn [foldl]. rewrite IH.
  destruct (isFileTransferred f) eqn:Hf; [by rewrite decide_True|by rewrite decide_False by done].
Qed.

Lemma live_files_lookup l m k f :
  live_files l m !! k = Some f -> m !! k = Some f \/ exists x, x ∈ l /\ f = live_file x /\ f_Id x = k.
Proof.
  revert m. induction l as [|x l IH]; intros m Hk; [by left|]. destruct (IH _ Hk) as [Hm|(y & Hy & Hf & Hi)].
  - apply lookup_insert_Some in Hm as [[<- <-]|[_ Hm]]; [right; exists x; split; [by left|done]|by left].
  - right. exists y. split; [by right|done].
Qed.

Lemma live_files_sum g l m :
  NoDup (map f_Id l) -> (forall f, f ∈ l -> m !! f_Id f = None) ->
  map_sum g (live_files l m) = list_sum (map (fun f => g (live_file f)) l) + map_sum g m.
Proof.
  revert m. induction l as [|x l IH]; intros m Hnd Hm; cbn; [done|]. apply NoDup_cons in Hnd as [Hx Hnd].
  change (foldl (fun m f => <[f_Id f := live_file f]> m) (<[f_Id x := live_file x]> m) l)
    with (live_files l (<[f_Id x := live_file x]> m)).
  rewrite IH; [|done|].
  - rewrite map_sum_insert_new by (apply Hm; by left). unfold list_sum. cbn [map foldr]. lia.
  - intros f Hf. rewrite lookup_insert_ne; [apply Hm; by right|]. intros Heq. apply Hx. rewrite Heq.
    apply list_elem_of_fmap. by exists f.
Qed.

Lemma good_new t : storable t -> good (new_live_transfer t).
Proof.
  intros [Hnd Hs]. split.
  - intros k f. rewrite new_live_files. intros [Hk|(x & _ & -> & <-)]%live_files_lookup; [|done].
    by rewrite lookup_empty in Hk.
  - intros Hfin. destruct Hs as [Hc|[Hs Ht]].
    + exfalso. apply not_true_iff_false in Hfin. apply Hfin, finished_spec. intros k f. rewrite new_live_files.
      intros [Hk|(x & Hx & -> & _)]%live_files_lookup; [by rewrite lookup_empty in Hk|].
      apply list_elem_of_filter in Hx as [_ Hx]. rewrite Forall_forall in Hc. by apply Hc.
    + assert (Hempty : forall f, f ∈ transferred t -> (∅ : gmap string LiveFile) !! f_Id f = None) by (intros; apply lookup_empty).
      split; rewrite new_live_files, live_files_sum by done; unfold map_sum; rewrite map_fold_empty, Z.add_0_r; cbn.
      * by rewrite Hs, sum_u64_sum.
      * by rewrite Ht, sum_u64_sum.
Qed.
End Totals.

(** *** Which files count

    The files of a transfer that are neither failed nor rejected, followed through the
    events and stated without the functions of the program. *)

Record Counted : Type := mkCounted { cf_Size : Z; cf_Bytes : Z; cf_Done : bool }.
Abbreviation Table := (gmap string Counted).

(** What an event of libdrop says of the files of the transfer [id]. *)
Definition counted_step (id : string) (o : FsOp) (m : Table) : Table :=
  match o with
  | FsEvent (EventKindFileProgress i f n) =>
      if decide (i = id) then alter (fun x => mkCounted (cf_Size x) n (cf_Done x)) f m else m
  | FsEvent (EventKindFileDownloaded i f _) | FsEvent (EventKindFileUploaded i f) =>
      if decide (i = id) then alter (fun x => mkCounted (cf_Size x) (cf_Bytes x) true) f m else m
  | FsEvent (EventKindFileRejected i f _) | FsEvent (EventKindFileFailed i f _) =>
      if decide (i = id) then delete f m else m
  | _ => m
  end.

(** The files of a stored transfer that are still to be transferred or succeeded. *)
Definition stored_counts (t : Transfer) (m : Table) : Prop :=
  forall id x, m !! id = Some x <->
    exists f, f ∈ t_Files t /\ f_Id f = id /\
      status_is [Status_REQUESTED; Status_PENDING; Status_ONGOING; Status_SUCCESS] f /\
      x = mkCounted (f_Size f) (f_Transferred f) (bool_decide (f_Status f = Status_SUCCESS)).

Definition table_sum (g : Counted -> Z) (m : Table) : Z := map_fold (fun _ x acc => g x + acc) 0 m.

Definition table (t : LiveTransfer) : Table :=
  (fun f => mkCounted (lf_Size f) (lf_Transferred f) (lf_Finished f)) <$> lt_Files t.

Lemma table_sum_size t : table_sum cf_Size (table t) = map_sum lf_Size (lt_Files t).
Proof.
  exact (map_fold_fmap (fun _ x acc => cf_Size x + acc)
    (fun f => mkCounted (lf_Size f) (lf_Transferred f) (lf_Finished f)) 0 (lt_Files t)).
Qed.
Lemma table_sum_bytes t : table_sum cf_Bytes (table t) = map_sum lf_Transferred (lt_Files t).
Proof.
  exact (map_fold_fmap (fun _ x acc => cf_Bytes x + acc)
    (fun f => mkCounted (lf_Size f) (lf_Transferred f) (lf_Finished f)) 0 (lt_Files t)).
Qed.

Lemma table_unfinished t fid x : table t !! fid = Some x -> cf_Done x = false -> isLiveTransferFinished t = false.
Proof.
  unfold table. rewrite lookup_fmap, fmap_Some. intros (f & Hf & ->) Hd. apply not_true_iff_false. intros Hfin.
  rewrite finished_spec in Hfin. specialize (Hfin _ _ Hf). cbn in Hd. congruence.
Qed.

Lemma transferred_status f :
  isFileTransferred f = true <-> status_is [Status_REQUESTED; Status_PENDING; Status_ONGOING; Status_SUCCESS] f.
Proof.
  unfold isFileTransferred, isFileCompleted, status_is.
  rewrite orb_true_iff, negb_true_iff, !andb_false_iff, !negb_false_iff, !Z.eqb_eq, !elem_of_cons, elem_of_nil. tauto.
Qed.

Lemma completed_success f : isFileTransferred f = true -> isFileCompleted f = bool_decide (f_Status f = Status_SUCCESS).
Proof.
  unfold isFileTransferred, isFileCompleted. case_bool_decide as Hs; [by rewrite Hs|].
  apply Z.eqb_neq in Hs. rewrite Hs, orb_false_r. by intros ->%negb_true_iff.
Qed.

Lemma live_files_NoDup l k f :
  NoDup (map f_Id l) -> live_files l ∅ !! k = Some f <-> exists x, x ∈ l /\ f = live_file x /\ f_Id x = k.
Proof.
  intros Hnd. split.
  - intros [Hk|Hx]%live_files_lookup; [by rewrite lookup_empty in Hk|done].
  - intros (x & Hx & -> & <-). revert Hx. generalize (∅ : gmap string LiveFile).
    induction l as [|y l IH]; intros m Hx; [by apply not_elem_of_nil in Hx|]. apply NoDup_cons in Hnd as [Hy Hnd].
    cbn. apply elem_of_cons in Hx as [->|Hx]; [|by apply IH].
    assert (Hno : forall m0 : gmap string LiveFile, f_Id y ∉ map f_Id l -> live_files l m0 !! f_Id y = m0 !! f_Id y).
    { clear. induction l as [|z l IH]; intros m0 Hn; [done|]. cbn in Hn |- *. apply not_elem_of_cons in Hn as [Hz Hn].
      unfold live_files in IH. rewrite IH by done. by rewrite lookup_insert_ne. }
    unfold live_files in Hno. by rewrite Hno, lookup_insert_eq.
Qed.

Lemma stored_counts_table t : NoDup (map f_Id (transferred t)) -> stored_counts t (table (new_live_transfer t)).
Proof.
  intros Hnd id x. unfold table. rewrite new_live_files, lookup_fmap, fmap_Some. setoid_rewrite live_files_NoDup; [|done].
  split.
  - intros (f & (y & Hy & -> & <-) & ->). apply list_elem_of_filter in Hy as [Ht Hy]. exists y.
    split_and!; [done|done|by apply transferred_status|]. cbn. by rewrite completed_success.
  - intros (y & Hy & <- & Hs & ->). apply transferred_status in Hs. exists (live_file y). cbn.
    rewrite completed_success by done. split; [|done]. exists y. split_and!; [by apply list_elem_of_filter|done..].
Qed.

Section LiveTotals.
Context {E : Type} `{FileshareEnv E}.
(** Every transfer the storage loads is storable and under its own identifier. *)
Context (Hstore : forall e m, (storage_Load e).1 = Ok m -> map_Forall (fun id t => t_Id t = id /\ storable t) m).

Definition totals_inv (s : EventManager E) : Prop :=
  forall k t, em_liveTransfers s !! k = Some t -> lt_ID t = k /\ good t.

Lemma getTransferFromStorage_storable id s t s' : getTransferFromStorage id s = (Ok t, s') -> storable t.
Proof.
  unfold getTransferFromStorage, bind, attempt, on_env, zoom. pose proof (Hstore (em_env s)) as Hl.
  destruct (storage_Load (em_env s)) as [[m|e] e']; [|done]. destruct (m !! id) as [t'|] eqn:Hm; [|done].
  intros [= <- _]. by apply (Hl m eq_refl id).
Qed.

Lemma put_live_totals t : good t -> preserves totals_inv (put_live t).
Proof.
  intros Ht. apply preserves_modify. intros s Hs k t'. cbn.
  intros [[<- <-]|[_ Hk]]%lookup_insert_Some; [done|by apply Hs].
Qed.

Lemma getLiveTransfer_good id s t s' : totals_inv s -> getLiveTransfer id s = (Ok t, s') -> good t.
Proof.
  intros Hs. unfold getLiveTransfer, bind at 1, gets. destruct (em_liveTransfers s !! id) as [t0|] eqn:Hl.
  - intros [= <- _]. by apply (Hs id).
  - unfold bind at 1. destruct (getTransferFromStorage id s) as [[t0|e] s1] eqn:Hg; [|done].
    intros [= <- _]. by eapply good_new, getTransferFromStorage_storable.
Qed.

Lemma getLiveTransfer_totals id : preserves totals_inv (getLiveTransfer id).
Proof.
  unfold getLiveTransfer. apply preserves_bind; [apply preserves_gets|]. intros live.
  destruct (live !! id); [apply preserves_ret|].
  apply (preserves_bind_with _ (fun t => storable t)).
  - by apply getTransferFromStorage_frame.
  - intros s t s'. apply getTransferFromStorage_storable.
  - intros t Ht. apply preserves_bind; [by apply put_live_totals, good_new|]. pres_auto.
Qed.

Lemma finalize_totals t st : preserves totals_inv (finalizeTransfer t st).
Proof.
  intros s Hs. unfold finalizeTransfer, bind, gets.
  assert (Hd : forall k t', delete (lt_ID t) (em_liveTransfers s) !! k = Some t' -> lt_ID t' = k /\ good t')
    by (intros k t' [_ Hk]%lookup_delete_Some; by apply Hs).
  by destruct (em_transferSubscriptions s !! lt_ID t).
Qed.

Lemma totals_event ev : preserves totals_inv (OnEvent ev).
Proof.
  apply (OnEvent_preserves totals_inv ltac:(done) ltac:(done) good).
  - apply getLiveTransfer_totals.
  - apply getLiveTransfer_good.
  - intros id n t fid f Ht Hf. cbv zeta. apply preserves_bind; [by apply put_live_totals, good_progress|]. intros _.
    apply preserves_bind; [apply preserves_gets|]. intros subs. destruct (subs !! _); [|apply preserves_ret].
    by apply preserves_modify.
  - intros t fid f Ht Hf. by apply put_live_totals, good_finish.
  - intros t fid f Ht Hf. by apply put_live_totals, good_remove.
  - intros t st _. apply finalize_totals.
Qed.

(** *** What an event does to a live transfer *)

Lemma Subscribe_live L id : preserves (fun s : EventManager E => em_liveTransfers s = L) (Subscribe id).
Proof. unfold Subscribe. pres_auto. by apply preserves_modify. Qed.

Lemma totals_reachable ops env dir : totals_inv (run_ops fs_op ops (NewEventManager env dir)).
Proof.
  apply run_ops_inv; [|intros k t' Hk; cbn in Hk; by rewrite lookup_empty in Hk].
  intros o. apply (fs_op_preserves totals_inv); [done|done| |intros; apply totals_event].
  intros id'. unfold Subscribe. pres_auto. by apply preserves_modify.
Qed.

(** The transfer an event about [id] finds: the live one, or the stored one. *)
Definition found (s : EventManager E) (id : string) (t : LiveTransfer) : Prop :=
  em_liveTransfers s !! id = Some t \/
  em_liveTransfers s !! id = None /\
  exists m st, (storage_Load (em_env s)).1 = Ok m /\ m !! id = Some st /\ t = new_live_transfer st.

Lemma getLiveTransfer_cases id s :
  totals_inv s ->
  (exists e s1, getLiveTransfer id s = (Err e, s1) /\ em_liveTransfers s !! id = None /\
     em_liveTransfers s1 = em_liveTransfers s) \/
  exists t s1, getLiveTransfer id s = (Ok t, s1) /\ found s id t /\ lt_ID t = id /\ good t /\
    em_liveTransfers s1 = <[id := t]> (em_liveTransfers s).
Proof.
  intros Hs. unfold getLiveTransfer, bind, gets. destruct (em_liveTransfers s !! id) as [t|] eqn:Hl.
  - right. exists t, s. split; [reflexivity|]. split_and!; [by left|by apply (Hs id)|by apply (Hs id)|by rewrite insert_id].
  - unfold getTransferFromStorage, bind, attempt, on_env, zoom. pose proof (Hstore (em_env s)) as Hload.
    destruct (storage_Load (em_env s)) as [[m|e] e'] eqn:He; [|left; by eexists _, _].
    destruct (m !! id) as [st|] eqn:Hm; [|left; by eexists _, _]. destruct (Hload m eq_refl id st Hm) as [Hid Hst].
    right. eexists _, _. split; [reflexivity|]. cbn. rewrite Hid. split_and!; [|done|by apply good_new|done].
    right. split; [done|]. exists m, st. by rewrite He.
Qed.

Lemma with_live_effect id (step : Table -> Table) k s :
  totals_inv s ->
  (forall t s1, lt_ID t = id -> good t -> em_liveTransfers s1 = <[id := t]> (em_liveTransfers s) ->
     em_liveTransfers (k t s1).2 = delete id (em_liveTransfers s) \/
     exists t2, em_liveTransfers (k t s1).2 = <[id := t2]> (em_liveTransfers s) /\ table t2 = step (table t)) ->
  forall id' t', em_liveTransfers (with_live id k s).2 !! id' = Some t' ->
  exists t, found s id' t /\ table t' = (if decide (id = id') then step (table t) else table t).
Proof.
  intros Hs Hk id' t'. unfold with_live, bind, attempt.
  destruct (getLiveTransfer_cases id s Hs) as [(e & s1 & -> & Hn & Hl)|(t & s1 & -> & Hf & Hid & Hg & Hl)]; cbn [snd].
  - unfold ret. cbn [snd]. rewrite Hl. intros Ht. exists t'. split; [by left|]. rewrite decide_False; [done|].
    intros ->. rewrite Hn in Ht. discriminate Ht.
  - destruct (Hk t s1 Hid Hg Hl) as [->|(t2 & -> & Htab)].
    + intros [Hne Ht]%lookup_delete_Some. exists t'. split; [by left|]. by rewrite decide_False.
    + intros [[<- <-]|[Hne Ht]]%lookup_insert_Some.
      * exists t. split; [done|]. by rewrite decide_True.
      * exists t'. split; [by left|]. by rewrite decide_False.
Qed.

Lemma finalizeTransfer_live t st (s : EventManager E) :
  em_liveTransfers (finalizeTransfer t st s).2 = delete (lt_ID t) (em_liveTransfers s).
Proof.
  unfold finalizeTransfer, bind, gets. by destruct (em_transferSubscriptions s !! lt_ID t).
Qed.

(** What an event says of the table. *)
Lemma alter_table t fid f g : lt_Files t !! fid = Some f ->
  alter g fid (table t) = <[fid := g (mkCounted (lf_Size f) (lf_Transferred f) (lf_Finished f))]> (table t).
Proof.
  intros Hf. rewrite <- (insert_id (table t) fid (mkCounted (lf_Size f) (lf_Transferred f) (lf_Finished f))) at 1.
  - by rewrite alter_insert_eq.
  - unfold table. by rewrite lookup_fmap, Hf.
Qed.

Lemma table_progress t fid f n z :
  lt_Files t !! fid = Some f ->
  table (t <| lt_TotalTransferred := z |> <| lt_Files := <[fid := f <| lf_Transferred := n |>]> (lt_Files t) |>) =
  alter (fun x => mkCounted (cf_Size x) n (cf_Done x)) fid (table t).
Proof. intros Hf. rewrite (alter_table _ _ f) by done. unfold table. cbn. by rewrite fmap_insert. Qed.
Lemma table_finish t fid f :
  lt_Files t !! fid = Some f ->
  table (finish_file t fid f) = alter (fun x => mkCounted (cf_Size x) (cf_Bytes x) true) fid (table t).
Proof. intros Hf. rewrite (alter_table _ _ f) by done. unfold table, finish_file. cbn. by rewrite fmap_insert. Qed.
Lemma table_remove t fid f :
  lf_ID f = fid -> table (removeFileFromLiveTransfer (finish_file t fid f) f) = delete fid (table t).
Proof.
  intros Hid. unfold table, removeFileFromLiveTransfer, finish_file. cbn. rewrite Hid, fmap_delete, fmap_insert.
  by rewrite delete_insert_eq.
Qed.

(** An event about a file changes that file, if the transfer has it. *)
Lemma file_event_live id fid (step : Table -> Table) (t2 : LiveTransfer -> LiveFile -> LiveTransfer) k s :
  totals_inv s -> (forall m, m !! fid = None -> step m = m) ->
  (forall t f, good t -> lt_Files t !! fid = Some f -> lt_ID (t2 t f) = lt_ID t /\ table (t2 t f) = step (table t)) ->
  (forall t f L, preserves (fun s : EventManager E => em_liveTransfers s = L) (k t f)) ->
  forall id' t',
    em_liveTransfers (with_live id (fun t => with_file t fid (fun f => put_live (t2 t f) ;; k t f)) s).2 !! id' = Some t' ->
    exists t, found s id' t /\ table t' = (if decide (id = id') then step (table t) else table t).
Proof.
  intros Hs Hno H2 Hk. apply with_live_effect; [done|]. intros t s1 Hid Hg Hl. right. unfold with_file.
  destruct (lt_Files t !! fid) as [f|] eqn:Hf.
  - destruct (H2 t f Hg Hf) as [Hi2 Ht2]. exists (t2 t f). split; [|done]. unfold bind, put_live, modify. apply Hk.
    cbn. by rewrite Hl, Hi2, Hid, insert_insert_eq.
  - exists t. split; [done|]. rewrite Hno; [done|]. unfold table. by rewrite lookup_fmap, Hf.
Qed.

Lemma told_live L (nf : M (EventManager E) unit) (t : LiveTransfer) :
  (forall I : EventManager E -> Prop, (forall e s, I s -> I (s <| em_env := e |>)) ->
     (forall nm s, I s -> I (s <| em_notificationManager := nm |>)) -> preserves I nf) ->
  preserves (fun s : EventManager E => em_liveTransfers s = L) (nf ;; finalizeFinishedTransfer t).
Proof. intros Hn. apply preserves_bind; [by apply Hn|]. intros _. by apply finalizeFinished_frame. Qed.

Lemma event_live ev s id t' :
  totals_inv s -> em_liveTransfers (OnEvent ev s).2 !! id = Some t' ->
  exists t, found s id t /\ table t' = counted_step id (FsEvent ev) (table t).
Proof.
  intros Hs.
  assert (Hkept : preserves (fun s' => em_liveTransfers s' = em_liveTransfers s) (OnEvent ev) ->
    (forall m, counted_step id (FsEvent ev) m = m) -> em_liveTransfers (OnEvent ev s).2 !! id = Some t' ->
    exists t, found s id t /\ table t' = counted_step id (FsEvent ev) (table t)).
  { intros Hp Hc Ht. rewrite (Hp s eq_refl) in Ht. exists t'. split; [by left|by rewrite Hc]. }
  assert (Hend : forall i k, (forall t s1, lt_ID t = i -> em_liveTransfers s1 = <[i := t]> (em_liveTransfers s) ->
      em_liveTransfers (k t s1).2 = <[i := t]> (em_liveTransfers s) \/
      em_liveTransfers (k t s1).2 = delete i (em_liveTransfers s)) ->
    em_liveTransfers (with_live i k s).2 !! id = Some t' -> exists t, found s id t /\ table t' = table t).
  { intros i k Hk Ht. apply (with_live_effect i (fun m : Table => m) k s Hs) in Ht as (t & Hf & Htab).
    - exists t. split; [done|]. by destruct (decide (i = id)).
    - intros t s1 Hi _ Hl. destruct (Hk t s1 Hi Hl) as [Hq|Hq]; [right; by exists t|by left]. }
  assert (Hfile : forall i f step t2 k,
    (forall m : Table, m !! f = None -> step m = m) ->
    (forall t x, good t -> lt_Files t !! f = Some x -> lt_ID (t2 t x) = lt_ID t /\ table (t2 t x) = step (table t)) ->
    (forall t x L, preserves (fun s : EventManager E => em_liveTransfers s = L) (k t x)) ->
    em_liveTransfers (with_live i (fun t => with_file t f (fun x => put_live (t2 t x) ;; k t x)) s).2 !! id = Some t' ->
    exists t, found s id t /\ table t' = (if decide (i = id) then step (table t) else table t)).
  { intros i f step t2 k H1 H2 H3 Ht. by apply (file_event_live i f step t2 k s Hs H1 H2 H3 id t'). }
  assert (Halter : forall (g : Counted -> Counted) f (m : Table), m !! f = None -> alter g f m = m)
    by (intros g f m Hf; apply alter_id; intros x Hx; by rewrite Hf in Hx).
  assert (Hdrop : forall (f : string) (m : Table), m !! f = None -> delete f m = m) by (intros; by apply delete_id).
  destruct ev as [p i fs| | |i f n|i c|i b|i f pa|i f|i f b|i f c|]; try (apply Hkept; [|done]; cbn [OnEvent]; apply preserves_ret).
  - apply Hkept; [|done]. by apply handleRequestReceived_frame.
  - apply (Hfile i f (fun m => alter (fun x => mkCounted (cf_Size x) n (cf_Done x)) f m)); [auto| |].
    + intros t x _ Hx. split; [done|]. by apply table_progress.
    + intros t x L. pres_auto. by apply preserves_modify.
  - apply (Hend i). intros t s1 Hi Hl. right. by rewrite finalizeTransfer_live, Hl, Hi, delete_insert_eq.
  - apply (Hend i). intros t s1 Hi Hl. assert (Hfin : forall st s2, em_liveTransfers s2 = <[i := t]> (em_liveTransfers s) ->
      em_liveTransfers (finalizeTransfer t st s2).2 = delete i (em_liveTransfers s))
      by (intros st s2 H2; by rewrite finalizeTransfer_live, H2, Hi, delete_insert_eq).
    destruct (isLiveTransferFinished t); [|right; by apply Hfin].
    assert (Hst : preserves (fun s2 : EventManager E => em_liveTransfers s2 = <[i := t]> (em_liveTransfers s))
                    (getTransferFromStorage i)) by by apply getTransferFromStorage_frame.
    specialize (Hst s1 Hl). unfold bind, attempt. destruct (getTransferFromStorage i s1) as [[st|e] s2]; [right; by apply Hfin|by left].
  - apply (Hfile i f (fun m => alter (fun x => mkCounted (cf_Size x) (cf_Bytes x) true) f m)); [auto| |].
    + intros t x _ Hx. split; [done|]. by apply table_finish.
    + intros t x L. apply told_live. intros I H1 H2. by apply NotifyFile_frame.
  - apply (Hfile i f (fun m => alter (fun x => mkCounted (cf_Size x) (cf_Bytes x) true) f m)); [auto| |].
    + intros t x _ Hx. split; [done|]. by apply table_finish.
    + intros t x L. apply told_live. intros I H1 H2. by apply NotifyFile_frame.
  - apply (Hfile i f (delete f)); [auto| |].
    + intros t x [Hk _] Hx. split; [done|]. by apply table_remove, Hk.
    + intros t x L. apply told_live. intros I H1 H2. by apply NotifyFile_frame.
  - apply (Hfile i f (delete f)); [auto| |].
    + intros t x [Hk _] Hx. split; [done|]. by apply table_remove, Hk.
    + intros t x L. apply told_live. intros I H1 H2. by apply NotifyFile_frame.
Qed.
Lemma op_live o s id t' :
  totals_inv s -> em_liveTransfers (fs_op o s).2 !! id = Some t' ->
  exists t, found s id t /\ table t' = counted_step id o (table t).
Proof.
  intros Hs Ht.
  assert (Hkept : (forall ev, o <> FsEvent ev) -> em_liveTransfers s !! id = Some t').
  { intros Hno. rewrite <- Ht. f_equal. symmetry.
    apply (fs_op_preserves (fun s' => em_liveTransfers s' = em_liveTransfers s)); [done|done|..|done].
    - apply Subscribe_live.
    - intros ev ->. by destruct (Hno ev). }
  destruct o as [ev| | | | | | | | | | | | |]; [by apply event_live|..];
    exists t'; (split; [left; by apply Hkept|done]).
Qed.

(** The files that count for the transfer [id] after some requests and events: those of
    the stored transfer when an event first concerned it, as the events since say. *)
Inductive counts (env : E) (dir id : string) : list FsOp -> Table -> Prop :=
| counts_loaded before o loaded stored m :
    em_liveTransfers (run_ops fs_op before (NewEventManager env dir)) !! id = None ->
    (storage_Load (em_env (run_ops fs_op before (NewEventManager env dir)))).1 = Ok loaded ->
    loaded !! id = Some stored -> stored_counts stored m ->
    counts env dir id (before ++ [o]) (counted_step id o m)
| counts_since before o m :
    is_Some (em_liveTransfers (run_ops fs_op before (NewEventManager env dir)) !! id) ->
    counts env dir id before m -> counts env dir id (before ++ [o]) (counted_step id o m).

Lemma live_counts ops env dir id t :
  em_liveTransfers (run_ops fs_op ops (NewEventManager env dir)) !! id = Some t -> counts env dir id ops (table t).
Proof.
  revert t. induction ops as [|o ops IH] using rev_ind; intros t; [intros Ht; cbn in Ht; by rewrite lookup_empty in Ht|].
  rewrite run_ops_app. cbn [run_ops]. intros Ht. apply op_live in Ht as (t0 & Hf & ->); [|apply totals_reachable].
  destruct Hf as [Hl|(Hn & m & st & Hm & Hst & ->)].
  - apply counts_since; [by eexists|by apply IH].
  - apply (counts_loaded _ _ _ _ _ m st); [done..|]. apply stored_counts_table. by apply (Hstore _ _ Hm id).
Qed.

Lemma live_totals ops env dir id t :
  em_liveTransfers (run_ops fs_op ops (NewEventManager env dir)) !! id = Some t ->
  lt_ID t = id /\ exists m, counts env dir id ops m /\
    ((exists f x, m !! f = Some x /\ cf_Done x = false) ->
     lt_TotalSize t = u64 (table_sum cf_Size m) /\ lt_TotalTransferred t = u64 (table_sum cf_Bytes m)).
Proof.
  intros Ht. destruct (totals_reachable ops env dir id t Ht) as [Hid [_ Hex]]. split; [done|].
  exists (table t). split; [by apply live_counts|]. intros (f & x & Hx & Hd).
  rewrite table_sum_size, table_sum_bytes. apply Hex. by eapply table_unfinished.
Qed.
End LiveTotals.

(** ** What the storage loads *)

Section Stored.
Context {E : Type} `{StorageEnv E}.

Lemma transferred_NoDup l : NoDup (map f_Id l) -> NoDup (map f_Id (filter (fun f => isFileTransferred f = true) l)).
Proof. intros Hn. apply (sublist_NoDup _ _ Hn), (fmap_sublist f_Id), sublist_filter. Qed.

Lemma completed_storable t :
  NoDup (map f_Id (t_Files t)) -> Forall (fun f => isFileCompleted f = true) (t_Files t) -> storable t.
Proof. intros Hn Hc. split; [by apply transferred_NoDup|by left]. Qed.

Lemma norddrop_storable ti :
  NoDup (map f_Id (filesFromTransferInfo ti)) -> storable (norddropTransferToPBTransfer ti).
Proof.
  intros Hnd. unfold norddropTransferToPBTransfer, calculateTotalSizeAndTotalTransferred.
  assert (Hsame : forall st path, storable (mkTransfer (ti_Id ti) (directionFromTransferInfo ti) (ti_Peer ti) st (ti_CreatedAt ti) path
     (filesFromTransferInfo ti) (sum_u64 f_Size (filter (fun f => isFileTransferred f = true) (filesFromTransferInfo ti)))
     (sum_u64 f_Transferred (filter (fun f => isFileTransferred f = true) (filesFromTransferInfo ti))))).
  { intros st path. split; [by apply transferred_NoDup|by right]. }
  unfold determineTransferStatusAndAdjustFileStatuses.
  destruct (last (ti_States ti)) as [[byPeer|status|]|]; try apply Hsame.
  destruct (_ || _); [apply Hsame|]. apply completed_storable; cbn.
  - rewrite map_map. erewrite map_ext; [exact Hnd|]. intros f. cbn. by destruct (isFileCompleted f).
  - rewrite Forall_forall. intros f (x & -> & _)%list_elem_of_fmap. by destruct (isFileCompleted x) eqn:Hx.
Qed.

Lemma history_storable x :
  NoDup (map f_Id (flatten x.2)) ->
  (t_Status x.1 <> Status_REQUESTED -> t_Status x.1 <> Status_ONGOING ->
   Forall (fun f => isFileCompleted f = true) (flatten x.2)) -> storable (history_transfer x).
Proof.
  intros Hnd Hc. unfold history_transfer. cbn. destruct (Z.eqb_spec (t_Status x.1) Status_REQUESTED) as [H1|H1];
    [|destruct (Z.eqb_spec (t_Status x.1) Status_ONGOING) as [H2|H2]]; cbn; apply completed_storable; cbn;
    rewrite ?map_map; try done; try (by apply Hc);
    rewrite Forall_forall; by intros f (y & -> & _)%list_elem_of_fmap.
Qed.

(** What is documented of libdrop and true of the history file: the files of a transfer
    have different identifiers; in the history file a transfer is under its own, and when
    it ended its files are completed. *)
Class StoreLaws (E : Type) `{StorageEnv E} : Prop := {
  libdrop_files_differ e l ti : (norddrop_TransfersSince zero_time e).1 = Ok l -> ti ∈ l ->
    NoDup (map f_Id (filesFromTransferInfo ti));
  history_own_id e l k x : (history_Read e).1 = Ok l -> (k, x) ∈ l -> t_Id x.1 = k;
  history_files_differ e l k x : (history_Read e).1 = Ok l -> (k, x) ∈ l -> NoDup (map f_Id (flatten x.2));
  history_completed e l k x : (history_Read e).1 = Ok l -> (k, x) ∈ l ->
    t_Status x.1 <> Status_REQUESTED -> t_Status x.1 <> Status_ONGOING ->
    Forall (fun f => isFileCompleted f = true) (flatten x.2)
}.

Lemma norddrop_id ti : t_Id (norddropTransferToPBTransfer ti) = ti_Id ti.
Proof. unfold norddropTransferToPBTransfer. by repeat case_match. Qed.

Lemma history_id x : t_Id (history_transfer x) = t_Id x.1.
Proof. unfold history_transfer. by destruct (_ || _). Qed.

Lemma Fileshare_Load_storable `{!StoreLaws E} e m :
  (Fileshare_Load e).1 = Ok m -> map_Forall (fun id t => t_Id t = id /\ storable t) m.
Proof.
  pose proof (fun l ti => libdrop_files_differ e l ti) as Hu. unfold Fileshare_Load, bind, wrapped.
  unfold Fileshare_Load, bind, wrapped.
  destruct (norddrop_TransfersSince zero_time e) as [[l|err] e']; [|done]. intros [= <-].
  assert (Hl : forall ti, ti ∈ l -> NoDup (map f_Id (filesFromTransferInfo ti))) by (intros ti; by apply Hu).
  clear Hu. generalize (map_Forall_empty (fun (id : string) (t : Transfer) => t_Id t = id /\ storable t)).
  generalize (∅ : gmap string Transfer). induction l as [|ti l IH]; intros m0 Hm0; [done|]. cbn. apply IH.
  - intros ti' Hti. apply Hl. by right.
  - apply map_Forall_insert_2; [|done]. split; [apply norddrop_id|]. apply norddrop_storable, Hl. by left.
Qed.

(** What the combined storage loads can be counted: every transfer that is loaded either
    has totals that are the sums over the files that count, or has nothing left to
    transfer, and it is under its own identifier. *)
Lemma stored_transfers_countable `{!StoreLaws E} (e : E) (m : gmap string Transfer) :
  (Combined_Load e).1 = Ok m -> map_Forall (fun id t => t_Id t = id /\ storable t) m.
Proof.
  pose proof (Fileshare_Load_storable e) as Hf. unfold Combined_Load, bind, wrapped, attempt.
  destruct (Fileshare_Load e) as [[lib|err] e1]; [|done]. specialize (Hf lib eq_refl). unfold JsonFile_Load, bind.
  pose proof (fun l k x => history_own_id e1 l k x) as H1. pose proof (fun l k x => history_files_differ e1 l k x) as H2.
  pose proof (fun l k x => history_completed e1 l k x) as H3.
  destruct (history_Read e1) as [[l|err] e2]; cbn; intros [= <-]; [|done].
  apply map_Forall_union_2; [|done]. intros k t Ht%elem_of_list_to_map_2.
  apply list_elem_of_fmap in Ht as ([k' x] & [= -> ->] & Hin). cbn. split; [rewrite history_id; by eapply H1|].
  apply history_storable; [by eapply H2|by eapply H3].
Qed.
End Stored.

(** C25: the totals of a transfer.  Let the service use its own storage, which combines
    what libdrop has with the history file, and let these be as [StoreLaws] says: the
    files of a transfer have different identifiers, and in the history file a transfer
    is under its own and has only completed files once it ended.  Then after any
    requests and events every live transfer is under its own identifier and, as long as
    a file that counts is not done, its total size and its total of transferred bytes
    are, as 64-bit numbers, the sums over the files that count: those that were waiting,
    on their way or successful in the storage when an event first concerned the
    transfer, with the bytes last reported of them, less those that an event has since
    reported as failed or rejected. *)
Theorem live_totals_exact `{FileshareEnv E, !StorageEnv E, !StoreLaws E}
    (ops : list FsOp) (env : E) (dir id : string) (t : LiveTransfer) :
  fse_storage = combined_storage ->
  em_liveTransfers (run_ops fs_op ops (NewEventManager env dir)) !! id = Some t ->
  lt_ID t = id /\ exists m, counts env dir id ops m /\
    ((exists f x, m !! f = Some x /\ cf_Done x = false) ->
     lt_TotalSize t = u64 (table_sum cf_Size m) /\ lt_TotalTransferred t = u64 (table_sum cf_Bytes m)).
Proof.
  intros Hown. apply live_totals. rewrite Hown. apply stored_transfers_countable.
Qed.

(** ** Accepting and downloading *)

Section Downloads.
Context {E : Type} `{FileshareEnv E}.
#[local] Abbreviation F := (M (EventManager E)).

Lemma on_env_run {A} (m : M E A) (s : EventManager E) :
  on_env m s = ((m (em_env s)).1, s <| em_env := (m (em_env s)).2 |>).
Proof. unfold on_env, zoom. by destruct (m (em_env s)). Qed.

(** In a world with the property [I] the directory is one that the user can write to,
    according to the file system. *)
Definition usable_directory (I : E -> Prop) (path : string) : Prop :=
  exists e1 e2 e3 info uid gids, I e1 /\ I e2 /\ I e3 /\
    (filesystem_Lstat path e1).1 = Ok info /\ (osinfo_CurrentUser e2).1 = Ok uid /\
    (osinfo_GetGroupIds uid e3).1 = Ok gids /\
    fi_Symlink info = false /\ fi_IsDir info = true /\ isFileWriteable info uid gids = true.

(** In a world with the property [I] the storage has the transfer. *)
Definition stored (I : E -> Prop) (id : string) (t : Transfer) : Prop :=
  exists e m, I e /\ (storage_Load e).1 = Ok m /\ m !! id = Some t.

(** The transfer that is accepted is the stored one, but for what was transferred. *)
Definition same_request (t st : Transfer) : Prop :=
  t_Direction t = t_Direction st /\ t_Status t = t_Status st /\ map f_Id (t_Files t) = map f_Id (t_Files st).

Lemma live_same_request st live : same_request (updateTransferWithLiveData st live) st.
Proof.
  unfold updateTransferWithLiveData, same_request. destruct (live !! t_Id st) as [l|]; cbn; [|done].
  split_and!; [done..|]. rewrite map_map. apply map_ext. intros x. by destruct (lt_Files l !! f_Id x).
Qed.

Lemma check_transfer_ok t :
  check_transfer t = None -> t_Direction t = Direction_INCOMING /\ t_Status t = Status_REQUESTED.
Proof.
  unfold check_transfer. destruct (Z.eqb_spec (t_Direction t) Direction_INCOMING); [|done].
  destruct (t_Status t =? Status_CANCELED_BY_PEER); [done|]. destruct (t_Status t =? Status_CANCELED); [done|].
  by destruct (Z.eqb_spec (t_Status t) Status_REQUESTED).
Qed.

(** A property of the world that only downloading a file can end. *)
Record quiet (I : E -> Prop) : Prop := {
  q_load : preserves I storage_Load;
  q_purge u : preserves I (storage_PurgeTransfersUntil u);
  q_finalize id : preserves I (fileshare_Finalize id);
  q_peers : preserves I mesh_GetPeers;
  q_lstat p : preserves I (filesystem_Lstat p);
  q_statfs p : preserves I (filesystem_Statfs p);
  q_user : preserves I osinfo_CurrentUser;
  q_groups u : preserves I (osinfo_GetGroupIds u);
  q_notify a b c : preserves I (notifier_SendNotification a b c)
}.

Section Quiet.
Context (I : E -> Prop) (Hq : quiet I).
#[local] Abbreviation J := (fun s : EventManager E => I (em_env s)).

Lemma on_env_quiet {A} (m : M E A) : preserves I m -> preserves J (on_env m).
Proof. intros Hm s Hs. rewrite on_env_run. cbn. by apply Hm. Qed.
Lemma modify_quiet f : (forall s, em_env (f s) = em_env s) -> preserves J (modify f).
Proof. intros Hf. apply preserves_modify. intros s Hs. by rewrite Hf. Qed.
Lemma set_notifications_quiet nm : preserves J (set_notifications nm).
Proof. by apply modify_quiet. Qed.
Lemma put_live_quiet t : preserves J (put_live t).
Proof. by apply modify_quiet. Qed.
Lemma chan_send_quiet ch i : preserves J (chan_send ch i).
Proof. by apply modify_quiet. Qed.
Lemma chan_close_quiet ch : preserves J (chan_close ch).
Proof. by apply modify_quiet. Qed.
#[local] Hint Resolve on_env_quiet set_notifications_quiet put_live_quiet chan_send_quiet chan_close_quiet : pres.
#[local] Hint Extern 1 (preserves I _) =>
  first [ apply (q_load I Hq) | apply (q_purge I Hq) | apply (q_finalize I Hq) | apply (q_peers I Hq)
        | apply (q_lstat I Hq) | apply (q_statfs I Hq) | apply (q_user I Hq) | apply (q_groups I Hq)
        | apply (q_notify I Hq) ] : pres.

Lemma getTransferFromStorage_quiet id : preserves J (getTransferFromStorage id).
Proof. unfold getTransferFromStorage. pres_auto. Qed.
#[local] Hint Resolve getTransferFromStorage_quiet : pres.
Lemma check_directory_quiet a : preserves J (check_directory a).
Proof. unfold check_directory. pres_auto. Qed.
#[local] Hint Resolve check_directory_quiet : pres.
Lemma getTransfer_quiet id : preserves J (getTransfer id).
Proof. unfold getTransfer. pres_auto. Qed.
#[local] Hint Resolve getTransfer_quiet : pres.
Lemma acceptTransfer_quiet a b c : preserves J (acceptTransfer a b c).
Proof. unfold acceptTransfer. pres_auto. Qed.
Lemma getPeerByIP_quiet p : preserves J (getPeerByIP p).
Proof. unfold getPeerByIP, getPeers, getAllPeers. pres_auto. Qed.
Lemma with_notifications_quiet k : (forall nm, preserves J (k nm)) -> preserves J (with_notifications k).
Proof. intros Hk. unfold with_notifications. pres_auto. Qed.
Lemma NotifyFile_quiet a b c : preserves J (NotifyFile a b c).
Proof. unfold NotifyFile. apply with_notifications_quiet. pres_auto. Qed.
Lemma getLiveTransfer_quiet id : preserves J (getLiveTransfer id).
Proof. unfold getLiveTransfer. pres_auto. Qed.
#[local] Hint Resolve acceptTransfer_quiet getPeerByIP_quiet NotifyFile_quiet getLiveTransfer_quiet : pres.
Lemma finalizeTransfer_quiet t st : preserves J (finalizeTransfer t st).
Proof. unfold finalizeTransfer. pres_auto; by apply modify_quiet. Qed.
Lemma finalizeFinished_quiet t : preserves J (finalizeFinishedTransfer t).
Proof. unfold finalizeFinishedTransfer. pres_auto. Qed.
#[local] Hint Resolve finalizeTransfer_quiet finalizeFinished_quiet : pres.

(** No event but a request downloads anything. *)
Lemma event_quiet ev : (forall p id fs, ev <> EventKindRequestReceived p id fs) -> preserves J (OnEvent ev).
Proof.
  intros Hev. destruct ev; cbn [OnEvent]; [by destruct (Hev Peer TransferId Files)|..];
    unfold handleFileProgressEvent, handleTransferFailedEvent, handleTransferFinalizedEvent, handleFileDownloadedEvent,
      handleFileUploadedEvent, handleFileRejectedEvent, handleFileFailedEvent, drop_file, with_live, with_file; pres_auto.
Qed.

Lemma getPeerByIP_found ip s peer s' :
  getPeerByIP ip s = (Ok peer, s') ->
  exists peers, (mesh_GetPeers (em_env s)).1 = Ok (PeersResponse peers) /\
    find (fun p => bool_decide (pb_Ip p = ip)) (pl_External peers ++ pl_Local peers) = Some peer.
Proof.
  unfold getPeerByIP, getPeers, getAllPeers, bind, wrapped. rewrite on_env_run.
  destruct (mesh_GetPeers (em_env s)) as [[r|e] e1]; cbn [fst snd]; [|done].
  destruct r as [| | | | | | | | | | | peers |]; try done. cbn.
  destruct (find _ _) as [p|] eqn:Hf; [|done]. intros [= <- _]. by exists peers.
Qed.

Lemma check_directory_ok path s s' :
  J s -> check_directory path s = (Ok tt, s') -> usable_directory I path.
Proof.
  intros Hj. unfold check_directory, bind, attempt. rewrite on_env_run.
  pose proof (q_lstat I Hq path _ Hj) as H1.
  destruct (filesystem_Lstat path (em_env s)) as [[info|e] e1] eqn:Hl; cbn [fst snd]; [|done].
  destruct (fi_Symlink info) eqn:Hs; [done|]. destruct (fi_IsDir info) eqn:Hd; [|done]. cbn [negb].
  rewrite on_env_run. cbn [em_env set_field snd] in *. pose proof (q_user I Hq _ H1) as H2.
  destruct (osinfo_CurrentUser e1) as [[uid|e] e2] eqn:Hu; cbn [fst snd] in *; [|done].
  rewrite on_env_run. cbn. destruct (osinfo_GetGroupIds uid e2) as [[gids|e] e3] eqn:Hg; cbn [fst snd]; [|done].
  destruct (isFileWriteable info uid gids) eqn:Hw; [|done]. intros _.
  exists (em_env s), e1, e2, info, uid, gids. rewrite Hl, Hu. by rewrite Hg.
Qed.

Lemma getTransfer_ok id s t s' : J s -> getTransfer id s = (Ok t, s') -> exists st, stored I id st /\ same_request t st.
Proof.
  intros Hj. unfold getTransfer, getTransferFromStorage, bind, attempt, gets. rewrite on_env_run.
  destruct (storage_Load (em_env s)) as [[m|e] e1] eqn:Hl; cbn [fst snd]; [|done].
  destruct (m !! id) as [st|] eqn:Hm; [|done]. intros [= <- _]. exists st. split; [|apply live_same_request].
  exists (em_env s), m. by rewrite Hl.
Qed.

Lemma acceptTransfer_ok (id path : string) (paths : list string) (s s' : EventManager E) (t : Transfer) :
  J s -> acceptTransfer id path paths s = (Ok t, s') ->
  usable_directory I path /\ (exists st, stored I id st /\ same_request t st) /\
  t_Direction t = Direction_INCOMING /\ t_Status t = Status_REQUESTED /\
  exists files e bavail bsize, accepted_files t paths = Some files /\ (filesystem_Statfs path e).1 = Ok (bavail, bsize) /\
    sum_u64 f_Size files <= u64 (bavail * u64 bsize).
Proof.
  intros Hs. unfold acceptTransfer. unfold bind at 1. pose proof (check_directory_quiet path s Hs) as H1.
  destruct (check_directory path s) as [[[]|e] s1] eqn:Hd; [|done].
  unfold bind at 1. destruct (getTransfer id s1) as [[t'|e] s2] eqn:Ht; [|done].
  destruct (check_transfer t') eqn:Hc; [done|]. destruct (accepted_files t' paths) as [files|] eqn:Hf; [|done].
  cbv zeta. unfold bind, attempt. rewrite on_env_run.
  destruct (filesystem_Statfs path (em_env s2)) as [[[bavail bsize]|e] e3] eqn:Hst; cbn [fst snd]; [|done].
  destruct (Z.ltb_spec (u64 (bavail * u64 bsize)) (sum_u64 f_Size files)); [done|]. intros [= -> _].
  destruct (check_transfer_ok t Hc).
  split_and!; [exact (check_directory_ok path s s1 Hs Hd)|exact (getTransfer_ok id s1 t s2 H1 Ht)|done|done|].
  exists files, (em_env s2), bavail, bsize. by rewrite Hst.
Qed.

(** The downloads that an event may make: of the files of the transfer that a peer asks
    to send, when the mesh service lists the peer with that address, it may send files
    and its files are always accepted, and the stored transfer is incoming and still
    waiting; they go into the download directory of the service. *)
Definition permitted (ev : EventKind) (s : EventManager E) (id dir file : string) : Prop :=
  exists ip files peers peer st, ev = EventKindRequestReceived ip id files /\
    (mesh_GetPeers (em_env s)).1 = Ok (PeersResponse peers) /\
    find (fun p => bool_decide (pb_Ip p = ip)) (pl_External peers ++ pl_Local peers) = Some peer /\
    pb_DoIAllowFileshare peer = true /\ pb_AlwaysAcceptFiles peer = true /\
    dir = em_defaultDownloadDir s /\ dir <> "" /\ usable_directory I dir /\
    stored I id st /\ t_Direction st = Direction_INCOMING /\ t_Status st = Status_REQUESTED /\
    file ∈ map f_Id (t_Files st).

(** A request downloads only what may be downloaded. *)
Lemma request_quiet ip id files s :
  (forall dir file, permitted (EventKindRequestReceived ip id files) s id dir file -> preserves I (fileshare_Accept id dir file)) ->
  J s -> J (handleRequestReceivedEvent ip id s).2.
Proof.
  intros Hperm Hs. unfold handleRequestReceivedEvent. unfold bind at 1, attempt at 1.
  pose proof (getPeerByIP_quiet ip s Hs) as H1.
  pose proof (getPeerByIP_frame (fun s' => em_defaultDownloadDir s' = em_defaultDownloadDir s)
    (fun e s' H => H) ip s eq_refl) as Hdir. cbn beta in Hdir.
  destruct (getPeerByIP ip s) as [[peer|e] s1] eqn:Hp; [|done].
  cbn [snd] in H1, Hdir. apply getPeerByIP_found in Hp as (peers & Hg & Hf).
  assert (Hk : forall k : F unit, preserves J k -> J (k s1).2) by auto.
  destruct (pb_DoIAllowFileshare peer) eqn:Hd; cbn [negb]; [|apply Hk; pres_auto].
  destruct (pb_AlwaysAcceptFiles peer) eqn:Ha; cbn [negb].
  2: { apply Hk. unfold NotifyNewTransfer. apply with_notifications_quiet. pres_auto. }
  unfold bind at 1, gets at 1. rewrite Hdir. case_bool_decide as Hne; [done|]. unfold bind at 1, attempt.
  pose proof (acceptTransfer_quiet id (em_defaultDownloadDir s) [] s1 H1) as H2.
  destruct (acceptTransfer id (em_defaultDownloadDir s) [] s1) as [[t|e] s2] eqn:Hacc; revert H2; cbn [snd]; generalize s2.
  - apply acceptTransfer_ok in Hacc as (Hu & (st & Hst & Hi1 & Hi2 & Hi3) & Hi & Hr & _); [|done].
    cut (preserves J (forM_ (t_Files t) (fun file => ignore (on_env (fileshare_Accept id (em_defaultDownloadDir s) (f_Id file)))) ;;
      NotifyNewAutoacceptTransfer id (pb_Hostname peer))); [auto|].
    apply preserves_bind.
    + apply preserves_forM_in. intros x Hx. apply preserves_ignore, on_env_quiet, Hperm.
      exists ip, files, peers, peer, st. rewrite <- Hi1, <- Hi2, <- Hi3. split_and!; try done.
      by apply list_elem_of_fmap_2.
    + intros _. unfold NotifyNewAutoacceptTransfer, sendGenericNotification. apply with_notifications_quiet. pres_auto.
  - change (preserves J (NotifyAutoacceptFailed id (pb_Hostname peer) e)).
    unfold NotifyAutoacceptFailed, sendGenericNotification. apply with_notifications_quiet. pres_auto.
Qed.
End Quiet.

(** C27: nothing is downloaded unasked.  Of all properties of the world, every one that
    nothing ends but downloads that are not [permitted] is kept by every event: so the
    only files an event downloads are those of the very transfer that a peer asks to
    send, into the download directory of the service, when the mesh service lists the
    peer with that address, it may send files and its files are always accepted, the
    stored transfer is incoming and still waiting, and the user may write to the
    directory. *)
Theorem downloads_need_permission (I : E -> Prop) (ev : EventKind) (s : EventManager E) :
  quiet I ->
  (forall id dir file, permitted I ev s id dir file -> preserves I (fileshare_Accept id dir file)) ->
  I (em_env s) -> I (em_env (OnEvent ev s).2).
Proof.
  intros Hq Hperm Hs.
  assert (Hother : (forall p id fs, ev <> EventKindRequestReceived p id fs) -> I (em_env (OnEvent ev s).2))
    by (intros; by apply event_quiet).
  destruct ev as [ip id files| | | | | | | | | |]; try (by apply Hother).
  apply (request_quiet I Hq ip id files s); [|done]. intros dir file. apply Hperm.
Qed.

(** Accepting a transfer.  It succeeds only for an incoming transfer that is still
    waiting, into a directory that is no symbolic link and that the user may write to,
    when every given path names a file of it and the files fit into the free space, as
    64-bit numbers. *)
Theorem accept_succeeds_only (id path : string) (paths : list string) (s s' : EventManager E) (t : Transfer) :
  acceptTransfer id path paths s = (Ok t, s') ->
  usable_directory (fun _ => True) path /\ t_Direction t = Direction_INCOMING /\ t_Status t = Status_REQUESTED /\
  exists files e bavail bsize, accepted_files t paths = Some files /\ (filesystem_Statfs path e).1 = Ok (bavail, bsize) /\
    sum_u64 f_Size files <= u64 (bavail * u64 bsize).
Proof.
  intros Hok. apply (acceptTransfer_ok (fun _ => True)) in Hok as (Hd & _ & Ht & Hs & Hx); [done| |done].
  constructor; intros; by apply preserves_True || by intros ? ?.
Qed.
End Downloads.

(** ** The status of a transfer by its files *)

Definition status_in (l : list Status) (f : File) : Prop := f_Status f ∈ l.

Lemma flags_spec files c d e b :
  foldl status_flags (c, d, e, b) files =
  (c && forallb (fun f => f_Status f =? Status_CANCELED) files, d && forallb isFileCompleted files,
   e && forallb (fun f => negb (checkFileHasErrors f)) files,
   b || existsb (fun f => negb (f_Status f =? Status_REQUESTED)) files).
Proof.
  revert c d e b. induction files as [|f files IH]; intros c d e b; cbn.
  - by rewrite !andb_true_r, orb_false_r.
  - by rewrite IH, !andb_assoc, orb_assoc.
Qed.

Lemma completed_spec f : isFileCompleted f = true <-> ~ status_in [Status_REQUESTED; Status_ONGOING; Status_PENDING] f.
Proof.
  unfold isFileCompleted, status_in. rewrite !andb_true_iff, !negb_true_iff, !Z.eqb_neq, !elem_of_cons, elem_of_nil. tauto.
Qed.

Lemma errors_spec f :
  checkFileHasErrors f = true <->
  ~ status_in [Status_SUCCESS; Status_REQUESTED; Status_CANCELED; Status_ONGOING; Status_PENDING] f.
Proof.
  unfold checkFileHasErrors, status_in. rewrite !andb_true_iff, !negb_true_iff, !Z.eqb_neq, !elem_of_cons, elem_of_nil. tauto.
Qed.

Lemma forallb_false {A} (p : A -> bool) l : forallb p l = false <-> exists x, x ∈ l /\ p x = false.
Proof.
  induction l as [|x l IH]; cbn.
  - split; [done|]. by intros (x & Hx%not_elem_of_nil & _).
  - rewrite andb_false_iff, IH. split.
    + intros [Hp|(y & Hy & Hp)]; [exists x; split; [by left|done]|exists y; split; [by right|done]].
    + intros (y & [->|Hy]%elem_of_cons & Hp); eauto.
Qed.
Lemma forallb_true {A} (p : A -> bool) l : forallb p l = true <-> forall x, x ∈ l -> p x = true.
Proof. rewrite forallb_forall. setoid_rewrite list_elem_of_In. done. Qed.
Lemma existsb_true {A} (p : A -> bool) l : existsb p l = true <-> exists x, x ∈ l /\ p x = true.
Proof. rewrite existsb_exists. by setoid_rewrite list_elem_of_In. Qed.
Lemma existsb_all_false {A} (p : A -> bool) l : existsb p l = false <-> forall x, x ∈ l -> p x = false.
Proof.
  rewrite <- not_true_iff_false, existsb_true. split.
  - intros Hn x Hx. apply not_true_iff_false. eauto.
  - intros Hf (x & Hx & Hp). rewrite Hf in Hp; done.
Qed.

(** What a status says of the files. *)
Inductive status_of_files (files : list File) : Status -> Prop :=
| all_canceled : (forall f, f ∈ files -> status_in [Status_CANCELED] f) -> status_of_files files Status_CANCELED
| succeeded f : f ∈ files -> status_in [Status_SUCCESS] f ->
    (forall f, f ∈ files -> status_in [Status_SUCCESS; Status_CANCELED] f) -> status_of_files files Status_SUCCESS
| had_errors f : f ∈ files -> ~ status_in [Status_SUCCESS; Status_CANCELED] f ->
    (forall f, f ∈ files -> ~ status_in [Status_REQUESTED; Status_ONGOING; Status_PENDING] f) ->
    status_of_files files Status_FINISHED_WITH_ERRORS
| under_way f g : f ∈ files -> status_in [Status_REQUESTED; Status_ONGOING; Status_PENDING] f ->
    g ∈ files -> ~ status_in [Status_REQUESTED] g -> status_of_files files Status_ONGOING
| all_waiting f : f ∈ files -> (forall f, f ∈ files -> status_in [Status_REQUESTED] f) ->
    status_of_files files Status_REQUESTED.

Lemma status_in_cons s l f : status_in (s :: l) f <-> f_Status f = s \/ status_in l f.
Proof. apply elem_of_cons. Qed.
Lemma status_in_nil f : status_in [] f <-> False.
Proof. apply elem_of_nil. Qed.

(** Facts about a status in a list, as equations. *)
Ltac statuses :=
  repeat match goal with
  | H : context [status_in] |- _ => progress rewrite ?status_in_cons, ?status_in_nil in H
  | |- context [status_in] => progress rewrite ?status_in_cons, ?status_in_nil
  end.

Lemma canceled_false f : (f_Status f =? Status_CANCELED) = false <-> ~ status_in [Status_CANCELED] f.
Proof. statuses. rewrite Z.eqb_neq. tauto. Qed.
Lemma canceled_true f : (f_Status f =? Status_CANCELED) = true <-> status_in [Status_CANCELED] f.
Proof. statuses. rewrite Z.eqb_eq. tauto. Qed.
Lemma completed_false f :
  isFileCompleted f = false <-> status_in [Status_REQUESTED; Status_ONGOING; Status_PENDING] f.
Proof.
  unfold isFileCompleted. rewrite !andb_false_iff, !negb_false_iff, !Z.eqb_eq. statuses. tauto.
Qed.

Lemma errors_false f :
  checkFileHasErrors f = false <->
  status_in [Status_SUCCESS; Status_REQUESTED; Status_CANCELED; Status_ONGOING; Status_PENDING] f.
Proof.
  unfold checkFileHasErrors. rewrite !andb_false_iff, !negb_false_iff, !Z.eqb_eq. statuses. tauto.
Qed.

(** The status that is calculated is right. *)
Lemma status_by_files_sound files : status_of_files files (getTransferStatusByFiles files).
Proof.
  unfold getTransferStatusByFiles. rewrite flags_spec. cbn [andb orb].
  destruct (forallb (fun f => f_Status f =? Status_CANCELED) files) eqn:Hc.
  { rewrite forallb_true in Hc. apply all_canceled. intros f Hf. by apply canceled_true, Hc. }
  apply forallb_false in Hc as (g & Hg & Hgc%canceled_false).
  destruct (forallb isFileCompleted files) eqn:Hd; cbn [andb].
  - rewrite forallb_true in Hd. destruct (forallb (fun f => negb (checkFileHasErrors f)) files) eqn:He; cbn [negb].
    + rewrite forallb_true in He.
      assert (Hall : forall f, f ∈ files -> status_in [Status_SUCCESS; Status_CANCELED] f).
      { intros f Hf. specialize (Hd f Hf). specialize (He f Hf). apply completed_spec in Hd.
        apply negb_true_iff, errors_false in He. statuses. tauto. }
      apply (succeeded _ g); [done| |done]. specialize (Hall g Hg). statuses. tauto.
    + apply forallb_false in He as (f & Hf & He%negb_false_iff%errors_spec).
      apply (had_errors _ f); [done|statuses; tauto|]. intros f' Hf'. by apply completed_spec, Hd.
  - apply forallb_false in Hd as (f & Hf & Hfd%completed_false).
    destruct (existsb (fun f => negb (f_Status f =? Status_REQUESTED)) files) eqn:Hs.
    + apply existsb_true in Hs as (h & Hh & Hr%negb_true_iff%Z.eqb_neq).
      apply (under_way _ f h); try done. statuses. tauto.
    + rewrite existsb_all_false in Hs. apply (all_waiting _ f); [done|]. intros h Hh. specialize (Hs h Hh).
      apply negb_false_iff, Z.eqb_eq in Hs. statuses. tauto.
Qed.

(** No two statuses are right. *)
Lemma status_of_files_unique files a b : status_of_files files a -> status_of_files files b -> a = b.
Proof.
  intros Ha Hb.
  destruct Ha as [Ha|f Hf Hs Ha|f Hf Hs Ha|f g Hf Hs Hg Ht|f Hf Ha];
  destruct Hb as [Hb|f' Hf' Hs' Hb|f' Hf' Hs' Hb|f' g' Hf' Hs' Hg' Ht'|f' Hf' Hb]; try done; exfalso;
  repeat match goal with
  | H : forall f, f ∈ files -> @?P f, H' : ?x ∈ files |- _ =>
      let T := eval cbv beta in (P x) in lazymatch goal with _ : T |- _ => fail | _ => pose proof (H x H') end
  end; clear Ha Hb || clear Ha || clear Hb || idtac; statuses;
  unfold Status_CANCELED, Status_SUCCESS, Status_REQUESTED, Status_ONGOING, Status_PENDING in *; lia.
Qed.

(** C28: the status of a transfer by its files.  It is canceled exactly when all files
    are; successful when some file succeeded and the others were canceled; finished
    with errors when no file is waiting or on its way and one neither succeeded nor was
    canceled; ongoing when one is waiting or on its way and one is past waiting; and
    requested when there are files and all wait. *)
Theorem status_by_files (files : list File) (st : Status) :
  getTransferStatusByFiles files = st <-> status_of_files files st.
Proof.
  split; [intros <-; apply status_by_files_sound|]. intros Hst. eapply status_of_files_unique, Hst.
  apply status_by_files_sound.
Qed.

(** A paused file counts as one with errors. *)
Example paused_counts_as_error :
  getTransferStatusByFiles [mkFile "a" "a" "a" 1 1 Status_SUCCESS; mkFile "b" "b" "b" 1 0 Status_PAUSED] =
  Status_FINISHED_WITH_ERRORS.
Proof. reflexivity. Qed.

(** The codes of events are those of libdrop, not of [pb.Status]: a bad transfer is
    shown as a transport problem and an error of the disk as a bad transfer. *)
Example event_codes_misread :
  fileStatusToNotificationSummary Direction_INCOMING StatusCodeBadTransfer = "transport problem" /\
  fileStatusToNotificationSummary Direction_INCOMING StatusCodeIoError = "bad transfer".
Proof. split; vm_compute; reflexivity. Qed.

(** ** Listing *)

Lemma chunks_spec fuel size l :
  (0 < size)%nat -> (length l < fuel)%nat ->
  exists cs, chunks fuel size l = Some cs /\ concat cs = l /\ Forall (fun c => (0 < length c <= size)%nat) cs.
Proof.
  intros Hs. revert l. induction fuel as [|fuel IH]; intros l Hl; [lia|]. cbn [chunks].
  destruct l as [|x l]; [by exists []|]. destruct (Nat.ltb_spec (length (x :: l)) size) as [Hlt|Hge].
  - exists [x :: l]. split_and!; [done|cbn; by rewrite app_nil_r|]. constructor; [cbn in *; lia|constructor].
  - destruct (IH (drop size (x :: l))) as (cs & -> & Hc & Hf); [rewrite length_drop; cbn in *; lia|].
    exists (take size (x :: l) :: cs). split_and!; [done|cbn [concat]; rewrite Hc; apply take_drop|].
    constructor; [rewrite length_take; cbn in *; lia|done].
Qed.

(** The list of transfers.  With a positive size of the chunks the loop ends, the
    chunks one after the other are the list, and none is empty or too long; with size
    zero and something to list it never ends. *)
Theorem list_chunks (size : nat) (l : list Transfer) :
  ((0 < size)%nat -> exists cs, chunks (S (length l)) size l = Some cs /\ concat cs = l /\
                              Forall (fun c => (0 < length c <= size)%nat) cs) /\
  (l <> [] -> forall fuel, chunks fuel 0 l = None).
Proof.
  split; [intros Hs; apply chunks_spec; [done|lia]|]. intros Hl fuel. induction fuel as [|fuel IH]; [done|].
  cbn [chunks]. destruct l as [|x l]; [done|]. cbn [length Nat.ltb Nat.leb]. cbn [drop]. by rewrite IH.
Qed.

(** ** The end of a transfer *)

Section Ends.
Context {E : Type} `{FileshareEnv E}.

Lemma with_live_live id k (t : LiveTransfer) (s : EventManager E) :
  em_liveTransfers s !! id = Some t -> with_live id k s = k t s.
Proof. intros Hl. unfold with_live, getLiveTransfer, bind, attempt, gets. by rewrite Hl. Qed.

Lemma finalizeTransfer_run id (t : LiveTransfer) st (s : EventManager E) live subs sent :
  lt_ID t = id -> em_liveTransfers s = live -> em_transferSubscriptions s = subs -> em_sent s = sent ->
  let s' := (finalizeTransfer t st s).2 in
  em_liveTransfers s' = delete id live /\ em_transferSubscriptions s' = delete id subs /\
  em_sent s' = sent ++ match subs !! id with
                       | Some ch => [(ch, Some (mkProgress id 0 st)); (ch, None)]
                       | None => []
                       end.
Proof.
  intros <- <- <- <-. unfold finalizeTransfer, bind, gets, chan_send, chan_close, modify, ret.
  destruct (em_transferSubscriptions s !! lt_ID t) as [ch|] eqn:Hch; cbn.
  - by rewrite <- app_assoc.
  - by rewrite (delete_id (em_transferSubscriptions s)), app_nil_r.
Qed.

(** The end of a transfer.  When libdrop reports that a transfer is final, and the
    storage can be read, it is no longer live, its subscriber gets one last status and
    the closing and is forgotten, and nothing else of the live state changes.  The
    status is the stored one when every file had finished, and that it was canceled,
    and by whom, otherwise. *)
Theorem finalized_transfer_forgotten (id : string) (byPeer : bool) (s : EventManager E) (t : LiveTransfer) (m : gmap string Transfer) (st : Transfer) :
  em_liveTransfers s !! id = Some t -> lt_ID t = id ->
  (storage_Load (em_env s)).1 = Ok m -> m !! id = Some st ->
  let s' := (OnEvent (EventKindTransferFinalized id byPeer) s).2 in
  let status := if isLiveTransferFinished t then t_Status st
                else if byPeer then Status_CANCELED_BY_PEER else Status_CANCELED in
  em_liveTransfers s' = delete id (em_liveTransfers s) /\
  em_transferSubscriptions s' = delete id (em_transferSubscriptions s) /\
  em_sent s' = em_sent s ++ match em_transferSubscriptions s !! id with
                            | Some ch => [(ch, Some (mkProgress id 0 status)); (ch, None)]
                            | None => []
                            end.
Proof.
  intros Hl Hid Hm Hst. cbn [OnEvent]. unfold handleTransferFinalizedEvent. rewrite (with_live_live _ _ t) by done.
  destruct (isLiveTransferFinished t).
  - unfold bind, attempt. unfold getTransferFromStorage, bind, attempt. rewrite on_env_run, Hm. cbn [fst snd]. rewrite Hst.
    apply (finalizeTransfer_run id t _ (s <| em_env := _ |>)); done.
  - apply (finalizeTransfer_run id t _ s); done.
Qed.

(** A failed transfer is not reported.  The translation of libdrop's event drops the
    identifier, so unless there is a transfer with the empty identifier the event
    changes nothing: the transfer stays live, and its subscriber is neither told nor
    does its stream end. *)
Theorem failed_transfer_unreported (id : string) (code : StatusCode) (s : EventManager E) :
  em_liveTransfers s !! "" = None ->
  (forall m, (storage_Load (em_env s)).1 = Ok m -> m !! "" = None) ->
  let s' := (OnEvent (toInternalEventKind (EventKindTransferFailed id code)) s).2 in
  em_liveTransfers s' = em_liveTransfers s /\ em_transferSubscriptions s' = em_transferSubscriptions s /\
  em_sent s' = em_sent s.
Proof.
  intros Hl Hm. cbn [toInternalEventKind OnEvent]. unfold handleTransferFailedEvent, with_live, getLiveTransfer.
  unfold bind, attempt, gets. rewrite Hl. unfold getTransferFromStorage, bind, attempt. rewrite on_env_run.
  destruct (storage_Load (em_env s)) as [[m|e] e'] eqn:Hs; cbn [fst snd] in *; [|done]. by rewrite (Hm m eq_refl).
Qed.
End Ends.

(** ** A world in memory *)

Module Desk.

Definition file_a : File := mkFile "a" "dir/a" "/home/user/Downloads/dir/a" 100 0 Status_REQUESTED.
Definition file_b : File := mkFile "b" "dir/b" "/home/user/Downloads/dir/b" 50 0 Status_REQUESTED.
Definition incoming : Transfer :=
  mkTransfer "t" Direction_INCOMING "10.5.0.2" Status_REQUESTED 1000 "" [file_a; file_b] 150 0.
Definition friend : PbPeer :=
  (Machine_ToProtobuf zero_machine) <| pb_Ip := "10.5.0.2" |> <| pb_DoIAllowFileshare := true |>
    <| pb_AlwaysAcceptFiles := true |>.

(** The storage always has the one transfer; what is downloaded is recorded. *)
Record World : Type := mkWorld { w_downloads : list (string * string * string) }.

#[local] Instance created_dec (a b : Transfer) : Decision ((fun a b => t_Created a <= t_Created b) a b).
Proof. apply Z_le_dec. Defined.

Definition desk_with (storage : Storage World) : FileshareEnv World := {|
  fse_storage := storage;
  fileshare_Send _ _ := ret "t";
  fileshare_Accept id dir file := modify (fun w => mkWorld (w_downloads w ++ [(id, dir, file)]));
  fileshare_Finalize _ := ret tt;
  fileshare_CancelFile _ _ := ret tt;
  mesh_IsEnabled := ret true;
  mesh_GetPeers := ret (PeersResponse (mkPeerList None [friend] []));
  mesh_NotifyNewTransfer _ _ _ _ := ret tt;
  filesystem_Stat _ := ret false;
  filesystem_ReadDir _ := ret [];
  filesystem_Lstat _ := ret (mkFileInfo false true 493 (Some (1000, 1000)));
  filesystem_Statfs _ := ret (1000, 4096);
  osinfo_CurrentUser := ret "1000";
  osinfo_GetGroupIds _ := ret ["1000"];
  notifier_New := ret tt;
  notifier_SendNotification _ _ _ := ret 1;
  notifier_Close := ret tt;
  download_directory := ret "/home/user/Downloads";
  open_file _ := ret tt;
  srv_Send _ := ret tt;
  srv_SendList _ := ret tt;
  shutdown_send := ret tt;
  range_ids l := l;
  sort_transfers := merge_sort (fun a b => t_Created a <= t_Created b)
|}.
#[export] Instance desk : FileshareEnv World :=
  desk_with {| storage_Load := ret {["t" := incoming]}; storage_PurgeTransfersUntil _ := ret tt |}.

Definition start0 : EventManager World := NewEventManager (mkWorld []) "/home/user/Downloads".
Definition request : EventKind := EventKindRequestReceived "10.5.0.2" "t" [].
Definition ops0 : list FsOp :=
  [FsEvent request; FsAccept (mkAcceptRequest "t" "/home/user/Downloads" false ["dir/a"]);
   FsEvent (EventKindFileProgress "t" "a" 40); FsEvent (EventKindFileRejected "t" "b" false);
   FsEvent (EventKindFileProgress "t" "a" 70)].
Definition after0 : EventManager World := run_ops fs_op ops0 start0.
Definition live0 : LiveTransfer :=
  mkLiveTransfer "t" Direction_INCOMING 100 70 {["a" := mkLiveFile "a" "/home/user/Downloads/dir/a" 100 70 false]}.

(** All of the request was downloaded, and the progress was 26 and 70 percent. *)
Example request_downloaded : w_downloads (em_env after0) = [("t", "/home/user/Downloads", "a"); ("t", "/home/user/Downloads", "b"); ("t", "/home/user/Downloads", "a")].
Proof. vm_compute. reflexivity. Qed.
Example progress_reported :
  em_sent after0 = [(0%nat, Some (mkProgress "t" 26 Status_ONGOING)); (0%nat, Some (mkProgress "t" 70 Status_ONGOING))].
Proof. vm_compute. reflexivity. Qed.

Lemma accept_succeeds_only_witness : usable_directory (E := World) (fun _ => True) "/tmp" /\ t_Status incoming = Status_REQUESTED.
Proof.
  destruct (accept_succeeds_only (E := World) "t" "/tmp" ["dir/a"] start0 start0 incoming) as (Hd & _ & Hs & _).
  - vm_compute. reflexivity.
  - split; [exact Hd|exact Hs].
Defined.

(** Everything downloaded is a file of the request, in the download directory. *)
Definition only_requested (w : World) : Prop :=
  forall x, x ∈ w_downloads w -> x = ("t", "/home/user/Downloads", "a") \/ x = ("t", "/home/user/Downloads", "b").
Lemma only_requested_quiet : quiet only_requested.
Proof. constructor; intros; by intros w Hw. Qed.

Lemma downloads_need_permission_witness : only_requested (em_env (OnEvent request start0).2).
Proof.
  apply (downloads_need_permission only_requested request start0 only_requested_quiet).
  - intros id dir file (ip & files & peers & peer & st & [= <- <- <-] & _ & _ & _ & _ & -> & _ & _ & (e & m & _ & [= <-] & Hst) & _ & _ & Hf).
    apply lookup_singleton_Some in Hst as [_ <-]. intros w Hw x. cbn.
    intros [Hx| ->%list_elem_of_singleton]%elem_of_app; [by apply Hw|]. cbn in Hf.
    apply elem_of_cons in Hf as [-> | ->%list_elem_of_singleton]; [by left|by right].
  - intros x Hx. cbn in Hx. by apply not_elem_of_nil in Hx.
Defined.

Lemma finalized_transfer_forgotten_witness :
  em_liveTransfers (OnEvent (EventKindTransferFinalized "t" true) after0).2 = delete "t" (em_liveTransfers after0).
Proof.
  apply (finalized_transfer_forgotten (E := World) "t" true after0 live0 {["t" := incoming]} incoming);
    vm_compute; reflexivity.
Defined.

Lemma failed_transfer_unreported_witness :
  em_sent (OnEvent (toInternalEventKind (EventKindTransferFailed "t" StatusCodeIoError)) after0).2 = em_sent after0.
Proof.
  apply (failed_transfer_unreported (E := World) "t" StatusCodeIoError after0).
  - vm_compute. reflexivity.
  - intros m [= <-]. vm_compute. reflexivity.
Defined.

(** A storage with one transfer of libdrop and one of the history file. *)
Definition info : TransferInfo :=
  mkTransferInfo "t" 1000 "10.5.0.2"
    (TransferIncoming [mkIncomingPath "a" "dir/a" 100 [IncomingStarted 30]; mkIncomingPath "b" "dir/b" 50 []]) [].
Definition old : Transfer * list FileTree :=
  (mkTransfer "o" Direction_OUTGOING "10.5.0.3" Status_ONGOING 500 "/tmp" [] 7 7, [FileNode (mkFile "x" "" "" 7 7 Status_ONGOING) []]).
#[export] Instance shelf : StorageEnv World := {|
  norddrop_TransfersSince _ := ret [info];
  norddrop_PurgeTransfersUntil _ := ret tt;
  history_Read := ret [("o", old)];
  history_ModTime := ret 0;
  history_Remove := ret tt
|}.
#[export] Instance shelf_laws : StoreLaws World.
Proof.
  split; cbn.
  - intros e l ti [= <-] ->%list_elem_of_singleton. apply NoDup_cons. split; [|apply NoDup_singleton].
    intros Hin%list_elem_of_singleton. discriminate Hin.
  - by intros e l k x [= <-] [= -> ->]%list_elem_of_singleton.
  - intros e l k x [= <-] [= -> ->]%list_elem_of_singleton. apply NoDup_singleton.
  - by intros e l k x [= <-] [= -> ->]%list_elem_of_singleton.
Qed.

(** The service on that storage; file [b] is rejected while [a] is on its way. *)
Definition own_desk : FileshareEnv World := desk_with combined_storage.
Definition own_ops : list FsOp :=
  [FsEvent (EventKindFileProgress "t" "a" 40); FsEvent (EventKindFileRejected "t" "b" false);
   FsEvent (EventKindFileProgress "t" "a" 70)].
Definition own_live : LiveTransfer :=
  mkLiveTransfer "t" Direction_INCOMING 100 70 {["a" := mkLiveFile "a" "dir/a" 100 70 false]}.

Lemma live_totals_exact_witness :
  lt_ID own_live = "t" /\ exists m, counts (H0 := own_desk) (mkWorld []) "/home/user/Downloads" "t" own_ops m /\
    ((exists f x, m !! f = Some x /\ cf_Done x = false) ->
     lt_TotalSize own_live = u64 (table_sum cf_Size m) /\ lt_TotalTransferred own_live = u64 (table_sum cf_Bytes m)).
Proof.
  apply (live_totals_exact (H0 := own_desk)); [reflexivity|]. vm_compute. reflexivity.
Defined.
End Desk.
