(* ===== verification/GoText.v ===== *)
(** * GoText: white space and lines of a text

    What the code uses of Go's [strings] and [bytes] packages beyond GoLib:
    [TrimSpace], [Fields] and [HasSuffix] on the bytes of a text, and how splitting
    into lines and joining them fit together.  White space is that of Unicode, as the
    bytes of its encoding. *)

From stdpp Require Import base option list strings.
From Stdlib Require Import ZArith Ascii Lia.
From S2P Require Import Prelude GoLib.

Open Scope Z_scope.

(** ** White space *)

Definition ascii_space (a : ascii) : bool :=
  let n := nat_of_ascii a in (n =? 32)%nat || ((9 <=? n) && (n <=? 13))%nat.

(** U+0085 and U+00A0. *)
Definition space2 (a b : ascii) : bool :=
  let m := nat_of_ascii b in (nat_of_ascii a =? 194)%nat && ((m =? 133) || (m =? 160))%nat.

(** U+1680, U+2000 to U+200A, U+2028, U+2029, U+202F, U+205F and U+3000. *)
Definition space3 (a b c : ascii) : bool :=
  let '(x, y, z) := (nat_of_ascii a, nat_of_ascii b, nat_of_ascii c) in
  ((x =? 225) && (y =? 154) && (z =? 128) ||
   (x =? 226) && (y =? 128) && ((128 <=? z) && (z <=? 138) || (z =? 168) || (z =? 169) || (z =? 175)) ||
   (x =? 226) && (y =? 129) && (z =? 159) ||
   (x =? 227) && (y =? 128) && (z =? 128))%nat.

Fixpoint trim_space_left (s : string) : string :=
  match s with
  | EmptyString => EmptyString
  | String a s1 =>
      if ascii_space a then trim_space_left s1
      else match s1 with
           | EmptyString => s
           | String b s2 =>
               if space2 a b then trim_space_left s2
               else match s2 with
                    | EmptyString => s
                    | String c s3 => if space3 a b c then trim_space_left s3 else s
                    end
           end
  end.

(** Only white space. *)
Definition blank (s : string) : bool :=
  match trim_space_left s with EmptyString => true | _ => false end.

(** The white space at the end starts where the rest is blank. *)
Fixpoint trim_space_right (s : string) : string :=
  match s with
  | EmptyString => EmptyString
  | String a s' => if blank s then EmptyString else String a (trim_space_right s')
  end.

Definition TrimSpace (s : string) : string := trim_space_right (trim_space_left s).

(** [strings.Fields]: the words between white space; [word] is the current one. *)
Fixpoint fields_from (word : string) (s : string) : list string :=
  let flush rest := if bool_decide (word = EmptyString) then rest else word :: rest in
  match s with
  | EmptyString => flush []
  | String a s1 =>
      if ascii_space a then flush (fields_from EmptyString s1)
      else match s1 with
           | EmptyString => fields_from (word +:+ String a EmptyString) s1
           | String b s2 =>
               if space2 a b then flush (fields_from EmptyString s2)
               else match s2 with
                    | EmptyString => fields_from (word +:+ String a EmptyString) s1
                    | String c s3 =>
                        if space3 a b c then flush (fields_from EmptyString s3)
                        else fields_from (word +:+ String a EmptyString) s1
                    end
           end
  end.
Definition strings_Fields (s : string) : list string := fields_from EmptyString s.

(** [strings.HasSuffix] and [bytes.HasSuffix]. *)
Definition has_suffix (s suf : string) : bool :=
  (String.length suf <=? String.length s)%nat &&
  bool_decide (drop_str (String.length s - String.length suf) s = suf).

(** ** Trimming *)

(** Induction in steps of at most three bytes. *)
Lemma string_ind3 (P : string -> Prop) :
  P EmptyString ->
  (forall a s, P s -> (forall b t, s = String b t -> P t) ->
     (forall b c t, s = String b (String c t) -> P t) -> P (String a s)) ->
  forall s, P s.
Proof.
  intros H0 Hs. enough (forall s, P s /\ (forall b t, s = String b t -> P t) /\
    (forall b c t, s = String b (String c t) -> P t)) as H by apply H.
  induction s as [|a s (IH & IH1 & IH2)]; [done|]. split_and!; [by apply Hs| |].
  - by intros b t [= -> ->].
  - intros b c t [= -> ->]. by eapply IH1.
Qed.

Lemma string_app_cons a s t : String a s +:+ t = String a (s +:+ t).
Proof. done. Qed.
Lemma string_app_nil_l (s : string) : EmptyString +:+ s = s.
Proof. done. Qed.
Lemma string_app_nil_r (s : string) : s +:+ EmptyString = s.
Proof. induction s as [|a s IH]; [done|]. by rewrite string_app_cons, IH. Qed.

Lemma str_app_assoc (a b c : string) : (a +:+ b) +:+ c = a +:+ (b +:+ c).
Proof. induction a as [|x a IH]; [done|]. by rewrite !string_app_cons, IH. Qed.

(** One step of trimming on the left, as cases. *)
Inductive trim_step (a : ascii) (s : string) : Prop :=
| TrimOne : ascii_space a = true -> trim_step a s
| TrimTwo b t : s = String b t -> ascii_space a = false -> space2 a b = true -> trim_step a s
| TrimThree b c t : s = String b (String c t) -> ascii_space a = false -> space2 a b = false ->
    space3 a b c = true -> trim_step a s
| TrimNone : ascii_space a = false -> (forall b t, s = String b t -> space2 a b = false) ->
    (forall b c t, s = String b (String c t) -> space3 a b c = false) -> trim_step a s.

Lemma trim_step_total a s : trim_step a s.
Proof.
  destruct (ascii_space a) eqn:H1; [by constructor|]. destruct s as [|b s]; [by apply TrimNone|].
  destruct (space2 a b) eqn:H2; [by eapply TrimTwo|]. destruct s as [|c s].
  { apply TrimNone; [done| |done]. by intros ?? [= <- <-]. }
  destruct (space3 a b c) eqn:H3; [by eapply TrimThree|].
  apply TrimNone; [done| |]; [by intros ?? [= <- <-]|by intros ??? [= <- <- <-]].
Qed.

Lemma trim_left_none a s :
  ascii_space a = false -> (forall b t, s = String b t -> space2 a b = false) ->
  (forall b c t, s = String b (String c t) -> space3 a b c = false) -> trim_space_left (String a s) = String a s.
Proof.
  intros H1 H2 H3. cbn [trim_space_left]. rewrite H1. destruct s as [|b s]; [done|]. rewrite (H2 b s eq_refl).
  destruct s as [|c s]; [done|]. by rewrite (H3 b c s eq_refl).
Qed.

Lemma trim_left_one a s : ascii_space a = true -> trim_space_left (String a s) = trim_space_left s.
Proof. intros H1. cbn [trim_space_left]. by rewrite H1. Qed.

Lemma trim_left_two a b s :
  ascii_space a = false -> space2 a b = true -> trim_space_left (String a (String b s)) = trim_space_left s.
Proof. intros H1 H2. cbn [trim_space_left]. by rewrite H1, H2. Qed.

Lemma trim_left_three a b c s :
  ascii_space a = false -> space2 a b = false -> space3 a b c = true ->
  trim_space_left (String a (String b (String c s))) = trim_space_left s.
Proof. intros H1 H2 H3. cbn [trim_space_left]. by rewrite H1, H2, H3. Qed.

(** Prove a statement about trimming by cases on what is trimmed first. *)
Ltac trim_induction s :=
  let a := fresh "a" in let IH := fresh "IH" in let IH1 := fresh "IH1" in let IH2 := fresh "IH2" in
  induction s as [|a s IH IH1 IH2] using string_ind3;
  [|destruct (trim_step_total a s) as [H1|b t -> H1 H2|b c t -> H1 H2 H3|H1 H2 H3];
    [|specialize (IH1 b t eq_refl)|specialize (IH2 b c t eq_refl)|]];
  rewrite ?string_app_cons; rewrite ?trim_left_one, ?trim_left_two, ?trim_left_three by assumption.

Lemma trim_left_blank_app u w : blank u = true -> trim_space_left (u +:+ w) = trim_space_left w.
Proof.
  unfold blank. trim_induction u; [done|auto..|]. by rewrite trim_left_none.
Qed.

Lemma newline_no_part b :
  space2 b newline = false /\ (forall c, space3 b newline c = false) /\ (forall c, space3 b c newline = false).
Proof.
  unfold space2, space3. change (nat_of_ascii newline) with 10%nat. cbn [Nat.eqb Nat.leb]. split_and!.
  - by rewrite andb_false_r.
  - intros c. by rewrite !andb_false_r.
  - intros c. by rewrite !andb_false_r.
Qed.

(** A newline at the end is white space of its own. *)
Lemma trim_left_newline s :
  trim_space_left (s +:+ newline_str) = if blank s then EmptyString else trim_space_left s +:+ newline_str.
Proof.
  unfold blank. trim_induction s; [done|auto..|]. rewrite !trim_left_none; [done|done|done|done|done| |].
  - intros b t Hs. destruct s as [|d s]; [|by injection Hs as -> <-; eauto].
    injection Hs as <- <-. apply (newline_no_part a).
  - intros b c t Hs. destruct s as [|d [|e s]].
    + done.
    + injection Hs as <- <- <-. apply (newline_no_part a).
    + injection Hs as -> -> <-. eauto.
Qed.

Lemma blank_newline s : blank (s +:+ newline_str) = blank s.
Proof.
  unfold blank at 1. rewrite trim_left_newline. unfold blank. by destruct (trim_space_left s).
Qed.

Lemma trim_right_newline s : trim_space_right (s +:+ newline_str) = trim_space_right s.
Proof.
  induction s as [|a s IH]; [done|]. rewrite string_app_cons. cbn [trim_space_right].
  rewrite <- string_app_cons, blank_newline, IH. done.
Qed.

Lemma TrimSpace_newline s : TrimSpace (s +:+ newline_str) = TrimSpace s.
Proof.
  unfold TrimSpace. rewrite trim_left_newline. destruct (blank s) eqn:Hb; [|apply trim_right_newline].
  unfold blank in Hb. by destruct (trim_space_left s).
Qed.

Lemma trim_left_idem s : trim_space_left (trim_space_left s) = trim_space_left s.
Proof. trim_induction s; [done..|]. by rewrite !trim_left_none. Qed.

(** What was trimmed on the right is blank. *)
Lemma trim_right_split s : exists w, s = trim_space_right s +:+ w /\ blank w = true.
Proof.
  induction s as [|a s (w & Hs & Hw)]; [by exists EmptyString|]. cbn [trim_space_right].
  destruct (blank (String a s)) eqn:Hb; [by exists (String a s)|]. exists w. split; [|done].
  rewrite string_app_cons. by f_equal.
Qed.

Lemma blank_app u w : blank u = true -> blank (u +:+ w) = blank w.
Proof. intros Hu. unfold blank. by rewrite trim_left_blank_app. Qed.

Lemma trim_right_idem s : trim_space_right (trim_space_right s) = trim_space_right s.
Proof.
  induction s as [|a s IH]; [done|]. pose proof (trim_right_split (String a s)) as (w & Hs & Hw).
  cbn [trim_space_right] in *. destruct (blank (String a s)) eqn:Hb; [done|]. cbn [trim_space_right]. rewrite IH.
  destruct (blank (String a (trim_space_right s))) eqn:Hb'; [|done].
  rewrite Hs, blank_app, Hw in Hb by done. done.
Qed.

(** A part of a text that does not start with white space does not either. *)
Lemma trim_left_prefix u w : trim_space_left (u +:+ w) = u +:+ w -> trim_space_left u = u.
Proof.
  destruct u as [|a u]; [done|]. rewrite string_app_cons. intros Heq.
  assert (forall v, trim_space_left v <> String a (u +:+ w) \/ (String.length (u +:+ w) < String.length v)%nat) as Hlen.
  { intros v. destruct (decide (trim_space_left v = String a (u +:+ w))) as [Hv|]; [right|by left].
    assert (Hle : (String.length (trim_space_left v) <= String.length v)%nat).
    { clear. trim_induction v; cbn [String.length] in *; [cbn; lia|lia..|]. by rewrite trim_left_none. }
    rewrite Hv in Hle. cbn [String.length] in Hle. lia. }
  apply trim_left_none.
  - destruct (ascii_space a) eqn:H1; [|done]. rewrite trim_left_one in Heq by done.
    destruct (Hlen (u +:+ w)); [done|lia].
  - intros b t ->. destruct (ascii_space a) eqn:H1.
    { rewrite trim_left_one in Heq by done. destruct (Hlen (String b t +:+ w)); [done|lia]. }
    destruct (space2 a b) eqn:H2; [|done]. rewrite string_app_cons, trim_left_two in Heq by done.
    destruct (Hlen (t +:+ w)) as [|Hl]; [done|]. rewrite string_app_cons in Hl. cbn [String.length] in Hl. lia.
  - intros b c t ->. destruct (ascii_space a) eqn:H1.
    { rewrite trim_left_one in Heq by done. destruct (Hlen (String b (String c t) +:+ w)); [done|lia]. }
    rewrite !string_app_cons in *. destruct (space2 a b) eqn:H2.
    { rewrite trim_left_two in Heq by done. destruct (Hlen (String c (t +:+ w))) as [|Hl]; [done|]. cbn [String.length] in Hl. lia. }
    destruct (space3 a b c) eqn:H3; [|done]. rewrite trim_left_three in Heq by done.
    destruct (Hlen (t +:+ w)) as [|Hl]; [done|]. cbn [String.length] in Hl. lia.
Qed.

Lemma TrimSpace_idem s : TrimSpace (TrimSpace s) = TrimSpace s.
Proof.
  unfold TrimSpace. destruct (trim_right_split (trim_space_left s)) as (w & Hs & _).
  rewrite (trim_left_prefix (trim_space_right (trim_space_left s)) w), trim_right_idem; [done|].
  rewrite <- Hs. apply trim_left_idem.
Qed.

(** ** Lines *)

Lemma split_char_nonempty c s : split_char c s <> [].
Proof. destruct s as [|a s]; [done|]. cbn. destruct (Ascii.eqb a c); [done|]. by destruct (split_char c s). Qed.

Lemma split_char_no_char c s : Forall (no_char c) (split_char c s).
Proof.
  induction s as [|a s IH]; [by repeat constructor|]. cbn [split_char]. destruct (Ascii.eqb_spec a c); [by constructor|].
  destruct (split_char c s) as [|w ws]; [by repeat constructor|]. inversion_clear IH. by repeat constructor.
Qed.

Lemma split_char_app c s t : split_char c (s +:+ String c t) = split_char c s ++ split_char c t.
Proof.
  induction s as [|a s IH].
  - rewrite string_app_nil_l. cbn [split_char]. by rewrite Ascii.eqb_refl.
  - rewrite string_app_cons. cbn [split_char]. rewrite IH. destruct (Ascii.eqb a c); [done|].
    pose proof (split_char_nonempty c s). by destruct (split_char c s).
Qed.

Lemma split_char_one c s : no_char c s -> split_char c s = [s].
Proof.
  induction s as [|a s IH]; [done|]. intros [Ha Hs]. cbn [split_char]. rewrite IH by done.
  by destruct (Ascii.eqb_spec a c).
Qed.

Lemma strings_Join_cons sep x l : l <> [] -> strings_Join (x :: l) sep = x +:+ sep +:+ strings_Join l sep.
Proof. by destruct l. Qed.

Lemma join_split c s : strings_Join (split_char c s) (String c EmptyString) = s.
Proof.
  induction s as [|a s IH]; [done|]. cbn [split_char]. pose proof (split_char_nonempty c s) as Hn.
  destruct (Ascii.eqb_spec a c) as [->|].
  - rewrite strings_Join_cons, IH by done. done.
  - destruct (split_char c s) as [|w ws]; [done|]. rewrite <- IH. by destruct ws.
Qed.

Lemma split_join c l : l <> [] -> Forall (no_char c) l -> split_char c (strings_Join l (String c EmptyString)) = l.
Proof.
  intros Hl. induction 1 as [|x l Hx Hf IH]; [done|]. destruct l as [|y l]; [by apply split_char_one|].
  rewrite strings_Join_cons by done.
  change (x +:+ String c EmptyString +:+ ?t) with (x +:+ String c t).
  rewrite split_char_app, split_char_one by done. by rewrite IH.
Qed.

Lemma join_lines_app c l k :
  l <> [] -> k <> [] ->
  strings_Join (l ++ k) (String c EmptyString) =
  strings_Join l (String c EmptyString) +:+ String c (strings_Join k (String c EmptyString)).
Proof.
  intros Hl Hk. induction l as [|x l IH]; [done|]. destruct l as [|y l].
  - cbn [app]. by rewrite strings_Join_cons.
  - change ((x :: y :: l) ++ k) with (x :: ((y :: l) ++ k)). rewrite (strings_Join_cons _ x ((y :: l) ++ k)) by done.
    rewrite IH, (strings_Join_cons _ x (y :: l)) by done. by rewrite !str_app_assoc.
Qed.
