(* ===== verification/Machine.v ===== *)
(** * Machine: the files of the machine and the commands it runs

    Models [internal/filesystem.go] and what it uses of Go's [os] package.  A file is
    its contents, its permissions and two flags: whether it is immutable ([chattr +i])
    and whether its path is a symbolic link, in which case contents and permissions
    are those of the target.  Every call of the operating system that can fail takes
    the next entry of [mc_faults], so that a theorem about all machines is one about
    all failures; a write can fail before it has an effect or after some bytes.

    Commands of other programs are parameters ([System]); they see the files. *)

From stdpp Require Import base option list strings pretty gmap.
From Stdlib Require Import ZArith Ascii Lia.
From S2P Require Import Prelude GoLib Kernel Transfers.

Open Scope Z_scope.
Open Scope go_scope.

(** ** Files *)

Record FileNode : Type := mkFileNode {
  fn_Content : string;
  fn_Perm : Z;
  fn_Immutable : bool;
  fn_Symlink : bool
}.
Instance eta_FileNode : EtaExpand FileNode := fun x => mkFileNode (fn_Content x) (fn_Perm x) (fn_Immutable x) (fn_Symlink x).

Inductive Fault : Type :=
| FailBefore
| FailAfter (bytes : nat).

Record Machine (T : Type) : Type := mkMachine {
  mc_files : gmap string FileNode;
  mc_faults : list (option Fault);
  mc_sys : T
}.
Arguments mkMachine {T} _ _ _.
Arguments mc_files {T} _.
Arguments mc_faults {T} _.
Arguments mc_sys {T} _.
Instance eta_Machine T : EtaExpand (Machine T) := fun x => mkMachine (mc_files x) (mc_faults x) (mc_sys x).

(** An open file: its path and the position of the next read or write. *)
Record FileHandle : Type := mkFileHandle { fh_Path : string; fh_Offset : nat }.
Instance eta_FileHandle : EtaExpand FileHandle := fun x => mkFileHandle (fh_Path x) (fh_Offset x).

(** [os.ErrNotExist] is what [os.IsNotExist] recognises. *)
Definition ErrNotExist : string := "file does not exist".
Definition syscall_error : error := Errorf "input/output error".
Definition not_permitted : error := Errorf "operation not permitted".

Fixpoint take_str (n : nat) (s : string) : string :=
  match n, s with
  | S n', String c s' => String c (take_str n' s')
  | _, _ => ""
  end.

Section Files.
Context {T : Type}.
Abbreviation O := (M (Machine T)).

Definition next_fault : O (option Fault) := fun s =>
  match mc_faults s with
  | [] => (Ok None, s)
  | f :: fs => (Ok f, s <| mc_faults := fs |>)
  end.

Definition node (path : string) (s : Machine T) : option FileNode := mc_files s !! path.
Definition content (path : string) (s : Machine T) : option string := fn_Content <$> node path s.

Definition put_node (path : string) (n : FileNode) : O unit :=
  modify (fun s => s <| mc_files := <[path := n]> (mc_files s) |>).

(** A call that fails when the next fault says so and when there is no such file. *)
Definition with_node {A} (path : string) (k : FileNode -> O A) : O A :=
  let! f := next_fault in
  match f with
  | Some _ => throw syscall_error
  | None =>
      let! n := gets (node path) in
      match n with Some n => k n | None => throw (Sentinel ErrNotExist) end
  end.

Definition os_Stat (path : string) : O FileNode := with_node path ret.
Definition os_Lstat (path : string) : O FileNode := with_node path ret.
Definition os_ReadFile (path : string) : O string := with_node path (fun n => ret (fn_Content n)).

(** A new file gets the permissions, an old one keeps its own. *)
Definition os_WriteFile (path data : string) (perm : Z) : O unit :=
  let! f := next_fault in
  let! n := gets (node path) in
  let n := default (mkFileNode "" perm false false) n in
  match f with
  | Some FailBefore => throw syscall_error
  | _ =>
      if fn_Immutable n then throw not_permitted
      else match f with
           | Some (FailAfter b) => put_node path (n <| fn_Content := take_str b data |>) ;; throw syscall_error
           | _ => put_node path (n <| fn_Content := data |>)
           end
  end.

Definition os_Remove (path : string) : O unit :=
  with_node path (fun n =>
    if fn_Immutable n then throw not_permitted
    else modify (fun s => s <| mc_files := delete path (mc_files s) |>)).

(** Directories are not part of the model; making one can fail. *)
Definition os_MkdirAll (path : string) : O unit :=
  let! f := next_fault in
  match f with Some _ => throw syscall_error | None => ret tt end.

(** [os.OpenFile(path, os.O_RDWR, perm)]; opening an immutable file for writing is
    not permitted. *)
Definition os_OpenFile_RDWR (path : string) : O FileHandle :=
  with_node path (fun n => if fn_Immutable n then throw not_permitted else ret (mkFileHandle path 0)).

(** [io.ReadAll(file)]. *)
Definition io_ReadAll (h : FileHandle) : O (string * FileHandle) :=
  with_node (fh_Path h) (fun n =>
    ret (drop_str (fh_Offset h) (fn_Content n), h <| fh_Offset := String.length (fn_Content n) |>)).

Definition file_Truncate (h : FileHandle) (size : nat) : O unit :=
  with_node (fh_Path h) (fun n => put_node (fh_Path h) (n <| fn_Content := take_str size (fn_Content n) |>)).

(** [file.Seek(offset, 0)]. *)
Definition file_Seek (h : FileHandle) (offset : nat) : O FileHandle :=
  let! f := next_fault in
  match f with Some _ => throw syscall_error | None => ret (h <| fh_Offset := offset |>) end.

(** Bytes after the end of the file that are not written are zero. *)
Definition splice (c : string) (offset : nat) (data : string) : string :=
  take_str offset (c +:+ String.concat "" (replicate (offset - String.length c) (String "000"%char ""))) +:+ data +:+
  drop_str (offset + String.length data) c.

Definition file_Write (h : FileHandle) (data : string) : O unit :=
  let! f := next_fault in
  let! n := gets (node (fh_Path h)) in
  match f, n with
  | Some FailBefore, _ | _, None => throw syscall_error
  | Some (FailAfter b), Some n =>
      put_node (fh_Path h) (n <| fn_Content := splice (fn_Content n) (fh_Offset h) (take_str b data) |>) ;;
      throw syscall_error
  | None, Some n => put_node (fh_Path h) (n <| fn_Content := splice (fn_Content n) (fh_Offset h) data |>)
  end.

Definition file_Close (h : FileHandle) : O unit :=
  let! f := next_fault in
  match f with Some _ => throw syscall_error | None => ret tt end.

(** [os.Create(path)]: the file is empty; the mask of new permissions is not part of the
    model. *)
Definition os_Create (path : string) : O FileHandle :=
  let! f := next_fault in
  let! n := gets (node path) in
  let n := default (mkFileNode "" 438 false false) n in
  match f with
  | Some _ => throw syscall_error
  | None =>
      if fn_Immutable n then throw not_permitted
      else put_node path (n <| fn_Content := "" |>) ;; ret (mkFileHandle path 0)
  end.

Definition os_Chmod (path : string) (perm : Z) : O unit :=
  with_node path (fun n =>
    if fn_Immutable n then throw not_permitted else put_node path (n <| fn_Perm := perm |>)).
End Files.

(** ** The rest of the system *)

Inductive NetAddr : Type :=
| IPNet (ip : Addr) (ones : Z)
| OtherAddr.

(** [net.Interface] with the result of its [Addrs]. *)
Record NetIface : Type := mkNetIface {
  ni_Name : string;
  ni_Index : Z;
  ni_MTU : Z;
  ni_Up : bool;
  ni_Addrs : result (list NetAddr)
}.

Class System (T : Type) : Type := {
  (** the output of the command, its error and the machine after it *)
  exec_Command : string -> list string -> string -> Machine T -> string * option error * Machine T;
  os_Getenv : string -> T -> string;
  exec_LookPath : string -> T -> option string;
  os_Getwd : M T string;
  net_InterfaceByName : string -> M T NetIface;
  net_Interfaces : M T (list NetIface);
  net_ListenPacket : string -> string -> M T unit
}.

Section Internal.
Context {T : Type} `{System T}.
Abbreviation O := (M (Machine T)).

Definition on_sys {A} (m : M T A) : O A := zoom mc_sys (fun t s => s <| mc_sys := t |>) m.

(** [exec.Command(name, args...).CombinedOutput()]: the output and whether it failed. *)
Definition CombinedOutput (name : string) (args : list string) (stdin : string) : O (string * option error) := fun s =>
  let '(out, err, s') := exec_Command name args stdin s in (Ok (out, err), s').

(** [cmd.String()]: the path of the program, or its name when it is not found, and
    the arguments. *)
Definition cmd_String (name : string) (args : list string) : O string :=
  gets (fun s => strings_Join (default name (exec_LookPath name (mc_sys s)) :: args) " ").

Definition IsCommandAvailable (command : string) : O bool :=
  gets (fun s => match exec_LookPath command (mc_sys s) with Some _ => true | None => false end).

(** [filepath.Dir]. *)
Definition filepath_Dir (path : string) : string :=
  match cut_last "/"%char path with
  | Some (dir, _) => filepath_Clean (dir +:+ "/")
  | None => "."
  end.

Definition filepath_Abs (path : string) : O string :=
  if has_prefix "/" path then ret (filepath_Clean path)
  else let! wd := on_sys os_Getwd in ret (filepath_Join [wd; path]).

Definition PermUserRWX : Z := 448.
Definition PermUserRWGroupROthersR : Z := 420.

Definition EnsureDirFull (path : string) : O unit :=
  let! dir := wrapped "getting absolute path: " (filepath_Abs path) "" in
  wrapped "making directories: " (os_MkdirAll dir) "".

Definition EnsureDir (path : string) : O unit := EnsureDirFull (filepath_Dir path).

Definition FileWrite (path contents : string) (permissions : Z) : O unit :=
  EnsureDir path ;; os_WriteFile path contents permissions.

Definition PermUserRW : Z := 384.

(** [file.Chmod] is the call on the path of the file; after its failure the file is
    closed. *)
Definition FileCreate (path : string) (permissions : Z) : O FileHandle :=
  EnsureDir path ;;
  let! file := os_Create path in
  on_error (os_Chmod path permissions ;; ret file) (ignore (file_Close file)).

Definition FileRead (file : string) : O string := os_ReadFile file.

(** Any error but that the file is missing counts as its presence. *)
Definition FileExists (path : string) : O bool :=
  let! r := attempt (os_Stat path) in
  ret (match r with Ok _ => true | Err e => negb (errors_Is e ErrNotExist) end).

Definition FileWritable (path : string) : O bool :=
  let! r := attempt (os_Stat path) in
  ret (match r with Ok n => Z.land (fn_Perm n) 128 =? 128 | Err _ => false end).

Definition IsSymLink (fileName : string) : O bool :=
  let! r := attempt (os_Lstat fileName) in
  ret (match r with Ok n => fn_Symlink n | Err _ => false end).

Definition FileDelete (path : string) : O unit := os_Remove path.

Definition UpdateFilePermissions (name : string) (mode : Z) : O unit :=
  let! exists_ := FileExists name in
  when exists_ (ignore (os_Chmod name mode)).

Definition ChattrExec : string := "chattr".
Definition LsattrExec : string := "lsattr".
Definition NetworkctlExec : string := "networkctl".

Definition FileUnlock (filepath : string) : O unit :=
  let! r := CombinedOutput ChattrExec ["-ia"; filepath] "" in
  match r.2 with Some err => throw err | None => ret tt end.

Definition FileLock (filepath : string) : O unit :=
  let! r := CombinedOutput ChattrExec ["+i"; filepath] "" in
  match r.2 with Some err => throw err | None => ret tt end.

Definition IsFileLocked (filepath : string) : O bool :=
  let! r := CombinedOutput LsattrExec ["-l"; filepath] "" in
  ret (match r.2 with Some _ => false | None => str_contains (str_lower r.1) "immutable" end).

Definition prefixPath (p envKey : string) : O string :=
  let! dir := gets (fun s => os_Getenv envKey (mc_sys s)) in
  ret (filepath_Clean ((if bool_decide (dir = "") then "/" else dir) +:+ p)).
Definition PrefixDataPath (p : string) : O string := prefixPath p "PREFIX_DATA".

(** [v.IP.To4()]. *)
Definition addr_To4 (a : Addr) : option Z :=
  match a with
  | AddrV4 x => Some x
  | AddrV6 x => if Z.shiftr x 32 =? 65535 then Some (Z.land x (2 ^ 32 - 1)) else None
  | AddrInvalid => None
  end.

Record NetLink : Type := mkNetLink { nlk_Name : string; nlk_Address : string; nlk_Index : Z }.

Definition iface_links (i : NetIface) (addrs : list NetAddr) : list NetLink :=
  omap (fun addr =>
    match addr with
    | IPNet ip mask =>
        match addr_To4 ip with
        | Some ip4 => if ni_Up i then Some (mkNetLink (ni_Name i) (v4_String ip4 +:+ "/" +:+ pretty mask) (ni_Index i)) else None
        | None => None
        end
    | OtherAddr => None
    end) addrs.

Fixpoint links_loop (ifaces : list NetIface) (res : list NetLink) : result (list NetLink) :=
  match ifaces with
  | [] => Ok res
  | i :: ifaces' =>
      match ni_Addrs i with
      | Err err => Err err
      | Ok addrs => links_loop ifaces' (res ++ iface_links i addrs)
      end
  end.

Definition NetworkLinks : O (list NetLink) :=
  let! ifaces := on_sys net_Interfaces in
  match links_loop ifaces [] with Ok l => ret l | Err e => throw e end.

Definition IsNetworkLinkUnmanaged (link : string) : O bool :=
  let! r := CombinedOutput NetworkctlExec ["status"; link] "" in
  ret (match r.2 with
       | Some _ => false
       | None => existsb (fun line => str_contains line "State" && str_contains line "unmanaged")
                   (split_char newline (trim_right newline (trim_left newline r.1)))
       end).
End Internal.

(** ** A machine on which no call fails *)

Section NoFaults.
Context {T : Type} `{System T}.
Implicit Type s : Machine T.

Lemma with_node_run {A} p (k : FileNode -> M (Machine T) A) s :
  mc_faults s = [] ->
  with_node p k s = match node p s with Some n => k n s | None => (Err (Sentinel ErrNotExist), s) end.
Proof. intros Hf. unfold with_node, bind, next_fault. rewrite Hf. unfold gets. by destruct (node p s). Qed.

Lemma FileExists_run p s :
  mc_faults s = [] -> FileExists p s = (Ok (match node p s with Some _ => true | None => false end), s).
Proof.
  intros Hf. unfold FileExists, os_Stat, bind, attempt. rewrite with_node_run by done. by destruct (node p s).
Qed.

Lemma FileRead_run p s n : mc_faults s = [] -> node p s = Some n -> FileRead p s = (Ok (fn_Content n), s).
Proof. intros Hf Hn. unfold FileRead, os_ReadFile. rewrite with_node_run by done. by rewrite Hn. Qed.

Lemma FileWritable_run p s :
  mc_faults s = [] ->
  FileWritable p s = (Ok (match node p s with Some n => Z.land (fn_Perm n) 128 =? 128 | None => false end), s).
Proof.
  intros Hf. unfold FileWritable, os_Stat, bind, attempt. rewrite with_node_run by done. by destruct (node p s).
Qed.

Lemma IsSymLink_run p s :
  mc_faults s = [] ->
  IsSymLink p s = (Ok (match node p s with Some n => fn_Symlink n | None => false end), s).
Proof.
  intros Hf. unfold IsSymLink, os_Lstat, bind, attempt. rewrite with_node_run by done. by destruct (node p s).
Qed.

(** The node a write leaves. *)
Definition written (p data : string) (perm : Z) (s : Machine T) : FileNode :=
  (default (mkFileNode "" perm false false) (node p s)) <| fn_Content := data |>.

Definition immutable (p : string) (s : Machine T) : bool :=
  match node p s with Some n => fn_Immutable n | None => false end.

Lemma os_WriteFile_run p data perm s :
  mc_faults s = [] ->
  os_WriteFile p data perm s =
    if immutable p s then (Err not_permitted, s)
    else (Ok tt, s <| mc_files := <[p := written p data perm s]> (mc_files s) |>).
Proof.
  intros Hf. unfold os_WriteFile, bind, next_fault. rewrite Hf. unfold gets, immutable, written.
  destruct (node p s) as [n|]; [cbn; by destruct (fn_Immutable n)|done].
Qed.

(** [FileWrite] of an absolute path. *)
Lemma FileWrite_run p data perm s :
  mc_faults s = [] -> has_prefix "/" (filepath_Dir p) = true ->
  FileWrite p data perm s =
    if immutable p s then (Err not_permitted, s)
    else (Ok tt, s <| mc_files := <[p := written p data perm s]> (mc_files s) |>).
Proof.
  intros Hf Hp. rewrite <- os_WriteFile_run by done. unfold FileWrite, EnsureDir, EnsureDirFull, filepath_Abs. rewrite Hp.
  unfold bind, wrapped, ret, os_MkdirAll, bind, next_fault. by rewrite Hf.
Qed.
End NoFaults.
