(* ===== verification/Dns.v ===== *)
(** * Dns: name servers and host names of the machine

    Models [daemon/dns]: the four ways to set name servers, tried in this order by
    [DefaultSetter] (systemd-resolved over D-Bus, [resolvectl], [resolvconf], and
    editing [/etc/resolv.conf] with a backup), and the lines of [/etc/hosts] that name
    meshnet peers.  Files are those of Machine; the commands are parameters. *)

From stdpp Require Import base option list strings pretty gmap.
From Stdlib Require Import ZArith Ascii Lia.
From S2P Require Import Prelude GoLib Kernel Transfers Firewall Routes GoText Machine.

Open Scope Z_scope.
Open Scope go_scope.

(** ** The hosts file *)

Definition HostsFilePath : string := "/etc/hosts".
Definition mark : string := "# NordVPN".
Definition tab : string := String "009"%char EmptyString.

Record DnsHost : Type := mkDnsHost {
  dh_IP : Addr;
  dh_FQDN : string;
  dh_DomainNames : list string
}.

Definition Host_String (h : DnsHost) : string :=
  addr_String (dh_IP h) +:+ tab +:+ dh_FQDN h +:+ tab +:+ strings_Join (dh_DomainNames h) tab +:+ tab +:+ mark.

Definition removeHostLinesFrom (content : string) : string :=
  strings_Join (List.filter (fun line => negb (has_suffix line mark)) (split_char newline content)) newline_str.

Definition appendHostLines (content : string) (hosts : list DnsHost) : string :=
  match hosts with
  | [] => content
  | _ => TrimSpace content +:+ newline_str +:+ newline_str +:+
         strings_Join (map Host_String hosts) newline_str +:+ newline_str
  end.

Definition setHostLines (content : string) (hosts : list DnsHost) : string :=
  appendHostLines (removeHostLinesFrom content) hosts.

Section Hosts.
Context {T : Type}.
Abbreviation O := (M (Machine T)).

Definition openReadAndTruncateFile (filePath : string) : O (FileHandle * string) :=
  let! file := wrapped "opening hosts file: " (os_OpenFile_RDWR filePath) "" in
  let! r := wrapped "reading hosts file: " (io_ReadAll file) "" in
  wrapped "truncating hosts file: " (file_Truncate file 0) "" ;;
  let! file := wrapped "seeking hosts file: " (file_Seek r.2 0) "" in
  ret (file, r.1).

(** What [SetHosts] and [UnsetHosts] do with the new contents. *)
Definition write_hosts (file : FileHandle) (content : string) : O unit :=
  let! w := attempt (file_Write file content) in
  match w with
  | Err err => ignore (file_Close file) ;; throw (Wrapf "writing to the hosts file: " err "")
  | Ok _ => file_Close file
  end.

Definition SetHosts (filePath : string) (hosts : list DnsHost) : O unit :=
  let! r := openReadAndTruncateFile filePath in
  write_hosts r.1 (setHostLines r.2 hosts).

Definition UnsetHosts (filePath : string) : O unit :=
  let! r := openReadAndTruncateFile filePath in
  write_hosts r.1 (removeHostLinesFrom r.2).
End Hosts.

(** ** systemd-resolved *)

Definition execBusctl : string := "busctl".
Definition execResolvectl : string := "resolvectl".
Definition execResolvconf : string := "resolvconf".
Definition resolconfInterfaceFilePath : string := "/etc/resolvconf/interface-order".

(** [net.ParseIP], whose result has no zone, as an address. *)
Definition net_ParseIP (s : string) : option Addr := ParseAddr s.

Definition v4_octets (a : Z) : list Z := map (octet a) [0; 1; 2; 3].
Definition v6_octets (a : Z) : list Z := map (fun i => Z.land (Z.shiftr a (8 * (15 - i))) 255) (seqZ 0 16).

(** The family, the length and the octets of an address; an address that cannot be
    parsed has no octets. *)
Definition address_args (address : string) : list string :=
  match net_ParseIP address with
  | Some ip =>
      match addr_To4 ip with
      | Some ip4 => "2" :: "4" :: map pretty (v4_octets ip4)
      | None => "10" :: "16" :: match ip with AddrV6 a => map pretty (v6_octets a) | _ => [] end
      end
  | None => ["10"; "16"]
  end.

Definition manager_call (args : list string) : list string :=
  ["call"; "org.freedesktop.resolve1"; "/org/freedesktop/resolve1"; "org.freedesktop.resolve1.Manager"] ++ args.

Definition link_dns_args (index : Z) (addresses : list string) : list string :=
  ["SetLinkDNS"; "ia(iay)"; pretty index; pretty (Z.of_nat (length addresses))] ++ concat (map address_args addresses).

Section Methods.
Context {T : Type} `{System T} `{Netlink T}.
Abbreviation O := (M (Machine T)).

(** [exec.Command(name, args...).CombinedOutput()] with its error returned as
    [fmt.Errorf("what: %s: %w", strings.TrimSpace(out), err)]. *)
Definition run_checked (name : string) (args : list string) (stdin what : string) : O unit :=
  let! r := CombinedOutput name args stdin in
  match r.2 with
  | Some err => throw (Wrapf (what +:+ ": " +:+ TrimSpace r.1 +:+ ": ") err "")
  | None => ret tt
  end.

(** The same with the error only logged. *)
Definition run_logged (name : string) (args : list string) : O unit :=
  ignore (CombinedOutput name args "").

Definition resolve_call (args : list string) (what : string) : O unit :=
  run_checked execBusctl (manager_call args) "" what.

Definition flush_caches : O unit := resolve_call ["FlushCaches"] "flushing local dns caches via dbus".

(** The other links lose their domains, unless they are managed. *)
Definition remove_domains (iface : NetIface) (link : NetLink) : O unit :=
  if bool_decide (nlk_Name link = "lo") || bool_decide (nlk_Name link = ni_Name iface) then ret tt
  else
    let! unmanaged := IsNetworkLinkUnmanaged (nlk_Name link) in
    when unmanaged
      (resolve_call ["SetLinkDomains"; "ia(sb)"; pretty (nlk_Index link); "0"]
        ("setting link domains for " +:+ nlk_Name link +:+ " via dbus")).

Definition setDNSWithSystemdResolve (ifname : string) (addresses : list string) : O unit :=
  let! iface := on_sys (net_InterfaceByName ifname) in
  resolve_call (link_dns_args (ni_Index iface) addresses) ("setting link dns for " +:+ ni_Name iface +:+ " via dbus") ;;
  resolve_call ["SetLinkDomains"; "ia(sb)"; pretty (ni_Index iface); "1"; "."; "true"]
    ("setting link routing domains for " +:+ ni_Name iface +:+ " via dbus") ;;
  resolve_call ["SetLinkDefaultRoute"; "ib"; pretty (ni_Index iface); "true"]
    ("setting link default route for " +:+ ni_Name iface +:+ " via dbus") ;;
  resolve_call ["SetLinkDNSSEC"; "is"; pretty (ni_Index iface); "allow-downgrade"]
    ("setting link dns sec for " +:+ ni_Name iface +:+ " via dbus") ;;
  let! links := wrapped "listing network links: " NetworkLinks "" in
  forM_ links (remove_domains iface) ;;
  flush_caches.

Definition unsetDNSWithSystemdResolve (ifname : string) : O unit :=
  if bool_decide (ifname = "") then ret tt
  else
    let! iface := on_sys (net_InterfaceByName ifname) in
    resolve_call ["RevertLink"; "i"; pretty (ni_Index iface)] ("reverting link " +:+ ni_Name iface +:+ " via dbus") ;;
    flush_caches.

(** ** resolvectl *)

Definition setDNSWithResolvectl (iface : string) (addresses : list string) : O unit :=
  run_checked execResolvectl (["dns"; iface] ++ addresses) "" "setting dns with resolvectl" ;;
  run_logged execResolvectl ["domain"; iface; "~."] ;;
  run_logged execResolvectl ["default-route"; iface; "true"] ;;
  run_logged execResolvectl ["flush-caches"].

Definition unsetDNSWithResolvectl (iface : string) : O unit :=
  run_checked execResolvectl ["dns"; iface; ""] "" "unsetting dns with resolvectl" ;;
  run_logged execResolvectl ["domain"; iface; ""] ;;
  run_logged execResolvectl ["default-route"; iface; "false"] ;;
  run_logged execResolvectl ["flush-caches"].

(** ** resolvconf *)

(** The lines a [bufio.Scanner] yields: without the last one when it is empty, each
    without one carriage return at its end, and none from a line on that is too long
    for its buffer. *)
Definition MaxScanTokenSize : Z := 65536.
Definition drop_cr (line : string) : string :=
  match cut_last "013"%char line with Some (l, EmptyString) => l | _ => line end.
Fixpoint scan_lines (lines : list string) : list string :=
  match lines with
  | [] => []
  | line :: lines' =>
      if MaxScanTokenSize <=? Z.of_nat (String.length line) then []
      else match lines' with
           | [] => if bool_decide (line = "") then [] else [drop_cr line]
           | _ => drop_cr line :: scan_lines lines'
           end
  end.

Definition interface_char (c : ascii) : bool :=
  let n := nat_of_ascii c in
  ((65 <=? n) && (n <=? 90) || (97 <=? n) && (n <=? 122) || (48 <=? n) && (n <=? 57) || (n =? 45))%nat.

(** [^([A-Za-z0-9-]+)\*$]. *)
Definition match_entry (line : string) : option string :=
  match cut_last "*"%char line with
  | Some (name, EmptyString) =>
      if negb (bool_decide (name = "")) && all_chars interface_char name then Some name else None
  | _ => None
  end.

Definition checkForEntry (data : string) : string :=
  match omap match_entry (scan_lines (split_char newline data)) with
  | name :: _ => name +:+ "."
  | [] => ""
  end.

(** Reading an open file stops at an error, which the scanner's caller ignores. *)
Definition scan_file (path : string) : O string :=
  let! f := next_fault in
  let! c := gets (content path) in
  ret (match f with
       | None => default "" c
       | Some FailBefore => ""
       | Some (FailAfter b) => take_str b (default "" c)
       end).

Definition resolvconfIfacePrefix (filePath : string) : O string :=
  let! exists_ := FileExists filePath in
  if exists_ then
    wrapped ("opening " +:+ filePath +:+ ": ") (with_node filePath (fun _ => ret tt)) "" ;;
    let! data := scan_file filePath in
    ret (checkForEntry data)
  else ret "".

Definition nameserver_lines (addresses : list string) : string :=
  strings_Join (map (fun address => "nameserver " +:+ address) addresses) newline_str.

Definition setDNSWithResolvconf (iface : string) (addresses : list string) : O unit :=
  let! prefix := wrapped "determining interface prefix: " (resolvconfIfacePrefix resolconfInterfaceFilePath) "" in
  run_checked execResolvconf ["-a"; prefix +:+ iface; "-m"; "0"; "-x"] (nameserver_lines addresses) "setting dns with resolvconf".

(** [calling %s: %s] of the command line and its output. *)
Definition unsetDNSWithResolvconf (iface : string) : O unit :=
  let! prefix := wrapped "determining interface prefix: " (resolvconfIfacePrefix resolconfInterfaceFilePath) "" in
  let! r := CombinedOutput execResolvconf ["-d"; prefix +:+ iface; "-f"] "" in
  match r.2 with
  | Some _ =>
      let! cmd := cmd_String execResolvconf ["-d"; prefix +:+ iface; "-f"] in
      throw (Errorf ("calling " +:+ cmd +:+ ": " +:+
                     trim_right newline (trim_left newline r.1)))
  | None => ret tt
  end.

(** ** /etc/resolv.conf *)

Definition resolvconfFilePath : string := "/etc/resolv.conf".
Definition resolvconfFileMark : string := "# Generated by NordVPN".
(** [filepath.Join(internal.BakFilesPath, "resolv.conf")]. *)
Definition resolvconfBackupPath : O string :=
  let! AppDataPath := PrefixDataPath "/var/lib/nordvpn" in
  ret (filepath_Join [filepath_Join [AppDataPath; "backup"]; "resolv.conf"]).

Definition resolvconf_text (addresses : list string) : string :=
  resolvconfFileMark +:+ newline_str +:+ nameserver_lines addresses +:+ newline_str.

Definition resetDNSinResolvconfFile (addresses : list string) : O unit :=
  ignore (FileUnlock resolvconfFilePath) ;;
  let! r := attempt (FileWrite resolvconfFilePath (resolvconf_text addresses) PermUserRWGroupROthersR) in
  ignore (FileLock resolvconfFilePath) ;;
  match r with Ok _ => ret tt | Err err => throw err end.

Definition backupDNS : O unit :=
  let! backup := resolvconfBackupPath in
  let! exists_ := FileExists backup in
  if exists_ then ret tt
  else
    let! out := wrapped "reading resolv.conf: " (FileRead resolvconfFilePath) "" in
    FileWrite backup out PermUserRWGroupROthersR.

(** Whether the file can be edited: it carries the mark or the user has not locked
    it, and it is writable. *)
Definition resolvconf_editable : O bool :=
  let! exists_ := FileExists resolvconfFilePath in
  if negb exists_ then ret true
  else
    let! out := attempt (FileRead resolvconfFilePath) in
    let! locked :=
      match out with
      | Ok out => if str_contains out resolvconfFileMark then ret false else IsFileLocked resolvconfFilePath
      | Err _ => IsFileLocked resolvconfFilePath
      end in
    if locked then ret false else FileWritable resolvconfFilePath.

Definition setDNSinResolvconfFile (addresses : list string) : O unit :=
  let! editable := resolvconf_editable in
  when editable (wrapped "backing up dns: " backupDNS "" ;; resetDNSinResolvconfFile addresses).

Definition findGateway : O Addr :=
  let! r := on_sys (Retrieve (mkPrefix (AddrV4 0) 0) 0) in ret r.1.

Definition discoverNameserverIp : O Addr :=
  let! con := attempt (on_sys (net_ListenPacket "udp" "127.0.0.53:53")) in
  match con with
  | Err err => if str_contains (error_text err) "address already in use" then ret (AddrV4 (v4 127 0 0 53)) else findGateway
  | Ok _ => findGateway
  end.

Definition simple_text (ip : Addr) : string :=
  "#restored" +:+ newline_str +:+ "nameserver " +:+ addr_String ip +:+ newline_str.

Definition restoreWithSimpleSettings : O unit :=
  let! r := attempt discoverNameserverIp in
  let ip := match r with Ok ip => ip | Err _ => AddrV4 (v4 1 1 1 1) end in
  ignore (FileWrite resolvconfFilePath (simple_text ip) PermUserRWGroupROthersR).

(** The backup is deleted before its contents are checked and written. *)
Definition restoreFromBackup : O unit :=
  let! path := resolvconfBackupPath in
  let! exists_ := FileExists path in
  if exists_ then
    let! r := attempt (FileRead path) in
    ignore (FileDelete path) ;;
    match r with
    | Err err => throw (Wrapf "reading backup resolv.conf: " err "")
    | Ok backup =>
        if str_contains backup resolvconfFileMark
        then throw (Errorf "resolv.conf backup contains our changes - do not restore from it")
        else wrapped "restore from backup resolv.conf: " (FileWrite resolvconfFilePath backup PermUserRWGroupROthersR) ""
    end
  else throw (Errorf "resolv.conf backup not found").

Definition restoreDNS : O unit :=
  let! r := attempt restoreFromBackup in
  match r with Ok _ => ret tt | Err _ => restoreWithSimpleSettings end.

Definition unsetDNSinResolvconfFile : O unit :=
  let! out := wrapped "reading resolv.conf: " (FileRead resolvconfFilePath) "" in
  when (str_contains out resolvconfFileMark) (ignore (FileUnlock resolvconfFilePath) ;; restoreDNS).

Definition tryToRestoreDNS : O unit :=
  let! link := IsSymLink resolvconfFilePath in
  if link then ret tt
  else
    let! out := attempt (FileRead resolvconfFilePath) in
    match out with
    | Err _ => ret tt
    | Ok out =>
        when (str_contains out resolvconfFileMark)
          (ignore (FileUnlock resolvconfFilePath) ;;
           let! r := attempt restoreFromBackup in
           match r with Ok _ => ret tt | Err _ => restoreWithSimpleSettings end)
    end.

(** ** The setter *)

Inductive DnsMethod : Type := Resolved | Resolvectl | Resolvconf | ResolvConfFile.

Definition method_Set (m : DnsMethod) (iface : string) (nameservers : list string) : O unit :=
  match m with
  | Resolved => setDNSWithSystemdResolve iface nameservers
  | Resolvectl => setDNSWithResolvectl iface nameservers
  | Resolvconf => setDNSWithResolvconf iface nameservers
  | ResolvConfFile => setDNSinResolvconfFile nameservers
  end.

Definition method_Unset (m : DnsMethod) (iface : string) : O unit :=
  match m with
  | Resolved => unsetDNSWithSystemdResolve iface
  | Resolvectl => unsetDNSWithResolvectl iface
  | Resolvconf => unsetDNSWithResolvconf iface
  | ResolvConfFile => unsetDNSinResolvconfFile
  end.

Definition NewSetter : list DnsMethod := [Resolved; Resolvectl; Resolvconf; ResolvConfFile].

(** The first of the calls that succeeds; whether one did. *)
Fixpoint first_success (calls : list (O unit)) : O bool :=
  match calls with
  | [] => ret false
  | m :: calls' =>
      let! r := attempt m in
      match r with Ok _ => ret true | Err _ => first_success calls' end
  end.

Definition DefaultSetter_Set (methods : list DnsMethod) (iface : string) (nameservers : list string) : O unit :=
  match nameservers with
  | [] => throw (Errorf "nameservers not provided")
  | _ =>
      let! done_ := first_success (map (fun m => method_Set m iface nameservers) methods) in
      if done_ then ret tt else throw (Errorf "dns not set, no dns setting method is available")
  end.

Definition DefaultSetter_Unset (methods : list DnsMethod) (iface : string) : O unit :=
  ignore (first_success (map (fun m => method_Unset m iface) methods)).

Definition RestoreResolvConfFile : O unit := tryToRestoreDNS.
End Methods.
