(* ===== verification/DnsProps.v ===== *)
(** * DnsProps: properties of the name server and host name settings

    The hosts file keeps the part of the user; editing [/etc/resolv.conf] and undoing it
    is a round trip; the arguments for systemd-resolved have the type they declare.  The
    module [Box] is a machine on which the theorems are applied. *)

From stdpp Require Import base option list strings pretty gmap.
From Stdlib Require Import ZArith Ascii Lia.
From S2P Require Import Prelude GoLib Kernel Transfers Firewall IPTables Routes GoText Machine Dns.

Open Scope Z_scope.
Open Scope go_scope.

(** ** The text of the hosts file *)

(** The lines of the application end with its mark; the part of the user is all other
    lines, without white space around them. *)
Definition ours (line : string) : bool := has_suffix line "# NordVPN".
Definition own_lines (c : string) : list string := List.filter ours (split_char newline c).
Definition user_part (c : string) : string :=
  TrimSpace (strings_Join (List.filter (fun line => negb (ours line)) (split_char newline c)) newline_str).

(** The line of a host: the address, the name, the other names and the mark. *)
Definition host_line (h : DnsHost) : string :=
  addr_String (dh_IP h) +:+ tab +:+ dh_FQDN h +:+ tab +:+ strings_Join (dh_DomainNames h) tab +:+ tab +:+ "# NordVPN".

(** What the functions of the file keep and write is this. *)
Definition kept_part (c : string) : string := TrimSpace (removeHostLinesFrom c).
Lemma kept_user c : kept_part c = user_part c.
Proof. reflexivity. Qed.
Lemma Host_String_line h : Host_String h = host_line h.
Proof. reflexivity. Qed.

Definition unmarked (c : string) : Prop := Forall (fun line => has_suffix line mark = false) (split_char newline c).

Lemma filter_unmarked {A} (p : A -> bool) l : Forall (fun x => p x = false) l -> List.filter (fun x => negb (p x)) l = l.
Proof. induction 1 as [|x l Hx Hl IH]; [done|]. cbn. by rewrite Hx, IH. Qed.
Lemma filter_none {A} (p : A -> bool) l : Forall (fun x => p x = false) l -> List.filter p l = [].
Proof. induction 1 as [|x l Hx Hl IH]; [done|]. cbn. by rewrite Hx, IH. Qed.
Lemma filter_every {A} (p : A -> bool) l : Forall (fun x => p x = true) l -> List.filter p l = l.
Proof. induction 1 as [|x l Hx Hl IH]; [done|]. cbn. by rewrite Hx, IH. Qed.
Lemma filter_negb_every {A} (p : A -> bool) l : Forall (fun x => p x = true) l -> List.filter (fun x => negb (p x)) l = [].
Proof. induction 1 as [|x l Hx Hl IH]; [done|]. cbn. by rewrite Hx, IH. Qed.

Lemma remove_unmarked c : unmarked c -> removeHostLinesFrom c = c.
Proof. intros Hc. unfold removeHostLinesFrom. rewrite filter_unmarked by done. apply join_split. Qed.

Lemma filter_Forall {A} (p : A -> bool) (P : A -> Prop) l : Forall P l -> Forall P (List.filter p l).
Proof. induction 1 as [|x l Hx Hl IH]; [constructor|]. cbn. destruct (p x); [by constructor|done]. Qed.

(** The text without the lines of the application has none of them. *)
Lemma remove_is_unmarked c : unmarked (removeHostLinesFrom c).
Proof.
  unfold unmarked, removeHostLinesFrom. set (l := List.filter _ _).
  assert (Hl : Forall (fun line => has_suffix line mark = false) l).
  { subst l. induction (split_char newline c) as [|x k IH]; [constructor|]. cbn.
    destruct (has_suffix x mark) eqn:Hx; [done|]. by constructor. }
  destruct l as [|x l'] eqn:E; [by repeat constructor|]. rewrite <- E in *. rewrite split_join; [done| |].
  - by rewrite E.
  - subst l. apply filter_Forall, split_char_no_char.
Qed.

Lemma has_suffix_app s suf : has_suffix (s +:+ suf) suf = true.
Proof.
  unfold has_suffix. rewrite string_length_app. apply andb_true_iff. split; [apply Nat.leb_le; lia|].
  apply bool_decide_eq_true. replace (String.length s + String.length suf - String.length suf)%nat with (String.length s) by lia.
  apply drop_str_app.
Qed.

Lemma Host_String_marked h : has_suffix (Host_String h) mark = true.
Proof. unfold Host_String. rewrite <- !str_app_assoc. apply has_suffix_app. Qed.

Definition plain_host (h : DnsHost) : Prop := no_newline (host_line h).

Lemma append_lines c h hs :
  Forall plain_host (h :: hs) ->
  split_char newline (appendHostLines c (h :: hs)) =
  split_char newline (TrimSpace c) ++ [EmptyString] ++ map Host_String (h :: hs) ++ [EmptyString].
Proof.
  intros Hp. unfold appendHostLines. set (ls := map Host_String (h :: hs)).
  change (TrimSpace c +:+ newline_str +:+ newline_str +:+ ?t) with (TrimSpace c +:+ String newline (EmptyString +:+ String newline t)).
  rewrite !split_char_app. change (strings_Join ls newline_str +:+ newline_str) with (strings_Join ls newline_str +:+ String newline EmptyString).
  rewrite split_char_app. unfold newline_str. rewrite split_join; [done|done|].
  subst ls. by rewrite Forall_map.
Qed.

(** Setting hosts keeps the part of the user and replaces the lines of the application. *)
Lemma set_keeps_user c hosts :
  unmarked (kept_part c) -> Forall plain_host hosts ->
  kept_part (setHostLines c hosts) = kept_part c /\ own_lines (setHostLines c hosts) = map Host_String hosts.
Proof.
  unfold own_lines. change ours with (fun line => has_suffix line mark).
  intros Hu Hp. unfold setHostLines. destruct hosts as [|h hs].
  { cbn [appendHostLines map]. unfold kept_part. rewrite (remove_unmarked (removeHostLinesFrom c)) by apply remove_is_unmarked.
    split; [done|]. apply filter_none, remove_is_unmarked. }
  assert (Hm : Forall (fun x => has_suffix x mark = true) (map Host_String (h :: hs))).
  { rewrite Forall_map. apply Forall_forall. intros x _. apply Host_String_marked. }
  unfold kept_part at 1, removeHostLinesFrom at 1. rewrite !append_lines by done. fold (kept_part c).
  rewrite !List.filter_app. rewrite (filter_unmarked (fun x => has_suffix x mark)), (filter_none (fun x => has_suffix x mark) (split_char newline (kept_part c))) by done.
  rewrite (filter_negb_every _ (map Host_String (h :: hs)) Hm), (filter_every _ (map Host_String (h :: hs)) Hm). split.
  - change (List.filter (fun line => negb (has_suffix line mark)) [EmptyString]) with [EmptyString].
    rewrite app_nil_l. unfold newline_str at 1. rewrite join_lines_app by (done || apply split_char_nonempty). rewrite join_split.
    assert (Hn : forall u, u +:+ String newline (strings_Join ([EmptyString] ++ [EmptyString]) (String newline EmptyString)) =
      (u +:+ newline_str) +:+ newline_str) by (intros u; by rewrite str_app_assoc).
    rewrite Hn, !TrimSpace_newline. apply TrimSpace_idem.
  - change (List.filter (fun line => has_suffix line mark) [EmptyString]) with (@nil string). by rewrite app_nil_r.
Qed.

Lemma unset_keeps_user c :
  kept_part (removeHostLinesFrom c) = kept_part c /\ own_lines (removeHostLinesFrom c) = [].
Proof.
  unfold own_lines. change ours with (fun line => has_suffix line mark).
  unfold kept_part. rewrite (remove_unmarked (removeHostLinesFrom c)) by apply remove_is_unmarked. split; [done|].
  apply filter_none, remove_is_unmarked.
Qed.

(** ** The hosts file *)

Inductive HostsOp : Type :=
| HostsSet (hosts : list DnsHost)
| HostsUnset.

Section HostsFile.
Context {T : Type} (path : string).

Definition hosts_op (o : HostsOp) : M (Machine T) unit :=
  match o with
  | HostsSet hosts => SetHosts path hosts
  | HostsUnset => UnsetHosts path
  end.

(** The lines an operation asks for. *)
Definition asked (o : HostsOp) : list string :=
  match o with HostsSet hosts => map host_line hosts | HostsUnset => [] end.

Definition rewrite_of (o : HostsOp) (c : string) : string :=
  match o with HostsSet hosts => setHostLines c hosts | HostsUnset => removeHostLinesFrom c end.

Definition plain_op (o : HostsOp) : Prop := match o with HostsSet hosts => Forall plain_host hosts | HostsUnset => True end.

Lemma take_str_0 s : take_str 0 s = EmptyString.
Proof. by destruct s. Qed.
Lemma drop_str_nil n : drop_str n EmptyString = EmptyString.
Proof. by destruct n. Qed.
Lemma splice_empty data : splice EmptyString 0 data = data.
Proof.
  unfold splice. rewrite take_str_0, drop_str_nil, string_app_nil_l. induction data as [|a d IH]; [done|].
  by rewrite string_app_cons, IH.
Qed.

Lemma open_hosts_run (s : Machine T) (n : FileNode) :
  mc_faults s = [] -> node path s = Some n -> fn_Immutable n = false ->
  openReadAndTruncateFile path s =
    (Ok (mkFileHandle path 0, fn_Content n), s <| mc_files := <[path := n <| fn_Content := EmptyString |>]> (mc_files s) |>).
Proof.
  intros Hf Hn Hi. unfold openReadAndTruncateFile, os_OpenFile_RDWR, io_ReadAll, file_Truncate, file_Seek.
  unfold bind, wrapped. rewrite with_node_run, Hn, Hi by done. unfold ret. cbn [fh_Path].
  rewrite with_node_run, Hn by done. cbn [fh_Path fh_Offset drop_str].
  rewrite with_node_run, Hn by done. unfold put_node, modify, next_fault. cbn [mc_faults set_field]. rewrite Hf.
  by rewrite take_str_0.
Qed.

Lemma hosts_op_run (o : HostsOp) (s : Machine T) (n : FileNode) :
  mc_faults s = [] -> node path s = Some n -> fn_Immutable n = false ->
  hosts_op o s = (Ok tt, s <| mc_files := <[path := n <| fn_Content := rewrite_of o (fn_Content n) |>]> (mc_files s) |>).
Proof.
  intros Hf Hn Hi. assert (Hop : hosts_op o = bind (openReadAndTruncateFile path) (fun r => write_hosts r.1 (rewrite_of o r.2)))
    by by destruct o.
  rewrite Hop. unfold bind at 1. rewrite (open_hosts_run s n) by done. unfold write_hosts, file_Write, file_Close, bind, attempt, gets.
  cbn [fst snd]. unfold next_fault at 1. cbn [mc_faults set_field]. rewrite Hf. unfold node at 1. cbn [mc_files set_field fh_Path].
  rewrite lookup_insert_eq. unfold put_node, modify. unfold next_fault. cbn [mc_faults set_field mc_files fn_Content fh_Offset]. rewrite ?Hf.
  rewrite splice_empty, insert_insert_eq. done.
Qed.

(** The file after the operations [ops], the last of which is [o]. *)
Lemma hosts_ops_inv (ops : list HostsOp) (s : Machine T) (n : FileNode) :
  mc_faults s = [] -> node path s = Some n -> fn_Immutable n = false ->
  unmarked (user_part (fn_Content n)) -> Forall plain_op ops ->
  exists n', node path (run_ops hosts_op ops s) = Some n' /\ user_part (fn_Content n') = user_part (fn_Content n) /\
    (forall o, last ops = Some o -> own_lines (fn_Content n') = asked o).
Proof.
  intros Hf Hn Hi Hu Hp. revert s n Hf Hn Hi Hu. induction Hp as [|o ops Ho Hp IH]; intros s n Hf Hn Hi Hu; [by exists n|].
  assert (Hk : user_part (rewrite_of o (fn_Content n)) = user_part (fn_Content n) /\ own_lines (rewrite_of o (fn_Content n)) = asked o)
    by (rewrite <- !kept_user in *; destruct o; [by apply set_keeps_user|apply unset_keeps_user]).
  destruct Hk as [Hk Hown]. cbn [run_ops]. rewrite (hosts_op_run o s n) by done. cbn [snd].
  set (s' := s <| mc_files := _ |>). set (n1 := n <| fn_Content := rewrite_of o (fn_Content n) |>).
  assert (Hn1 : node path s' = Some n1) by (unfold node, s'; cbn [mc_files set_field]; by rewrite lookup_insert_eq).
  destruct (IH s' n1) as (n' & Hn' & Hu' & Hl); [done..| |].
  { unfold n1. cbn [fn_Content set_field]. by rewrite Hk. }
  exists n'. split_and!; [done|by rewrite Hu'; exact Hk|]. intros o' Ho'. destruct ops as [|o2 ops]; [|by apply Hl].
  injection Ho' as <-. change (node path s' = Some n') in Hn'. rewrite Hn1 in Hn'. by injection Hn' as <-.
Qed.

(** C24: the hosts file.  Whatever hosts are set and unset, one after the other, when the
    file exists, is not locked and no call on it fails: the lines that do not end with the
    mark of the application stay the same up to white space around them, and the lines that
    do are those of the hosts of the last call.  No name of a host has a line break, and no
    line of the user ends with the mark once white space is cut off. *)
Theorem hosts_file_keeps_user_part (ops : list HostsOp) (o : HostsOp) (s : Machine T) (n : FileNode) :
  mc_faults s = [] -> node path s = Some n -> fn_Immutable n = false ->
  unmarked (user_part (fn_Content n)) -> Forall plain_op (ops ++ [o]) ->
  exists n', node path (run_ops hosts_op (ops ++ [o]) s) = Some n' /\
    user_part (fn_Content n') = user_part (fn_Content n) /\ own_lines (fn_Content n') = asked o.
Proof.
  intros Hf Hn Hi Hu Hp. destruct (hosts_ops_inv (ops ++ [o]) s n) as (n' & H1 & H2 & H3); [done..|].
  exists n'. split_and!; [done..|]. apply H3. by rewrite last_snoc.
Qed.

(** The file is emptied before the new contents are written: when the write fails at
    once, what the user had in it is lost. *)
Lemma failed_write_empties_hosts (o : HostsOp) (s : Machine T) (n : FileNode) (fs : list (option Fault)) :
  mc_faults s = [None; None; None; None; Some FailBefore] ++ fs -> node path s = Some n -> fn_Immutable n = false ->
  is_ok (hosts_op o s).1 = false /\ content path (hosts_op o s).2 = Some EmptyString.
Proof.
  intros Hf Hn Hi. destruct s as [fl ft sy]. cbn in Hf. subst ft. unfold node in Hn. cbn in Hn.
  assert (Hop : hosts_op o = bind (openReadAndTruncateFile path) (fun r => write_hosts r.1 (rewrite_of o r.2)))
    by by destruct o.
  rewrite Hop. unfold openReadAndTruncateFile, os_OpenFile_RDWR, io_ReadAll, file_Truncate, file_Seek, write_hosts, file_Write.
  unfold with_node, bind, wrapped, attempt, next_fault, gets, node, ret, throw, put_node, modify, ignore.
  cbn -[rewrite_of String.append file_Close take_str drop_str]. rewrite Hn, Hi. cbn -[rewrite_of file_Close take_str drop_str]. rewrite !Hn. cbn -[rewrite_of file_Close take_str drop_str].
  rewrite ?Hn. cbn -[rewrite_of file_Close take_str drop_str].
  rewrite ?lookup_insert_eq, take_str_0. split; [done|]. unfold content, node.
  unfold file_Close, bind, next_fault. cbn. destruct fs as [|[f|] fs]; cbn; by rewrite lookup_insert_eq.
Qed.
End HostsFile.

(** ** resolv.conf *)

(** Nothing of the machine changed but the rest of the system, and there not the
    environment of the process. *)
Definition sys_only {T} `{System T} (s s' : Machine T) : Prop :=
  mc_files s' = mc_files s /\ mc_faults s' = mc_faults s /\
  forall k, os_Getenv k (mc_sys s') = os_Getenv k (mc_sys s).

Definition after {T} `{System T} (name : string) (args : list string) (stdin : string) (s : Machine T) : Machine T :=
  (exec_Command name args stdin s).2.
Definition failed {T} `{System T} (name : string) (args : list string) (stdin : string) (s : Machine T) : bool :=
  match (exec_Command name args stdin s).1.2 with Some _ => true | None => false end.

(** [chattr] where the file system supports the attributes or not, and [lsattr]. *)
Class AttrTools (T : Type) `{System T} (supported : bool) : Prop := {
  chattr_files flag lock p s :
    (flag, lock) = ("+i", true) \/ (flag, lock) = ("-ia", false) ->
    mc_files (after ChattrExec [flag; p] "" s) =
      if supported then alter (fun n => n <| fn_Immutable := lock |>) p (mc_files s) else mc_files s;
  chattr_rest flag p s :
    mc_faults (after ChattrExec [flag; p] "" s) = mc_faults s /\
    forall k, os_Getenv k (mc_sys (after ChattrExec [flag; p] "" s)) = os_Getenv k (mc_sys s);
  lsattr_reads p s : sys_only s (after LsattrExec ["-l"; p] "" s);
  lsattr_shows p s :
    failed LsattrExec ["-l"; p] "" s = false ->
    str_contains (str_lower (exec_Command LsattrExec ["-l"; p] "" s).1.1) "immutable" = immutable p s
}.

(** A machine without the programs that manage name servers. *)
Class NoResolver (T : Type) `{System T} : Prop := {
  resolver_fails name args stdin s :
    name ∈ [execBusctl; execResolvectl; execResolvconf] -> failed name args stdin s = true;
  resolver_quiet name args stdin s :
    name ∈ [execBusctl; execResolvectl; execResolvconf] -> sys_only s (after name args stdin s);
  iface_env name t k : os_Getenv k (net_InterfaceByName name t).2 = os_Getenv k t
}.

Section ResolvConf.
Context {T : Type} `{System T} `{Netlink T} {supported : bool} `{!AttrTools T supported}.
Implicit Type s : Machine T.

#[local] Instance sys_only_po : PreOrder (sys_only (T := T)).
Proof.
  split; [by intros s|]. intros s1 s2 s3 (F1 & G1 & E1) (F2 & G2 & E2).
  split_and!; [by rewrite F2|by rewrite G2|intros k; by rewrite E2].
Qed.

Lemma node_sys_only s s' p : sys_only s s' -> node p s' = node p s.
Proof. intros (Hf & _). unfold node. by rewrite Hf. Qed.

(** The path of the backup when PREFIX_DATA is [d]. *)
Definition backup_path (d : string) : string :=
  filepath_Join [filepath_Join [filepath_Clean ((if bool_decide (d = "") then "/" else d) +:+ "/var/lib/nordvpn"); "backup"]; "resolv.conf"].

Lemma backup_path_run s : resolvconfBackupPath s = (Ok (backup_path (os_Getenv "PREFIX_DATA" (mc_sys s))), s).
Proof. done. Qed.

Lemma CombinedOutput_run name args stdin s :
  CombinedOutput name args stdin s = (Ok (exec_Command name args stdin s).1, after name args stdin s).
Proof. unfold CombinedOutput, after. by destruct (exec_Command name args stdin s) as [[out err] s']. Qed.

Lemma IsFileLocked_run p s : immutable p s = false -> IsFileLocked p s = (Ok false, after LsattrExec ["-l"; p] "" s).
Proof.
  intros Hi. unfold IsFileLocked, bind. rewrite CombinedOutput_run. pose proof (lsattr_shows p s) as Hl. unfold failed in Hl.
  destruct (exec_Command LsattrExec ["-l"; p] "" s).1.2; [done|]. unfold ret. rewrite Hl by done. by rewrite Hi.
Qed.

(** [chattr], whose error is ignored. *)
Lemma attr_run (m : M (Machine T) unit) flag p s :
  m = (let! r := CombinedOutput ChattrExec [flag; p] "" in match r.2 with Some err => throw err | None => ret tt end) ->
  ignore m s = (Ok tt, after ChattrExec [flag; p] "" s).
Proof.
  intros ->. unfold ignore, bind. rewrite CombinedOutput_run. by destruct (exec_Command ChattrExec [flag; p] "" s).1.2.
Qed.

Lemma unlock_run p s : ignore (FileUnlock p) s = (Ok tt, after ChattrExec ["-ia"; p] "" s).
Proof. by apply attr_run. Qed.
Lemma lock_run p s : ignore (FileLock p) s = (Ok tt, after ChattrExec ["+i"; p] "" s).
Proof. by apply attr_run. Qed.

Lemma unlocked_node p q s :
  node q (after ChattrExec ["-ia"; p] "" s) =
    if supported && bool_decide (p = q) then (fun n => n <| fn_Immutable := false |>) <$> node q s else node q s.
Proof.
  unfold node. rewrite (chattr_files "-ia" false) by by right. destruct supported; [|done]. cbn [andb].
  destruct (decide (p = q)) as [<-|]; [by rewrite lookup_alter_eq, bool_decide_true|].
  by rewrite lookup_alter_ne, bool_decide_false.
Qed.
Lemma locked_node p q s :
  node q (after ChattrExec ["+i"; p] "" s) =
    if supported && bool_decide (p = q) then (fun n => n <| fn_Immutable := true |>) <$> node q s else node q s.
Proof.
  unfold node. rewrite (chattr_files "+i" true) by by left. destruct supported; [|done]. cbn [andb].
  destruct (decide (p = q)) as [<-|]; [by rewrite lookup_alter_eq, bool_decide_true|].
  by rewrite lookup_alter_ne, bool_decide_false.
Qed.

(** [chattr] changes no contents. *)
Lemma chattr_content flag p q s :
  flag = "+i" \/ flag = "-ia" -> content q (after ChattrExec [flag; p] "" s) = content q s.
Proof.
  intros Hl. unfold content. destruct Hl as [-> | ->]; [rewrite locked_node|rewrite unlocked_node]; destruct (supported && _), (node q s); done.
Qed.

(** Reading [p] and writing it leaves other paths alone. *)
Lemma node_put_other p q n s : p <> q -> node q (s <| mc_files := <[p := n]> (mc_files s) |>) = node q s.
Proof. intros Hne. unfold node. cbn [mc_files set_field]. by rewrite lookup_insert_ne. Qed.
Lemma node_put_same p n s : node p (s <| mc_files := <[p := n]> (mc_files s) |>) = Some n.
Proof. unfold node. cbn [mc_files set_field]. by rewrite lookup_insert_eq. Qed.

Lemma contains_prefix p x : str_contains (p +:+ x) p = true.
Proof.
  assert (Hp : has_prefix p (p +:+ x) = true).
  { induction p as [|a p IH]; [by destruct x|]. rewrite string_app_cons. cbn [has_prefix]. by rewrite Ascii.eqb_refl, IH. }
  destruct (p +:+ x) as [|a y] eqn:E; cbn [str_contains]; by rewrite Hp.
Qed.

Lemma resolvconf_text_marked l : str_contains (resolvconf_text l) resolvconfFileMark = true.
Proof. apply contains_prefix. Qed.

Abbreviation P := resolvconfFilePath.
Context (d c0 : string).
Abbreviation B := (backup_path d).
Hypothesis HB : B <> P.
Hypothesis Hroot : has_prefix "/" (filepath_Dir B) = true.
Hypothesis Hc0 : str_contains c0 resolvconfFileMark = false.

Definition calm s : Prop := mc_faults s = [] /\ os_Getenv "PREFIX_DATA" (mc_sys s) = d.

Definition writable (n : FileNode) : bool := Z.land (fn_Perm n) 128 =? 128.

(** As the user had it, with no backup. *)
Definition original s : Prop := exists n, node P s = Some n /\ fn_Content n = c0 /\ fn_Immutable n = false /\ writable n = true /\
  node B s = None.
(** Edited, with the contents of the user in the backup. *)
Definition edited s : Prop := exists n b, node P s = Some n /\ str_contains (fn_Content n) resolvconfFileMark = true /\
  (supported = false -> fn_Immutable n = false) /\ writable n = true /\
  node B s = Some b /\ fn_Content b = c0 /\ fn_Immutable b = false.
Definition conf_ok s : Prop := calm s /\ (original s \/ edited s).

Lemma calm_sys s s' : sys_only s s' -> calm s -> calm s'.
Proof. intros (_ & Hf & He) [Hs Hd]. split; [by rewrite Hf|by rewrite He]. Qed.

Lemma conf_ok_sys s s' : sys_only s s' -> conf_ok s -> conf_ok s'.
Proof.
  intros Hs [Hc Ho]. split; [by eapply calm_sys|]. unfold original, edited, content in *.
  by rewrite !(node_sys_only s s') by done.
Qed.

Lemma calm_chattr flag p s : calm s -> calm (after ChattrExec [flag; p] "" s).
Proof. intros [Hf Hd]. destruct (chattr_rest flag p s) as [Hf' He]. split; [by rewrite Hf'|by rewrite He]. Qed.

Lemma calm_files s f : calm s -> calm (s <| mc_files := f |>).
Proof. done. Qed.

Lemma write_run data s n :
  calm s -> node P s = Some n -> fn_Immutable n = false ->
  FileWrite P data PermUserRWGroupROthersR s =
    (Ok tt, s <| mc_files := <[P := n <| fn_Content := data |>]> (mc_files s) |>).
Proof.
  intros Hc Hn Hi. rewrite FileWrite_run by (apply Hc || done). unfold immutable, written. by rewrite Hn, Hi.
Qed.

(** The file and the backup when the file is about to be edited. *)
Lemma reset_run l s n b :
  calm s -> node P s = Some n -> (supported = false -> fn_Immutable n = false) -> writable n = true ->
  node B s = Some b -> fn_Content b = c0 -> fn_Immutable b = false ->
  exists s', resetDNSinResolvconfFile l s = (Ok tt, s') /\ calm s' /\ edited s' /\ content P s' = Some (resolvconf_text l).
Proof.
  intros Hc Hn Hs Hw Hb Hbc Hbi. unfold resetDNSinResolvconfFile. rewrite bind_ignore.
  change (FileUnlock P s).2 with (ignore (FileUnlock P) s).2. rewrite unlock_run. cbn [snd]. set (s1 := after _ _ _ s).
  assert (Hc1 : calm s1) by by apply calm_chattr.
  assert (Hn1 : exists n1, node P s1 = Some n1 /\ fn_Immutable n1 = false /\ writable n1 = true).
  { unfold s1. rewrite unlocked_node, Hn. destruct supported; [|by exists n; auto].
    cbn [andb]. rewrite bool_decide_true by done. by eexists. }
  destruct Hn1 as (n1 & Hn1 & Hi1 & Hw1).
  assert (Hb1 : node B s1 = Some b).
  { unfold s1. rewrite unlocked_node. by rewrite (bool_decide_false (P = B)), andb_false_r. }
  rewrite (bind_attempt _ _ _ _ _ (write_run (resolvconf_text l) s1 n1 Hc1 Hn1 Hi1)), bind_ignore. set (s2 := s1 <| mc_files := _ |>).
  change (FileLock P s2).2 with (ignore (FileLock P) s2).2. rewrite lock_run. cbn [snd]. eexists. split; [done|].
  assert (Hn2 : node P s2 = Some (n1 <| fn_Content := resolvconf_text l |>)) by apply node_put_same.
  assert (Hb2 : node B s2 = Some b) by (unfold s2; by rewrite node_put_other).
  split; [by apply calm_chattr|]. split.
  - assert (Hn3 : exists n3, node P (after ChattrExec ["+i"; P] "" s2) = Some n3 /\ fn_Content n3 = resolvconf_text l /\
      (supported = false -> fn_Immutable n3 = false) /\ writable n3 = true).
    { rewrite locked_node, Hn2, (bool_decide_true (P = P)), andb_true_r by done. destruct supported; by eexists. }
    destruct Hn3 as (n3 & Hn3 & Hc3 & Hi3 & Hw3). exists n3, b. rewrite Hc3. split_and!; [done|apply resolvconf_text_marked|done..| |done|done].
    by rewrite locked_node, (bool_decide_false (P = B)), andb_false_r.
  - rewrite chattr_content by (by left). unfold content. by rewrite Hn2.
Qed.

Lemma conf_ok_node s : conf_ok s -> exists n, node P s = Some n /\ writable n = true /\
  (fn_Immutable n = false \/ str_contains (fn_Content n) resolvconfFileMark = true).
Proof. intros [_ [(n & Hn & _ & Hi & Hw & _)|(n & b & Hn & Hm & _ & Hw & _)]]; exists n; auto. Qed.

Lemma editable_run s : conf_ok s -> exists s', resolvconf_editable s = (Ok true, s') /\ sys_only s s'.
Proof.
  intros Hok. destruct (conf_ok_node s Hok) as (n & Hn & Hw & Hi). destruct Hok as [[Hf Hd] _]. unfold resolvconf_editable, bind.
  rewrite FileExists_run, Hn by done. cbn [negb]. unfold attempt. rewrite (FileRead_run P s n) by done.
  destruct (str_contains (fn_Content n) resolvconfFileMark).
  - unfold ret. rewrite FileWritable_run, Hn by done. exists s. split; [by f_equal; f_equal|done].
  - destruct Hi as [Hi|]; [|done]. rewrite IsFileLocked_run by (unfold immutable; by rewrite Hn). set (s' := after _ _ _ _).
    pose proof (lsattr_reads P s : sys_only s s') as Hs'. exists s'. split; [|done].
    rewrite FileWritable_run, (node_sys_only s s'), Hn by (done || by destruct Hs' as (_ & -> & _)). by f_equal; f_equal.
Qed.

Lemma backup_run s :
  conf_ok s -> exists s' b, backupDNS s = (Ok tt, s') /\ calm s' /\ node P s' = node P s /\
    node B s' = Some b /\ fn_Content b = c0 /\ fn_Immutable b = false.
Proof.
  intros [[Hf Hd] Ho]. unfold backupDNS, bind. rewrite backup_path_run, Hd. rewrite FileExists_run by done.
  destruct Ho as [(n & Hn & Hc & Hi & _ & Hb)|(n & b & Hn & _ & _ & _ & Hb & Hbc & Hbi)]; rewrite Hb; [|by exists s, b].
  unfold wrapped. rewrite (FileRead_run P s n), FileWrite_run by done. unfold immutable, written. rewrite Hb.
  eexists _, _. split_and!; [done|done|by rewrite node_put_other|by rewrite node_put_same|done|done].
Qed.

Lemma file_set_run l s :
  conf_ok s -> exists s', setDNSinResolvconfFile l s = (Ok tt, s') /\ conf_ok s' /\ content P s' = Some (resolvconf_text l).
Proof.
  intros Hok. unfold setDNSinResolvconfFile. destruct (editable_run s Hok) as (s1 & He & Hs1).
  rewrite (bind_Ok _ _ _ _ _ He). apply (conf_ok_sys _ _ Hs1) in Hok. cbn [when].
  destruct (backup_run s1 Hok) as (s2 & b & Hbk & Hc2 & Hn2 & Hb2 & Hbc & Hbi).
  rewrite (bind_Ok _ _ s1 tt s2) by by apply wrapped_Ok.
  destruct (conf_ok_node s1 Hok) as (n & Hn & Hw & _). rewrite <- Hn2 in Hn.
  destruct (reset_run l s2 n b) as (s3 & Hr & Hc3 & He3 & Hp); [done|done| |done..|].
  - destruct Hok as [_ [(n' & Hn' & _ & Hi & _)|(n' & b' & Hn' & _ & Hi & _)]]; rewrite <- Hn2, Hn in Hn'; injection Hn' as <-; auto.
  - exists s3. split; [done|]. split; [|done]. split; [done|by right].
Qed.

Lemma restore_backup_run s n b :
  calm s -> node P s = Some n -> fn_Immutable n = false -> writable n = true ->
  node B s = Some b -> fn_Content b = c0 -> fn_Immutable b = false ->
  exists s', restoreFromBackup s = (Ok tt, s') /\ calm s' /\ original s'.
Proof.
  intros Hc Hn Hi Hw Hb Hbc Hbi. destruct Hc as [Hf Hd]. unfold restoreFromBackup. rewrite (bind_Ok _ _ _ _ _ (backup_path_run s)), Hd.
  rewrite (bind_Ok _ _ s true s) by (rewrite FileExists_run by done; by rewrite Hb).
  rewrite (bind_attempt _ _ s (Ok c0) s) by (rewrite (FileRead_run B s b) by done; by rewrite Hbc).
  rewrite bind_ignore, Hc0. unfold FileDelete, os_Remove. rewrite with_node_run, Hb, Hbi by done. cbn [modify snd].
  set (s1 := s <| mc_files := delete B (mc_files s) |>).
  assert (Hn1 : node P s1 = Some n) by (unfold node, s1; cbn [mc_files set_field]; by rewrite lookup_delete_ne).
  eexists. split; [apply wrapped_Ok, (write_run c0 s1 n); done|]. split; [done|]. eexists. rewrite node_put_same.
  split_and!; [done..|]. rewrite node_put_other by done. unfold node, s1. cbn [mc_files set_field]. by rewrite lookup_delete_eq.
Qed.

(** Unlocking and restoring an edited file. *)
Lemma restore_edited (k : M (Machine T) unit) s :
  calm s -> edited s ->
  exists s', (ignore (FileUnlock P) ;; let! r := attempt restoreFromBackup in match r with Ok _ => ret tt | Err _ => k end) s = (Ok tt, s') /\
    calm s' /\ original s'.
Proof.
  intros Hc (n & b & Hn & _ & Hs & Hw & Hb & Hbc & Hbi). rewrite bind_ignore.
  change (FileUnlock P s).2 with (ignore (FileUnlock P) s).2. rewrite unlock_run. cbn [snd]. set (s1 := after _ _ _ s).
  assert (Hn1 : exists n1, node P s1 = Some n1 /\ fn_Immutable n1 = false /\ writable n1 = true).
  { unfold s1. rewrite unlocked_node, Hn. destruct supported; [|by exists n; auto].
    cbn [andb]. rewrite bool_decide_true by done. by eexists. }
  destruct Hn1 as (n1 & Hn1 & Hi1 & Hw1).
  destruct (restore_backup_run s1 n1 b) as (s' & Hr & Hok); [by apply calm_chattr|done..| |done|done|].
  - unfold s1. rewrite unlocked_node. by rewrite (bool_decide_false (P = B)), andb_false_r.
  - exists s'. by rewrite (bind_attempt _ _ _ _ _ Hr).
Qed.

Lemma file_unset_run s : conf_ok s -> exists s', unsetDNSinResolvconfFile s = (Ok tt, s') /\ calm s' /\ original s'.
Proof.
  intros Hok. destruct Hok as [Hc Ho]. unfold unsetDNSinResolvconfFile. destruct Ho as [Ho|He].
  - destruct Ho as (n & Hn & Hcn & Hr). rewrite (bind_Ok _ _ s c0 s) by (rewrite <- Hcn; apply wrapped_Ok, FileRead_run; [apply Hc|done]).
    rewrite Hc0. exists s. split; [done|]. split; [done|]. by exists n.
  - pose proof He as (n & b & Hn & Hm & _). rewrite (bind_Ok _ _ s (fn_Content n) s) by (apply wrapped_Ok, FileRead_run; [apply Hc|done]).
    rewrite Hm. by apply restore_edited.
Qed.

Lemma try_restore_ok s : conf_ok s -> conf_ok (tryToRestoreDNS s).2.
Proof.
  intros Hok. pose proof Hok as [Hc Ho]. destruct (conf_ok_node s Hok) as (n & Hn & _). unfold tryToRestoreDNS.
  rewrite (bind_Ok _ _ _ _ _ (IsSymLink_run P s (proj1 Hc))). destruct (match node P s with Some _ => _ | None => _ end); [done|].
  rewrite (bind_attempt _ _ s (Ok (fn_Content n)) s) by (apply FileRead_run; [apply Hc|done]).
  destruct (str_contains (fn_Content n) resolvconfFileMark) eqn:Hm; [|done]. cbn [when]. destruct Ho as [Ho|He].
  - destruct Ho as (n' & Hn' & Hcn & _). rewrite Hn in Hn'. injection Hn' as <-. congruence.
  - destruct (restore_edited restoreWithSimpleSettings s Hc He) as (s' & -> & Hc' & Ho'). split; [done|by left].
Qed.

(** ** The setter on a machine without other tools *)

Context `{!NoResolver T}.

Lemma run_checked_fails name args stdin what s :
  name ∈ [execBusctl; execResolvectl; execResolvconf] ->
  exists e, run_checked name args stdin what s = (Err e, after name args stdin s).
Proof.
  intros Hn. pose proof (resolver_fails name args stdin s Hn) as Hf. unfold failed in Hf.
  unfold run_checked, bind. rewrite CombinedOutput_run. destruct (exec_Command name args stdin s).1.2; [by eexists|done].
Qed.

(** A method that fails and leaves the files alone. *)
Definition fails (m : M (Machine T) unit) : Prop :=
  forall s, calm s -> exists e s', m s = (Err e, s') /\ sys_only s s'.

Lemma run_checked_quiet name args stdin what : name ∈ [execBusctl; execResolvectl; execResolvconf] -> fails (run_checked name args stdin what).
Proof. intros Hn s _. destruct (run_checked_fails name args stdin what s Hn) as [e He]. exists e, (after name args stdin s). auto using resolver_quiet. Qed.

Lemma fails_bind (m : M (Machine T) unit) k : fails m -> fails (bind m k).
Proof. intros Hm s Hs. destruct (Hm s Hs) as (e & s' & He & Hs'). exists e, s'. by rewrite (bind_Err _ _ _ _ _ He). Qed.

(** A step that does not fail, or does, and changes no file. *)
Lemma fails_after {A} (m : M (Machine T) A) k :
  (forall s, calm s -> sys_only s (m s).2) -> (forall a, fails (k a)) -> fails (bind m k).
Proof.
  intros Hm Hk s Hs. specialize (Hm s Hs). unfold bind. destruct (m s) as [[a|e] s1]; [|by exists e, s1].
  destruct (Hk a s1) as (e & s2 & He & Hs2); [by eapply calm_sys|]. exists e, s2. split; [done|by etransitivity].
Qed.

Lemma iface_quiet name s : sys_only s (on_sys (net_InterfaceByName name) s).2.
Proof.
  unfold on_sys, zoom. pose proof (iface_env name (mc_sys s)) as He. destruct (net_InterfaceByName name (mc_sys s)) as [r t]. by split_and!.
Qed.

Lemma prefix_quiet s : calm s -> sys_only s (wrapped "determining interface prefix: " (resolvconfIfacePrefix resolconfInterfaceFilePath) "" s).2.
Proof.
  intros [Hf _]. unfold wrapped, resolvconfIfacePrefix. rewrite (bind_Ok _ _ _ _ _ (FileExists_run _ s Hf)).
  destruct (node resolconfInterfaceFilePath s) eqn:Hn; [|done]. unfold bind, wrapped. rewrite with_node_run, Hn by done.
  unfold ret, scan_file, bind, next_fault. by rewrite Hf.
Qed.

Lemma resolvconf_unset_fails iface : fails (unsetDNSWithResolvconf iface).
Proof.
  apply fails_after; [apply prefix_quiet|]. intros prefix s Hs. unfold bind. rewrite CombinedOutput_run.
  pose proof (resolver_fails execResolvconf ["-d"; prefix +:+ iface; "-f"] "" s ltac:(by repeat constructor)) as Hf. unfold failed in Hf.
  destruct (exec_Command execResolvconf _ "" s).1.2; [|done]. eexists _, _. split; [done|]. apply resolver_quiet. by repeat constructor.
Qed.

Definition file_method (m : DnsMethod) : bool := match m with ResolvConfFile => true | _ => false end.

Lemma method_set_fails m iface l : file_method m = false -> fails (method_Set m iface l).
Proof.
  destruct m; intros Hm; [| | |done]; cbn [method_Set].
  - apply fails_after; [intros s _; apply iface_quiet|]. intros i. apply fails_bind, run_checked_quiet. by repeat constructor.
  - apply fails_bind, run_checked_quiet. by repeat constructor.
  - apply fails_after; [apply prefix_quiet|]. intros p. apply run_checked_quiet. by repeat constructor.
Qed.

Lemma method_unset_fails m iface : iface <> "" -> file_method m = false -> fails (method_Unset m iface).
Proof.
  intros Hi Hm. destruct m; [| | |done]; cbn [method_Unset].
  - unfold unsetDNSWithSystemdResolve. rewrite bool_decide_false by done.
    apply fails_after; [intros s _; apply iface_quiet|]. intros i. apply fails_bind, run_checked_quiet. by repeat constructor.
  - apply fails_bind, run_checked_quiet. by repeat constructor.
  - apply resolvconf_unset_fails.
Qed.

Lemma first_success_last ms (last : M (Machine T) unit) s (Q : Machine T -> Prop) :
  Forall fails ms -> calm s -> (forall s1, sys_only s s1 -> exists s', last s1 = (Ok tt, s') /\ Q s') ->
  exists s', first_success (ms ++ [last]) s = (Ok true, s') /\ Q s'.
Proof.
  intros Hms. revert s. induction Hms as [|m ms Hm Hms IH]; intros s Hs HQ; cbn [app first_success].
  - destruct (HQ s) as (s' & Hl & Hq); [done|]. exists s'. by rewrite (bind_attempt _ _ _ _ _ Hl).
  - destruct (Hm s Hs) as (e & s1 & He & Hs1). rewrite (bind_attempt _ _ _ _ _ He).
    apply IH; [by eapply calm_sys|]. intros s2 Hs2. apply HQ. by etransitivity.
Qed.

Lemma setter_set_run iface l s :
  l <> [] -> conf_ok s ->
  exists s', DefaultSetter_Set NewSetter iface l s = (Ok tt, s') /\ conf_ok s' /\ content P s' = Some (resolvconf_text l).
Proof.
  intros Hl Hok. destruct (first_success_last (map (fun m => method_Set m iface l) [Resolved; Resolvectl; Resolvconf])
    (setDNSinResolvconfFile l) s (fun s' => conf_ok s' /\ content P s' = Some (resolvconf_text l))) as (s' & Hs' & HQ).
  - repeat (apply Forall_cons; split; [by apply method_set_fails|]). constructor.
  - apply Hok.
  - intros s1 Hs1. apply file_set_run. by eapply conf_ok_sys.
  - exists s'. split; [|done]. unfold DefaultSetter_Set. destruct l; [done|]. by rewrite (bind_Ok _ _ _ _ _ Hs').
Qed.

Lemma setter_unset_run iface s :
  iface <> "" -> conf_ok s ->
  exists s', DefaultSetter_Unset NewSetter iface s = (Ok tt, s') /\ calm s' /\ original s'.
Proof.
  intros Hi Hok. destruct (first_success_last (map (fun m => method_Unset m iface) [Resolved; Resolvectl; Resolvconf])
    unsetDNSinResolvconfFile s (fun s' => calm s' /\ original s')) as (s' & Hs' & HQ).
  - repeat (apply Forall_cons; split; [by apply method_unset_fails|]). constructor.
  - apply Hok.
  - intros s1 Hs1. apply file_unset_run. by eapply conf_ok_sys.
  - exists s'. split; [|done]. unfold DefaultSetter_Unset, ignore. by setoid_rewrite Hs'.
Qed.
End ResolvConf.

Inductive DnsOp : Type :=
| DnsSet (iface : string) (nameservers : list string)
| DnsUnset (iface : string)
| DnsRestore.

Section SetterOps.
Context {T : Type} `{System T} `{Netlink T}.

Definition dns_op (o : DnsOp) : M (Machine T) unit :=
  match o with
  | DnsSet iface nameservers => DefaultSetter_Set NewSetter iface nameservers
  | DnsUnset iface => DefaultSetter_Unset NewSetter iface
  | DnsRestore => RestoreResolvConfFile
  end.

(** Unsetting names an interface. *)
Definition names_iface (o : DnsOp) : Prop := match o with DnsUnset iface => iface <> "" | _ => True end.

(** What is read from the file: the rest of every line that starts with [nameserver]. *)
Definition nameservers_in (text : string) : list string :=
  omap (fun line => if has_prefix "nameserver " line then Some (drop_str 11 line) else None) (split_char newline text).

Lemma omap_map_Some {A B} (f : B -> option A) (g : A -> B) l : (forall x, f (g x) = Some x) -> omap f (map g l) = l.
Proof. intros Hfg. induction l as [|x l IH]; [done|]. cbn. by rewrite Hfg, IH. Qed.

Lemma nameservers_written l : l <> [] -> Forall no_newline l -> nameservers_in (resolvconf_text l) = l.
Proof.
  intros Hl Hn. unfold nameservers_in, resolvconf_text, nameserver_lines.
  set (ls := map (fun address => "nameserver " +:+ address) l).
  change (resolvconfFileMark +:+ newline_str +:+ ?t) with (resolvconfFileMark +:+ String newline t).
  change (strings_Join ls newline_str +:+ newline_str) with (strings_Join ls newline_str +:+ String newline EmptyString).
  rewrite !split_char_app. unfold newline_str. rewrite split_join.
  - change (split_char newline resolvconfFileMark) with ["# Generated by NordVPN"].
    change (split_char newline "") with [EmptyString]. rewrite !omap_app. unfold ls.
    rewrite omap_map_Some by (intros x; by destruct x). apply app_nil_r.
  - subst ls. by destruct l.
  - subst ls. rewrite Forall_map. eapply Forall_impl; [exact Hn|]. intros x Hx. by apply no_char_app; [repeat split|].
Qed.

(** C23: the name servers in [resolv.conf].  On a machine on which no call fails and the
    file is edited directly, because no program that manages name servers works, and on
    which the user has a [resolv.conf] that can be written and there is no backup; after
    any sequence of setting, unsetting an interface and restoring: setting once more
    succeeds and the name servers the file then has are the given ones, in their order,
    and unsetting once more leaves in it what the user had, unlocked, and no backup. *)
Theorem resolv_conf_restored (supported : bool) (ops : list DnsOp) (d c0 : string) (s : Machine T) (n : FileNode) :
  AttrTools T supported -> NoResolver T ->
  backup_path d <> resolvconfFilePath -> has_prefix "/" (filepath_Dir (backup_path d)) = true ->
  mc_faults s = [] -> os_Getenv "PREFIX_DATA" (mc_sys s) = d ->
  node resolvconfFilePath s = Some n -> fn_Content n = c0 -> str_contains c0 resolvconfFileMark = false ->
  fn_Immutable n = false -> writable n = true -> node (backup_path d) s = None -> Forall names_iface ops ->
  let s' := run_ops dns_op ops s in
  (forall iface l, l <> [] -> Forall no_newline l ->
     is_ok (dns_op (DnsSet iface l) s').1 = true /\
     exists text, content resolvconfFilePath (dns_op (DnsSet iface l) s').2 = Some text /\ nameservers_in text = l) /\
  (forall iface, iface <> "" ->
     let s'' := (dns_op (DnsUnset iface) s').2 in
     exists n', node resolvconfFilePath s'' = Some n' /\ fn_Content n' = c0 /\ fn_Immutable n' = false /\ node (backup_path d) s'' = None).
Proof.
  intros Ha Hr HB Hroot Hf Hd Hn Hc Hm Hi Hw Hb Hops. cbv zeta.
  assert (Hok : conf_ok (supported := supported) d c0 (run_ops dns_op ops s)).
  { assert (Hok : conf_ok (supported := supported) d c0 s) by (split; [done|left; by exists n]).
    clear Hf Hd Hn Hc Hi Hw Hb. revert s Hok. induction Hops as [|o ops Ho Hops IH]; intros s Hok; [done|].
    apply IH. destruct o as [iface l|iface|]; cbn [dns_op].
    - destruct l as [|x l]; [done|]. by destruct (setter_set_run d c0 HB Hroot iface (x :: l) s) as (s' & -> & ? & _).
    - destruct (setter_unset_run d c0 HB Hm iface s) as (s' & -> & ? & ?); [done..|]. split; [done|by left].
    - by apply try_restore_ok. }
  split.
  - intros iface l Hl Hnl. cbn [dns_op]. destruct (setter_set_run d c0 HB Hroot iface l _ Hl Hok) as (s' & -> & _ & Ht).
    split; [done|]. exists (resolvconf_text l). split; [exact Ht|by apply nameservers_written].
  - intros iface Hne. cbn [dns_op]. destruct (setter_unset_run d c0 HB Hm iface _ Hne Hok) as (s' & -> & _ & n' & Hn' & Hc' & Hi' & _ & Hb').
    by exists n'.
Qed.

(** Unsetting stops too early.  When unsetting the link through systemd-resolved
    succeeds, nothing else is tried: name servers that were written to [resolv.conf],
    because setting them through systemd-resolved had failed, stay there.  Unsetting
    without an interface is always such a success. *)
Theorem unset_leaves_edited_file (iface : string) (s : Machine T) :
  is_ok (unsetDNSWithSystemdResolve iface s).1 = true ->
  (forall args s', mc_files (after execBusctl args "" s') = mc_files s') ->
  is_ok (dns_op (DnsUnset iface) s).1 = true /\
  node resolvconfFilePath (dns_op (DnsUnset iface) s).2 = node resolvconfFilePath s.
Proof.
  intros Hok Hq. split; [done|]. cbn [dns_op]. unfold DefaultSetter_Unset, ignore. cbn [NewSetter map first_success method_Unset snd].
  unfold bind at 1, attempt. destruct (unsetDNSWithSystemdResolve iface s) as [[[]|e] s'] eqn:Hu; [|done]. cbn [ret snd].
  assert (Hcall : forall args what, preserves (fun x => mc_files x = mc_files s) (resolve_call args what)).
  { intros args what x Hx. unfold resolve_call, run_checked, bind. rewrite CombinedOutput_run.
    destruct (exec_Command execBusctl _ "" x).1.2; cbn [snd throw ret]; by rewrite Hq. }
  assert (Hp : preserves (fun x => mc_files x = mc_files s) (unsetDNSWithSystemdResolve iface)).
  { unfold unsetDNSWithSystemdResolve, flush_caches. pres_auto. intros x Hx. unfold on_sys, zoom. by destruct (net_InterfaceByName iface (mc_sys x)). }
  specialize (Hp s eq_refl). rewrite Hu in Hp. unfold node. cbn [snd] in Hp. by rewrite Hp.
Qed.
End SetterOps.

(** ** The arguments for systemd-resolved *)

(** What [busctl] reads for the signature [ia(iay)]: a number, and an array given by its
    length and elements, each a number and an array of bytes given by its length. *)
Definition read_byte (w : string) : option Z :=
  b ← atoi w; if (0 <=? b) && (b <=? 255) then Some b else None.
Definition read_int32 (w : string) : option Z :=
  i ← atoi w; if (- 2 ^ 31 <=? i) && (i <? 2 ^ 31) then Some i else None.

Fixpoint read_bytes (k : nat) (args : list string) : option (list Z * list string) :=
  match k, args with
  | O, _ => Some ([], args)
  | S k', w :: args' => b ← read_byte w; '(bs, rest) ← read_bytes k' args'; Some (b :: bs, rest)
  | S _, [] => None
  end.

Fixpoint read_structs (k : nat) (args : list string) : option (list (Z * list Z)) :=
  match k, args with
  | O, [] => Some []
  | S k', family :: len :: args' =>
      f ← read_int32 family; n ← atoi len;
      '(bs, rest) ← read_bytes (Z.to_nat n) args';
      l ← read_structs k' rest; Some ((f, bs) :: l)
  | _, _ => None
  end.

Definition read_link_dns (args : list string) : option (Z * list (Z * list Z)) :=
  match args with
  | "SetLinkDNS" :: "ia(iay)" :: index :: count :: args' =>
      i ← read_int32 index; n ← atoi count; l ← read_structs (Z.to_nat n) args'; Some (i, l)
  | _ => None
  end.

(** The family and the bytes of an address, by the form [net.IP] has for it. *)
Definition wire (ip : Addr) : Z * list Z :=
  match addr_To4 ip, ip with
  | Some a, _ => (2, v4_octets a)
  | None, AddrV6 a => (10, v6_octets a)
  | None, _ => (10, [])
  end.

Lemma land_byte a : 0 <= Z.land a 255 <= 255.
Proof.
  pose proof (Z.land_ones a 8 ltac:(lia)) as Hl. change (Z.ones 8) with 255 in Hl. rewrite Hl. change (2 ^ 8) with 256.
  pose proof (Z.mod_pos_bound a 256). lia.
Qed.

Lemma read_int_pretty z : - 2 ^ 31 <= z < 2 ^ 31 -> read_int32 (pretty z) = Some z.
Proof.
  intros Hz. unfold read_int32. change (pretty z) with (itoa z).
  rewrite atoi_itoa by (change max_int64 with 9223372036854775807; change (- 2 ^ 63) with (-9223372036854775808); lia).
  cbn [mbind option_bind]. by rewrite (proj2 (Z.leb_le (- 2 ^ 31) z)), (proj2 (Z.ltb_lt z (2 ^ 31))) by lia.
Qed.

Lemma read_bytes_pretty bs rest : Forall (fun b => 0 <= b <= 255) bs -> read_bytes (length bs) (map pretty bs ++ rest) = Some (bs, rest).
Proof.
  induction 1 as [|b bs Hb Hbs IH]; [done|]. cbn [length map app read_bytes]. unfold read_byte. change (pretty b) with (itoa b).
  rewrite atoi_itoa by (change max_int64 with 9223372036854775807; change (- 2 ^ 63) with (-9223372036854775808); lia). cbn [mbind option_bind].
  rewrite (proj2 (Z.leb_le 0 b)), (proj2 (Z.leb_le b 255)) by lia. cbn [andb mbind option_bind]. by rewrite IH.
Qed.

Lemma parse_not_invalid s : net_ParseIP s <> Some AddrInvalid.
Proof.
  unfold net_ParseIP, ParseAddr. destruct (addr_kind s) as [c|]; [|done].
  assert (Hv6 : (if str_contains s "%" then None else AddrV6 <$> parse_v6 s) <> Some AddrInvalid)
    by (destruct (str_contains s "%"); [done|]; by destruct (parse_v6 s)).
  destruct (decide (c = "."%char)) as [-> |Hc]; [by destruct (parse_v4 s)|].
  destruct c as [[] [] [] [] [] [] [] []]; try exact Hv6. by destruct (parse_v4 s).
Qed.

Lemma read_struct address ip rest k :
  net_ParseIP address = Some ip ->
  read_structs (S k) (address_args address ++ rest) = (l ← read_structs k rest; Some (wire ip :: l)).
Proof.
  intros Hip. unfold address_args, wire. rewrite Hip. pose proof (parse_not_invalid address) as Hni.
  assert (H4 : forall a, Forall (fun b => 0 <= b <= 255) (v4_octets a)).
  { intros a. unfold v4_octets. rewrite Forall_map. apply Forall_forall. intros i _. apply land_byte. }
  assert (H6 : forall a, Forall (fun b => 0 <= b <= 255) (v6_octets a)).
  { intros a. unfold v6_octets. rewrite Forall_map. apply Forall_forall. intros i _. apply land_byte. }
  destruct (addr_To4 ip) as [a|] eqn:H4a.
  - pose proof (read_bytes_pretty (v4_octets a) rest (H4 a)) as Hr. cbn [app read_structs].
    change (read_int32 "2") with (Some 2). change (atoi "4") with (Some 4). cbn [mbind option_bind].
    change (Z.to_nat 4) with (length (v4_octets a)). by rewrite Hr.
  - destruct ip as [|a|a]; [by rewrite Hip in Hni|done|].
    pose proof (read_bytes_pretty (v6_octets a) rest (H6 a)) as Hr. cbn [app read_structs].
    change (read_int32 "10") with (Some 10). change (atoi "16") with (Some 16). cbn [mbind option_bind].
    change (Z.to_nat 16) with (length (v6_octets a)). by rewrite Hr.
Qed.

(** C33: the arguments for systemd-resolved.  For a link and addresses that can be
    parsed, the arguments of the call have the type [ia(iay)] they declare, and read
    back they are the link and, in order, the family and the bytes of each address. *)
Theorem link_dns_args_typed (index : Z) (addresses : list string) (ips : list Addr) :
  - 2 ^ 31 <= index < 2 ^ 31 -> Z.of_nat (length addresses) <= max_int64 ->
  Forall2 (fun address ip => net_ParseIP address = Some ip) addresses ips ->
  read_link_dns (link_dns_args index addresses) = Some (index, map wire ips).
Proof.
  intros Hi Hl Hips. unfold link_dns_args, read_link_dns. cbn [app]. rewrite read_int_pretty by done. cbn [mbind option_bind].
  change (pretty (Z.of_nat (length addresses))) with (itoa (Z.of_nat (length addresses))).
  rewrite atoi_itoa by (change (- 2 ^ 63) with (-9223372036854775808); lia). cbn [mbind option_bind]. rewrite Nat2Z.id.
  enough (Hr : read_structs (length addresses) (concat (map address_args addresses)) = Some (map wire ips)) by by rewrite Hr.
  clear Hl. induction Hips as [|address ip addresses ips Hip _ IH]; [done|]. cbn [length map concat].
  rewrite (read_struct address ip) by done. by rewrite IH.
Qed.

(** ** Machines *)

Module Box.

(** A machine with [chattr] and [lsattr] only, and one where [busctl] works too. *)
Inductive Bare : Type := bare.
Inductive Desktop : Type := desktop.

Definition exec {T} (busctl : bool) (name : string) (args : list string) (stdin : string) (s : Machine T) :
    string * option error * Machine T :=
  if bool_decide (name = ChattrExec) then
    match args with
    | [flag; p] => ("", None, s <| mc_files := alter (fun n => n <| fn_Immutable := bool_decide (flag = "+i") |>) p (mc_files s) |>)
    | _ => ("", Some (Errorf "usage"), s)
    end
  else if bool_decide (name = LsattrExec) then
    match args with
    | [_; p] => (if immutable p s then "Immutable" else "---", None, s)
    | _ => ("", Some (Errorf "usage"), s)
    end
  else if busctl && bool_decide (name = execBusctl) then ("", None, s)
  else ("", Some (Errorf "exec: not found"), s).

#[export] Instance bare_system : System Bare := {|
  exec_Command := exec false;
  os_Getenv := fun _ _ => "";
  exec_LookPath := fun name _ => Some name;
  os_Getwd := ret "/";
  net_InterfaceByName := fun name => ret (mkNetIface name 7 1500 true (Ok []));
  net_Interfaces := ret [];
  net_ListenPacket := fun _ _ => ret tt
|}.
#[export] Instance desktop_system : System Desktop := {|
  exec_Command := exec true;
  os_Getenv := fun _ _ => "";
  exec_LookPath := fun name _ => Some name;
  os_Getwd := ret "/";
  net_InterfaceByName := fun name => ret (mkNetIface name 7 1500 true (Ok []));
  net_Interfaces := ret [];
  net_ListenPacket := fun _ _ => ret tt
|}.

#[export] Instance no_netlink T : Netlink T := {|
  netlink_RouteAdd := fun _ => ret tt;
  netlink_RouteDel := fun _ => ret tt;
  netlink_RouteList := fun _ => ret [];
  netlink_RuleList := fun _ => ret [];
  netlink_RuleAdd := fun _ _ => ret tt;
  netlink_RuleDel := fun _ _ => ret tt;
  netlink_LinkGroup := fun _ => ret 0;
  netlink_LinkSetGroup := fun _ _ => ret tt;
  netlink_LinkList := ret [];
  net_InterfaceByIndex := fun _ => throw (Errorf "no such interface");
  device_list := ret [];
  rpfilter_Set := ret tt;
  rpfilter_Unset := ret tt;
  sort_routes := fun l => l
|}.

Lemma bare_attr : AttrTools Bare true.
Proof.
  split.
  - intros flag lock p s [[= -> ->]|[= -> ->]]; done.
  - intros flag p s. done.
  - intros p s. done.
  - intros p s _. unfold exec_Command, bare_system, exec. rewrite bool_decide_false, bool_decide_true by done.
    cbn. by destruct (immutable p s).
Qed.

Lemma bare_no_resolver : NoResolver Bare.
Proof.
  assert (Hx : forall name args stdin (s : Machine Bare), name ∈ [execBusctl; execResolvectl; execResolvconf] ->
    exec_Command name args stdin s = ("", Some (Errorf "exec: not found"), s)).
  { intros name args stdin s Hn. unfold exec_Command, bare_system, exec.
    assert (name <> ChattrExec /\ name <> LsattrExec) as [Hc Hl].
    { split; intros ->; repeat (apply elem_of_cons in Hn as [Hn|Hn]; [done|]); by apply not_elem_of_nil in Hn. }
    by rewrite (bool_decide_false (name = ChattrExec)), (bool_decide_false (name = LsattrExec)). }
  split.
  - intros name args stdin s Hn. unfold failed. by rewrite Hx.
  - intros name args stdin s Hn. unfold after. by rewrite Hx.
  - done.
Qed.

Definition user_text : string := "nameserver 192.168.1.1" +:+ newline_str.
Definition start {T} (sys : T) : Machine T :=
  mkMachine (<[resolvconfFilePath := mkFileNode user_text 420 false false]> ∅) [] sys.

(** The file is edited and given back on a concrete machine. *)
Lemma resolv_conf_restored_witness :
  let s' := run_ops dns_op [DnsSet "nordlynx" ["103.86.96.100"]; DnsSet "nordlynx" ["1.1.1.1"; "1.0.0.1"]] (start bare) in
  (forall iface l, l <> [] -> Forall no_newline l ->
     is_ok (dns_op (DnsSet iface l) s').1 = true /\
     exists text, content resolvconfFilePath (dns_op (DnsSet iface l) s').2 = Some text /\ nameservers_in text = l) /\
  (forall iface, iface <> "" ->
     let s'' := (dns_op (DnsUnset iface) s').2 in
     exists n', node resolvconfFilePath s'' = Some n' /\ fn_Content n' = user_text /\ fn_Immutable n' = false /\
                node (backup_path "") s'' = None).
Proof.
  apply (resolv_conf_restored true [DnsSet "nordlynx" ["103.86.96.100"]; DnsSet "nordlynx" ["1.1.1.1"; "1.0.0.1"]] "" user_text
           (start bare) (mkFileNode user_text 420 false false));
    [exact bare_attr|exact bare_no_resolver|vm_compute; discriminate|reflexivity|reflexivity|reflexivity|reflexivity|reflexivity|reflexivity|reflexivity
    |reflexivity|reflexivity|repeat constructor].
Defined.

(** The name servers stay in the file: setting through systemd-resolved failed, and
    unsetting through it succeeds. *)
Lemma unset_leaves_edited_file_witness :
  let s := (setDNSinResolvconfFile ["103.86.96.100"] (start desktop)).2 in
  is_ok (dns_op (DnsUnset "nordlynx") s).1 = true /\
  node resolvconfFilePath (dns_op (DnsUnset "nordlynx") s).2 = node resolvconfFilePath s.
Proof. apply (unset_leaves_edited_file "nordlynx"); [reflexivity|]. intros args s'. reflexivity. Defined.

Example edited_file_left :
  fn_Content <$> node resolvconfFilePath (setDNSinResolvconfFile ["103.86.96.100"] (start desktop)).2 =
  Some (resolvconf_text ["103.86.96.100"]).
Proof. reflexivity. Qed.

Lemma link_dns_args_typed_witness :
  read_link_dns (link_dns_args 7 ["103.86.96.100"; "2400:bb40:4444::100"]) =
  Some (7, map wire [AddrV4 (v4 103 86 96 100); AddrV6 47856005750582442823409197750060843264]).
Proof.
  apply (link_dns_args_typed 7 ["103.86.96.100"; "2400:bb40:4444::100"]
           [AddrV4 (v4 103 86 96 100); AddrV6 47856005750582442823409197750060843264]); [lia|done|].
  repeat constructor; vm_compute; reflexivity.
Defined.

(** An address that cannot be parsed is given without its bytes. *)
Example unparsable_address_untyped : read_link_dns (link_dns_args 7 ["localhost"]) = None.
Proof. reflexivity. Qed.

Definition hosts_text : string :=
  "127.0.0.1 localhost" +:+ newline_str +:+ "10.5.0.2" +:+ tab +:+ "old.nord" +:+ tab +:+ mark +:+ newline_str.
Definition peer : DnsHost := mkDnsHost (AddrV4 (v4 100 64 0 3)) "host-alps.nord" ["alps"].

Lemma hosts_file_keeps_user_part_witness :
  exists n', node HostsFilePath (run_ops (hosts_op HostsFilePath) ([HostsSet [peer]; HostsUnset] ++ [HostsSet [peer]])
               (mkMachine (<[HostsFilePath := mkFileNode hosts_text 420 false false]> ∅) [] bare)) = Some n' /\
    user_part (fn_Content n') = user_part hosts_text /\ own_lines (fn_Content n') = asked (HostsSet [peer]).
Proof.
  apply (hosts_file_keeps_user_part HostsFilePath [HostsSet [peer]; HostsUnset] (HostsSet [peer])
           (mkMachine (<[HostsFilePath := mkFileNode hosts_text 420 false false]> ∅) [] bare) (mkFileNode hosts_text 420 false false));
    [reflexivity|reflexivity|reflexivity|repeat constructor|].
  repeat constructor; vm_compute; congruence.
Defined.

Example hosts_after_set :
  setHostLines hosts_text [peer] =
  "127.0.0.1 localhost" +:+ newline_str +:+ newline_str +:+ "100.64.0.3" +:+ tab +:+ "host-alps.nord" +:+ tab +:+ "alps" +:+
  tab +:+ mark +:+ newline_str.
Proof. vm_compute. reflexivity. Qed.
End Box.
