(* ===== verification/AllowlistRouting.v ===== *)
(** * AllowlistRouting: marking the traffic of allowlisted ports

    Models [daemon/firewall/allowlist/allowlist_routing.go]: rules of the mangle table
    that mark packets of allowlisted ports, added by port range and removed by their
    comment.  Removing lists a chain, deletes the first own rule by its number and
    starts again; the recursion has fuel, and the theorem says how much is enough.
    Running a command is a parameter; [MangleLaws] is what [iptables] documents of
    listing with line numbers, inserting and deleting. *)

From stdpp Require Import base option list strings pretty gmap.
From Stdlib Require Import ZArith Ascii Lia.
From S2P Require Import Prelude GoLib IPTables GoText.

Open Scope Z_scope.
Open Scope go_scope.

Definition RuleComment : string := "nordvpn_allowlist".
Definition iptablesCmd : string := "iptables".

Class MangleRunner (K : Type) : Type := {
  run_mangle : string -> list string -> K -> (string * option error) * K
}.

Section Routing.
Context {K : Type} `{MangleRunner K}.

Definition run_command (args : list string) : M K (string * option error) := fun k =>
  let '(r, k') := run_mangle iptablesCmd args k in (Ok r, k').

(** A command whose error is returned with its output. *)
Definition run_or (pre : string) (args : list string) : M K string :=
  let! r := run_command args in
  match r.2 with
  | None => ret r.1
  | Some e => throw (Wrapf pre e (": " +:+ r.1))
  end.

Definition insert_args (chain protocol option port mark : string) : list string :=
  strings_Fields ("-t mangle -I " +:+ chain +:+ " -p " +:+ protocol +:+ " " +:+ option +:+ " " +:+ port +:+
                  " -j MARK --set-mark " +:+ mark +:+ " -m comment --comment " +:+ RuleComment).

(** Whether a line of the listing shows a rule with the comment, the mark and the type. *)
Definition shows_rule (ruleType mark line : string) : bool :=
  str_contains line RuleComment && str_contains line mark && str_contains line ruleType.

Definition checkRouting (ruleType mark : string) : M K bool :=
  let! out := run_or "iptables listing rules: " (strings_Fields "-t mangle -L PREROUTING -v -n") in
  ret (existsb (shows_rule ruleType mark) (List.filter (fun l => negb (bool_decide (l = ""))) (split_char newline out))).

Definition routePortsToIPTables (port protocol mark : string) : M K unit :=
  let! rc := checkRouting (protocol +:+ " --dport " +:+ port) mark in
  if rc then ret tt
  else
    run_or "iptables inserting rule: " (insert_args "PREROUTING" protocol "--dport" port mark) ;;
    run_or "iptables inserting rule: " (insert_args "OUTPUT" protocol "--sport" port mark) ;;
    ret tt.

Definition range_text (r : PortRange) : string :=
  if pr_Min r =? pr_Max r then itoa (pr_Min r) else itoa (pr_Min r) +:+ ":" +:+ itoa (pr_Max r).

Definition EnablePorts (ports : list Z) (protocol mark : string) : M K unit :=
  forM_ (PortsToPortRanges ports) (fun portRange =>
    wrapped "enabling allowlist for subnets: " (routePortsToIPTables (range_text portRange) protocol mark) "").

Definition list_args (chain : string) : list string :=
  split_char " "%char ("-t mangle -L " +:+ chain +:+ " -v -n --line-numbers").
Definition delete_args (chain ruleno : string) : list string :=
  split_char " "%char ("-t mangle -D " +:+ chain +:+ " " +:+ ruleno).

Definition own_line (line : string) : bool := negb (bool_decide (line = "")) && str_contains line RuleComment.
Definition index_panic : error := Sentinel "runtime error: index out of range".

(** [None] when the fuel does not suffice. *)
Fixpoint getCleanupIPTablesRules (fuel : nat) (chain : string) (k : K) : option (result unit * K) :=
  match fuel with
  | O => None
  | S fuel' =>
      match run_or "iptables listing rules: " (list_args chain) k with
      | (Err e, k1) => Some (Err e, k1)
      | (Ok out, k1) =>
          match find own_line (split_char newline out) with
          | None => Some (Ok tt, k1)
          | Some line =>
              match strings_Fields line with
              | [] => Some (Err index_panic, k1)
              | ruleno :: _ =>
                  match run_or "iptables deleting rule: " (delete_args chain ruleno) k1 with
                  | (Err e, k2) => Some (Err e, k2)
                  | (Ok _, k2) => getCleanupIPTablesRules fuel' chain k2
                  end
              end
          end
      end
  end.

Fixpoint clear_chains (fuel : nat) (chains : list string) (k : K) : option (result unit * K) :=
  match chains with
  | [] => Some (Ok tt, k)
  | chain :: chains' =>
      match getCleanupIPTablesRules fuel chain k with
      | Some (Ok _, k') => clear_chains fuel chains' k'
      | r => r
      end
  end.

Definition chains : list string := ["PREROUTING"; "OUTPUT"].
Definition clearRouting (fuel : nat) : K -> option (result unit * K) := clear_chains fuel chains.

Definition Disable (fuel : nat) (k : K) : option (result unit * K) :=
  match clearRouting fuel k with
  | Some (Err e, k') => Some (Err (Wrapf "clearing allowlisting: " e ""), k')
  | r => r
  end.
End Routing.

(** ** What iptables does *)

(** A rule as [-L -v -n] prints it; with [--line-numbers] its number comes first. *)
Definition is_own (rule : string) : bool := str_contains rule RuleComment.
Definition foreign (rules : list string) : list string := List.filter (fun r => negb (is_own r)) rules.

Fixpoint numbered (i : Z) (rules : list string) : list string :=
  match rules with
  | [] => []
  | r :: rules' => (itoa i +:+ " " +:+ r) :: numbered (i + 1) rules'
  end.

(** A word of printable characters. *)
Definition plain_char (c : ascii) : bool := let n := nat_of_ascii c in ((33 <=? n) && (n <=? 126))%nat.
Definition word (w : string) : Prop := w <> EmptyString /\ all_chars plain_char w = true.

(** [rules k chain] are the rules of a chain of the mangle table. *)
Class MangleLaws (K : Type) `{MangleRunner K} (rules : K -> string -> list string) : Prop := {
  rules_lines k chain : Forall no_newline (rules k chain);
  list_keeps chain k c : chain ∈ chains -> rules (run_mangle iptablesCmd (list_args chain) k).2 c = rules k c;
  list_shows chain k :
    chain ∈ chains -> (run_mangle iptablesCmd (list_args chain) k).1.2 = None ->
    exists head, Forall (fun l => no_newline l /\ str_contains l RuleComment = false) head /\
      (run_mangle iptablesCmd (list_args chain) k).1.1 = unlines (head ++ numbered 1 (rules k chain));
  check_keeps k c : rules (run_mangle iptablesCmd (strings_Fields "-t mangle -L PREROUTING -v -n") k).2 c = rules k c;
  delete_ok chain i k :
    chain ∈ chains -> (i < length (rules k chain))%nat ->
    (run_mangle iptablesCmd (delete_args chain (itoa (Z.of_nat (S i)))) k).1.2 = None ->
    forall c, rules (run_mangle iptablesCmd (delete_args chain (itoa (Z.of_nat (S i)))) k).2 c =
      if bool_decide (c = chain) then firstn i (rules k c) ++ skipn (S i) (rules k c) else rules k c;
  delete_err chain ruleno k :
    chain ∈ chains -> (run_mangle iptablesCmd (delete_args chain ruleno) k).1.2 <> None ->
    forall c, rules (run_mangle iptablesCmd (delete_args chain ruleno) k).2 c = rules k c;
  insert_ok chain protocol option port mark k :
    chain ∈ chains -> word protocol -> word option -> word port -> word mark ->
    (run_mangle iptablesCmd (insert_args chain protocol option port mark) k).1.2 = None ->
    exists r, is_own r = true /\
      forall c, rules (run_mangle iptablesCmd (insert_args chain protocol option port mark) k).2 c =
        if bool_decide (c = chain) then r :: rules k c else rules k c;
  insert_err chain protocol option port mark k :
    chain ∈ chains -> (run_mangle iptablesCmd (insert_args chain protocol option port mark) k).1.2 <> None ->
    forall c, rules (run_mangle iptablesCmd (insert_args chain protocol option port mark) k).2 c = rules k c
}.

(** ** Lines and numbers *)

Lemma plain_not_space c : plain_char c = true -> ascii_space c = false /\ (forall b, space2 c b = false) /\ (forall b d, space3 c b d = false).
Proof.
  by destruct c as [[] [] [] [] [] [] [] []].
Qed.

(** Reading a word goes on with the rest. *)
Lemma fields_word w v t :
  all_chars plain_char w = true -> fields_from v (w +:+ t) = fields_from (v +:+ w) t.
Proof.
  revert v. induction w as [|a w IH]; intros v; [by rewrite string_app_nil_r|]. cbn [all_chars]. intros [Ha Hw]%andb_true_iff.
  rewrite string_app_cons. destruct (plain_not_space a Ha) as (H1 & H2 & H3).
  assert (Hstep : fields_from v (String a (w +:+ t)) = fields_from (v +:+ String a EmptyString) (w +:+ t)).
  { cbn [fields_from]. rewrite H1. destruct (w +:+ t) as [|b [|c s]]; [done|by rewrite H2|by rewrite H2, H3]. }
  rewrite Hstep, IH by done. by rewrite str_app_assoc.
Qed.

Lemma fields_cons w t : word w -> strings_Fields (w +:+ String " " t) = w :: strings_Fields t.
Proof.
  intros [Hne Hw]. unfold strings_Fields. rewrite fields_word by done. rewrite string_app_nil_l. cbn [fields_from].
  change (ascii_space " ") with true. cbn iota. by rewrite bool_decide_false.
Qed.

Lemma fields_join ws : Forall word ws -> strings_Fields (strings_Join ws " ") = ws.
Proof.
  induction 1 as [|w ws [Hne Hw] Hws IH]; [done|]. destruct ws as [|w' ws].
  - unfold strings_Fields. cbn [strings_Join String.concat]. rewrite <- (string_app_nil_r w) at 1. rewrite fields_word by done.
    cbn. by rewrite bool_decide_false.
  - rewrite strings_Join_cons by done. change (w +:+ " " +:+ ?t) with (w +:+ String " " t). by rewrite fields_cons, IH.
Qed.

Lemma itoa_word z : 0 <= z -> word (itoa z).
Proof.
  intros Hz. split.
  - intros He. pose proof (parse_itoa z Hz) as Hp. by rewrite He in Hp.
  - pose proof (itoa_digits z Hz) as Hd. induction (itoa z) as [|c s IH]; [done|]. cbn [all_chars] in *.
    apply andb_true_iff in Hd as [Hc Hs]. rewrite IH, andb_true_r by done. revert Hc. by destruct c as [[] [] [] [] [] [] [] []].
Qed.

Lemma own_numbered i r : 0 <= i -> own_line (itoa i +:+ " " +:+ r) = is_own r.
Proof.
  intros Hi. unfold own_line, is_own. destruct (itoa_word i Hi) as [Hne _].
  rewrite bool_decide_false by (destruct (itoa i); [done|by rewrite string_app_cons]). cbn [negb andb].
  change (" " +:+ r) with (String " " r). rewrite str_contains_sep by (repeat split; done || discriminate).
  unfold RuleComment. rewrite no_char_contains; [done|]. eapply all_chars_no_char, itoa_digits; done.
Qed.

Lemma numbered_lines i rules : 0 <= i -> Forall no_newline rules -> Forall no_newline (numbered i rules).
Proof.
  intros Hi Hr. revert i Hi. induction Hr as [|r rules Hr _ IH]; intros i Hi; constructor; [|apply IH; lia].
  apply no_char_app; [eapply all_chars_no_char, itoa_digits; done|]. by split.
Qed.

(** The first own rule of a chain, and its line. *)
Lemma find_own i rules :
  0 <= i ->
  (foreign rules = rules /\ find own_line (numbered i rules ++ [EmptyString]) = None) \/
  (exists l r l', rules = l ++ r :: l' /\ foreign l = l /\ is_own r = true /\
     find own_line (numbered i rules ++ [EmptyString]) = Some (itoa (i + Z.of_nat (length l)) +:+ " " +:+ r)).
Proof.
  intros Hi. revert i Hi. induction rules as [|r rules IH]; intros i Hi; [by left|]. cbn [numbered app find]. rewrite own_numbered by done.
  unfold foreign. cbn [List.filter]. destruct (is_own r) eqn:Hr; cbn [negb].
  - right. exists [], r, rules. cbn [length]. by rewrite Z.add_0_r.
  - destruct (IH (i + 1)) as [[Hf Hn]|(l & r' & l' & -> & Hl & Hr' & Hn)]; [lia| |].
    + left. split; [by f_equal|done].
    + right. exists (r :: l), r', l'. split_and!; [done| |done|].
      * unfold foreign in *. cbn [List.filter]. rewrite Hr. cbn [negb]. by f_equal.
      * rewrite Hn. cbn [length]. do 2 f_equal. f_equal. lia.
Qed.

(** ** Removing the rules *)

Section Properties.
Context {K : Type} `{MangleRunner K} {rules : K -> string -> list string} `{!MangleLaws K rules}.
Implicit Type k : K.

Lemma foreign_app l l' : foreign (l ++ l') = foreign l ++ foreign l'.
Proof. apply List.filter_app. Qed.
Lemma foreign_idem l : foreign (foreign l) = foreign l.
Proof.
  unfold foreign. induction l as [|r l IH]; [done|]. cbn [List.filter]. destruct (negb (is_own r)) eqn:Hr; [|done].
  cbn [List.filter]. by rewrite Hr, IH.
Qed.

Definition own_count k chain : nat := length (List.filter is_own (rules k chain)).

Lemma run_or_cases pre args k :
  (exists e, run_or pre args k = (Err e, (run_mangle iptablesCmd args k).2) /\ (run_mangle iptablesCmd args k).1.2 <> None) \/
  (run_or pre args k = (Ok (run_mangle iptablesCmd args k).1.1, (run_mangle iptablesCmd args k).2) /\
   (run_mangle iptablesCmd args k).1.2 = None).
Proof.
  unfold run_or, run_command, bind. destruct (run_mangle iptablesCmd args k) as [[out [e|]] k']; cbn; [left; by eexists|by right].
Qed.

(** The rules of other programs are kept in every chain. *)
Definition foreign_kept k k' : Prop := forall c, foreign (rules k' c) = foreign (rules k c).

(** One deletion: the rules before and after it. *)
Lemma delete_step chain k l r l' :
  chain ∈ chains -> rules k chain = l ++ r :: l' -> is_own r = true ->
  (run_mangle iptablesCmd (delete_args chain (itoa (Z.of_nat (S (length l))))) k).1.2 = None ->
  let k' := (run_mangle iptablesCmd (delete_args chain (itoa (Z.of_nat (S (length l))))) k).2 in
  rules k' chain = l ++ l' /\ (forall c, c <> chain -> rules k' c = rules k c) /\ foreign_kept k k' /\
  own_count k chain = S (own_count k' chain).
Proof.
  intros Hc Hk Hr Hd k'. pose proof (delete_ok chain (length l) k Hc) as Hdel. rewrite Hk in Hdel.
  specialize (Hdel ltac:(rewrite length_app; cbn; lia) Hd). fold k' in Hdel.
  assert (Hch : rules k' chain = l ++ l').
  { rewrite Hdel, bool_decide_true, Hk by done. rewrite firstn_app, firstn_all, Nat.sub_diag. cbn [firstn]. rewrite app_nil_r.
    change (r :: l') with ([r] ++ l'). rewrite app_assoc, skipn_app.
    rewrite (skipn_all2 (l ++ [r])) by (rewrite length_app; cbn; lia). rewrite length_app. cbn [length].
    by replace (S (length l) - (length l + 1))%nat with 0%nat by lia. }
  assert (Hot : forall c, c <> chain -> rules k' c = rules k c) by (intros c Hne; by rewrite Hdel, bool_decide_false).
  split_and!; [done|done| |].
  - intros c. destruct (decide (c = chain)) as [->|Hne]; [|by rewrite Hot]. rewrite Hch, Hk, !foreign_app. f_equal.
    unfold foreign. cbn [List.filter]. by rewrite Hr.
  - unfold own_count. rewrite Hch, Hk, !List.filter_app, !length_app. cbn [List.filter]. rewrite Hr. cbn [length]. lia.
Qed.

(** Listing a chain finds its first own rule. *)
Lemma listing_finds chain k :
  chain ∈ chains -> (run_mangle iptablesCmd (list_args chain) k).1.2 = None ->
  (foreign (rules k chain) = rules k chain /\
     find own_line (split_char newline (run_mangle iptablesCmd (list_args chain) k).1.1) = None) \/
  (exists l r l' ws, rules k chain = l ++ r :: l' /\ foreign l = l /\ is_own r = true /\ exists line,
     find own_line (split_char newline (run_mangle iptablesCmd (list_args chain) k).1.1) = Some line /\
     strings_Fields line = itoa (Z.of_nat (S (length l))) :: ws).
Proof.
  intros Hc Hl. destruct (list_shows chain k Hc Hl) as (head & Hh & ->).
  rewrite split_unlines.
  2: { apply Forall_app. split; [eapply Forall_impl; [exact Hh|by intros ? []]|]. apply numbered_lines; [lia|apply rules_lines]. }
  assert (Hhead : forall t, find own_line ((head ++ numbered 1 (rules k chain)) ++ t) = find own_line (numbered 1 (rules k chain) ++ t)).
  { intros t. clear Hl. induction Hh as [|x head [_ Hx] _ IH]; [done|]. cbn [app find]. unfold own_line at 1. by rewrite Hx, andb_false_r. }
  rewrite Hhead. destruct (find_own 1 (rules k chain)) as [[Hf Hn]|(l & r & l' & Hk & Hfl & Hr & Hn)]; [lia|by left|].
  right. pose proof (fields_cons _ r (itoa_word (1 + Z.of_nat (length l)) ltac:(lia))) as Hws.
  exists l, r, l', (strings_Fields r). split_and!; [done..|]. eexists. split; [exact Hn|].
  change (" " +:+ r) with (String " " r). rewrite Hws. do 2 f_equal. lia.
Qed.

Lemma cleanup_run chain fuel k :
  chain ∈ chains -> (own_count k chain < fuel)%nat ->
  exists r k', getCleanupIPTablesRules fuel chain k = Some (r, k') /\ foreign_kept k k' /\
    (forall c, c <> chain -> rules k' c = rules k c) /\ (r = Ok tt -> rules k' chain = foreign (rules k chain)).
Proof.
  intros Hc. revert k. induction fuel as [|fuel IH]; intros k Hfuel; [lia|]. cbn [getCleanupIPTablesRules].
  pose proof (fun c => list_keeps chain k c Hc) as Hkeep.
  assert (Hsame : foreign_kept k (run_mangle iptablesCmd (list_args chain) k).2) by (intros c; by rewrite Hkeep).
  destruct (run_or_cases "iptables listing rules: " (list_args chain) k) as [(e & -> & _)|[-> Hl]].
  { eexists _, _. split; [done|]. split_and!; [done|done|done]. }
  set (k1 := (run_mangle iptablesCmd (list_args chain) k).2) in *.
  destruct (listing_finds chain k Hc Hl) as [[Hf ->]|(l & r & l' & ws & Hk & Hfl & Hr & line & -> & ->)].
  { eexists _, _. split; [done|]. split_and!; [done|done|]. intros _. by rewrite Hkeep, Hf. }
  assert (Hk1 : rules k1 chain = l ++ r :: l') by by rewrite Hkeep.
  destruct (run_or_cases "iptables deleting rule: " (delete_args chain (itoa (Z.of_nat (S (length l))))) k1) as [(e & -> & He)|[-> Hd]].
  { eexists _, _. split; [done|]. pose proof (delete_err chain _ k1 Hc He) as Hde. split_and!; [|intros c _; by rewrite Hde, Hkeep|done].
    intros c. by rewrite Hde, Hkeep. }
  destruct (delete_step chain k1 l r l' Hc Hk1 Hr Hd) as (Hch & Hot & Hfk & Hcnt). set (k2 := (run_mangle _ _ k1).2) in *.
  destruct (IH k2) as (res & k' & -> & Hfk' & Hot' & Hok).
  { unfold own_count in Hfuel, Hcnt. rewrite <- (Hkeep chain) in Hfuel. unfold own_count. lia. }
  eexists _, _. split; [done|]. split_and!.
  - intros c. by rewrite Hfk', Hfk, Hkeep.
  - intros c Hne. by rewrite Hot', Hot, Hkeep.
  - intros Hres. rewrite Hok by done. by rewrite Hfk, Hkeep.
Qed.

Lemma clear_run fuel k :
  (own_count k "PREROUTING" < fuel)%nat -> (own_count k "OUTPUT" < fuel)%nat ->
  exists r k', Disable fuel k = Some (r, k') /\ foreign_kept k k' /\
    (r = Ok tt -> forall chain, chain ∈ chains -> rules k' chain = foreign (rules k chain)).
Proof.
  intros Hp Ho. unfold Disable, clearRouting, chains. cbn [clear_chains].
  destruct (cleanup_run "PREROUTING" fuel k) as (r1 & k1 & -> & Hf1 & Ho1 & Hok1); [by left|done|].
  destruct r1 as [[]|e]; [|by eexists _, _].
  destruct (cleanup_run "OUTPUT" fuel k1) as (r2 & k2 & -> & Hf2 & Ho2 & Hok2); [by right; left| |].
  { unfold own_count. by rewrite Ho1. }
  assert (Hf : foreign_kept k k2) by (intros c; by rewrite Hf2, Hf1).
  destruct r2 as [[]|e]; [|by eexists _, _]. eexists _, _. split; [done|]. split; [done|]. intros _ chain Hc.
  apply elem_of_cons in Hc as [->|Hc]; [by rewrite Ho2, Hok1|]. apply list_elem_of_singleton in Hc as ->.
  by rewrite Hok2, Hf1.
Qed.

(** ** Adding rules *)

Lemma insert_kept chain protocol option port mark k :
  chain ∈ chains -> word protocol -> word option -> word port -> word mark ->
  foreign_kept k (run_mangle iptablesCmd (insert_args chain protocol option port mark) k).2.
Proof.
  intros Hch Hp Ho Hpt Hm c. destruct (run_mangle iptablesCmd (insert_args chain protocol option port mark) k).1.2 eqn:Hr.
  - rewrite insert_err; [done|done|]. by rewrite Hr.
  - destruct (insert_ok chain protocol option port mark k Hch Hp Ho Hpt Hm Hr) as (r & Hown & ->).
    destruct (bool_decide _); [|done]. unfold foreign. cbn [List.filter]. by rewrite Hown.
Qed.

Lemma run_or_state pre args k : (run_or pre args k).2 = (run_mangle iptablesCmd args k).2.
Proof. by destruct (run_or_cases pre args k) as [(e & -> & _)|[-> _]]. Qed.

Lemma route_kept port protocol mark k0 :
  word protocol -> word port -> word mark -> preserves (foreign_kept k0) (routePortsToIPTables port protocol mark).
Proof.
  intros Hp Hpt Hm. unfold routePortsToIPTables, checkRouting.
  assert (Hins : forall chain option, chain ∈ chains -> word option ->
    preserves (foreign_kept k0) (run_or "iptables inserting rule: " (insert_args chain protocol option port mark))).
  { intros chain option Hch Ho k Hk c. rewrite run_or_state, insert_kept by done. apply Hk. }
  assert (Hlist : preserves (foreign_kept k0) (run_or "iptables listing rules: " (strings_Fields "-t mangle -L PREROUTING -v -n"))).
  { intros k Hk c. rewrite run_or_state, check_keeps. apply Hk. }
  apply preserves_bind; [apply preserves_bind; [exact Hlist|intros; apply preserves_ret]|]. intros rc.
  destruct rc; [apply preserves_ret|]. apply preserves_bind; [apply Hins; [by left|done]|]. intros _.
  apply preserves_bind; [apply Hins; [by right; left|done]|intros; apply preserves_ret].
Qed.

(** The ends of a range are ports of the list. *)
Lemma PortsToPortRanges_ends ports r :
  r ∈ PortsToPortRanges ports -> pr_Min r ∈ ports /\ pr_Max r ∈ ports.
Proof.
  assert (Hloop : forall l r0 prev, pr_Min r0 ∈ ports -> pr_Max r0 ∈ ports -> Forall (fun q => q ∈ ports) l ->
    r ∈ port_ranges_loop r0 prev l -> pr_Min r ∈ ports /\ pr_Max r ∈ ports).
  { induction l as [|q l IH]; intros r0 prev Hmin Hmax Hl; cbn [port_ranges_loop].
    - by intros ->%list_elem_of_singleton.
    - inversion_clear Hl. destruct (_ =? _); [by apply IH|]. intros [->|Hr]%elem_of_cons; [done|].
      by apply (IH (mkPortRange q q) q). }
  unfold PortsToPortRanges. pose proof (sort_Ints_Permutation ports) as Hp.
  assert (Hin : Forall (fun q => q ∈ ports) (sort_Ints ports)) by (apply Forall_forall; intros q Hq; by rewrite <- Hp).
  destruct (sort_Ints ports) as [|q l]; [by intros ?%not_elem_of_nil|]. inversion_clear Hin. by apply Hloop.
Qed.

Lemma range_word r : 0 <= pr_Min r -> 0 <= pr_Max r -> word (range_text r).
Proof.
  intros Hmin Hmax. destruct (itoa_word _ Hmin) as [N1 W1], (itoa_word _ Hmax) as [N2 W2]. unfold range_text.
  destruct (_ =? _); [done|]. split; [by destruct (itoa (pr_Min r))|]. by rewrite !all_chars_app, W1, W2.
Qed.

Lemma enable_kept ports protocol mark k0 :
  Forall (fun p => 0 <= p) ports -> word protocol -> word mark -> preserves (foreign_kept k0) (EnablePorts ports protocol mark).
Proof.
  intros Hports Hp Hm. apply preserves_forM_in. intros r Hr. apply preserves_wrapped, route_kept; [done| |done].
  destruct (PortsToPortRanges_ends ports r Hr) as [Hmin Hmax].
  rewrite Forall_forall in Hports. apply range_word; by apply Hports.
Qed.

(** A call of [EnablePorts]: the ports, the protocol and the mark. *)
Definition enable_op (o : list Z * string * string) : M K unit := EnablePorts o.1.1 o.1.2 o.2.
Definition sane_op (o : list Z * string * string) : Prop :=
  Forall (fun p => 0 <= p) o.1.1 /\ word o.1.2 /\ word o.2.

(** C32: the rules that mark allowlisted traffic are removed again.  After any calls
    that add rules, whichever of their commands failed, removing them ends with fuel
    for every own rule of a chain and one more; the rules of other programs are then as
    they were before, and when no command failed only they are left. *)
Theorem allowlist_rules_removed (ops : list (list Z * string * string)) (k : K) (fuel : nat) :
  Forall sane_op ops ->
  let k1 := run_ops enable_op ops k in
  (own_count k1 "PREROUTING" < fuel)%nat -> (own_count k1 "OUTPUT" < fuel)%nat ->
  exists r k', Disable fuel k1 = Some (r, k') /\
    (forall chain, foreign (rules k' chain) = foreign (rules k chain)) /\
    (r = Ok tt -> forall chain, chain ∈ chains -> rules k' chain = foreign (rules k chain)).
Proof.
  intros Hops k1 Hp Ho. assert (Hk : foreign_kept k k1).
  { unfold k1. assert (foreign_kept k k) as Hkk by done. clear Hp Ho. revert Hkk. generalize k at 2 4.
    induction Hops as [|o ops (Hpos & Hpr & Hm) _ IH]; intros k2 Hk2; [done|]. cbn [run_ops]. apply IH, enable_kept; done. }
  destruct (clear_run fuel k1 Hp Ho) as (r & k' & Hd & Hf & Hok). exists r, k'. split; [done|]. split.
  - intros chain. by rewrite Hf, Hk.
  - intros Hr chain Hc. by rewrite Hok, Hk.
Qed.
End Properties.

(** ** iptables in memory *)

Module Mangle.

(** The rules of the two chains, as lines of [-L -v -n]. *)
Record State : Type := mkState { st_pre : list string; st_out : list string }.

(** A rule is printed on one line. *)
Fixpoint clean (s : string) : string :=
  match s with
  | EmptyString => EmptyString
  | String c s' => if Ascii.eqb c newline then clean s' else String c (clean s')
  end.

Definition raw_of (s : State) (chain : string) : list string :=
  if bool_decide (chain = "PREROUTING") then st_pre s else if bool_decide (chain = "OUTPUT") then st_out s else [].
Definition chain_of (s : State) (chain : string) : list string := map clean (raw_of s chain).
Definition put_chain (s : State) (chain : string) (l : list string) : State :=
  if bool_decide (chain = "PREROUTING") then mkState l (st_out s)
  else if bool_decide (chain = "OUTPUT") then mkState (st_pre s) l else s.

Definition head : list string :=
  ["Chain (policy ACCEPT 0 packets, 0 bytes)"; "num pkts bytes target prot opt in out source destination"].

(** A rule as it is printed: the ports of [--dport] after [dpt:]. *)
Definition rule_text (protocol option port mark comment : string) : string :=
  "0 0 MARK " +:+ protocol +:+ " -- * * 0.0.0.0/0 0.0.0.0/0 " +:+ protocol +:+
  (if bool_decide (option = "--dport") then " dpt:" else " spt:") +:+ port +:+ " /* " +:+ comment +:+ " */ MARK set " +:+ mark.

Inductive Command : Type :=
| List_ (chain : string) (numbers : bool)
| Delete (chain ruleno : string)
| Insert (chain protocol option port mark comment : string).

Definition parse (args : list string) : option Command :=
  match args with
  | ["-t"; "mangle"; "-L"; chain; "-v"; "-n"; "--line-numbers"] => Some (List_ chain true)
  | ["-t"; "mangle"; "-L"; chain; "-v"; "-n"] => Some (List_ chain false)
  | ["-t"; "mangle"; "-D"; chain; ruleno] => Some (Delete chain ruleno)
  | ["-t"; "mangle"; "-I"; chain; "-p"; protocol; option; port; "-j"; "MARK"; "--set-mark"; mark; "-m"; "comment"; "--comment"; comment] =>
      Some (Insert chain protocol option port mark comment)
  | _ => None
  end.

Definition run (name : string) (args : list string) (s : State) : (string * option error) * State :=
  match parse args with
  | Some (List_ chain numbers) =>
      ((unlines (head ++ (if numbers then numbered 1 (chain_of s chain) else chain_of s chain)), None), s)
  | Some (Delete chain ruleno) =>
      match parse_digits digit_val 10 ruleno with
      | Some n => if (1 <=? n) && (n <=? Z.of_nat (length (chain_of s chain))) then
                    let i := Z.to_nat (n - 1) in
                    (("", None), put_chain s chain (firstn i (raw_of s chain) ++ skipn (S i) (raw_of s chain)))
                  else (("iptables: Index of deletion too big.", Some (Errorf "exit status 1")), s)
      | None => (("", Some (Errorf "exit status 2")), s)
      end
  | Some (Insert chain protocol option port mark comment) =>
      (("", None), put_chain s chain (rule_text protocol option port mark comment :: raw_of s chain))
  | None => (("", Some (Errorf "exit status 2")), s)
  end.

#[export] Instance runner : MangleRunner State := {| run_mangle := run |}.

Lemma clean_no_newline r : no_newline (clean r).
Proof. induction r as [|c r IH]; [done|]. cbn. destruct (Ascii.eqb_spec c newline); [done|]. by split. Qed.
Lemma clean_id r : no_newline r -> clean r = r.
Proof. induction r as [|c r IH]; [done|]. intros [Hc Hr]. cbn. destruct (Ascii.eqb_spec c newline); [done|]. by rewrite IH. Qed.

Lemma raw_put s chain l c : chain ∈ chains -> raw_of (put_chain s chain l) c = if bool_decide (c = chain) then l else raw_of s c.
Proof.
  intros Hc. apply elem_of_cons in Hc as [->|Hc]; [|apply list_elem_of_singleton in Hc as ->]; unfold raw_of, put_chain; cbn.
  - by repeat case_bool_decide.
  - destruct (decide (c = "OUTPUT")) as [->|Hne]; [done|]. by rewrite (bool_decide_false (c = "OUTPUT")).
Qed.

(** A command that fails changes nothing. *)
Lemma run_err name args s : (run name args s).1.2 <> None -> (run name args s).2 = s.
Proof.
  unfold run. destruct (parse args) as [[chain n|chain ruleno|chain protocol option port mark comment]|]; cbn; [done| |done|done].
  destruct (parse_digits digit_val 10 ruleno) as [i|]; [|done]. by destruct (_ && _).
Qed.

Lemma parse_delete chain i : chain ∈ chains -> parse (delete_args chain (itoa (Z.of_nat (S i)))) = Some (Delete chain (itoa (Z.of_nat (S i)))).
Proof.
  intros Hc. unfold delete_args.
  assert (Hn : no_char " " (itoa (Z.of_nat (S i)))) by (eapply all_chars_no_char, itoa_digits; [done|lia]).
  apply elem_of_cons in Hc as [->|Hc]; [|apply list_elem_of_singleton in Hc as ->];
    change (" " +:+ itoa (Z.of_nat (S i))) with (String " " (itoa (Z.of_nat (S i))));
    rewrite <- str_app_assoc, split_char_app, (split_char_one _ _ Hn); done.
Qed.

Lemma insert_words chain protocol option port mark :
  word chain -> word protocol -> word option -> word port -> word mark ->
  insert_args chain protocol option port mark =
    ["-t"; "mangle"; "-I"; chain; "-p"; protocol; option; port; "-j"; "MARK"; "--set-mark"; mark; "-m"; "comment"; "--comment"; RuleComment].
Proof.
  intros Hc Hp Ho Hpt Hm. unfold insert_args. rewrite <- fields_join; [done|]. repeat constructor; first [done|apply Hc|apply Hp|apply Ho|apply Hpt|apply Hm].
Qed.

Lemma rule_text_own protocol option port mark :
  word protocol -> word option -> word port -> word mark ->
  is_own (rule_text protocol option port mark RuleComment) = true /\ no_newline (rule_text protocol option port mark RuleComment).
Proof.
  intros [_ Hp] [_ Ho] [_ Hpt] [_ Hm]. unfold is_own, rule_text. split.
  - assert (Hsuf : forall a b, str_contains b RuleComment = true -> str_contains (a +:+ b) RuleComment = true).
    { intros a b Hb. induction a as [|x a IH]; [done|]. rewrite string_app_cons. cbn [str_contains]. by rewrite IH, orb_true_r. }
    do 7 apply Hsuf. destruct (RuleComment +:+ _) as [|x y] eqn:E; [done|]. rewrite <- E. reflexivity.
  - assert (Hw : forall w, all_chars plain_char w = true -> no_newline w) by (intros w; by apply all_chars_no_char).
    repeat apply no_char_app; try (by apply Hw); by repeat (split; [done|]) || by case_bool_decide; repeat split.
Qed.

#[export] Instance lawful : MangleLaws State chain_of.
Proof.
  split.
  - intros k chain. unfold chain_of. rewrite Forall_map. apply Forall_forall. intros r _. apply clean_no_newline.
  - intros chain k c Hc. apply elem_of_cons in Hc as [->|Hc]; [done|]. by apply list_elem_of_singleton in Hc as ->.
  - intros chain k Hc _. exists head. split; [by repeat constructor|].
    apply elem_of_cons in Hc as [->|Hc]; [done|]. by apply list_elem_of_singleton in Hc as ->.
  - done.
  - intros chain i k Hc Hi Hr c. cbn [run_mangle runner] in *. unfold run in *. rewrite parse_delete in * by done.
    rewrite parse_itoa in * by lia. rewrite (proj2 (Z.leb_le 1 _)), (proj2 (Z.leb_le (Z.of_nat (S i)) _)) by lia. cbn [andb snd].
    replace (Z.to_nat (Z.of_nat (S i) - 1)) with i by lia. unfold chain_of. rewrite raw_put by done.
    case_bool_decide; [|done]. subst c. by rewrite map_app, firstn_map, skipn_map.
  - intros chain ruleno k _ Hr c. by rewrite run_err.
  - intros chain protocol option port mark k Hc Hp Ho Hpt Hm _. cbn [run_mangle runner]. unfold run.
    assert (Hcw : word chain) by (apply elem_of_cons in Hc as [->|Hc]; [done|by apply list_elem_of_singleton in Hc as ->]).
    rewrite insert_words by done. cbn [parse snd]. destruct (rule_text_own protocol option port mark) as [Hown Hn]; [done..|].
    exists (rule_text protocol option port mark RuleComment). split; [done|]. intros c. unfold chain_of. rewrite raw_put by done.
    case_bool_decide; [|done]. subst c. cbn [map]. by rewrite clean_id.
  - intros chain protocol option port mark k _ Hr c. by rewrite run_err.
Qed.
Definition ssh : list Z * string * string := ([22], "tcp", "0xe1f1").
Definition start : State := mkState ["0 0 TTL all -- * * 0.0.0.0/0 0.0.0.0/0 TTL set to 65"] [].

(** Adding the same port again adds its rules again: the listing shows the port as
    [dpt:22], which the check for [--dport 22] never finds. *)
Example rules_added_twice :
  length (st_pre (run_ops enable_op [ssh; ssh] start)) = 3%nat.
Proof. vm_compute. reflexivity. Qed.

Lemma allowlist_rules_removed_witness :
  exists r k', Disable 3 (run_ops enable_op [ssh; ssh] start) = Some (r, k') /\
    (forall chain, foreign (chain_of k' chain) = foreign (chain_of start chain)) /\
    (r = Ok tt -> forall chain, chain ∈ chains -> chain_of k' chain = foreign (chain_of start chain)).
Proof.
  apply (allowlist_rules_removed [ssh; ssh] start 3); [|vm_compute; lia|vm_compute; lia].
  repeat constructor; vm_compute; congruence.
Defined.

Example rules_removed :
  Disable 3 (run_ops enable_op [ssh; ssh] start) = Some (Ok tt, start).
Proof. vm_compute. reflexivity. Qed.
End Mangle.
