(* ===== verification/Tunnel.v ===== *)
(** * Tunnel: the interface of the tunnel, its addresses and its size of packets

    Models [tunnel/tunnel.go], [daemon/vpn/network.go], [daemon/vpn/state.go] and the helpers of [daemon/vpn/nordlynx/nordlynx.go], on the
    machine of file Machine.  What the kernel does with an interface beside [ip] is the
    parameter [NetDevices]. *)

From stdpp Require Import base option list strings pretty gmap.
From Stdlib Require Import ZArith Ascii Lia.
From S2P Require Import Prelude GoLib Kernel Firewall Networker Transfers GoText Machine.

Open Scope Z_scope.
Open Scope go_scope.

(** ** Data of a VPN connection *)

Definition State : Type := string.
Definition UnknownState : State := "UNKNOWN".
Definition ConnectingState : State := "CONNECTING".
Definition ConnectedState : State := "CONNECTED".
Definition ReconnectingState : State := "RECONNECTING".
Definition ExitingState : State := "EXITING".
Definition ExitedState : State := "EXITED".

Definition stateMap : list State :=
  [ConnectingState; "WAIT"; "AUTH"; "GET_CONFIG"; "ASSIGN_IP"; "ADD_ROUTES"; ConnectedState; ReconnectingState;
   ExitingState; ExitedState].

Definition StringToState (arg : string) : State * option error :=
  if bool_decide (arg ∈ stateMap) then (arg, None) else (UnknownState, Some (Errorf ("unknown state: '" +:+ arg +:+ "'"))).

Definition ErrVPNAIsAlreadyStarted : error := Sentinel "vpn is already started".
Definition ErrTunnelAlreadyExists : error := Sentinel "tunnel already exists".

Definition IsOpenVPNDefined (c : Credentials) : bool :=
  negb (bool_decide (cr_OpenVPNUsername c = "")) && negb (bool_decide (cr_OpenVPNPassword c = "")).

(** What the VPN publishes about itself: [DataConnect] with the fields the code sets,
    and [DataDisconnect]. *)
Inductive EventStatus : Type := StatusAttempt | StatusSuccess.
Inductive VpnEvent : Type :=
| Connected (status : EventStatus) (ip country city domain name : string) (meshPeer : bool)
| Disconnected (byUser : bool).

(** [copy] of the first half of the address of the server and the identifier. *)
Definition InterfaceIPv6 (serverIP : Addr) (interfaceID : Z) : result Addr :=
  match serverIP with
  | AddrV6 a => Ok (AddrV6 (Z.lor (Z.shiftl (Z.shiftr a 64) 64) interfaceID))
  | _ => Err (Errorf "not an IPv6 address")
  end.

(** ** The tunnel *)

Class NetDevices (T : Type) : Type := {
  unix_SetUp : string -> M T unit;  (* [SIOCSIFFLAGS] with [IFF_UP] *)
  unix_SetMTU : string -> Z -> M T unit  (* [SIOCSIFMTU] *)
}.

Record Tun : Type := mkTun { tu_iface : NetIface; tu_ips : list Addr }.

Definition ErrTunnelNotFound : error := Sentinel "tunnel not found".

Section Tunnels.
Context {T : Type} `{System T} `{NetDevices T}.
Abbreviation O := (M (Machine T)).

(** The first address of an interface whose subnet contains one of the addresses. *)
Definition contained (ipAddrs : list Addr) (addr : NetAddr) : list Addr :=
  match addr with
  | IPNet ip ones => List.filter (prefix_Contains (mkPrefix ip ones)) ipAddrs
  | OtherAddr => []
  end.

Fixpoint find_loop (ipAddrs : list Addr) (ifaces : list NetIface) : result Tun :=
  match ifaces with
  | [] => Err ErrTunnelNotFound
  | iface :: ifaces' =>
      match ni_Addrs iface with
      | Err err => Err err
      | Ok addrs =>
          match List.filter (fun ips => negb (bool_decide (ips = []))) (map (contained ipAddrs) addrs) with
          | ips :: _ => Ok (mkTun iface ips)
          | [] => find_loop ipAddrs ifaces'
          end
      end
  end.

Definition Find (ipAddrs : list Addr) : O Tun :=
  let! ifaces := on_sys net_Interfaces in
  match find_loop ipAddrs ifaces with Ok t => ret t | Err e => throw e end.

Definition addr_args (cmd : string) (t : Tun) (ip : Addr) : list string :=
  ["address"; cmd; addr_String ip +:+ "/" +:+ pretty (addr_BitLen ip); "dev"; ni_Name (tu_iface t)].

Definition cmdAddrs (cmd : string) (t : Tun) : O unit :=
  forM_ (tu_ips t) (fun ip =>
    let! r := CombinedOutput "ip" (addr_args cmd t ip) "" in
    match r.2 with
    | Some err =>
        let! text := cmd_String "ip" (addr_args cmd t ip) in
        throw (Wrapf (text +:+ " IP address to interface: " +:+ r.1 +:+ " : ") err "")
    | None => ret tt
    end).

Definition AddAddrs (t : Tun) : O unit := cmdAddrs "add" t.
Definition DelAddrs (t : Tun) : O unit := cmdAddrs "del" t.

Definition Up (t : Tun) : O unit := on_sys (unix_SetUp (ni_Name (tu_iface t))).

(** [strconv.ParseUint(strings.TrimSpace(s), 10, 64)]. *)
Definition parse_uint (s : string) : result Z :=
  match parse_digits digit_val 10 (TrimSpace s) with
  | Some z => if z <? 2 ^ 64 then Ok z else Err (Errorf "value out of range")
  | None => Err (Errorf "invalid syntax")
  end.

Definition statistic (t : Tun) (name : string) : O Z :=
  let! out := os_ReadFile ("/sys/class/net/" +:+ ni_Name (tu_iface t) +:+ "/statistics/" +:+ name) in
  match parse_uint out with Ok z => ret z | Err e => throw e end.

(** Sent and received bytes. *)
Definition TransferRates (t : Tun) : O (Z * Z) :=
  let! rx := statistic t "rx_bytes" in
  let! tx := statistic t "tx_bytes" in
  ret (tx, rx).

(** ** The interface of NordLynx *)

Definition InterfaceName : string := "nordlynx".
Definition defaultPort : Z := 51820.
Definition defaultMTU : Z := 1500.
Definition wireguardHeaderSize : Z := 80.
Definition errNoKernelModule : error := Sentinel "interface of type wireguard not supported".
Definition errNoDefaultIpRoute : error := Sentinel "default gateway not found".
Definition errUnrecognizedIpRouteOutput : error := Sentinel "unrecognized output of 'ip route show default'".
(** 0x0000001100050002. *)
Definition interfaceID : Z := 73014771714.

Definition getDefaultIpRouteInterface (ipRouteOutput : string) : result string :=
  match split_char newline ipRouteOutput with
  | [] => Err errNoDefaultIpRoute
  | row :: _ =>
      if bool_decide (row = "") then Err errNoDefaultIpRoute
      else
        match split_char " "%char (trim_right newline (trim_left newline row)) with
        | _ :: _ :: _ :: _ :: dev :: _ => Ok dev
        | _ => Err errUnrecognizedIpRouteOutput
        end
  end.

Definition calculateMTU (ipRouteOutput : string) : O Z :=
  let fallback := ret (defaultMTU - wireguardHeaderSize) in
  if bool_decide (ipRouteOutput = "") then fallback
  else
    match getDefaultIpRouteInterface ipRouteOutput with
    | Err _ => fallback
    | Ok name =>
        let! gw := attempt (on_sys (net_InterfaceByName name)) in
        match gw with
        | Ok gw => ret (ni_MTU gw - wireguardHeaderSize)
        | Err _ => fallback
        end
    end.

Definition retrieveAndCalculateMTU : O Z :=
  let! r := CombinedOutput "ip" ["route"; "show"; "default"] "" in
  calculateMTU (match r.2 with Some _ => "" | None => r.1 end).

(** The number is converted to [uint32]. *)
Definition SetMTU (iface : NetIface) : O unit :=
  let! mtu := retrieveAndCalculateMTU in
  on_sys (unix_SetMTU (ni_Name iface) (mtu mod 2 ^ 32)).

Definition addDevice (device : string) : O unit :=
  let! r := CombinedOutput "ip" ["link"; "add"; device; "type"; "wireguard"] "" in
  match r.2 with Some err => throw (Wrapf "failed to add device " err "") | None => ret tt end.

Definition upWGInterface (iface : string) : O unit :=
  let! r := attempt (addDevice iface) in
  match r with
  | Ok _ => ret tt
  | Err err =>
      let! available := IsCommandAvailable "wg" in
      throw (if available then err else errNoKernelModule)
  end.

(** The output of [ip] becomes the error. *)
Definition deleteInterface (iface : NetIface) : O unit :=
  let! r := CombinedOutput "ip" ["link"; "delete"; ni_Name iface] "" in
  match r.2 with
  | Some _ => throw (Errorf (trim_right newline (trim_left newline r.1)))
  | None => ret tt
  end.
End Tunnels.
