(* ===== verification/Telio.v ===== *)
(** * Telio: the VPN and the meshnet over libtelio

    Models [daemon/vpn/nordlynx/libtelio/libtelio.go] and [sharedctx/sharedctx.go].  The
    library is the parameter [TelioLib]; the tunnel and its interface are those of file
    Tunnel.

    A Go context is the list of its identifier and those of its parents; it is done when
    one of them is in the set of canceled ones.  Every connection has a monitor, a
    goroutine that publishes what happens to it: the monitors are a list, each takes its
    steps on its own, and which one gets an event is up to the environment, also while a
    call waits for the connection. *)

From stdpp Require Import base option list strings pretty gmap.
From Stdlib Require Import ZArith Ascii Lia.
From S2P Require Import Prelude GoLib Kernel Firewall Networker Transfers GoText Machine Tunnel.

Open Scope Z_scope.
Open Scope go_scope.

(** ** Contexts *)

Definition Ctx : Type := list nat.
Definition ctx_done (canceled : gset nat) (ctx : Ctx) : bool := existsb (fun i => bool_decide (i ∈ canceled)) ctx.
Definition ctx_err : error := Sentinel "context canceled".

(** ** The monitor of a connection *)

Inductive NodeState : Type := NodeStateConnected | NodeStateConnecting | NodeStateDisconnected.
#[export] Instance NodeState_eq_dec : EqDecision NodeState.
Proof. solve_decision. Defined.

(** [state]: an event of libtelio about a node. *)
Record NodeEvent : Type := mkNodeEvent {
  ne_Nickname : string;
  ne_State : NodeState;
  ne_PublicKey : string;
  ne_IsVPN : bool;
  ne_IsExit : bool
}.

Inductive notifyState : Type := disconnected | connecting | connected.
#[export] Instance notifyState_eq_dec : EqDecision notifyState.
Proof. solve_decision. Defined.

(** The variables of a run of [monitorConnection]; [mn_closed] counts how often its
    channel [isConnected] was closed. *)
Record Monitor : Type := mkMonitor {
  mn_ctx : Ctx;
  mn_pubKey : string;
  mn_server : ServerData;
  mn_current : notifyState;
  mn_initial : bool;
  mn_closed : nat;
  mn_running : bool
}.
#[export] Instance eta_Monitor : EtaExpand Monitor := fun x =>
  mkMonitor (mn_ctx x) (mn_pubKey x) (mn_server x) (mn_current x) (mn_initial x) (mn_closed x) (mn_running x).

Definition publishConnectEvent (connectType : EventStatus) (server : ServerData) (state : NodeEvent) : VpnEvent :=
  Connected connectType (addr_String (sd_IP server)) (sd_Country server) (sd_City server) (sd_Hostname server)
    (if ne_IsVPN state then sd_Name server else ne_Nickname state) (negb (ne_IsVPN state)).

(** One event from the channel: the monitor after it and what it publishes. *)
Definition monitor_event (m : Monitor) (state : NodeEvent) : Monitor * list VpnEvent :=
  if negb (ne_IsExit state) then (m, [])
  else
    match ne_State state with
    | NodeStateConnecting =>
        if bool_decide (mn_current m = connecting) then (m, [])
        else (m <| mn_current := connecting |>, [publishConnectEvent StatusAttempt (mn_server m) state])
    | NodeStateConnected =>
        if bool_decide (ne_PublicKey state = mn_pubKey m) then
          let m := if mn_initial m then m <| mn_closed := S (mn_closed m) |> <| mn_initial := false |> else m in
          if bool_decide (mn_current m = connected) then (m, [])
          else (m <| mn_current := connected |>, [publishConnectEvent StatusSuccess (mn_server m) state])
        else (m, [])
    | NodeStateDisconnected =>
        if bool_decide (mn_current m = disconnected) then (m, [])
        else (m <| mn_current := disconnected |>, [Disconnected false])
    end.

(** [<-ctx.Done()]. *)
Definition monitor_done (m : Monitor) : Monitor * list VpnEvent :=
  (m <| mn_current := disconnected |> <| mn_running := false |>,
   if bool_decide (mn_current m = disconnected) then [] else [Disconnected true]).

(** A step of a goroutine: monitor [i] receives an event or sees that its context is
    done. *)
Inductive MonitorStep : Type :=
| Deliver (i : nat) (state : NodeEvent)
| Finish (i : nat).

(** ** The library *)

Inductive Adapter : Type := LinuxNativeTun | BoringTun.

Class TelioLib (T : Type) : Type := {
  lib_StartNamed : string -> Adapter -> string -> M T unit;
  lib_Stop : M T unit;
  lib_SetFwmark : Z -> M T unit;
  lib_SetSecretKey : string -> M T unit;
  lib_ConnectToExitNode : string -> list string -> string -> M T unit;
  lib_ConnectToExitNodePostquantum : string -> string -> list string -> string -> M T unit;
  lib_DisconnectFromExitNodes : M T unit;
  lib_SetMeshnetOff : M T unit;
  lib_SetMeshnet : string -> M T unit;
  lib_NotifyNetworkChange : string -> M T unit;
  lib_GetStatusMap : T -> list (string * NodeState);
  lib_DeserializeMeshnetConfig : string -> result string;
  uuid_NewString : M T string;
  (** what the goroutines do while a call waits for its connection, and whether its
      context is done when the wait ends *)
  wait_steps : M T (list MonitorStep * bool)
}.

Record Telio (T : Type) : Type := mkTelio {
  tl_state : State;
  tl_cancelConnectionMonitor : option nat;  (* the context it cancels *)
  tl_active : bool;
  tl_tun : option Tun;
  tl_currentServer : ServerData;
  tl_currentPrivateKey : string;
  tl_isMeshEnabled : bool;
  tl_meshnetConfig : string;
  tl_isKernelDisabled : bool;
  tl_fwmark : Z;
  tl_monitors : list Monitor;
  tl_published : list (nat * VpnEvent);  (* with the monitor that published *)
  tl_canceled : gset nat;
  tl_contexts : nat;  (* the number of contexts made *)
  tl_machine : Machine T
}.
Arguments mkTelio {T} _ _ _ _ _ _ _ _ _ _ _ _ _ _ _.
Arguments tl_state {T} _.
Arguments tl_cancelConnectionMonitor {T} _.
Arguments tl_active {T} _.
Arguments tl_tun {T} _.
Arguments tl_currentServer {T} _.
Arguments tl_currentPrivateKey {T} _.
Arguments tl_isMeshEnabled {T} _.
Arguments tl_meshnetConfig {T} _.
Arguments tl_isKernelDisabled {T} _.
Arguments tl_fwmark {T} _.
Arguments tl_monitors {T} _.
Arguments tl_published {T} _.
Arguments tl_canceled {T} _.
Arguments tl_contexts {T} _.
Arguments tl_machine {T} _.
#[export] Instance eta_Telio T : EtaExpand (Telio T) := fun x =>
  mkTelio (tl_state x) (tl_cancelConnectionMonitor x) (tl_active x) (tl_tun x) (tl_currentServer x)
    (tl_currentPrivateKey x) (tl_isMeshEnabled x) (tl_meshnetConfig x) (tl_isKernelDisabled x) (tl_fwmark x)
    (tl_monitors x) (tl_published x) (tl_canceled x) (tl_contexts x) (tl_machine x).

Definition defaultIP : Addr := AddrV4 (v4 10 5 0 2).
(** A call that would never return. *)
Definition waits_forever : error := Sentinel "waits for ever".

Section Methods.
Context {T : Type} `{System T} `{NetDevices T} `{TelioLib T}.
Abbreviation L := (M (Telio T)).

Definition on_machine {A} (m : M (Machine T) A) : L A := zoom tl_machine (fun x s => s <| tl_machine := x |>) m.
Definition on_lib {A} (m : M T A) : L A := on_machine (on_sys m).

(** [context.WithCancel(parent)]. *)
Definition WithCancel (parent : Ctx) : L Ctx :=
  let! i := gets tl_contexts in
  set! tl_contexts := S i ;;
  ret (i :: parent).

Definition cancel (i : nat) : L unit :=
  let! c := gets tl_canceled in set! tl_canceled := {[i]} ∪ c.

(** ** Monitors *)

Definition put_monitor (i : nat) (r : Monitor * list VpnEvent) : L unit :=
  modify (fun s => s <| tl_monitors := <[i := r.1]> (tl_monitors s) |>
                     <| tl_published := tl_published s ++ map (pair i) r.2 |>).

(** An event nobody listens for is dropped. *)
Definition monitor_step (st : MonitorStep) : L unit :=
  let! ms := gets tl_monitors in
  match st with
  | Deliver i state =>
      match ms !! i with
      | Some m => when (mn_running m) (put_monitor i (monitor_event m state))
      | None => ret tt
      end
  | Finish i =>
      let! canceled := gets tl_canceled in
      match ms !! i with
      | Some m => when (mn_running m && ctx_done canceled (mn_ctx m)) (put_monitor i (monitor_done m))
      | None => ret tt
      end
  end.

(** [isConnected]: start a monitor. *)
Definition isConnected (ctx : Ctx) (pubKey : string) (server : ServerData) : L nat :=
  let! ms := gets tl_monitors in
  set! tl_monitors := ms ++ [mkMonitor ctx pubKey server disconnected true 0 true] ;;
  ret (length ms).

(** Whether the channel of monitor [i] is closed. *)
Definition is_closed (i : nat) : L bool :=
  gets (fun s => match tl_monitors s !! i with Some m => (0 <? mn_closed m)%nat | None => false end).

(** ** The tunnel *)

Definition closeTunnel : L unit :=
  let! tun := gets tl_tun in
  match tun with
  | None => ret tt
  | Some _ => wrapped "stopping libtelio: " (on_lib lib_Stop) "" ;; set! tl_tun := None
  end.

(** [StartNamed], again with the other adapter when the kernel's fails. *)
Definition start_named (privateKey : string) : L unit :=
  let! kernelDisabled := gets tl_isKernelDisabled in
  let! r := attempt (on_lib (lib_StartNamed privateKey (if kernelDisabled then BoringTun else LinuxNativeTun) InterfaceName)) in
  match r with
  | Ok _ => ret tt
  | Err err =>
      if (kernelDisabled : bool) then throw (Wrapf "starting libtelio: " err "")
      else
        wrapped "starting libtelio on retry with boring-tun: " (on_lib (lib_StartNamed privateKey BoringTun InterfaceName)) "" ;;
        set! tl_isKernelDisabled := true
  end.

(** The interface of a previous run is removed. *)
Definition clean_interface : L unit :=
  let! r := attempt (on_lib (net_InterfaceByName InterfaceName)) in
  match r with
  | Ok _ => ignore (on_machine (CombinedOutput "ip" ["link"; "del"; InterfaceName] ""))
  | Err _ => ret tt
  end.

Definition openTunnel (ip : Addr) (privateKey : string) : L unit :=
  let! tun := gets tl_tun in
  match tun with
  | Some _ => ret tt
  | None =>
      clean_interface ;;
      start_named privateKey ;;
      on_error
        (let! fwmark := gets tl_fwmark in
         wrapped "setting fwmark: " (on_lib (lib_SetFwmark fwmark)) "" ;;
         let! iface := wrapped "retrieving the interface: " (on_lib (net_InterfaceByName InterfaceName)) "" in
         let tun := mkTun iface [ip] in
         wrapped "adding addresses to the interface: " (on_machine (AddAddrs tun)) "" ;;
         wrapped "upping the interface: " (on_machine (Up tun)) "" ;;
         wrapped "setting mtu for the interface: " (on_machine (SetMTU iface)) "" ;;
         set! tl_tun := Some tun)
        (ignore (on_lib lib_Stop))
  end.

(** [l.tun] is not nil where it is called. *)
Definition updateTunnel (privateKey : string) (ip : Addr) : L unit :=
  let! tun := gets tl_tun in
  match tun with
  | None => throw (Sentinel "runtime error: invalid memory address or nil pointer dereference")
  | Some old =>
      wrapped "deleting interface addrs: " (on_machine (DelAddrs old)) "" ;;
      let tun := mkTun (tu_iface old) [ip] in
      wrapped "adding interface addrs: " (on_machine (AddAddrs tun)) "" ;;
      wrapped "setting private key: " (on_lib (lib_SetSecretKey privateKey)) "" ;;
      set! tl_tun := Some tun
  end.

(** ** Connecting *)

Definition disconnect : L unit :=
  let! c := gets tl_cancelConnectionMonitor in
  match c with Some i => cancel i | None => ret tt end ;;
  wrapped "stopping libtelio: " (on_lib lib_DisconnectFromExitNodes) "" ;;
  set! tl_active := false ;;
  set! tl_state := ExitedState.

Definition connect_to_exit_node (serverIP : Addr) (serverPublicKey : string) (postQuantum : bool) : L unit :=
  let endpoint := (if addr_Is6 serverIP then "[" +:+ addr_String serverIP +:+ "]" else addr_String serverIP) +:+ ":51820" in
  if postQuantum then
    let! identifier := on_lib uuid_NewString in
    on_lib (lib_ConnectToExitNodePostquantum identifier serverPublicKey ["0.0.0.0/0"] endpoint)
  else on_lib (lib_ConnectToExitNode serverPublicKey ["0.0.0.0/0"] endpoint).

(** The [select] on the context and the channel of monitor [i]. *)
Definition await_connection (ctx : Ctx) (i : nat) : L unit :=
  let! w := on_lib wait_steps in
  forM_ w.1 monitor_step ;;
  if w.2 then
    match ctx with id :: _ => cancel id | [] => ret tt end ;;
    ignore disconnect ;;
    throw ctx_err
  else
    let! closed := is_closed i in
    if (closed : bool) then ret tt else throw waits_forever.

Definition connect (ctx : Ctx) (serverIP : Addr) (serverPublicKey : string) (postQuantum : bool) : L unit :=
  let! ctx := WithCancel ctx in
  set! tl_cancelConnectionMonitor := head ctx ;;
  let! server := gets tl_currentServer in
  let! i := isConnected ctx serverPublicKey server in
  let! r := attempt (connect_to_exit_node serverIP serverPublicKey postQuantum) in
  match r with
  | Err err =>
      let! mesh := gets tl_isMeshEnabled in
      when (negb mesh) (ignore closeTunnel) ;;
      match ctx with id :: _ => cancel id | [] => ret tt end ;;
      throw (Wrapf "libtelio connect: " err "")
  | Ok _ =>
      await_connection ctx i ;;
      set! tl_active := true ;;
      set! tl_state := ConnectedState
  end.

Definition Start (ctx : Ctx) (creds : Credentials) (serverData : ServerData) : L unit :=
  wrapped "opening the tunnel: " (openTunnel defaultIP (cr_NordLynxPrivateKey creds)) "" ;;
  set! tl_currentServer := serverData ;;
  connect ctx (sd_IP serverData) (sd_NordLynxPublicKey serverData) (sd_PostQuantum serverData) ;;
  set! tl_currentPrivateKey := cr_NordLynxPrivateKey creds.

Definition Stop : L unit :=
  wrapped "disconnecting from libtelio: " disconnect "" ;;
  let! mesh := gets tl_isMeshEnabled in
  when (negb mesh) (wrapped "closing the tunnel: " closeTunnel "").

(** ** The meshnet *)

Definition disable : L unit :=
  wrapped "disabling mesh: " (on_lib lib_SetMeshnetOff) "" ;;
  set! tl_isMeshEnabled := false ;;
  let! active := gets tl_active in
  when (negb active) (wrapped "closing the tunnel: " closeTunnel "").

Definition Disable : L unit := disable.

(** [ctx, cancel := context.WithTimeout(context.Background(), ...); defer cancel()]
    around a connection. *)
Definition connect_with_timeout (serverIP : Addr) (serverPublicKey : string) (postQuantum : bool) : L unit :=
  let! ctx := WithCancel [] in
  let! r := attempt (connect ctx serverIP serverPublicKey postQuantum) in
  match ctx with id :: _ => cancel id | [] => ret tt end ;;
  match r with Ok _ => ret tt | Err err => throw err end.

(** The deferred calls run last to first: the context is canceled when the method
    returns, before the error is handled. *)
Definition Enable (ip : Addr) (privateKey : string) : L unit :=
  on_error
    (wrapped "opening the tunnel: " (openTunnel ip privateKey) "" ;;
     let! active := gets tl_active in
     when active
       (wrapped "disconnecting from libtelio: " disconnect "" ;;
        wrapped "updating the tunnel: " (updateTunnel privateKey ip) "" ;;
        let! server := gets tl_currentServer in
        wrapped "reconnecting to server: "
          (connect_with_timeout (sd_IP server) (sd_NordLynxPublicKey server) (sd_PostQuantum server)) "") ;;
     set! tl_isMeshEnabled := true)
    (ignore disable).

Definition NetworkChanged : L unit :=
  let! r := attempt (on_lib (lib_NotifyNetworkChange "")) in
  match r with
  | Ok _ => ret tt
  | Err _ =>
      let! active := gets tl_active in
      when active
        (let! server := gets tl_currentServer in
         disconnect ;;
         connect_with_timeout (sd_IP server) (sd_NordLynxPublicKey server) (sd_PostQuantum server)) ;;
      let! mesh := gets tl_isMeshEnabled in
      when mesh
        (on_lib lib_SetMeshnetOff ;;
         let! config := gets tl_meshnetConfig in
         on_lib (lib_SetMeshnet config))
  end.

(** Up to ten attempts. *)
Fixpoint set_meshnet (attempts : nat) (config : string) : L (option error) :=
  match attempts with
  | O => ret None
  | S attempts' =>
      let! r := attempt (on_lib (lib_SetMeshnet config)) in
      match r with
      | Ok _ => ret None
      | Err err => match attempts' with O => ret (Some err) | _ => set_meshnet attempts' config end
      end
  end.

Definition Refresh (raw : string) : L unit :=
  let! tun := gets tl_tun in
  match tun with
  | None => ret tt
  | Some _ =>
      match lib_DeserializeMeshnetConfig raw with
      | Err err => throw (Wrapf "failed to deserialize meshnet config: " err "")
      | Ok config =>
          let! r := set_meshnet 10 config in
          match r with
          | Some err => throw (Wrapf "failed to refresh meshnet " err "")
          | None => set! tl_meshnetConfig := config
          end
      end
  end.

Definition nodeStateToString (st : NodeState) : string :=
  match st with
  | NodeStateConnected => "connected"
  | NodeStateConnecting => "connecting"
  | NodeStateDisconnected => "disconnected"
  end.

Definition StatusMap : L (gmap string string) :=
  gets (fun s => foldl (fun m n => <[n.1 := nodeStateToString n.2]> m) ∅ (lib_GetStatusMap (mc_sys (tl_machine s)))).
End Methods.

(** ** The shared context

    [sharedctx.Context]: whether a function is being executed, its context and whether
    its cancel function was called. *)

Record SharedContext : Type := mkSharedContext {
  sc_executing : bool;
  sc_ctx : option nat;
  sc_called : bool
}.
#[export] Instance eta_SharedContext : EtaExpand SharedContext := fun x => mkSharedContext (sc_executing x) (sc_ctx x) (sc_called x).

Section Shared.
Context {T : Type} `{System T} `{NetDevices T} `{TelioLib T}.
Abbreviation C := (M (SharedContext * Telio T)).

Definition on_telio {A} (m : M (Telio T) A) : C A := zoom snd (fun t s => (s.1, t)) m.
Definition on_shared {A} (m : M SharedContext A) : C A := zoom fst (fun c s => (c, s.2)) m.

(** The deferred [cancel] runs when the method returns; [None] is the answer [false]. *)
Definition TryExecuteWith {A} (f : Ctx -> C A) : C (option (result A)) :=
  let! executing := on_shared (gets sc_executing) in
  if (executing : bool) then ret None
  else
    let! ctx := on_telio (WithCancel []) in
    on_shared (modify (fun _ => mkSharedContext true (head ctx) false)) ;;
    let! r := attempt (f ctx) in
    on_shared (modify (fun c => c <| sc_ctx := None |> <| sc_executing := false |>)) ;;
    match ctx with id :: _ => on_telio (cancel id) | [] => ret tt end ;;
    ret (Some r).

(** Calling the cancel function that [CancelFunc] returns while a function is
    executed. *)
Definition CancelFunc_call : C bool :=
  let! id := on_shared (gets sc_ctx) in
  match id with
  | None => ret false
  | Some id => on_telio (cancel id) ;; on_shared (modify (fun c => c <| sc_called := true |>)) ;; ret true
  end.
End Shared.
