(* ===== verification/TelioProps.v ===== *)
(** * TelioProps: properties of the VPN and the meshnet over libtelio

    The tunnel exists while the VPN or the meshnet uses it; what a monitor publishes
    follows a protocol; what becomes of a connection's monitor when the call that made
    the connection returns. *)

From stdpp Require Import base option list strings pretty gmap.
From Stdlib Require Import ZArith Ascii Lia.
From S2P Require Import Prelude GoLib Kernel Firewall Networker Transfers GoText Machine Tunnel Telio.

Open Scope Z_scope.
Open Scope go_scope.

Section View.
Context {T : Type} `{System T} `{NetDevices T} `{TelioLib T}.
Abbreviation L := (M (Telio T)).
Implicit Type s : Telio T.

(** What the methods decide on: is the VPN connected, the meshnet enabled, the tunnel. *)
Definition View : Type := bool * bool * option Tun.
Definition view s : View := (tl_active s, tl_isMeshEnabled s, tl_tun s).

(** What a method does to the view, and methods that leave it alone. *)
Abbreviation wpv := (Prelude.wpv view).
Abbreviation keeps := (Prelude.keeps view).

Lemma wpv_active (Q : result bool -> View -> Prop) a m t : Q (Ok a) (a, m, t) -> wpv (gets tl_active) Q (a, m, t).
Proof. intros HQ s [= Ha Hm Ht]. cbn. unfold view. by rewrite Ha, Hm, Ht. Qed.
Lemma wpv_mesh (Q : result bool -> View -> Prop) a m t : Q (Ok m) (a, m, t) -> wpv (gets tl_isMeshEnabled) Q (a, m, t).
Proof. intros HQ s [= Ha Hm Ht]. cbn. unfold view. by rewrite Ha, Hm, Ht. Qed.
Lemma wpv_tun (Q : result (option Tun) -> View -> Prop) a m t : Q (Ok t) (a, m, t) -> wpv (gets tl_tun) Q (a, m, t).
Proof. intros HQ s [= Ha Hm Ht]. cbn. unfold view. by rewrite Ha, Hm, Ht. Qed.

Lemma wpv_set_active b (Q : result unit -> View -> Prop) a m t : Q (Ok tt) (b, m, t) -> wpv (set! tl_active := b) Q (a, m, t).
Proof. intros HQ s [= Ha Hm Ht]. unfold view, modify. cbn. by rewrite Hm, Ht. Qed.
Lemma wpv_set_mesh b (Q : result unit -> View -> Prop) a m t : Q (Ok tt) (a, b, t) -> wpv (set! tl_isMeshEnabled := b) Q (a, m, t).
Proof. intros HQ s [= Ha Hm Ht]. unfold view, modify. cbn. by rewrite Ha, Ht. Qed.
Lemma wpv_set_tun t' (Q : result unit -> View -> Prop) a m t : Q (Ok tt) (a, m, t') -> wpv (set! tl_tun := t') Q (a, m, t).
Proof. intros HQ s [= Ha Hm Ht]. unfold view, modify. cbn. by rewrite Ha, Hm. Qed.

(** ** What leaves the view alone *)

Lemma keeps_machine {A} (m : M (Machine T) A) : keeps (on_machine m).
Proof. intros v s Hs. unfold on_machine, zoom. by destruct (m (tl_machine s)). Qed.
Lemma keeps_lib {A} (m : M T A) : keeps (on_lib m).
Proof. apply keeps_machine. Qed.
Lemma keeps_cancel i : keeps (cancel i).
Proof. intros v s Hs. exact Hs. Qed.
Lemma keeps_WithCancel p : keeps (WithCancel p).
Proof. intros v s Hs. exact Hs. Qed.
Lemma keeps_isConnected c k d : keeps (isConnected c k d).
Proof. intros v s Hs. exact Hs. Qed.
Lemma keeps_gets {A} (f : Telio T -> A) : keeps (gets f).
Proof. intros v. apply preserves_gets. Qed.

Lemma keeps_step st : keeps (monitor_step st).
Proof.
  intros v. unfold monitor_step. assert (Hp : forall i r, preserves (fun s => view s = v) (put_monitor (T := T) i r)) by by intros i r s Hs.
  pres_auto; by apply Hp.
Qed.

Lemma keeps_steps l : keeps (forM_ l monitor_step).
Proof. intros v. apply preserves_forM_. intros st. apply keeps_step. Qed.

Lemma keeps_start_named k : keeps (start_named k).
Proof.
  intros v. unfold start_named. pose proof (fun A m => @keeps_lib A m v) as Hl. pres_auto; try apply Hl. by intros s Hs.
Qed.

Lemma keeps_clean : keeps clean_interface.
Proof.
  intros v. unfold clean_interface. pose proof (fun A m => @keeps_lib A m v) as Hl. pose proof (fun A m => @keeps_machine A m v) as Hm.
  pres_auto; apply Hl || apply Hm.
Qed.

Lemma keeps_exit_node ip k pq : keeps (connect_to_exit_node ip k pq).
Proof.
  intros v. unfold connect_to_exit_node. pose proof (fun A m => @keeps_lib A m v) as Hl. pres_auto; apply Hl.
Qed.
End View.

(** Follow a method; [solve_keeps] closes what leaves the view alone. *)
Ltac solve_keeps :=
  first [apply keeps_lib | apply keeps_machine | apply keeps_cancel | apply keeps_WithCancel | apply keeps_isConnected
        |apply keeps_gets | apply keeps_steps | apply keeps_start_named | apply keeps_clean | apply keeps_exit_node
        |(intros v s Hs; exact Hs)].

Section Specs.
Context {T : Type} `{System T} `{NetDevices T} `{TelioLib T}.
Abbreviation wpv := (Prelude.wpv (view (T := T))).
Abbreviation L := (M (Telio T)).
Implicit Type s : Telio T.

Lemma close_wpv a m t :
  wpv closeTunnel (fun r v => match r with Ok _ => v = (a, m, None) | Err _ => v = (a, m, t) end) (a, m, t).
Proof.
  unfold closeTunnel. apply wpv_bind, wpv_tun. destruct t as [t|]; [|by apply wpv_ret].
  apply wpv_bind, wpv_wrapped, wpv_keeps; [solve_keeps|]. intros [u|e]; [|done]. by apply wpv_set_tun.
Qed.

Lemma disconnect_wpv a m t :
  wpv disconnect (fun r v => match r with Ok _ => v = (false, m, t) | Err _ => v = (a, m, t) end) (a, m, t).
Proof.
  unfold disconnect. apply wpv_bind, wpv_keeps; [solve_keeps|]. intros [c|e]; [|done].
  apply wpv_bind, wpv_keeps; [destruct c; solve_keeps|]. intros [u|e]; [|done].
  apply wpv_bind, wpv_wrapped, wpv_keeps; [solve_keeps|]. intros [u'|e]; [|done].
  apply wpv_bind, wpv_set_active. by apply wpv_modify.
Qed.

(** An open tunnel is left as it is; otherwise it has the given address. *)
Lemma open_wpv ip k a m t :
  wpv (openTunnel ip k) (fun r v =>
    match r with
    | Ok _ => exists t', v = (a, m, Some t') /\ match t with Some t0 => t' = t0 | None => tu_ips t' = [ip] end
    | Err _ => v = (a, m, t)
    end) (a, m, t).
Proof.
  unfold openTunnel. apply wpv_bind, wpv_tun. destruct t as [t|]; [apply wpv_ret; by exists t|].
  apply wpv_bind, wpv_keeps; [solve_keeps|]. intros [u|e]; [|done].
  apply wpv_bind, wpv_keeps; [solve_keeps|]. intros [u'|e]; [|done].
  set (Q := fun (r : result unit) v => match r with Ok _ => exists t', v = (a, m, Some t') /\ tu_ips t' = [ip] | Err _ => v = (a, m, None) end).
  match goal with |- wpv (on_error ?body _) _ _ => enough (Hb : wpv body Q (a, m, None)) end.
  { intros s Hs. specialize (Hb s Hs). unfold on_error. match goal with |- context [match ?e with _ => _ end] => destruct e as [[x|e'] s'] end; [exact Hb|].
    pose proof (keeps_lib lib_Stop (a, m, None) s' Hb) as Hk. exact Hk. }
  apply wpv_bind, wpv_keeps; [solve_keeps|]. intros [fw|e]; [|done].
  apply wpv_bind, wpv_wrapped, wpv_keeps; [solve_keeps|]. intros [x1|e]; [|done].
  apply wpv_bind, wpv_wrapped, wpv_keeps; [solve_keeps|]. intros [iface|e]; [|done].
  do 3 (apply wpv_bind, wpv_wrapped, wpv_keeps; [solve_keeps|]; intros [?|e]; [|done]).
  apply wpv_set_tun. cbn. eauto.
Qed.

Lemma update_wpv k ip a m t :
  wpv (updateTunnel k ip) (fun r v =>
    match r with Ok _ => exists t', v = (a, m, Some t') /\ tu_ips t' = [ip] | Err _ => v = (a, m, Some t) end) (a, m, Some t).
Proof.
  unfold updateTunnel. apply wpv_bind, wpv_tun.
  do 3 (apply wpv_bind, wpv_wrapped, wpv_keeps; [solve_keeps|]; intros [?|e]; [|done]).
  apply wpv_set_tun. cbn. eauto.
Qed.

(** A connection over an open tunnel: when it fails the tunnel may be closed, but not
    while the meshnet uses it. *)
Lemma connect_wpv ctx ip k pq m t :
  wpv (connect ctx ip k pq) (fun r v =>
    match r with
    | Ok _ => v = (true, m, Some t)
    | Err _ => v = (false, m, Some t) \/ (m = false /\ v = (false, m, None))
    end) (false, m, Some t).
Proof.
  unfold connect. apply wpv_bind, wpv_keeps; [solve_keeps|]. intros [c|e]; [|by left].
  apply wpv_bind, wpv_keeps; [solve_keeps|]. intros [u|e]; [|by left].
  apply wpv_bind, wpv_keeps; [solve_keeps|]. intros [server|e]; [|by left].
  apply wpv_bind, wpv_keeps; [solve_keeps|]. intros [i|e]; [|by left].
  apply wpv_bind, wpv_attempt, wpv_keeps; [solve_keeps|]. intros [u'|e].
  - apply wpv_bind. unfold await_connection. apply wpv_bind, wpv_keeps; [solve_keeps|]. intros [w|e]; [|by left].
    apply wpv_bind, wpv_keeps; [solve_keeps|]. intros [u2|e]; [|by left]. destruct w.2.
    + apply wpv_bind, wpv_keeps; [destruct c; solve_keeps|]. intros [u3|e]; [|by left].
      apply wpv_bind, wpv_ignore. eapply wpv_mono, disconnect_wpv. intros [u4|e] v ->; apply wpv_throw; by left.
    + apply wpv_bind, wpv_keeps; [solve_keeps|]. intros [b|e]; [|by left]. destruct b; [|apply wpv_throw; by left].
      apply wpv_ret, wpv_bind, wpv_set_active. by apply wpv_modify.
  - apply wpv_bind, wpv_mesh. apply wpv_bind.
    assert (Hend : forall v, (v = (false, m, Some t) \/ (m = false /\ v = (false, m, None))) ->
      Prelude.wpv (view (T := T)) (match c with id :: _ => cancel id | [] => ret tt end ;; throw (Wrapf "libtelio connect: " e "")) (fun (r : result unit) v' =>
        match r with Ok _ => v' = (true, m, Some t) | Err _ => v' = (false, m, Some t) \/ (m = false /\ v' = (false, m, None)) end) v).
    { intros v Hv. apply wpv_bind, wpv_keeps; [destruct c; solve_keeps|]. intros [u3|e3]; [by apply wpv_throw|done]. }
    destruct m; cbn [negb when]; [apply wpv_ret; apply Hend; by left|].
    apply wpv_ignore. eapply wpv_mono, close_wpv. intros [u3|e3] v ->; apply Hend; [by right|by left].
Qed.

Lemma connect_timeout_wpv ip k pq m t :
  wpv (connect_with_timeout ip k pq) (fun r v =>
    match r with
    | Ok _ => v = (true, m, Some t)
    | Err _ => v = (false, m, Some t) \/ (m = false /\ v = (false, m, None))
    end) (false, m, Some t).
Proof.
  unfold connect_with_timeout. apply wpv_bind, wpv_keeps; [solve_keeps|]. intros [c|e]; [|by left].
  apply wpv_bind, wpv_attempt. eapply wpv_mono, connect_wpv. intros r v Hr. cbn beta iota.
  apply wpv_bind. assert (Hend : forall c' : Ctx, Prelude.wpv (view (T := T)) (match c' with id :: _ => cancel id | [] => ret tt end) (fun r0 v' => r0 = Ok tt /\ v' = v) v).
  { intros [|id l]; [by apply wpv_ret|]. unfold cancel. apply wpv_bind, wpv_get. intros cs. by apply wpv_modify. }
  eapply wpv_mono, Hend. intros r0 v' [-> ->]. destruct r; [by apply wpv_ret|by apply wpv_throw].
Qed.

(** Disabling the meshnet leaves the tunnel of a connected VPN as it is. *)
Lemma disable_wpv (a m : bool) (t : option Tun) :
  wpv disable (fun r v =>
    match r with
    | Ok _ => v = (a, false, if a then t else None)
    | Err _ => v = (a, m, t) \/ (a = false /\ v = (a, false, t))
    end) (a, m, t).
Proof.
  unfold disable. apply wpv_bind, wpv_wrapped, wpv_keeps; [solve_keeps|]. intros [u|e]; [|by left].
  apply wpv_bind, wpv_set_mesh, wpv_bind, wpv_active. destruct a; cbn [negb when]; [by apply wpv_ret|].
  apply wpv_wrapped. eapply wpv_mono, close_wpv. intros [u'|e] v ->; [done|by right].
Qed.

Definition used (v : View) : Prop := v.1.1 || v.1.2 = true -> v.2 <> None.

Lemma Start_wpv ctx creds server m t :
  used (false, m, t) -> wpv (Start ctx creds server) (fun r v => used v /\ (is_ok r = true -> v.1.1 = true)) (false, m, t).
Proof.
  intros Hu. unfold Start. apply wpv_bind, wpv_wrapped. eapply wpv_mono, open_wpv. intros [u|e] v; cbn beta iota.
  - intros (t' & -> & _). apply wpv_bind, wpv_modify; [done|]. apply wpv_bind. eapply wpv_mono, connect_wpv.
    intros [u'|e] v Hv; cbn beta iota in *.
    + subst v. by apply wpv_modify.
    + split; [|done]. by destruct Hv as [->|[-> ->]].
  - by intros ->.
Qed.

Lemma Stop_wpv a m t : used (a, m, t) -> wpv Stop (fun _ v => used v) (a, m, t).
Proof.
  intros Hu. unfold Stop. apply wpv_bind, wpv_wrapped. eapply wpv_mono, disconnect_wpv. intros [u|e] v ->; cbn beta iota; [|done].
  apply wpv_bind, wpv_mesh. destruct m; cbn [negb when].
  - apply wpv_ret. intros _. apply Hu. cbn. by rewrite orb_true_r.
  - apply wpv_wrapped. by eapply wpv_mono, close_wpv; intros [u'|e] v ->.
Qed.

Lemma Disable_wpv a m t : used (a, m, t) -> wpv Disable (fun _ v => used v) (a, m, t).
Proof.
  intros Hu. unfold Disable. eapply wpv_mono, disable_wpv. intros [u|e] v; [intros ->|intros [->|[-> ->]]]; [|done|done].
  destruct a; [|done]. intros _. by apply Hu.
Qed.

(** The meshnet is enabled on success.  The tunnel then has the given address, unless it
    was there before and the VPN was not connected. *)
Lemma Enable_wpv ip k (a m : bool) (t : option Tun) :
  used (a, m, t) ->
  wpv (Enable ip k) (fun r v => used v /\
    (is_ok r = true -> exists t', v = (a, true, Some t') /\
       match t with Some t0 => if a then tu_ips t' = [ip] else t' = t0 | None => tu_ips t' = [ip] end)) (a, m, t).
Proof.
  intros Hu. unfold Enable.
  set (Q := fun (r : result unit) v => used v /\ (is_ok r = true -> exists t', v = (a, true, Some t') /\
       match t with Some t0 => if a then tu_ips t' = [ip] else t' = t0 | None => tu_ips t' = [ip] end)).
  match goal with |- wpv (on_error ?body _) _ _ => enough (Hb : wpv body Q (a, m, t)) end.
  { intros s Hs. specialize (Hb s Hs). unfold on_error. match goal with |- context [match ?e with _ => _ end] => destruct e as [[x|e'] s'] end; [exact Hb|].
    cbn [fst snd] in *. split; [|done]. destruct Hb as [Hb _]. destruct (view s') as [[a' m'] t'] eqn:Hv.
    exact (Disable_wpv a' m' t' Hb s' Hv). }
  apply wpv_bind, wpv_wrapped. eapply wpv_mono, open_wpv. intros [u|e] v; cbn beta iota; [|intros ->; by split].
  intros (t1 & -> & Ht1). apply wpv_bind, wpv_active. apply wpv_bind. destruct a; cbn [when].
  - apply wpv_bind, wpv_wrapped. eapply wpv_mono, disconnect_wpv. intros [u1|e] v ->; cbn beta iota; [|by split].
    apply wpv_bind, wpv_wrapped. eapply wpv_mono, update_wpv. intros [u2|e] v; cbn beta iota.
    2: { intros ->. by split. }
    intros (t2 & -> & Ht2). apply wpv_bind, wpv_get. intros server. apply wpv_wrapped. eapply wpv_mono, connect_timeout_wpv.
    intros [u3|e] v Hv; cbn beta iota in *.
    + subst v. apply wpv_set_mesh. split; [done|]. intros _. exists t2. split; [done|]. by destruct t.
    + split; [|done]. by destruct Hv as [->|[-> ->]].
  - apply wpv_ret, wpv_set_mesh. split; [done|]. intros _. exists t1. split; [done|]. by destruct t.
Qed.

Lemma NetworkChanged_wpv a m t : used (a, m, t) -> wpv NetworkChanged (fun _ v => used v) (a, m, t).
Proof.
  intros Hu. unfold NetworkChanged. apply wpv_bind, wpv_attempt, wpv_keeps; [solve_keeps|]. intros [u|e]; [by apply wpv_ret|].
  apply wpv_bind, wpv_active. apply wpv_bind.
  assert (Hmesh : forall v, used v -> Prelude.wpv (view (T := T))
    (let! mesh := gets tl_isMeshEnabled in
      when mesh (on_lib lib_SetMeshnetOff ;; let! config := gets tl_meshnetConfig in on_lib (lib_SetMeshnet config))) (fun _ v' => used v') v).
  { intros [[a' m'] t'] Hv. apply wpv_bind, wpv_mesh. destruct m'; cbn [when]; [|by apply wpv_ret].
    apply wpv_bind, wpv_keeps; [solve_keeps|]. intros [x|x]; [|done]. apply wpv_bind, wpv_get. intros c. apply wpv_keeps; [solve_keeps|done]. }
  destruct a; cbn [when]; [|by apply wpv_ret, Hmesh].
  apply wpv_bind, wpv_get. intros server. destruct t as [t|]; [|by destruct Hu].
  apply wpv_bind. eapply wpv_mono, disconnect_wpv. intros [u1|e1] v ->; cbn beta iota; [|done].
  eapply wpv_mono, connect_timeout_wpv. intros [u2|e2] v Hv; cbn beta iota in *.
  - subst v. by apply Hmesh.
  - by destruct Hv as [->|[-> ->]].
Qed.

Lemma Refresh_keeps raw : Prelude.keeps (view (T := T)) (Refresh raw).
Proof.
  intros v. unfold Refresh. assert (Hl : forall A (m : M T A), preserves (fun s : Telio T => view s = v) (on_lib m)) by (intros; apply keeps_lib).
  assert (Hs : forall n c, preserves (fun s => view s = v) (set_meshnet (T := T) n c)).
  { intros n c. induction n as [|n IH]; cbn [set_meshnet]; pres_auto; try apply Hl. }
  pres_auto. by intros s Hv.
Qed.
End Specs.

(** ** The tunnel *)

Inductive TelioOp : Type :=
| TelioStart (ctx : Ctx) (creds : Credentials) (server : ServerData)
| TelioStop
| TelioEnable (ip : Addr) (privateKey : string)
| TelioDisable
| TelioNetworkChanged
| TelioRefresh (raw : string)
| TelioCancel (context : nat)
| TelioStep (st : MonitorStep).

Section Ops.
Context {T : Type} `{System T} `{NetDevices T} `{TelioLib T}.
Abbreviation wpv := (Prelude.wpv (view (T := T))).
Implicit Type s : Telio T.

Definition telio_op (o : TelioOp) : M (Telio T) unit :=
  match o with
  | TelioStart ctx creds server => Start ctx creds server
  | TelioStop => Stop
  | TelioEnable ip privateKey => Enable ip privateKey
  | TelioDisable => Disable
  | TelioNetworkChanged => NetworkChanged
  | TelioRefresh raw => Refresh raw
  | TelioCancel i => cancel i
  | TelioStep st => monitor_step st
  end.

(** [New]. *)
Definition new_telio (fwmark : Z) (machine : Machine T) : Telio T :=
  mkTelio ExitedState None false None zero_server "" false "" false fwmark [] [] ∅ 0 machine.

(** No VPN is started while one is: whoever makes the calls stops the VPN first, as the
    networker does. *)
Definition starts_apart (ops : list TelioOp) (s : Telio T) : Prop :=
  forall before ctx creds server after,
    ops = before ++ TelioStart ctx creds server :: after -> tl_active (run_ops telio_op before s) = false.

Lemma op_used o s :
  (forall ctx creds server, o = TelioStart ctx creds server -> tl_active s = false) ->
  used (view s) -> used (view (telio_op o s).2).
Proof.
  intros Hstart Hs. assert (Hw : forall A (m : M (Telio T) A), (forall a mm t, used (a, mm, t) -> wpv m (fun _ v => used v) (a, mm, t)) -> used (view (m s).2)).
  { intros A m Hm. destruct (view s) as [[a mm] t] eqn:Hv. by apply (Hm a mm t Hs s). }
  destruct o; cbn [telio_op].
  - destruct (view s) as [[a mm] t] eqn:Hv. assert (a = false) as ->.
    { rewrite <- (Hstart ctx creds server eq_refl). by injection Hv as <- _ _. }
    by destruct (Start_wpv ctx creds server mm t Hs s Hv).
  - apply Hw. apply Stop_wpv.
  - apply Hw. intros a mm t Hu. eapply wpv_mono, (Enable_wpv ip privateKey a mm t Hu). by intros r v [].
  - apply Hw. apply Disable_wpv.
  - apply Hw. apply NetworkChanged_wpv.
  - by rewrite (Refresh_keeps raw _ s eq_refl).
  - exact Hs.
  - by rewrite (keeps_step st _ s eq_refl).
Qed.

(** C15: the tunnel.  As long as the VPN is started only when it is not connected, and
    whatever other calls were made, in whatever order, whichever of all of them failed or
    were canceled, the tunnel exists while the VPN is connected over it or the meshnet
    is enabled. *)
Theorem tunnel_exists_while_used (ops : list TelioOp) (fwmark : Z) (machine : Machine T) :
  starts_apart ops (new_telio fwmark machine) ->
  let s := run_ops telio_op ops (new_telio fwmark machine) in
  tl_active s = true \/ tl_isMeshEnabled s = true -> tl_tun s <> None.
Proof.
  intros Hap. cbv zeta. enough (Hu : used (view (run_ops telio_op ops (new_telio fwmark machine)))).
  { intros Ho. apply Hu. cbn. by apply orb_true_iff. }
  induction ops as [|o ops IH] using rev_ind; [done|]. rewrite run_ops_app. cbn [run_ops]. apply op_used.
  - intros ctx creds server ->. by apply (Hap ops ctx creds server []).
  - apply IH. intros before ctx creds server after ->. apply (Hap before ctx creds server (after ++ [o])).
    by rewrite <- app_assoc.
Qed.

(** The address of the tunnel.  Enabling the meshnet gives the tunnel the address of
    the meshnet when the VPN is connected or there was no tunnel; an open tunnel of a VPN
    that is not connected, as a connection that was canceled leaves it, keeps its
    address.  Disabling the meshnet while the VPN is connected keeps the address of the
    meshnet. *)
Theorem mesh_tunnel_address (ip : Addr) (privateKey : string) (s : Telio T) :
  (tl_active s = true \/ tl_isMeshEnabled s = true -> tl_tun s <> None) ->
  (is_ok (Enable ip privateKey s).1 = true ->
   let s' := (Enable ip privateKey s).2 in
   exists t, tl_tun s' = Some t /\ tl_isMeshEnabled s' = true /\ tl_active s' = tl_active s /\
     (tl_active s = true \/ tl_tun s = None -> tu_ips t = [ip]) /\
     (tl_active s = false -> tl_tun s <> None -> tl_tun s = Some t)) /\
  (is_ok (Disable s).1 = true -> tl_active s = true -> tl_tun (Disable s).2 = tl_tun s).
Proof.
  intros Hu. assert (Hv : used (tl_active s, tl_isMeshEnabled s, tl_tun s)) by (intros Hb; by apply Hu, orb_true_iff). split.
  - intros Hok. destruct (Enable_wpv ip privateKey _ _ _ Hv s eq_refl) as [_ He]. destruct (He Hok) as (t & [= Ha Hm Ht] & Hips).
    exists t. split_and!; [done|done|done| |].
    + intros Hor. destruct (tl_tun s) as [t0|]; [|done]. destruct (tl_active s); [done|by destruct Hor].
    + intros Hna Hne. destruct (tl_tun s) as [t0|]; [|done]. rewrite Hna in Hips. by subst t0.
  - intros Hok Ha. pose proof (disable_wpv _ _ _ s eq_refl) as Hd. fold Disable in Hd. unfold Disable in *.
    destruct (disable s) as [[u|e] s']; [|done]. cbn [fst snd] in *. rewrite Ha in Hd. by injection Hd.
Qed.
End Ops.

(** ** The monitors *)

(** What an event says about the connection. *)
Definition event_kind (e : VpnEvent) : notifyState :=
  match e with
  | Connected StatusAttempt _ _ _ _ _ _ => connecting
  | Connected StatusSuccess _ _ _ _ _ _ => connected
  | Disconnected _ => disconnected
  end.

Section Monitors.
Context {T : Type} `{System T} `{NetDevices T} `{TelioLib T}.
Implicit Type s : Telio T.

(** What monitor [i] published, as what it says. *)
Definition said (i : nat) (l : list (nat * VpnEvent)) : list notifyState :=
  omap (fun p => if bool_decide (p.1 = i) then Some (event_kind p.2) else None) l.

Lemma said_app i l l' : said i (l ++ l') = said i l ++ said i l'.
Proof. apply omap_app. Qed.
Lemma said_own i evs : said i (map (pair i) evs) = map event_kind evs.
Proof. induction evs as [|e evs IH]; [done|]. cbn. rewrite bool_decide_true by done. by f_equal. Qed.
Lemma said_other i j evs : i <> j -> said i (map (pair j) evs) = [].
Proof. intros Hne. induction evs as [|e evs IH]; [done|]. cbn. by rewrite bool_decide_false. Qed.

(** A monitor and what it said so far. *)
Definition monitor_ok (m : Monitor) (l : list notifyState) : Prop :=
  alternates disconnected l /\ List.last l disconnected = mn_current m /\
  mn_closed m = (if mn_initial m then 0%nat else 1%nat) /\ (connected ∈ l <-> mn_initial m = false).

Lemma monitor_said m l k m' :
  monitor_ok m l -> k <> mn_current m -> mn_current m' = k -> mn_closed m' = (if mn_initial m' then 0%nat else 1%nat) ->
  (connected ∈ l ++ [k] <-> mn_initial m' = false) -> monitor_ok m' (l ++ [k]).
Proof.
  intros (Ha & Hl & Hc & Hi) Hk Hm' Hc' Hi'. split_and!; [|by rewrite List.last_last|done|done].
  apply alternates_snoc; [done|by rewrite Hl].
Qed.

Lemma elem_snoc (k x : notifyState) l : k ∈ l ++ [x] <-> k ∈ l \/ k = x.
Proof. by rewrite elem_of_app, list_elem_of_singleton. Qed.

Lemma event_ok m l e : monitor_ok m l -> monitor_ok (monitor_event m e).1 (l ++ map event_kind (monitor_event m e).2).
Proof.
  intros Hok. pose proof Hok as (Ha & Hl & Hc & Hi). unfold monitor_event.
  assert (Hid : monitor_ok m (l ++ map event_kind [])) by by rewrite app_nil_r.
  destruct (ne_IsExit e); cbn [negb]; [|exact Hid]. destruct (ne_State e).
  - case_bool_decide; [|exact Hid]. destruct (mn_initial m) eqn:Hin.
    + cbn [mn_current set_field]. case_bool_decide as Hcur; cbn [fst snd map].
      * exfalso. assert (connected ∈ l) as Hin'; [|apply Hi in Hin'; congruence].
        rewrite <- Hcur, <- Hl in *. destruct l as [|x l'] using rev_ind; [done|]. rewrite List.last_last in *. subst x. apply elem_snoc. by right.
      * apply (monitor_said m l connected); [done|congruence|done| |].
        -- cbn. by rewrite Hc.
        -- cbn. rewrite elem_snoc. tauto.
    + case_bool_decide as Hcur; cbn [fst snd map]; [exact Hid|]. apply (monitor_said m l connected); [done|congruence|done| |].
      * cbn. by rewrite Hin, Hc.
      * cbn. rewrite elem_snoc. tauto.
  - case_bool_decide as Hcur; cbn [fst snd map]; [exact Hid|].
    apply (monitor_said m l connecting); [done|congruence|done|done|]. cbn. rewrite elem_snoc. rewrite <- Hi. intuition discriminate.
  - case_bool_decide as Hcur; cbn [fst snd map]; [exact Hid|].
    apply (monitor_said m l disconnected); [done|congruence|done|done|]. cbn. rewrite elem_snoc. rewrite <- Hi. intuition discriminate.
Qed.

Lemma done_ok m l : monitor_ok m l -> monitor_ok (monitor_done m).1 (l ++ map event_kind (monitor_done m).2).
Proof.
  intros Hok. pose proof Hok as (Ha & Hl & Hc & Hi). unfold monitor_done. case_bool_decide as Hcur; cbn [fst snd map].
  - rewrite app_nil_r. split_and!; [done|by rewrite Hl|done|done].
  - apply (monitor_said m l disconnected); [done|congruence|done|done|]. cbn. rewrite elem_snoc. rewrite <- Hi. intuition discriminate.
Qed.

Definition monitors_ok s : Prop := forall i,
  match tl_monitors s !! i with
  | Some m => monitor_ok m (said i (tl_published s))
  | None => said i (tl_published s) = []
  end.

Lemma put_ok i m r s :
  monitors_ok s -> tl_monitors s !! i = Some m -> monitor_ok r.1 (said i (tl_published s) ++ map event_kind r.2) ->
  monitors_ok (put_monitor i r s).2.
Proof.
  intros Hok Hm Hr j. cbn -[said]. rewrite said_app. destruct (decide (j = i)) as [->|Hne].
  - rewrite list_lookup_insert_eq by (by eapply lookup_lt_Some). by rewrite said_own.
  - rewrite list_lookup_insert_ne by done. rewrite said_other, app_nil_r by done. apply Hok.
Qed.

Lemma step_ok st : preserves monitors_ok (monitor_step st).
Proof.
  intros s Hok. unfold monitor_step, bind, gets. destruct st as [i e|i].
  - destruct (tl_monitors s !! i) as [m|] eqn:Hm; [|done]. destruct (mn_running m); [|done]. apply (put_ok i m); [done|done|].
    apply event_ok. specialize (Hok i). by rewrite Hm in Hok.
  - destruct (tl_monitors s !! i) as [m|] eqn:Hm; [|done]. destruct (mn_running m && _); [|done]. apply (put_ok i m); [done|done|].
    apply done_ok. specialize (Hok i). by rewrite Hm in Hok.
Qed.

Lemma start_monitor_ok c k d : preserves monitors_ok (isConnected (T := T) c k d).
Proof.
  intros s Hok i. cbn -[said]. destruct (decide (i = length (tl_monitors s))) as [->|Hne].
  - rewrite list_lookup_middle by done. specialize (Hok (length (tl_monitors s))). rewrite lookup_ge_None_2 in Hok by lia. rewrite Hok.
    split_and!; [done|done|done|]. cbn. split; [by intros ?%not_elem_of_nil|done].
  - specialize (Hok i). destruct (decide (i < length (tl_monitors s))%nat) as [Hlt|Hge].
    + by rewrite lookup_app_l.
    + rewrite (lookup_ge_None_2 (tl_monitors s)) in Hok by lia. rewrite lookup_ge_None_2; [done|]. rewrite length_app. cbn. lia.
Qed.

Lemma mok_machine {A} (m : M (Machine T) A) : preserves monitors_ok (on_machine m).
Proof. intros s Hs. unfold on_machine, zoom. by destruct (m (tl_machine s)). Qed.
Lemma mok_lib {A} (m : M T A) : preserves monitors_ok (on_lib m).
Proof. apply mok_machine. Qed.
Lemma mok_modify f : (forall s, tl_monitors (f s) = tl_monitors s /\ tl_published (f s) = tl_published s) -> preserves monitors_ok (modify f).
Proof. intros Hf s Hs i. cbn -[said]. destruct (Hf s) as [-> ->]. apply Hs. Qed.
#[local] Hint Resolve mok_machine mok_lib step_ok start_monitor_ok : pres.
Ltac mok_auto := pres_auto; try (apply mok_modify; by intros).

Lemma mok_cancel i : preserves monitors_ok (cancel (T := T) i).
Proof. unfold cancel. mok_auto. Qed.
Lemma mok_WithCancel p : preserves monitors_ok (WithCancel (T := T) p).
Proof. unfold WithCancel. mok_auto. Qed.
#[local] Hint Resolve mok_cancel mok_WithCancel : pres.
Lemma mok_close : preserves monitors_ok (closeTunnel (T := T)).
Proof. unfold closeTunnel. mok_auto. Qed.
Lemma mok_disconnect : preserves monitors_ok (disconnect (T := T)).
Proof. unfold disconnect. mok_auto. Qed.
#[local] Hint Resolve mok_close mok_disconnect : pres.
Lemma mok_open ip k : preserves monitors_ok (openTunnel (T := T) ip k).
Proof. unfold openTunnel, clean_interface, start_named. mok_auto. Qed.
Lemma mok_connect c ip k pq : preserves monitors_ok (connect (T := T) c ip k pq).
Proof. unfold connect, await_connection, connect_to_exit_node, is_closed. mok_auto. Qed.
#[local] Hint Resolve mok_open mok_connect : pres.
Lemma mok_connect_timeout ip k pq : preserves monitors_ok (connect_with_timeout (T := T) ip k pq).
Proof. unfold connect_with_timeout. mok_auto. Qed.
Lemma mok_disable : preserves monitors_ok (disable (T := T)).
Proof. unfold disable. mok_auto. Qed.
Lemma mok_set_meshnet n c : preserves monitors_ok (set_meshnet (T := T) n c).
Proof. induction n as [|n IH]; cbn [set_meshnet]; mok_auto. Qed.
#[local] Hint Resolve mok_connect_timeout mok_disable mok_set_meshnet : pres.

Lemma mok_op o : preserves monitors_ok (telio_op (T := T) o).
Proof.
  destruct o; cbn [telio_op]; unfold Start, Stop, Enable, updateTunnel, Disable, NetworkChanged, Refresh; mok_auto.
Qed.

(** C18: what a monitor publishes.  In every reachable state, whichever monitors run and
    whatever events they get, no monitor announces twice in a row that it is connecting,
    connected or disconnected, none announces a disconnection first, and the channel its
    connection waits for is closed exactly once when it announced being connected, and
    never again, which would end the process. *)
Theorem monitors_announce_changes (ops : list TelioOp) (fwmark : Z) (machine : Machine T) (i : nat) (m : Monitor) :
  let s := run_ops telio_op ops (new_telio fwmark machine) in
  tl_monitors s !! i = Some m ->
  alternates disconnected (said i (tl_published s)) /\
  mn_closed m = (if bool_decide (connected ∈ said i (tl_published s)) then 1%nat else 0%nat).
Proof.
  intros s Hm. assert (Hok : monitors_ok s) by (apply run_ops_inv; [intros o; apply mok_op|done]).
  specialize (Hok i). rewrite Hm in Hok. destruct Hok as (Ha & _ & Hc & Hi). split; [done|]. rewrite Hc.
  case_bool_decide as Hin; destruct (mn_initial m); [by apply Hi in Hin|done|done|]. by destruct Hin; apply Hi.
Qed.
End Monitors.

(** ** The monitor after the call *)

Section AfterCall.
Context {T : Type} `{System T} `{NetDevices T} `{TelioLib T}.
Implicit Type s : Telio T.

Definition has_monitor (i : nat) (c : Ctx) s : Prop := exists m, tl_monitors s !! i = Some m /\ mn_ctx m = c.

Lemma event_ctx m e : mn_ctx (monitor_event m e).1 = mn_ctx m.
Proof.
  unfold monitor_event. destruct (negb _); [done|]. destruct (ne_State e); repeat case_bool_decide; try done; by destruct (mn_initial m).
Qed.

Lemma has_machine {A} (m : M (Machine T) A) i c : preserves (has_monitor i c) (on_machine m).
Proof. intros s Hs. unfold on_machine, zoom. by destruct (m (tl_machine s)). Qed.

Lemma has_put i c j m r :
  mn_ctx r.1 = mn_ctx m -> forall s, tl_monitors s !! j = Some m -> has_monitor i c s -> has_monitor i c (put_monitor j r s).2.
Proof.
  intros Hr s Hm (m0 & Hm0 & Hc). unfold has_monitor. cbn -[said]. destruct (decide (i = j)) as [->|Hne].
  - rewrite Hm in Hm0. injection Hm0 as <-. exists r.1. rewrite list_lookup_insert_eq by (by eapply lookup_lt_Some). by rewrite Hr.
  - exists m0. by rewrite list_lookup_insert_ne.
Qed.

Lemma has_step i c st : preserves (has_monitor i c) (monitor_step (T := T) st).
Proof.
  intros s Hs. unfold monitor_step, bind, gets. destruct st as [j e|j]; destruct (tl_monitors s !! j) as [m|] eqn:Hm; try done.
  - destruct (mn_running m); [|done]. apply (has_put i c j m); [apply event_ctx|done|done].
  - destruct (mn_running m && _); [|done]. by apply (has_put i c j m).
Qed.

(** A successful connection has a monitor whose context comes from that of the call. *)
Lemma connect_monitor ctx ip k pq s s' :
  connect ctx ip k pq s = (Ok tt, s') ->
  exists i m j, tl_monitors s' !! i = Some m /\ mn_ctx m = j :: ctx /\ (0 < mn_closed m)%nat /\ tl_active s' = true.
Proof.
  unfold connect. unfold WithCancel. rewrite bind_assoc, bind_gets, bind_assoc, bind_modify, bind_ret, bind_modify, bind_gets. cbn [head].
  set (j := tl_contexts s). set (s1 := set_field _ _ _). unfold isConnected at 1. rewrite bind_assoc, bind_gets, bind_assoc, bind_modify, bind_ret.
  set (i := length (tl_monitors s1)). set (s2 := set_field _ _ s1).
  assert (Hm2 : has_monitor i (j :: ctx) s2).
  { eexists. split; [unfold s2, i; cbn; by rewrite list_lookup_middle|done]. }
  assert (Hex : preserves (has_monitor i (j :: ctx)) (connect_to_exit_node ip k pq)).
  { unfold connect_to_exit_node, on_lib. pose proof (fun A m => @has_machine A m i (j :: ctx)) as Hl. pres_auto; apply Hl. }
  specialize (Hex s2 Hm2). unfold bind at 1, attempt at 1. destruct (connect_to_exit_node ip k pq s2) as [[u|e] s3].
  2: { cbn. unfold bind, gets, when. destruct (tl_isMeshEnabled s3); cbn; intros [=]. }
  cbn [snd] in Hex. unfold await_connection. rewrite bind_assoc. unfold bind at 1.
  pose proof (has_machine (on_sys wait_steps) i (j :: ctx) s3 Hex) as Hw. fold (on_lib (T := T) wait_steps) in Hw.
  destruct (on_lib wait_steps s3) as [[w|e] s4]; [|done]. cbn [snd] in Hw. rewrite bind_assoc. unfold bind at 1.
  pose proof (preserves_forM_ (has_monitor i (j :: ctx)) w.1 monitor_step (has_step i (j :: ctx)) s4 Hw) as Hst.
  destruct (forM_ w.1 monitor_step s4) as [[u2|e] s5]; [|done]. cbn [snd] in Hst. destruct w.2.
  { rewrite bind_assoc. cbn. intros [=]. }
  unfold is_closed. rewrite bind_assoc, bind_gets. destruct Hst as (m & Hm & Hc). rewrite Hm.
  destruct (0 <? mn_closed m)%nat eqn:Hcl; [|done]. rewrite bind_ret, bind_modify. intros [= <-].
  exists i, m, j. split_and!; [exact Hm|done|by apply Nat.ltb_lt|done].
Qed.

Lemma done_parent (c : gset nat) j i ctx : i ∈ ctx -> i ∈ c -> ctx_done c (j :: ctx) = true.
Proof.
  intros Hi Hc. unfold ctx_done. apply existsb_exists. exists i. split; [right; by apply list_elem_of_In|by apply bool_decide_eq_true].
Qed.

(** The monitor of the connection, whose context is done. *)
Definition abandoned s : Prop := exists i m, tl_monitors s !! i = Some m /\ (0 < mn_closed m)%nat /\
  ctx_done (tl_canceled s) (mn_ctx m) = true /\ tl_active s = true.

Lemma timeout_abandons ip k pq s s' : connect_with_timeout ip k pq s = (Ok tt, s') -> abandoned s'.
Proof.
  unfold connect_with_timeout, WithCancel. rewrite bind_assoc, bind_gets, bind_assoc, bind_modify, bind_ret. set (id := tl_contexts s). set (s1 := set_field _ _ s).
  unfold bind at 1, attempt. destruct (connect [id] ip k pq s1) as [[[]|e] s2] eqn:Hc; cbn; [|done].
  intros [= <-]. destruct (connect_monitor _ _ _ _ _ _ Hc) as (i & m & j & Hm & Hctx & Hcl & Ha).
  exists i, m. split_and!; [exact Hm|done| |exact Ha]. rewrite Hctx. apply (done_parent _ j id); [by left|]. cbn. set_solver.
Qed.

(** The monitor ends with the call.  When a connection request succeeds, and when
    the meshnet is enabled while the VPN is connected, the context of the connection's
    monitor is canceled as the call returns.  The VPN stays connected, but the next step of
    the monitor announces that the user disconnected, and it watches no longer. *)
Theorem connection_announced_as_ended (st : SharedContext * Telio T) (creds : Credentials) (server : ServerData)
    (ip : Addr) (privateKey : string) :
  ((TryExecuteWith (fun ctx => on_telio (Start ctx creds server)) st).1 = Ok (Some (Ok tt)) ->
   abandoned (TryExecuteWith (fun ctx => on_telio (Start ctx creds server)) st).2.2) /\
  (tl_active st.2 = true -> (Enable ip privateKey st.2).1 = Ok tt -> abandoned (Enable ip privateKey st.2).2) /\
  (forall (s : Telio T) i m, tl_monitors s !! i = Some m -> ctx_done (tl_canceled s) (mn_ctx m) = true ->
     mn_running m = true -> mn_current m = connected ->
     tl_published (monitor_step (Finish i) s).2 = tl_published s ++ [(i, Disconnected true)] /\
     tl_active (monitor_step (Finish i) s).2 = tl_active s).
Proof.
  destruct st as [c s]. split_and!.
  - unfold TryExecuteWith, on_shared, on_telio at 1, zoom, bind, gets. cbn [fst snd]. destruct (sc_executing c); [done|].
    cbn. set (s1 := mkTelio _ _ _ _ _ _ _ _ _ _ _ _ _ _ _). unfold attempt, on_telio, zoom. cbn [fst snd].
    destruct (Start [tl_contexts s] creds server s1) as [[[]|e] s2] eqn:Hs; [|done]. cbn. intros _.
    unfold Start in Hs. unfold bind at 1, wrapped in Hs. destruct (openTunnel _ _ s1) as [[u|e] s3]; [|done].
    rewrite bind_modify in Hs. unfold bind at 1 in Hs. destruct (connect _ _ _ _ _) as [[[]|e] s4] eqn:Hc; [|done].
    injection Hs as <-. destruct (connect_monitor _ _ _ _ _ _ Hc) as (i & m & j & Hm & Hctx & Hcl & Ha).
    exists i, m. split_and!; [exact Hm|done| |exact Ha]. rewrite Hctx. apply (done_parent _ j (tl_contexts s)); [by left|]. cbn. set_solver.
  - cbn [snd]. intros Ha. unfold Enable, on_error. match goal with |- context [bind ?m ?k s] => destruct (bind m k s) as [[[]|e] s'] eqn:He end; [|done].
    cbn [fst snd]. intros _. unfold bind at 1 in He. destruct (wrapped _ _ _ s) as [[u|e] s1] eqn:Ho; [|done].
    assert (Ha1 : tl_active s1 = true).
    { assert (Hv : view s = (true, tl_isMeshEnabled s, tl_tun s)) by (unfold view; by rewrite Ha).
      pose proof (open_wpv ip privateKey _ _ _ s Hv) as Hw. unfold wrapped in Ho. destruct (openTunnel ip privateKey s) as [[x|x] s1']; [|done].
      injection Ho as <- <-. by destruct Hw as (t' & [= Hx _ _] & _). }
    rewrite bind_gets, Ha1 in He. cbn [when] in He. rewrite bind_assoc in He. unfold bind at 1 in He.
    destruct (wrapped _ _ _ s1) as [[u1|e] s2]; [|done]. rewrite bind_assoc in He. unfold bind at 1 in He.
    destruct (wrapped _ _ _ s2) as [[u2|e] s3]; [|done]. rewrite bind_assoc, bind_gets in He. unfold bind at 1, wrapped in He.
    destruct (connect_with_timeout _ _ _ s3) as [[[]|e] s4] eqn:Hc; [|done]. injection He as <-.
    destruct (timeout_abandons _ _ _ _ _ Hc) as (i & m & Hm & Hcl & Hd & Hac). by exists i, m.
  - intros s0 i m Hm Hd Hr Hcur. unfold monitor_step, bind, gets. rewrite Hm, Hr, Hd. cbn. by rewrite Hcur.
Qed.
End AfterCall.

(** ** A machine on which connections succeed *)

Module Rig.

(** The number of connections waited for; each gets the event that its server is
    connected. *)
Definition Sys : Type := nat.
Definition up (key : string) : NodeEvent := mkNodeEvent "" NodeStateConnected key true true.

#[export] Instance sys : System Sys := {|
  exec_Command := fun _ _ _ s => ("", None, s);
  os_Getenv := fun _ _ => "";
  exec_LookPath := fun name _ => Some name;
  os_Getwd := ret "/";
  net_InterfaceByName := fun name => ret (mkNetIface name 7 1420 true (Ok []));
  net_Interfaces := ret [];
  net_ListenPacket := fun _ _ => ret tt
|}.
#[export] Instance devices : NetDevices Sys := {| unix_SetUp := fun _ => ret tt; unix_SetMTU := fun _ _ => ret tt |}.
#[export] Instance lib : TelioLib Sys := {|
  lib_StartNamed := fun _ _ _ => ret tt;
  lib_Stop := ret tt;
  lib_SetFwmark := fun _ => ret tt;
  lib_SetSecretKey := fun _ => ret tt;
  lib_ConnectToExitNode := fun _ _ _ => ret tt;
  lib_ConnectToExitNodePostquantum := fun _ _ _ _ => throw (Errorf "not supported");
  lib_DisconnectFromExitNodes := ret tt;
  lib_SetMeshnetOff := ret tt;
  lib_SetMeshnet := fun _ => ret tt;
  lib_NotifyNetworkChange := fun _ => ret tt;
  lib_GetStatusMap := fun _ => [];
  lib_DeserializeMeshnetConfig := fun c => Ok c;
  uuid_NewString := ret "id";
  wait_steps := fun n => (Ok ([Deliver n (up "server-key")], false), S n)
|}.

Definition machine : Machine Sys := mkMachine ∅ [] 0%nat.
Definition creds : Credentials := mkCredentials "" "" "api-key".
Definition server : ServerData := mkServerData (AddrV4 (v4 192 0 2 1)) "us1.nordvpn.com" "US #1" "US" "NY" 0 "server-key" false "" false false.
Definition post_quantum_server : ServerData :=
  mkServerData (AddrV4 (v4 192 0 2 2)) "us2.nordvpn.com" "US #2" "US" "NY" 0 "other-key" false "" false true.
Definition mesh_ip : Addr := AddrV4 (v4 100 64 0 2).

Definition ops : list TelioOp := [TelioStart [] creds server; TelioEnable mesh_ip "mesh-key"; TelioStop].

Lemma tunnel_exists_while_used_witness :
  let s := run_ops telio_op ops (new_telio 57841 machine) in tl_isMeshEnabled s = true /\ tl_tun s <> None.
Proof.
  split; [vm_compute; reflexivity|]. apply (tunnel_exists_while_used ops 57841 machine).
  - intros [|o0 [|o1 [|o2 [|o3 before]]]] c k v after; [reflexivity|by intros [=]..].
  - right. vm_compute. reflexivity.
Defined.

(** A start while the VPN is connected, that fails, closes the tunnel and leaves the VPN
    marked as connected. *)
Example failed_second_start_closes_tunnel :
  let s := run_ops telio_op [TelioStart [] creds server; TelioStart [] creds post_quantum_server]
             (new_telio 57841 machine) in
  (tl_active s, tl_tun s) = (true, None).
Proof. vm_compute. reflexivity. Qed.

Lemma monitors_announce_changes_witness :
  let s := run_ops telio_op ops (new_telio 57841 machine) in
  exists m, tl_monitors s !! 1%nat = Some m /\ alternates disconnected (said 1 (tl_published s)) /\
    mn_closed m = (if bool_decide (connected ∈ said 1 (tl_published s)) then 1%nat else 0%nat).
Proof.
  cbv zeta. destruct (tl_monitors (run_ops telio_op ops (new_telio 57841 machine)) !! 1%nat) as [m|] eqn:Hm; [|vm_compute in Hm; discriminate].
  exists m. split; [reflexivity|]. apply (monitors_announce_changes ops 57841 machine 1 m Hm).
Defined.

Definition connected_state : Telio Sys := run_ops telio_op [TelioStart [] creds server] (new_telio 57841 machine).

Lemma mesh_tunnel_address_witness :
  (is_ok (Enable mesh_ip "mesh-key" connected_state).1 = true ->
   let s' := (Enable mesh_ip "mesh-key" connected_state).2 in
   exists t, tl_tun s' = Some t /\ tl_isMeshEnabled s' = true /\ tl_active s' = tl_active connected_state /\
     (tl_active connected_state = true \/ tl_tun connected_state = None -> tu_ips t = [mesh_ip]) /\
     (tl_active connected_state = false -> tl_tun connected_state <> None -> tl_tun connected_state = Some t)) /\
  (is_ok (Disable connected_state).1 = true -> tl_active connected_state = true ->
   tl_tun (Disable connected_state).2 = tl_tun connected_state).
Proof. apply (mesh_tunnel_address mesh_ip "mesh-key" connected_state). intros _. vm_compute. discriminate. Defined.

(** A request connects, and once its monitor has seen that the context is done the last
    thing announced is that the user disconnected. *)
Example connected_but_announced_as_ended :
  let st := (mkSharedContext false None false, new_telio 57841 machine) in
  let s := (TryExecuteWith (fun ctx => on_telio (Start ctx creds server)) st).2.2 in
  let s' := (monitor_step (Finish 0) s).2 in
  (map (fun p => event_kind p.2) (tl_published s), tl_active s) = ([connected], true) /\
  (map (fun p => event_kind p.2) (tl_published s'), tl_active s') = ([connected; disconnected], true).
Proof. vm_compute. done. Qed.

(** After the meshnet was disabled the VPN goes on with the address of the meshnet. *)
Example mesh_address_kept :
  let s := run_ops telio_op [TelioStart [] creds server; TelioEnable mesh_ip "mesh-key"; TelioDisable] (new_telio 57841 machine) in
  (tl_active s, tl_isMeshEnabled s, tu_ips <$> tl_tun s) = (true, false, Some [mesh_ip]).
Proof. vm_compute. done. Qed.
End Rig.
