(* ===== verification/NordLynx.v ===== *)
(** * NordLynx: the VPN over WireGuard in the kernel

    Models [daemon/vpn/nordlynx/kernel_space.go].  The mutex is part of the state: a
    method that locks it while it is held waits for ever, which is a value, and leaves it
    held.  A successful start has everything set up, a failed one leaves nothing behind,
    apart from the cases the theorem names. *)

From stdpp Require Import base option list strings pretty gmap.
From Stdlib Require Import ZArith Ascii Lia.
From S2P Require Import Prelude GoLib Kernel Firewall Networker Transfers GoText Machine Tunnel.

Open Scope Z_scope.
Open Scope go_scope.

Class TempFiles (T : Type) : Type := {
  os_CreateTemp : string -> M T string  (* the path of the new file *)
}.

Record KernelSpace (T : Type) : Type := mkKernelSpace {
  ks_locked : bool;
  ks_state : State;
  ks_active : bool;
  ks_fwmark : Z;
  ks_tun : option Tun;
  ks_published : list VpnEvent;
  ks_machine : Machine T
}.
Arguments mkKernelSpace {T} _ _ _ _ _ _ _.
Arguments ks_locked {T} _.
Arguments ks_state {T} _.
Arguments ks_active {T} _.
Arguments ks_fwmark {T} _.
Arguments ks_tun {T} _.
Arguments ks_published {T} _.
Arguments ks_machine {T} _.
#[export] Instance eta_KernelSpace T : EtaExpand (KernelSpace T) := fun x =>
  mkKernelSpace (ks_locked x) (ks_state x) (ks_active x) (ks_fwmark x) (ks_tun x) (ks_published x) (ks_machine x).

(** The result of a call that never returns. *)
Definition deadlock : error := Sentinel "all goroutines are asleep - deadlock!".
Definition is_deadlock (e : error) : bool := errors_Is e "all goroutines are asleep - deadlock!".
Arguments is_deadlock : simpl never.

Section KernelSpaceMethods.
Context {T : Type} `{System T} `{NetDevices T} `{TempFiles T}.
Abbreviation K := (M (KernelSpace T)).

Definition in_machine {A} (m : M (Machine T) A) : K A := zoom ks_machine (fun x s => s <| ks_machine := x |>) m.

(** [k.Lock(); defer k.Unlock()]. *)
Definition with_lock {A} (m : K A) : K A := fun s =>
  if ks_locked s then (Err deadlock, s)
  else
    match m (s <| ks_locked := true |>) with
    | (Ok a, s') => (Ok a, s' <| ks_locked := false |>)
    | (Err e, s') => if is_deadlock e then (Err e, s') else (Err e, s' <| ks_locked := false |>)
    end.

Definition publish (e : VpnEvent) : K unit := modify (fun s => s <| ks_published := ks_published s ++ [e] |>).

Definition NewKernelSpace (fwmark : Z) (machine : Machine T) : KernelSpace T :=
  mkKernelSpace false ExitedState false fwmark None [] machine.

Definition stop : K unit :=
  let! tun := gets ks_tun in
  match tun with Some tun => in_machine (deleteInterface (tu_iface tun)) | None => ret tt end ;;
  set! ks_active := false ;;
  set! ks_tun := None ;;
  set! ks_state := ExitedState.

Definition Stop : K unit := with_lock (
  publish (Disconnected false) ;;
  let! state := gets ks_state in
  if bool_decide (state = ConnectingState) then set! ks_state := ExitingState else stop).

Definition FileTemp (name content : string) : M (Machine T) string :=
  let! path := on_sys (os_CreateTemp name) in
  os_WriteFile path content 384 ;;
  ret path.

(** The deferred [FileDelete] runs whether [wg] succeeds or not. *)
Definition pushConfig (iface : NetIface) (wgconf : string) : M (Machine T) unit :=
  let! tmp := FileTemp (ni_Name iface) wgconf in
  let! r := CombinedOutput "wg" ["setconf"; ni_Name iface; tmp] "" in
  ignore (FileDelete tmp) ;;
  match r.2 with
  | Some err => throw (Wrapf ("setting wireguard config: " +:+ r.1 +:+ ": ") err "")
  | None => ret tt
  end.

Definition JoinHostPort (host port : string) : string :=
  (if str_contains host ":" then "[" +:+ host +:+ "]" else host) +:+ ":" +:+ port.

Definition wgQuickConfig (privateKey : string) (fwmark : Z) (publicKey : string) (serverIP : Addr) : string :=
  strings_Join ["[Interface]"; "PrivateKey = " +:+ privateKey; "Fwmark = " +:+ hex_alt fwmark; "[Peer]";
                "PublicKey = " +:+ publicKey; "AllowedIPs = 0.0.0.0/0,::/0";
                "Endpoint = " +:+ JoinHostPort (addr_String serverIP) (itoa defaultPort); "PersistentKeepalive = 25"] newline_str.

(** [if err := m(); err != nil { k.stop(); return err }]. *)
Definition or_stop (m : K unit) : K unit := on_error m (ignore stop).

(** What [Start] does under the lock, without the events. *)
Definition start_body (creds : Credentials) (serverData : ServerData) : K unit :=
  let! fwmark := gets ks_fwmark in
  let conf := wgQuickConfig (cr_NordLynxPrivateKey creds) fwmark (sd_NordLynxPublicKey serverData) (sd_IP serverData) in
  let! shown := in_machine (CombinedOutput "ip" ["link"; "show"; "dev"; InterfaceName] "") in
  match shown.2 with
  | None => throw ErrTunnelAlreadyExists
  | Some _ =>
      wrapped "turning on nordlynx: " (in_machine (upWGInterface InterfaceName)) "" ;;
      let! found := attempt (in_machine (on_sys (net_InterfaceByName InterfaceName))) in
      match found with
      | Err err =>
          (* [Stop] locks the mutex again *)
          let! r := attempt Stop in
          match r with
          | Err e => if is_deadlock e then throw e else throw err
          | Ok _ => throw err
          end
      | Ok iface =>
          let ips := AddrV4 (v4 10 5 0 2) :: match InterfaceIPv6 (sd_IP serverData) interfaceID with Ok ip6 => [ip6] | Err _ => [] end in
          let tun := mkTun iface ips in
          set! ks_tun := Some tun ;;
          or_stop (wrapped "setting nordlynx server to connect to: " (in_machine (pushConfig iface conf)) "") ;;
          or_stop (in_machine (AddAddrs tun)) ;;
          or_stop (in_machine (Up tun)) ;;
          or_stop (wrapped "setting MTU for nordlynx interface: " (in_machine (SetMTU iface)) "") ;;
          set! ks_active := true ;;
          set! ks_state := ConnectedState
      end
  end.

Definition connect_event (status : EventStatus) (serverData : ServerData) : VpnEvent :=
  Connected status (addr_String (sd_IP serverData)) (sd_Country serverData) (sd_City serverData) "" "" false.

Definition Start (creds : Credentials) (serverData : ServerData) : K unit := with_lock (
  let! active := gets ks_active in
  if (active : bool) then throw ErrVPNAIsAlreadyStarted
  else
    publish (connect_event StatusAttempt serverData) ;;
    let! r := attempt (start_body creds serverData) in
    match r with
    | Ok _ => publish (connect_event StatusSuccess serverData)
    | Err err => if is_deadlock err then throw err else publish (Disconnected false) ;; throw err
    end).

Definition IsActive : K bool := with_lock (gets ks_active).
Definition Tun_ : K (option Tun) := with_lock (gets ks_tun).
Definition State_ : K State := with_lock (gets ks_state).
Definition NetworkChanged : K unit := throw (Errorf "not supported").
End KernelSpaceMethods.

(** ** The link of the tunnel *)

(** [link t] is whether the interface exists. *)
Class LinkLaws (T : Type) `{System T} `{NetDevices T} `{TempFiles T} (link : T -> bool) : Prop := {
  show_link s : (link (mc_sys (exec_Command "ip" ["link"; "show"; "dev"; InterfaceName] "" s).2) = link (mc_sys s)) /\
    ((exec_Command "ip" ["link"; "show"; "dev"; InterfaceName] "" s).1.2 <> None -> link (mc_sys s) = false);
  add_link s : link (mc_sys (exec_Command "ip" ["link"; "add"; InterfaceName; "type"; "wireguard"] "" s).2) =
    match (exec_Command "ip" ["link"; "add"; InterfaceName; "type"; "wireguard"] "" s).1.2 with
    | None => true | Some _ => link (mc_sys s) end;
  delete_link s : link (mc_sys (exec_Command "ip" ["link"; "delete"; InterfaceName] "" s).2) =
    match (exec_Command "ip" ["link"; "delete"; InterfaceName] "" s).1.2 with
    | None => false | Some _ => link (mc_sys s) end;
  address_link args s : link (mc_sys (exec_Command "ip" ("address" :: args) "" s).2) = link (mc_sys s);
  route_link s : link (mc_sys (exec_Command "ip" ["route"; "show"; "default"] "" s).2) = link (mc_sys s);
  wg_link args s : link (mc_sys (exec_Command "wg" args "" s).2) = link (mc_sys s);
  name_link name t : link (net_InterfaceByName name t).2 = link t;
  name_found name t iface : (net_InterfaceByName name t).1 = Ok iface -> ni_Name iface = name;
  up_link name t : link (unix_SetUp name t).2 = link t;
  mtu_link name mtu t : link (unix_SetMTU name mtu t).2 = link t;
  temp_link name t : link (os_CreateTemp name t).2 = link t;
  (** errors of the system are no deadlocks *)
  name_error name t e : (net_InterfaceByName name t).1 = Err e -> is_deadlock e = false;
  exec_error name args s e : (exec_Command name args "" s).1.2 = Some e -> is_deadlock e = false;
  up_error name t e : (unix_SetUp name t).1 = Err e -> is_deadlock e = false;
  mtu_error name mtu t e : (unix_SetMTU name mtu t).1 = Err e -> is_deadlock e = false;
  temp_error name t e : (os_CreateTemp name t).1 = Err e -> is_deadlock e = false
}.

Section Links.
Context {T : Type} `{LinkLaws T}.
Abbreviation O := (M (Machine T)).
Implicit Type s : Machine T.

Definition link_of s : bool := link (mc_sys s).

(** What leaves the link alone and fails with no deadlock. *)
Definition quiet {A} (m : O A) : Prop := forall s,
  link_of (m s).2 = link_of s /\ (forall e, (m s).1 = Err e -> is_deadlock e = false).

Lemma quiet_ret {A} (a : A) : quiet (ret a).
Proof. by intros s. Qed.
Lemma quiet_gets {A} (f : Machine T -> A) : quiet (gets f).
Proof. by intros s. Qed.
Lemma quiet_throw {A} e : is_deadlock e = false -> quiet (throw (A := A) e).
Proof. intros He s. split; [done|]. by intros e' [= <-]. Qed.
Lemma quiet_modify f : (forall s, mc_sys (f s) = mc_sys s) -> quiet (modify f).
Proof. intros Hf s. split; [|done]. unfold link_of, modify. cbn. by rewrite Hf. Qed.
Lemma quiet_bind {A B} (m : O A) (k : A -> O B) : quiet m -> (forall a, quiet (k a)) -> quiet (bind m k).
Proof.
  intros Hm Hk s. destruct (Hm s) as [Hl He]. unfold bind. destruct (m s) as [[a|e] s']; cbn in *.
  - rewrite <- Hl. apply Hk.
  - split; [done|]. intros e' [= <-]. by apply He.
Qed.
Lemma quiet_attempt {A} (m : O A) : quiet m -> quiet (attempt m).
Proof. intros Hm s. destruct (Hm s) as [Hl _]. unfold attempt. by destruct (m s). Qed.
Lemma quiet_ignore {A} (m : O A) : quiet m -> quiet (ignore m).
Proof. intros Hm s. destruct (Hm s) as [Hl _]. by split. Qed.
Lemma quiet_forM_ {A} (l : list A) f : (forall x, quiet (f x)) -> quiet (forM_ l f).
Proof. intros Hf. induction l; cbn [forM_]; [apply quiet_ret|by apply quiet_bind]. Qed.

(** An error of the system is passed on where it is used, so the binding keeps it. *)
Lemma quiet_sys {A} (m : M T A) :
  (forall t, link (m t).2 = link t) -> (forall t e, (m t).1 = Err e -> is_deadlock e = false) -> quiet (on_sys m).
Proof.
  intros Hl He s. unfold on_sys, zoom, link_of. specialize (Hl (mc_sys s)). specialize (He (mc_sys s)).
  by destruct (m (mc_sys s)) as [r t].
Qed.

Lemma quiet_command {B} name args (k : string * option error -> O B) :
  (forall s, link_of (exec_Command name args "" s).2 = link_of s) ->
  (forall out err, (forall e, err = Some e -> is_deadlock e = false) -> quiet (k (out, err))) ->
  quiet (bind (CombinedOutput name args "") k).
Proof.
  intros Hl Hk s. specialize (Hl s). pose proof (exec_error name args s) as He. unfold bind, CombinedOutput.
  destruct (exec_Command name args "" s) as [[out err] s']. cbn in *. rewrite <- Hl. apply Hk. intros e ->. by apply He.
Qed.

Lemma quiet_fault : quiet (next_fault (T := T)).
Proof. intros s. unfold next_fault. by destruct (mc_faults s). Qed.

Lemma quiet_with_node {A} path (k : FileNode -> O A) : (forall n, quiet (k n)) -> quiet (with_node path k).
Proof.
  intros Hk. unfold with_node. apply quiet_bind; [apply quiet_fault|]. intros [f|]; [by apply quiet_throw|].
  apply quiet_bind; [apply quiet_gets|]. intros [n|]; [done|by apply quiet_throw].
Qed.

Lemma quiet_write path data perm : quiet (os_WriteFile (T := T) path data perm).
Proof.
  unfold os_WriteFile. apply quiet_bind; [apply quiet_fault|]. intros f. apply quiet_bind; [apply quiet_gets|]. intros n.
  assert (Hp : forall x, quiet (put_node (T := T) path x)) by (intros x; by apply quiet_modify).
  destruct f as [[|b]|]; [by apply quiet_throw| |]; (destruct (fn_Immutable _); [by apply quiet_throw|]); [|apply Hp].
  apply quiet_bind; [apply Hp|]. intros _. by apply quiet_throw.
Qed.

Lemma quiet_delete path : quiet (FileDelete (T := T) path).
Proof.
  apply quiet_with_node. intros n. destruct (fn_Immutable n); [by apply quiet_throw|]. by apply quiet_modify.
Qed.

Lemma pushConfig_quiet iface conf : quiet (pushConfig iface conf).
Proof.
  unfold pushConfig, FileTemp. apply quiet_bind.
  - apply quiet_bind; [apply quiet_sys; [apply temp_link|apply temp_error]|]. intros path.
    apply quiet_bind; [apply quiet_write|]. intros _. apply quiet_ret.
  - intros tmp. apply quiet_command; [intros s; apply wg_link|]. intros out err He.
    apply quiet_bind; [apply quiet_ignore, quiet_delete|]. intros _. destruct err; [|apply quiet_ret]. apply quiet_throw. exact (He _ eq_refl).
Qed.

Lemma AddAddrs_quiet t : quiet (AddAddrs t).
Proof.
  apply quiet_forM_. intros ip. apply quiet_command; [intros s; apply address_link|]. intros out [e|] He; [|apply quiet_ret].
  apply quiet_bind; [apply quiet_gets|]. intros text. apply quiet_throw. exact (He _ eq_refl).
Qed.

Lemma Up_quiet t : quiet (Up t).
Proof. apply quiet_sys; [apply up_link|apply up_error]. Qed.

Lemma SetMTU_quiet iface : quiet (SetMTU iface).
Proof.
  unfold SetMTU, retrieveAndCalculateMTU. apply quiet_bind.
  - apply quiet_command; [intros s; apply route_link|]. intros out err _. unfold calculateMTU.
    destruct (bool_decide _); [apply quiet_ret|]. destruct (getDefaultIpRouteInterface _); [|apply quiet_ret].
    apply quiet_bind; [apply quiet_attempt, quiet_sys; [apply name_link|apply name_error]|]. intros []; apply quiet_ret.
  - intros mtu. apply quiet_sys; [apply mtu_link|apply mtu_error].
Qed.

(** The interface is there when making it succeeds. *)
Lemma upWGInterface_link s :
  match (upWGInterface InterfaceName s).1 with
  | Ok _ => link_of (upWGInterface InterfaceName s).2 = true
  | Err e => link_of (upWGInterface InterfaceName s).2 = link_of s /\ is_deadlock e = false
  end.
Proof.
  unfold upWGInterface, addDevice, bind, attempt, CombinedOutput. pose proof (add_link s) as Hl.
  pose proof (exec_error "ip" ["link"; "add"; InterfaceName; "type"; "wireguard"] s) as He.
  destruct (exec_Command "ip" _ "" s) as [[out [e|]] s']; cbn in *; [|exact Hl].
  split; [exact Hl|]. destruct (exec_LookPath _ _); [|done]. exact (He _ eq_refl).
Qed.

Lemma deleteInterface_link iface s :
  ni_Name iface = InterfaceName ->
  link_of (deleteInterface iface s).2 = match (deleteInterface iface s).1 with Ok _ => false | Err _ => link_of s end.
Proof.
  intros Hn. unfold deleteInterface, bind, CombinedOutput. rewrite Hn. pose proof (delete_link s) as Hl.
  by destruct (exec_Command "ip" _ "" s) as [[out [e|]] s'].
Qed.
End Links.

(** ** Starting and stopping *)

Section Runs.
Context {T : Type} `{LinkLaws T}.
Abbreviation K := (M (KernelSpace T)).
Implicit Type s : KernelSpace T.

Definition has_link s : bool := link_of (link := link) (ks_machine s).

Lemma in_machine_wp {A} (m : M (Machine T) A) (Q : result A -> KernelSpace T -> Prop) s :
  Q (m (ks_machine s)).1 (s <| ks_machine := (m (ks_machine s)).2 |>) -> wp (in_machine m) Q s.
Proof. unfold wp, in_machine, zoom. by destruct (m (ks_machine s)). Qed.

Lemma quiet_wp {A} (m : M (Machine T) A) (Q : result A -> KernelSpace T -> Prop) s :
  quiet (link := link) m ->
  (forall r x, link_of (link := link) x = has_link s -> (forall e, r = Err e -> is_deadlock e = false) -> Q r (s <| ks_machine := x |>)) ->
  wp (in_machine m) Q s.
Proof.
  intros Hm HQ. apply in_machine_wp. destruct (Hm (ks_machine s)) as [Hl He]. apply HQ; [exact Hl|exact He].
Qed.

Lemma wp_wrapped {A} pre (m : K A) post (Q : result A -> KernelSpace T -> Prop) s :
  wp m (fun r s' => Q (match r with Ok a => Ok a | Err e => Err (Wrapf pre e post) end) s') s -> wp (wrapped pre m post) Q s.
Proof. unfold wp, wrapped. by destruct (m s) as [[a|e] s']. Qed.

Lemma wp_attempt {A} (m : K A) (Q : result (result A) -> KernelSpace T -> Prop) s :
  wp m (fun r s' => Q (Ok r) s') s -> wp (attempt m) Q s.
Proof. unfold wp, attempt. by destruct (m s). Qed.

(** The last thing the machine did was to delete the interface, and that failed. *)
Definition deletion_failed s : Prop :=
  exists before out err,
    exec_Command "ip" ["link"; "delete"; InterfaceName] "" before = (out, Some err, ks_machine s).

(** [stop] with the tunnel of the link: when the deletion fails nothing has
    changed. *)
Definition stopped (t : Tun) s s' : Prop :=
  ks_published s' = ks_published s /\ ks_locked s' = ks_locked s /\
  ((ks_tun s' = None /\ has_link s' = false /\ ks_active s' = false /\ ks_state s' = ExitedState) \/
   (ks_tun s' = Some t /\ has_link s' = has_link s /\ ks_active s' = ks_active s /\ ks_state s' = ks_state s /\
    deletion_failed s')).

Lemma deleteInterface_failed iface (m : Machine T) e :
  ni_Name iface = InterfaceName -> (deleteInterface iface m).1 = Err e ->
  exists out err, exec_Command "ip" ["link"; "delete"; InterfaceName] "" m = (out, Some err, (deleteInterface iface m).2).
Proof.
  intros Hn. unfold deleteInterface, bind, CombinedOutput. rewrite Hn.
  destruct (exec_Command "ip" _ "" m) as [[out [err|]] m']; [|done]. cbn. intros _. by exists out, err.
Qed.

Lemma stop_stopped t s :
  ks_tun s = Some t -> ni_Name (tu_iface t) = InterfaceName -> stopped t s (stop s).2.
Proof.
  intros Ht Hn. change (wp stop (fun _ s' => stopped t s s') s). unfold stop. apply wp_bind. unfold wp at 1, gets. cbn [fst snd]. rewrite Ht.
  apply wp_bind, in_machine_wp. pose proof (deleteInterface_link (tu_iface t) (ks_machine s) Hn) as Hl.
  pose proof (deleteInterface_failed (tu_iface t) (ks_machine s)) as Hfail.
  destruct (deleteInterface (tu_iface t) (ks_machine s)) as [[u|e] x]; cbn in Hl, Hfail |- *.
  - unfold wp, bind, modify. cbn. split_and!; [done|done|]. left. by split_and!.
  - destruct (Hfail e Hn eq_refl) as (out & err & Hd).
    split_and!; [done|done|]. right. split_and!; [done..|]. by exists (ks_machine s), out, err.
Qed.
(** The steps after the interface is there: each failure stops. *)
Lemma or_stop_wp (m : M (Machine T) unit) (f : K unit -> K unit) (Q : result unit -> KernelSpace T -> Prop) s t :
  (f = (fun k => k) \/ exists pre, f = (fun k => wrapped pre k "")) ->
  ks_tun s = Some t -> ni_Name (tu_iface t) = InterfaceName -> quiet (link := link) m ->
  (forall x, link_of (link := link) x = has_link s -> Q (Ok tt) (s <| ks_machine := x |>)) ->
  (forall e s', is_deadlock e = false -> stopped t s s' -> Q (Err e) s') ->
  wp (or_stop (f (in_machine m))) Q s.
Proof.
  intros Hf Ht Hn Hm Hok Herr.
  assert (Hw : wp (f (in_machine m)) (fun r s' => (exists x, s' = s <| ks_machine := x |> /\ link_of (link := link) x = has_link s) /\
     (forall e, r = Err e -> is_deadlock e = false)) s).
  { destruct Hf as [->|[pre ->]]; [|apply wp_wrapped]; (apply quiet_wp; [done|]; intros r x Hx He; split; [by eexists|]).
    - exact He.
    - destruct r as [|e]; [done|]. intros e' [= <-]. exact (He e eq_refl). }
  unfold wp, or_stop, on_error in *. destruct (f (in_machine m) s) as [[[]|e] s']; cbn in Hw |- *; destruct Hw as [(x & -> & Hx) He].
  - by apply Hok.
  - apply Herr; [by apply He|]. pose proof (stop_stopped t (s <| ks_machine := x |>) Ht Hn) as (Hp & Hk & Hs).
    unfold stopped, has_link in *. cbn in *. rewrite Hx in Hs. by split_and!.
Qed.

(** How the body of [Start] ends. *)
Definition body_ends (r : result unit) s s' : Prop :=
  ks_published s' = ks_published s /\ ks_locked s' = true /\
  match r with
  | Ok _ => has_link s = false /\ has_link s' = true /\ ks_active s' = true /\ ks_state s' = ConnectedState /\
      exists t, ks_tun s' = Some t /\ ni_Name (tu_iface t) = InterfaceName
  | Err e =>
      ks_active s' = false /\
      if is_deadlock e then ks_tun s' = None /\ has_link s = false /\ has_link s' = true
      else (ks_tun s' = None /\ has_link s' = has_link s) \/
           ((exists t, ks_tun s' = Some t) /\ has_link s' = true /\ deletion_failed s')
  end.

(** The interface is there and known. *)
Definition ready (t : Tun) s q : Prop :=
  has_link s = false /\ ks_published q = ks_published s /\ ks_locked q = true /\ ks_tun q = Some t /\ ks_active q = false /\ has_link q = true.

Lemma or_stop_ready (m : M (Machine T) unit) f (k : unit -> K unit) s q t :
  (f = (fun k : K unit => k) \/ exists pre, f = (fun k => wrapped pre k "")) ->
  ni_Name (tu_iface t) = InterfaceName -> quiet (link := link) m -> ready t s q ->
  (forall q', ready t s q' -> wp (k tt) (fun r s' => body_ends r s s') q') ->
  wp (bind (or_stop (f (in_machine m))) k) (fun r s' => body_ends r s s') q.
Proof.
  intros Hf Hn Hm (Hno & Hp & Hk & Ht & Ha & Hl) Hnext. apply wp_bind, (or_stop_wp m f _ q t); [done..| |].
  - intros x Hx. apply Hnext. split_and!; try done. unfold has_link in *. cbn. by rewrite Hx.
  - intros e s' He (Hp' & Hk' & Hs). unfold body_ends. rewrite He, Hp', Hk'.
    split_and!; [done|done| |]; destruct Hs as [(? & ? & ? & ?)|(? & ? & ? & ? & ?)]; try congruence.
    + left. by split; [|congruence].
    + right. split; [by exists t|split; [congruence|done]].
Qed.

Lemma or_stop_plain (m : M (Machine T) unit) (k : unit -> K unit) s q t :
  ni_Name (tu_iface t) = InterfaceName -> quiet (link := link) m -> ready t s q ->
  (forall q', ready t s q' -> wp (k tt) (fun r s' => body_ends r s s') q') ->
  wp (bind (or_stop (in_machine m)) k) (fun r s' => body_ends r s s') q.
Proof. apply (or_stop_ready m (fun k => k)). by left. Qed.

Lemma or_stop_wrapped pre (m : M (Machine T) unit) (k : unit -> K unit) s q t :
  ni_Name (tu_iface t) = InterfaceName -> quiet (link := link) m -> ready t s q ->
  (forall q', ready t s q' -> wp (k tt) (fun r s' => body_ends r s s') q') ->
  wp (bind (or_stop (wrapped pre (in_machine m) "")) k) (fun r s' => body_ends r s s') q.
Proof. apply (or_stop_ready m (fun k => wrapped pre k "")). right. by exists pre. Qed.

Lemma body_wp creds server s :
  ks_locked s = true -> ks_active s = false -> ks_tun s = None ->
  wp (start_body creds server) (fun r s' => body_ends r s s') s.
Proof.
  intros Hk Ha Ht. unfold start_body. apply wp_bind. unfold wp at 1, gets. cbn [fst snd].
  apply wp_bind, in_machine_wp. unfold CombinedOutput. destruct (show_link (ks_machine s)) as [Hl Hnone].
  destruct (exec_Command "ip" ["link"; "show"; "dev"; InterfaceName] "" (ks_machine s)) as [[out err] m0]. cbn [fst snd] in *.
  destruct err as [e0|].
  2: { unfold wp, throw, body_ends. cbn. rewrite Hk, Ha, Ht. split_and!; [done|done|done|by left]. }
  assert (Hno : has_link s = false) by (by apply Hnone). clear Hnone.
  apply wp_bind, wp_wrapped, in_machine_wp. change (ks_machine (s <| ks_machine := m0 |>)) with m0. pose proof (upWGInterface_link m0) as Hu.
  destruct (upWGInterface InterfaceName m0) as [[[]|e] m1]; cbn [fst snd] in *.
  2: { destruct Hu as [Hu He]. unfold wp, throw, body_ends. cbn. rewrite Hk, Ha, Ht. split_and!; [done|done|done|].
       change (is_deadlock (Wrapf _ e _)) with (is_deadlock e). rewrite He. left. split; [done|]. unfold has_link in *. cbn. by rewrite Hu. }
  apply wp_bind, wp_attempt, in_machine_wp. unfold on_sys, zoom.
  change (ks_machine (s <| ks_machine := m0 |> <| ks_machine := m1 |>)) with m1.
  pose proof (name_link InterfaceName (mc_sys m1)) as Hl2. pose proof (name_error InterfaceName (mc_sys m1)) as He2.
  pose proof (name_found InterfaceName (mc_sys m1)) as Hf2.
  destruct (net_InterfaceByName InterfaceName (mc_sys m1)) as [[iface|e] t2]; cbn [fst snd] in *.
  2: { unfold wp, bind, attempt, Stop, with_lock. cbn. rewrite Hk. cbn. change (is_deadlock deadlock) with true.
       unfold throw, body_ends. cbn. rewrite Ht, Ha. change (is_deadlock deadlock) with true.
       split_and!; [done|done|done|done|done|]. unfold has_link, link_of in *. cbn. congruence. }
  specialize (Hf2 iface eq_refl).
  match goal with |- context [mkTun iface ?l] => set (tun := mkTun iface l) end.
  apply wp_bind. unfold wp at 1, modify. cbn [fst snd].
  match goal with |- wp _ _ ?q0 => set (q := q0); assert (Hr : ready tun s q) end.
  { split_and!; try done. unfold has_link, link_of in *. cbn. congruence. }
  clearbody q.
  apply (or_stop_wrapped _ _ _ s q tun); [done|apply pushConfig_quiet|done|]. clear q Hr. intros q Hr.
  apply (or_stop_plain _ _ s q tun); [done|apply AddAddrs_quiet|done|]. clear q Hr. intros q Hr.
  apply (or_stop_plain _ _ s q tun); [done|apply Up_quiet|done|]. clear q Hr. intros q Hr.
  apply (or_stop_wrapped _ _ _ s q tun); [done|apply SetMTU_quiet|done|]. clear q Hr. intros q (_ & Hp & Hlk & Htq & Haq & Hlq).
  unfold wp, bind, modify. cbn. split_and!; try done. by exists tun.
Qed.

(** C16: starting the VPN in the kernel, when it is not active, has no tunnel and its
    lock is free. A start that succeeds made the interface, set it up and published
    that it is connected. After a failure the VPN is not active and the failure is
    published; the interface is as before and no tunnel is remembered, or the last
    command that ran was the deletion of the interface, which failed, and the tunnel
    stays remembered. The exception is a failure to look the new interface up: [Start]
    then waits for the lock it holds, the interface stays, nothing more is published,
    and every later call of a method waits too. *)
Theorem kernel_start_outcome creds server s :
  ks_locked s = false -> ks_active s = false -> ks_tun s = None ->
  let r := (Start creds server s).1 in
  let s' := (Start creds server s).2 in
  let attempted := ks_published s ++ [connect_event StatusAttempt server] in
  match r with
  | Ok _ =>
      has_link s = false /\ has_link s' = true /\ ks_locked s' = false /\ ks_active s' = true /\ ks_state s' = ConnectedState /\
      (exists t, ks_tun s' = Some t /\ ni_Name (tu_iface t) = InterfaceName) /\
      ks_published s' = attempted ++ [connect_event StatusSuccess server]
  | Err e =>
      ks_active s' = false /\
      if is_deadlock e then
        ks_tun s' = None /\ has_link s' = true /\ ks_published s' = attempted /\
        (forall A (m : K A), with_lock m s' = (Err deadlock, s'))
      else
        ks_locked s' = false /\ ks_published s' = attempted ++ [Disconnected false] /\
        ((ks_tun s' = None /\ has_link s' = has_link s) \/
         ((exists t, ks_tun s' = Some t) /\ has_link s' = true /\ deletion_failed s'))
  end.
Proof.
  intros Hk Ha Ht. cbv zeta.
  pose (s1 := s <| ks_locked := true |> <| ks_published := ks_published s ++ [connect_event StatusAttempt server] |>).
  pose proof (body_wp creds server s1 eq_refl Ha Ht) as Hb. unfold wp in Hb.
  assert (Hrun : Start creds server s =
    match start_body creds server s1 with
    | (Ok _, s') => (Ok tt, s' <| ks_published := ks_published s' ++ [connect_event StatusSuccess server] |> <| ks_locked := false |>)
    | (Err e, s') => if is_deadlock e then (Err e, s')
                     else (Err e, s' <| ks_published := ks_published s' ++ [Disconnected false] |> <| ks_locked := false |>)
    end).
  { clear Hb. subst s1. destruct s as [lk st act fw tn pub mc]. cbn in Hk, Ha, Ht. subst.
    unfold Start, with_lock, bind, gets, attempt, publish, modify. cbn -[start_body].
    match goal with |- context [start_body creds server ?q] => destruct (start_body creds server q) as [[[]|e] s'] end; [done|].
    destruct (is_deadlock e) eqn:He; cbn; by rewrite ?He. }
  rewrite Hrun. destruct (start_body creds server s1) as [[u|e] s'] eqn:Hsb; cbn [fst snd] in Hb; destruct Hb as (Hp & Hlk & Hb).
  - cbn. rewrite Hp. by destruct Hb as (? & ? & ? & ? & ?).
  - destruct Hb as [Ha' Hb]. destruct (is_deadlock e) eqn:He; cbn; rewrite He; (split; [done|]).
    + destruct Hb as (? & ? & ?). split_and!; [done|done|done|]. intros A m. unfold with_lock. by rewrite Hlk.
    + rewrite Hp. by split_and!.
Qed.
End Runs.

(** ** A machine with a link *)

Module LinkBox.

(** Does the link exist, and can it be looked up? *)
Definition Sys : Type := bool * bool.

Definition run (name : string) (args : list string) (t : Sys) : string * option error * Sys :=
  if negb (bool_decide (name = "ip")) then ("", None, t)
  else if bool_decide (args = ["link"; "show"; "dev"; InterfaceName]) then
    ("", if t.1 then None else Some (Errorf "exit status 1"), t)
  else if bool_decide (args = ["link"; "add"; InterfaceName; "type"; "wireguard"]) then
    if t.1 then ("RTNETLINK answers: File exists", Some (Errorf "exit status 2"), t) else ("", None, (true, t.2))
  else if bool_decide (args = ["link"; "delete"; InterfaceName]) then
    if t.1 then ("", None, (false, t.2)) else ("Cannot find device", Some (Errorf "exit status 1"), t)
  else ("", None, t).

#[export] Instance sys : System Sys := {|
  exec_Command := fun name args _ s =>
    let '(out, err, t) := run name args (mc_sys s) in (out, err, s <| mc_sys := t |>);
  os_Getenv := fun _ _ => "";
  exec_LookPath := fun name _ => Some name;
  os_Getwd := ret "/";
  net_InterfaceByName := fun name => let! t := gets (fun t : Sys => t) in
    if t.2 then ret (mkNetIface name 7 1420 true (Ok [])) else throw (Errorf "no such network interface");
  net_Interfaces := ret [];
  net_ListenPacket := fun _ _ => ret tt
|}.
#[export] Instance devices : NetDevices Sys := {| unix_SetUp := fun _ => ret tt; unix_SetMTU := fun _ _ => ret tt |}.
#[export] Instance temp : TempFiles Sys := {| os_CreateTemp := fun name => ret ("/tmp/" +:+ name) |}.

#[export] Instance laws : LinkLaws Sys (fun t => t.1).
Proof.
  assert (Hn : forall name (t : Sys), net_InterfaceByName name t = (if t.2 then Ok (mkNetIface name 7 1420 true (Ok [])) else Err (Errorf "no such network interface"), t)).
  { by intros name [l []]. }
  assert (Hr : forall name args (s : Machine Sys), exec_Command name args "" s = ((run name args (mc_sys s)).1, s <| mc_sys := (run name args (mc_sys s)).2 |>)).
  { intros name args s. cbn [exec_Command sys]. by destruct (run name args (mc_sys s)) as [[out err] t]. }
  split.
  - intros s. rewrite Hr. cbn. by destruct (mc_sys s) as [[] b].
  - intros s. rewrite Hr. cbn. by destruct (mc_sys s) as [[] b].
  - intros s. rewrite Hr. cbn. by destruct (mc_sys s) as [[] b].
  - intros args s. by rewrite Hr.
  - intros s. by rewrite Hr.
  - intros args s. by rewrite Hr.
  - intros name t. by rewrite Hn.
  - intros name t iface. rewrite Hn. destruct (t.2); [|done]. by intros [= <-].
  - done.
  - done.
  - done.
  - intros name t e. rewrite Hn. destruct (t.2); [done|]. by intros [= <-].
  - intros name args s e. rewrite Hr. unfold run. destruct (mc_sys s) as [l b]. repeat case_match; simpl; intros [= <-]; done || discriminate.
  - done.
  - done.
  - done.
Qed.

Definition creds : Credentials := mkCredentials "" "" "key".
Definition server : ServerData := mkServerData (AddrV4 (v4 192 0 2 1)) "us1.nordvpn.com" "US #1" "US" "NY" 0 "server-key" false "" false false.
Definition space (known : bool) : KernelSpace Sys := NewKernelSpace 57841 (mkMachine ∅ [] (false, known)).

(** A start that works, and one that waits for its own lock. *)
Example kernel_starts :
  (is_ok (Start creds server (space true)).1, has_link (link := fun t => t.1) (Start creds server (space true)).2) = (true, true) /\
  let s' := (Start creds server (space false)).2 in
  ((Start creds server (space false)).1, (Stop s').1) = (Err deadlock, Err deadlock).
Proof. vm_compute. done. Qed.

Lemma kernel_start_outcome_witness :
  let s := space false in
  let r := (Start creds server s).1 in
  let s' := (Start creds server s).2 in
  let attempted := ks_published s ++ [connect_event StatusAttempt server] in
  match r with
  | Ok _ => has_link (link := fun t => t.1) s = false /\ has_link (link := fun t => t.1) s' = true /\ ks_locked s' = false /\
      ks_active s' = true /\ ks_state s' = ConnectedState /\
      (exists t, ks_tun s' = Some t /\ ni_Name (tu_iface t) = InterfaceName) /\
      ks_published s' = attempted ++ [connect_event StatusSuccess server]
  | Err e =>
      ks_active s' = false /\
      if is_deadlock e then
        ks_tun s' = None /\ has_link (link := fun t => t.1) s' = true /\ ks_published s' = attempted /\
        (forall A (m : M (KernelSpace Sys) A), with_lock m s' = (Err deadlock, s'))
      else
        ks_locked s' = false /\ ks_published s' = attempted ++ [Disconnected false] /\
        ((ks_tun s' = None /\ has_link (link := fun t => t.1) s' = has_link (link := fun t => t.1) s) \/
         ((exists t, ks_tun s' = Some t) /\ has_link (link := fun t => t.1) s' = true /\ deletion_failed s'))
  end.
Proof. apply (kernel_start_outcome creds server (space false)); reflexivity. Defined.
End LinkBox.
