(* ===== verification/OpenVpn.v ===== *)
(** * OpenVpn: the VPN over OpenVPN

    Models [daemon/vpn/openvpn/config.go] and [openvpn.go].  The process, its management
    client, the XML library and the listener are parameters ([OpenvpnLib]).

    [Start] does not hold the mutex while it waits, so what arrives meanwhile is a list:
    the client or its error, events of the process, and calls of [Stop] by other
    requests.  A wait ends when its list does, with the timeout or the end of the context.
    The goroutine that handles events after the connection was made is one of
    [ov_handlers]; each takes its steps on its own. *)

From stdpp Require Import base option list strings pretty gmap.
From Stdlib Require Import ZArith Ascii Lia.
From S2P Require Import Prelude GoLib Kernel Firewall Networker Transfers GoText Machine Tunnel.

Open Scope Z_scope.
Open Scope go_scope.

(** ** The configuration *)

Definition openvpnID : Type := string.
Definition techXORUDP : openvpnID := "openvpn_xor_udp".
Definition techUDP : openvpnID := "openvpn_udp".
Definition techXORTCP : openvpnID := "openvpn_xor_tcp".
Definition techTCP : openvpnID := "openvpn_tcp".
Definition interfaceType : string := "tun".
Definition InterfaceName : string := "nordtun".

Definition Protocol_UDP : Z := 1.
Definition Protocol_TCP : Z := 2.

Definition getConfigIdentifier (protocol : Z) (obfuscated : bool) : result openvpnID :=
  if protocol =? Protocol_UDP then Ok (if obfuscated then techXORUDP else techUDP)
  else if protocol =? Protocol_TCP then Ok (if obfuscated then techXORTCP else techTCP)
  else Err (Errorf "unknown protocol").

(** A double quote. *)
Definition quote : string := String "034"%char "".

(** The template [ovpnConfig] with its two values. *)
Definition generateConfigXML (serverIP : Addr) (identifier : openvpnID) : string :=
  strings_Join
    ["<?xml version=" +:+ quote +:+ "1.0" +:+ quote +:+ "?>";
     "<?xml-stylesheet type=" +:+ quote +:+ "xml/xsl" +:+ quote +:+ "?>";
     "<config>";
     "  <ips>";
     "    <ip address=" +:+ quote +:+ addr_String serverIP +:+ quote +:+ " />";
     "  </ips>";
     "  <technology identifier=" +:+ quote +:+ identifier +:+ quote +:+ "/>";
     "</config>"; ""] newline_str.

Definition disableEscaping (out : string) : string :=
  let out := strings_ReplaceAll out "&lt;" "<" in
  let out := strings_ReplaceAll out "&gt;" ">" in
  let out := strings_ReplaceAll out "&quot;" quote in
  let out := strings_ReplaceAll out "&apos;" "'" in
  strings_ReplaceAll out "&amp;" "&".

(** The regular expressions of the arguments: [lit.*$] and [lit$]. *)
Inductive ArgPattern : Type :=
| AnyAfter (lit : string)
| AtEnd (lit : string).

(** [.] matches no newline. *)
Fixpoint MatchString (p : ArgPattern) (s : string) : bool :=
  let here := match p with
    | AnyAfter lit => has_prefix lit s && negb (str_contains (drop_str (String.length lit) s) newline_str)
    | AtEnd lit => bool_decide (s = lit)
    end in
  here || match s with EmptyString => false | String _ s' => MatchString p s' end.

Definition addOrReplaceArgument (args : list string) (newArg : string) (regex : ArgPattern) : list string :=
  let args' := map (fun arg => if MatchString regex arg then newArg else arg) args in
  if existsb (MatchString regex) args then args' else args' ++ [newArg].

Definition ignore_ifconfig : string := "pull-filter ignore " +:+ quote +:+ "ifconfig-ipv6" +:+ quote.
Definition ignore_route : string := "pull-filter ignore " +:+ quote +:+ "route-ipv6" +:+ quote.

(** The text with the extra parameters. *)
Definition extra_parameters (data : string) (serverIP : Addr) (protocol : Z) : result string :=
  let is6 := match serverIP with AddrV6 _ => true | _ => false end in
  let args := split_char newline data in
  let args := if is6 then args else addOrReplaceArgument args ignore_ifconfig (AnyAfter ignore_ifconfig) in
  let args := addOrReplaceArgument args ignore_route (AnyAfter ignore_route) in
  let args := addOrReplaceArgument args "ping 15" (AnyAfter "ping ") in
  let args := addOrReplaceArgument args "ping-restart 0" (AnyAfter "ping-restart ") in
  let args := addOrReplaceArgument args "ping-timer-rem" (AtEnd "ping-timer-rem") in
  if negb is6 then Ok (strings_Join args newline_str)
  else if protocol =? Protocol_UDP then Ok (strings_Join (addOrReplaceArgument args "proto udp6" (AtEnd "proto udp6")) newline_str)
  else if protocol =? Protocol_TCP then Ok (strings_Join (addOrReplaceArgument args "proto tcp6" (AtEnd "proto tcp6")) newline_str)
  else Err (Errorf "unknown protocol").

(** The new text is assigned to the parameter [data] and lost. *)
Definition addExtraParameters (data : string) (serverIP : Addr) (protocol : Z) : option error :=
  match extra_parameters data serverIP protocol with Ok _ => None | Err e => Some e end.

Class OpenvpnLib (T : Type) : Type := {
  (** the transformation of the first text by the stylesheet in the second, with the
      errors of both parsers *)
  xslt_Process : string -> string -> result string;
  net_Listen : string -> string -> M T unit;
  process_Start : list string -> M T unit;
  process_Wait : M T unit;
  (** the management client; the flag says that the pointer to it is nil *)
  mg_Pid : T -> Z * T;
  mg_SendSignal : string -> M T unit;
  mg_Close : bool -> M T unit;
  mg_SetStateEvents : bool -> bool -> M T unit;
  mg_Auth : bool -> string -> string -> M T unit;
  (** paths made from the environment when the program starts *)
  openVPNConfigFileName : string;
  openvpnManagementSocket : string;
  openVPNExec : string;
  OvpnTemplatePath : string;
  OvpnObfsTemplatePath : string
}.

Definition ErrServerVersion : error := Sentinel "invalid openvpn server version".

Section Configuration.
Context {T : Type} `{System T} `{OpenvpnLib T}.
Abbreviation O := (M (Machine T)).

Definition generateConfig (serverIP : Addr) (identifier : openvpnID) (template : string) : result string :=
  match xslt_Process (generateConfigXML serverIP identifier) template with
  | Ok out => Ok (disableEscaping out)
  | Err e => Err e
  end.

Definition of_result {S A} (r : result A) : M S A := match r with Ok a => ret a | Err e => throw e end.

Definition write_config (out : string) : O unit :=
  let! exists_ := FileExists openVPNConfigFileName in
  if exists_ then
    FileUnlock openVPNConfigFileName ;;
    FileWrite openVPNConfigFileName out PermUserRW
  else
    let! ovpnConfig := wrapped "creating OpenVPN config file: " (FileCreate openVPNConfigFileName PermUserRW) "" in
    on_error (file_Write ovpnConfig out) (ignore (file_Close ovpnConfig)) ;;
    file_Close ovpnConfig.

Definition generateConfigFile (protocol : Z) (serverIP : Addr) (obfuscated : bool) : O unit :=
  let templatePath := if obfuscated then OvpnObfsTemplatePath else OvpnTemplatePath in
  let! identifier := wrapped "getting config identifier: " (of_result (getConfigIdentifier protocol obfuscated)) "" in
  let! r := attempt (FileRead templatePath) in
  match r with
  | Err _ => throw (Errorf "reading ovpn template file")
  | Ok template =>
      let! out := wrapped "generating OpenVPN config: " (of_result (generateConfig serverIP identifier template)) "" in
      match addExtraParameters out serverIP protocol with
      | Some err => throw (Wrapf "adding extra parameters to OpenVPN config: " err "")
      | None => write_config out
      end
  end.

Definition setOpenVPNConfig (protocol : Z) (serverIP : Addr) (obfuscated : bool) (serverVersion : string) : O unit :=
  if bool_decide (serverVersion = "") then throw ErrServerVersion
  else generateConfigFile protocol serverIP obfuscated.

(** The goroutine that accepts the connection is part of [await_management]. *)
Definition newManagementClient : O unit :=
  ignore (FileDelete openvpnManagementSocket) ;;
  on_sys (net_Listen "unix" openvpnManagementSocket) ;;
  UpdateFilePermissions openvpnManagementSocket PermUserRWX.
End Configuration.

(** ** The process *)

Definition Substate : Type := string.
Definition UnknownSubstate : Substate := "UNKNOWN".
Definition AuthFlukeSubstate : Substate := "AUTH_FLUKE".
Definition AuthBadSubstate : Substate := "AUTH_BAD".
Definition TimeoutFlukeSubstate : Substate := "TIMEOUT_FLUKE".
Definition TimeoutSubstate : Substate := "TIMEOUT".

Definition scriptSecurityLevel : string := "1".
Definition connectRetryScale : string := "5".
Definition connectRetryMax : string := "5".
Definition authFailureDesc : string := "auth-failure".
Definition timeoutDesc : string := "server_poll".
Definition errAccountExpired : error := Sentinel "account expired".
Definition errServerTimeout : error := Sentinel "server timeout".
Definition errExited : error := Sentinel "exited".
Definition errNotImplemented : error := Sentinel "not implemented".
Definition ctx_deadline : error := Sentinel "context deadline exceeded".
(** A panic of a goroutine, which ends the program. *)
Definition nil_dereference : error := Sentinel "invalid memory address or nil pointer dereference".
Definition send_on_closed : error := Sentinel "send on closed channel".

Record Process : Type := mkProcess { pr_Args : list string; pr_Started : bool }.

Record OpenVPN (T : Type) : Type := mkOpenVPN {
  ov_process : option Process;
  ov_manager : bool;  (* is there a management client? *)
  ov_state : State;
  ov_substate : Substate;
  ov_publishedState : State;
  ov_tun : option Tun;
  ov_active : bool;
  ov_fwmark : Z;
  ov_serverData : ServerData;
  ov_published : list VpnEvent;
  ov_handlers : list bool;  (* the goroutines of [stage2Handler]: do they run? *)
  ov_accepting : nat;  (* goroutines that still wait for a client after their [Start] returned *)
  ov_machine : Machine T
}.
Arguments mkOpenVPN {T} _ _ _ _ _ _ _ _ _ _ _ _ _.
Arguments ov_process {T} _.
Arguments ov_manager {T} _.
Arguments ov_state {T} _.
Arguments ov_substate {T} _.
Arguments ov_publishedState {T} _.
Arguments ov_tun {T} _.
Arguments ov_active {T} _.
Arguments ov_fwmark {T} _.
Arguments ov_serverData {T} _.
Arguments ov_published {T} _.
Arguments ov_handlers {T} _.
Arguments ov_accepting {T} _.
Arguments ov_machine {T} _.
#[export] Instance eta_OpenVPN T : EtaExpand (OpenVPN T) := fun x =>
  mkOpenVPN (ov_process x) (ov_manager x) (ov_state x) (ov_substate x) (ov_publishedState x) (ov_tun x) (ov_active x)
    (ov_fwmark x) (ov_serverData x) (ov_published x) (ov_handlers x) (ov_accepting x) (ov_machine x).

(** What the management client tells of the process. *)
Inductive ClientEvent : Type :=
| FatalEvent (text : string)
| PasswordEvent (text : string)
| StateEvent (newState description localTunnelAddr : string)
| OtherEvent.

(** While [Start] waits for the client: the client, an error of the listener, or a call
    of [Stop]. *)
Inductive MgmtInput : Type :=
| MgmtClient
| MgmtError (e : error)
| MgmtStop.

(** While it waits for the connection. *)
Inductive Stage1Input : Type :=
| Event (e : ClientEvent)
| StopCalled.

Section Methods.
Context {T : Type} `{System T} `{OpenvpnLib T}.
Abbreviation V := (M (OpenVPN T)).

Definition on_machine {A} (m : M (Machine T) A) : V A := zoom ov_machine (fun x s => s <| ov_machine := x |>) m.
Definition on_lib {A} (m : M T A) : V A := on_machine (on_sys m).

Definition New (fwmark : Z) (machine : Machine T) : OpenVPN T :=
  mkOpenVPN None false ExitedState UnknownSubstate "" None false fwmark zero_server [] [] 0 machine.

Definition publish (e : VpnEvent) : V unit := modify (fun s => s <| ov_published := ov_published s ++ [e] |>).

Definition connect_event (status : EventStatus) (server : ServerData) : VpnEvent :=
  Connected status (addr_String (sd_IP server)) (sd_Country server) (sd_City server) "" "" false.
Definition publishConnecting : V unit := let! server := gets ov_serverData in publish (connect_event StatusAttempt server).
Definition publishConnected : V unit := let! server := gets ov_serverData in publish (connect_event StatusSuccess server).
Definition publishDisconnected (byUser : bool) : V unit := publish (Disconnected byUser).

(** Publish unless the state was the last one published. *)
Definition publish_state (state : State) (event : V unit) : V unit :=
  let! last := gets ov_publishedState in
  when (negb (bool_decide (last = state))) (event ;; set! ov_publishedState := state).

Definition setState (arg : string) : V unit :=
  let state := (StringToState arg).1 in
  set! ov_state := state ;;
  if bool_decide (state = ConnectedState) then publish_state ConnectedState publishConnected
  else if bool_decide (state = ExitingState) then ret tt
  else if bool_decide (state = ExitedState) then publish_state ExitedState (publishDisconnected false)
  else publish_state ConnectingState publishConnecting.

Definition setSubstate (substate : Substate) : V unit := set! ov_substate := substate.
Definition setTun (tun : Tun) : V unit := set! ov_tun := Some tun.

Definition stop_process (p : Process) : V unit :=
  when (pr_Started p) (
    ignore (on_lib process_Wait) ;;
    let! manager := gets ov_manager in
    on_lib (mg_Close (negb manager))).

Definition stop : V unit :=
  let! manager := gets ov_manager in
  when manager (
    let! pid := on_lib (fun t => let '(pid, t') := mg_Pid t in (Ok pid, t')) in
    when (negb (pid =? 0)) (on_lib (mg_SendSignal "SIGINT"))) ;;
  let! process := gets ov_process in
  match process with
  | None => throw nil_dereference
  | Some p => stop_process p
  end ;;
  set! ov_manager := false ;;
  set! ov_tun := None ;;
  set! ov_active := false ;;
  set! ov_state := ExitedState.

Definition Stop : V unit :=
  publishDisconnected true ;;
  let! active := gets ov_active in
  if (active : bool) then stop else throw (Errorf "not active").

Definition or_stop (m : V unit) : V unit := on_error m (ignore stop).

Definition ovpn_args (fwmark : Z) (hostname : string) : list string :=
  [openVPNExec; "--config"; openVPNConfigFileName; "--management-client"; "--management"; openvpnManagementSocket; "unix";
   "--pull-filter"; "ignore"; "redirect-gateway"; "--script-security"; scriptSecurityLevel;
   "--connect-retry"; connectRetryScale; connectRetryMax; "--auth-retry"; "nointeract"; "--management-query-passwords";
   "--verify-x509-name"; "CN=" +:+ hostname; "--mark"; itoa fwmark; "--dev-type"; interfaceType; "--dev"; InterfaceName].

Definition startOpenVPN : V unit :=
  let! process := gets ov_process in
  match process with
  | None => throw nil_dereference
  | Some p => on_lib (process_Start (pr_Args p)) ;; set! ov_process := Some (mkProcess (pr_Args p) true)
  end.

(** The [select] of [Start].  After an error of the listener, and after the timeout, the
    goroutine that accepts the client goes on. *)
Fixpoint await_management (inputs : list MgmtInput) : V unit :=
  match inputs with
  | [] => modify (fun s => s <| ov_accepting := S (ov_accepting s) |>) ;; throw (Errorf "management timeout")
  | MgmtClient :: inputs' => set! ov_manager := true
  | MgmtError e :: inputs' => modify (fun s => s <| ov_accepting := S (ov_accepting s) |>) ;; throw e
  | MgmtStop :: inputs' => ignore Stop ;; await_management inputs'
  end.

(** *** Until the first connection *)

Definition asks_auth (text : string) : bool := str_contains text "Need 'Auth' username/password".

Definition auth (creds : Credentials) : V unit :=
  let! manager := gets ov_manager in
  on_lib (mg_Auth (negb manager) (cr_OpenVPNUsername creds) (cr_OpenVPNPassword creds)).

(** One of three failures of a kind in a row: the substates of the kind, the error after
    the third. *)
Definition count_failure (fluke bad : Substate) (third : V unit) : V unit :=
  let! substate := gets ov_substate in
  if bool_decide (substate = UnknownSubstate) then setSubstate fluke
  else if bool_decide (substate = fluke) then setSubstate bad
  else if bool_decide (substate = bad) then setSubstate UnknownSubstate ;; third
  else ret tt.

Definition reconnecting (description : string) : V unit :=
  if bool_decide (description = authFailureDesc) then
    count_failure AuthFlukeSubstate AuthBadSubstate (throw errAccountExpired)
  else if bool_decide (description = timeoutDesc) then
    count_failure TimeoutFlukeSubstate TimeoutSubstate (throw errServerTimeout)
  else ret tt.

(** One turn of the loop: whether it returns nil. *)
Definition stage1_event (creds : Credentials) (e : ClientEvent) : V bool :=
  match e with
  | FatalEvent text => throw (Errorf text)
  | PasswordEvent text => if asks_auth text then auth creds ;; ret false else ret false
  | StateEvent state description local =>
      setState state ;;
      if bool_decide (state = ReconnectingState) then reconnecting description ;; ret false
      else if bool_decide (state = ExitingState) then throw errExited
      else if bool_decide (state = ConnectedState) then
        match ParseAddr local with
        | None => throw (Errorf ("unable to parse IP: " +:+ local))
        | Some ip =>
            let! tunnel := on_machine (Find [ip]) in
            setTun tunnel ;;
            ignore (on_machine (FileDelete openVPNConfigFileName)) ;;
            ret true
        end
      else ret false
  | OtherEvent => ret false
  end.

Fixpoint stage1Handler (creds : Credentials) (inputs : list Stage1Input) : V unit :=
  match inputs with
  | [] => throw ctx_deadline
  | StopCalled :: inputs' => ignore Stop ;; stage1Handler creds inputs'
  | Event e :: inputs' =>
      let! returns := stage1_event creds e in
      if (returns : bool) then ret tt else stage1Handler creds inputs'
  end.

Definition is_exited (e : error) : bool := match e with Sentinel n => bool_decide (n = "exited") | _ => false end.

Definition Start (creds : Credentials) (serverData : ServerData) (mgmt : list MgmtInput) (inputs : list Stage1Input) : V unit :=
  set! ov_serverData := serverData ;;
  let! active := gets ov_active in
  if (active : bool) then throw ErrVPNAIsAlreadyStarted
  else if negb (IsOpenVPNDefined creds) then throw (Errorf "server credentials not provided")
  else
    wrapped "setting openvpn server to connect to: "
      (on_machine (setOpenVPNConfig (sd_Protocol serverData) (sd_IP serverData) (sd_Obfuscated serverData)
                     (sd_OpenVPNVersion serverData))) "" ;;
    wrapped "creating openvpn management client: " (on_machine newManagementClient) "" ;;
    set! ov_active := true ;;
    let! fwmark := gets ov_fwmark in
    set! ov_process := Some (mkProcess (ovpn_args fwmark (sd_Hostname serverData)) false) ;;
    wrapped "starting openvpn: " (or_stop startOpenVPN) "" ;;
    await_management mgmt ;;
    let! manager := gets ov_manager in
    wrapped "setting openvpn state events: " (or_stop (on_lib (mg_SetStateEvents (negb manager) true))) "" ;;
    let! r := attempt (stage1Handler creds inputs) in
    match r with
    | Err err =>
        if is_exited err then throw (Wrapf "disconnected while previous connection was still being established: " err "")
        else ignore stop ;; throw err
    | Ok _ => modify (fun s => s <| ov_handlers := ov_handlers s ++ [true] |>)
    end.

(** *** After the first connection *)

Definition zero_tun : Tun := mkTun (mkNetIface "" 0 0 false (Ok [])) [].

(** One turn of the loop: whether it goes on. *)
Definition stage2_event (creds : Credentials) (e : ClientEvent) : V bool :=
  match e with
  | FatalEvent _ => setSubstate UnknownSubstate ;; ret false
  | PasswordEvent text => if asks_auth text then ignore (auth creds) ;; ret true else ret true
  | StateEvent state description local =>
      setState state ;;
      if bool_decide (state = ReconnectingState) then
        if bool_decide (description = timeoutDesc) then
          let! r := attempt (count_failure TimeoutFlukeSubstate TimeoutSubstate (throw errServerTimeout)) in
          ret (match r with Ok _ => true | Err _ => false end)
        else ret true
      else if bool_decide (state = ConnectedState) then
        let! r := attempt (on_machine (Find [default AddrInvalid (ParseAddr local)])) in
        setTun (match r with Ok tunnel => tunnel | Err _ => zero_tun end) ;;
        ret true
      else ret true
  | OtherEvent => ret true
  end.

(** Handler [i] receives an event. *)
Definition stage2_step (i : nat) (creds : Credentials) (e : ClientEvent) : V unit :=
  let! handlers := gets ov_handlers in
  match handlers !! i with
  | Some true =>
      let! goes_on := stage2_event creds e in
      modify (fun s => s <| ov_handlers := <[i := (goes_on : bool)]> (ov_handlers s) |>)
  | _ => ret tt
  end.

(** The channel of handler [i] is closed. *)
Definition stage2_closed (i : nat) : V unit :=
  modify (fun s => s <| ov_handlers := <[i := false]> (ov_handlers s) |>).

(** A client connects, or the listener fails, after [Start] returned: the channels to
    send it on are closed. *)
Definition late_client : V unit :=
  let! n := gets ov_accepting in
  match n with
  | O => ret tt
  | S n' => set! ov_accepting := n' ;; throw send_on_closed
  end.

Definition NetworkChanged : V unit := throw errNotImplemented.
Definition IsActive : V bool := gets ov_active.
Definition State_ : V State := gets ov_state.
Definition Tun_ : V (option Tun) := gets ov_tun.
End Methods.

Inductive OvpnOp : Type :=
| OvStart (creds : Credentials) (server : ServerData) (mgmt : list MgmtInput) (inputs : list Stage1Input)
| OvStop
| OvEvent (i : nat) (creds : Credentials) (e : ClientEvent)
| OvClosed (i : nat)
| OvLateClient.

Definition ovpn_op {T} `{System T} `{OpenvpnLib T} (o : OvpnOp) : M (OpenVPN T) unit :=
  match o with
  | OvStart creds server mgmt inputs => Start creds server mgmt inputs
  | OvStop => Stop
  | OvEvent i creds e => stage2_step i creds e
  | OvClosed i => stage2_closed i
  | OvLateClient => late_client
  end.
