(* ===== verification/OpenVpnProps.v ===== *)
(** * OpenVpnProps: properties of the VPN over OpenVPN

    What is announced alternates; the third failure of a kind ends a start; how a start
    ends in each case; the configuration is unescaped. *)

From stdpp Require Import base option list strings pretty gmap.
From Stdlib Require Import ZArith Ascii Lia.
From S2P Require Import Prelude GoLib Kernel Firewall Networker Transfers GoText Machine Tunnel OpenVpn.

Open Scope Z_scope.
Open Scope go_scope.

(** ** Announcements *)

(** What an event says of the state; that the user stopped the VPN is not such a state. *)
Definition event_state (e : VpnEvent) : option State :=
  match e with
  | Connected StatusAttempt _ _ _ _ _ _ => Some ConnectingState
  | Connected StatusSuccess _ _ _ _ _ _ => Some ConnectedState
  | Disconnected false => Some ExitedState
  | Disconnected true => None
  end.
Definition said (l : list VpnEvent) : list State := omap event_state l.

Section Announcements.
Context {T : Type} `{System T} `{OpenvpnLib T}.
Abbreviation V := (M (OpenVPN T)).
Implicit Type s : OpenVPN T.

Definition told s : Prop := alternates "" (said (ov_published s)) /\ List.last (said (ov_published s)) "" = ov_publishedState s.

Lemma told_publish state (event : V unit) (e : OpenVPN T -> VpnEvent) :
  (forall s, event s = (Ok tt, s <| ov_published := ov_published s ++ [e s] |>)) ->
  (forall s, event_state (e s) = Some state) -> preserves told (publish_state state event).
Proof.
  intros He Hk s [Ha Hl]. unfold publish_state, bind, gets. destruct (bool_decide _) eqn:Hb; cbn; [done|].
  apply bool_decide_eq_false in Hb. rewrite He. unfold modify. split; cbn; unfold said; rewrite omap_app; cbn; rewrite Hk.
  - apply alternates_snoc; [done|]. intros ->. apply Hb. by rewrite <- Hl.
  - by rewrite List.last_last.
Qed.

Lemma told_state arg : preserves told (setState (T := T) arg).
Proof.
  unfold setState. apply preserves_bind; [by intros s Hs|]. intros _. repeat case_bool_decide.
  - apply (told_publish _ _ (fun s => connect_event StatusSuccess (ov_serverData s))); done.
  - apply preserves_ret.
  - apply (told_publish _ _ (fun s => Disconnected false)); done.
  - apply (told_publish _ _ (fun s => connect_event StatusAttempt (ov_serverData s))); done.
Qed.

Lemma told_user : preserves told (publishDisconnected (T := T) true).
Proof. intros s [Ha Hl]. split; cbn; unfold said; rewrite omap_app; cbn; by rewrite app_nil_r. Qed.

Lemma told_machine {A} (m : M (Machine T) A) : preserves told (on_machine m).
Proof. intros s Hs. unfold on_machine, zoom. by destruct (m (ov_machine s)). Qed.

Lemma told_stop : preserves told (stop (T := T)).
Proof.
  unfold stop, stop_process. pose proof (fun A m => @told_machine A m) as Hm. unfold on_lib. pres_auto; first [apply Hm | by intros s Hs].
Qed.

Lemma told_Stop : preserves told (Stop (T := T)).
Proof. unfold Stop. pose proof told_user. pose proof told_stop. pres_auto; done. Qed.

Lemma told_count a b (third : V unit) : preserves told third -> preserves told (count_failure a b third).
Proof. intros Ht. unfold count_failure, setSubstate. pres_auto; first [apply Ht | by intros s Hs]. Qed.

Lemma told_stage1_event creds e : preserves told (stage1_event (T := T) creds e).
Proof.
  pose proof (fun A m => @told_machine A m) as Hm. pose proof told_state as Hs. pose proof told_count as Hc.
  unfold stage1_event, auth, on_lib, reconnecting, setTun.
  pres_auto; first [apply Hm | apply Hs | (apply Hc; apply preserves_throw) | by intros s Ht].
Qed.

Lemma told_stage1 creds inputs : preserves told (stage1Handler (T := T) creds inputs).
Proof.
  induction inputs as [|[e|] inputs IH]; cbn [stage1Handler].
  - apply preserves_throw.
  - apply preserves_bind; [apply told_stage1_event|]. intros []; [apply preserves_ret|exact IH].
  - apply preserves_bind; [apply preserves_ignore, told_Stop|]. by intros _.
Qed.

Lemma told_management inputs : preserves told (await_management (T := T) inputs).
Proof.
  induction inputs as [|[|e|] inputs IH]; cbn [await_management].
  - apply preserves_bind; [by intros s Hs|]. intros _. apply preserves_throw.
  - by intros s Hs.
  - apply preserves_bind; [by intros s Hs|]. intros _. apply preserves_throw.
  - apply preserves_bind; [apply preserves_ignore, told_Stop|]. by intros _.
Qed.

Lemma told_Start creds server mgmt inputs : preserves told (Start (T := T) creds server mgmt inputs).
Proof.
  pose proof (fun A m => @told_machine A m) as Hm. pose proof told_stop as Hst.
  pose proof (told_management mgmt) as Hmg. pose proof (told_stage1 creds inputs) as Hs1.
  unfold Start, startOpenVPN, or_stop, on_lib. pres_auto; first [apply Hm | apply Hst | apply Hmg | apply Hs1 | by intros s Hs].
Qed.

Lemma told_step i creds e : preserves told (stage2_step (T := T) i creds e).
Proof.
  pose proof (fun A m => @told_machine A m) as Hm. pose proof told_state as Hs. pose proof told_count as Hc.
  unfold stage2_step, stage2_event, auth, on_lib, setSubstate, setTun.
  pres_auto; first [apply Hm | apply Hs | (apply Hc; apply preserves_throw) | by intros s Ht].
Qed.

(** What is announced.  Through every sequence of starts, stops and events of the
    process, whatever fails, no announcement of the state repeats the one before, and
    [publishedState] is the last one. *)
Theorem openvpn_announces_changes (ops : list OvpnOp) (fwmark : Z) (machine : Machine T) :
  let s := run_ops ovpn_op ops (New fwmark machine) in
  alternates "" (said (ov_published s)) /\ List.last (said (ov_published s)) "" = ov_publishedState s.
Proof.
  apply (run_ops_inv _ told); [|done]. intros [creds server mgmt inputs| |i creds e|i|]; cbn [ovpn_op].
  - apply told_Start.
  - apply told_Stop.
  - apply told_step.
  - by intros s Hs.
  - unfold late_client. pres_auto. by intros s Hs.
Qed.
End Announcements.

(** ** Failures *)

(** A kind of failure: its description, substates and error. *)
Inductive FailureKind : Type := AuthFailure | ServerTimeout.
#[export] Instance FailureKind_eq_dec : EqDecision FailureKind.
Proof. solve_decision. Defined.

Definition failure_error (k : FailureKind) : error := match k with AuthFailure => errAccountExpired | ServerTimeout => errServerTimeout end.

(** The substate after a number of failures of the kind. *)
Definition failed (k : FailureKind) (n : nat) : Substate :=
  match n, k with
  | O, _ => UnknownSubstate
  | S O, AuthFailure => AuthFlukeSubstate
  | S O, ServerTimeout => TimeoutFlukeSubstate
  | _, AuthFailure => AuthBadSubstate
  | _, ServerTimeout => TimeoutSubstate
  end.

(** An event that says the process is reconnecting after a failure, and one that does not
    end the handler. *)
Definition failure_of (i : Stage1Input) : option FailureKind :=
  match i with
  | Event (StateEvent state description _) =>
      if negb (bool_decide (state = ReconnectingState)) then None
      else if bool_decide (description = authFailureDesc) then Some AuthFailure
      else if bool_decide (description = timeoutDesc) then Some ServerTimeout
      else None
  | _ => None
  end.
Definition goes_on (i : Stage1Input) : bool :=
  match i with
  | Event (PasswordEvent text) => negb (asks_auth text)
  | Event (StateEvent state _ _) => negb (bool_decide (state = ExitingState)) && negb (bool_decide (state = ConnectedState))
  | Event OtherEvent => true
  | _ => false
  end.

Definition count_kind (k : FailureKind) (l : list FailureKind) : nat := length (List.filter (fun k' => bool_decide (k' = k)) l).

Section Failures.
Context {T : Type} `{System T} `{OpenvpnLib T}.
Implicit Type s : OpenVPN T.

Lemma setState_run arg s : exists s', setState arg s = (Ok tt, s') /\ ov_substate s' = ov_substate s.
Proof.
  unfold setState. rewrite bind_modify. assert (Hp : forall st (ev : M (OpenVPN T) unit) q,
    (forall q, exists q', ev q = (Ok tt, q') /\ ov_substate q' = ov_substate q) ->
    exists q', publish_state st ev q = (Ok tt, q') /\ ov_substate q' = ov_substate q).
  { intros st ev q Hev. unfold publish_state. rewrite bind_gets. destruct (negb _); cbn [when]; [|by eexists].
    destruct (Hev q) as (q' & Hq & Hsub). erewrite bind_Ok by exact Hq. by eexists. }
  repeat case_bool_decide; try (destruct (Hp ConnectedState publishConnected (s <| ov_state := (StringToState arg).1 |>)) as (q & -> & Hq); [by eexists|by exists q]).
  - by eexists.
  - destruct (Hp ExitedState (publishDisconnected false) (s <| ov_state := (StringToState arg).1 |>)) as (q & -> & Hq); [by eexists|by exists q].
  - destruct (Hp ConnectingState publishConnecting (s <| ov_state := (StringToState arg).1 |>)) as (q & -> & Hq); [by eexists|by exists q].
Qed.

(** A failure of the kind counts; one of the other kind, after a first one, does not. *)
Lemma reconnecting_run k n description s :
  ov_substate s = failed k n -> (n < 3)%nat ->
  let r := reconnecting (T := T) description s in
  match failure_of (Event (StateEvent ReconnectingState description "")) with
  | None => r = (Ok tt, s)
  | Some k' =>
      if bool_decide (k' = k) then
        if (n =? 2)%nat then r = (Err (failure_error k), s <| ov_substate := UnknownSubstate |>)
        else r = (Ok tt, s <| ov_substate := failed k (S n) |>)
      else n <> 0%nat -> r = (Ok tt, s)
  end.
Proof.
  intros Hs Hn. cbn. unfold reconnecting. unfold count_failure.
  destruct (bool_decide (description = authFailureDesc)); [|destruct (bool_decide (description = timeoutDesc)); [|done]];
    rewrite bind_gets, Hs; destruct k; (destruct n as [|[|[|n]]]; [| | |lia]); cbn; try done; vm_compute; intros []; done.
Qed.

(** The handler skips what goes on without a failure. *)
Lemma stage1_skip creds i inputs s :
  goes_on i = true -> failure_of i = None ->
  exists s', stage1Handler creds (i :: inputs) s = stage1Handler creds inputs s' /\ ov_substate s' = ov_substate s.
Proof.
  destruct i as [[text|text|state description local|]|]; cbn [goes_on failure_of]; try done.
  - intros Ha _. cbn [stage1Handler stage1_event]. apply negb_true_iff in Ha. rewrite Ha, bind_ret. by exists s.
  - intros Hg Hf. apply andb_true_iff in Hg as [He Hc]. apply negb_true_iff in He, Hc.
    destruct (setState_run state s) as (s' & Hs & Hsub). cbn [stage1Handler stage1_event]. rewrite bind_assoc, (bind_Ok _ _ _ _ _ Hs), He, Hc.
    destruct (bool_decide (state = ReconnectingState)); cbn [negb] in Hf; [|exists s'; by rewrite bind_ret].
    unfold reconnecting. destruct (bool_decide (description = _)); [done|]. destruct (bool_decide (description = _)); [done|].
    rewrite bind_assoc, bind_ret, bind_ret. by exists s'.
  - intros _ _. cbn [stage1Handler stage1_event]. rewrite bind_ret. by exists s.
Qed.

(** The handler at a failure. *)
Lemma stage1_failure creds i inputs k' s :
  goes_on i = true -> failure_of i = Some k' ->
  exists s' description, ov_substate s' = ov_substate s /\ failure_of (Event (StateEvent ReconnectingState description "")) = Some k' /\
    stage1Handler creds (i :: inputs) s = bind (reconnecting description) (fun _ => stage1Handler creds inputs) s'.
Proof.
  destruct i as [[text|text|state description local|]|]; cbn [goes_on failure_of]; try done.
  intros Hg Hf. apply andb_true_iff in Hg as [He Hc]. apply negb_true_iff in He, Hc.
  destruct (setState_run state s) as (s' & Hs & Hsub). exists s', description.
  destruct (bool_decide (state = ReconnectingState)) eqn:Hr; cbn [negb] in Hf; [|done]. apply bool_decide_eq_true in Hr as ->.
  split_and!; [done|by cbn|]. cbn [stage1Handler stage1_event]. rewrite bind_assoc, (bind_Ok _ _ _ _ _ Hs).
  rewrite bool_decide_true by done. rewrite bind_assoc. unfold bind. by destruct (reconnecting description s') as [[u|e] q].
Qed.

(** After the first failure, of kind [k], the handler counts those of this kind. *)
Lemma stage1_counts creds k inputs : forall n s,
  (1 <= n < 3)%nat -> ov_substate s = failed k n -> Forall (fun i => goes_on i = true) inputs ->
  let r := stage1Handler creds inputs s in
  let total := (n + count_kind k (omap failure_of inputs))%nat in
  if (3 <=? total)%nat then r.1 = Err (failure_error k) /\ ov_substate r.2 = UnknownSubstate
  else r.1 = Err ctx_deadline /\ ov_substate r.2 = failed k total.
Proof.
  induction inputs as [|i inputs IH]; intros n s Hn Hs Hall; cbv zeta.
  - change (count_kind k (omap failure_of [])) with 0%nat. rewrite Nat.add_0_r. destruct (Nat.leb_spec 3 n); [lia|]. by split.
  - apply Forall_cons in Hall as [Hi Hall]. cbn [omap list_omap]. destruct (failure_of i) as [k'|] eqn:Hf.
    + destruct (stage1_failure creds i inputs k' s Hi Hf) as (s' & d & Hsub & Hd & ->).
      pose proof (reconnecting_run k n d s') as Hr. rewrite Hsub, Hd in Hr. specialize (Hr Hs ltac:(lia)). cbv zeta in Hr.
      unfold count_kind. cbn [List.filter]. destruct (bool_decide (k' = k)); cbn [length].
      * destruct (Nat.eqb_spec n 2) as [->|Hne].
        -- rewrite (bind_Err _ _ _ _ _ Hr). by cbn.
        -- rewrite (bind_Ok _ _ _ _ _ Hr). specialize (IH (S n) (s' <| ov_substate := failed k (S n) |>) ltac:(lia) eq_refl Hall).
           cbv zeta in IH. unfold count_kind in IH. by rewrite Nat.add_succ_r.
      * rewrite (bind_Ok _ _ _ _ _ (Hr ltac:(lia))). apply (IH n s' Hn); [by rewrite Hsub|done].
    + destruct (stage1_skip creds i inputs s Hi Hf) as (s' & -> & Hsub). apply (IH n s' Hn); [by rewrite Hsub|done].
Qed.

(** Giving up.  While the process reports nothing that ends the wait, the kind of
    its first failure decides: the third failure of this kind ends the start with the
    error of the kind, and failures of the other kind are not counted; with fewer the
    start ends with its context, and the substate remembers how many there were. *)
Theorem third_failure_ends creds inputs s :
  ov_substate s = UnknownSubstate -> Forall (fun i => goes_on i = true) inputs ->
  let r := stage1Handler creds inputs s in
  match omap failure_of inputs with
  | [] => r.1 = Err ctx_deadline /\ ov_substate r.2 = UnknownSubstate
  | k :: failures =>
      let total := S (count_kind k failures) in
      if (3 <=? total)%nat then r.1 = Err (failure_error k) /\ ov_substate r.2 = UnknownSubstate
      else r.1 = Err ctx_deadline /\ ov_substate r.2 = failed k total
  end.
Proof.
  cbv zeta. revert s. induction inputs as [|i inputs IH]; intros s Hs Hall; [done|].
  apply Forall_cons in Hall as [Hi Hall]. cbn [omap list_omap]. destruct (failure_of i) as [k|] eqn:Hf.
  - destruct (stage1_failure creds i inputs k s Hi Hf) as (s' & d & Hsub & Hd & ->).
    pose proof (reconnecting_run k 0 d s') as Hr. rewrite Hsub, Hd, bool_decide_true in Hr by done. specialize (Hr Hs ltac:(lia)). cbv zeta in Hr.
    rewrite (bind_Ok _ _ _ _ _ Hr). apply (stage1_counts creds k inputs 1 (s' <| ov_substate := failed k 1 |>)); [lia|done|done].
  - destruct (stage1_skip creds i inputs s Hi Hf) as (s' & -> & Hsub). apply IH; [by rewrite Hsub|done].
Qed.
End Failures.

(** ** How a start ends *)

(** Stopping the process works: the signal is sent and the client is closed. *)
Class StopLaws (T : Type) `{OpenvpnLib T} : Prop := {
  signal_sent t : exists t', mg_SendSignal "SIGINT" t = (Ok tt, t');
  client_closed t : exists t', mg_Close false t = (Ok tt, t')
}.

Section Outcome.
Context {T : Type} `{System T} `{OpenvpnLib T}.
Implicit Type s : OpenVPN T.

(** Process, manager, tunnel, active, waiting for a client, handlers, state. *)
Definition View : Type := option Process * bool * option Tun * bool * nat * list bool * State.
Definition view s : View :=
  (ov_process s, ov_manager s, ov_tun s, ov_active s, ov_accepting s, ov_handlers s, ov_state s).
Abbreviation wpv := (Prelude.wpv view).
Abbreviation keeps := (Prelude.keeps view).

Definition v_process (v : View) : option Process := let '(p, m, t, a, n, h, st) := v in p.
Definition v_manager (v : View) : bool := let '(p, m, t, a, n, h, st) := v in m.
Definition v_active (v : View) : bool := let '(p, m, t, a, n, h, st) := v in a.

Lemma machine_keeps {A} (m : M (Machine T) A) : keeps (on_machine m).
Proof. intros v s Hs. unfold on_machine, zoom. by destruct (m (ov_machine s)). Qed.

Lemma setState_wpv arg p m t a n h st :
  wpv (setState arg) (fun r v => r = Ok tt /\ v = (p, m, t, a, n, h, (StringToState arg).1)) (p, m, t, a, n, h, st).
Proof.
  unfold setState. apply wpv_bind.
  apply (wpv_update _ _ (fun v => let '(p, m, t, a, n, h, st) := v in (p, m, t, a, n, h, (StringToState arg).1))); [done|]. cbn beta iota.
  assert (Hp : forall x (ev : M (OpenVPN T) unit) v, (forall s, (ev s).1 = Ok tt /\ view (ev s).2 = view s) ->
    wpv (publish_state x ev) (fun r v' => r = Ok tt /\ v' = v) v).
  { intros x ev v Hev. unfold publish_state. apply wpv_bind, wpv_get. intros last. destruct (negb _); cbn [when]; [|by apply wpv_ret].
    apply wpv_bind. intros s Hs. destruct (Hev s) as [-> Hv]. by apply wpv_modify; [..|rewrite Hv]. }
  repeat case_bool_decide; (by apply Hp) || by apply wpv_ret.
Qed.

Lemma count_wpv x y third (Q : result unit -> View -> Prop) v :
  (forall r, Q r v) -> keeps third -> wpv (count_failure (T := T) x y third) Q v.
Proof.
  intros HQ Ht. unfold count_failure, setSubstate. apply wpv_bind, wpv_get. intros sub. repeat case_bool_decide.
  - by apply wpv_modify.
  - by apply wpv_modify.
  - apply wpv_bind, wpv_modify; [done|]. by apply wpv_keeps.
  - by apply wpv_ret.
Qed.

Lemma keeps_throw {A} e : keeps (throw (A := A) e).
Proof. by intros v s. Qed.

(** An event may change the tunnel and the state. *)
Definition stage1_post (p : option Process) (m a : bool) (n : nat) (h : list bool) {A} (connected_ : A -> Prop) (r : result A) (v : View) : Prop :=
  exists t st, v = (p, m, t, a, n, h, st) /\ match r with Ok b => connected_ b -> t <> None /\ st = ConnectedState | Err _ => True end.

Ltac as_is := do 2 eexists; by split.

Lemma stage1_event_wpv creds e p m t a n h st :
  wpv (stage1_event creds e) (stage1_post p m a n h (fun b => b = true)) (p, m, t, a, n, h, st).
Proof.
  unfold stage1_post. destruct e as [text|text|state description local|]; cbn [stage1_event].
  - apply wpv_throw. as_is.
  - destruct (asks_auth text); [|apply wpv_ret; as_is]. apply wpv_bind. unfold auth. apply wpv_bind, wpv_get. intros mgr.
    apply wpv_keeps; [apply machine_keeps|]. intros [u|e']; [|as_is]. apply wpv_ret. as_is.
  - apply wpv_bind. eapply wpv_mono, setState_wpv. intros r v [-> ->]. cbn beta iota.
    destruct (bool_decide (state = ReconnectingState)).
    { apply wpv_bind. unfold reconnecting. repeat case_bool_decide;
        [apply count_wpv; [|apply keeps_throw]; intros [u|e']|apply count_wpv; [|apply keeps_throw]; intros [u|e']|];
        repeat apply wpv_ret; as_is. }
    destruct (bool_decide (state = ExitingState)); [apply wpv_throw; as_is|].
    destruct (bool_decide (state = ConnectedState)) eqn:Hc; [|apply wpv_ret; as_is].
    apply bool_decide_eq_true in Hc as ->. destruct (ParseAddr local) as [ip|]; [|apply wpv_throw; as_is].
    apply wpv_bind, wpv_keeps; [apply machine_keeps|]. intros [tun|e']; [|as_is].
    apply wpv_bind. apply (wpv_update _ _ (fun v => let '(p, m, t, a, n, h, st) := v in (p, m, Some tun, a, n, h, st))); [done|].
    apply wpv_bind, wpv_ignore, wpv_keeps; [apply machine_keeps|]. intros _. apply wpv_ret. exists (Some tun), ConnectedState. by split.
  - apply wpv_ret. as_is.
Qed.

Definition no_stop (i : Stage1Input) : bool := match i with StopCalled => false | Event _ => true end.
Definition no_mgmt_stop (i : MgmtInput) : bool := match i with MgmtStop => false | _ => true end.

Lemma stage1_wpv creds inputs p m a n h : Forall (fun i => no_stop i = true) inputs -> forall t st,
  wpv (stage1Handler creds inputs) (stage1_post p m a n h (fun _ => True)) (p, m, t, a, n, h, st).
Proof.
  induction inputs as [|[e|] inputs IH]; intros Hall t st; cbn [stage1Handler].
  - apply wpv_throw. unfold stage1_post. eauto.
  - apply Forall_cons in Hall as [_ Hall]. apply wpv_bind. eapply wpv_mono, stage1_event_wpv.
    intros [b|e'] v (t' & st' & -> & Hb); [|unfold stage1_post; eauto].
    destruct b; [|by apply IH]. apply wpv_ret. exists t', st'. split; [done|]. intros _. by apply Hb.
  - by apply Forall_cons in Hall as [? _].
Qed.

Lemma lib_ok {A} (m : M T A) a (Q : result A -> View -> Prop) v :
  (forall t, exists t', m t = (Ok a, t')) -> Q (Ok a) v -> wpv (on_lib m) Q v.
Proof.
  intros Hm HQ s Hs. unfold on_lib, on_machine, on_sys, zoom. destruct (Hm (mc_sys (ov_machine s))) as (t' & ->). cbn.
  change (view _) with (view s). by rewrite Hs.
Qed.

Lemma pid_wpv (Q : result Z -> View -> Prop) v :
  (forall pid, Q (Ok pid) v) -> wpv (on_lib (fun t => let '(pid, t') := mg_Pid t in (Ok pid, t'))) Q v.
Proof.
  intros HQ s Hs. unfold on_lib, on_machine, on_sys, zoom. destruct (mg_Pid (mc_sys (ov_machine s))) as [pid t']. cbn.
  change (view _) with (view s). by rewrite Hs.
Qed.

(** Stopping when the client of a started process is there. *)
Lemma stop_wpv `{!StopLaws T} pr m t a n h st :
  (pr_Started pr = true -> m = true) ->
  wpv stop (fun r v => r = Ok tt /\ v = (Some pr, false, None, false, n, h, ExitedState)) (Some pr, m, t, a, n, h, st).
Proof.
  intros Hm. unfold stop. apply wpv_bind, (wpv_read _ _ v_manager); [done|]. cbn [v_manager].
  apply wpv_bind.
  assert (Hsig : forall Q : result unit -> View -> Prop, Q (Ok tt) (Some pr, m, t, a, n, h, st) ->
    wpv (when m (let! pid := on_lib (fun t => let '(pid, t') := mg_Pid t in (Ok pid, t')) in when (negb (pid =? 0)) (on_lib (mg_SendSignal "SIGINT"))))
      Q (Some pr, m, t, a, n, h, st)).
  { intros Q HQ. destruct m; cbn [when]; [|by apply wpv_ret]. apply wpv_bind, pid_wpv. intros pid.
    destruct (negb (pid =? 0)); cbn [when].
    - apply (lib_ok _ tt); [apply signal_sent|exact HQ].
    - by apply wpv_ret. }
  apply Hsig. apply wpv_bind, (wpv_read _ _ v_process); [done|]. cbn [v_process]. apply wpv_bind.
  assert (Hend : forall Q : result unit -> View -> Prop, Q (Ok tt) (Some pr, m, t, a, n, h, st) -> wpv (stop_process pr) Q (Some pr, m, t, a, n, h, st)).
  { intros Q HQ. unfold stop_process. destruct (pr_Started pr); cbn [when]; [|by apply wpv_ret]. rewrite (Hm eq_refl) in HQ |- *.
    apply wpv_bind, wpv_ignore, wpv_keeps; [apply machine_keeps|]. intros _.
    apply wpv_bind, (wpv_read _ _ v_manager); [done|]. cbn [v_manager negb]. apply (lib_ok _ tt); [apply client_closed|exact HQ]. }
  apply Hend. apply wpv_bind, (wpv_update _ _ (fun v => let '(p, m, t, a, n, h, st) := v in (p, false, t, a, n, h, st))); [done|].
  apply wpv_bind, (wpv_update _ _ (fun v => let '(p, m, t, a, n, h, st) := v in (p, m, None, a, n, h, st))); [done|].
  apply wpv_bind, (wpv_update _ _ (fun v => let '(p, m, t, a, n, h, st) := v in (p, m, t, false, n, h, st))); [done|].
  by apply (wpv_update _ _ (fun v => let '(p, m, t, a, n, h, st) := v in (p, m, t, a, n, h, ExitedState))).
Qed.

Definition mgmt_failure (mgmt : list MgmtInput) (e : error) : Prop := e = Errorf "management timeout" \/ MgmtError e ∈ mgmt.

Lemma management_wpv mgmt p m t a n h st : Forall (fun i => no_mgmt_stop i = true) mgmt ->
  wpv (await_management mgmt) (fun r v =>
    match r with
    | Ok _ => v = (p, true, t, a, n, h, st)
    | Err e => v = (p, m, t, a, S n, h, st) /\ mgmt_failure mgmt e
    end) (p, m, t, a, n, h, st).
Proof.
  pose (accept v := let '(p, m, t, a, n, h, st) := v in (p, m, t, a, S n, h, st) : View).
  destruct mgmt as [|[|e|] mgmt]; intros Hall; cbn [await_management].
  - apply wpv_bind, (wpv_update _ _ accept); [done|]. apply wpv_throw. split; [done|by left].
  - by apply (wpv_update _ _ (fun v => let '(p, m, t, a, n, h, st) := v in (p, true, t, a, n, h, st))).
  - apply wpv_bind, (wpv_update _ _ accept); [done|]. apply wpv_throw. split; [done|]. right. by left.
  - by apply Forall_cons in Hall as [? _].
Qed.

(** A step whose failure stops the VPN. *)
Lemma or_stop_wpv `{!StopLaws T} (mt : M (OpenVPN T) unit) (Q : result unit -> View -> Prop) v :
  wpv mt (fun r v' =>
    match r with
    | Ok _ => Q (Ok tt) v'
    | Err e => exists pr m t a n h st, v' = (Some pr, m, t, a, n, h, st) /\ (pr_Started pr = true -> m = true) /\
        Q (Err e) (Some pr, false, None, false, n, h, ExitedState)
    end) v -> wpv (or_stop mt) Q v.
Proof.
  intros Hm. apply wpv_on_error. eapply wpv_mono, Hm. intros [[]|e] v'; cbn beta iota; [done|].
  intros (pr & m & t & a & n & h & st & -> & Hpr & HQ). apply wpv_ignore. eapply wpv_mono, stop_wpv; [|done]. by intros r v'' [-> ->].
Qed.

Lemma startOpenVPN_wpv args m t a n h st :
  wpv startOpenVPN (fun r v =>
    v = (Some (mkProcess args (is_ok r)), m, t, a, n, h, st)) (Some (mkProcess args false), m, t, a, n, h, st).
Proof.
  unfold startOpenVPN. apply wpv_bind, (wpv_read _ _ v_process); [done|]. cbn [v_process pr_Args].
  apply wpv_bind, wpv_keeps; [apply machine_keeps|]. intros [u|e]; [|done].
  by apply (wpv_update _ _ (fun v => let '(p, m, t, a, n, h, st) := v in (Some (mkProcess args true), m, t, a, n, h, st))).
Qed.

(** How a start ends: connected, refused before the process was made, stopped after a
    failure, without a client, or with a process that exits. *)
Definition start_ends (mgmt : list MgmtInput) (v : View) (r : result unit) (v' : View) : Prop :=
  let '(p, m, t, a, n, h, st) := v in
  match r with
  | Ok _ => exists pr tun, v' = (Some pr, true, Some tun, true, n, h ++ [true], ConnectedState) /\ pr_Started pr = true
  | Err e =>
      v' = v \/
      (exists pr, v' = (Some pr, false, None, false, n, h, ExitedState)) \/
      (exists pr, v' = (Some pr, m, t, true, S n, h, st) /\ mgmt_failure mgmt e) \/
      (exists pr t' st', v' = (Some pr, true, t', true, n, h, st') /\ errors_Is e "exited" = true)
  end.

Lemma Start_ends_wpv `{!StopLaws T} creds server mgmt inputs p m t n h st :
  Forall (fun i => no_mgmt_stop i = true) mgmt -> Forall (fun i => no_stop i = true) inputs ->
  wpv (Start creds server mgmt inputs) (start_ends mgmt (p, m, t, false, n, h, st)) (p, m, t, false, n, h, st).
Proof.
  intros Hmgmt Hin. unfold Start. apply wpv_bind, wpv_modify; [done|].
  apply wpv_bind, (wpv_read _ _ v_active); [done|]. cbn [v_active].
  destruct (IsOpenVPNDefined creds); cbn [negb]; [|apply wpv_throw; by left].
  apply wpv_bind, wpv_wrapped, wpv_keeps; [apply machine_keeps|]. intros [u|e]; [|by left].
  apply wpv_bind, wpv_wrapped, wpv_keeps; [apply machine_keeps|]. intros [u'|e]; [|by left].
  apply wpv_bind, (wpv_update _ _ (fun v => let '(p, m, t, a, n, h, st) := v in (p, m, t, true, n, h, st))); [done|].
  apply wpv_bind, wpv_get. intros fwmark.
  apply wpv_bind, (wpv_update _ _ (fun v => let '(p, m, t, a, n, h, st) := v in
    (Some (mkProcess (ovpn_args fwmark (sd_Hostname server)) false), m, t, a, n, h, st))); [done|]. cbn beta iota.
  apply wpv_bind, wpv_wrapped, or_stop_wpv. eapply wpv_mono, startOpenVPN_wpv. intros [[]|e] v ->; cbn beta iota delta [is_ok].
  2: { do 7 eexists. split; [done|]. split; [done|]. right; left; eauto. }
  apply wpv_bind. eapply wpv_mono, management_wpv; [|done]. intros [[]|e] v Hv; cbn beta iota in *.
  2: { destruct Hv as [-> Hf]. right; right; left. eauto. }
  subst v. apply wpv_bind, (wpv_read _ _ v_manager); [done|]. cbn [v_manager negb].
  apply wpv_bind, wpv_wrapped, or_stop_wpv, wpv_keeps; [apply machine_keeps|]. intros [[]|e].
  2: { do 7 eexists. split; [done|]. split; [done|]. right; left; eauto. }
  apply wpv_bind, wpv_attempt. eapply wpv_mono, (stage1_wpv creds inputs _ _ _ _ _ Hin). intros r v (t' & st' & -> & Hr). cbn beta iota.
  destruct r as [[]|e].
  - destruct (Hr I) as [Ht ->]. destruct t' as [tun|]; [|done].
    apply (wpv_update _ _ (fun v => let '(p, m, t, a, n, h, st) := v in (p, m, t, a, n, h ++ [true], st))); [done|].
    by do 2 eexists.
  - destruct (is_exited e) eqn:He.
    + apply wpv_throw. right; right; right. do 3 eexists. split; [done|]. cbn. by destruct e.
    + apply wpv_bind, wpv_ignore. eapply wpv_mono, stop_wpv; [|done]. intros r v [_ ->]. apply wpv_throw. right; left; eauto.
Qed.

(** C17: how a start ends, when the VPN is not active, no other request stops it
    meanwhile, and stopping the process works: its signal can be sent and its client
    closed. A start that succeeds leaves the process with its client, a tunnel, the
    connected state and a goroutine for its events. After an error the VPN is not
    active, with two exceptions. When no client came the VPN stays active: every later
    start is refused, and the client that comes late ends the program. When the
    process said that it exits the VPN stays active too, until it is stopped. *)
Theorem openvpn_start_outcome `{!StopLaws T} creds server mgmt inputs s :
  Forall (fun i => no_mgmt_stop i = true) mgmt -> Forall (fun i => no_stop i = true) inputs -> ov_active s = false ->
  let r := (Start creds server mgmt inputs s).1 in
  let s' := (Start creds server mgmt inputs s).2 in
  match r with
  | Ok _ =>
      ov_active s' = true /\ ov_manager s' = true /\ ov_state s' = ConnectedState /\ ov_tun s' <> None /\
      (exists pr, ov_process s' = Some pr /\ pr_Started pr = true) /\ ov_handlers s' = ov_handlers s ++ [true]
  | Err e =>
      (ov_active s' = false /\ ov_accepting s' = ov_accepting s) \/
      (ov_active s' = true /\ mgmt_failure mgmt e /\ (late_client s').1 = Err send_on_closed /\
       forall creds' server' mgmt' inputs', (Start creds' server' mgmt' inputs' s').1 = Err ErrVPNAIsAlreadyStarted) \/
      (ov_active s' = true /\ errors_Is e "exited" = true)
  end.
Proof.
  intros Hmgmt Hin Ha. cbv zeta.
  pose proof (Start_ends_wpv creds server mgmt inputs (ov_process s) (ov_manager s) (ov_tun s) (ov_accepting s) (ov_handlers s) (ov_state s) Hmgmt Hin s) as Hs.
  unfold view at 1 in Hs. rewrite Ha in Hs. specialize (Hs eq_refl).
  destruct (Start creds server mgmt inputs s) as [[u|e] s']; cbn [fst snd start_ends] in *.
  - destruct Hs as (pr & tun & [= Hp Hm Ht Hact Hn Hh Hst] & Hpr). split_and!; [done|done|done|by rewrite Ht|by exists pr|done].
  - destruct Hs as [[= Hp Hm Ht Hact Hn Hh Hst]|[(pr & [= Hp Hm Ht Hact Hn Hh Hst])|[(pr & [= Hp Hm Ht Hact Hn Hh Hst] & Hf)|(pr & t' & st' & [= Hp Hm Ht Hact Hn Hh Hst] & He)]]].
    + left. by split.
    + left. by split.
    + right; left. split_and!; [done|done| |].
      * unfold late_client. rewrite bind_gets, Hn. done.
      * intros creds' server' mgmt' inputs'. unfold Start. rewrite bind_modify, bind_gets. cbn. by rewrite Hact.
    + right; right. by split.
Qed.
End Outcome.

(** ** The text of the configuration *)

(** Characters as XML escapes them. *)
Definition entities : list (ascii * string) :=
  [("<"%char, "&lt;"); (">"%char, "&gt;"); ("034"%char, "&quot;"); ("'"%char, "&apos;"); ("&"%char, "&amp;")].

Definition escaped_char (l : list (ascii * string)) (c : ascii) : string :=
  match List.find (fun p => Ascii.eqb p.1 c) l with Some p => p.2 | None => String c "" end.

Fixpoint escaped (l : list (ascii * string)) (s : string) : string :=
  match s with
  | EmptyString => EmptyString
  | String c s' => escaped_char l c +:+ escaped l s'
  end.

Lemma escaped_plain n c : c ∉ map fst entities -> escaped_char (drop n entities) c = String c "".
Proof.
  intros Hc. unfold escaped_char. destruct (List.find _ _) as [p|] eqn:Hf; [|done]. apply List.find_some in Hf as [Hin Hp].
  apply Ascii.eqb_eq in Hp as <-. destruct Hc. apply list_elem_of_fmap. exists p. split; [done|].
  apply list_elem_of_In in Hin. rewrite <- (take_drop n entities). apply elem_of_app. by right.
Qed.

Lemma replace_plain entity new c r :
  c <> "&"%char -> replace_from (String "&" entity) new 0 (String c r) = String c (replace_from (String "&" entity) new 0 r).
Proof. intros Hc. cbn [replace_from has_prefix]. by destruct (Ascii.eqb_spec "&"%char c) as [<-|]. Qed.

(** Replacing the first entity of the rest of the list, character by character: every
    ampersand starts an entity. *)
Lemma replace_entity n entity new s :
  (forall c r, c ∈ map fst entities ->
     replace_from (String "&" entity) new 0 (escaped_char (drop n entities) c +:+ r) =
     escaped_char (drop (S n) entities) c +:+ replace_from (String "&" entity) new 0 r) ->
  strings_ReplaceAll (escaped (drop n entities) s) (String "&" entity) new = escaped (drop (S n) entities) s.
Proof.
  intros Hc. unfold strings_ReplaceAll. induction s as [|c s IH]; [done|]. cbn [escaped].
  destruct (decide (c ∈ map fst entities)) as [Hin|Hin]; [by rewrite Hc, IH|].
  rewrite !escaped_plain by done. change (String c "" +:+ ?x) with (String c x). rewrite replace_plain; [by rewrite IH|].
  intros ->. apply Hin. cbn. set_solver.
Qed.

Ltac each_entity := intros c r; cbn [map entities fst]; rewrite !elem_of_cons; intros [->|[->|[->|[->|[->|[]%not_elem_of_nil]]]]]; reflexivity.

(** The configuration as text.  Every text comes back from its XML form, also one
    that looks like an entity: the ampersand is replaced last. *)
Theorem unescaped_roundtrip (s : string) : disableEscaping (escaped entities s) = s.
Proof.
  unfold disableEscaping. change entities with (drop 0 entities) at 1.
  rewrite (replace_entity 0 "lt;") by each_entity. rewrite (replace_entity 1 "gt;") by each_entity.
  rewrite (replace_entity 2 "quot;") by each_entity. rewrite (replace_entity 3 "apos;") by each_entity.
  rewrite (replace_entity 4 "amp;") by each_entity.
  induction s as [|c s IH]; [done|]. cbn in *. by rewrite IH.
Qed.

(** The extra parameters do not reach the file: what the text is changed to is lost. *)
Lemma extra_parameters_lost {T} `{System T} `{OpenvpnLib T} protocol ip obfuscated s :
  (forall data, is_ok (extra_parameters data ip protocol) = true) ->
  generateConfigFile (T := T) protocol ip obfuscated s =
  bind (wrapped "getting config identifier: " (of_result (getConfigIdentifier protocol obfuscated)) "") (fun identifier =>
    bind (attempt (FileRead (if obfuscated then OvpnObfsTemplatePath else OvpnTemplatePath))) (fun r =>
      match r with
      | Err _ => throw (Errorf "reading ovpn template file")
      | Ok template => bind (wrapped "generating OpenVPN config: " (of_result (generateConfig ip identifier template)) "") write_config
      end)) s.
Proof.
  intros Hx. unfold generateConfigFile, bind. destruct (wrapped _ _ _ s) as [[id_|e] s1]; [|done].
  destruct (attempt _ s1) as [[[template|e]|e] s2]; [|done|done]. destruct (wrapped _ _ _ s2) as [[out|e] s3]; [|done].
  unfold addExtraParameters. specialize (Hx out). by destruct (extra_parameters out ip protocol).
Qed.

(** ** A machine with OpenVPN *)

Module OvpnBox.

Definition local_ip : Addr := AddrV4 (v4 10 8 0 2).

#[export] Instance sys : System unit := {|
  exec_Command := fun _ _ _ s => ("", None, s);
  os_Getenv := fun _ _ => "";
  exec_LookPath := fun name _ => Some name;
  os_Getwd := ret "/";
  net_InterfaceByName := fun name => ret (mkNetIface name 7 1500 true (Ok []));
  net_Interfaces := ret [mkNetIface "nordtun" 7 1500 true (Ok [IPNet local_ip 24])];
  net_ListenPacket := fun _ _ => ret tt
|}.
#[export] Instance lib : OpenvpnLib unit := {|
  xslt_Process := fun _ template => Ok template;
  net_Listen := fun _ _ => ret tt;
  process_Start := fun _ => ret tt;
  process_Wait := ret tt;
  mg_Pid := fun t => (4242, t);
  mg_SendSignal := fun _ => ret tt;
  mg_Close := fun _ => ret tt;
  mg_SetStateEvents := fun _ _ => ret tt;
  mg_Auth := fun _ _ _ => ret tt;
  openVPNConfigFileName := "/var/lib/nordvpn/data/.config.ovpn";
  openvpnManagementSocket := "/run/nordvpn/nordvpn-openvpn.sock";
  openVPNExec := "/usr/lib/nordvpn/openvpn";
  OvpnTemplatePath := "/var/lib/nordvpn/data/ovpn_template.xslt";
  OvpnObfsTemplatePath := "/var/lib/nordvpn/data/ovpn_xor_template.xslt"
|}.
#[export] Instance stop_laws : StopLaws unit.
Proof. split; intros t; by exists t. Qed.

Definition machine : Machine unit := mkMachine {[OvpnTemplatePath := mkFileNode "client" 420 false false]} [] tt.
Definition creds : Credentials := mkCredentials "user" "password" "".
Definition server : ServerData := mkServerData (AddrV4 (v4 192 0 2 1)) "us1.nordvpn.com" "US #1" "US" "NY" Protocol_UDP "" false "2.5" false false.
Definition fresh_vpn : OpenVPN unit := New 57841 machine.
Definition auth_failed : Stage1Input := Event (StateEvent ReconnectingState authFailureDesc "").
Definition up : Stage1Input := Event (StateEvent ConnectedState "SUCCESS" "10.8.0.2").

(** A start that connects, one without a client, and the file the first one writes before
    it connects. *)
Example openvpn_starts :
  let s := (Start creds server [MgmtClient] [up] fresh_vpn).2 in
  ((Start creds server [MgmtClient] [up] fresh_vpn).1, tu_ips <$> ov_tun s, said (ov_published s)) =
    (Ok tt, Some [local_ip], [ConnectedState]) /\
  let s' := (Start creds server [] [up] fresh_vpn).2 in
  ((Start creds server [] [up] fresh_vpn).1, ov_active s') = (Err (Errorf "management timeout"), true) /\
  content openVPNConfigFileName (ov_machine s') = Some "client".
Proof. vm_compute. done. Qed.

(** The substate outlives a connection: after one failure and a success, the second
    failure of the next start ends it. *)
Example failures_remembered :
  let s := (Start creds server [MgmtClient] [auth_failed; up] fresh_vpn).2 in
  let s' := (Stop s).2 in
  ((Start creds server [MgmtClient] [auth_failed; auth_failed; up] fresh_vpn).1,
   (Start creds server [MgmtClient] [auth_failed; auth_failed; up] s').1) = (Ok tt, Err errAccountExpired).
Proof. vm_compute. done. Qed.

Lemma third_failure_ends_witness :
  let r := stage1Handler creds [auth_failed; Event OtherEvent; auth_failed; auth_failed] fresh_vpn in
  r.1 = Err errAccountExpired /\ ov_substate r.2 = UnknownSubstate.
Proof.
  apply (third_failure_ends creds [auth_failed; Event OtherEvent; auth_failed; auth_failed] fresh_vpn); [reflexivity|].
  repeat constructor.
Defined.

Lemma openvpn_start_outcome_witness :
  let s' := (Start creds server [MgmtClient] [up] fresh_vpn).2 in
  ov_active s' = true /\ ov_manager s' = true /\ ov_state s' = ConnectedState /\ ov_tun s' <> None /\
  (exists pr, ov_process s' = Some pr /\ pr_Started pr = true) /\ ov_handlers s' = ov_handlers fresh_vpn ++ [true].
Proof.
  pose proof (openvpn_start_outcome creds server [MgmtClient] [up] fresh_vpn) as Hout.
  assert (Hr : (Start creds server [MgmtClient] [up] fresh_vpn).1 = Ok tt) by (vm_compute; reflexivity).
  cbv zeta in Hout. rewrite Hr in Hout. apply Hout; [repeat constructor|repeat constructor|reflexivity].
Defined.
End OvpnBox.
