(* ===== verification/Geo.v ===== *)
(** * Geo: the penalty of a server

    Models [daemon/penalty.go], [daemon/distance.go] and [daemon/random.go].  A [float64]
    is a binary floating point number of 53 bits as the standard of the arithmetic
    defines it, with its infinities and NaN and without fused operations; the functions of Go's [math] and
    [math/rand] are the parameter [Math].

    Also here: [sort.SliceStable], the insertion sort Go uses for its blocks.  Every
    stable sort gives this list when the comparison is a strict weak order, and the same
    list when nothing is smaller than anything; with NaN among other numbers Go's result
    for more than a block depends on how it merges. *)

From stdpp Require Import base option list strings pretty gmap sorting.
From Stdlib Require Import ZArith SpecFloat Lia.
From S2P Require Import Prelude GoLib Servers.
Set Warnings "-clear-no-such-hyp".

Open Scope Z_scope.
Open Scope go_scope.

(** ** Numbers *)

Definition f_add : float64 -> float64 -> float64 := SFadd 53 1024.
Definition f_sub : float64 -> float64 -> float64 := SFsub 53 1024.
Definition f_mul : float64 -> float64 -> float64 := SFmul 53 1024.
Definition f_div : float64 -> float64 -> float64 := SFdiv 53 1024.
Definition f_ltb : float64 -> float64 -> bool := SFltb.
(** [float64(z)], to the nearest. *)
Definition f_of_Z (z : Z) : float64 := binary_normalize 53 1024 z 0 false.
(** A decimal constant. *)
Definition f_ratio (n d : Z) : float64 := f_div (f_of_Z n) (f_of_Z d).
Definition is_nan (x : float64) : bool := match x with S754_nan => true | _ => false end.

Class Math : Type := {
  math_Pow : float64 -> float64 -> float64;
  math_Sin : float64 -> float64;
  math_Cos : float64 -> float64;
  math_Acos : float64 -> float64;
  math_Pi : float64;
  (** [rand.New(rand.NewSource(seed)).Float64()] *)
  rand_Float64 : Z -> float64
}.

(** What the documentation of [math.Pow] says of NaN. *)
Class MathLaws `{Math} : Prop := {
  pow_nan y : y <> S754_zero false -> y <> S754_zero true -> math_Pow S754_nan y = S754_nan
}.

(** ** The penalty *)

Definition Alpha : float64 := f_ratio 7 10.
Definition Beta : float64 := SFopp (f_ratio 15 100).
Definition Lambda : float64 := f_of_Z 1.
Definition W : float64 := f_ratio 5 10.
Definition Fi : float64 := f_of_Z 7.
(** The radius of the earth in meters. *)
Definition R : float64 := f_of_Z 6371000.

Section Penalty.
Context `{Math}.

Definition distancePenalty (distance distanceMin distanceMax : float64) : float64 :=
  f_mul Alpha (math_Pow (f_div (f_sub distance distanceMin) (f_sub distanceMax distanceMin)) W).

Definition countryPenalty (userCountryCode serverCountryCode : string) : float64 :=
  if bool_decide (userCountryCode = serverCountryCode) then f_of_Z 0 else f_of_Z 1.

Definition loadPenalty (load : Z) : float64 :=
  let fLoad := f_div (f_of_Z load) (f_of_Z 10) in
  math_Pow fLoad fLoad.

Definition hubPenalty (hubScore : option float64) : float64 := default (f_of_Z 0) hubScore.

Definition obfuscationPenalty (obfuscated : bool) (timestamp timestampMin timestampMax : Z) : float64 :=
  if obfuscated then
    f_add (f_mul Beta (math_Pow (f_div (f_sub (f_of_Z timestamp) (f_of_Z timestampMin))
                                       (f_sub (f_of_Z timestampMax) (f_of_Z timestampMin))) Fi)) Lambda
  else f_of_Z 0.

(** The penalty and the partial penalty. *)
Definition penalty (obfuscated : bool) (distance distanceMin distanceMax : float64) (timestamp timestampMin timestampMax : Z)
    (load : Z) (userCountryCode serverCountryCode : string) (hubScore : option float64) (randomComponent : float64) : float64 * float64 :=
  let distanceP := distancePenalty distance distanceMin distanceMax in
  let loadP := loadPenalty load in
  let obfuscationP := obfuscationPenalty obfuscated timestamp timestampMin timestampMax in
  let countryP := countryPenalty userCountryCode serverCountryCode in
  let hubP := hubPenalty hubScore in
  let partialPenalty := f_sub (f_add (f_add distanceP randomComponent) obfuscationP) (f_mul countryP hubP) in
  (f_add partialPenalty loadP, partialPenalty).

Definition distance (srcLatitude srcLongitude dstLatitude dstLongitude : float64) : float64 :=
  let rad x := f_div (f_mul x math_Pi) (f_of_Z 180) in
  let srcRad := rad srcLatitude in
  let dstRad := rad dstLatitude in
  let delta := rad (f_sub dstLongitude srcLongitude) in
  f_mul (math_Acos (f_add (f_mul (math_Sin srcRad) (math_Sin dstRad))
                          (f_mul (f_mul (math_Cos srcRad) (math_Cos dstRad)) (math_Cos delta)))) R.

Definition randFloat (seed : Z) (min max : float64) : float64 :=
  f_add min (f_mul (rand_Float64 seed) (f_sub max min)).
End Penalty.

(** ** Sorting *)

Section Sort.
Context {A : Type} (less : A -> A -> bool).

(** Into a sorted list in reverse: past everything that is larger. *)
Fixpoint insert_back (x : A) (l : list A) : list A :=
  match l with
  | [] => [x]
  | y :: l' => if less x y then y :: insert_back x l' else x :: l
  end.

Definition sort_SliceStable (l : list A) : list A := rev (fold_left (fun acc x => insert_back x acc) l []).

Lemma insert_back_perm x l : insert_back x l ≡ₚ x :: l.
Proof. induction l as [|y l IH]; cbn; [done|]. destruct (less x y); [|done]. rewrite IH. apply Permutation_swap. Qed.

Lemma sort_perm l : sort_SliceStable l ≡ₚ l.
Proof.
  unfold sort_SliceStable. rewrite <- Permutation_rev. change l with ([] ++ l) at 2.
  generalize (@nil A). induction l as [|x l IH]; intros acc; cbn; [by rewrite app_nil_r|].
  rewrite IH, insert_back_perm. rewrite <- Permutation_middle. done.
Qed.

(** Nothing is smaller than anything: nothing moves. *)
Lemma sort_unordered l : (forall x y, x ∈ l -> y ∈ l -> less x y = false) -> sort_SliceStable l = l.
Proof.
  intros Hl. unfold sort_SliceStable. rewrite <- (rev_involutive l) at 2. f_equal.
  enough (Hg : forall acc, (forall x y, x ∈ l -> y ∈ acc ++ l -> less x y = false) -> fold_left (fun acc x => insert_back x acc) l acc = rev l ++ acc).
  { rewrite Hg; [by rewrite app_nil_r|]. intros x y Hx Hy. by apply Hl. }
  clear Hl. induction l as [|x l IH]; intros acc Hacc; cbn; [done|].
  assert (Hi : insert_back x acc = x :: acc).
  { destruct acc as [|y acc]; [done|]. cbn. rewrite Hacc; [done|by left|by left]. }
  rewrite Hi, IH; [by rewrite <- app_assoc|]. intros a b Ha Hb. apply Hacc; [by right|]. set_solver.
Qed.

(** A strict weak order. *)
Class LessLaws (P : A -> Prop) : Prop := {
  less_asym x y : P x -> P y -> less x y = true -> less y x = false;
  less_cotrans x y z : P x -> P y -> P z -> less x y = false -> less y z = false -> less x z = false
}.

Definition no_less (x y : A) : Prop := less y x = false.

Lemma insert_back_sorted P `{!LessLaws P} x l : Forall P (x :: l) ->
  StronglySorted (fun a b => no_less b a) l -> StronglySorted (fun a b => no_less b a) (insert_back x l).
Proof.
  intros HP Hs. induction Hs as [|y l Hs IH Hy]; cbn; [by repeat constructor|].
  apply Forall_cons in HP as [Hx HP]. pose proof HP as Hyl. apply Forall_cons in HP as [Py Pl].
  destruct (less x y) eqn:Hl.
  - constructor; [apply IH; by constructor|]. rewrite insert_back_perm. constructor; [|done].
    unfold no_less. by apply (less_asym x y).
  - constructor; [by constructor|]. constructor; [exact Hl|].
    rewrite Forall_forall in Hy, Pl |- *. intros z Hz. apply (less_cotrans x y z); [done|done|by apply Pl|done|by apply Hy].
Qed.

(** The result is sorted. *)
Lemma sort_sorted P `{!LessLaws P} l : Forall P l -> StronglySorted no_less (sort_SliceStable l).
Proof.
  intros HP. unfold sort_SliceStable.
  assert (Hg : forall acc, Forall P acc -> StronglySorted (fun a b => no_less b a) acc ->
    StronglySorted (fun a b => no_less b a) (fold_left (fun acc x => insert_back x acc) l acc)).
  { induction l as [|x l IH]; intros acc Hacc Hs; [done|]. apply Forall_cons in HP as [Hx HP]. cbn. apply IH; [done| |].
    - rewrite insert_back_perm. by constructor.
    - apply (insert_back_sorted P); [by constructor|done]. }
  specialize (Hg [] (Forall_nil_2 _) (SSorted_nil _)). generalize dependent (fold_left (fun acc x => insert_back x acc) l []).
  intros r Hr. induction Hr as [|y r Hr IH Hy]; cbn; [constructor|].
  assert (Hsnoc : forall q, StronglySorted no_less q -> Forall (fun a => no_less a y) q -> StronglySorted no_less (q ++ [y])).
  { induction q as [|z q IHq]; intros Hq Hall; cbn; [by repeat constructor|].
    apply StronglySorted_inv in Hq as [Hq Hz]. apply Forall_cons in Hall as [Hzy Hall]. constructor; [by apply IHq|].
    apply Forall_app. split; [done|]. by repeat constructor. }
  apply Hsnoc; [done|]. rewrite <- (Permutation_rev r). exact Hy.
Qed.
End Sort.

(** ** The order of numbers *)

(** A number as the position in the order: its sign with the infinities outside, then
    exponent and mantissa. *)
Definition float_key (x : float64) : Z * Z * Z :=
  match x with
  | S754_zero _ | S754_nan => (0, 0, 0)
  | S754_infinity false => (2, 0, 0)
  | S754_infinity true => (-2, 0, 0)
  | S754_finite false m e => (1, e, Z.pos m)
  | S754_finite true m e => (-1, - e, - Z.pos m)
  end.

Definition key_lt (a b : Z * Z * Z) : Prop :=
  a.1.1 < b.1.1 \/ (a.1.1 = b.1.1 /\ (a.1.2 < b.1.2 \/ (a.1.2 = b.1.2 /\ a.2 < b.2))).

Lemma f_ltb_key x y : is_nan x = false -> is_nan y = false -> f_ltb x y = true <-> key_lt (float_key x) (float_key y).
Proof.
  unfold f_ltb, SFltb, key_lt. destruct x as [[]|[]| |[] m e], y as [[]|[]| |[] m2 e2]; try done; intros _ _; cbn;
    try (split; intros; (done || lia)).
  all: destruct (Z.compare_spec e e2); cbn; try (split; intros; (done || lia)).
  all: change (Pos.compare_cont Eq m m2) with (Pos.compare m m2); destruct (Pos.compare_spec m m2); cbn; split; intros; (done || lia).
Qed.

Lemma f_ltb_nan_l y : f_ltb S754_nan y = false.
Proof. done. Qed.
Lemma f_ltb_nan_r x : f_ltb x S754_nan = false.
Proof. by destruct x as [[]|[]| |[] m e]. Qed.

(** The numbers that are not NaN are ordered. *)
#[export] Instance float_laws : LessLaws f_ltb (fun x => is_nan x = false).
Proof.
  split.
  - intros x y Hx Hy Hl. apply f_ltb_key in Hl; [|done..]. apply not_true_iff_false. intros Hl'. apply f_ltb_key in Hl'; [|done..].
    unfold key_lt in *. lia.
  - intros x y z Hx Hy Hz H1 H2. apply not_true_iff_false in H1, H2. apply not_true_iff_false. intros H3.
    apply f_ltb_key in H3; [|done..]. rewrite f_ltb_key in H1, H2 by done. unfold key_lt in *. lia.
Qed.

(** Nothing is smaller than the least or larger than the greatest. *)
Lemma f_cotrans x y z : f_ltb x y = false -> f_ltb y z = false -> is_nan y = false -> f_ltb x z = false.
Proof.
  intros H1 H2 Hy. destruct (is_nan x) eqn:Hx; [by destruct x|]. destruct (is_nan z) eqn:Hz; [destruct z; try done; apply f_ltb_nan_r|].
  by apply (less_cotrans f_ltb x y z).
Qed.

Lemma f_irrefl x : f_ltb x x = false.
Proof.
  destruct (is_nan x) eqn:Hx; [by destruct x|]. apply not_true_iff_false. intros Hl. apply f_ltb_key in Hl; [|done..]. unfold key_lt in Hl. lia.
Qed.

(** The difference of a number and itself is zero or undefined, and zero by zero is
    undefined. *)
Lemma f_sub_same x : f_sub x x = S754_nan \/ exists s, f_sub x x = S754_zero s.
Proof.
  unfold f_sub, SFsub. destruct x as [[]|[]| |[] m e]; cbn; try ((by right; eexists) || (by left));
    rewrite Z.min_id, Z.sub_diag; right; by eexists.
Qed.

Lemma f_div_same x y : f_div (f_sub x x) (f_sub y y) = S754_nan.
Proof. destruct (f_sub_same x) as [->|[s ->]], (f_sub_same y) as [->|[s' ->]]; done. Qed.

Lemma f_add_nan_l y : f_add S754_nan y = S754_nan.
Proof. done. Qed.
Lemma f_mul_nan_r x : f_mul x S754_nan = S754_nan.
Proof. by destruct x as [[]|[]| |[] m e]. Qed.

(** With one distance for all servers, or none that is a number, the penalty is
    undefined. *)
Lemma penalty_nan `{MathLaws} obfuscated d t tmin tmax load ucc scc hub r :
  penalty obfuscated d d d t tmin tmax load ucc scc hub r = (S754_nan, S754_nan).
Proof.
  unfold penalty, distancePenalty. rewrite f_div_same, pow_nan by done. by rewrite f_mul_nan_r.
Qed.
