(* ===== verification/Cache.v ===== *)
(** * Cache: the data the daemon keeps of the API

    Models [daemon/data_models.go], [daemon/data_manager.go] and the jobs that fill the
    cache: [daemon/job_servers.go], [job_countries.go], [job_insights.go],
    [job_server_check.go], [job_templates.go] and [job_appversion.go].

    Every kind of data has a file, written with [encoding/gob]; the encoding, the clock,
    the API and the CDN are parameters.  The mutex makes every method atomic.  A panic is
    an error no code handles.  What [JobServers] loads of the configuration is not used
    by it, so the configuration is not part of the state. *)

From stdpp Require Import base option list strings pretty gmap.
From Stdlib Require Import ZArith SpecFloat Ascii Lia.
From S2P Require Import Prelude GoLib Config Servers Auth Kernel Transfers GoText Machine Geo.

Open Scope Z_scope.
Open Scope go_scope.

(** ** The data *)

Record Insights : Type := mkInsights {
  ins_City : string;
  ins_Country : string;
  ins_Isp : string;
  ins_IspAsn : Z;
  ins_CountryCode : string;
  ins_Longitude : float64;
  ins_Latitude : float64;
  ins_Protected : bool
}.
Definition no_insights : Insights := mkInsights "" "" "" 0 "" zero_float zero_float false.

(** The exported fields, which are what the file has; the path is beside them. *)
Record CountryData : Type := mkCountryData { cd_UpdatedAt : Z; cd_Countries : list Country; cd_Hash : string }.
#[export] Instance eta_CountryData : EtaExpand CountryData := fun x => mkCountryData (cd_UpdatedAt x) (cd_Countries x) (cd_Hash x).
Record ServersData : Type := mkServersData { se_UpdatedAt : Z; se_Servers : list Server; se_Hash : string }.
#[export] Instance eta_ServersData : EtaExpand ServersData := fun x => mkServersData (se_UpdatedAt x) (se_Servers x) (se_Hash x).

(** A version as the library [semver] has it. *)
Definition Version : Type := string.
Record VersionData : Type := mkVersionData { vd_version : Version; vd_newerVersionAvailable : bool }.
#[export] Instance eta_VersionData : EtaExpand VersionData := fun x => mkVersionData (vd_version x) (vd_newerVersionAvailable x).

(** [encoding/gob].  Decoding gets the value to fill in; fields that are zero are not
    in the text and keep their value. *)
Class Gob (A : Type) : Type := {
  gob_Encode : A -> result string;
  gob_Decode : string -> A -> result A
}.

(** What is left of a value: a negative zero is zero, and a pointer to zero is nil. *)
Class Flat (A : Type) : Type := flat : A -> A.
#[export] Instance flat_float : Flat float64 := fun x => match x with S754_zero _ => zero_float | _ => x end.
Definition flat_pointer (p : option float64) : option float64 :=
  match p with Some (S754_zero _) => None | _ => p end.
#[export] Instance flat_list {A} `{Flat A} : Flat (list A) := map flat.
#[export] Instance flat_city : Flat City := fun c =>
  mkCity (city_ID c) (city_Name c) (flat (city_Latitude c)) (flat (city_Longitude c)) (flat_pointer (city_HubScore c)).
#[export] Instance flat_country : Flat Country := fun c =>
  mkCountry (co_ID c) (co_Name c) (co_Code c) (flat (co_City c)) (flat (co_Cities c)).
#[export] Instance flat_server : Flat Server := fun s =>
  s <| srv_Locations := flat (srv_Locations s) |> <| srv_Distance := flat (srv_Distance s) |>
    <| srv_Penalty := flat (srv_Penalty s) |> <| srv_PartialPenalty := flat (srv_PartialPenalty s) |>.
#[export] Instance flat_countries : Flat CountryData := fun d => d <| cd_Countries := flat (cd_Countries d) |>.
#[export] Instance flat_servers : Flat ServersData := fun d => d <| se_Servers := flat (se_Servers d) |>.
#[export] Instance flat_insights : Flat Insights := fun i =>
  mkInsights (ins_City i) (ins_Country i) (ins_Isp i) (ins_IspAsn i) (ins_CountryCode i) (flat (ins_Longitude i)) (flat (ins_Latitude i))
    (ins_Protected i).
#[export] Instance flat_version : Flat Version := fun v => v.

Class GobLaws (A : Type) `{Gob A} `{Flat A} (zero : A) : Prop := {
  gob_encodes x : exists text, gob_Encode x = Ok text;
  gob_decodes x text : gob_Encode x = Ok text -> gob_Decode text zero = Ok (flat x)
}.

Class CacheEnv (T : Type) : Type := {
  time_Now : T -> Z * T;
  api_Servers : M T (list Server * string);
  api_Countries : M T (list Country * string);
  api_ServerByID : Z -> M T (option Server);
  api_Insights : M T (option Insights);
  netw_IsVPNActive : T -> bool;
  (** the digest the CDN has for a template, and the template *)
  cdn_Head : bool -> M T string;
  cdn_Get : bool -> M T string;
  hex_sha256 : string -> string;
  (** [Title] of [internal/string.go] uses [golang.org/x/text/cases] *)
  cases_Title : string -> string;
  semver_LessThan : Version -> Version -> bool;
  repo_Versions : M T (list Version)
}.

Record DataManager (T : Type) : Type := mkDataManager {
  ca_countryData : CountryData;
  ca_insightsData : Insights;
  ca_serversData : ServersData;
  ca_versionData : VersionData;
  ca_updates : nat;  (* how often [ServersUpdate] was published *)
  ca_machine : Machine T
}.
Arguments mkDataManager {T} _ _ _ _ _ _.
Arguments ca_countryData {T} _.
Arguments ca_insightsData {T} _.
Arguments ca_serversData {T} _.
Arguments ca_versionData {T} _.
Arguments ca_updates {T} _.
Arguments ca_machine {T} _.
#[export] Instance eta_DataManager T : EtaExpand (DataManager T) := fun x =>
  mkDataManager (ca_countryData x) (ca_insightsData x) (ca_serversData x) (ca_versionData x) (ca_updates x) (ca_machine x).

(** The paths of the files. *)
Class CachePaths : Type := {
  countryFilePath : string; insightsFilePath : string; serversFilePath : string; versionFilePath : string;
  OvpnTemplatePath : string; OvpnObfsTemplatePath : string }.

Definition hour : Z := 3600 * 1000000000.
Definition no_countries : CountryData := mkCountryData 0 [] "".
Definition no_servers : ServersData := mkServersData 0 [] "".
Definition no_version : Version := "0.0.0".

Record pb_ServerGroup : Type := mkServerGroup { sg_Name : string; sg_VirtualLocation : bool }.

(** [strings.ToUpper] on ASCII text. *)
Definition upper_ascii (c : ascii) : ascii :=
  let n := nat_of_ascii c in
  if (97 <=? n)%nat && (n <=? 122)%nat then ascii_of_nat (n - 32) else c.
Fixpoint str_upper (s : string) : string :=
  match s with EmptyString => EmptyString | String c s' => String (upper_ascii c) (str_upper s') end.
Definition option_list {A} (o : option A) : list A := match o with Some x => [x] | None => [] end.

Section Manager.
Context {T : Type} `{System T} `{CacheEnv T} `{CachePaths}.
Context `{Gob CountryData} `{Gob Insights} `{Gob ServersData} `{Gob Version}.
Abbreviation C := (M (DataManager T)).

Definition on_machine {A} (m : M (Machine T) A) : C A := zoom ca_machine (fun x s => s <| ca_machine := x |>) m.
Definition on_env {A} (m : M T A) : C A := on_machine (on_sys m).
Definition now : C Z := on_env (fun t => let '(z, t') := time_Now t in (Ok z, t')).

Definition NewDataManager (machine : Machine T) : DataManager T :=
  mkDataManager no_countries no_insights no_servers (mkVersionData no_version false) 0 machine.

(** [load] and [save] of each kind of data. *)
Definition load_data {A} `{Gob A} (path : string) (old : A) : M (Machine T) A :=
  let! content := FileRead path in
  match gob_Decode content old with Ok x => ret x | Err e => throw e end.
Definition save_data {A} `{Gob A} (path : string) (data : A) : M (Machine T) unit :=
  match gob_Encode data with
  | Err e => throw e
  | Ok content => FileWrite path content PermUserRWGroupROthersR
  end.

Definition load_into {A} `{Gob A} (get : DataManager T -> A) (put : A -> DataManager T -> DataManager T) (path : string) : C unit :=
  let! old := gets get in
  let! x := on_machine (load_data path old) in
  modify (put x).

Definition LoadData : C unit :=
  wrapped "loading country data: " (load_into ca_countryData (fun x s => s <| ca_countryData := x |>) countryFilePath) "" ;;
  wrapped "loading insights data: " (load_into ca_insightsData (fun x s => s <| ca_insightsData := x |>) insightsFilePath) "" ;;
  wrapped "loading servers data: " (load_into ca_serversData (fun x s => s <| ca_serversData := x |>) serversFilePath) "" ;;
  wrapped "loading version data: "
    (load_into (fun s => vd_version (ca_versionData s))
       (fun v s => s <| ca_versionData := (ca_versionData s) <| vd_version := v |> |>) versionFilePath) "".

Definition save_countries : C unit := let! d := gets ca_countryData in on_machine (save_data countryFilePath d).
Definition save_insights : C unit := let! d := gets ca_insightsData in on_machine (save_data insightsFilePath d).
Definition save_servers : C unit := let! d := gets ca_serversData in on_machine (save_data serversFilePath d).
Definition save_version : C unit := let! d := gets ca_versionData in on_machine (save_data versionFilePath (vd_version d)).

Definition GetInsightsData : C Insights := gets ca_insightsData.
Definition SetInsightsData (insights : Insights) : C unit := set! ca_insightsData := insights ;; save_insights.

Definition SetCountryData (updatedAt : Z) (countries : list Country) (hash : string) : C unit :=
  set! ca_countryData := mkCountryData updatedAt countries hash ;; save_countries.

Definition CountryDataExists : C bool := on_machine (FileExists countryFilePath).
Definition IsCountryDataValid : C bool :=
  let! d := gets ca_countryData in let! t := now in ret (t <? cd_UpdatedAt d + 6 * hour).
Definition GetCountryData : C CountryData := gets ca_countryData.

Definition ServerDataExists : C bool := on_machine (FileExists serversFilePath).
Definition IsServersDataValid : C bool :=
  let! d := gets ca_serversData in let! t := now in ret (t <? se_UpdatedAt d + 1 * hour).
Definition GetServersData : C ServersData := gets ca_serversData.

(** The event is published after a successful save. *)
Definition SetServersData (updatedAt : Z) (servers : list Server) (hash : string) : C unit :=
  set! ca_serversData := mkServersData updatedAt servers hash ;;
  save_servers ;;
  modify (fun s => s <| ca_updates := S (ca_updates s) |>).

(** The first server with the identifier is changed. *)
Fixpoint update_first (id : Z) (f : Server -> Server) (servers : list Server) : list Server :=
  match servers with
  | [] => []
  | s :: servers' => if id =? srv_ID s then f s :: servers' else s :: update_first id f servers'
  end.

Definition less_penalty (x y : Server) : bool := f_ltb (srv_Penalty x) (srv_Penalty y).

Definition change_servers (f : list Server -> list Server) : C unit :=
  modify (fun s => s <| ca_serversData := (ca_serversData s) <| se_Servers := f (se_Servers (ca_serversData s)) |> |>) ;;
  save_servers.

Definition UpdateServerPenalty `{Math} (s : Server) : C unit :=
  change_servers (fun servers => sort_SliceStable less_penalty
    (update_first (srv_ID s) (fun server =>
       server <| srv_Status := srv_Status s |> <| srv_Penalty := f_add (srv_PartialPenalty server) (loadPenalty (srv_Load s)) |>) servers)).

Definition SetServerStatus (s : Server) (status : string) : C unit :=
  change_servers (update_first (srv_ID s) (fun server => server <| srv_Status := status |>)).

Definition GetVersionData : C VersionData := gets ca_versionData.
Definition SetVersionData (version : Version) (newerAvailable : bool) : C unit :=
  set! ca_versionData := mkVersionData version newerAvailable ;; ignore save_version.

(** ** The jobs *)

Definition index_panic : error := Sentinel "runtime error: index out of range".
Definition nil_panic : error := Sentinel "runtime error: invalid memory address or nil pointer dereference".

Definition JobCountries : C unit :=
  let! exists_ := CountryDataExists in
  let! valid := (if exists_ then IsCountryDataValid else ret false) in
  if (valid : bool) then ret tt
  else
    let! currentTime := now in
    let! r := on_env api_Countries in
    if bool_decide (r.1 = [] :> list Country) then throw (Errorf "empty country list")
    else SetCountryData currentTime r.1 r.2.

(** Longitude -96.80300999652735, latitude 32.77859397576304. *)
Definition fixed_insights : Insights :=
  mkInsights "None" "United States" "" 0 "US" (S754_finite true 6811906246073484 (-46)) (S754_finite false 4613176987967975 (-47)) false.

(** Whether the location was published, beside the effect. *)
Definition JobInsights (downloader : bool) : C (option Insights) :=
  let! active := gets (fun s => netw_IsVPNActive (mc_sys (ca_machine s))) in
  if (active : bool) then ret None
  else if downloader then ignore (SetInsightsData fixed_insights) ;; ret None
  else
    let! r := attempt (on_env api_Insights) in
    match r with
    | Ok (Some insights) =>
        if ins_Protected insights then ret None
        else ignore (SetInsightsData insights) ;; ret (Some insights)
    | _ => ret None
    end.

(** [server] is the one given when the jobs are started. *)
Definition JobServerCheck `{Math} (server : Server) : C unit :=
  let! active := gets (fun s => netw_IsVPNActive (mc_sys (ca_machine s))) in
  when active (
    let! r := attempt (on_env (api_ServerByID (srv_ID server))) in
    match r with
    | Ok (Some srv) =>
        let! updated := attempt (UpdateServerPenalty srv) in
        when (is_ok updated) (ignore (SetServerStatus server (srv_Status server)))
    | _ => ret tt
    end).

(** *** The servers *)

Definition RandomComponentMin : float64 := f_of_Z 0.
Definition RandomComponentMax : float64 := f_ratio 1 1000.

Definition generateKeys (server : Server) (country : Country) : list string :=
  let loweredHostnameID := str_lower (default "" (head (split_char "." (srv_Hostname server)))) in
  let loweredCountryName := SnakeCase (co_Name country) in
  let code := SnakeCase (co_Code country) in
  let loweredCityName := SnakeCase (city_Name (co_City country)) in
  let loweredCountryCode := if bool_decide (code = "gb") then "uk" else code in
  [loweredCountryName; loweredCountryCode; loweredCountryName +:+ " " +:+ loweredCityName;
   loweredCountryCode +:+ " " +:+ loweredCityName; loweredCityName; loweredHostnameID] ++
  map (fun g => SnakeCase (gr_Title g)) (srv_Groups server).

(** [parsedTime.Unix()]. *)
Definition created_unix (server : Server) : result Z :=
  match time_Parse (srv_CreatedAt server) with
  | Some t => Ok (t / 1000000000)
  | None => Err (Errorf "parsing time")
  end.

Definition distance_to `{Math} (ins : Insights) (country : Country) : float64 :=
  distance (ins_Latitude ins) (ins_Longitude ins) (city_Latitude (co_City country)) (city_Longitude (co_City country)).

Record MinMax : Type := mkMinMax { mm_tmin : Z; mm_tmax : Z; mm_dmin : float64; mm_dmax : float64 }.

Definition widen (mm : MinMax) (timestamp : Z) (dist : float64) : MinMax :=
  mkMinMax (if timestamp <? mm_tmin mm then timestamp else mm_tmin mm)
           (if mm_tmax mm <? timestamp then timestamp else mm_tmax mm)
           (if f_ltb dist (mm_dmin mm) then dist else mm_dmin mm)
           (if f_ltb (mm_dmax mm) dist then dist else mm_dmax mm).

(** The first server: its timestamp and distance are the initial values. *)
Definition initial_minmax `{Math} (ins : Insights) (first : Server) : result MinMax :=
  match created_unix first with
  | Err e => Err e
  | Ok timestamp =>
      match head (srv_Locations first) with
      | None => Err index_panic
      | Some country => let dist := distance_to ins country in Ok (mkMinMax timestamp timestamp dist dist)
      end
  end.

(** The first loop. *)
Fixpoint prepare_servers `{Math} (ins : Insights) (servers : list Server) (mm : MinMax) : result (list Server * MinMax) :=
  match servers with
  | [] => Ok ([], mm)
  | server :: servers' =>
      match head (srv_Locations server) with
      | None => Err nil_panic
      | Some country =>
          match created_unix server with
          | Err e => Err e
          | Ok timestamp =>
              let dist := distance_to ins country in
              match prepare_servers ins servers' (widen mm timestamp dist) with
              | Err e => Err e
              | Ok (l, mm') =>
                  Ok (server <| srv_Keys := generateKeys server country |> <| srv_Timestamp := timestamp |>
                             <| srv_Distance := dist |> :: l, mm')
              end
          end
      end
  end.

(** The second loop, for one server. *)
Definition score_server `{Math} (ins : Insights) (mm : MinMax) (randomComponent : float64) (server : Server) : Server :=
  let country := head (srv_Locations server) in
  let '(penal, partialPenalty) :=
    penalty (IsObfuscated server) (srv_Distance server) (mm_dmin mm) (mm_dmax mm) (srv_Timestamp server) (mm_tmin mm) (mm_tmax mm)
      (srv_Load server) (ins_CountryCode ins) (default "" (co_Code <$> country))
      (country ≫= fun c => city_HubScore (co_City c)) randomComponent in
  server <| srv_Penalty := penal |> <| srv_PartialPenalty := partialPenalty |>.

(** The list for the cache. *)
Definition score_servers `{Math} (ins : Insights) (randomComponent : float64) (servers : list Server) : result (list Server) :=
  match servers with
  | [] => Err (Errorf "empty servers list")
  | first :: _ =>
      match initial_minmax ins first with
      | Err e => Err e
      | Ok mm =>
          match prepare_servers ins servers mm with
          | Err e => Err e
          | Ok (l, mm') => Ok (sort_SliceStable less_penalty (map (score_server ins mm' randomComponent) l))
          end
      end
  end.

Definition JobServers `{Math} (validate : bool) : C unit :=
  let! exists_ := (if validate then ServerDataExists else ret false) in
  let! valid := (if exists_ : bool then IsServersDataValid else ret false) in
  if (valid : bool) then ret tt
  else
    let! currentTime := now in
    let! r := on_env api_Servers in
    if bool_decide (r.1 = [] :> list Server) then throw (Errorf "empty servers list")
    else
      let! geoInfoData := GetInsightsData in
      let! seed := now in
      let randomComponent := randFloat seed RandomComponentMin RandomComponentMax in
      match score_servers geoInfoData randomComponent r.1 with
      | Err e => throw e
      | Ok servers => SetServersData currentTime servers r.2
      end.

(** *** Templates and versions *)

(** [getTemplate]; both goroutines run it.  Its errors end it silently. *)
Definition getTemplate (isObfuscated : bool) : C unit :=
  let path := if isObfuscated then OvpnObfsTemplatePath else OvpnTemplatePath in
  let! exists_ := on_machine (FileExists path) in
  let! content := attempt (if exists_ then on_machine (FileRead path) else throw (Errorf "")) in
  let digest := match content with Ok text => hex_sha256 text | Err _ => "" end in
  let! h := attempt (on_env (cdn_Head isObfuscated)) in
  match h with
  | Err _ => ret tt
  | Ok wanted =>
      when (negb (bool_decide (digest = wanted))) (
        let! body := attempt (on_env (cdn_Get isObfuscated)) in
        match body with
        | Err _ => ret tt
        | Ok body => ignore (on_machine (FileWrite path body PermUserRW))
        end)
  end.

Definition GetLatestVersion (versions : list Version) : Version :=
  match versions with
  | [] => no_version
  | v :: versions' => fold_left (fun newest ver => if semver_LessThan newest ver then ver else newest) versions' v
  end.

(** The versions the repository lists are a parameter, with the error of the request. *)
Definition JobVersionCheck (currentVersion : Version) : C unit :=
  let! vdata := GetVersionData in
  when (semver_LessThan currentVersion (vd_version vdata)) (SetVersionData (vd_version vdata) true) ;;
  if vd_newerVersionAvailable vdata then ret tt
  else
    let! r := attempt (on_env repo_Versions) in
    match r with
    | Err _ => SetVersionData (vd_version vdata) false
    | Ok versions =>
        let latestVersion := GetLatestVersion versions in
        when (semver_LessThan currentVersion latestVersion) (SetVersionData latestVersion true)
    end.

(** ** What can be listed *)

Definition Title (name : string) : string :=
  strings_ReplaceAll (cases_Title (T := T) (strings_Join (strings_Fields (RemoveNonAlphanumeric name)) " ")) " " "_".

Definition toServerTechnology (technology : Technology) (protocol : Z) (obfuscated : bool) : result ServerTechnology :=
  match technology with
  | NORDLYNX => Ok WireguardTech
  | OPENVPN =>
      if protocol =? Protocol_TCP then Ok (if obfuscated then OpenVPNTCPObfuscated else OpenVPNTCP)
      else if protocol =? Protocol_UDP then Ok (if obfuscated then OpenVPNUDPObfuscated else OpenVPNUDP)
      else if protocol =? Protocol_UNKNOWN then Err (Errorf "invalid protocol")
      else Ok UnknownTech
  | UNKNOWN_TECHNOLOGY => Err (Errorf "invalid technology")
  end.

(** A server that may be listed. *)
Definition listable (tech : ServerTechnology) (virtualLocation : bool) (server : Server) : bool :=
  IsConnectableVia tech server && (virtualLocation || negb (IsVirtualLocation server)).

Definition less_name (x y : pb_ServerGroup) : bool := String.ltb (sg_Name x) (sg_Name y).

(** One entry for each key, from the first one that has it. *)
Fixpoint first_of_key {A} (entries : list (string * A)) (seen : list string) : list A :=
  match entries with
  | [] => []
  | (key, x) :: entries' =>
      if bool_decide (key ∈ seen) then first_of_key entries' seen else x :: first_of_key entries' (key :: seen)
  end.

Definition country_entry (server : Server) : option (string * pb_ServerGroup) :=
  (fun country => (co_Code country, mkServerGroup (Title (co_Name country)) (IsVirtualLocation server))) <$> head (srv_Locations server).

(** The country asked for, by its code or its name. *)
Definition city_entry (countryName : string) (server : Server) : option (string * pb_ServerGroup) :=
  match head (srv_Locations server) with
  | None => None
  | Some country =>
      if bool_decide (str_upper countryName = co_Code country) ||
         bool_decide (str_lower countryName = str_lower (Title (co_Name country)))
      then Some (city_Name (co_City country), mkServerGroup (Title (city_Name (co_City country))) (IsVirtualLocation server))
      else None
  end.

Definition group_entries (server : Server) : list (string * pb_ServerGroup) :=
  map (fun group => (gr_Title group, mkServerGroup (Title (gr_Title group)) false)) (srv_Groups server).

(** The list for the entries of the servers that may be listed. *)
Definition listed (technology : Technology) (protocol : Z) (obfuscated virtualLocation : bool)
    (entries : Server -> list (string * pb_ServerGroup)) (servers : list Server) : result (list pb_ServerGroup) :=
  match toServerTechnology technology protocol obfuscated with
  | Err e => Err e
  | Ok tech =>
      Ok (sort_SliceStable less_name
            (first_of_key (concat (map entries (List.filter (listable tech virtualLocation) servers))) []))
  end.

Definition Countries technology protocol obfuscated virtualLocation : C (list pb_ServerGroup) :=
  let! d := gets ca_serversData in
  match listed technology protocol obfuscated virtualLocation (fun s => option_list (country_entry s)) (se_Servers d) with
  | Ok l => ret l | Err e => throw e end.

Definition Cities countryName technology protocol obfuscated virtualLocation : C (list pb_ServerGroup) :=
  let! d := gets ca_serversData in
  match listed technology protocol obfuscated virtualLocation (fun s => option_list (city_entry countryName s)) (se_Servers d) with
  | Ok l => ret l | Err e => throw e end.

Definition Groups technology protocol obfuscated virtualLocation : C (list pb_ServerGroup) :=
  let! d := gets ca_serversData in
  match listed technology protocol obfuscated virtualLocation group_entries (se_Servers d) with
  | Ok l => ret l | Err e => throw e end.

(** The name of the country with this code or name, or nothing. *)
Definition CountryCodeToCountryName (code : string) : C string :=
  let! d := gets ca_countryData in
  ret (default "" (co_Name <$> List.find (fun c => bool_decide (co_Code c = code) || bool_decide (co_Name c = code)) (cd_Countries d))).
End Manager.
