(* ===== verification/CacheProps.v ===== *)
(** * CacheProps: properties of the cached data

    What was cached is there after a restart; the servers of the cache are those of the
    API with their keys, distances and penalties, in the order of the penalties; what is
    listed to the user. *)

From stdpp Require Import base option list strings pretty gmap sorting.
From Stdlib Require Import ZArith SpecFloat Ascii Lia.
From S2P Require Import Prelude GoLib Config Servers ServersProps Auth Kernel Transfers GoText Machine Geo Cache.
Set Warnings "-clear-no-such-hyp".

Open Scope Z_scope.
Open Scope go_scope.

(** ** A restart *)

Class PathLaws `{CachePaths} : Prop := {
  paths_distinct : NoDup [countryFilePath; insightsFilePath; serversFilePath; versionFilePath; OvpnTemplatePath; OvpnObfsTemplatePath];
  paths_absolute : Forall (fun p => has_prefix "/" (filepath_Dir p) = true)
    [countryFilePath; insightsFilePath; serversFilePath; versionFilePath; OvpnTemplatePath; OvpnObfsTemplatePath]
}.

Inductive Kind : Type := KCountries | KInsights | KServers | KVersion.
#[export] Instance Kind_eq_dec : EqDecision Kind.
Proof. solve_decision. Defined.

(** Everything that writes the cache. *)
Inductive CacheOp : Type :=
| CaSetInsights (insights : Insights)
| CaSetCountries (updatedAt : Z) (countries : list Country) (hash : string)
| CaSetServers (updatedAt : Z) (servers : list Server) (hash : string)
| CaUpdatePenalty (s : Server)
| CaSetStatus (s : Server) (status : string)
| CaSetVersion (version : Version) (newer : bool)
| CaJobServers (validate : bool)
| CaJobCountries
| CaJobInsights (downloader : bool)
| CaJobServerCheck (s : Server)
| CaJobTemplate (obfuscated : bool)
| CaJobVersion (current : Version).

Section Restart.
Context {T : Type} `{System T} `{CacheEnv T} `{PathLaws} `{Math}.
Context `{GobLaws CountryData no_countries} `{GobLaws Insights no_insights} `{GobLaws ServersData no_servers}.
Context `{GobLaws Version no_version}.
Abbreviation C := (M (DataManager T)).
Implicit Type s : DataManager T.
Implicit Type m : Machine T.

(** No call fails and no file is immutable. *)
Definition calm m : Prop := mc_faults m = [] /\ forall p n, node p m = Some n -> fn_Immutable n = false.

Definition in_file {A} `{Gob A} `{Flat A} (zero : A) (path : string) (x : A) m : Prop :=
  exists n, node path m = Some n /\ gob_Decode (fn_Content n) zero = Ok (flat x).

Definition path_of (k : Kind) : string :=
  match k with KCountries => countryFilePath | KInsights => insightsFilePath | KServers => serversFilePath | KVersion => versionFilePath end.

(** The file of the kind has what the memory has. *)
Definition saved (k : Kind) s : Prop :=
  match k with
  | KCountries => in_file no_countries countryFilePath (ca_countryData s) (ca_machine s)
  | KInsights => in_file no_insights insightsFilePath (ca_insightsData s) (ca_machine s)
  | KServers => in_file no_servers serversFilePath (ca_serversData s) (ca_machine s)
  | KVersion => in_file no_version versionFilePath (vd_version (ca_versionData s)) (ca_machine s)
  end.

Definition save (k : Kind) : C unit :=
  match k with KCountries => save_countries | KInsights => save_insights | KServers => save_servers | KVersion => save_version end.

Lemma immutable_calm p m : calm m -> immutable p m = false.
Proof. intros [_ Hc]. unfold immutable. destruct (node p m) as [n|] eqn:Hn; [by apply (Hc p)|done]. Qed.

(** A write: the file has the text, the others are as they were. *)
Lemma write_calm p data perm m :
  calm m -> has_prefix "/" (filepath_Dir p) = true ->
  exists m', FileWrite p data perm m = (Ok tt, m') /\ calm m' /\ (exists n, node p m' = Some n /\ fn_Content n = data) /\
    forall q, q <> p -> node q m' = node q m.
Proof.
  intros Hc Hp. pose proof (immutable_calm p m Hc) as Hi. destruct Hc as [Hf Hc]. rewrite FileWrite_run, Hi by done.
  eexists. split; [done|]. unfold calm, node in *. cbn. split_and!.
  - done.
  - intros q n Hq. apply lookup_insert_Some in Hq as [[<- <-]|[_ Hq]]; [|by apply (Hc q)].
    unfold written, immutable, node in *. destruct (mc_files m !! p); cbn; [done|done].
  - eexists. split; [by rewrite lookup_insert_eq|done].
  - intros q Hq. by rewrite lookup_insert_ne.
Qed.

Lemma save_data_run {A} `{Gob A} `{Flat A} (zero x : A) `{!GobLaws A zero} path m :
  calm m -> has_prefix "/" (filepath_Dir path) = true ->
  exists m', save_data path x m = (Ok tt, m') /\ calm m' /\ in_file zero path x m' /\ forall q, q <> path -> node q m' = node q m.
Proof.
  intros Hc Hp. unfold save_data. destruct (gob_encodes x) as [text Ht]. rewrite Ht.
  destruct (write_calm path text PermUserRWGroupROthersR m Hc Hp) as (m' & -> & Hc' & (n & Hn & Htext) & Hq).
  exists m'. split_and!; [done|done| |done]. exists n. split; [done|]. rewrite Htext. by apply gob_decodes.
Qed.

Lemma absolute k : has_prefix "/" (filepath_Dir (path_of k)) = true.
Proof. pose proof paths_absolute as Hp. repeat (apply Forall_cons in Hp as [? Hp]). by destruct k. Qed.

Lemma path_inj k k' : k <> k' -> path_of k <> path_of k'.
Proof.
  intros Hk. pose proof paths_distinct as Hd. repeat (apply NoDup_cons in Hd as [? Hd]).
  destruct k, k'; try done; cbn; intros He; set_solver.
Qed.

Lemma in_file_frame {A} `{Gob A} `{Flat A} (zero x y : A) path m m' :
  node path m' = node path m -> y = x -> in_file zero path x m -> in_file zero path y m'.
Proof. intros Hn -> (n & Hp & Hd). exists n. by rewrite Hn. Qed.

(** What is saved of the memory. *)
Definition cached_data s : CountryData * Insights * ServersData * Version :=
  (ca_countryData s, ca_insightsData s, ca_serversData s, vd_version (ca_versionData s)).

(** What the files have of it. *)
Definition flat_data (d : CountryData * Insights * ServersData * Version) : CountryData * Insights * ServersData * Version :=
  (flat d.1.1.1, flat d.1.1.2, flat d.1.2, flat d.2).

Lemma saved_frame k s s' :
  saved k s -> node (path_of k) (ca_machine s') = node (path_of k) (ca_machine s) -> cached_data s' = cached_data s -> saved k s'.
Proof. intros Hs Hn [= Hc Hi Hse Hv]. destruct k; (eapply in_file_frame; [exact Hn| |exact Hs]); done. Qed.

(** Saving a kind: it is saved, and what else was saved still is. *)
Definition keeps_saved k s s' : Prop := calm (ca_machine s') /\ saved k s' /\ forall k', k' <> k -> saved k' s -> saved k' s'.

Lemma save_data_kind {A} `{Gob A} `{Flat A} (zero : A) `{!GobLaws A zero} k x s :
  calm (ca_machine s) -> (forall m', in_file zero (path_of k) x m' -> saved k (s <| ca_machine := m' |>)) ->
  exists s', on_machine (save_data (path_of k) x) s = (Ok tt, s') /\ keeps_saved k s s'.
Proof.
  intros Hc Hm.
  destruct (save_data_run zero x (path_of k) (ca_machine s) Hc (absolute k)) as (m' & Hr & Hc' & Hf & Hq).
  unfold on_machine, zoom. rewrite Hr. exists (s <| ca_machine := m' |>). split; [done|]. split_and!; [exact Hc'|by apply Hm|].
  intros k' Hk Hs. apply (saved_frame k' s); [done| |done]. by apply Hq, path_inj.
Qed.

Lemma save_run k s : calm (ca_machine s) -> exists s', save k s = (Ok tt, s') /\ keeps_saved k s s'.
Proof.
  intros Hc. destruct k.
  - by apply (save_data_kind no_countries KCountries (ca_countryData s)).
  - by apply (save_data_kind no_insights KInsights (ca_insightsData s)).
  - by apply (save_data_kind no_servers KServers (ca_serversData s)).
  - by apply (save_data_kind no_version KVersion (vd_version (ca_versionData s))).
Qed.

(** Something else than the kind changes in the memory. *)
Definition only_kind k (f : DataManager T -> DataManager T) : Prop :=
  forall s, ca_machine (f s) = ca_machine s /\ forall k', k' <> k -> saved k' s -> saved k' (f s).

Lemma update_save k f s : only_kind k f -> calm (ca_machine s) ->
  exists s', bind (modify f) (fun _ => save k) s = (Ok tt, s') /\ keeps_saved k s s'.
Proof.
  intros Hf Hc. rewrite bind_modify. destruct (Hf s) as [Hm Hk].
  assert (Hc2 : calm (ca_machine (f s))) by by rewrite Hm.
  destruct (save_run k (f s) Hc2) as (s' & -> & Hc' & Hs & Ho).
  exists s'. split; [done|]. split; [exact Hc'|]. split; [exact Hs|]. intros k' Hk' Hs'. by apply Ho, Hk.
Qed.

(** The invariant: these kinds are saved. *)
Definition keeps_kinds (P : Kind -> Prop) s : Prop := calm (ca_machine s) /\ forall k, P k -> saved k s.

Lemma keeps_frame P s s' : keeps_kinds P s -> calm (ca_machine s') ->
  (forall k, node (path_of k) (ca_machine s') = node (path_of k) (ca_machine s)) -> cached_data s' = cached_data s -> keeps_kinds P s'.
Proof. intros [Hc Hs] Hc' Hn Hd. split; [done|]. intros k Hk. by apply (saved_frame k s); [apply Hs| |]. Qed.

Lemma preserves_update k P f : only_kind k f -> preserves (keeps_kinds P) (bind (modify f) (fun _ => save k)).
Proof.
  intros Hf s [Hc Hs]. destruct (update_save k f s Hf Hc) as (s' & -> & Hc' & Hk & Ho). split; [done|]. intros k' Hp.
  destruct (decide (k' = k)) as [->|Hne]; [done|by apply Ho, Hs].
Qed.

(** *** The operations *)

Definition ca_step (op : CacheOp) : C unit :=
  match op with
  | CaSetInsights insights => SetInsightsData insights
  | CaSetCountries updatedAt countries hash => SetCountryData updatedAt countries hash
  | CaSetServers updatedAt servers hash => SetServersData updatedAt servers hash
  | CaUpdatePenalty x => UpdateServerPenalty x
  | CaSetStatus x status => SetServerStatus x status
  | CaSetVersion version newer => SetVersionData version newer
  | CaJobServers validate => JobServers validate
  | CaJobCountries => JobCountries
  | CaJobInsights downloader => ignore (JobInsights downloader)
  | CaJobServerCheck x => JobServerCheck x
  | CaJobTemplate obfuscated => getTemplate obfuscated
  | CaJobVersion current => JobVersionCheck current
  end.

Fixpoint ca_run (ops : list CacheOp) s : DataManager T :=
  match ops with [] => s | op :: ops' => ca_run ops' (ca_step op s).2 end.

(** The operation writes the kind. *)
Definition writes (k : Kind) (op : CacheOp) : bool :=
  match k, op with
  | KInsights, CaSetInsights _ | KCountries, CaSetCountries _ _ _ | KServers, CaSetServers _ _ _ | KVersion, CaSetVersion _ _
  | KServers, CaUpdatePenalty _ | KServers, CaSetStatus _ _ => true
  | _, _ => false
  end.

Lemma ca_keeps_env {A} P (m : M T A) : preserves (keeps_kinds P) (on_env m).
Proof.
  intros s Hs. unfold on_env, on_machine, on_sys, zoom. destruct (m _) as [r t]. by apply (keeps_frame P s); [|apply Hs|..].
Qed.

Lemma keeps_exists P p : preserves (keeps_kinds P) (on_machine (FileExists p)).
Proof. intros s Hs. unfold on_machine, zoom. rewrite FileExists_run by apply Hs. by apply (keeps_frame P s); [|apply Hs|..]. Qed.

Lemma FileRead_missing p m : mc_faults m = [] -> node p m = None -> FileRead p m = (Err (Sentinel ErrNotExist), m).
Proof. intros Hf Hn. unfold FileRead, os_ReadFile. rewrite with_node_run by done. by rewrite Hn. Qed.

Lemma keeps_read P p : preserves (keeps_kinds P) (on_machine (FileRead p)).
Proof.
  intros s Hs. unfold on_machine, zoom. destruct (node p (ca_machine s)) as [n|] eqn:Hn.
  - rewrite (FileRead_run _ _ n) by (done || apply Hs). by apply (keeps_frame P s); [|apply Hs|..].
  - rewrite FileRead_missing by (done || apply Hs). by apply (keeps_frame P s); [|apply Hs|..].
Qed.

Definition template_path (obfuscated : bool) : string := if obfuscated then OvpnObfsTemplatePath else OvpnTemplatePath.

Lemma keeps_template P o text : preserves (keeps_kinds P) (on_machine (FileWrite (template_path o) text PermUserRW)).
Proof.
  intros s Hs. pose proof paths_absolute as Ha. repeat (apply Forall_cons in Ha as [? Ha]).
  destruct (write_calm (template_path o) text PermUserRW (ca_machine s) (proj1 Hs)) as (m' & Hw & Hc' & _ & Hq); [by destruct o|].
  unfold on_machine, zoom. rewrite Hw. apply (keeps_frame P s); [done|exact Hc'| |done]. intros k. apply Hq.
  pose proof paths_distinct as Hd. repeat (apply NoDup_cons in Hd as [? Hd]). intros He. destruct k, o; cbn in *; set_solver.
Qed.

Ltac other_kinds := by intros s; split; [done|]; intros [] Hk Hs.

Lemma only_countries d : only_kind KCountries (fun s => s <| ca_countryData := d |>). Proof. other_kinds. Qed.
Lemma only_insights d : only_kind KInsights (fun s => s <| ca_insightsData := d |>). Proof. other_kinds. Qed.
Lemma only_servers d : only_kind KServers (fun s => s <| ca_serversData := d s |>). Proof. other_kinds. Qed.
Lemma only_version d : only_kind KVersion (fun s => s <| ca_versionData := d |>). Proof. other_kinds. Qed.

Definition changed (f : list Server -> list Server) s : ServersData := (ca_serversData s) <| se_Servers := f (se_Servers (ca_serversData s)) |>.

Lemma keeps_SetVersionData P v b : preserves (keeps_kinds P) (SetVersionData v b).
Proof. intros s Hs. apply (preserves_update KVersion P _ (only_version (mkVersionData v b)) s Hs). Qed.

Lemma keeps_SetInsightsData P i : preserves (keeps_kinds P) (SetInsightsData i).
Proof. apply (preserves_update KInsights), (only_insights i). Qed.

Lemma keeps_SetCountryData P t l h : preserves (keeps_kinds P) (SetCountryData t l h).
Proof. apply (preserves_update KCountries), (only_countries (mkCountryData t l h)). Qed.

Lemma keeps_change_servers P f : preserves (keeps_kinds P) (change_servers f).
Proof. apply (preserves_update KServers), (only_servers (changed f)). Qed.

Lemma SetServersData_run t l h s : calm (ca_machine s) ->
  exists s', SetServersData t l h s = (Ok tt, s' <| ca_updates := S (ca_updates s') |>) /\ keeps_saved KServers s s'.
Proof.
  intros Hc. destruct (update_save KServers _ s (only_servers (fun _ => mkServersData t l h)) Hc) as (s' & Hr & Hk).
  exists s'. split; [|done]. unfold SetServersData. rewrite bind_modify in Hr |- *. unfold bind at 1. cbn [save] in Hr. by rewrite Hr.
Qed.

Lemma saved_updates k s n : saved k s -> saved k (s <| ca_updates := n |>).
Proof. by destruct k. Qed.

Lemma keeps_SetServersData P t l h : preserves (keeps_kinds P) (SetServersData t l h).
Proof.
  intros s [Hc Hs]. destruct (SetServersData_run t l h s Hc) as (s' & -> & Hc' & Hk & Ho). split; [done|]. intros k Hp. apply saved_updates.
  destruct (decide (k = KServers)) as [->|Hne]; [exact Hk|]. by apply Ho, Hs.
Qed.

#[local] Hint Resolve keeps_SetVersionData keeps_SetInsightsData keeps_SetCountryData keeps_change_servers keeps_SetServersData
  ca_keeps_env keeps_exists keeps_read : pres.

Lemma ca_keeps_step P op : preserves (keeps_kinds P) (ca_step op).
Proof.
  destruct op; cbn [ca_step];
    unfold JobServers, JobCountries, JobInsights, JobServerCheck, getTemplate, JobVersionCheck, UpdateServerPenalty, SetServerStatus,
      IsCountryDataValid, IsServersDataValid, CountryDataExists, ServerDataExists, GetInsightsData, GetVersionData, now; pres_auto.
  all: fold (template_path obfuscated); apply keeps_template.
Qed.

(** A write saves its kind. *)
Lemma saves_step k op s : writes k op = true -> calm (ca_machine s) -> saved k (ca_step op s).2.
Proof.
  intros Hw Hc.
  assert (Hu : forall f, only_kind k f -> saved k (bind (modify f) (fun _ => save k) s).2).
  { intros f Hf. by destruct (update_save k f s Hf Hc) as (s' & -> & Hc' & Hk & _). }
  destruct k, op; try discriminate Hw; cbn [ca_step].
  - apply (Hu _ (only_countries (mkCountryData updatedAt countries hash))).
  - apply (Hu _ (only_insights insights)).
  - destruct (SetServersData_run updatedAt servers hash s Hc) as (s' & -> & Hc' & Hk & _). exact Hk.
  - apply (Hu _ (only_servers (changed _))).
  - apply (Hu _ (only_servers (changed _))).
  - apply (Hu _ (only_version (mkVersionData version newer))).
Qed.

Lemma run_saves ops s k : calm (ca_machine s) -> saved k s \/ Exists (fun op => writes k op = true) ops ->
  calm (ca_machine (ca_run ops s)) /\ saved k (ca_run ops s).
Proof.
  revert s. induction ops as [|op ops IH]; intros s Hc Hk; cbn [ca_run].
  - destruct Hk as [Hk|Hk]; [done|by apply Exists_nil in Hk].
  - apply IH; [apply (ca_keeps_step (fun _ => False) op s); by split|].
    destruct Hk as [Hk|Hk]; [left|apply Exists_cons in Hk as [Hk|Hk]; [left; by apply saves_step|by right]].
    apply (ca_keeps_step (eq k) op s); [|done]. split; [done|]. by intros ? <-.
Qed.

(** *** Loading *)

Lemma load_run {A} `{Gob A} `{Flat A} (zero x : A) path m : calm m -> in_file zero path x m -> load_data path zero m = (Ok (flat x), m).
Proof.
  intros [Hf _] (n & Hn & Hd). unfold load_data. rewrite (bind_Ok _ _ _ _ _ (FileRead_run _ _ _ Hf Hn)). by rewrite Hd.
Qed.

Lemma LoadData_saved m s : calm m -> ca_machine s = m -> (forall k, saved k s) ->
  exists s', LoadData (NewDataManager m) = (Ok tt, s') /\ ca_machine s' = m /\ cached_data s' = flat_data (cached_data s) /\
    vd_newerVersionAvailable (ca_versionData s') = false.
Proof.
  intros Hc Hm Hs.
  assert (Hl : forall A (G : Gob A) (F : Flat A) (zero x : A) pre path (get : DataManager T -> A) put (s0 : DataManager T),
    ca_machine s0 = m -> get s0 = zero -> in_file zero path x m ->
    wrapped pre (load_into get put path) "" s0 = (Ok tt, put (flat x) s0)).
  { intros A G F zero x pre path get put s0 H1m Hg Hin. unfold wrapped, load_into. rewrite bind_gets, Hg. unfold bind, on_machine, zoom.
    rewrite H1m, (load_run zero x path m Hc Hin). unfold modify. do 3 f_equal. rewrite <- H1m. by destruct s0. }
  pose proof (Hs KCountries) as S1. pose proof (Hs KInsights) as S2. pose proof (Hs KServers) as S3. pose proof (Hs KVersion) as S4.
  cbn [saved] in S1, S2, S3, S4. rewrite Hm in S1, S2, S3, S4. unfold LoadData.
  erewrite bind_Ok by (eapply Hl; [done|done|exact S1]).
  erewrite bind_Ok by (eapply Hl; [done|done|exact S2]).
  erewrite bind_Ok by (eapply Hl; [done|done|exact S3]).
  erewrite Hl by (done || exact S4).
  eexists. split; [done|]. by destruct s as [? ? ? [] ? ?].
Qed.

(** *** Two jobs that undo what they did *)

Lemma SetVersionData_data v b s : ca_versionData (SetVersionData v b s).2 = mkVersionData v b.
Proof.
  unfold SetVersionData. rewrite bind_modify. unfold ignore, save_version, save_data, on_machine, zoom. rewrite bind_gets. cbn.
  by destruct (gob_Encode v); [destruct (FileWrite _ _ _ _)|].
Qed.

(** The cached version is newer, which [JobVersionCheck] stores first; when the request
    for the versions then fails it stores that none is. *)
Lemma version_flag_lost current s e :
  semver_LessThan (T := T) current (vd_version (ca_versionData s)) = true -> vd_newerVersionAvailable (ca_versionData s) = false ->
  (forall t, (repo_Versions t).1 = Err e) ->
  vd_newerVersionAvailable (ca_versionData (JobVersionCheck current s).2) = false.
Proof.
  intros Hl Hn He. unfold JobVersionCheck, GetVersionData. rewrite bind_gets, Hl, Hn. cbn [when].
  assert (Hs : forall v b s1, SetVersionData v b s1 = (Ok tt, (SetVersionData v b s1).2)) by (intros; by unfold SetVersionData; rewrite bind_modify).
  rewrite (bind_Ok _ _ _ _ _ (Hs _ _ _)). generalize (SetVersionData (vd_version (ca_versionData s)) true s).2. intros s1.
  unfold attempt, on_env, on_machine, on_sys, zoom, bind. specialize (He (mc_sys (ca_machine s1))).
  destruct (repo_Versions _) as [r t]. cbn in He. subst r.
  exact (f_equal vd_newerVersionAvailable (SetVersionData_data _ _ _)).
Qed.

(** C21: what the daemon cached is there after a restart. On a machine on which no
    call fails and no file is immutable, after any operations and jobs, and when every
    one of the four kinds of data was in its file at the start or was written since
    (the loading stops at the first file that is missing), a new daemon loads without
    an error the countries, the location, the servers and the version the old one had
    in memory, save that a negative zero is zero and a pointer to zero is nil. That a
    newer version is available is not saved. *)
Theorem cache_survives_restart (ops : list CacheOp) s
    (Hcalm : calm (ca_machine s)) (Hall : forall k, saved k s \/ Exists (fun op => writes k op = true) ops) :
  exists s', LoadData (NewDataManager (ca_machine (ca_run ops s))) = (Ok tt, s') /\
    ca_machine s' = ca_machine (ca_run ops s) /\ cached_data s' = flat_data (cached_data (ca_run ops s)) /\
    vd_newerVersionAvailable (ca_versionData s') = false.
Proof.
  assert (Hc : calm (ca_machine (ca_run ops s))) by by destruct (run_saves ops s KVersion Hcalm (Hall _)).
  apply (LoadData_saved _ _ Hc eq_refl). intros k. by destruct (run_saves ops s k Hcalm (Hall k)).
Qed.
End Restart.

(** ** Running extremes *)

#[export] Instance flip_laws {A} (less : A -> A -> bool) P `{!LessLaws less P} : LessLaws (flip less) P.
Proof.
  split; unfold flip; intros; [by apply (less_asym less y x)|].
  by apply (less_cotrans less z y x).
Qed.

#[export] Instance Z_ltb_laws : LessLaws Z.ltb (fun _ => True).
Proof. split; intros; lia. Qed.

Section Running.
Context {A B : Type} (key : A -> B) (less : B -> B -> bool).

Definition running (best : B) (x : A) : B := if less (key x) best then key x else best.

Lemma running_from l b : let b' := fold_left running l b in b' = b \/ Exists (fun x => key x = b') l.
Proof.
  revert b. induction l as [|x l IH]; intros b; cbn in *; [by left|].
  destruct (IH (running b x)) as [He|He]; [|right; by right]. rewrite He. unfold running.
  destruct (less (key x) b); [right; by left|by left].
Qed.

Lemma running_attained x l : Exists (fun y => key y = fold_left running (x :: l) (key x)) (x :: l).
Proof. destruct (running_from (x :: l) (key x)) as [He|He]; [left; by rewrite He|done]. Qed.

Context (P : B -> Prop) `{!LessLaws less P}.

Lemma running_fold_least l b : P b -> Forall (fun x => P (key x)) l ->
  let b' := fold_left running l b in less b b' = false /\ Forall (fun x => less (key x) b' = false) l.
Proof.
  revert b. induction l as [|x l IH]; intros b Hb Hl; cbn.
  - split; [|done]. destruct (less b b) eqn:E; [|done]. by rewrite (less_asym less b b) in E.
  - apply Forall_cons in Hl as [Hx Hl]. assert (Hr : P (running b x)) by (unfold running; by destruct (less _ _)).
    destruct (IH (running b x) Hr Hl) as [H1 H2].
    assert (H3 : P (fold_left running l (running b x))).
    { clear IH H1 H2. revert Hr. generalize (running b x). induction l as [|y l IH]; intros c Hc; cbn; [done|].
      apply Forall_cons in Hl as [Hy Hl]. apply IH; [done|]. unfold running. by destruct (less _ _). }
    destruct (less (key x) b) eqn:E; unfold running in H1 at 1; rewrite E in H1.
    + split; [|by constructor]. apply (less_cotrans less b (key x)); [done..| |done]. by apply (less_asym less).
    + split; [done|]. constructor; [|done]. by apply (less_cotrans less (key x) b).
Qed.

Lemma running_least x l : Forall (fun y => P (key y)) (x :: l) ->
  Forall (fun y => less (key y) (fold_left running (x :: l) (key x)) = false) (x :: l).
Proof. intros Hl. apply running_fold_least; [by apply Forall_cons in Hl as [? _]|done]. Qed.
End Running.

(** ** The servers of the cache *)

Section Scores.
Context `{Math} (ins : Insights).

(** What the first loop needs of a server. *)
Definition ready (server : Server) : bool :=
  match head (srv_Locations server) with Some _ => is_ok (created_unix server) | None => false end.

(** The server with its keys, its age and its distance. *)
Definition prepared (server : Server) : Server :=
  match head (srv_Locations server), created_unix server with
  | Some country, Ok timestamp =>
      server <| srv_Keys := generateKeys server country |> <| srv_Timestamp := timestamp |>
             <| srv_Distance := distance_to ins country |>
  | _, _ => server
  end.

Definition widen_by (mm : MinMax) (server : Server) : MinMax := widen mm (srv_Timestamp server) (srv_Distance server).

Lemma prepare_servers_ready servers mm : forallb ready servers = true ->
  prepare_servers ins servers mm = Ok (map prepared servers, fold_left widen_by (map prepared servers) mm).
Proof.
  revert mm. induction servers as [|x servers IH]; intros mm Hr; cbn in *; [done|]. apply andb_true_iff in Hr as [Hx Hr].
  unfold ready in Hx.
  destruct (head (srv_Locations x)) as [c|] eqn:Ec; [|done]. destruct (created_unix x) as [t|] eqn:Et; [|done]. rewrite IH by done.
  assert (Hp : prepared x = x <| srv_Keys := generateKeys x c |> <| srv_Timestamp := t |> <| srv_Distance := distance_to ins c |>)
    by (unfold prepared; by rewrite Ec, Et).
  by rewrite Hp.
Qed.

Lemma prepare_servers_not_ready servers mm : forallb ready servers = false -> is_ok (prepare_servers ins servers mm) = false.
Proof.
  revert mm. induction servers as [|x servers IH]; intros mm Hr; cbn in *; [done|]. unfold ready in Hr at 1.
  destruct (head (srv_Locations x)) as [c|]; [|done]. destruct (created_unix x) as [t|]; [|done]. cbn in Hr.
  specialize (IH (widen mm t (distance_to ins c)) Hr). by destruct (prepare_servers _ _ _) as [[]|].
Qed.

Definition initial (server : Server) : MinMax :=
  mkMinMax (srv_Timestamp server) (srv_Timestamp server) (srv_Distance server) (srv_Distance server).

Lemma initial_minmax_ready first : ready first = true -> initial_minmax ins first = Ok (initial (prepared first)).
Proof.
  unfold ready, initial_minmax, prepared, initial. destruct (head (srv_Locations first)); [|done]. by destruct (created_unix first).
Qed.

(** The extremes over servers. *)
Definition minmax_of (servers : list Server) : MinMax :=
  match servers with [] => mkMinMax 0 0 zero_float zero_float | first :: _ => fold_left widen_by servers (initial first) end.

Lemma score_servers_ready r servers : servers <> [] -> forallb ready servers = true ->
  score_servers ins r servers =
    Ok (sort_SliceStable less_penalty (map (score_server ins (minmax_of (map prepared servers)) r) (map prepared servers))).
Proof.
  intros Hne Hr. destruct servers as [|x servers]; [done|]. pose proof Hr as Hr2. cbn in Hr2. apply andb_true_iff in Hr2 as [Hx _].
  unfold score_servers. rewrite initial_minmax_ready, prepare_servers_ready by done. done.
Qed.

Lemma score_servers_not_ready r servers : forallb ready servers = false -> is_ok (score_servers ins r servers) = false.
Proof.
  intros Hr. destruct servers as [|x servers]; [done|]. unfold score_servers. destruct (initial_minmax ins x); [|done].
  pose proof (prepare_servers_not_ready (x :: servers) a Hr) as Hp. by destruct (prepare_servers ins (x :: servers) a) as [[]|].
Qed.

(** The extremes are those of servers, and nothing is outside. *)
Definition extremes (mm : MinMax) (l : list Server) : Prop :=
  Forall (fun x => mm_tmin mm <= srv_Timestamp x <= mm_tmax mm) l /\
  Exists (fun x => srv_Timestamp x = mm_tmin mm) l /\ Exists (fun x => srv_Timestamp x = mm_tmax mm) l /\
  (Forall (fun x => is_nan (srv_Distance x) = false) l ->
   Forall (fun x => f_ltb (srv_Distance x) (mm_dmin mm) = false /\ f_ltb (mm_dmax mm) (srv_Distance x) = false) l) /\
  Exists (fun x => srv_Distance x = mm_dmin mm) l /\ Exists (fun x => srv_Distance x = mm_dmax mm) l.

Lemma minmax_fold l mm :
  fold_left widen_by l mm =
    mkMinMax (fold_left (running srv_Timestamp Z.ltb) l (mm_tmin mm)) (fold_left (running srv_Timestamp (flip Z.ltb)) l (mm_tmax mm))
             (fold_left (running srv_Distance f_ltb) l (mm_dmin mm)) (fold_left (running srv_Distance (flip f_ltb)) l (mm_dmax mm)).
Proof. revert mm. induction l as [|x l IH]; intros []; cbn; [done|]. by rewrite IH. Qed.

Lemma minmax_extremes l : l <> [] -> extremes (minmax_of l) l.
Proof.
  intros Hl. destruct l as [|x l]; [done|]. unfold minmax_of. rewrite minmax_fold. unfold extremes. cbn [mm_tmin mm_tmax mm_dmin mm_dmax initial].
  split_and!; try by apply running_attained.
  - apply Forall_and. split.
    + eapply Forall_impl; [apply (running_least srv_Timestamp Z.ltb (fun _ => True)); by apply Forall_true|]. intros y Hy. by apply Z.ltb_ge.
    + eapply Forall_impl; [apply (running_least srv_Timestamp (flip Z.ltb) (fun _ => True)); by apply Forall_true|]. intros y Hy. by apply Z.ltb_ge.
  - intros Hd. apply Forall_and. split; [by apply (running_least srv_Distance f_ltb _)|].
    by apply (running_least srv_Distance (flip f_ltb) _).
Qed.
#[local] Instance penalty_laws : LessLaws less_penalty (fun x => is_nan (srv_Penalty x) = false).
Proof.
  split; unfold less_penalty; intros x y; [|intros z].
  - exact (less_asym f_ltb _ _).
  - exact (less_cotrans f_ltb _ _ _).
Qed.

(** *** What the list has to be

    Stated without the functions of the job. *)

(** The way along the great circle in meters. *)
Definition great_circle (lat1 lon1 lat2 lon2 : float64) : float64 :=
  let rad x := f_div (f_mul x math_Pi) (f_of_Z 180) in
  let between := f_add (f_mul (math_Sin (rad lat1)) (math_Sin (rad lat2)))
                       (f_mul (f_mul (math_Cos (rad lat1)) (math_Cos (rad lat2))) (math_Cos (rad (f_sub lon2 lon1)))) in
  f_mul (math_Acos between) (f_of_Z 6371000).

(** What a server is found by: its country and city by name, the code of the country,
    which is uk for the United Kingdom, the first label of its host and its groups. *)
Inductive code_of (country : Country) : string -> Prop :=
| code_uk : SnakeCase (co_Code country) = "gb" -> code_of country "uk"
| code_other : SnakeCase (co_Code country) <> "gb" -> code_of country (SnakeCase (co_Code country)).

Inductive key_of (x : Server) (country : Country) : string -> Prop :=
| key_country : key_of x country (SnakeCase (co_Name country))
| key_city : key_of x country (SnakeCase (city_Name (co_City country)))
| key_country_city : key_of x country (SnakeCase (co_Name country) +:+ " " +:+ SnakeCase (city_Name (co_City country)))
| key_code code : code_of country code -> key_of x country code
| key_code_city code : code_of country code -> key_of x country (code +:+ " " +:+ SnakeCase (city_Name (co_City country)))
| key_host label labels : split_char "." (srv_Hostname x) = label :: labels -> key_of x country (str_lower label)
| key_group g : g ∈ srv_Groups x -> key_of x country (SnakeCase (gr_Title g)).

(** How old an obfuscated server is, from the oldest at 1 to the newest at 0.85. *)
Definition age_part (tmin tmax : Z) (x : Server) (created : Z) (part : float64) : Prop :=
  (obfuscates x /\
   part = f_add (f_mul (SFopp (f_ratio 15 100))
                   (math_Pow (f_div (f_sub (f_of_Z created) (f_of_Z tmin)) (f_sub (f_of_Z tmax) (f_of_Z tmin))) (f_of_Z 7)))
            (f_of_Z 1)) \/
  (~ obfuscates x /\ part = f_of_Z 0).

(** The server [y] of the list for the server [x] of the API: [x] with its keys, age,
    distance and penalty.  The penalty is 0.7 times the root of where the distance lies
    between the nearest and the farthest, the random part and that of the age, less the
    score of the hub in another country; and the load. *)
Definition listed_as (mm : MinMax) (r : float64) (x y : Server) : Prop :=
  exists country created part,
    head (srv_Locations x) = Some country /\ time_Parse (srv_CreatedAt x) = Some created /\
    srv_Timestamp y = created / 1000000000 /\
    srv_Distance y = great_circle (ins_Latitude ins) (ins_Longitude ins)
                       (city_Latitude (co_City country)) (city_Longitude (co_City country)) /\
    (forall key, key ∈ srv_Keys y <-> key_of x country key) /\
    age_part (mm_tmin mm) (mm_tmax mm) x (srv_Timestamp y) part /\
    srv_PartialPenalty y =
      f_sub (f_add (f_add
        (f_mul (f_ratio 7 10)
           (math_Pow (f_div (f_sub (srv_Distance y) (mm_dmin mm)) (f_sub (mm_dmax mm) (mm_dmin mm))) (f_ratio 5 10))) r) part)
        (f_mul (f_of_Z (if decide (ins_CountryCode ins = co_Code country) then 0 else 1))
           (default (f_of_Z 0) (city_HubScore (co_City country)))) /\
    srv_Penalty y = f_add (srv_PartialPenalty y)
      (math_Pow (f_div (f_of_Z (srv_Load x)) (f_of_Z 10)) (f_div (f_of_Z (srv_Load x)) (f_of_Z 10))) /\
    y = x <| srv_Keys := srv_Keys y |> <| srv_Timestamp := srv_Timestamp y |> <| srv_Distance := srv_Distance y |>
          <| srv_Penalty := srv_Penalty y |> <| srv_PartialPenalty := srv_PartialPenalty y |>.

(** A server with a location and a creation time that can be read. *)
Definition complete (x : Server) : Prop := srv_Locations x <> [] /\ is_Some (time_Parse (srv_CreatedAt x)).

(** No server after another one has the smaller penalty. *)
Definition best_first (l : list Server) : Prop :=
  StronglySorted (fun a b => f_ltb (srv_Penalty b) (srv_Penalty a) = false) l.

Lemma ready_complete x : ready x = true <-> complete x.
Proof.
  unfold ready, complete, created_unix. destruct (srv_Locations x); cbn; [naive_solver|].
  destruct (time_Parse _); cbn; (split; [intros Hr|by intros [_ [? ?]]]); [|done]. split; [done|by eexists].
Qed.

Lemma code_uk_iff country code :
  code_of country code <->
  code = (if bool_decide (SnakeCase (co_Code country) = "gb") then "uk" else SnakeCase (co_Code country)).
Proof.
  case_bool_decide as Hc; (split; [intros []; congruence|intros ->]); by constructor.
Qed.

Lemma split_char_cons c s : exists x l, split_char c s = x :: l.
Proof. pose proof (split_char_nonempty c s). destruct (split_char c s) as [|x l]; [done|by exists x, l]. Qed.

Lemma generated_keys x country key : key ∈ generateKeys x country <-> key_of x country key.
Proof.
  unfold generateKeys. cbv zeta. destruct (split_char_cons "." (srv_Hostname x)) as (label & labels & Hl). rewrite Hl. cbn [head default].
  set (code := if bool_decide _ then _ else _).
  assert (Hc : forall c, code_of country c <-> c = code) by apply code_uk_iff.
  rewrite elem_of_app, !elem_of_cons, list_elem_of_fmap. split.
  - intros [[->|[->|[->|[->|[->|[->|Hn]]]]]]|(g & -> & Hg)].
    + apply key_country.
    + apply key_code. by apply Hc.
    + apply key_country_city.
    + apply key_code_city. by apply Hc.
    + apply key_city.
    + by eapply key_host.
    + by apply not_elem_of_nil in Hn.
    + by apply key_group.
  - intros [| | |c ->%Hc|c ->%Hc|l ls Hls|g Hg]; try (left; tauto).
    + left. rewrite Hl in Hls. injection Hls as <- _. tauto.
    + right. by exists g.
Qed.

Lemma penalty_formula obfuscated d dmin dmax t tmin tmax load user country hub r :
  let partial :=
    f_sub (f_add (f_add (f_mul (f_ratio 7 10) (math_Pow (f_div (f_sub d dmin) (f_sub dmax dmin)) (f_ratio 5 10))) r)
             (obfuscationPenalty obfuscated t tmin tmax))
      (f_mul (f_of_Z (if decide (user = country) then 0 else 1)) (default (f_of_Z 0) hub)) in
  penalty obfuscated d dmin dmax t tmin tmax load user country hub r =
    (f_add partial (math_Pow (f_div (f_of_Z load) (f_of_Z 10)) (f_div (f_of_Z load) (f_of_Z 10))), partial).
Proof.
  unfold penalty, distancePenalty, loadPenalty, hubPenalty, countryPenalty, Alpha, W. cbv zeta.
  case_bool_decide; [rewrite decide_True by assumption|rewrite decide_False by assumption]; reflexivity.
Qed.

Lemma age_part_obfuscation tmin tmax x t : age_part tmin tmax x t (obfuscationPenalty (IsObfuscated x) t tmin tmax).
Proof.
  unfold age_part, obfuscationPenalty, Beta, Lambda, Fi. destruct (IsObfuscated x) eqn:Ho.
  - left. split; [by apply obfuscated_obfuscates|reflexivity].
  - right. split; [|reflexivity]. intros Hb. apply obfuscated_obfuscates in Hb. by rewrite Ho in Hb.
Qed.

Lemma scored_listed mm r x : ready x = true -> listed_as mm r x (score_server ins mm r (prepared x)).
Proof.
  intros [Hl [created Hc]]%ready_complete. unfold prepared, created_unix. rewrite Hc.
  destruct (head (srv_Locations x)) as [country|] eqn:Hh; [|by destruct (srv_Locations x)].
  unfold score_server. rewrite penalty_formula.
  match goal with |- context [obfuscationPenalty (IsObfuscated ?s) ?t _ _] =>
    change (IsObfuscated s) with (IsObfuscated x); change t with (created / 1000000000) end.
  match goal with |- context [head (srv_Locations ?s)] => change (head (srv_Locations s)) with (head (srv_Locations x)) end.
  rewrite Hh. cbn [fmap option_fmap option_map mbind option_bind default].
  exists country, created, (obfuscationPenalty (IsObfuscated x) (created / 1000000000) (mm_tmin mm) (mm_tmax mm)).
  split; [exact Hh|]. split; [exact Hc|]. split; [reflexivity|]. split; [reflexivity|].
  split; [intros key; apply generated_keys|]. split; [apply age_part_obfuscation|].
  split; [reflexivity|]. split; reflexivity.
Qed.

(** The extremes are those of the servers, whatever else changes in them. *)
Lemma extremes_same mm l l' (f : Server -> Server) :
  (forall x, srv_Timestamp (f x) = srv_Timestamp x /\ srv_Distance (f x) = srv_Distance x) -> l' ≡ₚ map f l ->
  extremes mm l -> extremes mm l'.
Proof.
  intros Hf Hl (Ht & Ht1 & Ht2 & Hd & Hd1 & Hd2).
  assert (HF : forall P Q : Server -> Prop, (forall x, P x -> Q (f x)) -> Forall P l -> Forall Q l').
  { intros P Q HPQ HP. eapply Permutation_Forall; [symmetry; exact Hl|]. apply Forall_map. exact (Forall_impl _ _ _ HP HPQ). }
  assert (HF' : forall P Q : Server -> Prop, (forall x, Q (f x) -> P x) -> Forall Q l' -> Forall P l).
  { intros P Q HPQ HP. apply (Permutation_Forall Hl), (proj1 (Forall_map f Q l)) in HP. exact (Forall_impl _ _ _ HP HPQ). }
  assert (HE : forall P Q : Server -> Prop, (forall x, P x -> Q (f x)) -> Exists P l -> Exists Q l').
  { intros P Q HPQ HP. eapply Permutation_Exists; [symmetry; exact Hl|]. apply Exists_map. exact (Exists_impl _ _ _ HP HPQ). }
  split_and!.
  - eapply HF, Ht. intros x. by rewrite (proj1 (Hf x)).
  - eapply HE, Ht1. intros x. by rewrite (proj1 (Hf x)).
  - eapply HE, Ht2. intros x. by rewrite (proj1 (Hf x)).
  - intros Hn. eapply HF; [|apply Hd; eapply HF'; [|exact Hn]]; intros x; cbv beta; by rewrite (proj2 (Hf x)).
  - eapply HE, Hd1. intros x. by rewrite (proj2 (Hf x)).
  - eapply HE, Hd2. intros x. by rewrite (proj2 (Hf x)).
Qed.

(** C20: The list [JobServers] makes for the cache.  It fails exactly for an empty list
    and when a server has no location or no creation time that can be read.  Otherwise it
    has, in some order, each server of the API once as it is to be listed: with its keys,
    its creation time, its way from the user and the penalty of the formula for the
    extremes of these times and distances, which servers attain and, when every distance is
    a number, none exceeds.  When every penalty is a number no server has a smaller penalty
    than one before it. *)
Theorem scored_servers r servers :
  match score_servers ins r servers with
  | Ok l =>
      servers <> [] /\ Forall complete servers /\
      exists mm l', extremes mm l /\ l ≡ₚ l' /\ Forall2 (listed_as mm r) servers l' /\
        (Forall (fun x => is_nan (srv_Penalty x) = false) l -> best_first l)
  | Err _ => servers = [] \/ exists x, x ∈ servers /\ ~ complete x
  end.
Proof.
  destruct (forallb ready servers) eqn:Hr.
  - destruct (decide (servers = [])) as [->|Hne]; [by left|]. rewrite score_servers_ready by done.
    split; [done|].
    assert (Hall : Forall (fun x => ready x = true) servers).
    { apply Forall_forall. intros x Hx%list_elem_of_In. exact (proj1 (forallb_forall _ _) Hr x Hx). }
    split; [eapply Forall_impl; [exact Hall|]; intros x; apply ready_complete|].
    set (mm := minmax_of (map prepared servers)).
    exists mm, (map (fun x => score_server ins mm r (prepared x)) servers). split_and!.
    + eapply (extremes_same mm (map prepared servers) _ (score_server ins mm r)); [|apply sort_perm|].
      * intros x. unfold score_server. by destruct (penalty _ _ _ _ _ _ _ _ _ _ _).
      * apply minmax_extremes. by destruct servers.
    + by rewrite sort_perm, map_map.
    + apply Forall2_fmap_r, Forall_Forall2_diag. eapply Forall_impl; [exact Hall|]. intros x. apply scored_listed.
    + intros Hn. rewrite sort_perm in Hn. by apply (sort_sorted _ _).
  - pose proof (score_servers_not_ready r servers Hr) as He. destruct (score_servers ins r servers); [done|]. right.
    clear -Hr. induction servers as [|x servers IH]; [done|]. cbn in Hr. apply andb_false_iff in Hr as [Hx|Hr].
    + exists x. split; [by left|]. intros Hc. apply ready_complete in Hc. by rewrite Hx in Hc.
    + destruct (IH Hr) as (y & Hy & Hny). exists y. split; [by right|done].
Qed.

Lemma running_same key_ less (l : list Server) (d : float64) : less d d = false -> Forall (fun x => key_ x = d) l ->
  fold_left (running key_ less) l d = d.
Proof. intros Hd. induction l as [|x l IH]; intros Hl; cbn; [done|]. apply Forall_cons in Hl as [Hx Hl]. unfold running at 2. rewrite Hx, Hd. by apply IH. Qed.

Lemma running_stuck key_ less (l : list Server) (d : float64) : (forall x, less x d = false) -> fold_left (running key_ less) l d = d.
Proof. intros Hd. induction l as [|x l IH]; cbn; [done|]. unfold running at 2. by rewrite Hd. Qed.

Lemma penalty_nan_min `{!MathLaws} obfuscated d dmax t tmin tmax load ucc scc hub r :
  penalty obfuscated d S754_nan dmax t tmin tmax load ucc scc hub r = (S754_nan, S754_nan).
Proof.
  unfold penalty, distancePenalty. assert (Hd : f_sub d S754_nan = S754_nan) by by destruct d as [[]|[]| |[] ? ?]. rewrite Hd.
  change (f_div S754_nan (f_sub dmax S754_nan)) with S754_nan. rewrite pow_nan by done. by rewrite f_mul_nan_r.
Qed.

(** Servers that are all at the same distance (one server, or one city) are not
    ranked at all, and neither are servers the first of which has no distance: zero is
    divided by zero, every penalty is not a number, and the list keeps the order of the
    API whatever the load, the country and the hub score of the servers. *)
Theorem equal_distances_unranked `{!MathLaws} r servers (Hne : servers <> []) (Hready : forallb ready servers = true)
    (Hsame : (exists d, Forall (fun x => srv_Distance (prepared x) = d) servers) \/
             (srv_Distance ∘ prepared <$> head servers) = Some S754_nan) :
  exists l, score_servers ins r servers = Ok l /\ map srv_ID l = map srv_ID servers /\
    Forall (fun x => is_nan (srv_Penalty x) = true) l.
Proof.
  rewrite score_servers_ready by done. set (mm := minmax_of _).
  assert (Hn : Forall (fun x => is_nan (srv_Penalty x) = true) (map (score_server ins mm r) (map prepared servers))).
  { assert (Hmm : (exists d, Forall (fun x => srv_Distance (prepared x) = d) servers /\ mm_dmin mm = d /\ mm_dmax mm = d) \/ mm_dmin mm = S754_nan).
    { destruct servers as [|x servers]; [done|]. unfold mm, minmax_of. cbn [map]. rewrite minmax_fold. cbn [mm_dmin mm_dmax initial].
      destruct Hsame as [[d Hd]|Hd]; [left; exists d|right].
      - pose proof Hd as Hd2. rewrite <- (Forall_map prepared (fun x => srv_Distance x = d)) in Hd2. apply Forall_cons in Hd as [Hx Hd]. rewrite Hx.
        split; [by constructor|]. split; apply running_same; try done; apply f_irrefl.
      - injection Hd as ->. apply running_stuck. intros y. apply f_ltb_nan_r. }
    rewrite map_map. apply Forall_map, Forall_forall. intros x Hx. unfold score_server, compose.
    destruct Hmm as [(d & Hd & -> & ->)| ->].
    - rewrite Forall_forall in Hd. by rewrite (Hd x Hx), penalty_nan.
    - by rewrite penalty_nan_min. }
  eexists. split; [done|]. rewrite sort_unordered.
  - split; [|done]. rewrite !map_map. apply map_ext. intros x. unfold score_server, prepared. destruct (penalty _ _ _ _ _ _ _ _ _ _ _).
    cbn. by destruct (head (srv_Locations x)), (created_unix x).
  - intros x y Hx _. rewrite Forall_forall in Hn. specialize (Hn x Hx). unfold less_penalty. by destruct (srv_Penalty x).
Qed.
End Scores.

(** ** What is listed *)

Lemma ltb_le x y : String.ltb x y = false <-> String.le y x.
Proof.
  unfold String.le, String.leb, String.ltb. rewrite (String.compare_antisym x y). by destruct (String.compare y x).
Qed.

#[export] Instance string_laws : LessLaws String.ltb (fun _ => True).
Proof.
  split.
  - intros x y _ _ Hl. apply ltb_le. unfold String.le, String.leb, String.ltb in *. by destruct (String.compare x y).
  - intros x y z _ _ _ H1 H2. apply ltb_le in H1, H2. apply ltb_le. by trans y.
Qed.

#[export] Instance name_laws : LessLaws less_name (fun _ => True).
Proof.
  split; intros x y; [|intros z].
  - exact (less_asym String.ltb _ _).
  - exact (less_cotrans String.ltb _ _ _).
Qed.

(** The first entries of the keys. *)
Lemma first_of_key_spec {A} (entries : list (string * A)) seen :
  exists kept, first_of_key entries seen = map snd kept /\ NoDup (map fst kept) /\
    (forall e, e ∈ kept -> e ∈ entries /\ e.1 ∉ seen) /\ (forall e, e ∈ entries -> e.1 ∈ seen \/ e.1 ∈ map fst kept).
Proof.
  revert seen. induction entries as [|[k x] entries IH]; intros seen; cbn [first_of_key].
  - exists []. split_and!; [done|constructor|set_solver|set_solver].
  - case_bool_decide as Hk.
    + destruct (IH seen) as (kept & -> & Hd & Hin & Hall). exists kept. split_and!; [done|done|set_solver|]. intros e [->|He]%elem_of_cons; [by left|auto].
    + destruct (IH (k :: seen)) as (kept & -> & Hd & Hin & Hall). exists ((k, x) :: kept). split_and!; [done| | |].
      * cbn. constructor; [|done]. intros (e & -> & He)%list_elem_of_fmap. destruct (Hin e He) as [_ Hn]. set_solver.
      * intros e [->|He]%elem_of_cons; [set_solver|]. destruct (Hin e He). set_solver.
      * intros e [->|He]%elem_of_cons; [right; cbn; set_solver|]. destruct (Hall e He) as [Hs|Hs]; cbn; set_solver.
Qed.

(** A list of countries, cities or groups for the user ([listed] is what the three
    methods return).  It fails only when the technology and protocol have no server
    technology; otherwise it has one entry for each key that a server the user can connect
    to has (with virtual locations only when they are wanted), every entry is that of such
    a server, and the entries are in the order of their names. *)
Theorem listed_exact technology protocol obfuscated virtualLocation (entries : Server -> list (string * pb_ServerGroup)) servers :
  match listed technology protocol obfuscated virtualLocation entries servers with
  | Err e => toServerTechnology technology protocol obfuscated = Err e
  | Ok l => exists tech kept,
      toServerTechnology technology protocol obfuscated = Ok tech /\ l ≡ₚ map snd kept /\ NoDup (map fst kept) /\
      (forall e, e ∈ kept -> exists server, server ∈ servers /\ listable tech virtualLocation server = true /\ e ∈ entries server) /\
      (forall server e, server ∈ servers -> listable tech virtualLocation server = true -> e ∈ entries server -> e.1 ∈ map fst kept) /\
      StronglySorted String.le (map sg_Name l)
  end.
Proof.
  unfold listed. destruct (toServerTechnology _ _ _) as [tech|e]; [|done].
  set (es := concat (map entries (List.filter (listable tech virtualLocation) servers))).
  assert (Hes : forall e, e ∈ es <-> exists server, server ∈ servers /\ listable tech virtualLocation server = true /\ e ∈ entries server).
  { intros e. unfold es. rewrite list_elem_of_In, in_concat. split.
    - intros (l & Hl & He). apply in_map_iff in Hl as (x & <- & Hx). apply filter_In in Hx as [Hx Hk].
      exists x. by rewrite !list_elem_of_In.
    - intros (x & Hx & Hk & He). apply list_elem_of_In in Hx. apply list_elem_of_In in He. exists (entries x). split; [|done]. apply in_map, filter_In. by split. }
  destruct (first_of_key_spec es []) as (kept & Hkept & Hd & Hin & Hall). exists tech, kept. rewrite Hkept.
  split_and!; [done|apply sort_perm|done| | |].
  - intros e He. apply Hes. by apply Hin.
  - intros x e Hx Hk He. destruct (Hall e) as [Hs|Hs]; [apply Hes; by exists x|by apply elem_of_nil in Hs|done].
  - assert (Hs : StronglySorted (no_less less_name) (sort_SliceStable less_name (map snd kept))) by (apply (sort_sorted _ _); by apply Forall_true).
    induction Hs as [|x l Hs IH Hx]; cbn; constructor; [done|]. apply Forall_map. eapply Forall_impl; [exact Hx|]. intros y Hy. by apply ltb_le.
Qed.

(** ** A machine with a cache *)

Module CacheBox.

Fixpoint pos_text (p : positive) : string :=
  match p with xH => "" | xI p' => "1" +:+ pos_text p' | xO p' => "0" +:+ pos_text p' end.
Fixpoint text_pos (s : string) : positive :=
  match s with
  | EmptyString => xH
  | String "1"%char s' => xI (text_pos s')
  | String _ s' => xO (text_pos s')
  end.
Lemma text_pos_text p : text_pos (pos_text p) = p.
Proof.
  induction p as [p IH|p IH|]; [| |done].
  - transitivity (xI (text_pos (pos_text p))); [done|by rewrite IH].
  - transitivity (xO (text_pos (pos_text p))); [done|by rewrite IH].
Qed.

(** A decidable equality through another type. *)
Definition eq_by {A B} `{EqDecision B} (f : A -> B) (g : B -> A) (Hg : forall x, g (f x) = x) : EqDecision A.
Proof.
  intros x y. destruct (decide (f x = f y)) as [He|Hn]; [left|right; by intros ->]. by rewrite <- (Hg x), He.
Defined.

#[export] Instance float_eq_dec : EqDecision float64.
Proof. by apply (eq_by 
    (fun x : float64 => match x with
      | S754_zero b => inl (inl b) | S754_infinity b => inl (inr b) | S754_nan => inr (inl tt) | S754_finite b m e => inr (inr (b, m, e)) end) 
    (fun y => match y with
      | inl (inl b) => S754_zero b | inl (inr b) => S754_infinity b | inr (inl _) => S754_nan | inr (inr (b, m, e)) => S754_finite b m e end)); intros []. Defined.
#[export] Instance float_countable : Countable float64.
Proof. by apply (inj_countable' 
    (fun x : float64 => match x with
      | S754_zero b => inl (inl b) | S754_infinity b => inl (inr b) | S754_nan => inr (inl tt) | S754_finite b m e => inr (inr (b, m, e)) end) 
    (fun y => match y with
      | inl (inl b) => S754_zero b | inl (inr b) => S754_infinity b | inr (inl _) => S754_nan | inr (inr (b, m, e)) => S754_finite b m e end)); intros []. Defined.
#[export] Instance city_eq_dec : EqDecision City.
Proof. by apply (eq_by 
    (fun r => (city_ID r, city_Name r, city_Latitude r, city_Longitude r, city_HubScore r)) 
    (fun '(x0, x1, x2, x3, x4) => mkCity x0 x1 x2 x3 x4)); intros []. Defined.
#[export] Instance city_countable : Countable City.
Proof. by apply (inj_countable' 
    (fun r => (city_ID r, city_Name r, city_Latitude r, city_Longitude r, city_HubScore r)) 
    (fun '(x0, x1, x2, x3, x4) => mkCity x0 x1 x2 x3 x4)); intros []. Defined.
#[export] Instance country_eq_dec : EqDecision Country.
Proof. by apply (eq_by 
    (fun r => (co_ID r, co_Name r, co_Code r, co_City r, co_Cities r)) 
    (fun '(x0, x1, x2, x3, x4) => mkCountry x0 x1 x2 x3 x4)); intros []. Defined.
#[export] Instance country_countable : Countable Country.
Proof. by apply (inj_countable' 
    (fun r => (co_ID r, co_Name r, co_Code r, co_City r, co_Cities r)) 
    (fun '(x0, x1, x2, x3, x4) => mkCountry x0 x1 x2 x3 x4)); intros []. Defined.
#[export] Instance group_eq_dec : EqDecision Group.
Proof. by apply (eq_by 
    (fun r => (gr_ID r, gr_Title r)) 
    (fun '(x0, x1) => mkGroup x0 x1)); intros []. Defined.
#[export] Instance group_countable : Countable Group.
Proof. by apply (inj_countable' 
    (fun r => (gr_ID r, gr_Title r)) 
    (fun '(x0, x1) => mkGroup x0 x1)); intros []. Defined.
#[export] Instance spec_eq_dec : EqDecision Specification.
Proof. by apply (eq_by 
    (fun r => (sp_Identifier r, sp_Values r)) 
    (fun '(x0, x1) => mkSpecification x0 x1)); intros []. Defined.
#[export] Instance spec_countable : Countable Specification.
Proof. by apply (inj_countable' 
    (fun r => (sp_Identifier r, sp_Values r)) 
    (fun '(x0, x1) => mkSpecification x0 x1)); intros []. Defined.
#[export] Instance technology_countable : Countable ServerTechnology.
Proof.
  apply (inj_countable'
    (fun t => match t with UnknownTech => 0%nat | OpenVPNUDP => 1%nat | OpenVPNTCP => 2%nat | Socks5 => 3%nat | HTTPProxy => 4%nat | PPTP => 5%nat | L2TP => 6%nat | OpenVPNUDPObfuscated => 7%nat | OpenVPNTCPObfuscated => 8%nat | WireguardTech => 9%nat end)
    (fun n => match n with 0%nat => UnknownTech | 1%nat => OpenVPNUDP | 2%nat => OpenVPNTCP | 3%nat => Socks5 | 4%nat => HTTPProxy | 5%nat => PPTP | 6%nat => L2TP | 7%nat => OpenVPNUDPObfuscated | 8%nat => OpenVPNTCPObfuscated | 9%nat => WireguardTech | _ => UnknownTech end)). by intros [].
Defined.
#[export] Instance entry_eq_dec : EqDecision TechnologyEntry.
Proof. by apply (eq_by 
    (fun r => (te_ID r, te_Status r)) 
    (fun '(x0, x1) => mkTechnologyEntry x0 x1)); intros []. Defined.
#[export] Instance entry_countable : Countable TechnologyEntry.
Proof. by apply (inj_countable' 
    (fun r => (te_ID r, te_Status r)) 
    (fun '(x0, x1) => mkTechnologyEntry x0 x1)); intros []. Defined.
#[export] Instance server_eq_dec : EqDecision Server.
Proof. by apply (eq_by 
    (fun r => (srv_ID r, srv_Name r, srv_Station r, srv_Hostname r, srv_Load r, srv_Status r, srv_Locations r, srv_Technologies r, srv_Groups r, srv_Specifications r, srv_Timestamp r, srv_NordLynxPublicKey r, srv_Keys r, srv_IPRecords r, srv_CreatedAt r, srv_UpdatedAt r, srv_Distance r, srv_Penalty r, srv_PartialPenalty r)) 
    (fun '(x0, x1, x2, x3, x4, x5, x6, x7, x8, x9, x10, x11, x12, x13, x14, x15, x16, x17, x18) => mkServer x0 x1 x2 x3 x4 x5 x6 x7 x8 x9 x10 x11 x12 x13 x14 x15 x16 x17 x18)); intros []. Defined.
#[export] Instance server_countable : Countable Server.
Proof. by apply (inj_countable' 
    (fun r => (srv_ID r, srv_Name r, srv_Station r, srv_Hostname r, srv_Load r, srv_Status r, srv_Locations r, srv_Technologies r, srv_Groups r, srv_Specifications r, srv_Timestamp r, srv_NordLynxPublicKey r, srv_Keys r, srv_IPRecords r, srv_CreatedAt r, srv_UpdatedAt r, srv_Distance r, srv_Penalty r, srv_PartialPenalty r)) 
    (fun '(x0, x1, x2, x3, x4, x5, x6, x7, x8, x9, x10, x11, x12, x13, x14, x15, x16, x17, x18) => mkServer x0 x1 x2 x3 x4 x5 x6 x7 x8 x9 x10 x11 x12 x13 x14 x15 x16 x17 x18)); intros []. Defined.
#[export] Instance countries_eq_dec : EqDecision CountryData.
Proof. by apply (eq_by 
    (fun r => (cd_UpdatedAt r, cd_Countries r, cd_Hash r)) 
    (fun '(x0, x1, x2) => mkCountryData x0 x1 x2)); intros []. Defined.
#[export] Instance countries_countable : Countable CountryData.
Proof. by apply (inj_countable' 
    (fun r => (cd_UpdatedAt r, cd_Countries r, cd_Hash r)) 
    (fun '(x0, x1, x2) => mkCountryData x0 x1 x2)); intros []. Defined.
#[export] Instance servers_eq_dec : EqDecision ServersData.
Proof. by apply (eq_by 
    (fun r => (se_UpdatedAt r, se_Servers r, se_Hash r)) 
    (fun '(x0, x1, x2) => mkServersData x0 x1 x2)); intros []. Defined.
#[export] Instance servers_countable : Countable ServersData.
Proof. by apply (inj_countable' 
    (fun r => (se_UpdatedAt r, se_Servers r, se_Hash r)) 
    (fun '(x0, x1, x2) => mkServersData x0 x1 x2)); intros []. Defined.
#[export] Instance insights_eq_dec : EqDecision Insights.
Proof. by apply (eq_by 
    (fun r => (ins_City r, ins_Country r, ins_Isp r, ins_IspAsn r, ins_CountryCode r, ins_Longitude r, ins_Latitude r, ins_Protected r)) 
    (fun '(x0, x1, x2, x3, x4, x5, x6, x7) => mkInsights x0 x1 x2 x3 x4 x5 x6 x7)); intros []. Defined.
#[export] Instance insights_countable : Countable Insights.
Proof. by apply (inj_countable' 
    (fun r => (ins_City r, ins_Country r, ins_Isp r, ins_IspAsn r, ins_CountryCode r, ins_Longitude r, ins_Latitude r, ins_Protected r)) 
    (fun '(x0, x1, x2, x3, x4, x5, x6, x7) => mkInsights x0 x1 x2 x3 x4 x5 x6 x7)); intros []. Defined.

(** A codec with the laws of [encoding/gob]. *)
#[export] Instance gob {A} `{Countable A} `{Flat A} : Gob A := {|
  gob_Encode := fun x => Ok (pos_text (encode (flat x)));
  gob_Decode := fun text _ => match decode (text_pos text) with Some x => Ok x | None => Err (Errorf "gob") end
|}.
#[export] Instance gob_laws {A} `{Countable A} `{Flat A} zero : GobLaws A zero.
Proof.
  split; [by eexists|]. intros x text [= <-]. cbn. by rewrite text_pos_text, decode_encode.
Qed.

#[export] Instance sys : System unit := {|
  exec_Command := fun _ _ _ s => ("", None, s);
  os_Getenv := fun _ _ => "";
  exec_LookPath := fun name _ => Some name;
  os_Getwd := ret "/";
  net_InterfaceByName := fun name => ret (mkNetIface name 7 1500 true (Ok []));
  net_Interfaces := ret [];
  net_ListenPacket := fun _ _ => ret tt
|}.

Definition place : Country := mkCountry 126 "Lithuania" "LT" (mkCity 1 "Vilnius" (f_of_Z 54) (f_of_Z 25) (Some (f_of_Z 0))) [].
Definition server (id : Z) (name : string) (load : Z) : Server :=
  mkServer id name "" (str_lower name) load "online" [place] [mkTechnologyEntry WireguardTech "online"] [] [] 0 "" [] []
    "2020-01-02 03:04:05" "" zero_float zero_float zero_float.
Definition servers : list Server := [server 1 "LT1" 90; server 2 "LT2" 10].

#[export] Instance env : CacheEnv unit := {|
  time_Now := fun t => (1700000000 * 1000000000, t);
  api_Servers := ret (servers, "digest");
  api_Countries := ret ([place], "digest");
  api_ServerByID := fun id => ret (List.find (fun s => srv_ID s =? id) servers);
  api_Insights := ret (Some fixed_insights);
  netw_IsVPNActive := fun _ => true;
  cdn_Head := fun _ => ret "1";
  cdn_Get := fun _ => ret "template";
  hex_sha256 := fun _ => "0";
  cases_Title := fun x => x;
  semver_LessThan := String.ltb;
  repo_Versions := ret ["3.17.1"; "3.17.2"]
|}.
#[export] Instance paths : CachePaths := {|
  countryFilePath := "/var/lib/nordvpn/data/countries.dat"; insightsFilePath := "/var/lib/nordvpn/data/insights.dat";
  serversFilePath := "/var/lib/nordvpn/data/servers.dat"; versionFilePath := "/var/lib/nordvpn/data/version.dat";
  OvpnTemplatePath := "/var/lib/nordvpn/data/ovpn_template.xslt"; OvpnObfsTemplatePath := "/var/lib/nordvpn/data/ovpn_xor_template.xslt" |}.
#[export] Instance path_laws : PathLaws.
Proof. split; [by apply (bool_decide_unpack _)|by repeat constructor]. Qed.
(** Undefined for what is undefined; the angles are not used by the samples. *)
#[export] Instance math : Math := {|
  math_Pow := fun x y => if is_nan x then S754_nan else x;
  math_Sin := fun x => x; math_Cos := fun x => x; math_Acos := fun x => x; math_Pi := f_of_Z 3; rand_Float64 := fun _ => f_ratio 1 2
|}.
#[export] Instance math_laws : MathLaws.
Proof. by split. Qed.

Definition machine : Machine unit := mkMachine ∅ [] tt.
Definition ops : list CacheOp :=
  [CaSetCountries 5 [place] "h"; CaSetInsights fixed_insights; CaSetServers 6 servers "h2"; CaUpdatePenalty (server 2 "LT2" 3); CaSetVersion "3.17.2" true].
Definition manager : DataManager unit := ca_run ops (NewDataManager machine).

Lemma cache_survives_restart_witness :
  exists s', LoadData (NewDataManager (ca_machine manager)) = (Ok tt, s') /\ ca_machine s' = ca_machine manager /\
    cached_data s' = flat_data (cached_data manager) /\ vd_newerVersionAvailable (ca_versionData s') = false.
Proof.
  apply (cache_survives_restart ops (NewDataManager machine)).
  - by split.
  - intros []; right; unfold ops; repeat (first [by apply Exists_cons_hd|apply Exists_cons_tl]).
Defined.

(** Servers in two cities: the one with the smaller load has the smaller penalty. *)
Definition elsewhere : Country := mkCountry 81 "Germany" "DE" (mkCity 2 "Berlin" (f_of_Z 52) (f_of_Z 13) None) [].
Definition two_places : list Server :=
  [server 1 "LT1" 90; (server 3 "DE3" 10) <| srv_Locations := [elsewhere] |>].

Lemma scored_servers_witness :
  exists l, score_servers fixed_insights (f_ratio 1 2000) two_places = Ok l /\ map srv_ID l = [3; 1] /\ best_first l /\
    exists mm l', extremes mm l /\ l ≡ₚ l' /\ Forall2 (listed_as fixed_insights mm (f_ratio 1 2000)) two_places l'.
Proof.
  assert (Hl : match score_servers fixed_insights (f_ratio 1 2000) two_places with
               | Ok l => map srv_ID l = [3; 1] /\ Forall (fun x => is_nan (srv_Penalty x) = false) l
               | Err _ => False
               end) by (vm_compute; split; [reflexivity|repeat constructor]).
  pose proof (scored_servers fixed_insights (f_ratio 1 2000) two_places) as Hs.
  destruct (score_servers fixed_insights (f_ratio 1 2000) two_places) as [l|e]; [|destruct Hl].
  destruct Hl as [Hid Hn], Hs as (_ & _ & mm & l' & Hmm & Hp & Hall & Hb). exists l.
  split; [reflexivity|]. split; [exact Hid|]. split; [exact (Hb Hn)|]. exists mm, l'. by split_and!.
Defined.

Lemma equal_distances_unranked_witness :
  exists l, score_servers fixed_insights (f_ratio 1 2000) servers = Ok l /\ map srv_ID l = [1; 2] /\
    Forall (fun x => is_nan (srv_Penalty x) = true) l.
Proof.
  apply (equal_distances_unranked fixed_insights (f_ratio 1 2000) servers).
  - done.
  - vm_compute. done.
  - left. eexists. constructor; [reflexivity|]. constructor; [|constructor]. vm_compute. reflexivity.
Defined.
End CacheBox.
