(* ===== verification/Validate.v ===== *)
(** * Validate: which responses of the API are accepted

    Models [daemon/response/validate.go].  A response carries a digest of its body, the
    time until which it may be used and a signature of both.  The hash, base64, the keys
    and the verification of signatures are libraries: parameters. *)

From stdpp Require Import base option list strings pretty gmap.
From Stdlib Require Import ZArith Ascii Lia.
From S2P Require Import Prelude GoLib.
Set Warnings "-clear-no-such-hyp".

Open Scope Z_scope.
Open Scope go_scope.

(** [http.Header], by canonical names. *)
Definition Header : Type := gmap string (list string).
Definition header_Get (h : Header) (key : string) : string := default "" (h !! key ≫= head).

Definition PublicKey : Type := string.

(** [ssh_Verify key data format blob]: the error of [Verify]. *)
Class Signing (T : Type) : Type := {
  time_Unix : T -> Z * T;
  hex_sha256 : string -> string;
  base64_Decode : string -> result string;
  ssh_Verify : PublicKey -> string -> string -> string -> option error;
  pem_Decode : string -> option string;
  x509_ParsePKIXPublicKey : string -> result (option string);
  ssh_NewPublicKey : string -> result PublicKey;
  rsaKey1 : string
}.

Record NordValidator : Type := mkNordValidator { va_pubKeys : gmap string PublicKey }.
Inductive Validator : Type := NoopValidator | Nord (v : NordValidator).

Definition KeyAlgoRSASHA256 : string := "rsa-sha2-256".

(** [strings.Trim(s, c)] for one character. *)
Fixpoint trim_left (c : ascii) (s : string) : string :=
  match s with String a s' => if Ascii.eqb a c then trim_left c s' else s | EmptyString => EmptyString end.
Fixpoint trim_right (c : ascii) (s : string) : string :=
  match s with
  | EmptyString => EmptyString
  | String a s' => match trim_right c s' with
                   | EmptyString => if Ascii.eqb a c then EmptyString else String a EmptyString
                   | r => String a r
                   end
  end.
Definition strings_Trim (s : string) (c : ascii) : string := trim_right c (trim_left c s).

Definition quote : ascii := "034"%char.

Fixpoint parse_pairs (pairs : list string) (keyVal : gmap string string) : result (gmap string string) :=
  match pairs with
  | [] => Ok keyVal
  | kv :: pairs' =>
      match split_char "="%char kv with
      | [key; quotedVar] => parse_pairs pairs' (<[key := strings_Trim quotedVar quote]> keyVal)
      | _ => Err (Errorf "invalid key-value format")
      end
  end.

Definition parseKeyVal (str : string) : result (gmap string string) := parse_pairs (split_char ","%char str) ∅.

Definition getSignAlgoName (name : string) : string := if bool_decide (name = "rsa-sha256") then KeyAlgoRSASHA256 else "".

Section Validate.
Context {T : Type} `{Signing T}.

Definition parseRSAPublicKey (rawKey : string) : result string :=
  match pem_Decode rawKey with
  | None => Err (Errorf "public key was not defined correctly")
  | Some block =>
      match x509_ParsePKIXPublicKey block with
      | Err e => Err (Wrapf "parsing DER encoded public key: " e "")
      | Ok None => Err (Errorf "parsing RSA public key: %!w(<nil>)")
      | Ok (Some key) => Ok key
      end
  end.

Definition parseSSHPublicKey (rawKey : string) : result PublicKey :=
  match parseRSAPublicKey rawKey with
  | Err e => Err (Wrapf "parsing RSA pub key: " e "")
  | Ok rsaPub => match ssh_NewPublicKey rsaPub with
                 | Err e => Err (Wrapf "converting to SSH public key: " e "")
                 | Ok key => Ok key
                 end
  end.

Definition NewNordValidator : result NordValidator :=
  match parseSSHPublicKey rsaKey1 with
  | Err e => Err (Wrapf "parsing rsa-key-1: " e "")
  | Ok key => Ok (mkNordValidator {["rsa-key-1" := key]})
  end.

Definition getHashFunction (name : string) : option (string -> string) :=
  if bool_decide (name = "sha256") then Some hex_sha256 else None.

Definition is_2xx (code : Z) : bool := (200 <=? code) && (code <? 300).

(** The digest is that of the body; where the response is not a success, also that of
    nothing. *)
Definition digest_matches (hashFunc : string -> string) (code : Z) (xDigest body : string) : bool :=
  bool_decide (xDigest = hashFunc body) || (negb (is_2xx code) && bool_decide (xDigest = hashFunc "")).

Definition verify_signature (v : NordValidator) (keyID text xSignature : string) (signAlgoName : string) : result unit :=
  match va_pubKeys v !! keyID with
  | None => Err (Errorf ("pub key '" +:+ keyID +:+ "' is not known"))
  | Some publicKey =>
      match base64_Decode xSignature with
      | Err e => Err (Wrapf "base64 decoding error: " e "")
      | Ok signature => match ssh_Verify publicKey text signAlgoName signature with Some e => Err e | None => Ok tt end
      end
  end.

Definition NordValidator_Validate (v : NordValidator) (code : Z) (headers : Header) (body : string) : M T unit :=
  let xDigest := header_Get headers "X-Digest" in
  let xAuthorization := header_Get headers "X-Authorization" in
  let xAcceptBefore := header_Get headers "X-Accept-Before" in
  let xSignature := header_Get headers "X-Signature" in
  if bool_decide (xDigest = "") || bool_decide (xAuthorization = "") || bool_decide (xAcceptBefore = "") || bool_decide (xSignature = "")
  then throw (Errorf "some of X-Digest, X-Authorization headers are missing")
  else match parseKeyVal xAuthorization with
  | Err e => throw (Wrapf "parsing X-Authorization header: " e "")
  | Ok keyVal =>
      let algo := default "" (keyVal !! "algorithm") in
      match split_char "-"%char algo with
      | [_; name] =>
          match getHashFunction name with
          | None => throw (Errorf ("unknown hashing algorithm " +:+ name))
          | Some hashFunc =>
              let signAlgoName := getSignAlgoName algo in
              if bool_decide (signAlgoName = "") then throw (Errorf ("unknown signature algorithm name " +:+ algo))
              else if negb (digest_matches hashFunc code xDigest body)
              then throw (Errorf "X-Digest value does not match the checksum of response body")
              else match atoi xAcceptBefore with
              | None => throw (Errorf "parsing X-Accept-Before header")
              | Some acceptBeforeUnix => fun t =>
                  let '(now, t') := time_Unix t in
                  if acceptBeforeUnix <? now then (Err (Errorf "X-Accept-Before UNIX value is lower than current local time"), t')
                  else (verify_signature v (default "" (keyVal !! "key-id")) (xAcceptBefore +:+ xDigest) xSignature signAlgoName, t')
              end
          end
      | _ => throw (Errorf "invalid format of X-Authorization header")
      end
  end.

Definition Validate (validator : Validator) (code : Z) (headers : Header) (body : string) : M T unit :=
  match validator with NoopValidator => ret tt | Nord v => NordValidator_Validate v code headers body end.
End Validate.

(** ** What acceptance means *)

Section Accepted.
Context {T : Type} `{Signing T}.

(** The response is signed with a known key, in time, and has the digest it says. *)
Definition genuine (v : NordValidator) (now code : Z) (headers : Header) (body : string) : Prop :=
  let digest := header_Get headers "X-Digest" in
  let before := header_Get headers "X-Accept-Before" in
  exists keyVal until publicKey blob,
    digest <> "" /\ header_Get headers "X-Authorization" <> "" /\ before <> "" /\ header_Get headers "X-Signature" <> "" /\
    parseKeyVal (header_Get headers "X-Authorization") = Ok keyVal /\ keyVal !! "algorithm" = Some "rsa-sha256" /\
    (digest = hex_sha256 body \/ (is_2xx code = false /\ digest = hex_sha256 "")) /\
    atoi before = Some until /\ now <= until /\
    va_pubKeys v !! default "" (keyVal !! "key-id") = Some publicKey /\
    base64_Decode (header_Get headers "X-Signature") = Ok blob /\
    ssh_Verify publicKey (before +:+ digest) KeyAlgoRSASHA256 blob = None.

Lemma digest_matches_iff f code digest body :
  digest_matches f code digest body = true <-> (digest = f body \/ (is_2xx code = false /\ digest = f "")).
Proof. unfold digest_matches. rewrite orb_true_iff, andb_true_iff, negb_true_iff, !bool_decide_eq_true. done. Qed.

Lemma validate_iff v code headers body t :
  (NordValidator_Validate v code headers body t).1 = Ok tt <-> genuine v (time_Unix t).1 code headers body.
Proof.
  unfold NordValidator_Validate, genuine.
  set (digest := header_Get headers "X-Digest"). set (auth := header_Get headers "X-Authorization").
  set (before := header_Get headers "X-Accept-Before"). set (sig := header_Get headers "X-Signature").
  split.
  - destruct (_ || _) eqn:Hh; [done|]. rewrite !orb_false_iff, !bool_decide_eq_false in Hh. destruct Hh as [[[Hd Ha] Hb] Hs].
    destruct (parseKeyVal auth) as [keyVal|] eqn:Hkv; [|done].
    destruct (split_char "-"%char (default "" (keyVal !! "algorithm"))) as [|a [|name [|]]] eqn:Hal; try done.
    unfold getHashFunction, getSignAlgoName. case_bool_decide as Hn; [|done].
    destruct (decide (default "" (keyVal !! "algorithm") = "rsa-sha256")) as [Hk|Hk];
      [rewrite (bool_decide_eq_true_2 _ Hk)|by rewrite (bool_decide_eq_false_2 _ Hk)].
    change (bool_decide (KeyAlgoRSASHA256 = "")) with false. cbv iota.
    destruct (digest_matches _ _ _ _) eqn:Hm; [|done]. apply digest_matches_iff in Hm. cbn [negb].
    destruct (atoi before) as [until|] eqn:Hu; [|done]. destruct (time_Unix t) as [now t']. cbn [fst].
    destruct (Z.ltb_spec until now) as [Hl|Hl]; [done|]. unfold verify_signature.
    destruct (va_pubKeys v !! _) as [pk|] eqn:Hpk; [|done]. destruct (base64_Decode sig) as [blob|] eqn:Hblob; [|done].
    destruct (ssh_Verify _ _ _ _) eqn:Hv; [done|]. intros _. exists keyVal, until, pk, blob. split_and!; try done.
    destruct (keyVal !! "algorithm"); [|discriminate Hk]. by rewrite <- Hk.
  - intros (keyVal & until & pk & blob & Hd & Ha & Hb & Hs & Hkv & Hal & Hm & Hu & Hl & Hpk & Hblob & Hv).
    rewrite !bool_decide_false by done. cbn [orb]. rewrite Hkv. revert Hpk. generalize (default "" (keyVal !! "key-id")). intros keyID Hpk. rewrite Hal. cbn [default]. unfold id.
    change (split_char "-"%char "rsa-sha256") with ["rsa"; "sha256"]. cbv iota. unfold getHashFunction at 1. rewrite bool_decide_eq_true_2 by done.
    change (getSignAlgoName "rsa-sha256") with KeyAlgoRSASHA256. change (bool_decide (KeyAlgoRSASHA256 = "")) with false. cbv iota.
    rewrite (proj2 (digest_matches_iff _ _ _ _) Hm), Hu. cbn [negb]. destruct (time_Unix t) as [now t']. cbn [fst] in *.
    destruct (Z.ltb_spec until now) as [|_]; [lia|]. unfold verify_signature. by rewrite Hpk, Hblob, Hv.
Qed.

(** *** What the API issued *)

Context (v : NordValidator).

(** [Issued until body]: the API signed the body for use up to that time. *)
Context (Issued : Z -> string -> Prop).

(** The digest has a fixed length, and only the holder of the keys can sign: a verified
    text is a time and a digest that the API issued. *)
Class SigningLaws : Prop := {
  sha256_length x : String.length (hex_sha256 x) = 64%nat;
  signed_issued keyID publicKey text blob :
    va_pubKeys v !! keyID = Some publicKey -> ssh_Verify publicKey text KeyAlgoRSASHA256 blob = None ->
    exists until body, Issued until body /\ 0 <= until <= max_int64 /\ text = itoa until +:+ hex_sha256 body
}.

(** An accepted response of success carries the digest of a body that the API issued,
    for use up to a time that has not passed, although the signature covers the time and
    the digest without anything between them. *)
Lemma accepted_issued `{!SigningLaws} code headers body t
    (Hok : (NordValidator_Validate v code headers body t).1 = Ok tt) :
  exists until issued, Issued until issued /\ (time_Unix t).1 <= until /\
    (hex_sha256 body = hex_sha256 issued \/ (is_2xx code = false /\ hex_sha256 issued = hex_sha256 "")).
Proof.
  apply validate_iff in Hok as (keyVal & until & pk & blob & Hd & Ha & Hb & Hs & Hkv & Hal & Hm & Hu & Hl & Hpk & Hblob & Hv).
  destruct (signed_issued _ _ _ _ Hpk Hv) as (until' & issued & Hi & Hr & Ht).
  assert (Hlen : String.length (header_Get headers "X-Digest") = 64%nat)
    by (destruct Hm as [->|[_ ->]]; apply sha256_length).
  apply app_inj_length in Ht as [Hbefore Hdigest]; [|by rewrite Hlen, sha256_length].
  rewrite Hbefore, atoi_itoa in Hu by (unfold max_int64 in *; lia). injection Hu as ->.
  exists until, issued. split_and!; [done|done|]. rewrite <- Hdigest. destruct Hm as [Hm|[Hc Hm]]; [left|right]; by rewrite Hm.
Qed.
End Accepted.
