(* ===== verification/Client.v ===== *)
(** * Client: the HTTP client of the API and of the CDN

    Models [request/request.go], [core/core.go], [core/cdn.go], [core/urls.go],
    [core/authentication.go] and the data of [core/models.go] they exchange.

    [net/http], [compress/gzip] and the encoding of JSON are parameters: the client gets
    a response whose body may fail to be read, and every call may fail.  What the code
    takes to be a path and a query, the methods, the headers and the order of the checks
    are those of the source. *)

From stdpp Require Import base option list strings pretty gmap.
From Stdlib Require Import ZArith Ascii Lia.
From S2P Require Import Prelude GoLib Config Api Auth Servers Validate.
Set Warnings "-clear-no-such-hyp".

Open Scope Z_scope.
Open Scope go_scope.

(** ** Requests and responses *)

Record Request : Type := mkRequest {
  rq_Method : string;
  rq_URL : string;
  rq_Header : list (string * string);
  rq_Body : string
}.

(** The body is what reading it yields. *)
Record Response : Type := mkResponse {
  rs_StatusCode : Z;
  rs_Header : Header;
  rs_Body : result string
}.
#[export] Instance eta_Response : EtaExpand Response := fun r => mkResponse (rs_StatusCode r) (rs_Header r) (rs_Body r).

(** [json.Unmarshal] and [json.NewDecoder(body).Decode], which also accepts text after
    the value. *)
Class JsonIn (A : Type) : Type := { json_Unmarshal : string -> result A; json_Decode : string -> result A }.
Class JsonOut (A : Type) : Type := json_Marshal : A -> result string.

Class Http (T : Type) : Type := {
  client_Do : Request -> M T Response;
  (** what [url.Parse] refuses beside wrong escapes *)
  url_Parse : string -> option error;
  url_Escape : string -> string;
  http_StatusText : Z -> string;
  gzip_NewReader : result string -> result (result string);
  rand_Read : nat -> M T string;  (* in hexadecimal *)
  fmt_f : float64 -> string
}.

Definition MethodGet : string := "GET".
Definition MethodHead : string := "HEAD".
Definition MethodPost : string := "POST".
Definition MethodPatch : string := "PATCH".
Definition MethodDelete : string := "DELETE".

(** The part of a URL before the query. *)
Fixpoint url_path (s : string) : string :=
  match s with
  | EmptyString => EmptyString
  | String "?" _ => EmptyString
  | String c s' => String c (url_path s')
  end.

Definition is_hex (c : ascii) : bool := match hex_val c with Some _ => true | None => false end.

(** Every [%] is followed by two hexadecimal digits. *)
Fixpoint escapes_ok (s : string) : bool :=
  match s with
  | EmptyString => true
  | String "%" s' =>
      match s' with
      | String a (String b s'') => is_hex a && is_hex b && escapes_ok s''
      | _ => false
      end
  | String _ s' => escapes_ok s'
  end.

(** [fmt.Sprintf] for formats whose verbs are all plain: the texts of the arguments in
    place of the verbs. *)
Fixpoint sprintf (format : string) (args : list string) : string :=
  match format with
  | EmptyString => EmptyString
  | String "%" (String v f') => match args with a :: args' => a +:+ sprintf f' args' | [] => String "%" (String v (sprintf f' [])) end
  | String c f' => String c (sprintf f' args)
  end.

Definition ErrBearerTokenNotProvided : string := "bearer token not provided".

Section Requests.
Context {T : Type} `{Http T}.

Definition http_NewRequest (method url : string) (headers : list (string * string)) (body : string) : result Request :=
  if negb (escapes_ok (url_path url)) then Err (Errorf ("parse " +:+ url +:+ ": invalid URL escape"))
  else match url_Parse url with Some e => Err e | None => Ok (mkRequest method url headers body) end.

(** The body of a GET request is dropped. *)
Definition NewRequest (method agent baseURL pathURL contentType contentLength encoding body : string) : result Request :=
  let tmpBody := if bool_decide (method = MethodGet) then "" else body in
  match http_NewRequest method (baseURL +:+ pathURL)
          [("User-Agent", agent); ("Accept-Encoding", encoding); ("Content-Type", contentType); ("Content-Length", contentLength)] tmpBody with
  | Err e => Err (Wrapf "creating http request: " e "")
  | Ok req => Ok req
  end.

Definition NewRequestWithBearerToken (method agent baseURL pathURL contentType contentLength encoding body token : string) : result Request :=
  match NewRequest method agent baseURL pathURL contentType contentLength encoding body with
  | Err e => Err e
  | Ok req =>
      if bool_decide (token = "") then Err (Sentinel ErrBearerTokenNotProvided)
      else Ok (mkRequest (rq_Method req) (rq_URL req) (rq_Header req ++ [("Authorization", "Bearer token:" +:+ token)]) (rq_Body req))
  end.
End Requests.

(** ** The API *)

Record DefaultAPI : Type := mkDefaultAPI { da_agent : string; da_baseURL : string; da_validator : Validator }.
Definition NewDefaultAPI (agent baseURL : string) (validator : Validator) : DefaultAPI := mkDefaultAPI agent baseURL validator.

(** *** Data *)

Record UserCreateRequest : Type := mkUserCreateRequest { uq_Email : string; uq_Password : string }.
Record UserCreateResponse : Type := mkUserCreateResponse {
  uc_ID : Z; uc_Email : string; uc_Username : string; uc_ExpiresAt : string; uc_CreateAt : string; uc_UpdatedAt : string }.
Record oAuth2LoginResponse : Type := mkOAuth2LoginResponse { ol_URI : string; ol_Attempt : string }.
Record LoginResponse : Type := mkLoginResponse {
  lr_UserID : Z; lr_Token : string; lr_RenewToken : string; lr_ExpiresAt : string; lr_UpdatedAt : string; lr_CreatedAt : string; lr_ID : Z }.
Record CurrentUserResponse : Type := mkCurrentUserResponse { cu_Username : string; cu_Email : string }.
Record MultifactorAuthStatusResponse : Type := mkMfaStatus { mf_Status : string }.
Record Plan : Type := mkPlan { pl_ID : Z; pl_Identifier : string; pl_Type : string; pl_Title : string; pl_Cost : string; pl_Currency : string }.
Record NotificationCredentialsRequest : Type := mkNcRequest { nq_AppUserID : string; nq_PlatformID : Z }.
Record NotificationCredentialsRevokeRequest : Type := mkNcRevokeRequest { nv_AppUserID : string; nv_PurgeSession : bool }.
Record NotificationCredentialsRevokeResponse : Type := mkNcRevokeResponse { nw_Status : string }.
Record RenewRequest : Type := mkRenewRequest { rn_RenewToken : string }.
Record NameServersResponse : Type := mkNameServersResponse { ns_Servers : list string }.

Definition linuxPlatformID : Z := 500.

(** *** URLs *)

Definition InsightsURL : string := "/v1/helpers/ips/insights".
Definition PlanURL : string := "/v1/plans?filters[plans.active]=1&filters[plans.type]=linux".
Definition ServersURL : string := "/v1/servers".
Definition ServersCountriesURL : string := ServersURL +:+ "/countries".
Definition RecommendedServersURL : string := ServersURL +:+ "/recommendations".
Definition notificationTokenURL : string := "/v1/notifications/tokens".
Definition notificationTokenRevokeURL : string := "/v1/notifications/tokens/revoke".
Definition UsersURL : string := "/v1/users".
Definition urlOAuth2Login : string := UsersURL +:+ "/oauth/login".
Definition urlOAuth2Logout : string := UsersURL +:+ "/oauth/logout".
Definition urlOAuth2Token : string := UsersURL +:+ "/oauth/token".
Definition TokensURL : string := UsersURL +:+ "/tokens".
Definition ServicesURL : string := UsersURL +:+ "/services".
Definition CredentialsURL : string := ServicesURL +:+ "/credentials".
Definition CurrentUserURL : string := UsersURL +:+ "/current".
Definition TokenRenewURL : string := UsersURL +:+ "/tokens/renew".
Definition TrustedPassTokenURL : string := UsersURL +:+ "/oauth/tokens/trusted".
Definition MFAStatusURL : string := UsersURL +:+ "/oauth/mfa/status".
Definition server_fields : string :=
  "&fields[servers.id]&fields[servers.name]&fields[servers.hostname]&fields[servers.station]&fields[servers.status]" +:+
  "&fields[servers.load]&fields[servers.created_at]&fields[servers.groups.id]&fields[servers.groups.title]" +:+
  "&fields[servers.technologies.id]&fields[servers.technologies.metadata]&fields[servers.technologies.pivot.status]" +:+
  "&fields[servers.specifications.identifier]&fields[servers.specifications.values.value]" +:+
  "&fields[servers.locations.country.name]&fields[servers.locations.country.code]" +:+
  "&fields[servers.locations.country.city.name]&fields[servers.locations.country.city.latitude]" +:+
  "&fields[servers.locations.country.city.longitude]".
Definition ServersURLConnectQuery : string :=
  "?limit=1073741824&filters[servers.status]=online" +:+ server_fields +:+
  "&fields[servers.locations.country.city.hub_score]&fields[servers.ips]".
Definition RecommendedServersURLConnectQuery : string :=
  "?limit=%d&filters[servers.status]=online&filters[servers_technologies]=%d&filters[servers_technologies][pivot][status]=online" +:+
  server_fields +:+ "&coordinates[longitude]=%f&coordinates[latitude]=%f&fields[servers.ips]".
Definition RecommendedServersCountryFilter : string := "&filters[country_id]=%d".
Definition RecommendedServersCityFilter : string := "&filters[country_city_id]=%d".
Definition RecommendedServersGroupsFilter : string := "&filters[servers_groups]=%d".
Definition ServersURLSpecificQuery : string := "?filters[servers.id]=%d".
Definition ovpnTemplateURL : string := "/configs/templates/ovpn/1.0/template.xslt".
Definition ovpnObfsTemplateURL : string := "/configs/templates/ovpn_xor/1.0/template.xslt".
Definition threatProtectionLiteURL : string := "/configs/dns/cybersec.json".

(** The number of a technology in the API. *)
Definition tech_number (t : ServerTechnology) : Z :=
  match t with
  | UnknownTech => 0 | OpenVPNUDP => 3 | OpenVPNTCP => 5 | Socks5 => 7 | HTTPProxy => 9 | PPTP => 11 | L2TP => 13
  | OpenVPNUDPObfuscated => 15 | OpenVPNTCPObfuscated => 17 | WireguardTech => 35
  end.

Section Calls.
Context {T : Type} `{Http T} `{Signing T} `{JsonIn apiError}.
Context (api : DefaultAPI).

Definition Base : string := da_baseURL api.

(** What [ExtractError] reads of a response. *)
Definition error_of (req : Request) (resp : Response) : option error :=
  ExtractError (mkHttpResponse (rs_StatusCode resp) (http_StatusText (rs_StatusCode resp)) (rq_Method req +:+ " " +:+ rq_URL req)
    match rs_Body resp with Err e => Err e | Ok body => Ok (json_Unmarshal body) end).

(** The body to be read: nothing for HEAD, else what is encoded. *)
Definition body_of (method : string) (resp : Response) : result (result string) :=
  if bool_decide (method = MethodHead) then Ok (Ok "")
  else if bool_decide (header_Get (rs_Header resp) "Content-Encoding" = "gzip") then gzip_NewReader (rs_Body resp)
  else Ok (rs_Body resp).

(** The body that was read is in the response again. *)
Definition do (req : Request) : M T Response :=
  let! resp := client_Do req in
  let! reader := of_result (body_of (rq_Method req) resp) in
  let! body := of_result reader in
  let resp := resp <| rs_Body := Ok body |> in
  wrapped "validating headers: " (Validate (da_validator api) (rs_StatusCode resp) (rs_Header resp) body) "" ;;
  match error_of req resp with Some e => throw e | None => ret resp end.

Definition request (path method data token : string) : M T Response :=
  let! req := of_result (NewRequestWithBearerToken method (da_agent api) (da_baseURL api) path "application/json" "" "gzip, deflate" data token) in
  do req.

(** A request without a token. *)
Definition request_open (path method data : string) : M T Response :=
  let! req := of_result (NewRequest method (da_agent api) (da_baseURL api) path "application/json" "" "gzip, deflate" data) in
  do req.

(** [json.NewDecoder(resp.Body).Decode(&ret)] and [json.Unmarshal] of what is read. *)
Definition decode {A} `{JsonIn A} (resp : Response) : result A :=
  match rs_Body resp with Err e => Err e | Ok body => json_Decode body end.
Definition unmarshal {A} `{JsonIn A} (resp : Response) : result A :=
  match rs_Body resp with Err e => Err e | Ok body => json_Unmarshal body end.

Definition Plans `{JsonIn (list Plan)} : M T (list Plan) :=
  let! resp := request_open PlanURL MethodGet "" in of_result (decode resp).

Definition ServiceCredentials `{JsonIn CredentialsResponse} (token : string) : M T CredentialsResponse :=
  let! resp := request CredentialsURL MethodGet "" token in of_result (decode resp).

Definition Services `{JsonIn (list ServiceData)} (token : string) : M T (list ServiceData) :=
  let! resp := request ServicesURL MethodGet "" token in of_result (decode resp).

Definition CreateUser `{JsonOut UserCreateRequest} `{JsonIn UserCreateResponse} (email password : string) : M T UserCreateResponse :=
  let! data := of_result (json_Marshal (mkUserCreateRequest email password)) in
  let! resp := request_open UsersURL MethodPost data in of_result (decode resp).

Definition CurrentUser `{JsonIn CurrentUserResponse} (token : string) : M T CurrentUserResponse :=
  let! resp := request CurrentUserURL MethodGet "" token in of_result (decode resp).

Definition DeleteToken (token : string) : M T unit := let! _ := request TokensURL MethodDelete "" token in ret tt.

Definition TrustedPassToken `{JsonIn TrustedPassTokenResponse} (token : string) : M T TrustedPassTokenResponse :=
  let! resp := wrapped "making api request: " (request TrustedPassTokenURL MethodPost "" token) "" in
  wrapped "decoding response body: " (of_result (decode resp)) "".

Definition MultifactorAuthStatus `{JsonIn MultifactorAuthStatusResponse} (token : string) : M T MultifactorAuthStatusResponse :=
  let! resp := wrapped "making api request: " (request MFAStatusURL MethodGet "" token) "" in
  wrapped "decoding response body: " (of_result (decode resp)) "".

Definition TokenRenew `{JsonOut RenewRequest} `{JsonIn TokenRenewResponse} (token : string) : M T TokenRenewResponse :=
  if bool_decide (token = "") then throw (Sentinel ErrBadRequest)
  else
    let! data := of_result (json_Marshal (mkRenewRequest token)) in
    let! resp := request_open TokenRenewURL MethodPost data in of_result (decode resp).

Definition Servers_ `{JsonIn (list Server)} : M T (list Server * Header) :=
  let! resp := request_open (ServersURL +:+ ServersURLConnectQuery) MethodGet "" in
  let! servers := of_result (decode resp) in ret (servers, rs_Header resp).

Definition ServersCountries `{JsonIn (list Country)} : M T (list Country * Header) :=
  let! resp := request_open ServersCountriesURL MethodGet "" in
  let! countries := of_result (decode resp) in ret (countries, rs_Header resp).

Definition filter_query (filter : ServersFilter) : string :=
  let group := flt_Group filter in
  let byTag :=
    match st_Action (flt_Tag filter) with
    | ServerBySpeed => if group =? UNDEFINED then sprintf RecommendedServersGroupsFilter [pretty (st_ID (flt_Tag filter))] else ""
    | ServerByCountry => sprintf RecommendedServersCountryFilter [pretty (st_ID (flt_Tag filter))]
    | ServerByCity => sprintf RecommendedServersCityFilter [pretty (st_ID (flt_Tag filter))]
    | _ => ""
    end in
  byTag +:+ (if group =? UNDEFINED then "" else sprintf RecommendedServersGroupsFilter [pretty group]).

Definition recommended_url (filter : ServersFilter) (longitude latitude : float64) : string :=
  RecommendedServersURL +:+
  sprintf RecommendedServersURLConnectQuery
    [pretty (flt_Limit filter); pretty (tech_number (flt_Tech filter)); fmt_f longitude; fmt_f latitude] +:+ filter_query filter.

Definition RecommendedServers `{JsonIn (list Server)} (filter : ServersFilter) (longitude latitude : float64) : M T (list Server * Header) :=
  let! resp := request_open (recommended_url filter longitude latitude) MethodGet "" in
  let! servers := of_result (decode resp) in ret (servers, rs_Header resp).

Definition Server_ `{JsonIn (list Server)} (id : Z) : M T Server :=
  let! resp := request_open (ServersURL +:+ sprintf ServersURLSpecificQuery [pretty id]) MethodGet "" in
  let! servers := of_result (decode resp) in
  match servers with [server] => ret server | _ => throw (Errorf "invalid response") end.

Definition Insights_ {Insights} `{JsonIn Insights} : M T Insights :=
  let! resp := request_open InsightsURL MethodGet "" in of_result (decode resp).

Definition NotificationCredentials `{JsonOut NotificationCredentialsRequest} `{JsonIn NotificationCredentialsResponse}
    (token appUserID : string) : M T NotificationCredentialsResponse :=
  let! data := wrapped "marshaling the request data: " (of_result (json_Marshal (mkNcRequest appUserID linuxPlatformID))) "" in
  let! req := wrapped "creating nc credentials request: "
    (of_result (NewRequestWithBearerToken MethodPost (da_agent api) (da_baseURL api) notificationTokenURL "application/json" "" "gzip, deflate" data token)) "" in
  let! rawResp := wrapped "executing HTTP POST request: " (do req) "" in
  let! out := wrapped "reading HTTP response body: " (of_result (rs_Body rawResp)) "" in
  wrapped "unmarshalling HTTP response: " (of_result (json_Unmarshal out)) "".

Definition NotificationCredentialsRevoke `{JsonOut NotificationCredentialsRevokeRequest} `{JsonIn NotificationCredentialsRevokeResponse}
    (token appUserID : string) (purgeSession : bool) : M T NotificationCredentialsRevokeResponse :=
  if bool_decide (appUserID = "") then throw (Errorf "refusing to send a request with empty appUserID")
  else
    let! data := wrapped "marshaling the request data: " (of_result (json_Marshal (mkNcRevokeRequest appUserID purgeSession))) "" in
    let! req := wrapped "creating nc credentials revoke request: "
      (of_result (NewRequestWithBearerToken MethodPost (da_agent api) (da_baseURL api) notificationTokenRevokeURL "application/json" "" "gzip, deflate" data token)) "" in
    let! rawResp := wrapped "executing HTTP POST request: " (do req) "" in
    let! out := wrapped "reading HTTP response body: " (of_result (rs_Body rawResp)) "" in
    wrapped "unmarshalling HTTP response: " (of_result (json_Unmarshal out)) "".

Definition Logout (token : string) : M T unit := let! _ := request urlOAuth2Logout MethodPost "" token in ret tt.
End Calls.

(** ** The CDN *)

Record CDNAPI : Type := mkCDNAPI { cn_agent : string; cn_baseURL : string; cn_validator : Validator }.
Definition NewCDNAPI (agent baseURL : string) (validator : Validator) : CDNAPI := mkCDNAPI agent baseURL validator.

Definition mandatoryHeadersExist (headers : Header) : bool :=
  forallb (fun key => match headers !! key with Some _ => true | None => false end)
    ["X-Authorization"; "X-Digest"; "X-Accept-Before"; "X-Signature"].

Section Cdn.
Context {T : Type} `{Http T} `{Signing T} `{JsonIn apiError}.
Context (api : CDNAPI).

(** When the error is extracted the body of the response has been read to its end. *)
Definition cdn_request (path method : string) : M T Response :=
  let! req := of_result (NewRequest method (cn_agent api) (cn_baseURL api) path "" "" "gzip, deflate" "") in
  let! resp := client_Do req in
  let! reader := of_result (body_of method resp) in
  let! body := of_result reader in
  (if bool_decide (method = MethodHead) then
     if mandatoryHeadersExist (rs_Header resp) then ret tt else throw (Errorf "some of mandatory response headers do not exist")
   else wrapped "cdn api: " (Validate (cn_validator api) (rs_StatusCode resp) (rs_Header resp) body) "") ;;
  match error_of req (resp <| rs_Body := Ok "" |>) with
  | Some e => throw e
  | None => ret (resp <| rs_Body := Ok body |>)
  end.

Definition ConfigTemplate (isObfuscated : bool) (method : string) : M T (Header * string) :=
  let! resp := cdn_request (if isObfuscated then ovpnObfsTemplateURL else ovpnTemplateURL) method in
  let! body := of_result (rs_Body resp) in ret (rs_Header resp, body).

Definition ThreatProtectionLite `{JsonIn NameServersResponse} : M T NameServersResponse :=
  let! resp := cdn_request threatProtectionLiteURL MethodGet in
  let! body := of_result (rs_Body resp) in of_result (json_Unmarshal body).
End Cdn.

(** ** Logging in *)

(** The attempt in progress: the challenge was sent, the verifier and the attempt get
    the token. *)
Record OAuth2 (T : Type) : Type := mkOAuth2 {
  oa_baseURL : string;
  oa_challenge : string;
  oa_verifier : string;
  oa_attempt : string;
  oa_env : T
}.
Arguments mkOAuth2 {T} _ _ _ _ _.
Arguments oa_baseURL {T} _.
Arguments oa_challenge {T} _.
Arguments oa_verifier {T} _.
Arguments oa_attempt {T} _.
Arguments oa_env {T} _.
#[export] Instance eta_OAuth2 T : EtaExpand (OAuth2 T) := fun o =>
  mkOAuth2 (oa_baseURL o) (oa_challenge o) (oa_verifier o) (oa_attempt o) (oa_env o).

Section Login.
Context {T : Type} `{Http T} `{Signing T} `{JsonIn apiError}.
Abbreviation A := (M (OAuth2 T)).

Definition NewOAuth2 (baseURL : string) (env : T) : OAuth2 T := mkOAuth2 baseURL "" "" "" env.
Definition oa_call {X} (m : M T X) : A X := zoom oa_env (fun t o => o <| oa_env := t |>) m.

(** [query.Encode()] of values in the order of their keys. *)
Definition query_encode (values : list (string * string)) : string :=
  strings_Join (map (fun kv => url_Escape kv.1 +:+ "=" +:+ url_Escape kv.2) values) "&".

(** The digest of the text of the verifier. *)
Definition newProofKeyPair (length : nat) : M T (string * string) :=
  let! verifier := rand_Read length in ret (verifier, hex_sha256 verifier).

(** [client.Do] without a check of the signature. *)
Definition plain_do (method url : string) : A (Request * Response) :=
  let! req := of_result (http_NewRequest method url [("Content-Type", "application/json")] "") in
  let! resp := oa_call (client_Do req) in
  match error_of req resp with Some e => throw e | None => ret (req, resp) end.

(** [url.Parse] of the address without the query. *)
Definition parse_address (url : string) : A unit :=
  if negb (escapes_ok (url_path url)) then throw (Errorf ("parse " +:+ url +:+ ": invalid URL escape"))
  else match url_Parse url with Some e => throw e | None => ret tt end.

Definition Login `{JsonIn oAuth2LoginResponse} : A string :=
  let! base := gets oa_baseURL in
  let path := base +:+ urlOAuth2Login in
  parse_address path ;;
  let! pair := attempt (oa_call (newProofKeyPair 24)) in
  match pair with
  | Err e => set! oa_verifier := "" ;; set! oa_challenge := "" ;; throw e
  | Ok (verifier, challenge) =>
      set! oa_verifier := verifier ;;
      set! oa_challenge := challenge ;;
      let! r := plain_do MethodPost (path +:+ "?" +:+ query_encode [("challenge", challenge); ("preferred_flow", "login"); ("redirect_flow", "default")]) in
      let! response := of_result (unmarshal r.2) in
      set! oa_attempt := ol_Attempt response ;;
      ret (ol_URI response)
  end.

Definition Token `{JsonIn LoginResponse} (exchangeToken : string) : A LoginResponse :=
  let! base := gets oa_baseURL in
  let path := base +:+ urlOAuth2Token in
  parse_address path ;;
  let! attempt_ := gets oa_attempt in
  let! verifier := gets oa_verifier in
  let! r := plain_do MethodGet (path +:+ "?" +:+ query_encode [("attempt", attempt_); ("exchange_token", exchangeToken); ("verifier", verifier)]) in
  of_result (unmarshal r.2).
End Login.

(** ** Transports *)

(** Two transports of which the second is preferred; after it failed it is tried again
    when [h3ReviveTime] has passed. *)
Record RotatingRoundTripper (T : Type) : Type := mkRotating {
  ro_isCurrentH3 : bool;
  ro_lastH3AttemptMilli : Z;
  ro_h3ReviveTime : Z;  (* nanoseconds *)
  ro_env : T
}.
Arguments mkRotating {T} _ _ _ _.
Arguments ro_isCurrentH3 {T} _.
Arguments ro_lastH3AttemptMilli {T} _.
Arguments ro_h3ReviveTime {T} _.
Arguments ro_env {T} _.
#[export] Instance eta_Rotating T : EtaExpand (RotatingRoundTripper T) := fun r =>
  mkRotating (ro_isCurrentH3 r) (ro_lastH3AttemptMilli r) (ro_h3ReviveTime r) (ro_env r).

Class Transports (T : Type) : Type := {
  h1_RoundTrip : Request -> M T Response;
  h3_RoundTrip : Request -> M T Response;
  h3_create : T -> T;
  time_Nano : T -> Z * T
}.

Section Rotating.
Context {T : Type} `{Transports T}.
Abbreviation R := (M (RotatingRoundTripper T)).

Definition NewRotatingRoundTripper (h3ReviveTime : Z) (env : T) : RotatingRoundTripper T := mkRotating false 0 h3ReviveTime env.
Definition ro_call {X} (m : M T X) : R X := zoom ro_env (fun t r => r <| ro_env := t |>) m.
Definition ro_Now : R Z := ro_call (fun t => let '(z, t') := time_Nano t in (Ok z, t')).

Definition milli : Z := 1000000.

(** Back to the preferred transport when its time has come. *)
Definition revive : R unit :=
  let! isH3 := gets ro_isCurrentH3 in
  when (negb isH3) (
    let! now := ro_Now in
    let! last := gets ro_lastH3AttemptMilli in
    let! h3ReviveTime := gets ro_h3ReviveTime in
    when (last * milli + h3ReviveTime <? now) (
      let! now := ro_Now in
      set! ro_lastH3AttemptMilli := now / milli ;;
      set! ro_isCurrentH3 := true)).

Definition RoundTrip (req : Request) : R Response :=
  revive ;;
  let! isH3 := gets ro_isCurrentH3 in
  if (isH3 : bool) then
    let! r := attempt (ro_call (h3_RoundTrip req)) in
    match r with
    | Ok resp => ret resp
    | Err _ => set! ro_isCurrentH3 := false ;; ro_call (h1_RoundTrip req)
    end
  else ro_call (h1_RoundTrip req).

(** *** QUIC *)

Definition shouldRecreate (err : option error) : bool :=
  match err with
  | None => false
  | Some e =>
      let text := error_text e in
      str_contains text "Application error 0x100" || str_contains text "no recent network activity" ||
      str_contains text "Timeout exceeded while awaiting headers"
  end.

(** One request at a time: the flag is true when the lock is taken. *)
Definition executeRequest (req : Request) : M T Response :=
  let! r := attempt (h3_RoundTrip req) in
  if shouldRecreate (match r with Err e => Some e | Ok _ => None end)
  then modify h3_create ;; h3_RoundTrip req
  else of_result r.
End Rotating.
