(* ===== verification/MeshClient.v ===== *)
(** * MeshClient: the meshnet part of the API

    Models [core/mesh.go], [core/mesh/json.go] and [meshnet/registry/registry.go]: the
    requests of the meshnet, their data, and the registry that tells when this machine
    was removed.  Identifiers are texts; the text of JSON is a parameter. *)

From stdpp Require Import base option list strings pretty gmap.
From Stdlib Require Import ZArith Ascii Lia.
From S2P Require Import Prelude GoLib Api Mesh Networker MeshnetServer Auth Validate Client.
Set Warnings "-clear-no-such-hyp".

Open Scope Z_scope.
Open Scope go_scope.

(** ** URLs *)

Definition urlMeshRegister : string := "/v1/meshnet/machines".
Definition urlMeshMachines : string := "/v1/meshnet/machines/%s".
Definition urlMeshMachinesPeers : string := "/v1/meshnet/machines/%s/peers/%s".
Definition urlMeshMap : string := urlMeshMachines +:+ "/map".
Definition urlMeshPeers : string := urlMeshMachines +:+ "/peers".
Definition urlMeshUnpair : string := urlMeshMachines +:+ "/peers/%s".
Definition urlInvitationSend : string := urlMeshMachines +:+ "/invitations".
Definition urlSentInvitationsList : string := urlInvitationSend +:+ "/sent".
Definition urlReceivedInvitationsList : string := urlInvitationSend +:+ "/received".
Definition urlAcceptInvitation : string := urlInvitationSend +:+ "/%s/accept".
Definition urlRejectInvitation : string := urlInvitationSend +:+ "/%s/reject".
Definition urlRevokeInvitation : string := urlInvitationSend +:+ "/%s".
Definition urlNotifyFileTransfer : string := urlMeshMachines +:+ "/notifications/file-transfer".

Definition ErrPublicKeyNotProvided : string := "public key not provided".
Definition ErrPeerOSNotProvided : string := "os not provided".

(** ** Data *)

Record MachineCreateRequest : Type := mkMachineCreateRequest {
  mq_PublicKey : string; mq_HardwareID : string; mq_OS : string; mq_Distro : string;
  mq_Endpoints : list string; mq_SupportsRouting : bool }.
Record MachineCreateResponse : Type := mkMachineCreateResponse {
  mc_Identifier : string; mc_PublicKey : string; mc_Hostname : string; mc_OS : string; mc_Distro : string;
  mc_Endpoints : list string; mc_Addresses : list Addr; mc_SupportsRouting : bool; mc_Nickname : string }.
Record MachinePeerResponse : Type := mkMachinePeerResponse {
  mr_ID : string; mr_PublicKey : string; mr_Hostname : string; mr_OS : string; mr_Distro : string;
  mr_Endpoints : list string; mr_Addresses : list Addr; mr_IsLocal : bool; mr_Email : string;
  mr_DoesPeerAllowRouting : bool; mr_DoesPeerAllowInbound : bool; mr_DoesPeerAllowLocalNetwork : bool;
  mr_DoesPeerSupportRouting : bool; mr_DoesPeerAllowFileshare : bool;
  mr_DoIAllowInbound : bool; mr_DoIAllowRouting : bool; mr_DoIAllowLocalNetwork : bool; mr_DoIAllowFileshare : bool;
  mr_AlwaysAcceptFiles : bool; mr_Nickname : string }.

Definition Hosts : Type := gmap string Addr.

(** The value of [dns.hosts] is the text that is given to [Hosts.UnmarshalJSON]. *)
Record MachineMapResponse : Type := mkMachineMapResponse {
  mp_ID : string; mp_PublicKey : string; mp_Hostname : string; mp_OS : string; mp_Distro : string;
  mp_Endpoints : list string; mp_Addresses : list Addr; mp_SupportsRouting : bool; mp_hosts : option string;
  mp_Peers : list MachinePeerResponse; mp_Nickname : string }.

Record AcceptInvitationRequest : Type := mkAcceptInvitationRequest {
  ai_AllowInbound : bool; ai_AllowRouting : bool; ai_AllowLocalNetwork : bool; ai_AllowFileshare : bool }.
Record SendInvitationRequest : Type := mkSendInvitationRequest {
  si_Email : string; si_AllowInbound : bool; si_AllowRouting : bool; si_AllowLocalNetwork : bool; si_AllowFileshare : bool }.
Record NotificationNewTransactionRequest : Type := mkNotificationNewTransactionRequest {
  nt_ReceiverMachineIdentifier : string; nt_FileName : string; nt_FileCount : Z; nt_TransferID : string }.

(** The addresses of the hosts. *)
Fixpoint parse_hosts (unparsed : list (string * string)) (h : Hosts) : result Hosts :=
  match unparsed with
  | [] => Ok h
  | (name, addr) :: unparsed' =>
      match ParseAddr addr with None => Err (Errorf ("ParseAddr(" +:+ addr +:+ ")")) | Some ip => parse_hosts unparsed' (<[name := ip]> h) end
  end.

(** The receiver is a copy of the map: the new map does not reach the caller, which
    keeps the one it has.  Gives what the caller has then. *)
Definition Hosts_UnmarshalJSON `{JsonIn (list (string * string))} (h : Hosts) (b : string) : result Hosts :=
  match json_Unmarshal b with
  | Err e => Err e
  | Ok unparsed => match parse_hosts unparsed ∅ with Err e => Err e | Ok _ => Ok h end
  end.

(** The hosts and the text of the map beside [MachineMap]. *)
Record MapResult : Type := mkMapResult { mt_Map : MachineMap; mt_Hosts : Hosts; mt_Raw : string }.

Definition first_address (addresses : list Addr) : Addr := default AddrInvalid (head addresses).

Definition peersResponseToMachinePeers (rawPeers : list MachinePeerResponse) : list MachinePeer :=
  map (fun p => mkMachinePeer (mr_ID p) (mr_Hostname p) (mkOS (mr_OS p) (mr_Distro p)) (mr_PublicKey p) (mr_Endpoints p)
    (first_address (mr_Addresses p)) (mr_Email p) (mr_IsLocal p) (mr_DoesPeerAllowRouting p) (mr_DoesPeerAllowInbound p)
    (mr_DoesPeerAllowLocalNetwork p) (mr_DoesPeerAllowFileshare p) (mr_DoesPeerSupportRouting p) (mr_DoIAllowInbound p)
    (mr_DoIAllowRouting p) (mr_DoIAllowLocalNetwork p) (mr_DoIAllowFileshare p) (mr_AlwaysAcceptFiles p) (mr_Nickname p)) rawPeers.

Definition peersResponseToLocalPeers (rawPeers : list MachinePeerResponse) : list Machine :=
  map (fun p => mkMachine (mr_ID p) "" (mr_Hostname p) (mkOS (mr_OS p) (mr_Distro p)) (mr_PublicKey p) (mr_Endpoints p)
    (first_address (mr_Addresses p)) false (mr_Nickname p)) rawPeers.

(** ** Requests *)

Section Mesh.
Context {T : Type} `{Http T} `{Signing T} `{JsonIn apiError}.
Context (api : DefaultAPI).

(** What every call does with the response: the error a second time, then the body. *)
Definition mesh_request (path method data token : string) : M T Response :=
  let! resp := request api path method data token in
  match error_of (mkRequest method (da_baseURL api +:+ path) [] "") resp with Some e => throw e | None => ret resp end.

Definition mesh_read {A} `{JsonIn A} (resp : Response) : M T (string * A) :=
  let! body := of_result (rs_Body resp) in
  let! raw := of_result (json_Unmarshal body) in ret (body, raw).

Definition mesh_send (path method data token : string) : M T unit := let! _ := mesh_request path method data token in ret tt.

Definition Register `{JsonOut MachineCreateRequest} `{JsonIn MachineCreateResponse} (token : string) (peer : Machine) : M T Machine :=
  if bool_decide (m_PublicKey peer = "") then throw (Sentinel ErrPublicKeyNotProvided)
  else if bool_decide (os_Name (m_OS peer) = "") || bool_decide (os_Distro (m_OS peer) = "") then throw (Sentinel ErrPeerOSNotProvided)
  else
    let! data := of_result (json_Marshal (mkMachineCreateRequest (m_PublicKey peer) (m_HardwareID peer) (os_Name (m_OS peer))
      (os_Distro (m_OS peer)) (m_Endpoints peer) (m_SupportsRouting peer))) in
    let! resp := mesh_request urlMeshRegister MethodPost data token in
    let! r := mesh_read resp in
    let raw : MachineCreateResponse := r.2 in
    match mc_Addresses raw with
    | [] => throw (Errorf "invalid response")
    | addr :: _ => ret (mkMachine (mc_Identifier raw) "" (mc_Hostname raw) (m_OS peer) (m_PublicKey peer) (mc_Endpoints raw) addr
                      (mc_SupportsRouting raw) (mc_Nickname raw))
    end.

Definition Update `{JsonOut MachineUpdateRequest} (token id : string) (info : MachineUpdateRequest) : M T unit :=
  let! data := of_result (json_Marshal info) in mesh_send (sprintf urlMeshMachines [id]) MethodPatch data token.

Definition Configure `{JsonOut PeerUpdateRequest} (token id peerID : string) (peerUpdateInfo : PeerUpdateRequest) : M T unit :=
  let! data := of_result (json_Marshal peerUpdateInfo) in mesh_send (sprintf urlMeshMachinesPeers [id; peerID]) MethodPatch data token.

Definition Unregister (token self : string) : M T unit := mesh_send (sprintf urlMeshMachines [self]) MethodDelete "" token.

(** The path is the format itself. *)
Definition Local `{JsonIn (list MachinePeerResponse)} (token : string) : M T (list Machine) :=
  let! resp := mesh_request urlMeshMachines MethodGet "" token in
  let! r := mesh_read resp in ret (peersResponseToLocalPeers r.2).

Definition Map `{JsonIn MachineMapResponse} `{JsonIn (list (string * string))} (token self : string) : M T MapResult :=
  let! resp := mesh_request (sprintf urlMeshMap [self]) MethodGet "" token in
  let! r := mesh_read resp in
  let raw : MachineMapResponse := r.2 in
  let! hosts := of_result (match mp_hosts raw with None => Ok ∅ | Some text => Hosts_UnmarshalJSON ∅ text end) in
  ret (mkMapResult
    (mkMachineMap (mkMachine (mp_ID raw) "" (mp_Hostname raw) (mkOS "" "") (mp_PublicKey raw) (mp_Endpoints raw)
                     (first_address (mp_Addresses raw)) (mp_SupportsRouting raw) (mp_Nickname raw))
                  (peersResponseToMachinePeers (mp_Peers raw)))
    hosts r.1).

Definition List_ `{JsonIn (list MachinePeerResponse)} (token self : string) : M T (list MachinePeer) :=
  let! resp := mesh_request (sprintf urlMeshPeers [self]) MethodGet "" token in
  let! r := mesh_read resp in ret (peersResponseToMachinePeers r.2).

Definition Unpair (token self peer : string) : M T unit := mesh_send (sprintf urlMeshUnpair [self; peer]) MethodDelete "" token.

Definition Invite `{JsonOut SendInvitationRequest} (token self email : string)
    (doIAllowInbound doIAllowRouting doIAllowLocalNetwork doIAllowFileshare : bool) : M T unit :=
  let! data := of_result (json_Marshal (mkSendInvitationRequest email doIAllowInbound doIAllowRouting doIAllowLocalNetwork doIAllowFileshare)) in
  mesh_send (sprintf urlInvitationSend [self]) MethodPost data token.

Definition Received `{JsonIn (list Invitation)} (token self : string) : M T (list Invitation) :=
  let! resp := mesh_request (sprintf urlReceivedInvitationsList [self]) MethodGet "" token in
  let! r := mesh_read resp in ret r.2.

Definition Sent `{JsonIn (list Invitation)} (token self : string) : M T (list Invitation) :=
  let! resp := mesh_request (sprintf urlSentInvitationsList [self]) MethodGet "" token in
  let! r := mesh_read resp in ret r.2.

Definition Accept `{JsonOut AcceptInvitationRequest} (token self invitation : string)
    (doIAllowInbound doIAllowRouting doIAllowLocalNetwork doIAllowFileshare : bool) : M T unit :=
  let! data := of_result (json_Marshal (mkAcceptInvitationRequest doIAllowInbound doIAllowRouting doIAllowLocalNetwork doIAllowFileshare)) in
  mesh_send (sprintf urlAcceptInvitation [self; invitation]) MethodPost data token.

Definition Reject (token self invitation : string) : M T unit :=
  mesh_send (sprintf urlRejectInvitation [self; invitation]) MethodPost "" token.
Definition Revoke (token self invitation : string) : M T unit :=
  mesh_send (sprintf urlRevokeInvitation [self; invitation]) MethodDelete "" token.

(** The error of the request is returned before it is compared. *)
Definition NotifyNewTransfer `{JsonOut NotificationNewTransactionRequest} (token self peer fileName : string) (fileCount : Z)
    (transferID : string) : M T unit :=
  let! data := wrapped "marshaling request: "
    (of_result (json_Marshal (mkNotificationNewTransactionRequest peer fileName fileCount transferID))) "" in
  let! r := attempt (request api (sprintf urlNotifyFileTransfer [self]) MethodPost data token) in
  match r with
  | Err e => throw e
  | Ok resp =>
      match error_of (mkRequest MethodPost (da_baseURL api +:+ sprintf urlNotifyFileTransfer [self]) [] "") resp with
      | Some e => throw e
      | None => ret tt
      end
  end.
End Mesh.

(** ** The registry *)

(** How often it was published that this machine was removed. *)
Record Registry (T : Type) : Type := mkRegistry { rg_inner : T; rg_selfRemoved : nat }.
Arguments mkRegistry {T} _ _.
Arguments rg_inner {T} _.
Arguments rg_selfRemoved {T} _.
#[export] Instance eta_Registry T : EtaExpand (Registry T) := fun r => mkRegistry (rg_inner r) (rg_selfRemoved r).

Section Registry.
Context {T : Type}.
Abbreviation G := (M (Registry T)).

Definition rg_call {X} (m : M T X) : G X := zoom rg_inner (fun t r => r <| rg_inner := t |>) m.
Definition notifySelfRemoved : G unit := modify (fun r => r <| rg_selfRemoved := S (rg_selfRemoved r) |>).

(** [List] and [Map] of the registry. *)
Definition watch {X} (m : M T X) : G X :=
  let! r := attempt (rg_call m) in
  match r with
  | Ok resp => ret resp
  | Err e => when (str_contains (error_text e) "Machine not found") notifySelfRemoved ;; throw e
  end.
End Registry.
