(* ===== verification/ClientProps.v ===== *)
(** * ClientProps: properties of the API client

    What the client hands on was issued by the API; the pair of verifier and challenge of
    a login; which meshnet requests cannot work; how the transports fall back. *)

From stdpp Require Import base option list strings pretty gmap.
From Stdlib Require Import ZArith Ascii Lia.
From S2P Require Import Prelude GoLib GoText Api Mesh Networker MeshnetServer Auth Servers Validate Client MeshClient.
Set Warnings "-clear-no-such-hyp".

Open Scope Z_scope.
Open Scope go_scope.

Section Answers.
Context {T : Type} `{Http T} `{Signing T} `{JsonIn apiError}.
Context (api : DefaultAPI).

Lemma of_result_ok {S A} (r : result A) (s s' : S) a : of_result r s = (Ok a, s') <-> r = Ok a /\ s' = s.
Proof. destruct r; cbn; split; [intros [= -> ->]|intros [[= ->] ->]|intros [=]|intros [[=] _]]; done. Qed.

Lemma bind_ok_inv {S A B} (m : M S A) (k : A -> M S B) s b s' :
  bind m k s = (Ok b, s') -> exists a s1, m s = (Ok a, s1) /\ k a s1 = (Ok b, s').
Proof. unfold bind. destruct (m s) as [[a|e] s1]; [|done]. by exists a, s1. Qed.

Lemma wrapped_ok_inv {S A} pre (m : M S A) post s a s' : wrapped pre m post s = (Ok a, s') -> m s = (Ok a, s').
Proof. unfold wrapped. destruct (m s) as [[b|e] s1]; [done|intros [=]]. Qed.

(** A response of the client: what the transport gave, with the body that was read; it
    was validated and is no error. *)
Lemma do_ok req t resp t' : do api req t = (Ok resp, t') ->
  exists raw t1 body,
    client_Do req t = (Ok raw, t1) /\ body_of (rq_Method req) raw = Ok (Ok body) /\ resp = raw <| rs_Body := Ok body |> /\
    Validate (da_validator api) (rs_StatusCode raw) (rs_Header raw) body t1 = (Ok tt, t') /\ rs_StatusCode resp < 400.
Proof.
  unfold do. intros Hd. apply bind_ok_inv in Hd as (raw & t1 & Hc & Hd). apply bind_ok_inv in Hd as (reader & t2 & Hr & Hd).
  apply of_result_ok in Hr as [Hr ->]. apply bind_ok_inv in Hd as (body & t3 & Hb & Hd). apply of_result_ok in Hb as [-> ->].
  cbn zeta in Hd. apply bind_ok_inv in Hd as ([] & t2 & Hv & Hd). apply wrapped_ok_inv in Hv.
  assert (Hs : forall r : Response, error_of req r = None -> rs_StatusCode r < 400).
  { intros r. unfold error_of, ExtractError. cbn [resp_StatusCode]. destruct (Z.ltb_spec (rs_StatusCode r) 400); [done|].
    destruct (rs_StatusCode r =? 500); [done|]. destruct (rs_StatusCode r =? 429); [done|]. cbn [resp_body].
    by destruct (rs_Body r) as [b|]; [destruct (json_Unmarshal b)|]. }
  destruct (error_of req _) eqn:He; [done|]. injection Hd as <- <-. exists raw, t1, body. split_and!; [done|done|done|exact Hv|by apply Hs in He].
Qed.

(** C19: what the client hands on to the rest of the daemon was issued by the API. Let
    only the holder of the keys be able to sign, and let a hash have its fixed length.
    When a call through the validator of the API succeeds, its response is below 400
    and its signed digest is that of a body that the API signed for use up to a time
    that had not passed when the response came. For a code from 200 to 299 the body
    has that digest, so the transport, which may be in the hands of anyone, cannot
    make one up, change one or keep one for later. For another accepted code, as of a
    redirect, this need not hold: any body passes with the signed digest of an empty
    one. *)
Theorem answers_are_issued (v : NordValidator) (Issued : Z -> string -> Prop) `{!SigningLaws v Issued} req t resp t'
    (Hv : da_validator api = Nord v) (Hok : do api req t = (Ok resp, t')) :
  rs_StatusCode resp < 400 /\
  exists raw t1 body until issued,
    client_Do req t = (Ok raw, t1) /\ rs_Body resp = Ok body /\ Issued until issued /\ (time_Unix t1).1 <= until /\
    (hex_sha256 body = hex_sha256 issued \/ (is_2xx (rs_StatusCode resp) = false /\ hex_sha256 issued = hex_sha256 "")).
Proof.
  apply do_ok in Hok as (raw & t1 & body & Hc & Hb & -> & Hval & Hs). split; [done|].
  rewrite Hv in Hval. cbn [Validate] in Hval. apply (f_equal fst) in Hval. cbn [fst] in Hval.
  destruct (accepted_issued v Issued _ _ _ _ Hval) as (until & issued & Hi & Hl & Hd). by exists raw, t1, body, until, issued.
Qed.

(** The second extraction of the error never finds one. *)
Lemma mesh_request_request path method data token t :
  mesh_request api path method data token t = request api path method data token t.
Proof.
  unfold mesh_request, bind. destruct (request api path method data token t) as [[resp|e] t'] eqn:E; [|done].
  unfold request in E. apply bind_ok_inv in E as (req & t1 & _ & E). apply do_ok in E as (raw & t2 & body & _ & _ & _ & _ & Hs).
  unfold error_of, ExtractError. cbn [resp_StatusCode]. by destruct (Z.ltb_spec (rs_StatusCode resp) 400); [|lia].
Qed.

(** *** Requests of the meshnet that cannot work *)

Lemma url_path_app s t : no_char "?" s -> url_path (s +:+ t) = s +:+ url_path t.
Proof.
  induction s as [|c s IH]; [done|]. intros [Hc Hs]. change (url_path (String c (s +:+ t)) = String c (s +:+ url_path t)).
  rewrite <- IH by done. destruct c as [[] [] [] [] [] [] [] []]; try done. 
Qed.

Lemma escapes_bad s : escapes_ok (s +:+ "%s") = false.
Proof.
  assert (Hg : forall n s, (String.length s <= n)%nat -> escapes_ok (s +:+ "%s") = false); [|by apply (Hg (String.length s))].
  clear s. induction n as [|n IH]; intros [|c s] Hl; cbn [String.length] in Hl; try lia; [done..|].
  change (String c s +:+ "%s") with (String c (s +:+ "%s")).
  assert (Hn : escapes_ok (s +:+ "%s") = false) by (apply IH; lia).
  destruct (decide (c = "%"%char)) as [->|Hc].
  - destruct s as [|a [|b s]]; [done| |].
    + change (is_hex a && is_hex "%"%char && escapes_ok "s" = false). by destruct (is_hex a).
    + change (is_hex a && is_hex b && escapes_ok (s +:+ "%s") = false). rewrite (IH s) by (cbn [String.length] in Hl; lia). apply andb_false_r.
  - transitivity (escapes_ok (s +:+ "%s")); [|done]. destruct c as [[] [] [] [] [] [] [] []]; try reflexivity; by destruct Hc.
Qed.

(** The machines of the account are never listed.  The path of the request is the
    format of the address of a machine, whose verb is no escape of a URL, so no request
    is made: the call fails whatever the token, the answer and the transport, which
    leaves the peers unknown to a machine whose registration is being checked. *)
Theorem local_machines_never_listed `{JsonIn (list MachinePeerResponse)} token t (Hbase : no_char "?" (da_baseURL api)) :
  exists e, Local api token t = (Err e, t).
Proof.
  assert (Hr : exists e, request api urlMeshMachines MethodGet "" token t = (Err e, t)).
  { unfold request, NewRequestWithBearerToken, NewRequest, http_NewRequest.
    rewrite url_path_app by done. change (url_path urlMeshMachines) with ("/v1/meshnet/machines/" +:+ "%s").
    rewrite <- str_app_assoc, escapes_bad. cbn [negb]. by eexists. }
  destruct Hr as [e Hr]. exists e. unfold Local. by rewrite (bind_Err _ _ _ _ _ (eq_trans (mesh_request_request _ _ _ _ _) Hr)).
Qed.

(** The internal error of the server is reported like any other. *)
Lemma notify_reports_all `{JsonOut NotificationNewTransactionRequest} token self peer fileName fileCount transferID data e t t' :
  json_Marshal (mkNotificationNewTransactionRequest peer fileName fileCount transferID) = Ok data ->
  request api (sprintf urlNotifyFileTransfer [self]) MethodPost data token t = (Err e, t') ->
  NotifyNewTransfer api token self peer fileName fileCount transferID t = (Err e, t').
Proof.
  intros Hd Hr. unfold NotifyNewTransfer. rewrite Hd. unfold bind at 1, wrapped. cbn [of_result ret].
  by rewrite (bind_attempt _ _ _ _ _ Hr).
Qed.

(** The hosts of a map never arrive. *)
Lemma map_hosts_lost `{JsonIn MachineMapResponse} `{JsonIn (list (string * string))} token self t r t' :
  Map api token self t = (Ok r, t') -> mt_Hosts r = ∅.
Proof.
  unfold Map. intros Hm. apply bind_ok_inv in Hm as (resp & t1 & _ & Hm). apply bind_ok_inv in Hm as ([body raw] & t2 & _ & Hm).
  cbn zeta in Hm. apply bind_ok_inv in Hm as (hosts & t3 & Hh & Hm). apply of_result_ok in Hh as [Hh ->]. injection Hm as <- _. cbn.
  cbn [snd] in Hh. destruct (mp_hosts raw) as [text|]; [|by injection Hh as <-]. unfold Hosts_UnmarshalJSON in Hh.
  destruct (json_Unmarshal text) as [u|]; [|done]. destruct (parse_hosts u ∅); [|done]. by injection Hh as <-.
Qed.
End Answers.

(** ** Errors of the CDN *)

Section CdnErrors.
Context {T : Type} `{Http T} `{Signing T} `{JsonIn apiError}.

(** What [cdn_request] extracts of a response with an error: its body was read before,
    and what is left is no JSON.  Only 429 and 500 are known by their code. *)
Lemma cdn_error_unrecognised req (resp : Response) e target :
  json_Unmarshal (A := apiError) "" = Err e -> errors_Is e target = false ->
  400 <= rs_StatusCode resp -> rs_StatusCode resp <> 429 -> rs_StatusCode resp <> 500 ->
  exists e', error_of req (resp <| rs_Body := Ok "" |>) = Some e' /\ errors_Is e' target = false.
Proof.
  intros Hj He Hc H429 H500. unfold error_of, ExtractError. cbn [resp_StatusCode resp_body].
  change (rs_StatusCode (resp <| rs_Body := Ok "" |>)) with (rs_StatusCode resp).
  change (rs_Body (resp <| rs_Body := Ok "" |>)) with (@Ok string "").
  destruct (Z.ltb_spec (rs_StatusCode resp) 400); [lia|]. destruct (Z.eqb_spec (rs_StatusCode resp) 500); [done|].
  destruct (Z.eqb_spec (rs_StatusCode resp) 429); [done|]. rewrite Hj. eexists. by split.
Qed.
End CdnErrors.

(** ** Logging in *)

Section Pairs.
Context {T : Type} `{Http T} `{Signing T} `{JsonIn apiError} `{JsonIn oAuth2LoginResponse} `{JsonIn LoginResponse}.
Implicit Type o : OAuth2 T.

Definition login_query (challenge : string) : string :=
  query_encode [("challenge", challenge); ("preferred_flow", "login"); ("redirect_flow", "default")].
Definition token_query (attempt_ exchangeToken verifier : string) : string :=
  query_encode [("attempt", attempt_); ("exchange_token", exchangeToken); ("verifier", verifier)].

Lemma plain_do_ok method url o req resp o' : plain_do method url o = (Ok (req, resp), o') ->
  rq_URL req = url /\ rq_Method req = method /\ rs_StatusCode resp < 400 /\
  exists t', client_Do req (oa_env o) = (Ok resp, t') /\ o' = o <| oa_env := t' |>.
Proof.
  unfold plain_do. intros Hd. apply bind_ok_inv in Hd as (rq & o1 & Hr & Hd). apply of_result_ok in Hr as [Hr ->].
  apply bind_ok_inv in Hd as (rs & o1 & Hc & Hd). unfold oa_call, zoom in Hc.
  destruct (client_Do rq (oa_env o)) as [r t'] eqn:Ec. injection Hc as -> <-.
  assert (Hs : error_of rq rs = None -> rs_StatusCode rs < 400).
  { unfold error_of, ExtractError. cbn [resp_StatusCode]. destruct (Z.ltb_spec (rs_StatusCode rs) 400); [done|].
    destruct (rs_StatusCode rs =? 500); [done|]. destruct (rs_StatusCode rs =? 429); [done|]. cbn [resp_body].
    by destruct (rs_Body rs) as [b|]; [destruct (json_Unmarshal b)|]. }
  destruct (error_of rq rs); [done|]. injection Hd as <- <- <-. unfold http_NewRequest in Hr.
  destruct (negb _); [done|]. destruct (url_Parse url); [done|]. injection Hr as <-. split_and!; [done|done|by apply Hs|]. by exists t'.
Qed.

Lemma parse_address_state url o r o' : parse_address url o = (r, o') -> o' = o.
Proof. unfold parse_address. destruct (negb _); [by intros [= _ <-]|]. destruct (url_Parse url); by intros [= _ <-]. Qed.

(** C22: the proof of a login.  A login that succeeds drew a new verifier, sent its digest
    as the challenge and keeps the verifier with the attempt that the answer to that very
    request named; a request for the token that follows carries exactly this attempt and
    this verifier, so only the process that began the login can finish it. *)
Theorem token_proves_login o uri o1 (Hlogin : Login o = (Ok uri, o1)) :
  exists verifier t1 req resp t2 body,
    rand_Read 24 (oa_env o) = (Ok verifier, t1) /\ client_Do req t1 = (Ok resp, t2) /\
    rq_URL req = oa_baseURL o +:+ urlOAuth2Login +:+ "?" +:+ login_query (hex_sha256 verifier) /\
    rs_Body resp = Ok body /\ json_Unmarshal body = Ok (mkOAuth2LoginResponse uri (oa_attempt o1)) /\
    forall exchangeToken answer o2, Token exchangeToken o1 = (Ok answer, o2) ->
      exists req2 resp2 t3, client_Do req2 t2 = (Ok resp2, t3) /\
        rq_URL req2 = oa_baseURL o +:+ urlOAuth2Token +:+ "?" +:+ token_query (oa_attempt o1) exchangeToken verifier.
Proof.
  unfold Login in Hlogin. rewrite bind_gets in Hlogin. apply bind_ok_inv in Hlogin as ([] & o' & Hp & Hlogin).
  apply parse_address_state in Hp as ->. unfold oa_call, zoom, newProofKeyPair in Hlogin.
  apply bind_ok_inv in Hlogin as (pair & o' & Hpair & Hlogin). unfold attempt, bind at 1 in Hpair.
  destruct (rand_Read 24 (oa_env o)) as [[verifier|e] t1] eqn:Er; injection Hpair as <- <-; [|done].
  rewrite !bind_modify in Hlogin. apply bind_ok_inv in Hlogin as ([req resp] & o' & Hd & Hlogin).
  apply plain_do_ok in Hd as (Hurl & _ & _ & t2 & Hc & ->). apply bind_ok_inv in Hlogin as ([uri' attempt'] & o'' & Hu & Hlogin).
  apply of_result_ok in Hu as [Hu ->]. rewrite bind_modify in Hlogin. injection Hlogin as Huri <-. cbn in Huri. subst uri'.
  unfold unmarshal in Hu. cbn [snd] in Hu. destruct (rs_Body resp) as [body|] eqn:Hb; [|done].
  exists verifier, t1, req, resp, t2, body. split_and!; try done; [by rewrite Hurl, str_app_assoc|].
  intros exchangeToken answer o2 Ht. unfold Token in Ht. rewrite bind_gets in Ht. apply bind_ok_inv in Ht as ([] & o' & Hp & Ht).
  apply parse_address_state in Hp as ->. rewrite !bind_gets in Ht. apply bind_ok_inv in Ht as ([req2 resp2] & o' & Hd & _).
  apply plain_do_ok in Hd as (Hurl2 & _ & _ & t3 & Hc2 & _). exists req2, resp2, t3. split; [exact Hc2|]. by rewrite Hurl2, str_app_assoc.
Qed.
End Pairs.

(** ** Transports *)

Section Fallback.
Context {T : Type} `{Transports T}.
Implicit Type r : RotatingRoundTripper T.

(** While the preferred transport rests, requests go to the other one only. *)
Lemma h3_rests req r now t' : ro_isCurrentH3 r = false -> time_Nano (ro_env r) = (now, t') ->
  now <= ro_lastH3AttemptMilli r * milli + ro_h3ReviveTime r ->
  RoundTrip req r = ro_call (h1_RoundTrip req) (r <| ro_env := t' |>).
Proof.
  intros Hh Ht Hn.
  assert (Hrev : revive r = (Ok tt, r <| ro_env := t' |>)).
  { unfold revive, ro_Now, ro_call, zoom, bind, when, gets. rewrite Hh. cbn. rewrite Ht. cbn.
    by destruct (Z.ltb_spec (ro_lastH3AttemptMilli r * milli + ro_h3ReviveTime r) now); [lia|]. }
  unfold RoundTrip. rewrite (bind_Ok _ _ _ _ _ Hrev), bind_gets. change (ro_isCurrentH3 (r <| ro_env := t' |>)) with (ro_isCurrentH3 r).
  by rewrite Hh.
Qed.

(** A request fails only when the other transport failed it, and the preferred one rests
    then. *)
Lemma round_trip_fails_on_h1 req r e r' : RoundTrip req r = (Err e, r') ->
  ro_isCurrentH3 r' = false /\ exists t, h1_RoundTrip req t = (Err e, ro_env r').
Proof.
  intros Hr. unfold RoundTrip in Hr.
  assert (Hrev : exists r1, revive r = (Ok tt, r1)).
  { unfold revive, ro_Now, ro_call, zoom, bind, when, gets. destruct (ro_isCurrentH3 r); cbn; [by eexists|].
    destruct (time_Nano (ro_env r)) as [z t]. cbn. destruct (_ <? z); cbn; [|by eexists]. destruct (time_Nano t). by eexists. }
  destruct Hrev as [r1 Hrev]. rewrite (bind_Ok _ _ _ _ _ Hrev) in Hr. cbv beta in Hr. rewrite bind_gets in Hr.
  assert (H1 : forall r2, ro_isCurrentH3 r2 = false -> ro_call (h1_RoundTrip req) r2 = (Err e, r') ->
    ro_isCurrentH3 r' = false /\ exists t, h1_RoundTrip req t = (Err e, ro_env r')).
  { intros r2 Hh. unfold ro_call, zoom. destruct (h1_RoundTrip req (ro_env r2)) as [x t] eqn:E. intros [= -> <-].
    split; [exact Hh|]. by exists (ro_env r2). }
  destruct (ro_isCurrentH3 r1) eqn:Hh; [|by apply (H1 r1)].
  unfold bind, attempt, ro_call at 1, zoom in Hr. destruct (h3_RoundTrip req (ro_env r1)) as [[resp|e2] t]; [done|].
  by apply (H1 (r1 <| ro_env := t |> <| ro_isCurrentH3 := false |>)).
Qed.

(** A request is sent at most twice over QUIC, the second time on a new connection. *)
Lemma quic_at_most_twice req t : executeRequest req t = h3_RoundTrip req t \/
  exists e t1, h3_RoundTrip req t = (Err e, t1) /\ shouldRecreate (Some e) = true /\ executeRequest req t = h3_RoundTrip req (h3_create t1).
Proof.
  unfold executeRequest, bind, attempt. destruct (h3_RoundTrip req t) as [[resp|e] t1]; [by left|].
  destruct (shouldRecreate (Some e)) eqn:Hs; [right; by exists e, t1|by left].
Qed.
End Fallback.

(** ** A client *)

Module Net.

(** Sixty-four characters of the text. *)
Definition digest (s : string) : string :=
  String.substring 0 64 (s +:+ "0000000000000000000000000000000000000000000000000000000000000000").
Definition issued_text : string := itoa 2000000000 +:+ digest "{}".

#[export] Instance signing : Signing unit := {|
  time_Unix := fun t => (1700000000, t);
  hex_sha256 := digest;
  base64_Decode := fun s => Ok s;
  ssh_Verify := fun _ text _ _ => if bool_decide (text = issued_text) then None else Some (Errorf "crypto/rsa: verification error");
  pem_Decode := fun s => Some s;
  x509_ParsePKIXPublicKey := fun s => Ok (Some s);
  ssh_NewPublicKey := fun s => Ok s;
  rsaKey1 := "key"
|}.

Definition headers : Header :=
  list_to_map [("X-Digest", [digest "{}"]); ("X-Authorization", ["key-id=rsa-key-1,algorithm=rsa-sha256"]);
               ("X-Accept-Before", ["2000000000"]); ("X-Signature", ["sig"])].

#[export] Instance http : Http unit := {|
  client_Do := fun req => ret (mkResponse 200 headers (Ok "{}"));
  url_Parse := fun _ => None;
  url_Escape := fun s => s;
  http_StatusText := fun _ => "";
  gzip_NewReader := fun b => Ok b;
  rand_Read := fun _ => ret "0123456789abcdef";
  fmt_f := fun _ => "0.000000"
|}.
#[export] Instance api_error : JsonIn apiError := {| json_Unmarshal := fun _ => Err (Errorf "json"); json_Decode := fun _ => Err (Errorf "json") |}.
#[export] Instance login_json : JsonIn oAuth2LoginResponse :=
  {| json_Unmarshal := fun _ => Ok (mkOAuth2LoginResponse "https://login" "attempt1"); json_Decode := fun _ => Err (Errorf "json") |}.
#[export] Instance token_json : JsonIn LoginResponse :=
  {| json_Unmarshal := fun _ => Ok (mkLoginResponse 1 "token" "renew" "" "" "" 2); json_Decode := fun _ => Err (Errorf "json") |}.
#[export] Instance peers_json : JsonIn (list MachinePeerResponse) := {| json_Unmarshal := fun _ => Ok []; json_Decode := fun _ => Ok [] |}.

Definition validator : NordValidator := mkNordValidator {["rsa-key-1" := "key"]}.
Definition api : DefaultAPI := NewDefaultAPI "NordApp" "https://api.nordvpn.com" (Nord validator).
Definition req : Request := mkRequest "GET" "https://api.nordvpn.com/v1/users/current" [] "".
Definition Issued (until : Z) (body : string) : Prop := until = 2000000000 /\ body = "{}".

Lemma substring_length n s : (n <= String.length s)%nat -> String.length (String.substring 0 n s) = n.
Proof. revert n. induction s as [|c s IH]; intros [|n] Hn; cbn in *; try lia. rewrite IH; lia. Qed.

#[export] Instance laws : SigningLaws validator Issued.
Proof.
  split.
  - intros x. apply substring_length. rewrite string_length_app. cbn. lia.
  - intros keyID pk text blob _. unfold ssh_Verify, signing. case_bool_decide as Ht; [|done]. intros _. subst text.
    exists 2000000000, "{}". unfold max_int64. split_and!; [done|lia|lia|done].
Qed.

(** A body that was changed is refused, and so is a time that was moved. *)
Example changed_body_refused : (NordValidator_Validate validator 200 headers "{!}" tt).1 <> Ok tt.
Proof. vm_compute. discriminate. Qed.
Example moved_time_refused : (NordValidator_Validate validator 200 (<["X-Accept-Before" := ["20000000000"]]> headers) "{}" tt).1 <> Ok tt.
Proof. vm_compute. discriminate. Qed.

Lemma answers_are_issued_witness :
  200 < 400 /\
  exists raw t1 body until issued,
    client_Do req tt = (Ok raw, t1) /\ Ok "{}" = Ok body /\ Issued until issued /\ (time_Unix t1).1 <= until /\
    (hex_sha256 body = hex_sha256 issued \/ (is_2xx 200 = false /\ hex_sha256 issued = hex_sha256 "")).
Proof.
  apply (answers_are_issued api validator Issued req tt (mkResponse 200 headers (Ok "{}")) tt); [reflexivity|vm_compute; reflexivity].
Defined.

Lemma local_machines_never_listed_witness : exists e, Local api "token" tt = (Err e, tt).
Proof. apply (local_machines_never_listed api "token" tt). vm_compute. repeat split; discriminate. Defined.

Definition oauth : OAuth2 unit := NewOAuth2 "https://api.nordvpn.com" tt.

Lemma token_proves_login_witness :
  exists verifier t1 req resp t2 body,
    rand_Read 24 tt = (Ok verifier, t1) /\ client_Do req t1 = (Ok resp, t2) /\
    rq_URL req = "https://api.nordvpn.com" +:+ urlOAuth2Login +:+ "?" +:+ login_query (hex_sha256 verifier) /\
    rs_Body resp = Ok body /\ json_Unmarshal body = Ok (mkOAuth2LoginResponse "https://login" (oa_attempt (Login oauth).2)) /\
    forall exchangeToken answer o2, Token exchangeToken (Login oauth).2 = (Ok answer, o2) ->
      exists req2 resp2 t3, client_Do req2 t2 = (Ok resp2, t3) /\
        rq_URL req2 = "https://api.nordvpn.com" +:+ urlOAuth2Token +:+ "?" +:+ token_query (oa_attempt (Login oauth).2) exchangeToken verifier.
Proof.
  apply (token_proves_login oauth "https://login" (Login oauth).2). vm_compute. reflexivity.
Defined.
End Net.
