(* ===== verification/Info.v ===== *)
(** * Info: the requests that ask, and connecting by itself

    Models [daemon/rpc_account.go], [rpc_cities.go], [rpc_countries.go], [rpc_groups.go],
    [rpc_servers.go], [rpc_status.go], [rpc_plans.go], [rpc_register.go], [rpc_ping.go],
    [rpc_connect_cancel.go], [rpc_claim_online_purchase.go], [rpc_rate.go],
    [daemon/connecton_data.go], and of [daemon/jobs.go] the loops that connect and enable
    the meshnet when the daemon starts.

    They work on the state of file Daemon with the parameters of the last connection
    beside it.  A loop that waits and tries again has fuel: the number of tries before
    the daemon is stopped. *)

From stdpp Require Import base option list strings pretty gmap sorting.
From Stdlib Require Import ZArith Ascii Lia.
From S2P Require Import Prelude GoLib Api Mesh Config Firewall Networker Auth Servers Daemon DaemonSafety Settings.
From S2P Require Import Kernel Transfers GoText Machine Geo Cache Validate Client.
Set Warnings "-clear-no-such-hyp".

Open Scope Z_scope.
Open Scope go_scope.

Definition CodeEmptyPayloadError : Z := 3005.
Definition CodeNoService : Z := 3020.
Definition CodeBadRequest : Z := 3024.
Definition CodeConflict : Z := 3025.
Definition CodeOutdated : Z := 3015.

(** ** Data *)

Inductive TriState : Type := TriState_UNKNOWN | TriState_DISABLED | TriState_ENABLED.

Record AccountResponse : Type := mkAccountResponse {
  ar_Type : Z;
  ar_Username : string;
  ar_Email : string;
  ar_ExpiresAt : string;
  ar_DedicatedIpStatus : Z;
  ar_LastDedicatedIpExpiresAt : string;
  ar_DedicatedIpServices : list (Z * string);
  ar_MfaStatus : TriState
}.
Definition account_code (c : Z) : AccountResponse := mkAccountResponse c "" "" "" 0 "" [] TriState_UNKNOWN.

Record ServerGroupsList : Type := mkServerGroupsList { gl_Type : Z; gl_Servers : list pb_ServerGroup }.

Inductive pb_Technology : Type :=
| Technology_OPENVPN_UDP | Technology_OPENVPN_TCP | Technology_OBFUSCATED_OPENVPN_UDP | Technology_OBFUSCATED_OPENVPN_TCP | Technology_NORDLYNX.

Record pb_Server : Type := mkPbServer {
  ps_Id : Z; ps_HostName : string; ps_Virtual : bool; ps_ServerGroups : list ServerGroup; ps_Technologies : list pb_Technology }.
Record ServerCity : Type := mkServerCity { sc_CityName : string; sc_Servers : list pb_Server }.
Record ServerCountry : Type := mkServerCountry { sn_CountryCode : string; sn_Cities : list ServerCity }.
Inductive ServersResponse : Type := GET_CONFIG_ERROR | FILTER_SERVERS_ERROR | ServersMap (countries : list ServerCountry).

Record ConnectionStatus : Type := mkConnectionStatus {
  cs_State : string; cs_Technology : Technology; cs_Protocol : Z; cs_IP : Addr; cs_Name : string; cs_Hostname : string;
  cs_Country : string; cs_City : string; cs_Download : Z; cs_Upload : Z; cs_Uptime : option Z; cs_VirtualLocation : bool }.
Definition no_status : ConnectionStatus := mkConnectionStatus "" UNKNOWN_TECHNOLOGY 0 AddrInvalid "" "" "" "" 0 0 None false.

Inductive ConnectionSource : Type := UNKNOWN_SOURCE | MANUAL | AUTO.
Record ConnectionParameters : Type := mkConnectionParameters { cp_Source : ConnectionSource; cp_Parameters : ServerParameters }.
Definition no_parameters : ConnectionParameters := mkConnectionParameters UNKNOWN_SOURCE (mkServerParameters "" "" UNDEFINED).

Record StatusResponse : Type := mkStatusResponse {
  sr_State : string; sr_Uptime : Z; sr_Status : ConnectionStatus; sr_Parameters : ConnectionParameters }.

Record PlansResponse : Type := mkPlansResponse { pn_Type : Z; pn_Plans : list (string * string * string * string) }.
Record PingResponse : Type := mkPingResponse { pg_Type : Z; pg_Version : Z * Z * Z * string }.

Class InfoEnv (Nt E : Type) : Type := {
  netw_ConnectionStatus : M Nt ConnectionStatus;
  netw_LastServerName : Nt -> string;
  netw_IsMeshnetActive : Nt -> bool;
  mesh_StartMeshnet : M E unit;
  api_CurrentUser : string -> M E CurrentUserResponse;
  api_Plans : M E (list Plan);
  api_CreateUser : string -> string -> M E unit;
  dm_newerVersionAvailable : E -> bool;
  semver_New : string -> Z * Z * Z * string;
  time_Format : Z -> string;
  (** the order of a [range] over a map *)
  range_map : forall A, gmap string A -> list (string * A)
}.
Class InfoLaws (Nt E : Type) `{InfoEnv Nt E} : Prop :=
  range_map_perm : forall A (m : gmap string A), range_map A m ≡ₚ map_to_list m.

(** The daemon with the parameters of the last connection and how often a connect was
    canceled. *)
Record InfoRPC (Nt E : Type) : Type := mkInfoRPC {
  ir_rpc : RPC Nt E;
  ir_parameters : ConnectionParameters;
  ir_canceled : nat;
  ir_version : string
}.
Arguments mkInfoRPC {Nt E} _ _ _ _.
Arguments ir_rpc {Nt E} _.
Arguments ir_parameters {Nt E} _.
Arguments ir_canceled {Nt E} _.
Arguments ir_version {Nt E} _.
#[export] Instance eta_InfoRPC {Nt E} : EtaExpand (InfoRPC Nt E) := fun r =>
  mkInfoRPC (ir_rpc r) (ir_parameters r) (ir_canceled r) (ir_version r).

(** ** The account *)

Definition findLatestDIPExpirationData `{InfoEnv} (dipServices : list DedicatedIPService) : result string :=
  match dipServices with
  | [] => Err (Errorf "no dip services found")
  | first :: _ =>
      match time_Parse (dip_ExpiresAt first) with
      | None => Err (Errorf "failed to parse initial expiration date")
      | Some latest =>
          let fix later (l : list DedicatedIPService) (latest : Z) : result Z :=
            match l with
            | [] => Ok latest
            | s :: l' =>
                match time_Parse (dip_ExpiresAt s) with
                | None => Err (Errorf "failed to parse expiration date")
                | Some current => later l' (if latest <? current then current else latest)
                end
            end in
          match later dipServices latest with Ok t => Ok (time_Format t) | Err e => Err e end
      end
  end.

Definition dipServicesToProtobuf (dipServices : list DedicatedIPService) : list (Z * string) :=
  map (fun s => (dip_ServerID s, dip_ExpiresAt s)) dipServices.

(** ** The servers *)

Definition technologiesToProtobuf (technologies : list TechnologyEntry) : list pb_Technology :=
  omap (fun tech => match te_ID tech with
    | OpenVPNUDP => Some Technology_OPENVPN_UDP
    | OpenVPNTCP => Some Technology_OPENVPN_TCP
    | OpenVPNUDPObfuscated => Some Technology_OBFUSCATED_OPENVPN_UDP
    | OpenVPNTCPObfuscated => Some Technology_OBFUSCATED_OPENVPN_TCP
    | WireguardTech => Some Technology_NORDLYNX
    | _ => None
    end) technologies.

Definition groupFilter (groups : list Group) : list ServerGroup :=
  List.filter (fun filterGroup => existsb (fun g => gr_ID g =? filterGroup) groups)
    [P2P; DoubleVPN; ONION_OVER_VPN; DEDICATED_IP; OBFUSCATED; STANDARD_VPN_SERVERS].

Definition server_to_pb (server : Server) : pb_Server :=
  mkPbServer (srv_ID server) (srv_Hostname server) (IsVirtualLocation server) (groupFilter (srv_Groups server))
    (technologiesToProtobuf (srv_Technologies server)).

Abbreviation serversMap := (gmap string (gmap string (list pb_Server))).

Definition add_server (country : Country) (s : pb_Server) (m : serversMap) : serversMap :=
  let cities := default ∅ (m !! co_Code country) in
  let cityName := city_Name (co_City country) in
  <[co_Code country := <[cityName := default [] (cities !! cityName) ++ [s]]> cities]> m.

(** A server without a location ends the daemon. *)
Fixpoint group_servers (allowVirtual : bool) (servers : list Server) (m : serversMap) : outcome serversMap :=
  match servers with
  | [] => Returned m
  | server :: servers' =>
      if negb allowVirtual && IsVirtualLocation server then group_servers allowVirtual servers' m
      else match head (srv_Locations server) with
           | None => Panicked "invalid memory address or nil pointer dereference"
           | Some country => group_servers allowVirtual servers' (add_server country (server_to_pb server) m)
           end
  end.

Definition serversListToServersMap `{InfoEnv} (internalServers : list Server) (allowVirtual : bool) : outcome (list ServerCountry) :=
  match group_servers allowVirtual internalServers ∅ with
  | Panicked m => Panicked m
  | Returned sMap =>
      Returned (map (fun '(country, cityMap) =>
        mkServerCountry country (map (fun '(city, servers) => mkServerCity city servers) (range_map _ cityMap))) (range_map _ sMap))
  end.

(** ** The requests *)

Section Requests.
Context {Nt E : Type} `{DaemonNetworker Nt} `{DaemonEnv E} `{!InfoEnv Nt E} `{CacheEnv E}.
#[local] Abbreviation I := (M (InfoRPC Nt E)).

Definition on_rpc {A} (m : M (RPC Nt E) A) : I A := zoom ir_rpc (fun t r => r <| ir_rpc := t |>) m.

(** From the data of the user on. *)
Definition account_user (info : AccountResponse) (cfg : Config) (lastExpiry : string) : M (RPC Nt E) AccountResponse :=
  let uid := ac_ID (cfg_AutoConnectData cfg) in
  let tokenData := token_of cfg uid in
  let! r := attempt (Daemon.on_env (api_CurrentUser (Nt := Nt) (td_Token tokenData))) in
  match r with
  | Err err =>
      if errors_Is err ErrUnauthorized then
        let! w := attempt (SaveWith (Config.Logout uid)) in
        if is_ok w then throw (Sentinel ErrNotLoggedIn) else ret (account_code CodeConfigError)
      else throw (Sentinel ErrUnhandled)
  | Ok user =>
      ret (mkAccountResponse (ar_Type info) (if bool_decide (cu_Username user = cu_Email user) then "" else cu_Username user)
             (cu_Email user) (td_ServiceExpiry tokenData) (ar_DedicatedIpStatus info) lastExpiry (ar_DedicatedIpServices info)
             (ar_MfaStatus info))
  end.

Definition AccountInfo : M (RPC Nt E) AccountResponse :=
  let! loggedIn := on_store IsLoggedIn in
  if negb loggedIn then throw (Sentinel ErrNotLoggedIn)
  else
    let! r := attempt (on_store IsVPNExpired) in
    match r with
    | Err _ => ret (account_code CodeTokenRenewError)
    | Ok vpnExpired =>
        let type := if vpnExpired : bool then CodeNoService else CodeSuccess in
        let! r := attempt (on_store GetDedicatedIPServices) in
        match r with
        | Err _ => ret (account_code CodeTokenRenewError)
        | Ok dipServices =>
            let status := match dipServices with [] => CodeNoService | _ => CodeSuccess end in
            match (match dipServices with [] => Ok "" | _ => findLatestDIPExpirationData (Nt := Nt) dipServices end) with
            | Err _ => ret (account_code CodeTokenRenewError)
            | Ok lastExpiry =>
                let! mfa := attempt (on_store isMFAEnabled) in
                let mfaStatus := match mfa with Err _ => TriState_UNKNOWN | Ok true => TriState_ENABLED | Ok false => TriState_DISABLED end in
                let! l := attempt Load in
                match l with
                | Err _ => ret (account_code CodeConfigError)
                | Ok cfg => account_user (mkAccountResponse type "" "" "" status "" (dipServicesToProtobuf dipServices) mfaStatus) cfg lastExpiry
                end
            end
        end
    end.

(** What the three lists share. *)
Definition list_request (entries : Server -> list (string * pb_ServerGroup)) : M (RPC Nt E) ServerGroupsList :=
  let! l := attempt Load in
  match l with
  | Err _ => ret (mkServerGroupsList CodeConfigError [])
  | Ok cfg =>
      let ac := cfg_AutoConnectData cfg in
      let! servers := env_get dm_Servers in
      ret (match listed (cfg_Technology cfg) (ac_Protocol ac) (ac_Obfuscate ac) (TrueField_Get (cfg_VirtualLocation cfg)) entries servers with
           | Err _ => mkServerGroupsList CodeEmptyPayloadError []
           | Ok names => mkServerGroupsList CodeSuccess names
           end)
  end.

Definition Cities (country : string) : M (RPC Nt E) ServerGroupsList :=
  list_request (fun s => option_list (city_entry (T := E) country s)).
Definition Countries : M (RPC Nt E) ServerGroupsList := list_request (fun s => option_list (country_entry (T := E) s)).
Definition Groups : M (RPC Nt E) ServerGroupsList := list_request (group_entries (T := E)).

Definition GetServers : M (RPC Nt E) (outcome ServersResponse) :=
  let! l := attempt Load in
  match l with
  | Err _ => ret (Returned GET_CONFIG_ERROR)
  | Ok cfg =>
      let ac := cfg_AutoConnectData cfg in
      let! servers := env_get dm_Servers in
      match filterServers servers (cfg_Technology cfg) (ac_Protocol ac) "" UNDEFINED (ac_Obfuscate ac) with
      | Err _ => ret (Returned FILTER_SERVERS_ERROR)
      | Ok servers =>
          ret (match serversListToServersMap servers (TrueField_Get (cfg_VirtualLocation cfg)) with
               | Returned countries => Returned (ServersMap countries)
               | Panicked m => Panicked m
               end)
      end
  end.

(** The status is asked for after the VPN was found active; its error is dropped. *)
Definition Status : I StatusResponse :=
  let! active := on_rpc IsVPNActive in
  if negb active then ret (mkStatusResponse "Disconnected" (-1) no_status no_parameters)
  else
    let! r := attempt (on_rpc (on_netw (netw_ConnectionStatus (E := E)))) in
    let status := match r with Ok status => status | Err _ => no_status end in
    let uptime := default (-1) (cs_Uptime status) in
    let state :=
      if bool_decide (cs_State status = "EXITING") then "Disconnecting"
      else if bool_decide (cs_State status = "EXITED") then "Disconnected"
      else if bool_decide (cs_State status = "RECONNECTING") then "Reconnecting"
      else if bool_decide (cs_State status = "CONNECTED") then "Connected"
      else "Connecting" in
    let! parameters := gets ir_parameters in
    ret (mkStatusResponse state uptime status parameters).

Definition Plans : M (RPC Nt E) PlansResponse :=
  let! r := attempt (Daemon.on_env (api_Plans (Nt := Nt))) in
  ret (match r with
       | Err _ => mkPlansResponse CodeFailure []
       | Ok plans => mkPlansResponse CodeSuccess (map (fun p => (pl_Identifier p, pl_Title p, pl_Cost p, pl_Currency p)) plans)
       end).

Definition Register (email password : string) : M (RPC Nt E) Payload :=
  let! r := attempt (Daemon.on_env (api_CreateUser (Nt := Nt) email password)) in
  ret (match r with
       | Err err =>
           if errors_Is err ErrBadRequest then code CodeBadRequest
           else if errors_Is err ErrConflict then code CodeConflict
           else if errors_Is err ErrServerInternal then code CodeInternalError
           else code CodeFailure
       | Ok _ => code CodeSuccess
       end).

Definition Ping : I PingResponse :=
  let! version := gets ir_version in
  let! newer := on_rpc (env_get (dm_newerVersionAvailable (Nt := Nt))) in
  ret (mkPingResponse (if newer : bool then CodeOutdated else CodeSuccess) (semver_New (Nt := Nt) (E := E) version)).

Definition ConnectCancel : I Payload :=
  let! connecting := on_rpc (gets rpc_connecting) in
  if connecting : bool then modify (fun r => r <| ir_canceled := S (ir_canceled r) |>) ;; ret (code CodeSuccess)
  else ret (code CodeNothingToDo).

Definition ClaimOnlinePurchase : M (RPC Nt E) bool :=
  let! r := attempt (on_store IsVPNExpired) in
  ret (match r with Ok false => true | _ => false end).

Definition RateConnection (rating : Z) : M (RPC Nt E) Payload :=
  let! name := gets (fun r => netw_LastServerName (E := E) (rpc_netw r)) in
  ret (code (if bool_decide (name = "") then CodeNothingToDo else CodeSuccess)).

(** ** Connecting by itself *)

Definition SetConnectionParameters (source : ConnectionSource) (parameters : ServerParameters) : I unit :=
  set! ir_parameters := mkConnectionParameters source parameters.

(** [autoconnectServer]: only a failure is an error. *)
Definition stream_failed (s : Stream) : bool :=
  match s with Sent payloads => existsb (fun p => py_Type p =? CodeFailure) payloads | Crashed _ => false end.

(** One try: the result when it is the last. *)
Definition autoconnect_try : I (option (result unit)) :=
  let! active := on_rpc IsVPNActive in
  if active : bool then ret (Some (Ok tt))
  else
    let! l := attempt (on_rpc Load) in
    match l with
    | Err err => ret (Some (Err err))
    | Ok cfg =>
        let ac := cfg_AutoConnectData cfg in
        let! r := attempt (on_rpc (Connect (ac_ServerTag ac) "")) in
        match r with
        | Ok stream =>
            if stream_failed stream then ret None
            else
              SetConnectionParameters AUTO (mkServerParameters (ac_Country ac) (ac_City ac) (ac_Group ac)) ;;
              ret (Some (Ok tt))
        | Err _ => ret None
        end
    end.

(** [None]: still trying when the fuel is used. *)
Fixpoint StartAutoConnect (fuel : nat) : I (option (result unit)) :=
  match fuel with
  | O => ret None
  | S fuel' =>
      let! r := autoconnect_try in
      match r with Some r => ret (Some r) | None => StartAutoConnect fuel' end
  end.

Definition meshnet_ErrNotLoggedIn : string := "not logged in".
Definition meshnet_ErrConfigLoad : string := "problem loading config".
Definition meshnet_ErrMeshnetNotEnabled : string := "meshnet not enabled".
Definition meshErrorCheck (r : result unit) : bool :=
  match r with
  | Ok _ => true
  | Err err => errors_Is err meshnet_ErrNotLoggedIn || errors_Is err meshnet_ErrConfigLoad || errors_Is err meshnet_ErrMeshnetNotEnabled
  end.

Fixpoint StartAutoMeshnet (fuel : nat) : I (option (result unit)) :=
  match fuel with
  | O => ret None
  | S fuel' =>
      let! active := on_rpc (gets (fun r => netw_IsMeshnetActive (E := E) (rpc_netw r))) in
      if active : bool then ret (Some (Ok tt))
      else
        let! r := attempt (on_rpc (Daemon.on_env (mesh_StartMeshnet (Nt := Nt)))) in
        if meshErrorCheck r then ret (Some r) else StartAutoMeshnet fuel'
  end.
End Requests.
