(* ===== verification/InfoProps.v ===== *)
(** * InfoProps: properties of the requests that ask

    They change no setting; the map of the servers has every allowed server once, in the
    order of the cache; the last expiry is the latest; what counts as a success of the
    connection made by itself. *)

From stdpp Require Import base option list strings pretty gmap sorting.
From Stdlib Require Import ZArith Ascii Lia.
From S2P Require Import Prelude GoLib Api Mesh Config Firewall Networker Auth Servers Daemon DaemonSafety Settings.
From S2P Require Import Kernel Transfers GoText Machine Geo Cache Validate Client Info.
Set Warnings "-clear-no-such-hyp".

Open Scope Z_scope.
Open Scope go_scope.

(** ** Settings *)

Inductive InfoOp : Type :=
| InAccount | InCities (country : string) | InCountries | InGroups | InServers | InStatus | InPlans
| InRegister (email password : string) | InPing | InCancel | InClaim | InRate (rating : Z).

Section Keep.
Context {Nt E : Type} `{DaemonNetworker Nt} `{DaemonEnv E} `{!InfoEnv Nt E} `{CacheEnv E}.
#[local] Abbreviation I := (M (InfoRPC Nt E)).

Definition info_serve (q : InfoOp) : I unit :=
  match q with
  | InAccount => discard (on_rpc AccountInfo)
  | InCities country => discard (on_rpc (Info.Cities country))
  | InCountries => discard (on_rpc Info.Countries)
  | InGroups => discard (on_rpc Info.Groups)
  | InServers => discard (on_rpc GetServers)
  | InStatus => discard Status
  | InPlans => discard (on_rpc Info.Plans)
  | InRegister email password => discard (on_rpc (Info.Register email password))
  | InPing => discard Ping
  | InCancel => discard ConnectCancel
  | InClaim => discard (on_rpc ClaimOnlinePurchase)
  | InRate rating => discard (on_rpc (RateConnection rating))
  end.

Fixpoint info_run (ops : list InfoOp) (r : InfoRPC Nt E) : InfoRPC Nt E :=
  match ops with [] => r | q :: ops' => info_run ops' (info_serve q r).2 end.

(** Everything but the accounts. *)
Definition settings_of (c : Config) : Config := c <| cfg_TokensData := ∅ |>.

Section Blind.
Context (P : Config -> Prop) (HP : token_blind P).
#[local] Abbreviation inv := (fun r : InfoRPC Nt E => P (rpc_cfg (ir_rpc r))).

Lemma info_on_rpc {A} (m : M (RPC Nt E) A) : preserves (fun r => P (rpc_cfg r)) m -> preserves inv (on_rpc m).
Proof. intros Hm r Hr. unfold on_rpc, zoom. specialize (Hm (ir_rpc r) Hr). by destruct (m (ir_rpc r)). Qed.

Lemma info_env {A} (m : M E A) : preserves (fun r : RPC Nt E => P (rpc_cfg r)) (Daemon.on_env m).
Proof. by apply inv_env. Qed.
Lemma info_netw {A} (m : M Nt A) : preserves (fun r : RPC Nt E => P (rpc_cfg r)) (on_netw m).
Proof. apply inv_frames, frames_netw. Qed.

#[local] Hint Resolve inv_IsLoggedIn inv_IsVPNExpired inv_isMFAEnabled inv_dedicated inv_save_logout inv_env inv_env_get inv_Load
  inv_IsVPNActive info_netw info_env : pres.

Lemma info_step q : preserves inv (info_serve q).
Proof.
  destruct q; cbn [info_serve]; unfold discard; (apply preserves_bind; [|intros; apply preserves_ret]);
    try (apply info_on_rpc); unfold AccountInfo, account_user, Info.Cities, Info.Countries, Info.Groups, list_request, GetServers,
      Info.Plans, Info.Register, ClaimOnlinePurchase, RateConnection; try solve [pres_auto].
  - unfold Status. repeat first [apply info_on_rpc; solve [eauto with pres nocore]|pres_step].
  - unfold Ping. repeat first [apply info_on_rpc; solve [eauto with pres nocore]|pres_step].
  - unfold ConnectCancel. repeat first [apply info_on_rpc; solve [eauto with pres nocore]|pres_step]. by apply preserves_modify.
Qed.
End Blind.

(** C35: requests that ask for something change no setting: whatever is asked in whatever
    order, and whichever calls fail, the configuration is the same up to the accounts,
    which are renewed or logged out on the way. *)
Theorem info_requests_keep_settings (ops : list InfoOp) (r : InfoRPC Nt E) :
  settings_of (rpc_cfg (ir_rpc (info_run ops r))) = settings_of (rpc_cfg (ir_rpc r)).
Proof.
  set (P := fun c : Config => settings_of c = settings_of (rpc_cfg (ir_rpc r))).
  assert (HP : token_blind P) by done. enough (Hr : P (rpc_cfg (ir_rpc (info_run ops r)))) by exact Hr.
  assert (Hr0 : P (rpc_cfg (ir_rpc r))) by done. clearbody P. revert r Hr0.
  induction ops as [|q ops IH]; intros s Hs; cbn [info_run]; [done|]. apply IH. by apply (info_step P HP).
Qed.
End Keep.

(** ** The map of the servers *)

Section Places.
Context {Nt E : Type} `{InfoLaws Nt E}.

Definition in_place (code name : string) (s : Server) : bool :=
  match head (srv_Locations s) with
  | Some country => bool_decide (co_Code country = code) && bool_decide (city_Name (co_City country) = name)
  | None => false
  end.

Definition allowed (allowVirtual : bool) (s : Server) : bool := allowVirtual || negb (IsVirtualLocation s).

Definition at_place (m : serversMap) (code name : string) : list pb_Server := default [] (m !! code ≫= fun cities => cities !! name).

Definition tidy (m : serversMap) : Prop := map_Forall (fun _ cities => cities <> ∅ /\ map_Forall (fun _ l => l <> []) cities) m.

Lemma add_server_at country s m code name :
  at_place (add_server country s m) code name =
    at_place m code name ++ (if bool_decide (co_Code country = code) && bool_decide (city_Name (co_City country) = name) then [s] else []).
Proof.
  unfold at_place, add_server. case_bool_decide as Hc; cbn [andb].
  - subst code. rewrite lookup_insert_eq. cbn. case_bool_decide as Hn.
    + subst name. rewrite lookup_insert_eq. cbn. by destruct (m !! co_Code country).
    + rewrite lookup_insert_ne by done. rewrite app_nil_r. by destruct (m !! co_Code country).
  - rewrite lookup_insert_ne by done. by rewrite app_nil_r.
Qed.

Lemma add_server_tidy country s m : tidy m -> tidy (add_server country s m).
Proof.
  intros Hm. unfold tidy, add_server. apply map_Forall_insert_2; [|done]. split; [apply insert_non_empty|].
  apply map_Forall_insert_2; [by destruct (default [] _)|]. destruct (m !! co_Code country) as [cities|] eqn:Hc; [|apply map_Forall_empty].
  by destruct (Hm _ _ Hc).
Qed.

Lemma group_servers_spec allowVirtual servers m m' : tidy m -> group_servers allowVirtual servers m = Returned m' ->
  tidy m' /\ Forall (fun s => is_Some (head (srv_Locations s))) (List.filter (allowed allowVirtual) servers) /\
  forall code name, at_place m' code name =
    at_place m code name ++ map server_to_pb (List.filter (in_place code name) (List.filter (allowed allowVirtual) servers)).
Proof.
  revert m. induction servers as [|s servers IH]; intros m Hm Hg; cbn [group_servers] in Hg.
  - injection Hg as <-. split; [done|]. split; [constructor|]. intros. by rewrite app_nil_r.
  - assert (Ha : allowed allowVirtual s = negb (negb allowVirtual && IsVirtualLocation s))
      by (unfold allowed; by destruct allowVirtual, (IsVirtualLocation s)).
    cbn [List.filter]. rewrite Ha. destruct (negb allowVirtual && IsVirtualLocation s); cbn [negb]; [by apply IH|].
    destruct (head (srv_Locations s)) as [country|] eqn:Hl; [|done].
    destruct (IH _ (add_server_tidy country (server_to_pb s) m Hm) Hg) as (Ht & Hf & Hat).
    split; [done|]. split; [constructor; [by rewrite Hl|done]|]. intros code name. rewrite Hat, add_server_at. cbn [List.filter].
    unfold in_place at 2. rewrite Hl. destruct (_ && _); cbn [map]; by rewrite <- app_assoc.
Qed.

Lemma range_map_in A (m : gmap string A) k x : (k, x) ∈ range_map (Nt := Nt) (E := E) A m <-> m !! k = Some x.
Proof. rewrite (range_map_perm (Nt := Nt) (E := E) A m). apply elem_of_map_to_list. Qed.

Lemma range_map_keys A (m : gmap string A) : NoDup (map fst (range_map (Nt := Nt) (E := E) A m)).
Proof. rewrite (range_map_perm (Nt := Nt) (E := E) A m). apply NoDup_fst_map_to_list. Qed.

(** C34: the map of the servers for the user.  When it is made it has every country and,
    in a country, every city once; a city lists exactly the allowed servers that are
    there (virtual ones only when they are wanted), each once and in the order of the
    cache, and at least one; and every allowed server is in it. *)
Theorem servers_listed_once allowVirtual servers countries
    (Hmap : serversListToServersMap (Nt := Nt) servers allowVirtual = Returned countries) :
  NoDup (map sn_CountryCode countries) /\
  (forall country, country ∈ countries -> NoDup (map sc_CityName (sn_Cities country)) /\ sn_Cities country <> [] /\
    forall city, city ∈ sn_Cities country -> sc_Servers city <> [] /\
      sc_Servers city = map server_to_pb
        (List.filter (in_place (sn_CountryCode country) (sc_CityName city)) (List.filter (allowed allowVirtual) servers))) /\
  (forall s, s ∈ servers -> allowed allowVirtual s = true -> exists country city,
    country ∈ countries /\ city ∈ sn_Cities country /\ in_place (sn_CountryCode country) (sc_CityName city) s = true /\
    server_to_pb s ∈ sc_Servers city).
Proof.
  unfold serversListToServersMap in Hmap. destruct (group_servers allowVirtual servers ∅) as [m|] eqn:Hg; [|done].
  injection Hmap as <-. destruct (group_servers_spec _ _ ∅ m (map_Forall_empty _) Hg) as (Ht & Hf & Hat). split_and!.
  - rewrite map_map. erewrite map_ext; [apply range_map_keys|]. by intros [].
  - intros country ([code cities] & -> & Hin)%list_elem_of_fmap. apply range_map_in in Hin. cbn [sn_CountryCode sn_Cities].
    destruct (Ht _ _ Hin) as [Hne Hl]. split_and!.
    + rewrite map_map. erewrite map_ext; [apply range_map_keys|]. by intros [].
    + intros Hnil%map_eq_nil. apply Hne, map_to_list_empty_iff, Permutation_nil_r.
      by rewrite <- (range_map_perm (Nt := Nt) (E := E) _ cities), Hnil.
    + intros city ([name l] & -> & Hc)%list_elem_of_fmap. apply range_map_in in Hc. cbn [sc_Servers sc_CityName]. split; [by apply (Hl name)|].
      specialize (Hat code name). unfold at_place in Hat. rewrite Hin in Hat. cbn in Hat. rewrite Hc, lookup_empty in Hat. exact Hat.
  - intros s Hs Ha.
    assert (Hk : In s (List.filter (allowed allowVirtual) servers)) by (apply filter_In; split; [by apply list_elem_of_In|done]).
    destruct (proj1 (Forall_forall _ _) Hf s (proj2 (list_elem_of_In _ _) Hk)) as [country Hl].
    set (code := co_Code country). set (name := city_Name (co_City country)).
    assert (Hp : in_place code name s = true) by (unfold in_place; rewrite Hl; by rewrite !bool_decide_true).
    assert (Hin : server_to_pb s ∈ at_place m code name).
    { rewrite Hat. unfold at_place. rewrite lookup_empty. cbn. apply list_elem_of_In, in_map, filter_In. by split. }
    unfold at_place in Hin. destruct (m !! code) as [cities|] eqn:Hm; [|by apply elem_of_nil in Hin]. cbn in Hin.
    destruct (cities !! name) as [l|] eqn:Hc; [|by apply elem_of_nil in Hin]. cbn in Hin.
    exists (mkServerCountry code (map (fun '(city, servers) => mkServerCity city servers) (range_map (Nt := Nt) (E := E) _ cities))),
      (mkServerCity name l). split_and!; [| |done|done].
    + apply list_elem_of_fmap. exists (code, cities). split; [done|]. by apply range_map_in.
    + apply list_elem_of_fmap. exists (name, l). split; [done|]. by apply range_map_in.
Qed.
End Places.

(** ** The expiry of the dedicated servers *)

Section Expiry.
Context {Nt E : Type} `{InfoEnv Nt E}.

(** The last expiry of the dedicated servers of an account is that of one of them and
    none is later; there is none exactly when there are no such servers or the expiry of
    one cannot be read. *)
Theorem latest_expiry_is_latest (services : list DedicatedIPService) :
  match findLatestDIPExpirationData (Nt := Nt) services with
  | Ok text => exists s t, s ∈ services /\ time_Parse (dip_ExpiresAt s) = Some t /\ text = time_Format t /\
      forall s' t', s' ∈ services -> time_Parse (dip_ExpiresAt s') = Some t' -> t' <= t
  | Err _ => services = [] \/ exists s, s ∈ services /\ time_Parse (dip_ExpiresAt s) = None
  end.
Proof.
  destruct services as [|first services]; [by left|]. unfold findLatestDIPExpirationData.
  destruct (time_Parse (dip_ExpiresAt first)) as [t0|] eqn:H0; [|right; exists first; split; [by left|done]].
  set (later := fix later (l : list DedicatedIPService) (latest : Z) : result Z := _).
  assert (Hl : forall l t, (exists s, s ∈ first :: services /\ time_Parse (dip_ExpiresAt s) = Some t) -> (forall s, s ∈ l -> s ∈ first :: services) ->
    match later l t with
    | Ok t1 => (exists s, s ∈ first :: services /\ time_Parse (dip_ExpiresAt s) = Some t1) /\ t <= t1 /\
        forall s' t', s' ∈ l -> time_Parse (dip_ExpiresAt s') = Some t' -> t' <= t1
    | Err _ => exists s, s ∈ l /\ time_Parse (dip_ExpiresAt s) = None
    end).
  { induction l as [|s l IH]; intros t Ht Hin; cbn.
    - split; [done|]. split; [lia|]. by intros s' t' []%elem_of_nil.
    - destruct (time_Parse (dip_ExpiresAt s)) as [c|] eqn:Hc; [|exists s; split; [by left|done]].
      assert (Hm : exists s0, s0 ∈ first :: services /\ time_Parse (dip_ExpiresAt s0) = Some (if t <? c then c else t)).
      { destruct (t <? c); [|done]. exists s. split; [apply Hin; by left|done]. }
      specialize (IH _ Hm (fun s0 Hs0 => Hin s0 (list_elem_of_further _ _ _ Hs0))).
      destruct (later l _) as [t1|]; [|destruct IH as (s0 & Hs0 & Hn); exists s0; split; [by right|done]].
      destruct IH as (Hex & Hle & Hall). split; [done|]. destruct (Z.ltb_spec t c); (split; [lia|]).
      all: intros s' t' [->|Hs']%elem_of_cons Hp; [rewrite Hc in Hp; injection Hp as <-; lia|by apply (Hall s')]. }
  assert (Hall : later services (if t0 <? t0 then t0 else t0) = later (first :: services) t0) by (cbn; by rewrite H0).
  rewrite Hall. clear Hall. specialize (Hl (first :: services) t0). destruct (later (first :: services) t0) as [t1|].
  - destruct Hl as ((s & Hs & Hp) & _ & Hall); [exists first; split; [by left|done]|done|].
    cbv iota. exists s, t1. split_and!; [done|done|done|exact Hall].
  - cbv iota. right. apply Hl; [exists first; split; [by left|done]|done].
Qed.
End Expiry.

(** ** Connecting by itself *)

Section Auto.
Context {Nt E : Type} `{DaemonNetworker Nt} `{DaemonEnv E} `{!InfoEnv Nt E}.

(** Whatever the request answers but a failure counts as a connection: a refusal (the
    account is expired, its token cannot be renewed, another connect is running) ends the
    tries and leaves the parameters of a connection that was not made. *)
Lemma autoconnect_takes_refusal fuel (r r1 r2 r3 : InfoRPC Nt E) cfg payloads :
  on_rpc IsVPNActive r = (Ok false, r1) -> on_rpc Load r1 = (Ok cfg, r2) ->
  on_rpc (Connect (ac_ServerTag (cfg_AutoConnectData cfg)) "") r2 = (Ok (Sent payloads), r3) ->
  Forall (fun p => py_Type p <> CodeFailure) payloads ->
  exists r', StartAutoConnect (S fuel) r = (Ok (Some (Ok tt)), r') /\ cp_Source (ir_parameters r') = AUTO.
Proof.
  intros Ha Hl Hc Hp. cbn [StartAutoConnect]. unfold autoconnect_try.
  assert (Hs : stream_failed (Sent payloads) = false).
  { clear Hc. cbn. induction Hp as [|p l Hx Hp IH]; cbn; [done|]. by destruct (Z.eqb_spec (py_Type p) CodeFailure). }
  eexists (r3 <| ir_parameters := mkConnectionParameters AUTO _ |>). split.
  - erewrite bind_Ok; [|rewrite (bind_Ok _ _ _ _ _ Ha); cbv iota; rewrite (bind_attempt _ _ _ _ _ Hl); cbv iota zeta;
      rewrite (bind_attempt _ _ _ _ _ Hc), Hs; reflexivity]. reflexivity.
  - reflexivity.
Qed.
End Auto.

(** ** A sample *)

Module InfoBox.
#[export] Instance env : InfoEnv unit unit := {|
  netw_ConnectionStatus := ret no_status;
  netw_LastServerName := fun _ => "";
  netw_IsMeshnetActive := fun _ => false;
  mesh_StartMeshnet := ret tt;
  api_CurrentUser := fun _ => throw (Sentinel ErrUnauthorized);
  api_Plans := ret [];
  api_CreateUser := fun _ _ => ret tt;
  dm_newerVersionAvailable := fun _ => false;
  semver_New := fun _ => (3, 17, 2, "");
  time_Format := fun t => pretty t;
  range_map := fun _ m => map_to_list m
|}.
#[export] Instance laws : InfoLaws unit unit.
Proof. by intros A m. Qed.

Definition place (code country city : string) : Country := mkCountry 1 country code (mkCity 1 city zero_float zero_float None) [].
Definition server (id : Z) (host : string) (where_ : Country) (virtual : string) : Server :=
  mkServer id host "" host 10 "online" [where_] [mkTechnologyEntry WireguardTech "online"] [mkGroup P2P "P2P"]
    [mkSpecification "virtual_location" [virtual]] 0 "" [] [] "" "" zero_float zero_float zero_float.
Definition servers : list Server :=
  [server 1 "lt1" (place "LT" "Lithuania" "Vilnius") "false"; server 2 "de1" (place "DE" "Germany" "Berlin") "false";
   server 3 "lt2" (place "LT" "Lithuania" "Vilnius") "true"; server 4 "lt3" (place "LT" "Lithuania" "Vilnius") "false"].
Definition countries : list ServerCountry :=
  match serversListToServersMap (Nt := unit) servers false with Returned l => l | Panicked _ => [] end.

Example listed_hosts :
  map (fun c => (sn_CountryCode c, map (fun t => (sc_CityName t, map ps_HostName (sc_Servers t))) (sn_Cities c))) countries
  = [("LT", [("Vilnius", ["lt1"; "lt3"])]); ("DE", [("Berlin", ["de1"])])].
Proof. vm_compute. reflexivity. Qed.

Lemma servers_listed_once_witness :
  NoDup (map sn_CountryCode countries) /\ length countries = 2%nat /\
  exists country city, country ∈ countries /\ city ∈ sn_Cities country /\
    in_place (sn_CountryCode country) (sc_CityName city) (server 4 "lt3" (place "LT" "Lithuania" "Vilnius") "false") = true /\
    server_to_pb (server 4 "lt3" (place "LT" "Lithuania" "Vilnius") "false") ∈ sc_Servers city.
Proof.
  destruct (servers_listed_once (Nt := unit) (E := unit) false servers countries) as (Hnodup & _ & Hall).
  - vm_compute. reflexivity.
  - split; [exact Hnodup|]. split; [vm_compute; reflexivity|]. apply Hall; [unfold servers; by repeat first [left|right]|vm_compute; reflexivity].
Defined.
End InfoBox.
