(* ===== verification/State.v ===== *)
(** * State: the streams of state changes

    Models [daemon/state/state.go] and [daemon/rpc_state.go]: the publisher of the
    changes of the state, its subscribers with their two channels, the goroutine that
    serves a subscriber, and the message a change becomes.

    The channels have no buffer and the publisher does not wait: a change reaches the
    subscribers whose goroutine waits in its [select] at that moment.  The publisher and
    the goroutines share the channels, so the model has one record per subscriber for
    both ends, and a step of a goroutine is an operation of its own; the mutex makes a
    method of the publisher one operation, since the goroutines are independent of each
    other.  When two cases of a [select] are ready the choice is an argument. *)

From stdpp Require Import base option list strings gmap.
From Stdlib Require Import ZArith Lia.
From S2P Require Import Prelude GoLib Mesh Config Servers Daemon.

Open Scope Z_scope.
Open Scope go_scope.

(** ** The messages *)

Record pb_AutoconnectData : Type := mkPbAutoconnectData {
  pac_Enabled : bool; pac_Country : string; pac_City : string; pac_ServerGroup : Z }.
Record pb_Allowlist : Type := mkPbAllowlist { pal_Udp : list Z; pal_Tcp : list Z; pal_Subnets : list string }.
Record pb_UserSpecificSettings : Type := mkPbUserSpecificSettings { pus_Uid : Z; pus_Notify : bool; pus_Tray : bool }.

Record pb_Settings : Type := mkPbSettings {
  pst_Technology : Technology;
  pst_Firewall : bool;
  pst_KillSwitch : bool;
  pst_AutoConnectData : pb_AutoconnectData;
  pst_Ipv6 : bool;
  pst_Meshnet : bool;
  pst_Routing : bool;
  pst_Fwmark : Z;
  pst_Analytics : bool;
  pst_Dns : DNS;
  pst_ThreatProtectionLite : bool;
  pst_Protocol : Z;
  pst_LanDiscovery : bool;
  pst_Allowlist : pb_Allowlist;
  pst_Obfuscate : bool;
  pst_VirtualLocation : bool;
  pst_PostquantumVpn : bool;
  pst_UserSettings : pb_UserSpecificSettings
}.
#[export] Instance pb_Settings_eta : EtaExpand pb_Settings := fun s =>
  mkPbSettings (pst_Technology s) (pst_Firewall s) (pst_KillSwitch s) (pst_AutoConnectData s) (pst_Ipv6 s) (pst_Meshnet s)
    (pst_Routing s) (pst_Fwmark s) (pst_Analytics s) (pst_Dns s) (pst_ThreatProtectionLite s) (pst_Protocol s)
    (pst_LanDiscovery s) (pst_Allowlist s) (pst_Obfuscate s) (pst_VirtualLocation s) (pst_PostquantumVpn s) (pst_UserSettings s).

Inductive ConnectionState : Type := DISCONNECTED | CONNECTING | CONNECTED.
Inductive LoginEventType : Type := LOGIN | LOGOUT.

Record pb_ConnectionStatus : Type := mkPbConnectionStatus {
  pcs_State : ConnectionState;
  pcs_ServerIp : string;
  pcs_ServerCountry : string;
  pcs_ServerCity : string;
  pcs_ServerHostname : string;
  pcs_ServerName : string;
  pcs_IsMeshPeer : bool;
  pcs_ByUser : bool
}.

Inductive AppState : Type :=
| FAILED_TO_GET_UID
| AppConnectionStatus (status : pb_ConnectionStatus)
| AppLoginEvent (type : LoginEventType)
| AppSettingsChange (settings : pb_Settings)
| SERVERS_LIST_UPDATE.

(** ** The changes *)

Inductive TypeEventStatus : Type := EvStatusAttempt | EvStatusSuccess | EvStatusFailure | EvStatusCanceled.

(** [DataConnect] with the fields a stream reads. *)
Record DataConnect : Type := mkDataConnect {
  dc_IsMeshnetPeer : bool;
  dc_EventStatus : TypeEventStatus;
  dc_TargetServerCity : string;
  dc_TargetServerCountry : string;
  dc_TargetServerDomain : string;
  dc_TargetServerIP : string;
  dc_TargetServerName : string
}.

(** What the channels carry; [DataDisconnect] with the field a stream reads. *)
Inductive StateEvent : Type :=
| EvConnect (e : DataConnect)
| EvDisconnect (byUser : bool)
| EvLogin (type : LoginEventType)
| EvConfig (cfg : Config)
| EvServers.

(** The order of a [range] over the ports and the subnets. *)
Class StateEnv : Type := {
  range_ports : PortSet -> list Z;
  range_subnets : Subnets -> list string
}.

Section Messages.
Context `{StateEnv}.

(** The settings both ways to read them have in common. *)
Definition settings_message (cfg : Config) (notifyOff trayOff : bool) (uid : Z) : pb_Settings :=
  let ac := cfg_AutoConnectData cfg in
  let ports := al_Ports (ac_Allowlist ac) in
  mkPbSettings (cfg_Technology cfg) (cfg_Firewall cfg) (cfg_KillSwitch cfg)
    (mkPbAutoconnectData (cfg_AutoConnect cfg) (ac_Country ac) (ac_City ac) (ac_Group ac))
    (cfg_IPv6 cfg) (cfg_Mesh cfg) (TrueField_Get (cfg_Routing cfg)) (cfg_FirewallMark cfg) (TrueField_Get (cfg_Analytics cfg))
    (ac_DNS ac) (ac_ThreatProtectionLite ac) (ac_Protocol ac) (cfg_LanDiscovery cfg)
    (mkPbAllowlist (range_ports (ports_UDP ports)) (range_ports (ports_TCP ports)) (range_subnets (al_Subnets (ac_Allowlist ac))))
    (ac_Obfuscate ac) (TrueField_Get (cfg_VirtualLocation cfg)) false
    (mkPbUserSpecificSettings uid (negb notifyOff) (negb trayOff)).

Definition nil_pointer : string := "invalid memory address or nil pointer dereference".

(** [cfg.UsersData] is a pointer. *)
Definition configToProtobuf (cfg : Config) (uid : Z) : outcome pb_Settings :=
  match cfg_UsersData cfg with
  | None => Panicked nil_pointer
  | Some users => Returned (settings_message cfg (map_get (ud_NotifyOff users) uid) (map_get (ud_TrayOff users) uid) uid)
  end.

(** The message of the [Settings] request. *)
Definition settings_response (cfg : Config) (uid : Z) : outcome pb_Settings :=
  match cfg_UsersData cfg with
  | None => Panicked nil_pointer
  | Some users =>
      Returned ((settings_message cfg (map_get (ud_NotifyOff users) uid) (map_get (ud_TrayOff users) uid) uid)
        <| pst_PostquantumVpn := ac_PostquantumVpn (cfg_AutoConnectData cfg) |>)
  end.

(** The body of the loop of [statusStream]. *)
Definition event_message (uid : Z) (ev : StateEvent) : outcome AppState :=
  match ev with
  | EvConnect e =>
      let state := match dc_EventStatus e with EvStatusSuccess => CONNECTED | _ => CONNECTING end in
      Returned (AppConnectionStatus (mkPbConnectionStatus state (dc_TargetServerIP e) (dc_TargetServerCountry e)
        (dc_TargetServerCity e) (dc_TargetServerDomain e) (dc_TargetServerName e) (dc_IsMeshnetPeer e) true))
  | EvDisconnect byUser => Returned (AppConnectionStatus (mkPbConnectionStatus DISCONNECTED "" "" "" "" "" false byUser))
  | EvLogin type => Returned (AppLoginEvent type)
  | EvConfig cfg =>
      match configToProtobuf cfg uid with Returned s => Returned (AppSettingsChange s) | Panicked m => Panicked m end
  | EvServers => Returned SERVERS_LIST_UPDATE
  end.

(** ** Publisher and streams *)

(** Where the goroutine of a subscriber is: on its way to the [select], waiting in it,
    sending the message of a change, or returned. *)
Inductive Phase : Type := Idle | Waiting | Handling (ev : StateEvent) | Ended.

Record Subscriber : Type := mkSubscriber {
  su_uid : Z;
  su_stopClosed : bool;
  su_stateClosed : bool;
  su_canceled : bool;
  su_phase : Phase;
  su_sent : list AppState
}.
#[export] Instance Subscriber_eta : EtaExpand Subscriber := fun s =>
  mkSubscriber (su_uid s) (su_stopClosed s) (su_stateClosed s) (su_canceled s) (su_phase s) (su_sent s).

(** The list of the publisher names the channels by their number. *)
Record StatePublisher : Type := mkStatePublisher {
  sp_subscribers : list nat;
  sp_channels : list Subscriber;
  sp_refused : list AppState
}.
#[export] Instance StatePublisher_eta : EtaExpand StatePublisher := fun s =>
  mkStatePublisher (sp_subscribers s) (sp_channels s) (sp_refused s).

Definition NewState : StatePublisher := mkStatePublisher [] [] [].

Definition is_waiting (s : Subscriber) : bool := match su_phase s with Waiting => true | _ => false end.

(** [close(sub.stateChan)]: a goroutine that waits goes on with nil. *)
Definition close_state (s : Subscriber) : outcome Subscriber :=
  if su_stateClosed s then Panicked "close of closed channel"
  else Returned (s <| su_stateClosed := true |> <| su_phase := if is_waiting s then Idle else su_phase s |>).

Definition close_stop (s : Subscriber) : outcome Subscriber :=
  if su_stopClosed s then Panicked "close of closed channel" else Returned (s <| su_stopClosed := true |> <| su_phase := Ended |>).

(** One turn of [notify]: the channels and whether the subscriber stays. *)
Definition notify_one (pick : bool) (e : StateEvent) (s : Subscriber) : outcome (Subscriber * bool) :=
  let send_ready := is_waiting s || su_stateClosed s in
  if su_stopClosed s && (pick || negb send_ready) then
    match close_state s with Returned s' => Returned (s', false) | Panicked m => Panicked m end
  else if send_ready then
    if su_stateClosed s then Panicked "send on closed channel" else Returned (s <| su_phase := Handling e |>, true)
  else Returned (s, true).

(** One turn of the loop of [AddSubscriber]. *)
Definition prune_one (s : Subscriber) : outcome (Subscriber * bool) :=
  if su_stopClosed s then
    match close_state s with Returned s' => Returned (s', false) | Panicked m => Panicked m end
  else Returned (s, true).

(** A loop over the subscribers; those that stay are the new list. *)
Fixpoint each_subscriber (turn : nat -> Subscriber -> outcome (Subscriber * bool)) (ids : list nat) (channels : list Subscriber) :
    outcome (list nat * list Subscriber) :=
  match ids with
  | [] => Returned ([], channels)
  | id :: ids' =>
      match channels !! id with
      | None => each_subscriber turn ids' channels
      | Some s =>
          match turn id s with
          | Panicked m => Panicked m
          | Returned (s', stays) =>
              match each_subscriber turn ids' (<[id := s']> channels) with
              | Panicked m => Panicked m
              | Returned (kept, channels') => Returned (if stays : bool then id :: kept else kept, channels')
              end
          end
      end
  end.

Definition notify (pick : nat -> bool) (e : StateEvent) (p : StatePublisher) : outcome StatePublisher :=
  match each_subscriber (fun id => notify_one (pick id) e) (sp_subscribers p) (sp_channels p) with
  | Panicked m => Panicked m
  | Returned (subscribers, channels) => Returned (p <| sp_subscribers := subscribers |> <| sp_channels := channels |>)
  end.

Definition AddSubscriber (uid : Z) (p : StatePublisher) : outcome StatePublisher :=
  match each_subscriber (fun _ => prune_one) (sp_subscribers p) (sp_channels p) with
  | Panicked m => Panicked m
  | Returned (subscribers, channels) =>
      Returned (p <| sp_subscribers := subscribers ++ [length channels] |>
                  <| sp_channels := channels ++ [mkSubscriber uid false false false Idle []] |>)
  end.

Definition NotifyConnect (pick : nat -> bool) (e : DataConnect) : StatePublisher -> outcome StatePublisher := notify pick (EvConnect e).
Definition NotifyDisconnect (pick : nat -> bool) (byUser : bool) : StatePublisher -> outcome StatePublisher := notify pick (EvDisconnect byUser).
Definition NotifyLogin (pick : nat -> bool) : StatePublisher -> outcome StatePublisher := notify pick (EvLogin LOGIN).
Definition NotifyLogout (pick : nat -> bool) : StatePublisher -> outcome StatePublisher := notify pick (EvLogin LOGOUT).
Definition NotifyMFA (p : StatePublisher) : outcome StatePublisher := Returned p.
Definition NotifyConfigChanged (pick : nat -> bool) (cfg : Config) : StatePublisher -> outcome StatePublisher := notify pick (EvConfig cfg).
Definition NotifyServersListUpdate (pick : nat -> bool) : StatePublisher -> outcome StatePublisher := notify pick EvServers.

(** [SubscribeToStateChanges]: [auth] is none when there is no peer in the context, and
    [Some None] when it does not carry the credentials of a user. *)
Definition SubscribeToStateChanges (auth : option (option Z)) (p : StatePublisher) : outcome StatePublisher :=
  match auth with
  | Some None => Returned (p <| sp_refused := sp_refused p ++ [FAILED_TO_GET_UID] |>)
  | Some (Some uid) => AddSubscriber uid p
  | None => AddSubscriber 0 p
  end.

(** The goroutine of a subscriber reaches its [select]; a closed channel gives nil,
    which is no change. *)
Definition stream_select (pick : bool) (s : Subscriber) : outcome Subscriber :=
  match su_phase s with
  | Idle =>
      if su_canceled s && (pick || negb (su_stateClosed s)) then close_stop s
      else if su_stateClosed s then Returned s
      else Returned (s <| su_phase := Waiting |>)
  | _ => Returned s
  end.

(** It sends the message of the change it took; an error is logged only. *)
Definition stream_send (s : Subscriber) : outcome Subscriber :=
  match su_phase s with
  | Handling ev =>
      match event_message (su_uid s) ev with
      | Panicked m => Panicked m
      | Returned a => Returned (s <| su_sent := su_sent s ++ [a] |> <| su_phase := Idle |>)
      end
  | _ => Returned s
  end.

(** The context of the stream is done. *)
Definition stream_cancel (s : Subscriber) : outcome Subscriber :=
  let s := s <| su_canceled := true |> in
  match su_phase s with Waiting => close_stop s | _ => Returned s end.

(** ** Steps *)

Inductive StateOp : Type :=
| SoNotify (pick : nat -> bool) (e : StateEvent)
| SoSubscribe (auth : option (option Z))
| SoSelect (pick : bool) (id : nat)
| SoSend (id : nat)
| SoCancel (id : nat).

Definition on_subscriber (id : nat) (f : Subscriber -> outcome Subscriber) (p : StatePublisher) : outcome StatePublisher :=
  match sp_channels p !! id with
  | None => Returned p
  | Some s => match f s with Panicked m => Panicked m | Returned s' => Returned (p <| sp_channels := <[id := s']> (sp_channels p) |>) end
  end.

Definition state_step (op : StateOp) : StatePublisher -> outcome StatePublisher :=
  match op with
  | SoNotify pick e => notify pick e
  | SoSubscribe auth => SubscribeToStateChanges auth
  | SoSelect pick id => on_subscriber id (stream_select pick)
  | SoSend id => on_subscriber id stream_send
  | SoCancel id => on_subscriber id stream_cancel
  end.

Fixpoint state_run (ops : list StateOp) (p : StatePublisher) : outcome StatePublisher :=
  match ops with
  | [] => Returned p
  | op :: ops' => match state_step op p with Panicked m => Panicked m | Returned p' => state_run ops' p' end
  end.
End Messages.
