(* ===== verification/StateProps.v ===== *)
(** * StateProps: properties of the streams of state changes

    No channel is closed twice or written to after it was closed; a stream tells its
    subscriber changes in the order they happened, all of them when it is attentive; a
    stream that ended is forgotten with the next change. *)

From stdpp Require Import base option list strings gmap.
From Stdlib Require Import ZArith Lia.
From S2P Require Import Prelude GoLib Mesh Config Servers Daemon State.
Set Warnings "-clear-no-such-hyp".

Open Scope Z_scope.
Open Scope go_scope.

Section Streams.
Context `{StateEnv}.

(** ** One subscriber *)

(** A message can be made of a configuration that has its user data. *)
Definition tellable (ev : StateEvent) : Prop := match ev with EvConfig cfg => is_Some (cfg_UsersData cfg) | _ => True end.
Definition pending (s : Subscriber) : list StateEvent := match su_phase s with Handling ev => [ev] | _ => [] end.

(** What holds of a subscriber that the publisher lists, and of one it forgot. *)
Definition sound (s : Subscriber) : Prop := (su_stopClosed s = true <-> su_phase s = Ended) /\ Forall tellable (pending s).
Definition listed_sound (s : Subscriber) : Prop := sound s /\ su_stateClosed s = false.
Definition forgotten_sound (s : Subscriber) : Prop := sound s /\ su_stopClosed s = true.

(** What the subscriber was told and is being told. *)
Definition account (s : Subscriber) : list (outcome AppState) := map Returned (su_sent s) ++ map (event_message (su_uid s)) (pending s).

Lemma tellable_message uid ev : tellable ev -> exists a, event_message uid ev = Returned a.
Proof.
  destruct ev as [e|b|t|cfg|]; cbn; eauto. intros [u Hu]. unfold configToProtobuf. rewrite Hu. eauto.
Qed.

(** What a turn of a loop of the publisher does with a subscriber it lists. *)
Definition turn_sound (turn : Subscriber -> outcome (Subscriber * bool)) (taken : list StateEvent) (s : Subscriber) : Prop :=
  exists s' stays, turn s = Returned (s', stays) /\ stays = negb (su_stopClosed s) /\
    (if stays then listed_sound s' else forgotten_sound s') /\
    su_uid s' = su_uid s /\ su_stopClosed s' = su_stopClosed s /\ account s' = account s ++ map (event_message (su_uid s)) taken.

Lemma prune_one_sound s : listed_sound s -> turn_sound prune_one [] s.
Proof.
  unfold turn_sound, prune_one, close_state, listed_sound, forgotten_sound, sound, account, pending.
  destruct s as [uid stop closed canceled ph sent]; cbn. intros [[Hs Ht] ->]. destruct stop.
  - assert (ph = Ended) as -> by by apply Hs. eexists _, false. rewrite app_nil_r. by repeat split.
  - eexists _, true. split; [reflexivity|]. rewrite app_nil_r. cbn. by split_and!.
Qed.

Lemma notify_one_sound pick e s : listed_sound s -> tellable e -> turn_sound (notify_one pick e) (if is_waiting s then [e] else []) s.
Proof.
  unfold turn_sound, notify_one, close_state, listed_sound, forgotten_sound, sound, account, pending, is_waiting.
  destruct s as [uid stop closed canceled ph sent]; cbn. intros [[Hs Ht] ->] He. destruct stop.
  - assert (ph = Ended) as -> by by apply Hs. rewrite orb_true_r. eexists _, false. rewrite app_nil_r. by repeat split.
  - destruct ph; cbn; eexists _, true; (split; [reflexivity|]); cbn; rewrite ?app_nil_r; split_and!; try done.
    all: try by repeat constructor.
Qed.

Lemma stream_select_sound pick s : listed_sound s ->
  exists s', stream_select pick s = Returned s' /\ listed_sound s' /\ su_uid s' = su_uid s /\ account s' = account s.
Proof.
  unfold stream_select, close_stop, listed_sound, sound, account, pending.
  destruct s as [uid stop closed canceled ph sent]; cbn. intros [[Hs Ht] ->].
  destruct ph; try (eexists; split; [reflexivity|]; cbn; by split_and!).
  destruct stop; [by specialize (proj1 Hs eq_refl)|].
  destruct canceled; cbn; rewrite ?orb_true_r; eexists; (split; [reflexivity|]); cbn; by split_and!.
Qed.

Lemma stream_cancel_sound s : listed_sound s ->
  exists s', stream_cancel s = Returned s' /\ listed_sound s' /\ su_uid s' = su_uid s /\ account s' = account s.
Proof.
  unfold stream_cancel, close_stop, listed_sound, sound, account, pending.
  destruct s as [uid stop closed canceled ph sent]; cbn. intros [[Hs Ht] ->].
  destruct ph; try (eexists; split; [reflexivity|]; cbn; by split_and!).
  destruct stop; [by specialize (proj1 Hs eq_refl)|]. eexists. split; [reflexivity|]. cbn. by split_and!.
Qed.

Lemma stream_send_sound s : listed_sound s ->
  exists s', stream_send s = Returned s' /\ listed_sound s' /\ su_uid s' = su_uid s /\ account s' = account s.
Proof.
  unfold stream_send, listed_sound, sound, account, pending.
  destruct s as [uid stop closed canceled ph sent]; cbn. intros [[Hs Ht] ->].
  destruct ph as [| |ev|]; try (eexists; split; [reflexivity|]; cbn; by split_and!).
  destruct stop; [by specialize (proj1 Hs eq_refl)|]. apply Forall_inv in Ht as Htell.
  destruct (tellable_message uid ev Htell) as [a Ha]. rewrite Ha. eexists. split; [reflexivity|]. cbn.
  rewrite map_app, app_nil_r. split_and!; try done. by rewrite Ha.
Qed.

(** The goroutine of a subscriber that was forgotten has returned. *)
Lemma forgotten_steps s : forgotten_sound s ->
  (forall pick, stream_select pick s = Returned s) /\ stream_send s = Returned s /\
  exists s', stream_cancel s = Returned s' /\ forgotten_sound s' /\ su_uid s' = su_uid s /\ account s' = account s.
Proof.
  unfold stream_select, stream_send, stream_cancel, forgotten_sound, sound, account, pending.
  destruct s as [uid stop closed canceled ph sent]; cbn. intros [[Hs Ht] ->]. assert (ph = Ended) as -> by by apply Hs.
  split_and!; [done|done|]. eexists. split; [reflexivity|]. cbn. by split_and!.
Qed.

(** ** All of them *)

Record inv (p : StatePublisher) : Prop := mkInv {
  inv_nodup : NoDup (sp_subscribers p);
  inv_listed : forall id, id ∈ sp_subscribers p -> is_Some (sp_channels p !! id);
  inv_sound : forall id s, sp_channels p !! id = Some s -> if decide (id ∈ sp_subscribers p) then listed_sound s else forgotten_sound s
}.

Lemma each_subscriber_spec turn ids channels (taken : Subscriber -> list StateEvent) :
  NoDup ids ->
  (forall id, id ∈ ids -> exists s, channels !! id = Some s /\ turn_sound (turn id) (taken s) s) ->
  exists kept channels', each_subscriber turn ids channels = Returned (kept, channels') /\
    kept `sublist_of` ids /\ length channels' = length channels /\
    (forall id, id ∉ ids -> channels' !! id = channels !! id) /\
    (forall id s, id ∈ ids -> channels !! id = Some s -> exists s', channels' !! id = Some s' /\
      (id ∈ kept <-> su_stopClosed s = false) /\ (if decide (id ∈ kept) then listed_sound s' else forgotten_sound s') /\
      su_uid s' = su_uid s /\ su_stopClosed s' = su_stopClosed s /\
      account s' = account s ++ map (event_message (su_uid s)) (taken s)).
Proof.
  revert channels. induction ids as [|id ids IH]; intros channels Hnd Hturn; cbn [each_subscriber].
  - exists [], channels. split_and!; try done. by intros id s []%elem_of_nil.
  - apply NoDup_cons in Hnd as [Hid Hnd]. destruct (Hturn id) as (s & Hs & s1 & stays & Ht & -> & Hsound & Huid & Hstop & Hacc); [by left|].
    rewrite Hs, Ht. destruct (IH (<[id := s1]> channels) Hnd) as (kept & channels' & He & Hsub & Hlen & Hother & Hin).
    { intros id' Hid'. destruct (Hturn id') as (s' & Hs' & Ht'); [by right|]. exists s'.
      split; [|done]. rewrite list_lookup_insert_ne; [done|]. by intros ->. }
    rewrite He. assert (Hk : id ∉ kept) by (intros Hk; by apply Hid, (elem_of_sublist _ _ _ Hk Hsub)).
    assert (Hat : channels' !! id = Some s1).
    { rewrite Hother by done. apply list_lookup_insert_eq. by eapply lookup_lt_Some. }
    eexists _, channels'. split; [done|]. split_and!.
    + destruct (su_stopClosed s); cbn; [by constructor|by constructor].
    + by rewrite Hlen, length_insert.
    + intros id' [Hne Hid']%not_elem_of_cons. rewrite Hother by done. by apply list_lookup_insert_ne.
    + intros id' s' [->|Hid']%elem_of_cons Hs'.
      * rewrite Hs in Hs'. injection Hs' as <-. exists s1. split; [done|].
        destruct (su_stopClosed s); cbn in *.
        -- rewrite decide_False by done. split_and!; done.
        -- rewrite decide_True by by left. split_and!; try done. split; [done|]. by left.
      * assert (id' <> id) by by intros ->. destruct (Hin id' s' Hid') as (s2 & Hs2 & Hkept & Hok & Hrest).
        { by rewrite list_lookup_insert_ne. }
        exists s2. split; [done|]. destruct (su_stopClosed s); cbn; [done|].
        split; [rewrite elem_of_cons; naive_solver|]. split; [|done].
        destruct (decide (id' ∈ kept)); [rewrite decide_True by by right|rewrite decide_False by (intros [|]%elem_of_cons; done)]; done.
Qed.
(** ** Steps *)

Definition op_tellable (op : StateOp) : Prop := match op with SoNotify _ e => tellable e | _ => True end.

(** The changes a subscriber takes in a step: the one published while it waits. *)
Definition taken (op : StateOp) (s : Subscriber) : list StateEvent :=
  match op with SoNotify _ e => if is_waiting s then [e] else [] | _ => [] end.

(** Every subscriber is still there and its account grew by what it took. *)
Definition accounted (op : StateOp) (p p' : StatePublisher) : Prop :=
  forall id s, sp_channels p !! id = Some s -> exists s', sp_channels p' !! id = Some s' /\
    su_uid s' = su_uid s /\ account s' = account s ++ map (event_message (su_uid s)) (taken op s).

Definition live (p : StatePublisher) (id : nat) : Prop := exists s, sp_channels p !! id = Some s /\ su_stopClosed s = false.

Lemma forgotten_not_waiting s : forgotten_sound s -> is_waiting s = false.
Proof. intros [[Hs _] Hstop]. unfold is_waiting. by rewrite (proj1 Hs Hstop). Qed.

(** A loop of the publisher over all its subscribers. *)
Lemma publisher_loop turn p (took : Subscriber -> list StateEvent) :
  inv p -> (forall id s, listed_sound s -> turn_sound (turn id) (took s) s) -> (forall s, forgotten_sound s -> took s = []) ->
  exists kept channels', each_subscriber turn (sp_subscribers p) (sp_channels p) = Returned (kept, channels') /\
    length channels' = length (sp_channels p) /\
    (forall refused, inv (mkStatePublisher kept channels' refused)) /\
    (forall id, id ∈ kept <-> live p id) /\
    (forall id s, sp_channels p !! id = Some s -> exists s', channels' !! id = Some s' /\
      su_uid s' = su_uid s /\ account s' = account s ++ map (event_message (su_uid s)) (took s)).
Proof.
  intros [Hnd Hl Hs] Hturn Htook.
  destruct (each_subscriber_spec turn (sp_subscribers p) (sp_channels p) took Hnd) as (kept & channels' & He & Hsub & Hlen & Hother & Hin).
  { intros id Hid. destruct (Hl id Hid) as [s Hs1]. exists s. split; [done|]. apply Hturn.
    specialize (Hs id s Hs1). by rewrite decide_True in Hs. }
  assert (Hkept : forall id, id ∈ kept -> id ∈ sp_subscribers p) by (intros id Hid; by eapply elem_of_sublist).
  exists kept, channels'. split_and!; [done|done| | |].
  - intros refused. constructor; cbn.
    + by eapply sublist_NoDup.
    + intros id Hid. destruct (Hl id (Hkept id Hid)) as [s Hs1]. destruct (Hin id s (Hkept id Hid) Hs1) as (s' & Hs' & _). eauto.
    + intros id s' Hs'. destruct (decide (id ∈ sp_subscribers p)) as [Hid|Hid].
      * destruct (Hl id Hid) as [s Hs1]. destruct (Hin id s Hid Hs1) as (s2 & Hs2 & _ & Hok & _).
        rewrite Hs2 in Hs'. by injection Hs' as <-.
      * rewrite decide_False by auto. rewrite Hother in Hs' by done. specialize (Hs id s' Hs'). by rewrite decide_False in Hs.
  - intros id. unfold live. split.
    + intros Hid. destruct (Hl id (Hkept id Hid)) as [s Hs1]. destruct (Hin id s (Hkept id Hid) Hs1) as (s' & _ & Hk & _).
      exists s. split; [done|]. by apply Hk.
    + intros (s & Hs1 & Hstop). specialize (Hs id s Hs1). destruct (decide (id ∈ sp_subscribers p)) as [Hid|Hid].
      * destruct (Hin id s Hid Hs1) as (s' & _ & Hk & _). by apply Hk.
      * destruct Hs as [_ Hs]. congruence.
  - intros id s Hs1. destruct (decide (id ∈ sp_subscribers p)) as [Hid|Hid].
    + destruct (Hin id s Hid Hs1) as (s' & Hs' & _ & _ & Huid & _ & Hacc). eauto.
    + exists s. rewrite Hother by done. split_and!; [done..|]. specialize (Hs id s Hs1). rewrite decide_False in Hs by done.
      by rewrite (Htook s Hs), app_nil_r.
Qed.

Lemma on_subscriber_step id f p op :
  inv p -> (forall s, taken op s = []) ->
  (forall s, listed_sound s -> exists s', f s = Returned s' /\ listed_sound s' /\ su_uid s' = su_uid s /\ account s' = account s) ->
  (forall s, forgotten_sound s -> exists s', f s = Returned s' /\ forgotten_sound s' /\ su_uid s' = su_uid s /\ account s' = account s) ->
  exists p', on_subscriber id f p = Returned p' /\ inv p' /\ accounted op p p'.
Proof.
  intros [Hnd Hl Hs] Htaken Hlisted Hforgotten. unfold on_subscriber. destruct (sp_channels p !! id) as [s|] eqn:Hid.
  - assert (Hf : exists s', f s = Returned s' /\ (if decide (id ∈ sp_subscribers p) then listed_sound s' else forgotten_sound s') /\
      su_uid s' = su_uid s /\ account s' = account s).
    { specialize (Hs id s Hid). destruct (decide _); auto. }
    destruct Hf as (s' & -> & Hok & Huid & Hacc). eexists. split; [done|]. apply lookup_lt_Some in Hid as Hlt. split.
    + constructor; cbn; [done| |].
      * intros i Hi. destruct (Hl i Hi) as [si Hsi]. destruct (decide (i = id)) as [->|]; [rewrite list_lookup_insert_eq by done; eauto|].
        rewrite list_lookup_insert_ne by done. eauto.
      * intros i si Hsi. destruct (decide (i = id)) as [->|]; [|rewrite list_lookup_insert_ne in Hsi by done; by apply Hs].
        rewrite list_lookup_insert_eq in Hsi by done. by injection Hsi as <-.
    + intros i si Hsi. cbn. rewrite Htaken, app_nil_r. destruct (decide (i = id)) as [->|].
      * rewrite list_lookup_insert_eq by done. exists s'. rewrite Hid in Hsi. by injection Hsi as <-.
      * rewrite list_lookup_insert_ne by done. eauto.
  - eexists. split; [done|]. split; [done|]. intros i si Hsi. rewrite Htaken, app_nil_r. eauto.
Qed.

Lemma notify_spec pick e p : inv p -> tellable e -> exists p', notify pick e p = Returned p' /\ inv p' /\
  accounted (SoNotify pick e) p p' /\ forall id, id ∈ sp_subscribers p' <-> live p id.
Proof.
  intros Hinv He. destruct (publisher_loop (fun id => notify_one (pick id) e) p (fun s => if is_waiting s then [e] else []) Hinv)
    as (kept & channels' & Hloop & _ & Hi & Hlive & Hacc).
  - intros id s Hs. by apply notify_one_sound.
  - intros s Hs. by rewrite forgotten_not_waiting.
  - unfold notify. rewrite Hloop. eexists. split; [done|]. split; [apply Hi|]. split; [|exact Hlive]. exact Hacc.
Qed.

Lemma AddSubscriber_spec uid p : inv p -> exists p', AddSubscriber uid p = Returned p' /\ inv p' /\
  length (sp_channels p') = S (length (sp_channels p)) /\
  sp_channels p' !! length (sp_channels p) = Some (mkSubscriber uid false false false Idle []) /\
  forall id s, sp_channels p !! id = Some s -> exists s', sp_channels p' !! id = Some s' /\ su_uid s' = su_uid s /\ account s' = account s.
Proof.
  intros Hinv. destruct (publisher_loop (fun _ => prune_one) p (fun _ => []) Hinv) as (kept & channels' & Hloop & Hlen & Hi & Hlive & Hacc).
  - intros id s Hs. by apply prune_one_sound.
  - done.
  - unfold AddSubscriber. rewrite Hloop. eexists. split; [done|]. cbn. split.
    + destruct (Hi (sp_refused p)) as [Hnd Hl Hs]. cbn in *.
      assert (Hnew : length channels' ∉ kept) by (intros [s Hin]%Hl; apply lookup_lt_Some in Hin; lia).
      constructor; cbn.
      * apply NoDup_app. split_and!; [done| |apply NoDup_singleton]. intros x Hx ->%list_elem_of_singleton. done.
      * intros id [Hid| ->%list_elem_of_singleton]%elem_of_app.
        -- destruct (Hl id Hid) as [s Hin]. exists s. by apply lookup_app_l_Some.
        -- rewrite list_lookup_middle by done. eauto.
      * intros id s [Hin|[Hge Hin]]%lookup_app_Some.
        -- specialize (Hs id s Hin). assert (id <> length channels') by (apply lookup_lt_Some in Hin; lia).
           destruct (decide (id ∈ kept)); [rewrite decide_True by (apply elem_of_app; by left); done|].
           rewrite decide_False; [done|]. by intros [Hk| ->%list_elem_of_singleton]%elem_of_app.
        -- apply list_lookup_singleton_Some in Hin as [Hz <-]. assert (id = length channels') as -> by lia.
           rewrite decide_True by (apply elem_of_app; right; by left). by repeat split.
    + rewrite <- Hlen. split_and!.
      * rewrite length_app. cbn. lia.
      * by rewrite list_lookup_middle.
      * intros id s Hin. destruct (Hacc id s Hin) as (s' & Hs' & Huid & Ha). exists s'. rewrite app_nil_r in Ha.
        split_and!; [by apply lookup_app_l_Some|done..].
Qed.

Lemma state_step_spec op p : inv p -> op_tellable op -> exists p', state_step op p = Returned p' /\ inv p' /\ accounted op p p'.
Proof.
  intros Hinv Hop. destruct op as [pick e|auth|pick id|id|id]; cbn [state_step].
  - destruct (notify_spec pick e p Hinv Hop) as (p' & Hn & Hi & Ha & _). eauto.
  - assert (Hadd : forall uid, exists p', AddSubscriber uid p = Returned p' /\ inv p' /\ accounted (SoSubscribe auth) p p').
    { intros uid. destruct (AddSubscriber_spec uid p Hinv) as (p' & Hn & Hi & _ & _ & Ha). exists p'. split_and!; [done..|].
      intros id s Hs. destruct (Ha id s Hs) as (s' & ?). exists s'. cbn. by rewrite app_nil_r. }
    unfold SubscribeToStateChanges. destruct auth as [[uid|]|]; auto.
    eexists. split; [done|]. destruct Hinv as [Hnd Hl Hs]. split; [by constructor|]. intros id s Hin. exists s. cbn. by rewrite app_nil_r.
  - apply on_subscriber_step; [done|done|by apply stream_select_sound|]. intros s Hs. destruct (forgotten_steps s Hs) as (Hsel & _).
    exists s. by rewrite Hsel.
  - apply on_subscriber_step; [done|done|by apply stream_send_sound|]. intros s Hs. destruct (forgotten_steps s Hs) as (_ & Hsend & _).
    exists s. by rewrite Hsend.
  - apply on_subscriber_step; [done|done|by apply stream_cancel_sound|]. intros s Hs. by destruct (forgotten_steps s Hs) as (_ & _ & ?).
Qed.

Lemma state_run_spec ops p : inv p -> Forall op_tellable ops -> exists p', state_run ops p = Returned p' /\ inv p'.
Proof.
  intros Hinv Hops. revert p Hinv. induction Hops as [|op ops Hop Hops IH]; intros p Hinv; cbn [state_run]; [by exists p|].
  destruct (state_step_spec op p Hinv Hop) as (p1 & -> & Hi & _). by apply IH.
Qed.

Lemma NewState_inv : inv NewState.
Proof. constructor; cbn; [apply NoDup_nil_2|by intros id []%elem_of_nil|intros id s Hs; by rewrite lookup_nil in Hs]. Qed.
(** ** The properties *)

(** C36: the publisher and its streams never panic: in every order of publishing,
    subscribing, selecting, sending and canceling no channel is closed twice and nothing
    is sent to a closed one.  A published change forgets the subscribers whose stream has
    ended, and only them. *)
Theorem streams_never_panic (ops : list StateOp) (Hops : Forall op_tellable ops) :
  exists p, state_run ops NewState = Returned p /\
    forall pick e, tellable e -> exists p', notify pick e p = Returned p' /\
      forall id, id ∈ sp_subscribers p' <-> exists s, sp_channels p !! id = Some s /\ su_stopClosed s = false.
Proof.
  destruct (state_run_spec ops NewState NewState_inv Hops) as (p & Hrun & Hinv). exists p. split; [done|].
  intros pick e He. destruct (notify_spec pick e p Hinv He) as (p' & Hn & _ & _ & Hlive). by exists p'.
Qed.

Definition published (ops : list StateOp) : list StateEvent := omap (fun op => match op with SoNotify _ e => Some e | _ => None end) ops.

(** The goroutine of the subscriber waits whenever a change is published. *)
Fixpoint attentive (id : nat) (ops : list StateOp) (p : StatePublisher) : Prop :=
  match ops with
  | [] => True
  | op :: ops' =>
      match op with SoNotify _ _ => exists s, sp_channels p !! id = Some s /\ su_phase s = Waiting | _ => True end /\
      match state_step op p with Returned p' => attentive id ops' p' | Panicked _ => False end
  end.

Lemma run_accounted ops p id s : inv p -> Forall op_tellable ops -> sp_channels p !! id = Some s ->
  exists p' s' evs, state_run ops p = Returned p' /\ sp_channels p' !! id = Some s' /\ su_uid s' = su_uid s /\
    account s' = account s ++ map (event_message (su_uid s)) evs /\ evs `sublist_of` published ops /\
    (attentive id ops p -> evs = published ops).
Proof.
  intros Hinv Hops. revert p s Hinv. induction Hops as [|op ops Hop Hops IH]; intros p s Hinv Hs; cbn [state_run].
  - exists p, s, []. rewrite app_nil_r. by split_and!.
  - destruct (state_step_spec op p Hinv Hop) as (p1 & Hstep & Hi & Hacc). destruct (Hacc id s Hs) as (s1 & Hs1 & Huid & Ha).
    destruct (IH p1 s1 Hi Hs1) as (p' & s' & evs & Hrun & Hs' & Huid' & Ha' & Hsub & Hatt). rewrite Hstep.
    exists p', s', (taken op s ++ evs). split_and!; [done|done|by rewrite Huid'| | |].
    + by rewrite Ha', Ha, Huid, map_app, app_assoc.
    + destruct op as [pick e| | | |]; cbn; [|done..]. destruct (is_waiting s); cbn; by constructor.
    + cbn [attentive]. rewrite Hstep. intros [Hw Hrest]. specialize (Hatt Hrest). destruct op as [pick e| | | |]; cbn; [|done..].
      destruct Hw as (s0 & Hs0 & Hph). rewrite Hs in Hs0. injection Hs0 as <-. unfold is_waiting. rewrite Hph. cbn. by rewrite Hatt.
Qed.

(** C37: a stream tells its subscriber changes in the order they were published: from
    the subscription on, what it sent and the message it is about to send are the messages
    of a subsequence of the published changes, and of all of them when the goroutine of
    the stream waits at each one. *)
Theorem changes_told_in_order (before ops : list StateOp) (uid : Z) (Hbefore : Forall op_tellable before) (Hops : Forall op_tellable ops) :
  exists p0 p1 p s evs, state_run before NewState = Returned p0 /\ state_step (SoSubscribe (Some (Some uid))) p0 = Returned p1 /\
    state_run ops p1 = Returned p /\ sp_channels p !! length (sp_channels p0) = Some s /\
    account s = map (event_message uid) evs /\ evs `sublist_of` published ops /\
    (attentive (length (sp_channels p0)) ops p1 -> evs = published ops).
Proof.
  destruct (state_run_spec before NewState NewState_inv Hbefore) as (p0 & Hrun & Hinv).
  destruct (AddSubscriber_spec uid p0 Hinv) as (p1 & Hadd & Hinv1 & _ & Hnew & _).
  destruct (run_accounted ops p1 _ _ Hinv1 Hops Hnew) as (p & s & evs & Hrun1 & Hs & _ & Ha & Hrest).
  by exists p0, p1, p, s, evs.
Qed.

(** The settings a stream tells are those the request for the settings answers, except
    that post-quantum encryption is always told to be off. *)
Lemma stream_settings_lack_postquantum cfg uid s :
  settings_response cfg uid = Returned s -> configToProtobuf cfg uid = Returned (s <| pst_PostquantumVpn := false |>).
Proof. unfold settings_response, configToProtobuf. destruct (cfg_UsersData cfg); [|done]. by intros [= <-]. Qed.
End Streams.

(** ** A sample *)

Module StateBox.
#[export] Instance env : StateEnv := {| range_ports := fun m => (map_to_list m).*1; range_subnets := fun m => (map_to_list m).*1 |}.
Definition pick : nat -> bool := fun _ => true.

(** One subscriber waits, the other is canceled. *)
Definition before : list StateOp :=
  [SoSubscribe (Some (Some 1000)); SoSelect true 0; SoNotify pick (EvLogin LOGIN); SoSend 0; SoCancel 0; SoSelect true 0].
Definition ops : list StateOp :=
  [SoSelect true 1; SoNotify pick (EvDisconnect true); SoSend 1; SoSelect true 1; SoNotify pick (EvConfig (newConfig "id")); SoSend 1].

Lemma streams_never_panic_witness : exists p, state_run (before ++ [SoSubscribe (Some (Some 1001))] ++ ops) NewState = Returned p /\
  forall pick e, tellable e -> exists p', notify pick e p = Returned p' /\
    forall id, id ∈ sp_subscribers p' <-> exists s, sp_channels p !! id = Some s /\ su_stopClosed s = false.
Proof. apply streams_never_panic. repeat constructor. by eexists. Defined.

Lemma changes_told_in_order_witness :
  exists p0 p1 p s evs, state_run before NewState = Returned p0 /\ state_step (SoSubscribe (Some (Some 1001))) p0 = Returned p1 /\
    state_run ops p1 = Returned p /\ sp_channels p !! length (sp_channels p0) = Some s /\
    account s = map (event_message 1001) evs /\ evs `sublist_of` published ops /\
    (attentive (length (sp_channels p0)) ops p1 -> evs = published ops).
Proof. apply changes_told_in_order; repeat constructor. by eexists. Defined.

(** A change published while the message of the one before is sent is lost: the user is
    told the start of a connection and not that it was made. *)
Definition connect (status : TypeEventStatus) : StateEvent := EvConnect (mkDataConnect false status "Vilnius" "Lithuania" "lt1.nordvpn.com" "192.0.2.1" "Lithuania #1").
Example change_lost_while_sending :
  match state_run [SoSubscribe (Some (Some 1000)); SoSelect true 0; SoNotify pick (connect EvStatusAttempt);
                   SoNotify pick (connect EvStatusSuccess); SoSend 0; SoSelect true 0] NewState with
  | Returned p => map (fun s => map (fun a => match a with AppConnectionStatus c => Some (pcs_State c) | _ => None end) (su_sent s)) (sp_channels p)
  | Panicked _ => []
  end = [[Some CONNECTING]].
Proof. vm_compute. reflexivity. Qed.
End StateBox.
