(* ===== verification/Norduser.v ===== *)
(** * Norduser: the processes of the users

    Models [norduser/process_monitor.go], [process_monitor_snap.go], [group.go],
    [utmp.go], [environ.go], [fileshare.go], [server.go] and [norduser/service/fork.go]:
    which members of the group [nordvpn] have a process of [norduserd], how it is started
    and signalled, and the loop in that process that starts file sharing.

    The host is an interface: its files, the entries of [utmp], the user database, [ps]
    and the signals.  The processes are reached through another one, which [fork.go]
    implements.  The watcher of files is a list of events. *)

From stdpp Require Import base option list strings pretty gmap.
From Stdlib Require Import ZArith Ascii Lia.
From S2P Require Import Prelude GoLib GoText.

Open Scope Z_scope.
Open Scope go_scope.

(** ** Environment and group file *)

(** [utmpx] entries: type, process and user. *)
Record Utmpx : Type := mkUtmpx { ut_type : Z; ut_pid : Z; ut_user : string }.
Definition USER_PROCESS : Z := 7.
Definition UT_NAMESIZE : nat := 32.

(** What [CombinedOutput] fails with. *)
Inductive RunError : Type := RunOk | ExitError (e : error) | NotRun (e : error).

Definition SIGHUP : Z := 1.
Definition SIGTERM : Z := 15.
Definition ESRCH : Z := 3.

Class NorduserHost (N : Type) : Type := {
  os_ReadFile : string -> M N string;
  getutxent_all : M N (list Utmpx);  (* fails when memory is short *)
  user_Lookup : string -> M N (string * string * string);  (* Uid, Gid and HomeDir *)
  user_LookupGroup : string -> M N string;  (* Gid *)
  exec_ps : list string -> N -> (string * RunError) * N;
  cmd_Start : string -> Z -> Z -> list Z -> list string -> M N unit;
  (** the number of the error, when there is one *)
  syscall_Kill : Z -> Z -> N -> option Z * N;
  proc_Wait : Z -> M N unit;
  wg_WaitTimeout : M N unit
}.

Definition groupFilePath : string := "/etc/group".
Definition utmpFilePath : string := "/var/run/utmp".
Definition NordvpnGroup : string := "nordvpn".
Definition Norduserd : string := "norduserd".
Definition NorduserdBinaryPath : string := "/usr/lib/nordvpn/norduserd".
Definition NUL : ascii := "000"%char.

Fixpoint find_variable (name : string) (variables : list string) : string :=
  match variables with
  | [] => ""
  | v :: vs =>
      match split_char "="%char v with
      | [] => find_variable name vs
      | key :: rest =>
          if negb (bool_decide (key = name)) then find_variable name vs
          else match rest with [value] => value | _ => "" end
      end
  end.
Definition findVariable (name environment : string) : string := find_variable name (split_char NUL environment).

(** The pattern [^name:] of a name without special characters. *)
Definition findGroupEntry (groups groupName : string) : string :=
  default "" (List.find (has_prefix (groupName +:+ ":")) (split_char newline groups)).

Definition getGroupMembers (groupEntry : string) : list string :=
  let groupEntry := trim_suffix groupEntry (String newline "") in
  let groupMembers := match cut_last ":"%char groupEntry with Some (_, members) => members | None => groupEntry end in
  if bool_decide (groupMembers = "") then [] else split_char ","%char groupMembers.

Definition uint32 (z : Z) : Z := z mod 2 ^ 32.

Inductive norduserState : Type := notActive | loginGUI | loginText | runningGUI | runningText.
#[export] Instance norduserState_eq_dec : EqDecision norduserState.
Proof. solve_decision. Defined.
Definition is_running (s : norduserState) : bool := match s with runningGUI | runningText => true | _ => false end.

Abbreviation userSet := (gmap string norduserState).

Record UserIDs : Type := mkUserIDs { id_uid : Z; id_gid : Z; id_home : string }.

(** The interface [service.Service] and the look-ups of the monitor, with the order of a
    [range] over the members. *)
Class NorduserService (N : Type) : Type := {
  norduserd_Enable : Z -> Z -> string -> M N unit;
  norduserd_Stop : Z -> bool -> M N unit;
  norduserd_Restart : Z -> M N unit
}.
Class MonitorEnv (N : Type) : Type := {
  monitor_service :: NorduserService N;
  userIDGetter_getUserID : string -> M N UserIDs;
  group_members : M N (list string);
  active_users : M N userSet;
  range_users : userSet -> list (string * norduserState)
}.

Section Host.
Context {N : Type} `{NorduserHost N}.

Definition findEnvVariableForPID (pid : Z) (name : string) : M N string :=
  let! environment := wrapped "reading file: " (os_ReadFile ("/proc/" +:+ itoa pid +:+ "/environ")) "" in
  ret (findVariable name environment).

Definition getGroupEntry (groupName : string) : M N string :=
  let! file := wrapped "failed to read group file: " (os_ReadFile groupFilePath) "" in
  let groupEntry := findGroupEntry file groupName in
  if bool_decide (groupEntry = "") then throw (Errorf "group entry not found: %!w(<nil>)") else ret groupEntry.

Definition getNordVPNGroupMembers : M N (list string) :=
  let! groupEntry := wrapped "getting group entry: " (getGroupEntry NordvpnGroup) "" in
  ret (getGroupMembers groupEntry).

Definition getUserID (username : string) : M N UserIDs :=
  let! user := wrapped "looking up user: " (user_Lookup username) "" in
  let '(uid, gid, home) := user in
  match atoi uid with
  | None => throw (Errorf "converting uid string to int")
  | Some uid =>
      match atoi gid with
      | None => throw (Errorf "converting uid string to int")
      | Some gid => ret (mkUserIDs (uint32 uid) (uint32 gid) home)
      end
  end.

(** The function in C: the processes of users, with names of at most [UT_NAMESIZE] bytes. *)
Definition get_utmp_user_processes : M N (list (Z * string)) :=
  let! entries := getutxent_all in
  ret (map (fun u => (ut_pid u, String.substring 0 UT_NAMESIZE (ut_user u))) (List.filter (fun u => ut_type u =? USER_PROCESS) entries)).

Definition isUserLoggedIn (username : string) : M N bool :=
  let! users := get_utmp_user_processes in
  ret (existsb (fun '(_, name) => bool_decide (username = name)) users).

(** One turn of the loop of [getActiveUsers]. *)
Definition active_user (loginPID : Z) (username : string) (users : userSet) : M N userSet :=
  if bool_decide (users !! username = Some loginGUI) then ret users
  else
    let! r := attempt (findEnvVariableForPID (uint32 loginPID) "XDG_CURRENT_DESKTOP") in
    ret (match r with
         | Err _ => users
         | Ok desktopSession => <[username := if bool_decide (desktopSession = "") then loginText else loginGUI]> users
         end).

Fixpoint active_users_loop (processes : list (Z * string)) (users : userSet) : M N userSet :=
  match processes with
  | [] => ret users
  | (pid, username) :: processes' =>
      let! users := active_user pid username users in
      active_users_loop processes' users
  end.

Definition getActiveUsers : M N userSet :=
  let! processes := get_utmp_user_processes in
  active_users_loop processes ∅.

(** ** [fork.go] *)

Definition handlePsError (out : string) (err : RunError) : option error :=
  match err with
  | RunOk => None
  | ExitError e => if bool_decide (out = "") then None else Some e
  | NotRun e => Some e
  end.

Definition parseNorduserPIDs (psOutput : string) : list Z :=
  omap (fun pidStr => let pidStr := TrimSpace pidStr in if bool_decide (pidStr = "") then None else atoi pidStr)
    (split_char newline psOutput).

(** [%d] of [fmt.Sscanf]: white space, a sign and digits; the number and the rest. *)
Fixpoint scan_digits (acc : Z) (s : string) : Z * string :=
  match s with
  | String c s' => match digit_val c with Some d => scan_digits (acc * 10 + d) s' | None => (acc, s) end
  | EmptyString => (acc, EmptyString)
  end.
Definition scan_int (s : string) : option (Z * string) :=
  let digits (sign : Z) (s : string) :=
    match s with
    | String c _ =>
        match digit_val c with
        | Some _ =>
            let '(n, rest) := scan_digits 0 s in
            let z := sign * n in
            if (- 2 ^ 63 <=? z) && (z <=? max_int64) then Some (z, rest) else None
        | None => None
        end
    | EmptyString => None
    end in
  match trim_space_left s with
  | String c s' as s =>
      if bool_decide (c = "-"%char) then digits (-1) s' else if bool_decide (c = "+"%char) then digits 1 s' else digits 1 s
  | EmptyString => None
  end.
Definition scan_uid_pid (line : string) : option (Z * Z) :=
  '(uid, rest) ← scan_int line;
  '(pid, _) ← scan_int rest;
  Some (uid, pid).

Definition findPIDOfUID (uids : string) (desiredUID : Z) : Z :=
  default (-1) (snd <$> List.find (fun '(uid, _) => uid =? desiredUID) (omap scan_uid_pid (split_char newline uids))).

Definition ps (args : list string) (wrap : string) : M N string := fun n =>
  let '((output, err), n') := exec_ps args n in
  match handlePsError output err with
  | Some e => (Err (Wrapf wrap e ""), n')
  | None => (Ok output, n')
  end.

Definition getRunningNorduserPIDs : M N (list Z) :=
  let! output := ps ["-C"; Norduserd; "-o"; "pid="] "listing norduserd pids: " in
  ret (parseNorduserPIDs output).

Definition getPIDForNorduserUID (uid : Z) : M N Z :=
  let! output := ps ["-C"; Norduserd; "-o"; "uid="; "-o"; "pid="] "listing norduser uids/pids: " in
  ret (findPIDOfUID output uid).

Definition GetNordvpnGid : M N Z :=
  let! gid := user_LookupGroup NordvpnGroup in
  match atoi gid with Some gid => ret gid | None => throw (Errorf "invalid syntax") end.

Definition Enable (uid gid : Z) (home : string) : M N unit :=
  let! pid := wrapped "failed to determine if the process is already running: " (getPIDForNorduserUID uid) "" in
  if negb (pid =? -1) then ret tt
  else
    let! nordvpnGid := wrapped "determining nordvpn gid: " GetNordvpnGid "" in
    wrapped "starting the process: " (cmd_Start NorduserdBinaryPath uid gid [uint32 nordvpnGid] ["HOME=" +:+ home]) "".

(** [syscall.Kill] for a process that is gone is a success. *)
Definition signal (pid sig : Z) (wrap : string) : M N unit := fun n =>
  let '(errno, n') := syscall_Kill pid sig n in
  match errno with
  | None => (Ok tt, n')
  | Some e => if e =? ESRCH then (Ok tt, n') else (Err (Errorf wrap), n')
  end.

(** After the signal was taken, [wait] waits for the process. *)
Definition Stop (uid : Z) (wait : bool) : M N unit :=
  let! pid := wrapped "looking up norduserd pid: " (getPIDForNorduserUID uid) "" in
  if pid =? -1 then ret tt
  else fun n =>
    match syscall_Kill pid SIGTERM n with
    | (None, n') => (if wait then ignore (proc_Wait pid) n' else (Ok tt, n'))
    | (Some e, n') => if e =? ESRCH then (Ok tt, n') else (Err (Errorf "sending SIGTERM to norduserd"), n')
    end.

Fixpoint signal_all (pids : list Z) (sig : Z) : M N unit :=
  match pids with
  | [] => ret tt
  | pid :: pids' => ignore (signal pid sig "") ;; signal_all pids' sig
  end.

Definition StopAll : M N unit :=
  let! r := attempt getRunningNorduserPIDs in
  match r with
  | Err _ => ret tt
  | Ok pids => signal_all pids SIGTERM ;; ignore wg_WaitTimeout
  end.

Definition Restart (uid : Z) : M N unit :=
  let! pid := wrapped "looking up norduserd pid: " (getPIDForNorduserUID uid) "" in
  if pid =? -1 then ret tt else signal pid SIGHUP "sending SIGHUP to norduserd".

(** [NewNorduserProcessMonitor] with the service of [fork.go]; the order of a [range] is
    one of the keys. *)
#[export] Instance fork_service : NorduserService N := {|
  norduserd_Enable := Enable; norduserd_Stop := Stop; norduserd_Restart := Restart |}.
Definition fork_monitor : MonitorEnv N := {|
  monitor_service := fork_service;
  userIDGetter_getUserID := getUserID;
  group_members := getNordVPNGroupMembers;
  active_users := getActiveUsers;
  range_users := map_to_list
|}.
End Host.

(** ** [process_monitor.go] *)

Inductive WatchEvent : Type := GroupFileEvent (createOrWrite : bool) | UtmpFileEvent | OtherFileEvent | WatcherError.

Section Monitor.
Context {N : Type} `{MonitorEnv N}.

(** Every error is logged and leaves the state as it is. *)
Definition changeState (s newState : norduserState) (username : string) : M N norduserState :=
  if bool_decide (s = notActive) && (bool_decide (newState = loginGUI) || bool_decide (newState = loginText)) then
    let! ids := attempt (userIDGetter_getUserID username) in
    match ids with
    | Err _ => ret s
    | Ok ids =>
        let! r := attempt (norduserd_Enable (id_uid ids) (id_gid ids) (id_home ids)) in
        ret (match r with Err _ => s | Ok _ => if bool_decide (newState = loginGUI) then runningGUI else runningText end)
    end
  else if is_running s && bool_decide (newState = notActive) then
    let! ids := attempt (userIDGetter_getUserID username) in
    match ids with
    | Err _ => ret s
    | Ok ids =>
        let! r := attempt (norduserd_Stop (id_uid ids) false) in
        ret (match r with Err _ => s | Ok _ => notActive end)
    end
  else if bool_decide (s = runningGUI) && bool_decide (newState = loginText) then
    let! ids := attempt (userIDGetter_getUserID username) in
    match ids with
    | Err _ => ret s
    | Ok ids =>
        let! r := attempt (norduserd_Restart (id_uid ids)) in
        ret (match r with Err _ => s | Ok _ => runningText end)
    end
  else if bool_decide (s = runningText) && bool_decide (newState = loginGUI) then ret runningGUI
  else ret s.

(** The loop over the new members. *)
Fixpoint add_members (activeUsers : userSet) (newGroupMembers : list string) (members : userSet) : M N userSet :=
  match newGroupMembers with
  | [] => ret members
  | name :: names =>
      match members !! name with
      | Some _ => add_members activeUsers names members
      | None =>
          match activeUsers !! name with
          | Some userStatus =>
              let! state := changeState notActive userStatus name in
              add_members activeUsers names (<[name := state]> members)
          | None => add_members activeUsers names (<[name := notActive]> members)
          end
      end
  end.

(** The loop over the members that are not in the group any more. *)
Fixpoint drop_members (newGroupMembers : list string) (current : list (string * norduserState)) (members : userSet) : M N userSet :=
  match current with
  | [] => ret members
  | (name, state) :: current' =>
      if bool_decide (name ∈ newGroupMembers) then drop_members newGroupMembers current' members
      else
        changeState state notActive name ;;
        drop_members newGroupMembers current' (delete name members)
  end.

Definition handleGroupFileUpdate (currentGroupMembers : userSet) : M N userSet :=
  let! newGroupMembers := wrapped "getting nordvpn group members: " group_members "" in
  let! activeUsers := wrapped "getting active users after group file update: " active_users "" in
  let! members := add_members activeUsers newGroupMembers currentGroupMembers in
  drop_members newGroupMembers (range_users members) members.

Fixpoint update_members (activeUsers : userSet) (current : list (string * norduserState)) (members : userSet) : M N userSet :=
  match current with
  | [] => ret members
  | (name, state) :: current' =>
      let! state := changeState state (default notActive (activeUsers !! name)) name in
      update_members activeUsers current' (<[name := state]> members)
  end.

Definition handleUTMPFileUpdate (currentGroupMembers : userSet) : M N userSet :=
  let! activeUsers := wrapped "getting active users after utmp file update: " active_users "" in
  update_members activeUsers (range_users currentGroupMembers) currentGroupMembers.

(** One event of the watcher; an update that fails keeps the members. *)
Definition watch_event (event : WatchEvent) (members : userSet) : M N userSet :=
  let update (m : M N userSet) := let! r := attempt m in ret (match r with Ok members' => members' | Err _ => members end) in
  match event with
  | GroupFileEvent true => update (handleGroupFileUpdate members)
  | UtmpFileEvent => update (handleUTMPFileUpdate members)
  | GroupFileEvent false | OtherFileEvent | WatcherError => ret members
  end.

(** The loop of [Start] up to the closing of the channel of events. *)
Fixpoint watch_loop (events : list WatchEvent) (members : userSet) : M N userSet :=
  match events with
  | [] => ret members
  | event :: events' => let! members := watch_event event members in watch_loop events' members
  end.

Definition Start (getWatcher : M N unit) (events : list WatchEvent) : M N unit :=
  wrapped "creating file watcher: " getWatcher "" ;;
  let! members := wrapped "starting norduserd for the initial group members: " (handleGroupFileUpdate ∅) "" in
  watch_loop events members ;;
  throw (Errorf "groupfile monitor channel closed").

(** ** [process_monitor_snap.go] *)

Fixpoint stopForDeletedGroupMembers (currentGroupMembers newGroupMembers : list string) : M N (list string) :=
  match currentGroupMembers with
  | [] => ret []
  | name :: names =>
      let keep := let! rest := stopForDeletedGroupMembers names newGroupMembers in ret (name :: rest) in
      if bool_decide (name ∈ newGroupMembers) then keep
      else
        let! ids := attempt (userIDGetter_getUserID name) in
        match ids with
        | Err _ => keep
        | Ok ids =>
            let! r := attempt (norduserd_Stop (id_uid ids) false) in
            match r with Err _ => keep | Ok _ => stopForDeletedGroupMembers names newGroupMembers end
        end
  end.

Fixpoint snap_loop (events : list WatchEvent) (groupMembers : list string) : M N (list string) :=
  match events with
  | [] => ret groupMembers
  | GroupFileEvent true :: events' =>
      let! r := attempt group_members in
      match r with
      | Err _ => snap_loop events' groupMembers
      | Ok newGroupMembers =>
          let! groupMembers := stopForDeletedGroupMembers groupMembers newGroupMembers in
          snap_loop events' groupMembers
      end
  | _ :: events' => snap_loop events' groupMembers
  end.

Definition StartSnap (getWatcher : M N unit) (events : list WatchEvent) : M N unit :=
  wrapped "creating file watcher: " getWatcher "" ;;
  let! groupMembers := wrapped "getting initial nordvpn group members: " group_members "" in
  snap_loop events groupMembers ;;
  throw (Errorf "groupfile monitor channel closed").
End Monitor.

(** ** [fileshare.go]: file sharing is started and stopped *)

Inductive FileshareManagementMsg : Type := FmStart | FmStop | FmShutdown.

Definition CodeAlreadyRunning : Z := 1.
Definition CodeAlreadyRunningForOtherUser : Z := 2.
Definition CodeFailedToCreateUnixScoket : Z := 3.
Definition CodeAddressAlreadyInUse : Z := 5.

(** [StartProcess] and [StopProcess] of the process manager. *)
Class FileshareProcess (P : Type) : Type := { StartProcess : M P Z; StopProcess : bool -> M P unit }.

(** What the goroutine waits for: a message, or a message or ten seconds while starting;
    it is gone after a panic. *)
Inductive LoopPhase : Type := Managing | Starting | LoopPanicked (msg : string).

Record FileshareLoop (P : Type) : Type := mkFileshareLoop { fl_phase : LoopPhase; fl_shutdownClosed : bool; fl_process : P }.
Arguments mkFileshareLoop {P} _ _ _.
Arguments fl_phase {P} _.
Arguments fl_shutdownClosed {P} _.
Arguments fl_process {P} _.
#[export] Instance FileshareLoop_eta {P} : EtaExpand (FileshareLoop P) := fun l =>
  mkFileshareLoop (fl_phase l) (fl_shutdownClosed l) (fl_process l).

Section FileshareLoop.
Context {P : Type} `{FileshareProcess P}.

Definition startFileshare : M P bool :=
  let! r := attempt StartProcess in
  ret (match r with
       | Err _ => false
       | Ok result => existsb (Z.eqb result) [0; CodeAddressAlreadyInUse; CodeAlreadyRunningForOtherUser; CodeFailedToCreateUnixScoket; CodeAlreadyRunning]
       end).

Definition close_shutdown : M (FileshareLoop P) unit := fun l =>
  if fl_shutdownClosed l then (Ok tt, l <| fl_phase := LoopPanicked "close of closed channel" |>)
  else (Ok tt, l <| fl_shutdownClosed := true |>).
Definition on_process {A} (m : M P A) : M (FileshareLoop P) A := zoom fl_process (fun p l => l <| fl_process := p |>) m.

Definition try_start : M (FileshareLoop P) unit :=
  let! started := on_process startFileshare in
  set! fl_phase := (if started : bool then Managing else Starting).

(** A message: [fileshareManagementLoop], and the [select] of [fileshareStartupLoop]. *)
Definition fileshare_message (msg : FileshareManagementMsg) : M (FileshareLoop P) unit :=
  let! phase := gets fl_phase in
  match phase, msg with
  | LoopPanicked _, _ => ret tt
  | Managing, FmStart => try_start
  | Managing, FmStop => ignore (on_process (StopProcess true))
  | Managing, FmShutdown => ignore (on_process (StopProcess true)) ;; close_shutdown
  | Starting, FmStart => ret tt
  | Starting, FmShutdown => (set! fl_phase := Managing) ;; close_shutdown
  | Starting, FmStop => set! fl_phase := Managing
  end.

(** Ten seconds passed. *)
Definition fileshare_timer : M (FileshareLoop P) unit :=
  let! phase := gets fl_phase in
  match phase with Starting => try_start | _ => ret tt end.

Definition StartFileshareManagementLoop (p : P) : FileshareLoop P := mkFileshareLoop Managing false p.
End FileshareLoop.

(** ** [server.go] *)

Record StopRequest : Type := mkStopRequest { sq_DisableAutostart : bool; sq_Restart : bool }.

(** [Stop] hands the request on when somebody waits for it; the first boolean. *)
Definition server_Stop (received : bool) (disable restart : bool) : option StopRequest :=
  if received then Some (mkStopRequest disable restart) else None.
Definition server_StartFileshare : FileshareManagementMsg := FmStart.
Definition server_StopFileshare : FileshareManagementMsg := FmStop.
