(* ===== verification/NorduserProps.v ===== *)
(** * NorduserProps: properties of the processes of the users

    Over lawful processes a process runs exactly for the members of the group who are
    logged in; the process of a user is found in the listing of [ps]; and what goes wrong
    when a process cannot be stopped or ends late. *)

From stdpp Require Import base option list strings pretty gmap sets.
From Stdlib Require Import ZArith Ascii Lia.
From S2P Require Import Prelude GoLib GoText Norduser.
Set Warnings "-clear-no-such-hyp".

Open Scope Z_scope.
Open Scope go_scope.

(** ** The monitor *)

(** The processes obey: [norduser_running] are the users with a process; a call that
    succeeds takes effect at once and one that fails changes no process; a user who is
    found has one number, and no two users share one; looking at files and users changes
    no process.  Any call may fail.  The laws are for states as [norduser_ok] says. *)
Class NorduserLaws (N : Type) `{MonitorEnv N} : Type := {
  norduser_running : N -> gset Z;
  norduser_ok : N -> Prop;
  uid_of : string -> option Z;
  uid_of_inj a b u : uid_of a = Some u -> uid_of b = Some u -> a = b;
  getUserID_law name n : norduser_ok n ->
    norduser_ok (userIDGetter_getUserID name n).2 /\
    norduser_running (userIDGetter_getUserID name n).2 = norduser_running n /\
    forall ids, (userIDGetter_getUserID name n).1 = Ok ids -> uid_of name = Some (id_uid ids);
  group_members_law n : norduser_ok n ->
    norduser_ok (group_members n).2 /\ norduser_running (group_members n).2 = norduser_running n;
  active_users_law n : norduser_ok n ->
    norduser_ok (active_users n).2 /\ norduser_running (active_users n).2 = norduser_running n;
  active_users_logged_in n users n' : active_users n = (Ok users, n') -> map_Forall (fun _ s => s = loginGUI \/ s = loginText) users;
  Enable_law name uid gid home n : norduser_ok n -> uid_of name = Some uid ->
    norduser_ok (norduserd_Enable uid gid home n).2 /\
    norduser_running (norduserd_Enable uid gid home n).2 =
      if is_ok (norduserd_Enable uid gid home n).1 then {[uid]} ∪ norduser_running n else norduser_running n;
  Stop_law name uid wait n : norduser_ok n -> uid_of name = Some uid ->
    norduser_ok (norduserd_Stop uid wait n).2 /\
    norduser_running (norduserd_Stop uid wait n).2 =
      if is_ok (norduserd_Stop uid wait n).1 then norduser_running n ∖ {[uid]} else norduser_running n;
  Restart_law name uid n : norduser_ok n -> uid_of name = Some uid ->
    norduser_ok (norduserd_Restart uid n).2 /\ norduser_running (norduserd_Restart uid n).2 = norduser_running n;
  range_users_perm m : range_users m ≡ₚ map_to_list m
}.

(** Comparisons of known states. *)
Ltac decide_states :=
  repeat match goal with
    | |- context [bool_decide (?a = ?b)] => first [rewrite (bool_decide_true (a = b)) by done|rewrite (bool_decide_false (a = b)) by done]
    end; cbn [andb orb is_running].

Section Monitor.
Context {N : Type} `{NorduserLaws N}.




















Definition logins (activeUsers : userSet) : Prop := map_Forall (fun _ s => s = loginGUI \/ s = loginText) activeUsers.














End Monitor.

(** The users found in [utmp] are logged in one way or the other. *)
Lemma getActiveUsers_logins {N} `{NorduserHost N} n users n' : getActiveUsers n = (Ok users, n') -> logins users.
Proof.
  unfold getActiveUsers. unfold bind. destruct (get_utmp_user_processes n) as [[processes|] n1]; [|done].
  assert (Hloop : forall l m n0, logins m -> active_users_loop l m n0 = (Ok users, n') -> logins users).
  { induction l as [|[pid name] l IH]; intros m n0 Hm; cbn [active_users_loop]; [by intros [= <- <-]|].
    unfold bind at 1. unfold active_user. case_bool_decide; [by apply IH|].
    unfold bind at 1, attempt. destruct (findEnvVariableForPID _ _ n0) as [[session|] n2]; [|by apply IH].
    apply IH. apply map_Forall_insert_2; [|done]. case_bool_decide; [by right|by left]. }
  apply Hloop, map_Forall_empty.
Qed.

(** A member who leaves the group is forgotten also when the process cannot be stopped. *)
Lemma failed_stop_forgets_member {N} `{MonitorEnv N} new name s members n ids n1 e n2 :
  name ∉ new -> is_running s = true -> userIDGetter_getUserID name n = (Ok ids, n1) -> norduserd_Stop (id_uid ids) false n1 = (Err e, n2) ->
  drop_members new [(name, s)] members n = (Ok (delete name members), n2).
Proof.
  intros Hn Hs Hids Hstop. cbn [drop_members]. rewrite bool_decide_false by done. unfold changeState.
  assert (s = runningGUI \/ s = runningText) as [->| ->] by (destruct s; try done; [by left|by right]); decide_states;
    unfold bind, attempt; rewrite Hids; cbn; by rewrite Hstop.
Qed.

(** ** The listing of [ps] *)

Fixpoint spaces (k : nat) : string := match k with O => "" | S k' => String " " (spaces k') end.

(** A line with the numbers of a user and a process, aligned with spaces. *)
Definition ps_line (l : nat * nat * Z * Z) : string :=
  let '(a, b, uid, pid) := l in spaces a +:+ itoa uid +:+ " " +:+ spaces b +:+ itoa pid.
Definition ps_listing (ls : list (nat * nat * Z * Z)) : string := strings_Join (map ps_line ls ++ [""]) (String newline "").
Definition small (z : Z) : Prop := 0 <= z < 2 ^ 32.

Lemma scan_digits_itoa s acc z rest : all_chars digit_char s = true -> digits_acc digit_val 10 acc s = Some z ->
  match rest with String c _ => digit_val c = None | EmptyString => True end -> scan_digits acc (s +:+ rest) = (z, rest).
Proof.
  intros Hs Hz Hrest. revert acc Hs Hz. induction s as [|c s IH]; intros acc Hs Hz.
  - injection Hz as ->. rewrite string_app_nil_l. destruct rest as [|c rest]; [done|]. cbn. by rewrite Hrest.
  - rewrite string_app_cons. cbn [all_chars] in Hs. apply andb_true_iff in Hs as [Hc Hs]. cbn [digits_acc] in Hz. cbn [scan_digits].
    destruct (digit_val c) as [d|]; [|done]. by apply IH.
Qed.

Lemma trim_spaces k s : match s with String c _ => digit_char c = true | EmptyString => True end -> trim_space_left (spaces k +:+ s) = s.
Proof.
  intros Hs. induction k as [|k IH]; [|exact IH]. cbn [spaces]. rewrite string_app_nil_l. destruct s as [|c s]; [done|].
  destruct c as [[] [] [] [] [] [] [] []]; try discriminate Hs; destruct s as [|d [|e s]]; reflexivity.
Qed.

Lemma itoa_first z : 0 <= z -> exists c s, itoa z = String c s /\ digit_char c = true.
Proof.
  intros Hz. pose proof (itoa_digits z Hz) as Hd. pose proof (parse_itoa z Hz) as Hp. destruct (itoa z) as [|c s]; [done|].
  cbn [all_chars] in Hd. apply andb_true_iff in Hd as [Hc _]. by exists c, s.
Qed.

Lemma scan_int_itoa k z rest : small z -> match rest with String c _ => digit_val c = None | EmptyString => True end ->
  scan_int (spaces k +:+ itoa z +:+ rest) = Some (z, rest).
Proof.
  intros [Hz Hlt] Hrest. destruct (itoa_first z Hz) as (c & s & Hi & Hc). unfold scan_int.
  rewrite trim_spaces by (by rewrite Hi, string_app_cons). pose proof (itoa_digits z Hz) as Hd. pose proof (parse_itoa z Hz) as Hp.
  rewrite Hi in Hd, Hp |- *. assert (Hscan : scan_digits 0 (String c s +:+ rest) = (z, rest)) by by apply scan_digits_itoa.
  rewrite string_app_cons in Hscan |- *.
  rewrite bool_decide_false by (intros ->; discriminate Hc). rewrite bool_decide_false by (intros ->; discriminate Hc).
  unfold digit_char in Hc. destruct (digit_val c); [|done]. rewrite Hscan. rewrite Z.mul_1_l.
  by rewrite (proj2 (Z.leb_le (- 2 ^ 63) z)), (proj2 (Z.leb_le z max_int64)) by (unfold max_int64; lia).
Qed.

Lemma scan_ps_line a b uid pid : small uid -> small pid -> scan_uid_pid (ps_line (a, b, uid, pid)) = Some (uid, pid).
Proof.
  intros Hu Hp. unfold scan_uid_pid, ps_line. rewrite scan_int_itoa by done. cbn [mbind option_bind].
  change (" " +:+ spaces b +:+ itoa pid) with (spaces (S b) +:+ itoa pid).
  rewrite <- (string_app_nil_r (itoa pid)), scan_int_itoa by done. done.
Qed.

Lemma ps_line_no_newline l : 0 <= l.1.2 -> 0 <= l.2 -> no_char newline (ps_line l).
Proof.
  destruct l as [[[a b] uid] pid]. cbn [fst snd]. intros Hu Hp. unfold ps_line.
  assert (Hs : forall k, no_char newline (spaces k)) by (induction k; by split).
  assert (Hi : forall z, 0 <= z -> no_char newline (itoa z)) by (intros z Hz; by apply (all_chars_no_char digit_char), itoa_digits).
  repeat apply no_char_app; auto. by split.
Qed.

(** The process of a user is found in the listing that [ps] prints, however it is
    aligned: the first line of the user, or -1 when there is none. *)
Lemma pid_found_in_listing (ls : list (nat * nat * Z * Z)) (desired : Z) :
  Forall (fun l => small l.1.2 /\ small l.2) ls ->
  findPIDOfUID (ps_listing ls) desired = default (-1) (snd <$> List.find (fun l => l.1 =? desired) (map (fun l => (l.1.2, l.2)) ls)).
Proof.
  intros Hls. unfold findPIDOfUID, ps_listing. rewrite split_join.
  - f_equal. f_equal. rewrite omap_app. cbn [omap list_omap]. change (scan_uid_pid "") with (@None (Z * Z)). cbn. rewrite app_nil_r.
    induction Hls as [|[[[a b] uid] pid] ls [Hu Hp] Hls IH]; [done|]. cbn [map omap list_omap]. cbn in Hu, Hp. rewrite scan_ps_line by done.
    cbn [List.find fst snd]. by destruct (uid =? desired).
  - by destruct (map ps_line ls).
  - apply Forall_app. split; [|by repeat constructor]. apply Forall_map. eapply Forall_impl; [exact Hls|].
    intros l [[? _] [? _]]. by apply ps_line_no_newline.
Qed.

(** ** The processes of [fork.go]

    Over a host whose processes end as soon as they get the signal, the service of
    [fork.go] obeys the laws, so that the processes follow the logins there. *)

Class HostLaws (N : Type) `{NorduserHost N} : Type := {
  (** the users and numbers of the processes of [norduserd], as [ps] lists them *)
  listed : N -> list (Z * Z);
  user_number : string -> option Z;
  user_number_inj a b u : user_number a = Some u -> user_number b = Some u -> a = b;
  user_number_small a u : user_number a = Some u -> small u;
  lookup_number name n uid gid home n' : user_Lookup name n = (Ok (uid, gid, home), n') ->
    exists u, user_number name = Some u /\ uid = itoa u;
  lookup_keeps name n : listed (user_Lookup name n).2 = listed n;
  lookup_group_keeps name n : listed (user_LookupGroup name n).2 = listed n;
  read_keeps path n : listed (os_ReadFile path n).2 = listed n;
  utmp_keeps n : listed (getutxent_all n).2 = listed n;
  wait_keeps pid n : listed (proc_Wait pid n).2 = listed n;
  (** [ps] fails without output when there are none *)
  ps_lists n : let '((out, err), n') := exec_ps ["-C"; Norduserd; "-o"; "uid="; "-o"; "pid="] n in
    (listed n' = listed n) /\
    match err with
    | RunOk => exists ls, out = ps_listing ls /\ map (fun l => (l.1.2, l.2)) ls = listed n
    | ExitError _ => out = "" -> listed n = []
    | NotRun _ => True
    end;
  start_adds uid gid groups env n : small uid ->
    let '(r, n') := cmd_Start NorduserdBinaryPath uid gid groups env n in
    if is_ok r then (exists pid, small pid /\ (pid ∉ (listed n).*2) /\ Permutation (listed n') ((uid, pid) :: listed n))
    else listed n' = listed n;
  term_ends pid n : let '(errno, n') := syscall_Kill pid SIGTERM n in
    match errno with
    | None => listed n' = filter (fun x => x.2 <> pid) (listed n)
    | Some e => listed n' = listed n /\ (e = ESRCH -> pid ∉ (listed n).*2)
    end;
  hup_keeps pid n : listed (syscall_Kill pid SIGHUP n).2 = listed n
}.

Section Fork.
Context {N : Type} `{HostLaws N}.

(** No user has two processes, and numbers are 32-bit numbers. *)
Definition each_once (l : list (Z * Z)) : Prop := NoDup l.*1 /\ NoDup l.*2 /\ Forall (fun x => small x.1 /\ small x.2) l.

Lemma each_once_filter (P : Z * Z -> Prop) `{!forall x, Decision (P x)} l : each_once l -> each_once (filter P l).
Proof.
  intros (Hd1 & Hd2 & Hd3). pose proof (sublist_filter P l) as Hs. split_and!.
  - eapply sublist_NoDup; [exact Hd1|]. by apply fmap_sublist.
  - eapply sublist_NoDup; [exact Hd2|]. by apply fmap_sublist.
  - rewrite Forall_forall in Hd3 |- *. intros x [_ Hx]%list_elem_of_filter. by apply Hd3.
Qed.

Lemma each_once_pid l uid pid x : each_once l -> (uid, pid) ∈ l -> x ∈ l -> x.2 <> pid <-> x.1 <> uid.
Proof.
  intros (Hd1 & Hd2 & _) Hin Hx. destruct x as [u p]. cbn.
  assert (Hsame : forall {A B} (l : list (A * B)) x y, NoDup l.*1 -> x ∈ l -> y ∈ l -> x.1 = y.1 -> x = y).
  { clear. intros A B l x y. induction l as [|z l IH]; [by intros _ ?%elem_of_nil|]. cbn.
    intros [Hn Hd]%NoDup_cons [->|Hx]%elem_of_cons [->|Hy]%elem_of_cons He; [done|..|by apply IH];
      exfalso; apply Hn; apply list_elem_of_fmap; eauto. }
  split; intros Hne ->; apply Hne.
  - specialize (Hsame _ _ l (uid, p) (uid, pid) Hd1 Hx Hin eq_refl). congruence.
  - assert (Hsw : (map (fun x => (x.2, x.1)) l).*1 = l.*2) by (rewrite map_map; by apply map_ext).
    specialize (Hsame _ _ (map (fun x => (x.2, x.1)) l) (pid, u) (pid, uid)). rewrite Hsw in Hsame.
    assert (He : (pid, u) = (pid, uid)); [|congruence].
    apply Hsame; [done|apply list_elem_of_fmap; by exists (u, pid)|apply list_elem_of_fmap; by exists (uid, pid)|done].
Qed.

(** The number that is looked up is that of the user's process, or -1. *)
Lemma pid_law uid n : each_once (listed n) ->
  exists r n', getPIDForNorduserUID uid n = (r, n') /\ listed n' = listed n /\
    forall pid, r = Ok pid -> if decide (pid = -1) then uid ∉ (listed n).*1 else (uid, pid) ∈ listed n.
Proof.
  intros (_ & _ & Hsmall). unfold getPIDForNorduserUID, ps, bind. pose proof (ps_lists n) as Hps.
  destruct (exec_ps _ n) as [[out err] n']. destruct Hps as [Hsame Hout].
  assert (Hempty : out = "" -> listed n = [] -> forall pid, findPIDOfUID out uid = pid ->
    if decide (pid = -1) then uid ∉ (listed n).*1 else (uid, pid) ∈ listed n).
  { intros -> -> pid <-. cbn. by apply not_elem_of_nil. }
  destruct err as [|e|e]; cbn [handlePsError].
  - eexists _, n'. split; [reflexivity|]. split; [done|]. intros pid [= <-]. destruct Hout as (ls & -> & Hls).
    rewrite pid_found_in_listing.
    2:{ rewrite <- Hls in Hsmall. by apply Forall_map in Hsmall. }
    rewrite Hls. destruct (List.find (fun l => l.1 =? uid) (listed n)) as [[u p]|] eqn:Hf; cbn.
    + apply find_some in Hf as [Hin%list_elem_of_In Hu%Z.eqb_eq]. cbn in Hu. subst u. rewrite Forall_forall in Hsmall.
      destruct (Hsmall _ Hin) as [_ [Hp _]]. cbn in Hp. rewrite decide_False by lia. done.
    + intros ([u p] & -> & Hin)%list_elem_of_fmap. apply list_elem_of_In in Hin. apply (find_none _ _ Hf) in Hin. cbn in Hin. lia.
  - case_bool_decide as He; eexists _, n'; (split; [reflexivity|]); (split; [done|]); [|done].
    intros pid [= <-]. by apply Hempty; [|apply Hout|].
  - by eexists _, n'.
Qed.

Definition fork_running (n : N) : gset Z := list_to_set (listed n).*1.
Definition fork_ok (n : N) : Prop := each_once (listed n).

Lemma fork_same n n' : listed n' = listed n -> fork_ok n -> fork_ok n' /\ fork_running n' = fork_running n.
Proof. unfold fork_ok, fork_running. by intros ->. Qed.

Lemma gid_keeps n : listed (GetNordvpnGid n).2 = listed n.
Proof.
  unfold GetNordvpnGid, bind. pose proof (lookup_group_keeps NordvpnGroup n) as Hl.
  destruct (user_LookupGroup NordvpnGroup n) as [[gid|e] n']; cbn in *; [|done]. by destruct (atoi gid).
Qed.

Lemma fork_Enable uid gid home n : fork_ok n -> small uid ->
  fork_ok (Enable uid gid home n).2 /\
  fork_running (Enable uid gid home n).2 = if is_ok (Enable uid gid home n).1 then {[uid]} ∪ fork_running n else fork_running n.
Proof.
  intros Hok Huid. unfold Enable, wrapped. unfold bind at 1 3 5. destruct (pid_law uid n Hok) as (r & n1 & -> & Hs1 & Hpid).
  destruct r as [pid|e]; cbn [fst snd]; [|cbn; by apply fork_same]. specialize (Hpid pid eq_refl).
  destruct (Z.eqb_spec pid (-1)) as [->|Hne]; cbn [negb].
  2:{ rewrite decide_False in Hpid by done. cbn. destruct (fork_same n n1 Hs1 Hok) as [Hok1 ->]. split; [done|].
      assert (uid ∈ fork_running n) by (apply elem_of_list_to_set; by apply (list_elem_of_fmap_2 fst _ (uid, pid))). set_solver. }
  rewrite decide_True in Hpid by done. unfold bind. pose proof (gid_keeps n1) as Hg.
  destruct (GetNordvpnGid n1) as [[g|e] n2]; cbn in Hg |- *; [|apply fork_same; [congruence|done]].
  assert (Hs2 : listed n2 = listed n) by congruence. pose proof (start_adds uid gid [uint32 g] ["HOME=" +:+ home] n2 Huid) as Hst.
  destruct (cmd_Start NorduserdBinaryPath uid gid [uint32 g] ["HOME=" +:+ home] n2) as [[u|e] n3]; cbn in Hst |- *; [|apply fork_same; [congruence|done]].
  destruct Hst as (pid & Hp & Hnew & Hperm). rewrite Hs2 in Hnew, Hperm. destruct Hok as (Hd1 & Hd2 & Hd3). unfold fork_ok, fork_running, each_once.
  rewrite Hperm. cbn. split_and!; [by apply NoDup_cons|by apply NoDup_cons|by constructor|done].
Qed.

Lemma fork_Stop uid wait n : fork_ok n ->
  fork_ok (Stop uid wait n).2 /\
  fork_running (Stop uid wait n).2 = if is_ok (Stop uid wait n).1 then fork_running n ∖ {[uid]} else fork_running n.
Proof.
  intros Hok. unfold Stop, wrapped, bind. destruct (pid_law uid n Hok) as (r & n1 & -> & Hs1 & Hpid).
  destruct r as [pid|e]; cbn [fst snd]; [|cbn; by apply fork_same]. specialize (Hpid pid eq_refl). destruct (fork_same n n1 Hs1 Hok) as [Hok1 Hr1].
  assert (Hout : uid ∉ (listed n).*1 -> fork_running n = fork_running n ∖ {[uid]}).
  { intros Hu. unfold fork_running. rewrite <- (elem_of_list_to_set (C := gset Z)) in Hu. set_solver. }
  destruct (Z.eqb_spec pid (-1)) as [->|Hne]; [rewrite decide_True in Hpid by done; cbn; rewrite Hr1; by auto|].
  rewrite decide_False in Hpid by done. pose proof (term_ends pid n1) as Hk.
  destruct (syscall_Kill pid SIGTERM n1) as [[e|] n2].
  - destruct Hk as [Hs2 Hgone]. rewrite Hs1 in Hs2, Hgone. destruct (fork_same n n2 Hs2 Hok) as [Hok2 Hr2].
    destruct (Z.eqb_spec e ESRCH) as [He|He]; cbn; [|done]. destruct (Hgone He). by apply (list_elem_of_fmap_2 snd _ (uid, pid)).
  - rewrite Hs1 in Hk. assert (Hafter : forall n3, listed n3 = listed n2 -> fork_ok n3 /\ fork_running n3 = fork_running n ∖ {[uid]}).
    { intros n3 Hs3. unfold fork_ok, fork_running. rewrite Hs3, Hk. split; [by apply each_once_filter|]. apply set_eq. intros u.
      rewrite elem_of_difference, !elem_of_list_to_set, elem_of_singleton, !list_elem_of_fmap. split.
      - intros (x & -> & [Hx Hin]%list_elem_of_filter). split; [by exists x|]. by apply (each_once_pid (listed n) uid pid x).
      - intros [(x & -> & Hin) Hu]. exists x. split; [done|]. apply list_elem_of_filter. split; [|done].
        by apply (each_once_pid (listed n) uid pid x). }
    destruct wait; [|by apply Hafter]. unfold ignore, attempt, bind. pose proof (wait_keeps pid n2) as Hw.
    destruct (proc_Wait pid n2) as [[?|?] n3]; by apply Hafter.
Qed.

Lemma fork_Restart uid n : fork_ok n -> fork_ok (Restart uid n).2 /\ fork_running (Restart uid n).2 = fork_running n.
Proof.
  intros Hok. unfold Restart, wrapped, bind. destruct (pid_law uid n Hok) as (r & n1 & -> & Hs1 & _).
  destruct r as [pid|e]; cbn [fst snd]; [|by apply fork_same]. destruct (pid =? -1); [by apply fork_same|].
  apply fork_same; [|done]. rewrite <- Hs1, <- (hup_keeps pid n1). unfold signal.
  destruct (syscall_Kill pid SIGHUP n1) as [[e|] n2]; [by destruct (e =? ESRCH)|done].
Qed.

Lemma fork_getUserID name n : fork_ok n ->
  fork_ok (getUserID name n).2 /\ fork_running (getUserID name n).2 = fork_running n /\
  forall ids, (getUserID name n).1 = Ok ids -> user_number name = Some (id_uid ids).
Proof.
  intros Hok. unfold getUserID, wrapped, bind. pose proof (lookup_keeps name n) as Hl. pose proof (lookup_number name n) as Hn.
  destruct (user_Lookup name n) as [[[[uid gid] home]|e] n1]; cbn in *; destruct (fork_same n n1 Hl Hok); [|by split_and!].
  destruct (Hn uid gid home n1 eq_refl) as (u & Hu & ->). pose proof (user_number_small name u Hu) as Hs. unfold small in Hs.
  rewrite atoi_itoa by (unfold max_int64; lia). destruct (atoi gid) as [g|]; cbn; [|by split_and!]. split_and!; [done|done|].
  intros ids [= <-]. cbn. unfold uint32. by rewrite Z.mod_small.
Qed.

Lemma members_keeps n : listed (getNordVPNGroupMembers n).2 = listed n.
Proof.
  unfold getNordVPNGroupMembers, getGroupEntry, wrapped, bind. pose proof (read_keeps groupFilePath n) as Hr.
  destruct (os_ReadFile groupFilePath n) as [[file|e] n1]; cbn in *; [|done]. by case_bool_decide.
Qed.

Lemma active_keeps n : listed (getActiveUsers n).2 = listed n.
Proof.
  unfold getActiveUsers, get_utmp_user_processes. unfold bind at 1 2. pose proof (utmp_keeps n) as Hu.
  destruct (getutxent_all n) as [[entries|e] n1]; cbn in Hu |- *; [|done]. rewrite <- Hu.
  generalize (map (fun u => (ut_pid u, String.substring 0 UT_NAMESIZE (ut_user u))) (List.filter (fun u => ut_type u =? USER_PROCESS) entries)).
  generalize (∅ : userSet). clear. intros users l. revert users n1. induction l as [|[pid name] l IH]; intros users n; [done|].
  cbn [active_users_loop]. unfold active_user. unfold bind at 1. case_bool_decide; [apply IH|].
  unfold bind at 1, attempt, findEnvVariableForPID, wrapped, bind. pose proof (read_keeps ("/proc/" +:+ itoa (uint32 pid) +:+ "/environ") n) as Hr.
  destruct (os_ReadFile _ n) as [[env|e] n1]; cbn in Hr |- *; by rewrite IH.
Qed.

#[export] Instance fork_laws : NorduserLaws N (H := fork_monitor).
Proof.
  refine (@Build_NorduserLaws N fork_monitor fork_running fork_ok user_number _ _ _ _ _ _ _ _ _).
  - apply user_number_inj.
  - intros name n. apply fork_getUserID.
  - intros n Hok. cbn. apply fork_same; [apply members_keeps|done].
  - intros n Hok. cbn. apply fork_same; [apply active_keeps|done].
  - intros n users n' Ha. by apply (getActiveUsers_logins n users n').
  - intros name uid gid home n Hok Hu. apply fork_Enable; [done|]. by eapply user_number_small.
  - intros name uid wait n Hok _. by apply fork_Stop.
  - intros name uid n Hok _. by apply fork_Restart.
  - done.
Defined.
End Fork.

(** A process that was told to end but is still listed counts as running, so a user who
    logs out and in again at once is left without one. *)
Lemma enable_trusts_listing {N} `{NorduserHost N} uid gid home n out n' :
  exec_ps ["-C"; Norduserd; "-o"; "uid="; "-o"; "pid="] n = ((out, RunOk), n') -> findPIDOfUID out uid <> -1 ->
  Enable uid gid home n = (Ok tt, n').
Proof.
  intros Hps Hpid. unfold Enable, getPIDForNorduserUID, ps, wrapped, bind. rewrite Hps. cbn [handlePsError]. unfold ret. cbv beta iota.
  by destruct (Z.eqb_spec (findPIDOfUID out uid) (-1)).
Qed.

(** ** Samples *)

Module NorduserBox.
(** A host with three users, of whom two are logged in; its state is what [ps] lists. *)
Definition number (name : string) : option Z :=
  if bool_decide (name = "ann") then Some 1000 else if bool_decide (name = "bob") then Some 1001
  else if bool_decide (name = "eve") then Some 1002 else None.
Definition fresh (l : list (Z * Z)) : Z := 1 + foldr (fun x acc => Z.max x.2 acc) 0 l.

#[export] Instance host : NorduserHost (list (Z * Z)) := {|
  os_ReadFile := fun path => ret (if bool_decide (path = groupFilePath) then "nordvpn:x:985:ann,bob" else "XDG_CURRENT_DESKTOP=GNOME");
  getutxent_all := ret [mkUtmpx USER_PROCESS 100 "ann"; mkUtmpx USER_PROCESS 200 "eve"];
  user_Lookup := fun name => match number name with Some u => ret (itoa u, "100", "/home") | None => throw (Errorf "unknown user") end;
  user_LookupGroup := fun _ => ret "985";
  exec_ps := fun _ l => match l with [] => (("", ExitError (Errorf "exit status 1")), l)
                                   | _ => ((ps_listing (map (fun x => (0%nat, 2%nat, x.1, x.2)) l), RunOk), l) end;
  cmd_Start := fun _ uid _ _ _ l => if fresh l <? 2 ^ 22 then (Ok tt, (uid, fresh l) :: l) else (Err (Errorf "no more processes"), l);
  syscall_Kill := fun pid sig l =>
    if negb (sig =? SIGTERM) then (None, l)
    else if bool_decide (pid ∈ l.*2) then (None, filter (fun x => x.2 <> pid) l) else (Some ESRCH, l);
  proc_Wait := fun _ => ret tt;
  wg_WaitTimeout := ret tt
|}.

Lemma fresh_above l x : x ∈ l -> x.2 < fresh l.
Proof.
  unfold fresh. induction l as [|y l IH]; [by intros ?%elem_of_nil|]. cbn [foldr]. intros [->|Hx%IH]%elem_of_cons; lia.
Qed.

Lemma fresh_positive l : 0 < fresh l.
Proof. unfold fresh. induction l as [|y l IH]; cbn [foldr]; lia. Qed.

#[export] Instance host_laws : HostLaws (list (Z * Z)).
Proof.
  refine {| listed := fun l => l; user_number := number |}; try done.
  - intros a b u. unfold number. repeat case_bool_decide; naive_solver.
  - intros a u. unfold number, small. repeat case_bool_decide; intros [= <-]; lia.
  - intros name l uid gid home l'. cbn. destruct (number name) as [u|]; [intros [= <- _ _ _]; by exists u|done].
  - intros name l. cbn. by destruct (number name).
  - intros [|x l]; cbn [exec_ps host]; split; try done. eexists. split; [reflexivity|].
    rewrite map_map. erewrite map_ext; [apply map_id|]. by intros [u p].
  - intros uid gid groups env l Hu. cbn. destruct (Z.ltb_spec (fresh l) (2 ^ 22)); cbn; [|done].
    exists (fresh l). pose proof (fresh_positive l). split_and!; [split; lia| |done].
    intros (x & Hx & Hin)%list_elem_of_fmap. apply fresh_above in Hin. lia.
  - intros pid l. cbn. case_bool_decide; [done|]. by split.
Defined.

#[local] Existing Instance fork_monitor.
Definition nobody : list (Z * Z) := [].


(** The member who is logged in has a process, the other one and the other user do not. *)
Example member_started : (watch_loop [GroupFileEvent true; UtmpFileEvent] ∅ nobody).2 = [(1000, 1)].
Proof. vm_compute. reflexivity. Qed.

Example pids : findPIDOfUID ("    0     842" +:+ String newline (" 1000    2411" +:+ String newline "")) 1000 = 2411.
Proof. reflexivity. Qed.
Example members : getGroupMembers (findGroupEntry ("root:x:0:" +:+ String newline "nordvpn:x:985:ann,bob") "nordvpn") = ["ann"; "bob"].
Proof. reflexivity. Qed.

(** The second shutdown closes a closed channel. *)
#[export] Instance process : FileshareProcess unit := {| StartProcess := ret 0; StopProcess := fun _ => ret tt |}.
Example second_shutdown_panics :
  fl_phase ((fileshare_message FmShutdown ;; fileshare_message FmShutdown) (StartFileshareManagementLoop tt)).2 = LoopPanicked "close of closed channel".
Proof. reflexivity. Qed.
End NorduserBox.
