(* ===== verification/Nc.v ===== *)
(** * Nc: the client of the notification centre

    Models [nc/nc.go] and [nc/creds_fetcher.go]: the credentials in the configuration and
    from the API, connecting with growing pauses, the messages that are received, and
    starting and stopping.

    The MQTT library is an interface; its clients are numbers.  The goroutine of the
    client is a state: it waits for the next try to connect, or for an event of its
    client, and each is an operation.  A stop that comes while an event is handled comes
    after it. *)

From stdpp Require Import base option list strings gmap.
From Stdlib Require Import ZArith Lia.
From S2P Require Import Prelude GoLib Mesh Config Auth Servers.

Open Scope Z_scope.
Open Scope go_scope.

Definition typeMeshnet : string := "meshnet_network_update".
Definition topicDelivered : string := "delivered".
Definition topicAcknowledged : string := "ack".
Definition trackTypeProcessed : string := "processed".
Definition subscriptions : list (string * Z) := [("content", 1); ("linux", 1); ("meshnet", 1)].
Definition unsubscriptions : list string := ["content"; "linux"; "meshnet"].

(** ** Messages *)

Record AttributePayload : Type := mkAttributePayload {
  ap_InviteeID : string; ap_ServerID : Z; ap_ServerIP : string; ap_AffectedMachines : list string }.
Record EventPayload : Type := mkEventPayload { ep_Type : string; ep_Attributes : AttributePayload }.
Record MetadataPayload : Type := mkMetadataPayload { mp_Acked : bool; mp_CreatedAt : Z; mp_MessageID : string; mp_TargetUID : string }.
Record ActionPayload : Type := mkActionPayload { xp_Name : string; xp_URL : string; xp_Slug : string }.
Record NotificationPayload : Type := mkNotificationPayload { np_Title : string; np_Body : string; np_Actions : list ActionPayload }.
Record RecPayload : Type := mkRecPayload { rp_Event : EventPayload; rp_Metadata : MetadataPayload; rp_Notification : NotificationPayload }.
Record ConfirmationPayload : Type := mkConfirmationPayload { cp_MessageID : string }.
Record AcknowledgementPayload : Type := mkAcknowledgementPayload { kp_MessageID : string; kp_TrackType : string; kp_ActionSlug : string }.

(** ** The library and the API *)

(** How a connection attempt ends: the token does not fire in time, or with an error. *)
Inductive ConnectOutcome : Type := ConnectTimeout | ConnectError (notAuthorised : bool) (e : error) | ConnectOk.

Record ClientOptions : Type := mkClientOptions { op_Broker : string; op_Username : string; op_Password : string; op_ClientID : string }.

Class NcEnv (E : Type) : Type := {
  creds_NotificationCredentialsRevoke : string -> string -> bool -> M E string;
  uuid_New : E -> string * E;
  mqtt_NewClient : ClientOptions -> E -> nat * E;
  mqtt_Connect : nat -> E -> ConnectOutcome * E;
  mqtt_Disconnect : nat -> E -> E;
  (** none: no error in time *)
  mqtt_SubscribeMultiple : nat -> list (string * Z) -> E -> option error * E;
  mqtt_Unsubscribe : nat -> list string -> E -> E;
  mqtt_Publish : nat -> string -> string -> M E unit;
  mqtt_ClientID : nat -> E -> string;
  (** what is decoded, also when it is not all *)
  json_Unmarshal_RecPayload : string -> RecPayload * option error;
  json_Marshal_Confirmation : ConfirmationPayload -> result string;
  json_Marshal_Acknowledgement : AcknowledgementPayload -> result string
}.

(** ** Credentials *)

(** The zero value of a [uuid.UUID] is empty text here, or its text. *)
Definition uuid_Nil : string := "00000000-0000-0000-0000-000000000000".
Definition uuid_String (u : string) : string := if bool_decide (u = "") then uuid_Nil else u.
Definition IsUserIDEmpty (d : NCData) : bool := bool_decide (uuid_String (nc_UserID d) = uuid_Nil).

Definition areNCCredentialsValid (ncData : NCData) : bool :=
  negb (IsUserIDEmpty ncData) || negb (bool_decide (nc_Endpoint ncData = "")) || negb (bool_decide (nc_Username ncData = "")) ||
  negb (bool_decide (nc_Password ncData = "")).

Definition ErrInvalidCredentials : string := "stored credentials are not valid".

Section Credentials.
Context {E : Type} `{ConfigManager E} `{CredentialsAPI E} `{NcEnv E}.
#[local] Abbreviation ST := (M (Store E)).

Definition load_user : ST (Z * TokenData) :=
  let! cfg := wrapped "reading cfg: " cm_Load "" in
  let userID := ac_ID (cfg_AutoConnectData cfg) in
  ret (userID, token_of cfg userID).

Definition save_nc_data (userID : Z) (ncData : NCData) : ST unit :=
  cm_SaveWith (update_token userID (fun user => user <| td_NCData := ncData |>)).

Definition GetCredentialsFromConfig : ST NCData :=
  let! user := load_user in
  let ncData := td_NCData user.2 in
  if negb (areNCCredentialsValid ncData) then throw (Sentinel ErrInvalidCredentials) else ret ncData.

Definition GetCredentialsFromAPI : ST NCData :=
  let! user := load_user in
  let '(userID, tokenData) := user in
  let ncData := td_NCData tokenData in
  let! ncData :=
    (if IsUserIDEmpty ncData then
       let! id := ask uuid_New in
       let ncData := ncData <| nc_UserID := id |> in
       wrapped "saving new generated user id: " (save_nc_data userID ncData) "" ;;
       ret ncData
     else ret ncData) in
  let! resp := wrapped "getting NC credentials: "
    (in_env (creds_NotificationCredentials (td_Token tokenData) (uuid_String (nc_UserID ncData)))) "" in
  let ncData := ncData <| nc_Endpoint := nr_Endpoint resp |> <| nc_Username := nr_Username resp |> <| nc_Password := nr_Password resp |> in
  save_nc_data userID ncData ;;
  ret ncData.

Definition RevokeCredentials (purgeSession : bool) : ST bool :=
  let! user := load_user in
  let tokenData := user.2 in
  if negb (areNCCredentialsValid (td_NCData tokenData)) then throw (Sentinel ErrInvalidCredentials)
  else
    let! status := wrapped "error revoking token: "
      (in_env (creds_NotificationCredentialsRevoke (td_Token tokenData) (uuid_String (nc_UserID (td_NCData tokenData))) purgeSession)) "" in
    if bool_decide (str_lower status = "ok") then ret true else throw (Errorf "response status").
End Credentials.

(** ** The client *)

Inductive connectionState : Type := needsAuthorization | connecting | connectedSuccessfully.

(** What the subjects publish. *)
Inductive NcPublished : Type := NcInfo (text : string) | NcError (text : string) | NcPeerUpdate (peers : list string).

(** The goroutine: there is none, it waits to try again, or it waits for events; a nil
    client that is used ends the program. *)
Inductive NcLoop : Type :=
| NoLoop
| TryingToConnect (client : option nat) (state : connectionState) (tries : nat)
| Listening (client : nat)
| NcPanicked.

Record NcClient (E : Type) : Type := mkNcClient {
  nc_store : Store E;
  nc_started : bool;
  nc_loop : NcLoop;
  nc_published : list NcPublished
}.
Arguments mkNcClient {E} _ _ _ _.
Arguments nc_store {E} _.
Arguments nc_started {E} _.
Arguments nc_loop {E} _.
Arguments nc_published {E} _.
#[export] Instance NcClient_eta {E} : EtaExpand (NcClient E) := fun c => mkNcClient (nc_store c) (nc_started c) (nc_loop c) (nc_published c).

Section Client.
Context {E : Type} `{ConfigManager E} `{CredentialsAPI E} `{NcEnv E}.
#[local] Abbreviation C := (M (NcClient E)).

Definition NewClient (store : Store E) : NcClient E := mkNcClient store false NoLoop [].

Definition on_creds {A} (m : M (Store E) A) : C A := zoom nc_store (fun t c => c <| nc_store := t |>) m.
Definition lib {A} (f : E -> A * E) : C A := on_creds (ask f).
Definition lib_ (f : E -> E) : C unit := on_creds (ask (fun e => (tt, f e))).
Definition publish (p : NcPublished) : C unit := modify (fun c => c <| nc_published := nc_published c ++ [p] |>).

Definition createClientOptions (credentials : NCData) : ClientOptions :=
  mkClientOptions (nc_Endpoint credentials) (nc_Username credentials) (nc_Password credentials) (uuid_String (nc_UserID credentials)).

(** The part of [tryConnect] for a client that has credentials; none when it is nil. *)
Definition connect_client (client : option nat) : C (option (option nat * connectionState)) :=
  match client with
  | None => ret None
  | Some c =>
      let! outcome := lib (mqtt_Connect c) in
      match outcome with
      | ConnectTimeout => lib_ (mqtt_Disconnect c) ;; ret (Some (client, connecting))
      | ConnectError true _ => ret (Some (client, needsAuthorization))
      | ConnectError false _ => ret (Some (client, connecting))
      | ConnectOk => publish (NcInfo "[NC] Connected") ;; ret (Some (client, connectedSuccessfully))
      end
  end.

Definition tryConnect (client : option nat) (state : connectionState) : C (option (option nat * connectionState)) :=
  match state with
  | connectedSuccessfully => ret (Some (client, state))
  | connecting => connect_client client
  | needsAuthorization =>
      let! r := attempt (on_creds GetCredentialsFromAPI) in
      match r with
      | Err _ => ret (Some (client, needsAuthorization))
      | Ok credentials =>
          let! client := lib (mqtt_NewClient (createClientOptions credentials)) in
          connect_client (Some client)
      end
  end.

(** One turn of the loop of [connectWithBackoff], and what follows it. *)
Definition connect_turn (client : option nat) (state : connectionState) (tries : nat) : C unit :=
  let! r := tryConnect client state in
  match r with
  | Some (Some c, connectedSuccessfully) =>
      let! err := lib (mqtt_SubscribeMultiple c subscriptions) in
      (match err with Some _ => publish (NcError "[NC] subscribing to topics") | None => ret tt end) ;;
      set! nc_loop := Listening c
  | None | Some (None, connectedSuccessfully) => set! nc_loop := NcPanicked
  | Some (client, state) => set! nc_loop := TryingToConnect client state (S tries)
  end.

Definition sendDeliveryConfirmation (client : nat) (messageID : string) : C unit :=
  let! payload := wrapped "marshaling confirmation payload: " (of_result (json_Marshal_Confirmation (mkConfirmationPayload messageID))) "" in
  on_creds (in_env (mqtt_Publish client topicDelivered payload)).

Definition sendAcknowledgement (client : nat) (messageID trackType actionSlug : string) : C unit :=
  let! payload := wrapped "marshaling acknowledgement payload: "
    (of_result (json_Marshal_Acknowledgement (mkAcknowledgementPayload messageID trackType actionSlug))) "" in
  on_creds (in_env (mqtt_Publish client topicAcknowledged payload)).

Definition report_error (m : C unit) (text : string) : C unit :=
  let! r := attempt m in
  match r with Err _ => publish (NcError text) | Ok _ => ret tt end.

Definition handleMessage (client : nat) (msg : string) : C unit :=
  let '(payload, err) := json_Unmarshal_RecPayload msg in
  (match err with Some _ => publish (NcError "[NC] parsing message payload") | None => ret tt end) ;;
  let metadata := rp_Metadata payload in
  let! clientID := gets (fun c => mqtt_ClientID client (so_env (nc_store c))) in
  if negb (bool_decide (mp_TargetUID metadata = clientID)) then publish (NcError "[NC] attempted to publish message to incorrect recipient")
  else if mp_Acked metadata then publish (NcError "[NC] message was already published successfully")
  else
    report_error (sendDeliveryConfirmation client (mp_MessageID metadata)) "[NC] Delivery confirmation" ;;
    report_error (sendAcknowledgement client (mp_MessageID metadata) trackTypeProcessed "") "[NC] Acknowledgement" ;;
    if bool_decide (ep_Type (rp_Event payload) = typeMeshnet)
    then publish (NcPeerUpdate (ap_AffectedMachines (ep_Attributes (rp_Event payload))))
    else ret tt.

(** [ncClientManagementLoop] up to the start of its goroutine. *)
Definition ncClientManagementLoop : C unit :=
  let! r := attempt (on_creds GetCredentialsFromConfig) in
  match r with
  | Err err =>
      if errors_Is err ErrInvalidCredentials then set! nc_loop := TryingToConnect None needsAuthorization 0
      else throw (Wrapf "fetching credentials: " err "")
  | Ok credentials =>
      let! client := lib (mqtt_NewClient (createClientOptions credentials)) in
      set! nc_loop := TryingToConnect (Some client) connecting 0
  end.

Definition Start : C unit :=
  let! started := gets nc_started in
  if started : bool then ret tt
  else
    wrapped "starting NC management loop: " ncClientManagementLoop "" ;;
    set! nc_started := true.

(** The end of the goroutine, which [Stop] waits for. *)
Definition end_loop (client : option nat) : C unit :=
  match client with
  | Some c => lib_ (mqtt_Unsubscribe c unsubscriptions) ;; lib_ (mqtt_Disconnect c)
  | None => ret tt
  end ;;
  set! nc_loop := NoLoop.

Definition Stop : C unit :=
  let! started := gets nc_started in
  if negb started then ret tt
  else
    let! loop := gets nc_loop in
    (match loop with
     | TryingToConnect client _ _ => (match client with Some c => lib_ (mqtt_Disconnect c) | None => ret tt end) ;; end_loop client
     | Listening client => end_loop (Some client)
     | NoLoop | NcPanicked => ret tt
     end) ;;
    set! nc_started := false.

Definition Revoke (purgeSession : bool) : C bool :=
  let! started := gets nc_started in
  if started : bool then ret false
  else
    let! r := attempt (on_creds (RevokeCredentials purgeSession)) in
    ret (match r with Ok ok => ok | Err _ => false end).

(** ** Steps of the goroutine *)

(** The pause is over, or the first try. *)
Definition nc_try : C unit :=
  let! loop := gets nc_loop in
  match loop with TryingToConnect client state tries => connect_turn client state tries | _ => ret tt end.

(** The library lost the connection. *)
Definition nc_lost (notAuthorised : bool) : C unit :=
  let! loop := gets nc_loop in
  match loop with
  | Listening c => connect_turn (Some c) (if notAuthorised then needsAuthorization else connecting) 0
  | _ => ret tt
  end.

Definition nc_message (msg : string) : C unit :=
  let! loop := gets nc_loop in
  match loop with Listening c => handleMessage c msg | _ => ret tt end.

(** [network.ExponentialBackoff]: the least and the largest pause in seconds. *)
Definition ExponentialBackoff (tries : Z) : Z * Z :=
  if tries <? 3 then (5, 10) else if tries <? 10 then (10, 60) else if tries <? 20 then (60, 300) else (300, 600).
End Client.
