(* ===== verification/NcProps.v ===== *)
(** * NcProps: properties of the client of the notification centre

    At most one client is connected, only while it listens, and none after a stop;
    credentials from the API are kept; credentials that are not complete keep the client
    from ever connecting. *)

From stdpp Require Import base option list strings gmap sets.
From Stdlib Require Import ZArith Lia.
From S2P Require Import Prelude GoLib Mesh Config Auth Servers Nc.
Set Warnings "-clear-no-such-hyp".

Open Scope Z_scope.
Open Scope go_scope.

(** The library: which clients are connected.  Only [Connect] adds one, its own; an
    attempt that fails adds none, one that is late may; disconnecting and losing the
    connection end it; nothing else connects. *)
Class NcLaws (E : Type) `{ConfigManager E} `{CredentialsAPI E} `{NcEnv E} : Type := {
  nc_connected : E -> gset nat;
  mqtt_lose : nat -> E -> E;
  lose_ends c e : nc_connected (mqtt_lose c e) ⊆ nc_connected e ∖ {[c]};
  disconnect_ends c e : nc_connected (mqtt_Disconnect c e) ⊆ nc_connected e ∖ {[c]};
  connect_own c e : nc_connected (mqtt_Connect c e).2 ⊆ {[c]} ∪ nc_connected e;
  connect_failed c e a err e' : mqtt_Connect c e = (ConnectError a err, e') -> nc_connected e' ⊆ nc_connected e;
  newclient_quiet o e : nc_connected (mqtt_NewClient o e).2 ⊆ nc_connected e;
  subscribe_quiet c l e : nc_connected (mqtt_SubscribeMultiple c l e).2 ⊆ nc_connected e;
  unsubscribe_quiet c l e : nc_connected (mqtt_Unsubscribe c l e) ⊆ nc_connected e;
  publish_quiet c t p e : nc_connected (mqtt_Publish c t p e).2 ⊆ nc_connected e;
  uuid_quiet e : nc_connected (uuid_New e).2 ⊆ nc_connected e;
  load_quiet e : nc_connected (cm_load e).2 ⊆ nc_connected e;
  save_quiet e : nc_connected (cm_save e).2 ⊆ nc_connected e;
  credentials_quiet t u e : nc_connected (creds_NotificationCredentials t u e).2 ⊆ nc_connected e;
  revoke_quiet t u b e : nc_connected (creds_NotificationCredentialsRevoke t u b e).2 ⊆ nc_connected e
}.

Section Connections.
Context {E : Type} `{NcLaws E}.

Definition live (c : NcClient E) : gset nat := nc_connected (so_env (nc_store c)).

(** ** What connects nothing *)

Section Quiet.
Context (L : gset nat).
#[local] Abbreviation on_store := (fun s : Store E => nc_connected (so_env s) ⊆ L).
#[local] Abbreviation on_client := (fun c : NcClient E => live c ⊆ L).

Lemma quiet_ask {A} (f : E -> A * E) : (forall e, nc_connected (f e).2 ⊆ nc_connected e) -> preserves on_store (ask f).
Proof. intros Hf s Hs. unfold ask. specialize (Hf (so_env s)). destruct (f (so_env s)). cbn in *. set_solver. Qed.
Lemma quiet_env {A} (m : M E A) : (forall e, nc_connected (m e).2 ⊆ nc_connected e) -> preserves on_store (in_env m).
Proof. intros Hf s Hs. unfold in_env, zoom. specialize (Hf (so_env s)). destruct (m (so_env s)). cbn in *. set_solver. Qed.
Lemma quiet_Load : preserves on_store cm_Load.
Proof. unfold cm_Load. apply preserves_bind; [apply quiet_ask, load_quiet|]. intros [[]|]; [apply preserves_throw|apply preserves_gets]. Qed.
Lemma quiet_SaveWith f : preserves on_store (cm_SaveWith f).
Proof. unfold cm_SaveWith. apply preserves_bind; [apply quiet_ask, save_quiet|]. intros [|]; [apply preserves_throw|by apply preserves_modify]. Qed.
#[local] Hint Resolve quiet_ask quiet_env quiet_Load quiet_SaveWith uuid_quiet credentials_quiet revoke_quiet : pres.

Lemma quiet_FromConfig : preserves on_store GetCredentialsFromConfig.
Proof. unfold GetCredentialsFromConfig, load_user. pres_auto. Qed.
Lemma quiet_FromAPI : preserves on_store GetCredentialsFromAPI.
Proof. unfold GetCredentialsFromAPI, load_user, save_nc_data. pres_auto. Qed.
Lemma quiet_Revoke purge : preserves on_store (RevokeCredentials purge).
Proof. unfold RevokeCredentials, load_user. pres_auto. Qed.

(** A client whose goroutine stays where it is, with connections in [L]. *)
Definition frame (loop : NcLoop) (started : bool) (c : NcClient E) : Prop := live c ⊆ L /\ nc_loop c = loop /\ nc_started c = started.

Lemma frame_creds {A} (m : M (Store E) A) loop started : preserves on_store m -> preserves (frame loop started) (on_creds m).
Proof. intros Hm c (Hl & Hp & Hs). unfold on_creds, zoom. specialize (Hm (nc_store c) Hl). by destruct (m (nc_store c)). Qed.
Lemma frame_publish p loop started : preserves (frame loop started) (publish p).
Proof. by apply preserves_modify. Qed.
Lemma frame_lib {A} (f : E -> A * E) loop started : (forall e, nc_connected (f e).2 ⊆ nc_connected e) -> preserves (frame loop started) (lib f).
Proof. intros Hf. by apply frame_creds, quiet_ask. Qed.
Lemma frame_lib_ (f : E -> E) loop started : (forall e, nc_connected (f e) ⊆ nc_connected e) -> preserves (frame loop started) (lib_ f).
Proof. intros Hf. by apply frame_creds, quiet_ask. Qed.
#[local] Hint Resolve frame_creds frame_publish frame_lib frame_lib_ newclient_quiet subscribe_quiet unsubscribe_quiet publish_quiet : pres.

Lemma frame_of_result {A} (r : result A) loop started : preserves (frame loop started) (of_result r).
Proof. destruct r; [apply preserves_ret|apply preserves_throw]. Qed.
#[local] Hint Resolve frame_of_result : pres.

Lemma frame_handleMessage h msg loop started : preserves (frame loop started) (handleMessage h msg).
Proof. unfold handleMessage, report_error, sendDeliveryConfirmation, sendAcknowledgement. pres_auto. Qed.
End Quiet.

Lemma frame_disconnect h loop started c : frame {[h]} loop started c -> frame ∅ loop started (lib_ (mqtt_Disconnect h) c).2.
Proof.
  intros (Hl & Hp & Hs). unfold lib_, on_creds, zoom, ask, frame, live in *. cbn. split_and!; [|done..].
  pose proof (disconnect_ends h (so_env (nc_store c))). set_solver.
Qed.

Lemma frame_weaken L L' loop started c : L ⊆ L' -> frame L loop started c -> frame L' loop started c.
Proof. intros HL (Hl & Hp & Hs). split_and!; [set_solver|done..]. Qed.

(** ** One try *)

Definition connected_after (h : nat) (st : connectionState) : gset nat := match st with connectedSuccessfully => {[h]} | _ => ∅ end.

Lemma connect_client_spec h loop started c : frame ∅ loop started c ->
  exists st c', connect_client (Some h) c = (Ok (Some (Some h, st)), c') /\ frame (connected_after h st) loop started c'.
Proof.
  intros (Hl & Hp & Hs). unfold connect_client, lib, on_creds, zoom, ask. unfold bind at 1.
  pose proof (connect_own h (so_env (nc_store c))) as Hown. pose proof (connect_failed h (so_env (nc_store c))) as Hfail.
  unfold live in Hl. destruct (mqtt_Connect h (so_env (nc_store c))) as [[|[] err|] e]; cbn in Hown.
  - eexists connecting, _. split; [reflexivity|]. apply (frame_disconnect h loop started). split_and!; [cbn; set_solver|done..].
  - eexists needsAuthorization, _. split; [reflexivity|]. specialize (Hfail _ _ _ eq_refl). split_and!; [cbn; set_solver|done..].
  - eexists connecting, _. split; [reflexivity|]. specialize (Hfail _ _ _ eq_refl). split_and!; [cbn; set_solver|done..].
  - eexists connectedSuccessfully, _. split; [reflexivity|]. split_and!; [cbn; set_solver|done..].
Qed.

(** A client without credentials needs them. *)
Definition ready (client : option nat) (st : connectionState) : Prop := st <> connectedSuccessfully /\ (client = None -> st = needsAuthorization).

Lemma tryConnect_spec client st loop started c : ready client st -> frame ∅ loop started c ->
  exists client' st' c', tryConnect client st c = (Ok (Some (client', st')), c') /\
    match st', client' with
    | connectedSuccessfully, Some h => frame {[h]} loop started c'
    | connectedSuccessfully, None => False
    | _, _ => ready client' st' /\ frame ∅ loop started c'
    end.
Proof.
  intros [Hst Hready] Hc.
  assert (Hconnect : forall h c0, frame ∅ loop started c0 -> exists client' st' c', connect_client (Some h) c0 = (Ok (Some (client', st')), c') /\
    match st', client' with
    | connectedSuccessfully, Some h => frame {[h]} loop started c'
    | connectedSuccessfully, None => False
    | _, _ => ready client' st' /\ frame ∅ loop started c'
    end).
  { intros h c0 Hc0. destruct (connect_client_spec h loop started c0 Hc0) as (st' & c' & Hrun & Hf). exists (Some h), st', c'. split; [done|].
    by destruct st'. }
  destruct st; [| |done]; cbn [tryConnect].
  - unfold bind at 1, attempt. pose proof (frame_creds ∅ _ loop started (quiet_FromAPI ∅) c Hc) as Hf.
    destruct (on_creds GetCredentialsFromAPI c) as [[credentials|err] c1]; cbn in Hf.
    + pose proof (frame_lib ∅ (mqtt_NewClient (createClientOptions credentials)) loop started (newclient_quiet _) c1 Hf) as Hf2.
      unfold lib, on_creds, zoom, ask in Hf2 |- *. unfold bind at 1. destruct (mqtt_NewClient _ _) as [h e]. by apply Hconnect.
    + eexists client, needsAuthorization, c1. split; [reflexivity|]. by split.
  - destruct client as [h|]; [by apply Hconnect|]. by specialize (Hready eq_refl).
Qed.

(** ** Every state *)

Definition inv (c : NcClient E) : Prop :=
  match nc_loop c with
  | NoLoop => live c ⊆ ∅ /\ nc_started c = false
  | TryingToConnect client st _ => live c ⊆ ∅ /\ ready client st /\ nc_started c = true
  | Listening h => live c ⊆ {[h]} /\ nc_started c = true
  | NcPanicked => False
  end.

Lemma connect_turn_inv client st tries loop c : ready client st -> frame ∅ loop true c -> inv (connect_turn client st tries c).2.
Proof.
  intros Hready Hc. unfold connect_turn. destruct (tryConnect_spec client st loop true c Hready Hc) as (client' & st' & c' & Hrun & Hpost).
  rewrite (bind_Ok _ _ _ _ _ Hrun). destruct st'; [..|destruct client' as [h|]; [|done]].
  - destruct Hpost as [Hr (Hl & _ & Hs)], client'; by split_and!.
  - destruct Hpost as [Hr (Hl & _ & Hs)], client'; by split_and!.
  - pose proof (frame_lib {[h]} (mqtt_SubscribeMultiple h subscriptions) loop true (subscribe_quiet _ _) c' Hpost) as Hf.
    unfold bind at 1. destruct (lib _ c') as [[err|err] c1] eqn:Hlib; [|by unfold lib, on_creds, zoom, ask in Hlib; destruct (mqtt_SubscribeMultiple _ _ _)].
    destruct Hf as (Hl & _ & Hs). destruct err; by split.
Qed.

Lemma loop_start c : frame ∅ NoLoop false c ->
  let '(r, c') := ncClientManagementLoop c in
  live c' ⊆ ∅ /\ nc_started c' = false /\
  match r with
  | Ok _ => exists client st tries, nc_loop c' = TryingToConnect client st tries /\ ready client st
  | Err _ => nc_loop c' = NoLoop
  end.
Proof.
  intros Hf. unfold ncClientManagementLoop. pose proof (frame_creds ∅ _ NoLoop false (quiet_FromConfig ∅) c Hf) as Hf1.
  destruct (on_creds GetCredentialsFromConfig c) as [[credentials|err] c1] eqn:Hg; rewrite (bind_attempt _ _ _ _ _ Hg); cbn in Hf1.
  - pose proof (frame_lib ∅ (mqtt_NewClient (createClientOptions credentials)) NoLoop false (newclient_quiet _) c1 Hf1) as (Hl & _ & Hs).
    destruct (lib (mqtt_NewClient (createClientOptions credentials)) c1) as [[h|err] c2] eqn:Hn.
    + rewrite (bind_Ok _ _ _ _ _ Hn). cbn. split_and!; [done|done|]. eexists _, _, _. split; [done|]. by split.
    + unfold lib, on_creds, zoom, ask in Hn. by destruct (mqtt_NewClient _ _).
  - destruct Hf1 as (Hl & Hp & Hs). destruct (errors_Is err ErrInvalidCredentials); cbn; split_and!; [done|done| |done..].
    eexists _, _, _. split; [done|]. by split.
Qed.

Lemma Start_inv c : inv c -> inv (Start c).2.
Proof.
  intros Hc. unfold Start. unfold bind at 1, gets. destruct (nc_started c) eqn:Hs; [done|].
  assert (Hf : frame ∅ NoLoop false c).
  { unfold inv in Hc. destruct (nc_loop c) eqn:Hp; [by destruct Hc; split_and!|..]; [destruct Hc as (_ & _ & ?)|destruct Hc as (_ & ?)|done]; congruence. }
  pose proof (loop_start c Hf) as Hloop. unfold wrapped, bind. destruct (ncClientManagementLoop c) as [[[]|err] c1]; destruct Hloop as (Hl & Hst & Hp).
  - destruct Hp as (client & st & tries & Hp & Hr). unfold inv. cbn. rewrite Hp. by split_and!.
  - unfold inv. cbn. by rewrite Hp.
Qed.

Lemma end_loop_spec h c : live c ⊆ {[h]} ->
  exists c', end_loop (Some h) c = (Ok tt, c') /\ live c' ⊆ ∅ /\ nc_loop c' = NoLoop.
Proof.
  intros Hl. unfold end_loop, lib_, on_creds, zoom, ask, bind. eexists. split; [reflexivity|]. unfold live in *. cbn. split; [|done].
  pose proof (disconnect_ends h (mqtt_Unsubscribe h unsubscriptions (so_env (nc_store c)))).
  pose proof (unsubscribe_quiet h unsubscriptions (so_env (nc_store c))). set_solver.
Qed.

Lemma Stop_ends c : inv c -> exists c', Stop c = (Ok tt, c') /\ live c' ⊆ ∅ /\ nc_loop c' = NoLoop /\ nc_started c' = false.
Proof.
  intros Hc. unfold Stop. unfold bind at 1, gets. unfold inv in Hc. destruct (nc_started c) eqn:Hs; cbn [negb].
  2:{ exists c. split; [done|]. destruct (nc_loop c); [by destruct Hc; split_and!|destruct Hc as (_ & _ & ?); congruence|destruct Hc; congruence|done]. }
  unfold bind at 1, gets. destruct (nc_loop c) as [|client st tries|h|] eqn:Hp0; [destruct Hc; congruence| | |done].
  - destruct Hc as (Hl & _ & _). destruct client as [h|].
    + destruct (frame_disconnect h (nc_loop c) (nc_started c) c) as (Hd & _); [split_and!; set_solver|].
      destruct (lib_ (mqtt_Disconnect h) c) as [[[]|err] c1] eqn:Hdis; [|by unfold lib_, on_creds, zoom, ask in Hdis].
      destruct (end_loop_spec h c1) as (c2 & Hend & Hl2 & Hp2); [cbn in Hd; set_solver|].
      erewrite bind_Ok; [|by rewrite (bind_Ok _ _ _ _ _ Hdis)]. eexists. split; [reflexivity|]. by split_and!.
    + eexists. split; [reflexivity|]. by split_and!.
  - destruct Hc as (Hl & _). destruct (end_loop_spec h c Hl) as (c1 & Hend & Hl1 & Hp1). rewrite (bind_Ok _ _ _ _ _ Hend).
    eexists. split; [reflexivity|]. by split_and!.
Qed.

Inductive NcOp : Type := NcStart | NcStop | NcRevoke (purge : bool) | NcTry | NcLost (notAuthorised : bool) | NcMessage (msg : string).

(** The library loses the connection before it says so. *)
Definition nc_step (op : NcOp) (c : NcClient E) : NcClient E :=
  match op with
  | NcStart => (Start c).2
  | NcStop => (Stop c).2
  | NcRevoke purge => (Revoke purge c).2
  | NcTry => (nc_try c).2
  | NcLost notAuthorised => match nc_loop c with Listening h => (nc_lost notAuthorised (lib_ (mqtt_lose h) c).2).2 | _ => c end
  | NcMessage msg => (nc_message msg c).2
  end.
Definition nc_run (ops : list NcOp) (c : NcClient E) : NcClient E := foldl (fun c op => nc_step op c) c ops.

Lemma frame_inv c c' : inv c -> frame (live c) (nc_loop c) (nc_started c) c' -> inv c'.
Proof.
  unfold inv. intros Hc (Hl & -> & ->). destruct (nc_loop c); [..|done].
  - destruct Hc; split; [set_solver|done].
  - destruct Hc as (? & ? & ?); split_and!; [set_solver|done..].
  - destruct Hc; split; [set_solver|done].
Qed.

Lemma nc_step_inv op c : inv c -> inv (nc_step op c).
Proof.
  intros Hc. assert (Hself : frame (live c) (nc_loop c) (nc_started c) c) by by split_and!. destruct op; cbn [nc_step].
  - by apply Start_inv.
  - destruct (Stop_ends c Hc) as (c' & -> & Hl & Hp & Hs). unfold inv. cbn. by rewrite Hp.
  - apply (frame_inv c); [done|]. unfold Revoke. unfold bind at 1, gets. destruct (nc_started c) eqn:Hs; [exact Hself|].
    assert (Hp : preserves (frame (live c) (nc_loop c) false) (let! r := attempt (on_creds (RevokeCredentials purge)) in
      ret (match r with Ok ok => ok | Err _ => false end))).
    { apply preserves_bind; [|intros; apply preserves_ret]. apply preserves_attempt, frame_creds, quiet_Revoke. }
    by apply Hp.
  - unfold nc_try. unfold bind at 1, gets. unfold inv in Hc. destruct (nc_loop c) as [|client st tries|h|] eqn:Hp; try (unfold inv; cbn; by rewrite Hp).
    destruct Hc as (Hl & Hr & Hs). apply (connect_turn_inv client st tries (nc_loop c)); [done|]. by split_and!.
  - unfold inv in Hc. destruct (nc_loop c) as [|client st tries|h|] eqn:Hp; try (unfold inv; by rewrite Hp). destruct Hc as [Hl Hs].
    unfold nc_lost. unfold bind at 1, gets. unfold lib_, on_creds, zoom, ask. cbn. rewrite Hp.
    apply (connect_turn_inv _ _ _ (Listening h)); [by destruct notAuthorised|].
    unfold frame, live. cbn. split_and!; [|done..]. pose proof (lose_ends h (so_env (nc_store c))). unfold live in Hl. set_solver.
  - apply (frame_inv c); [done|]. unfold nc_message. unfold bind at 1, gets. destruct (nc_loop c) eqn:Hp; rewrite ?Hp in Hself |- *; try done.
    by apply frame_handleMessage.
Qed.

(** C39: there is at most one connection.  In every state that starting, stopping,
    revoking, trying, losing connections and receiving messages lead to, whichever calls
    fail, only the client that listens is connected, a client that was not made is never
    used, and after a stop nothing is connected and the goroutine has ended. *)
Theorem one_connection (ops : list NcOp) (store : Store E) (Hstore : nc_connected (so_env store) = ∅) :
  let c := nc_run ops (NewClient store) in
  nc_loop c <> NcPanicked /\ live c ⊆ match nc_loop c with Listening h => {[h]} | _ => ∅ end /\
  live (nc_step NcStop c) = ∅ /\ nc_loop (nc_step NcStop c) = NoLoop /\ nc_started (nc_step NcStop c) = false.
Proof.
  intros c. assert (Hinv : inv c).
  { assert (Hnew : inv (NewClient store)) by (unfold inv, live; cbn; by rewrite Hstore).
    subst c. unfold nc_run. revert Hnew. generalize (NewClient store). induction ops as [|op ops IH]; intros c Hc; [done|]. by apply IH, nc_step_inv. }
  destruct (Stop_ends c Hinv) as (c' & Hstop & Hl & Hp & Hs). cbn [nc_step]. rewrite Hstop. cbn. unfold inv in Hinv. split_and!; [| |set_solver|done|done].
  - by intros Hn; rewrite Hn in Hinv.
  - destruct (nc_loop c); [by destruct Hinv..|done].
Qed.
End Connections.

(** ** Credentials *)

Section Credentials.
Context {E : Type} `{ConfigManager E} `{CredentialsAPI E} `{NcEnv E}.

(** What is stored for the user who is logged in. *)
Definition stored_nc_data (s : Store E) : NCData := td_NCData (token_of (so_cfg s) (ac_ID (cfg_AutoConnectData (so_cfg s)))).

Lemma save_nc_data_stored id d s u s' : id = ac_ID (cfg_AutoConnectData (so_cfg s)) -> save_nc_data id d s = (Ok u, s') ->
  stored_nc_data s' = d /\ ac_ID (cfg_AutoConnectData (so_cfg s')) = ac_ID (cfg_AutoConnectData (so_cfg s)).
Proof.
  intros ->. unfold save_nc_data, cm_SaveWith, ask, bind, modify, throw. destruct (cm_save (so_env s)) as [[err|] e]; [done|]. intros [= _ <-].
  cbn. split; [|done]. unfold stored_nc_data, token_of. cbn. by rewrite lookup_insert_eq.
Qed.

Lemma load_user_config s r s' : load_user s = (r, s') -> so_cfg s' = so_cfg s /\
  match r with Ok (id, data) => id = ac_ID (cfg_AutoConnectData (so_cfg s)) /\ data = token_of (so_cfg s) id | Err _ => True end.
Proof.
  unfold load_user, wrapped, cm_Load, ask, bind, gets, throw, ret. destruct (cm_load (so_env s)) as [[[err c]|] e];
    intros Heq; injection Heq as <- <-; [split; [reflexivity|exact I]|split; [reflexivity|split; reflexivity]].
Qed.

(** The credentials that the API gave are those that the configuration gives afterwards. *)
Lemma api_credentials_stored s d s' : GetCredentialsFromAPI s = (Ok d, s') -> stored_nc_data s' = d.
Proof.
  unfold GetCredentialsFromAPI. unfold bind at 1. destruct (load_user s) as [[[userID data]|] s1] eqn:Hload; [|done].
  destruct (load_user_config _ _ _ Hload) as (Hcfg & -> & ->). unfold bind at 1.
  set (id := ac_ID (cfg_AutoConnectData (so_cfg s))).
  match goal with |- (let (_, _) := ?m s1 in _) = _ -> _ => assert (Hid : forall n s2, m s1 = (Ok n, s2) ->
    ac_ID (cfg_AutoConnectData (so_cfg s2)) = id); [|destruct (m s1) as [[ncData|] s2] eqn:Huser; [specialize (Hid _ _ eq_refl)|done]] end.
  { intros n s2. destruct (IsUserIDEmpty _); [|by intros [= _ <-]; rewrite Hcfg]. unfold ask, wrapped, bind. destruct (uuid_New _) as [u e].
    match goal with |- context [save_nc_data id ?d ?s] => destruct (save_nc_data id d s) as [[]s3] eqn:Hsave end; [|done]. intros [= _ <-].
    assert (Heq : id = ac_ID (cfg_AutoConnectData (so_cfg (s1 <| so_env := e |>)))) by (cbn; by rewrite Hcfg).
    destruct (save_nc_data_stored _ _ _ _ _ Heq Hsave) as [_ ->]. exact (eq_sym Heq). }
  unfold wrapped, in_env, zoom. unfold bind at 1. destruct (creds_NotificationCredentials _ _ _) as [[resp|] e]; [|done].
  unfold bind. destruct (save_nc_data id _ _) as [[u|] s3] eqn:Hsave; [|done]. intros [= <- <-].
  assert (Heq : id = ac_ID (cfg_AutoConnectData (so_cfg (s2 <| so_env := e |>)))) by exact (eq_sym Hid).
  exact (proj1 (save_nc_data_stored _ _ _ _ _ Heq Hsave)).
Qed.

(** The identifier of the user alone counts as credentials, so after the API failed once
    the next start connects without an address and a name ... *)
Lemma identifier_alone_is_valid id : id <> "" -> id <> uuid_Nil -> areNCCredentialsValid (mkNCData id "" "" "") = true.
Proof.
  intros Hne Hnil. unfold areNCCredentialsValid, IsUserIDEmpty, uuid_String. cbn [nc_UserID]. rewrite (bool_decide_false (id = "")) by done.
  by rewrite bool_decide_false.
Qed.

(** ... and goes on with them as long as the attempt fails otherwise than by a refusal. *)
Lemma failing_credentials_kept h tries (c : NcClient E) err e :
  mqtt_Connect h (so_env (nc_store c)) = (ConnectError false err, e) ->
  exists c', connect_turn (Some h) connecting tries c = (Ok tt, c') /\ nc_loop c' = TryingToConnect (Some h) connecting (S tries) /\
    so_cfg (nc_store c') = so_cfg (nc_store c) /\ so_env (nc_store c') = e.
Proof.
  intros Hc. unfold connect_turn, tryConnect, connect_client, lib, on_creds, zoom, ask, bind. rewrite Hc. cbn. by eexists.
Qed.
End Credentials.

(** ** A sample *)

Module NcBox.
(** The connected clients, and how many were made. *)
Definition Box : Type := gset nat * nat.
#[export] Instance cm : ConfigManager Box := {| cm_load := fun e => (None, e); cm_save := fun e => (None, e) |}.
#[export] Instance api : CredentialsAPI Box := {|
  creds_TokenRenew := fun _ => throw (Errorf "offline");
  creds_NotificationCredentials := fun _ _ => ret (mkNotificationCredentialsResponse "mqtt.example" "name" "secret");
  creds_TrustedPassToken := fun _ => throw (Errorf "offline");
  creds_ServiceCredentials := fun _ => throw (Errorf "offline");
  creds_Services := fun _ => ret [];
  creds_MultifactorAuthStatus := fun _ => ret "";
  time_UnixNano := fun e => (0, e);
  range_tokens := fun m e => (map_to_list m, e)
|}.
#[export] Instance env : NcEnv Box := {|
  creds_NotificationCredentialsRevoke := fun _ _ _ => ret "OK";
  uuid_New := fun e => ("f81d4fae-7dec-11d0-a765-00a0c91e6bf6", e);
  mqtt_NewClient := fun _ e => (e.2, (e.1, S e.2));
  mqtt_Connect := fun c e => (ConnectOk, ({[c]} ∪ e.1, e.2));
  mqtt_Disconnect := fun c e => (e.1 ∖ {[c]}, e.2);
  mqtt_SubscribeMultiple := fun _ _ e => (None, e);
  mqtt_Unsubscribe := fun _ _ e => e;
  mqtt_Publish := fun _ _ _ => ret tt;
  mqtt_ClientID := fun _ _ => "f81d4fae-7dec-11d0-a765-00a0c91e6bf6";
  json_Unmarshal_RecPayload := fun s =>
    (mkRecPayload (mkEventPayload typeMeshnet (mkAttributePayload "" 0 "" ["peer"]))
       (mkMetadataPayload false 0 "id" "f81d4fae-7dec-11d0-a765-00a0c91e6bf6") (mkNotificationPayload "" "" []), None);
  json_Marshal_Confirmation := fun _ => Ok "{}";
  json_Marshal_Acknowledgement := fun _ => Ok "{}"
|}.
#[export] Instance laws : NcLaws Box.
Proof.
  refine {| nc_connected := fun e => e.1; mqtt_lose := fun c e => (e.1 ∖ {[c]}, e.2) |}; intros; cbn; try done; set_solver.
Defined.

Definition store : Store Box := mkStore (newConfig "id") (∅, 0%nat).
Definition ops : list NcOp := [NcStart; NcTry; NcMessage "{}"; NcLost true; NcRevoke false].
Example meshnet_update_published :
  nc_published (nc_run ops (NewClient store)) = [NcInfo "[NC] Connected"; NcPeerUpdate ["peer"]; NcInfo "[NC] Connected"].
Proof. vm_compute. reflexivity. Qed.

Lemma one_connection_witness :
  live (nc_run ops (NewClient store)) ⊆ match nc_loop (nc_run ops (NewClient store)) with Listening h => {[h]} | _ => ∅ end /\
  live (nc_step NcStop (nc_run ops (NewClient store))) = ∅.
Proof.
  destruct (one_connection ops store) as (_ & Hlive & Hstop & _); [reflexivity|]. split; [exact Hlive|exact Hstop].
Defined.
End NcBox.
