(* ===== verification/Remote.v ===== *)
(** * Remote: the remote configuration

    Models [config/remote/firebase.go]: the cached configuration and when it is fetched
    again, its values, and the choice of the field for the version of the program; with
    the properties of that choice and of the fetching.

    The service, the clock, the versions of [semver] and decoding are parameters. *)

From stdpp Require Import base option list strings gmap sorting.
From Stdlib Require Import ZArith Ascii Lia.
From S2P Require Import Prelude GoLib Mesh Config Auth Servers.
Set Warnings "-clear-no-such-hyp".

Open Scope Z_scope.
Open Scope go_scope.

Definition RcTelioConfigFieldPrefix : string := "telio_config_".

(** The values of the keys; a parameter without a default value is a nil pointer. *)
Abbreviation RcParameters := (gmap string (option string)).

Class Semver (V : Type) : Type := { semver_NewVersion : string -> option V; semver_Compare : V -> V -> Z }.
Class SemverLaws (V : Type) `{Semver V} : Prop := {
  compare_refl (x : V) : semver_Compare x x <= 0;
  compare_total (x y : V) : semver_Compare x y <= 0 \/ semver_Compare y x <= 0;
  compare_trans (x y z : V) : semver_Compare x y <= 0 -> semver_Compare y z <= 0 -> semver_Compare x z <= 0;
  compare_sign (x y : V) : 0 <= semver_Compare x y <-> semver_Compare y x <= 0
}.

Class RemoteEnv (E : Type) : Type := {
  FetchRemoteConfig : M E string;
  rc_Now : E -> Z * E;
  (** a [time.Time] in the configuration, in nanoseconds *)
  rc_time : string -> Z;
  rc_text : Z -> string;
  (** decoding on top of what is there: the values and an error *)
  json_Unmarshal_rc : string -> RcParameters -> RcParameters * option error;
  (** the order of a [range] over the parameters *)
  range_parameters : RcParameters -> list string
}.
Class RemoteLaws (E : Type) `{RemoteEnv E} : Prop := {
  rc_time_text t : rc_time (rc_text t) = t;
  (** the entries of the map that the text does not name stay *)
  unmarshal_keeps s m k v : m !! k = Some v -> is_Some ((json_Unmarshal_rc s m).1 !! k);
  range_parameters_perm m : range_parameters m ≡ₚ (map_to_list m).*1
}.

(** ** Versions *)

Definition trim_prefix (s pre : string) : string := if has_prefix pre s then drop_str (String.length pre) s else s.

(** [strings.Replace(s, "v", "", 1)]. *)
Fixpoint drop_first_v (s : string) : string :=
  match s with EmptyString => EmptyString | String c s' => if Ascii.eqb c "v" then s' else String c (drop_first_v s') end.

Section Versions.
Context {V : Type} `{Semver V}.

Definition stringToSemVersion (stringVersion prefix : string) : option V :=
  let s := trim_suffix stringVersion "_test" in
  let s := trim_prefix s prefix in
  let s := if str_contains s "+" then default "" (head (split_char "+"%char s)) else s in
  let s := drop_first_v s in
  semver_NewVersion (strings_ReplaceAll s "_" ".").

(** [sort.Search]: halving the range while it is not empty. *)
Fixpoint search_loop (fuel : nat) (f : nat -> bool) (i j : nat) : nat :=
  match fuel with
  | O => i
  | S fuel' =>
      if (i <? j)%nat then
        let h := ((i + j) / 2)%nat in
        if f h then search_loop fuel' f i h else search_loop fuel' f (S h) j
      else i
  end.
Definition sort_Search (n : nat) (f : nat -> bool) : nat := search_loop n f 0 n.

(** A field with its version. *)
#[local] Abbreviation fieldVersion := (V * string)%type.

Definition insertFieldVersion (sourceArray : list fieldVersion) (s : fieldVersion) : list fieldVersion :=
  let i := sort_Search (length sourceArray)
    (fun i => match sourceArray !! i with Some x => semver_Compare x.1 s.1 <=? 0 | None => false end) in
  take i sourceArray ++ s :: drop i sourceArray.

Fixpoint findVersionField (sourceArray : list fieldVersion) (appVersion : V) : option string :=
  match sourceArray with
  | [] => None
  | item :: rest => if 0 <=? semver_Compare appVersion item.1 then Some item.2 else findVersionField rest appVersion
  end.

(** The loop of [GetTelioConfig] over the keys. *)
Definition order_fields (keys : list string) : list fieldVersion :=
  foldl (fun fields key =>
    if has_prefix RcTelioConfigFieldPrefix key then
      match stringToSemVersion key RcTelioConfigFieldPrefix with
      | Some ver => insertFieldVersion fields (ver, key)
      | None => fields
      end
    else fields) [] keys.
End Versions.

(** ** The configuration *)

Record RConfig (E : Type) : Type := mkRConfig { rc_updatePeriod : Z; rc_config : RcParameters; rc_store : Store E }.
Arguments mkRConfig {E} _ _ _.
Arguments rc_updatePeriod {E} _.
Arguments rc_config {E} _.
Arguments rc_store {E} _.
#[export] Instance RConfig_eta {E} : EtaExpand (RConfig E) := fun r => mkRConfig (rc_updatePeriod r) (rc_config r) (rc_store r).

Section Remote.
Context {E V : Type} `{ConfigManager E} `{RemoteEnv E} `{Semver V}.
#[local] Abbreviation R := (M (RConfig E)).

Definition NewRConfig (updatePeriod : Z) (store : Store E) : RConfig E := mkRConfig updatePeriod ∅ store.

Definition in_store {A} (m : M (Store E) A) : R A := zoom rc_store (fun t r => r <| rc_store := t |>) m.

(** The value that was fetched and the error; the time is saved in any case. *)
Definition fetchAndSaveRemoteConfig : M (Store E) string := 
  let! r := attempt (in_env FetchRemoteConfig) in
  let fetched :=
    match r with
    | Err e => Err (Wrapf "fetching the remote config failed: " e "")
    | Ok value =>
        match (json_Unmarshal_rc value ∅).2 with
        | Some e => Err (Wrapf "parsing the fetched remote config failed: " e "")
        | None => Ok value
        end
    end in
  let! now := ask rc_Now in
  cm_SaveWith (fun c =>
    let c := c <| cfg_RCLastUpdate := rc_text now |> in
    match fetched with Ok value => c <| cfg_RemoteConfig := value |> | Err _ => c end) ;;
  of_result fetched.

Definition fetchRemoteConfigIfTime : R unit :=
  let! cfg := wrapped "loading config: " (in_store cm_Load) "" in
  let! now := in_store (ask rc_Now) in
  let! period := gets rc_updatePeriod in
  let cached := cfg_RemoteConfig cfg in
  let! remoteConfig :=
    (if rc_time (cfg_RCLastUpdate cfg) + period <? now then
       let! r := attempt (in_store fetchAndSaveRemoteConfig) in
       match r with
       | Ok fetchedConfig => ret fetchedConfig
       | Err err => if bool_decide (cached = "") then throw err else ret cached
       end
     else ret cached) in
  let! config := gets rc_config in
  let '(config', err) := json_Unmarshal_rc remoteConfig config in
  (set! rc_config := config') ;;
  match err with Some e => throw (Wrapf "parsing remote config from JSON: " e "") | None => ret tt end.

(** A key whose parameter has no default value ends the program. *)
Definition GetValue (cfgKey : string) : R (outcome string) :=
  let! err := attempt fetchRemoteConfigIfTime in
  let! config := gets rc_config in
  match config !! cfgKey with
  | Some (Some value) => ret (Returned value)
  | Some None => ret (Panicked "invalid memory address or nil pointer dereference")
  | None => match err with Err e => throw e | Ok _ => throw (Errorf "key does not exist in remote config") end
  end.

Definition GetTelioConfig (stringVersion : string) : R (outcome string) :=
  let! err := attempt fetchRemoteConfigIfTime in
  let! config := gets rc_config in
  match (match err with Err e => if bool_decide (config = ∅) then Some e else None | Ok _ => None end) with
  | Some e => throw e
  | None =>
      match stringToSemVersion (V := V) stringVersion "" with
      | None => throw (Errorf "not a version")
      | Some appVersion =>
          match findVersionField (order_fields (range_parameters config)) appVersion with
          | None => throw (Errorf "version field not found in remote config")
          | Some versionField => GetValue versionField
          end
      end
  end.
End Remote.

(** ** Searching *)

Lemma search_loop_spec fuel f i j : (j - i <= fuel)%nat -> (i <= j)%nat ->
  (forall h k, (h <= k < j)%nat -> f h = true -> f k = true) ->
  (i <= search_loop fuel f i j <= j)%nat /\
  (forall k, (i <= k < search_loop fuel f i j)%nat -> f k = false) /\ (forall k, (search_loop fuel f i j <= k < j)%nat -> f k = true).
Proof.
  revert i j. induction fuel as [|fuel IH]; intros i j Hfuel Hij Hmono; cbn [search_loop].
  - split_and!; [lia|lia|intros; lia|intros; lia].
  - destruct (Nat.ltb_spec i j) as [Hlt|Hge]; [|split_and!; [lia|lia|intros; lia|intros; lia]].
    assert (Hh : (i <= (i + j) / 2 < j)%nat).
    { split; [apply Nat.div_le_lower_bound; lia|apply Nat.Div0.div_lt_upper_bound; lia]. }
    set (h := ((i + j) / 2)%nat) in *. destruct (f h) eqn:Hf.
    + destruct (IH i h) as (Hr & Hlow & Hhigh); [lia|lia|intros h' k Hk Ht; apply (Hmono h'); [lia|done]|].
      split_and!; [lia|lia|done|]. intros k Hk. destruct (decide (k < h)%nat); [apply Hhigh; lia|apply (Hmono h); [lia|done]].
    + destruct (IH (S h) j) as (Hr & Hlow & Hhigh); [lia|lia|done|]. split_and!; [lia|lia| |done].
      intros k Hk. destruct (decide (k <= h)%nat); [|apply Hlow; lia].
      destruct (f k) eqn:Hk'; [|done]. rewrite (Hmono k h) in Hf; [done|lia|done].
Qed.

(** The search finds where a monotone condition begins to hold; the number of the
    elements is fuel enough. *)
Lemma sort_Search_spec n f : (forall h k, (h <= k < n)%nat -> f h = true -> f k = true) ->
  (sort_Search n f <= n)%nat /\ (forall k, (k < sort_Search n f)%nat -> f k = false) /\ (forall k, (sort_Search n f <= k < n)%nat -> f k = true).
Proof.
  intros Hmono. unfold sort_Search. destruct (search_loop_spec n f 0 n) as (Hr & Hl & Hh); [lia|lia|done|].
  split_and!; [lia| |done]. intros k Hk. apply Hl. lia.
Qed.

(** ** The field of a version *)

Section Pick.
Context {V : Type} `{SemverLaws V}.
#[local] Abbreviation fieldVersion := (V * string)%type.

Definition newest_first (x y : fieldVersion) : Prop := semver_Compare y.1 x.1 <= 0.

Lemma newest_first_lookup l h k x y : StronglySorted newest_first l -> l !! h = Some x -> l !! k = Some y -> (h < k)%nat -> newest_first x y.
Proof.
  intros Hs. revert h k. induction Hs as [|z l Hs IH Hz]; intros h k Hh Hk Hlt; [done|]. destruct k as [|k]; [lia|]. cbn in Hk.
  destruct h as [|h]; [injection Hh as ->; apply (proj1 (Forall_forall _ _) Hz), list_elem_of_lookup; eauto|by apply (IH h k); [..|lia]].
Qed.

Lemma insertFieldVersion_spec l s : StronglySorted newest_first l ->
  StronglySorted newest_first (insertFieldVersion l s) /\ insertFieldVersion l s ≡ₚ s :: l.
Proof.
  intros Hl. unfold insertFieldVersion. set (f := fun i => _).
  destruct (sort_Search_spec (length l) f) as (Hr & Hlow & Hhigh).
  { intros h k Hk Ht. unfold f in *. destruct (l !! h) as [x|] eqn:Hx; [|done]. destruct (lookup_lt_is_Some_2 l k) as [y Hy]; [lia|]. rewrite Hy.
    apply Z.leb_le in Ht. apply Z.leb_le. destruct (decide (h = k)) as [->|Hne]; [congruence|].
    apply (compare_trans _ x.1); [|done]. apply (newest_first_lookup l h k); [done..|lia]. }
  set (i := sort_Search (length l) f) in *. rewrite <- (take_drop i l) in Hl. apply StronglySorted_app in Hl as (Hcross & Ht & Hd).
  split.
  - apply StronglySorted_app. split_and!; [|done|].
    + intros x y Hx [->|Hy]%elem_of_cons; [|by apply Hcross]. apply list_elem_of_lookup in Hx as [k Hk].
      apply lookup_take_Some in Hk as [Hk Hlt]. specialize (Hlow k Hlt). unfold f in Hlow. rewrite Hk in Hlow.
      apply Z.leb_gt in Hlow. destruct (compare_total x.1 s.1); [lia|done].
    + constructor; [done|]. apply Forall_forall. intros y Hy. apply list_elem_of_lookup in Hy as [k Hk]. rewrite lookup_drop in Hk.
      apply lookup_lt_Some in Hk as Hlt. specialize (Hhigh (i + k)%nat ltac:(lia)). unfold f in Hhigh. rewrite Hk in Hhigh. by apply Z.leb_le in Hhigh.
  - rewrite <- (take_drop i l) at 3. by rewrite Permutation_middle.
Qed.

(** The fields that name a version. *)
Definition candidates (keys : list string) : list fieldVersion :=
  omap (fun key => if has_prefix RcTelioConfigFieldPrefix key
    then (fun ver => (ver, key)) <$> stringToSemVersion key RcTelioConfigFieldPrefix else None) keys.

Lemma order_fields_spec keys : StronglySorted newest_first (order_fields (V := V) keys) /\ order_fields keys ≡ₚ candidates keys.
Proof.
  unfold order_fields. enough (Hgen : forall l, StronglySorted newest_first l ->
    let r := foldl (fun fields key => if has_prefix RcTelioConfigFieldPrefix key then
      match stringToSemVersion key RcTelioConfigFieldPrefix with Some ver => insertFieldVersion fields (ver, key) | None => fields end
      else fields) l keys in StronglySorted newest_first r /\ r ≡ₚ l ++ candidates keys).
  { apply (Hgen []). constructor. }
  induction keys as [|key keys IH]; intros l Hl; cbn [foldl]; [split; [done|]; by rewrite app_nil_r|].
  change (candidates (key :: keys)) with (match (if has_prefix RcTelioConfigFieldPrefix key
    then (fun ver => (ver, key)) <$> stringToSemVersion key RcTelioConfigFieldPrefix else None) with Some x => x :: candidates keys | None => candidates keys end).
  destruct (has_prefix RcTelioConfigFieldPrefix key); [|by apply IH].
  destruct (stringToSemVersion key RcTelioConfigFieldPrefix) as [ver|]; cbn; [|by apply IH].
  destruct (insertFieldVersion_spec l (ver, key) Hl) as [Hs Hp]. destruct (IH _ Hs) as [Hs' Hp']. split; [done|].
  rewrite Hp', Hp. apply Permutation_middle.
Qed.

Lemma findVersionField_spec l appVersion : StronglySorted newest_first l ->
  match findVersionField l appVersion with
  | Some name => exists ver, (ver, name) ∈ l /\ semver_Compare ver appVersion <= 0 /\
      forall x, x ∈ l -> semver_Compare x.1 appVersion <= 0 -> semver_Compare x.1 ver <= 0
  | None => forall x, x ∈ l -> ~ semver_Compare x.1 appVersion <= 0
  end.
Proof.
  intros Hs. induction Hs as [|x l Hs IH Hx]; cbn [findVersionField].
  - by intros x ?%elem_of_nil.
  - destruct (Z.leb_spec 0 (semver_Compare appVersion x.1)) as [Hle|Hgt].
    + exists x.1. split_and!; [rewrite <- surjective_pairing; by left|by apply compare_sign|].
      intros y [->|Hy]%elem_of_cons _; [apply compare_refl|]. by apply (proj1 (Forall_forall _ _) Hx y).
    + assert (Hnx : ~ semver_Compare x.1 appVersion <= 0) by (intros Hc%compare_sign; lia).
      destruct (findVersionField l appVersion) as [name|].
      * destruct IH as (ver & Hin & Hle & Hmax). exists ver. split_and!; [by right|done|]. intros y [->|Hy]%elem_of_cons Hyle; [done|by apply Hmax].
      * intros y [->|Hy]%elem_of_cons; [done|by apply IH].
Qed.

(** C40: the field for a version of the program, whatever the order of the parameters: it
    names a version that is not newer than the program's, and the newest of those; there is
    none only when every field is for a newer version. *)
Theorem telio_field_picked (keys : list string) (appVersion : V) :
  match findVersionField (order_fields keys) appVersion with
  | Some name => exists ver, (ver, name) ∈ candidates keys /\ semver_Compare ver appVersion <= 0 /\
      forall x, x ∈ candidates keys -> semver_Compare x.1 appVersion <= 0 -> semver_Compare x.1 ver <= 0
  | None => forall x, x ∈ candidates keys -> ~ semver_Compare x.1 appVersion <= 0
  end.
Proof.
  destruct (order_fields_spec keys) as [Hs Hp]. pose proof (findVersionField_spec _ appVersion Hs) as Hfind.
  assert (Hin : forall x, x ∈ candidates keys <-> x ∈ order_fields keys) by (intros x; by rewrite Hp).
  destruct (findVersionField _ appVersion) as [name|].
  - destruct Hfind as (ver & Hver & Hle & Hmax). exists ver. split_and!; [by apply Hin|done|]. intros x Hx%Hin. by apply Hmax.
  - intros x Hx%Hin. by apply Hfind.
Qed.
End Pick.

(** ** What is removed from the configuration *)

(** A key that was read once stays, whatever the service gives later: decoding goes on top
    of what was there. *)
Lemma removed_parameter_kept {E} `{ConfigManager E} `{RemoteLaws E} (r : RConfig E) k v :
  rc_config r !! k = Some v -> is_Some (rc_config (fetchRemoteConfigIfTime r).2 !! k).
Proof.
  intros Hk. unfold fetchRemoteConfigIfTime.
  assert (Hin : forall A (m : M (Store E) A) s, rc_config (in_store m s).2 = rc_config s) by (intros A m s; unfold in_store, zoom; by destruct (m (rc_store s))).
  unfold wrapped. unfold bind at 1. pose proof (Hin _ cm_Load r) as Hc1. destruct (in_store cm_Load r) as [[cfg|] r1]; cbn in Hc1; [|cbn; by rewrite Hc1].
  unfold bind at 1. pose proof (Hin _ (ask rc_Now) r1) as Hc2. destruct (in_store (ask rc_Now) r1) as [[now|] r2]; cbn in Hc2; [|cbn; by rewrite Hc2, Hc1].
  unfold bind at 1, gets. unfold bind at 1.
  match goal with |- context [(if ?c then ?a else ?b) r2] => assert (Hc3 : rc_config ((if c then a else b) r2).2 = rc_config r2) end.
  { destruct (_ <? now); [|done]. unfold bind, attempt. pose proof (Hin _ fetchAndSaveRemoteConfig r2) as Hf.
    destruct (in_store fetchAndSaveRemoteConfig r2) as [[]r3]; cbn in Hf; [done|]. by case_bool_decide. }
  match goal with |- context [(if ?c then ?a else ?b) r2] => destruct ((if c then a else b) r2) as [[remote|] r3] end; cbn in Hc3; [|cbn; by rewrite Hc3, Hc2, Hc1].
  unfold bind at 1. destruct (unmarshal_keeps (E := E) remote (rc_config r3) k v) as [w Hw]; [by rewrite Hc3, Hc2, Hc1|].
  destruct (json_Unmarshal_rc remote (rc_config r3)) as [config' [err|]]; cbn; eauto.
Qed.

(** ** A sample *)

Module RemoteBox.
(** Versions of one number. *)
#[export] Instance semver : Semver Z := {| semver_NewVersion := fun s => atoi s; semver_Compare := fun x y => x - y |}.
#[export] Instance laws : SemverLaws Z.
Proof. split; cbn; intros; lia. Qed.

Example picked : findVersionField (V := Z) (order_fields ["telio_config_3"; "min_version"; "telio_config_12"; "telio_config_7"]) 11 = Some "telio_config_7".
Proof. vm_compute. reflexivity. Qed.
Example version_text : stringToSemVersion (V := Z) "v3+dev_test" "" = Some 3.
Proof. reflexivity. Qed.

Lemma telio_field_picked_witness :
  exists ver : Z, (ver, "telio_config_7") ∈ candidates ["telio_config_3"; "telio_config_12"; "telio_config_7"] /\ ver - 11 <= 0.
Proof.
  destruct (telio_field_picked (V := Z) ["telio_config_3"; "telio_config_12"; "telio_config_7"] 11) as (ver & Hin & Hle & _).
  exists ver. split; [exact Hin|exact Hle].
Defined.
End RemoteBox.
